(* ===== verification/_CoqProject ===== *)
-Q . S2P
Prelude.v
CString.v
Users.v
Spinlock.v
Kalloc.v
Vm.v
VmSpace.v
VmUser.v
ProcData.v
Mlfq.v
ProcTable.v
Threads.v
MultiLevel.v
Block.v
Bio.v
Log.v
LogCrash.v
Fs.v
FsPath.v
FsTxn.v
FsBlocks.v
FsFile.v
FsData.v
FsWrite.v
FsDir.v
FsTrunc.v
Ring.v
Pipe.v
Syscall.v
Exec.v
ExecStack.v
File.v
Sysfile.v
FsFrame.v
SysfileRefs.v
SysfileAccess.v
Filters.v
Printf.v
Console.v
Umalloc.v
Shell.v
ShellPrint.v
ShellRun.v
Ide.v
Mkfs.v
MkfsImage.v
MkfsBoot.v
Kbd.v
Trap.v
Bootmain.v
Mp.v
Apic.v
Ls.v
QueueTest.v
