(* ===== verification/Prelude.v ===== *)
(** * A verification development of the HYU-ELE3021 xv6 kernel

    The repository is a 32-bit x86 teaching kernel (xv6) with the course's
    additions: a multi-level feedback queue and a multi-level queue scheduler,
    kernel threads, user accounts with file permissions, and a shell that knows
    them.  Sources are named relative to src/xv6-public/.

    ** The program

    The boot loader (bootmain.c) reads the kernel from the disk that mkfs.c
    built.  The kernel finds its processors (mp.c), programs the interrupt
    controllers (lapic.c, ioapic.c, picirq.c), takes the rest of memory for the
    page allocator (kalloc.c) and builds page tables (vm.c).  One of three
    process managers is linked in: proc.c (threads, the default), proc_MLFQ.c or
    proc_multiLevel.c.  Traps (trap.c) enter the system calls (syscall.c,
    sysproc.c, sysfile.c, exec.c); files are open file structures (file.c) over
    inodes (fs.c), pipes (pipe.c) or the console (console.c, kbd.c); inodes live
    in blocks behind a redo log (log.c), a buffer cache (bio.c, sleeplock.c) and a
    disk driver (ide.c or memide.c).  User programs use printf.c, umalloc.c and
    ulib.c; sh.c, grep.c, wc.c and ls.c are the ones modelled.

    ** How code is translated

    - Integers are in [Z]; [u8], [u16], [u32], [s32] are the wrap-around of the C
      types, written where it happens.  Byte memories are finite maps
      ([CString.mem]); pointers are addresses, or indices into a table where
      the source only points into one table.
    - A stateful routine is a function of the monad [M S A] below, on the record
      [S] of its component.  Its outcomes are [Ret], [Panic] (the kernel's
      [panic], an assertion or exit of a host program) and [Blocked], the state in
      which the routine goes to sleep, gives the CPU up or spins.  What happens
      after a sleep or a switch is a routine of its own, and the systems of
      several processes (Pipe, Spinlock, Mlfq, Threads) are step relations whose
      steps are the sections between sleeps.
    - Code that is not C code of the repository is a parameter: devices are
      classes of port and register operations with their documented behaviour as
      named laws (Ide, Bootmain, Mp, Apic), [read] of a user program, [sbrk], the
      host's files, the linker's symbols and addresses.  Where a theorem has such
      laws, a concrete device or reader satisfies them in its witness.
    - Components that call each other meet at interfaces: [BlockCache] (Bio
      for Log), [KernelOps] and [ExecOps] (what the process managers and exec
      call), [IdePorts], [Mmio], [Host], [Calls].

    ** The files

    - Prelude: integers, the monad, Hoare triples, tactics, hint databases.
      CString: byte memory, string.c and the string part of ulib.c.
    - Spinlock (spinlock.c), Kalloc (kalloc.c), Vm (the routines of vm.c),
      VmSpace (address spaces as maps), VmUser (what the routines do to them).
    - ProcData (proc.h), Mlfq (proc_MLFQ.c and the timer part of trap.c), ProcTable
      (what proc.c and proc_multiLevel.c share), Threads (proc.c), MultiLevel
      (proc_multiLevel.c), Trap (trap.c, sysproc.c).
    - Block (bytes of a block), Bio (bio.c, sleeplock.c, memide.c), Log (log.c),
      LogCrash (its crash safety), Ide (ide.c).
    - Fs (all of fs.c), FsPath (path names and records), FsTxn (file system code
      inside a transaction), FsBlocks (the free map), FsFile, FsData and FsWrite
      (file contents), FsDir (directories), FsTrunc (truncation).
    - Ring (ring buffers), Pipe (pipe.c), Console (console.c), Kbd (kbd.c, kbd.h),
      Printf (printf.c and cprintf).
    - Syscall (syscall.c), Exec and ExecStack (exec.c), File (file.c), Sysfile
      (sysfile.c), FsFrame (what the file system leaves alone), SysfileRefs and
      SysfileAccess (invariants of the system calls), Users (the account table
      of sysfile.c, chmod.c).
    - Umalloc (umalloc.c), Shell, ShellPrint, ShellRun (sh.c), Filters (grep.c, wc.c),
      Ls (ls.c), QueueTest (src/test/queuetest.c).
    - Mkfs (mkfs.c), MkfsImage (the image it writes), MkfsBoot (the kernel on that
      image), Bootmain (bootmain.c), Mp (mp.c), Apic (lapic.c, ioapic.c, picirq.c).

    ** What the theorems show

    - Disk: [commit] is atomic whatever disk write a crash interrupts, also during
      recovery, and an operation within its reservation commits; the cache is
      coherent; the driver serves requests in order with the effect of a disk
      that answers at once.  The reservation of [begin_op] is one block short.
    - File system: what is written is what is read and other files do not
      change; a directory is a map from names to inodes; truncation frees each
      block once; a path is the list of its components.  The image of mkfs is a
      consistent file system, and a file goes through mkfs, the start of the
      kernel, [namei] and [readi] unchanged.
    - System calls: every call keeps references, descriptors and pipes
      consistent; a descriptor was allowed by owner and mode; accepted arguments
      lie in the memory of the process; exec replaces the image or leaves it, and
      the new program finds its arguments; the accounts survive the passwd file.
    - Memory: the free list is the set of pages that are not held; growing, copying
      and freeing an address space lose and share no page; malloc and free keep
      live blocks apart.
    - Processes: [numproc] counts the runnable processes of each queue in every
      reachable state and the scheduler picks the best one; its search ends unless
      priorities fall along the table, when it never does; thread ids are
      unique, the exit value reaches the join; round robin reaches everybody;
      even pids go first; a spin lock excludes; traps end killed and faulting
      processes.  [wait] frees the page table of a process with unjoined threads.
    - Streams: a pipe is a queue for any number of readers and writers and loses
      no wakeup; the console is a line discipline, and the keyboard types into it.
    - User programs: the parser of the shell inverts printing, [runcmd] gives
      each program its descriptors; grep's matcher decides its language; ls lists
      each used entry once; numbers print as their numerals.
    - Start-up: the boot loader puts every segment where the file asks for it;
      [mpinit] enters the processors of the table; the interrupt controllers and
      the clock are left and read as their documentation says.

    ** Bounds and fuel

    Loops that are not structural take fuel, one unit per turn.  Where the source
    bounds the loop, the fuel is computed from that bound and so always enough:
    the number of blocks of a transfer, the slots of a table, ten digits of a
    32-bit number, [count / SECTSIZE + 3] sectors of a segment.  Where it does not
    (polling a device, reading a file, the search of the MLFQ scheduler, parsing),
    fuel is an argument, running out is its own outcome ([None] or [Blocked]),
    and a theorem gives an amount that is enough: more than the polls the device
    stays busy for, more than the length of the input.  [STRFUEL] of CString bounds
    the scan for a NUL.  Constants are those of param.h and fs.h.  [MLFQ_K], a
    macro of the build, is a parameter.

    ** Not modelled

    - Assembly code (bootasm.S, entry.S, entryother.S, swtch.S, trapasm.S,
      initcode.S, usys.S): its effect on C code is the transfer of control, which the
      models of scheduling, traps and exec represent.
    - main.c and the parts of vm.c, trap.c, console.c and uart.c that load descriptor
      tables, control registers or the serial port; [panic] itself; [procdump].
    - The contention for spin locks that kernel routines take and release in pairs:
      a critical section is one step, justified by the mutual exclusion theorem of
      Spinlock.
    - Most messages that programs print.
    - cat, echo, kill, ln, mkdir, rm, init, login, useradd, userdelete, which pass
      their arguments to one system call, and the test programs (usertests.c,
      modtest.c, mlfq_test.c, thread_test.c and the like), which are scripts of
      system calls without a contract of their own.
    - defs.h, user.h, syscall.h, types.h: declarations. *)

From stdpp Require Export base list numbers strings option sets.
From Stdlib Require Export Lia ZifyBool.

Open Scope Z_scope.

(** ** Machine integers

    The kernel is compiled with [-m32]: [int] and [uint] are 32 bits wide,
    [short]/[ushort] 16, [uchar] 8.  Values are kept in [Z]; the wrap-around
    of an operation is written out at the place where it happens. *)

Definition u8 (z : Z) : Z := z mod 2 ^ 8.
Definition u16 (z : Z) : Z := z mod 2 ^ 16.
Definition u32 (z : Z) : Z := z mod 2 ^ 32.
Definition s32 (z : Z) : Z := (z + 2 ^ 31) mod 2 ^ 32 - 2 ^ 31.

(** mmu.h: the bytes of a page. *)
Definition PGSIZE : Z := 4096.

(** C truth value of an integer. *)
Definition nz (z : Z) : bool := negb (z =? 0).

Lemma u32_range z : 0 <= u32 z < 2 ^ 32.
Proof. apply Z.mod_pos_bound. lia. Qed.

Lemma u32_small z : 0 <= z < 2 ^ 32 -> u32 z = z.
Proof. apply Z.mod_small. Qed.

Lemma u32_u32 z : u32 (u32 z) = u32 z.
Proof. apply Z.mod_mod. lia. Qed.

Lemma u32_add_l a b : u32 (u32 a + b) = u32 (a + b).
Proof. apply Zplus_mod_idemp_l. Qed.

Lemma u32_add_r a b : u32 (a + u32 b) = u32 (a + b).
Proof. apply Zplus_mod_idemp_r. Qed.

Lemma u32_sub_l a b : u32 (u32 a - b) = u32 (a - b).
Proof. apply Zminus_mod_idemp_l. Qed.

Lemma u32_sub_r a b : u32 (a - u32 b) = u32 (a - b).
Proof. apply Zminus_mod_idemp_r. Qed.

Lemma lor_below n a b : 0 <= n -> 0 <= a < 2 ^ n -> 0 <= b < 2 ^ n -> 0 <= Z.lor a b < 2 ^ n.
Proof.
  intros Hn Ha Hb. assert (Z.lor a b = Z.lor a b mod 2 ^ n) as ->; [|apply Z.mod_pos_bound; lia].
  by rewrite <- Z.land_ones, Z.land_lor_distr_l, !Z.land_ones, !Z.mod_small by lia.
Qed.

Lemma s32_range z : - 2 ^ 31 <= s32 z < 2 ^ 31.
Proof. unfold s32. pose proof (Z.mod_pos_bound (z + 2 ^ 31) (2 ^ 32)). lia. Qed.

Lemma s32_small z : - 2 ^ 31 <= z < 2 ^ 31 -> s32 z = z.
Proof. intros. unfold s32. rewrite Z.mod_small; lia. Qed.

(** ** Outcomes of kernel code

    A kernel routine either returns, or calls [panic] (which never returns and
    freezes the machine), or would go to sleep: [Blocked] is the state in which
    it calls [sleep()] and cannot continue before another thread of control
    changes that state. *)

Inductive outcome (S A : Type) : Type :=
| Ret (a : A) (s : S)
| Panic (msg : string)
| Blocked (s : S).
Arguments Ret {S A} a s.
Arguments Panic {S A} msg.
Arguments Blocked {S A} s.

(** The state-and-panic monad the stateful routines are written in. *)
Definition M (S A : Type) : Type := S -> outcome S A.

Definition ret {S A} (a : A) : M S A := fun s => Ret a s.
Definition bind {S A B} (c : M S A) (k : A -> M S B) : M S B := fun s =>
  match c s with
  | Ret a s' => k a s'
  | Panic msg => Panic msg
  | Blocked s' => Blocked s'
  end.

Declare Scope kernel_scope.
Open Scope kernel_scope.
Notation "'let*' x ':=' c 'in' k" := (bind c (fun x => k))
  (at level 10, x strict pattern, c at level 200, k at level 200) : kernel_scope.
Notation "c ;;; k" := (bind c (fun _ => k))
  (at level 100, k at level 200, right associativity) : kernel_scope.

Definition panic {S A} (msg : string) : M S A := fun _ => Panic msg.
Definition sleeps {S A} : M S A := fun s => Blocked s.
Definition get {S} : M S S := fun s => Ret s s.
Definition put {S} (s : S) : M S () := fun _ => Ret () s.
Definition gets {S A} (f : S -> A) : M S A := fun s => Ret (f s) s.
Definition modify {S} (f : S -> S) : M S () := fun s => Ret () (f s).

(** [when(c) { body }] *)
Definition when {S} (c : bool) (body : M S ()) : M S () :=
  if c then body else ret ().

(** [for (x in l) body(x)] *)
Fixpoint for_each {S A} (l : list A) (body : A -> M S ()) : M S () :=
  match l with
  | [] => ret ()
  | x :: l' => body x ;;; for_each l' body
  end.

Definition returns {S A} (o : outcome S A) : bool :=
  match o with Ret _ _ => true | _ => false end.

Lemma bind_ret {S A B} (c : M S A) (k : A -> M S B) s a s' :
  c s = Ret a s' -> bind c k s = k a s'.
Proof. unfold bind. by intros ->. Qed.

Lemma bind_modify {S B} (f : S -> S) (k : () -> M S B) s : bind (modify f) k s = k () (f s).
Proof. done. Qed.
Lemma bind_get {S B} (k : S -> M S B) s : bind get k s = k s s.
Proof. done. Qed.
Lemma bind_gets {S A B} (f : S -> A) (k : A -> M S B) s : bind (gets f) k s = k (f s) s.
Proof. done. Qed.
Lemma bind_assoc {S A B D} (c : M S A) (k : A -> M S B) (k' : B -> M S D) s :
  bind (bind c k) k' s = bind c (fun x => bind (k x) k') s.
Proof. unfold bind. by destruct (c s). Qed.

Lemma bind_ext {S A B} (c : M S A) (k k' : A -> M S B) s : (forall a s, k a s = k' a s) -> bind c k s = bind c k' s.
Proof. intros Hk. unfold bind. by destruct (c s). Qed.
Lemma bind_done {S} (c : M S ()) s : bind c (fun _ => ret ()) s = c s.
Proof. unfold bind, ret. by destruct (c s) as [[]| |]. Qed.

Lemma bind_panic {S A B} (c : M S A) (k : A -> M S B) s msg :
  c s = Panic msg -> bind c k s = Panic msg.
Proof. unfold bind. by intros ->. Qed.

Lemma bind_inv {S A B} (c : M S A) (k : A -> M S B) s b s'' :
  bind c k s = Ret b s'' -> exists a s', c s = Ret a s' /\ k a s' = Ret b s''.
Proof. unfold bind. destruct (c s) eqn:E; intros; simplify_eq; eauto. Qed.

(** An invariant preserved by the body of a loop is preserved by the loop. *)
Lemma for_each_inv {S A} (I : S -> Prop) (l : list A) (body : A -> M S ()) s s' :
  (forall x s0 s1, x ∈ l -> I s0 -> body x s0 = Ret () s1 -> I s1) ->
  I s -> for_each l body s = Ret () s' -> I s'.
Proof.
  revert s. induction l as [|x l IH]; intros s Hb Hs; simpl.
  - intros H. inversion H. by subst.
  - intros H. destruct (bind_inv _ _ _ _ _ H) as ([] & s1 & H1 & H2).
    eapply IH; [| | exact H2]; intros; eapply Hb; eauto; set_solver.
Qed.

(** Run a routine of one component on the part of a larger state it owns. *)
Definition lift {S T A} (part : T -> S) (set_part : S -> T -> T) (c : M S A) : M T A := fun t =>
  match c (part t) with
  | Ret a s => Ret a (set_part s t)
  | Panic msg => Panic msg
  | Blocked s => Blocked (set_part s t)
  end.

(** [I] holds whenever [c], started where [P] holds, returns or gives up the
    CPU, and a result satisfies [Q]. *)
Definition triple {S A} (P : S -> Prop) (c : M S A) (Q : A -> S -> Prop) (B : S -> Prop) : Prop :=
  forall s, P s -> match c s with Ret a s' => Q a s' | Blocked s' => B s' | Panic _ => True end.

Lemma triple_ret {S A} (P : S -> Prop) (a : A) (Q : A -> S -> Prop) B :
  (forall s, P s -> Q a s) -> triple P (ret a) Q B.
Proof. intros H s Hs. by apply H. Qed.

Lemma triple_bind {S A A'} P (c : M S A) (k : A -> M S A') R Q B :
  triple P c R B -> (forall a, triple (R a) (k a) Q B) -> triple P (bind c k) Q B.
Proof.
  intros Hc Hk s Hs. specialize (Hc s Hs). unfold bind.
  destruct (c s); [by apply Hk|done..].
Qed.

Lemma triple_weaken {S A} (P P' : S -> Prop) (c : M S A) (Q Q' : A -> S -> Prop) (B B' : S -> Prop) :
  triple P' c Q' B' -> (forall s, P s -> P' s) -> (forall a s, Q' a s -> Q a s) -> (forall s, B' s -> B s) ->
  triple P c Q B.
Proof. intros Hc HP HQ HB s Hs. specialize (Hc s (HP s Hs)). destruct (c s); auto. Qed.

Lemma triple_panic {S A} P msg Q B : triple P (panic msg : M S A) Q B.
Proof. intros s _. done. Qed.

(** Started where [P] holds, [c] returns, and the result satisfies [Q]. *)
Definition runs {S A} (P : S -> Prop) (c : M S A) (Q : A -> S -> Prop) : Prop :=
  forall s, P s -> exists a s', c s = Ret a s' /\ Q a s'.

Lemma runs_ret {S A} (P : S -> Prop) (a : A) (Q : A -> S -> Prop) : (forall s, P s -> Q a s) -> runs P (ret a) Q.
Proof. intros H s Hs. exists a, s. split; [done|auto]. Qed.

Lemma runs_bind {S A A'} P (c : M S A) (k : A -> M S A') R Q :
  runs P c R -> (forall a, runs (R a) (k a) Q) -> runs P (bind c k) Q.
Proof. intros Hc Hk s Hs. destruct (Hc s Hs) as (a & s' & E & HR). rewrite (bind_ret _ _ _ _ _ E). by apply Hk. Qed.

Lemma runs_weaken {S A} (P P' : S -> Prop) (c : M S A) (Q Q' : A -> S -> Prop) :
  runs P' c Q' -> (forall s, P s -> P' s) -> (forall a s, Q' a s -> Q a s) -> runs P c Q.
Proof. intros Hc HP HQ s Hs. destruct (Hc s (HP s Hs)) as (a & s' & E & H). eauto. Qed.

Lemma runs_for_each {S A} (P : S -> Prop) (l : list A) (body : A -> M S ()) :
  (forall x, runs P (body x) (fun _ => P)) -> runs P (for_each l body) (fun _ => P).
Proof. intros Hb. induction l as [|x l IH]; simpl; [by apply runs_ret|]. by eapply runs_bind. Qed.

Lemma runs_when {S} (P : S -> Prop) b (c : M S ()) :
  (b = true -> runs P c (fun _ => P)) -> runs P (when b c) (fun _ => P).
Proof. intros H. destruct b; [by apply H|by apply runs_ret]. Qed.

Lemma alter_twice {A} (f g : A -> A) (i : nat) (l : list A) :
  alter f i (alter g i l) = alter (fun x => f (g x)) i l.
Proof.
  apply list_eq. intros j. rewrite !list_lookup_alter. rewrite (decide_True (P := i = i)) by done.
  case_decide; [subst|done]. by destruct (l !! j).
Qed.

Lemma obind_Some {A B} (f : A -> option B) a : (Some a ≫= f) = f a.
Proof. done. Qed.

Lemma obind_inv {A B} (f : A -> option B) o b :
  (o ≫= f) = Some b -> exists a, o = Some a /\ f a = Some b.
Proof. destruct o; simpl; intros; [eauto|done]. Qed.

Lemma omap_ext_in {A B} (f g : A -> option B) (l : list A) : (forall x, x ∈ l -> f x = g x) -> omap f l = omap g l.
Proof.
  intros H. apply list_omap_ext, Forall2_same_length_lookup_2; [done|]. intros i a b Ha Hb.
  rewrite Ha in Hb. simplify_eq. by apply H, (list_elem_of_lookup_2 _ i).
Qed.

(** Filling one empty place of a partial map adds one element to its values. *)
Lemma omap_fill {A B} `{EqDecision A} (f g : A -> option B) l x y :
  NoDup l -> x ∈ l -> f x = None -> g x = Some y -> (forall z, z ∈ l -> z <> x -> g z = f z) ->
  omap g l ≡ₚ y :: omap f l.
Proof.
  induction l as [|z l IH]; intros Hd Hx Hf Hg Hfg; [by apply elem_of_nil in Hx|].
  apply NoDup_cons in Hd as [Hz Hd]. simpl. destruct (decide (z = x)) as [->|Hne].
  - rewrite Hf, Hg. f_equiv. apply reflexive_eq, omap_ext_in. intros a Ha. apply Hfg; [by right|].
    intros ->. done.
  - rewrite (Hfg z) by (done || left). assert (omap g l ≡ₚ y :: omap f l) as E.
    { apply IH; [done|set_solver|done..|]. intros; apply Hfg; [by right|done]. }
    destruct (f z); [|done]. rewrite E. apply Permutation_swap.
Qed.

(** ** Automation *)

Create HintDb kernel.
Create Rewrite HintDb kernel.
#[export] Hint Resolve u32_range s32_range : kernel.

(** Split on the boolean tests of C conditions and turn them into facts. *)
Ltac bsplit :=
  repeat match goal with
  | H : (_ && _)%bool = true |- _ => apply andb_prop in H as [? ?]
  | H : (_ || _)%bool = false |- _ => apply orb_false_iff in H as [? ?]
  | H : negb _ = true |- _ => apply negb_true_iff in H
  | H : negb _ = false |- _ => apply negb_false_iff in H
  | H : (_ =? _) = true |- _ => apply Z.eqb_eq in H
  | H : (_ =? _) = false |- _ => apply Z.eqb_neq in H
  | H : (_ <? _) = true |- _ => apply Z.ltb_lt in H
  | H : (_ <? _) = false |- _ => apply Z.ltb_ge in H
  | H : (_ <=? _) = true |- _ => apply Z.leb_le in H
  | H : (_ <=? _) = false |- _ => apply Z.leb_gt in H
  end.

Ltac bcase := case_match; bsplit; simplify_eq/=.

(** Decide the boolean comparisons that [lia] can decide. *)
Ltac bdecide :=
  repeat match goal with
  | |- context [?a <=? ?b] =>
      first [replace (a <=? b) with true by lia | replace (a <=? b) with false by lia]
  | |- context [?a <? ?b] =>
      first [replace (a <? b) with true by lia | replace (a <? b) with false by lia]
  | |- context [?a =? ?b] =>
      first [replace (a =? b) with true by lia | replace (a =? b) with false by lia]
  end; simpl.

(** Run the monad one [bind] at a time. *)
Ltac mrun := unfold bind, ret, gets, get, put, modify, when, panic, sleeps.
