(* ===== verification/CString.v ===== *)
(** * Byte memory and the C string routines

    [string.c] (linked into the kernel) and the string part of [ulib.c]
    (linked into the user programs), over a flat byte memory.  A pointer is the
    address it holds; a memory cell holds the [uchar] value of the byte.
    [strlen] and [strchr] scan until they meet a NUL byte and so are given fuel:
    [None] means that no NUL was met within [STRFUEL] bytes. *)

From S2P Require Import Prelude.
From stdpp Require Export gmap.
Open Scope Z_scope.

Abbreviation mem := (gmap Z Z).

Definition ld (m : mem) (a : Z) : Z := default 0 (m !! a).
Definition st (m : mem) (a v : Z) : mem := <[a := v]> m.

(** [read m a n]: the [n] bytes at [a]; [write m a l]: store [l] at [a]. *)
Fixpoint read (m : mem) (a : Z) (n : nat) : list Z :=
  match n with
  | O => []
  | S n' => ld m a :: read m (a + 1) n'
  end.

Fixpoint write (m : mem) (a : Z) (l : list Z) : mem :=
  match l with
  | [] => m
  | c :: l' => write (st m a c) (a + 1) l'
  end.

(** Little-endian words, the layout of [int] and [uint] in memory. *)
Definition word_bytes (w : Z) : list Z :=
  [u8 w; u8 (Z.shiftr w 8); u8 (Z.shiftr w 16); u8 (Z.shiftr w 24)].
Definition bytes_word (l : list Z) : Z :=
  Z.lor (l !!! 0%nat) (Z.lor (Z.shiftl (l !!! 1%nat) 8)
    (Z.lor (Z.shiftl (l !!! 2%nat) 16) (Z.shiftl (l !!! 3%nat) 24))).

Definition ldw (m : mem) (a : Z) : Z := bytes_word (read m a 4).
Definition stw (m : mem) (a w : Z) : mem := write m a (word_bytes w).

(** ** string.c *)

(** [rep stosb] and [rep stosl] of x86.h. *)
Fixpoint stosb (m : mem) (addr data : Z) (cnt : nat) : mem :=
  match cnt with
  | O => m
  | S cnt' => stosb (st m addr (u8 data)) (addr + 1) data cnt'
  end.

Fixpoint stosl (m : mem) (addr data : Z) (cnt : nat) : mem :=
  match cnt with
  | O => m
  | S cnt' => stosl (stw m addr data) (addr + 4) data cnt'
  end.

Definition memset (m : mem) (dst c n : Z) : mem :=
  if (dst mod 4 =? 0) && (n mod 4 =? 0) then
    let c := Z.land c 0xFF in
    stosl m dst (Z.lor (Z.lor (Z.lor (Z.shiftl c 24) (Z.shiftl c 16)) (Z.shiftl c 8)) c)
      (Z.to_nat (n / 4))
  else stosb m dst c (Z.to_nat n).

Fixpoint memcmp (m : mem) (s1 s2 : Z) (n : nat) : Z :=
  match n with
  | O => 0
  | S n' => if negb (ld m s1 =? ld m s2) then ld m s1 - ld m s2
            else memcmp m (s1 + 1) (s2 + 1) n'
  end.

(** The two copy loops of [memmove]; [copy_down] runs with [s] and [d] already
    advanced past the end. *)
Fixpoint copy_down (m : mem) (d s : Z) (n : nat) : mem :=
  match n with
  | O => m
  | S n' => copy_down (st m (d - 1) (ld m (s - 1))) (d - 1) (s - 1) n'
  end.

Fixpoint copy_up (m : mem) (d s : Z) (n : nat) : mem :=
  match n with
  | O => m
  | S n' => copy_up (st m d (ld m s)) (d + 1) (s + 1) n'
  end.

Definition memmove (m : mem) (dst src : Z) (n : nat) : mem :=
  if (src <? dst) && (dst <? src + Z.of_nat n) then
    copy_down m (dst + Z.of_nat n) (src + Z.of_nat n) n
  else copy_up m dst src n.

Definition memcpy (m : mem) (dst src : Z) (n : nat) : mem := memmove m dst src n.

Fixpoint strncmp (m : mem) (p q : Z) (n : nat) : Z :=
  match n with
  | O => 0
  | S n' => if nz (ld m p) && (ld m p =? ld m q) then strncmp m (p + 1) (q + 1) n'
            else ld m p - ld m q
  end.

Fixpoint strncpy_pad (m : mem) (s : Z) (n : nat) : mem :=
  match n with
  | O => m
  | S n' => strncpy_pad (st m s 0) (s + 1) n'
  end.

Fixpoint strncpy_copy (m : mem) (s t : Z) (n : nat) : mem :=
  match n with
  | O => m
  | S n' => let c := ld m t in
            let m := st m s c in
            if nz c then strncpy_copy m (s + 1) (t + 1) n'
            else strncpy_pad m (s + 1) n'
  end.

Definition strncpy (m : mem) (s t n : Z) : mem := strncpy_copy m s t (Z.to_nat n).

Fixpoint safestrcpy_copy (m : mem) (s t : Z) (n : nat) : mem :=
  match n with
  | O => st m s 0
  | S n' => let c := ld m t in
            let m := st m s c in
            if nz c then safestrcpy_copy m (s + 1) (t + 1) n'
            else st m (s + 1) 0
  end.

Definition safestrcpy (m : mem) (s t n : Z) : mem :=
  if n <=? 0 then m else safestrcpy_copy m s t (Z.to_nat (n - 1)).

Definition STRFUEL : nat := Z.to_nat 4096.

Fixpoint strlen_loop (fuel : nat) (m : mem) (s n : Z) : option Z :=
  match fuel with
  | O => None
  | S fuel' => if nz (ld m (s + n)) then strlen_loop fuel' m s (n + 1) else Some n
  end.

Definition strlen (m : mem) (s : Z) : option Z := strlen_loop STRFUEL m s 0.

Definition equals (m : mem) (s1 s2 : Z) : option Z :=
  n1 ← strlen m s1;
  n2 ← strlen m s2;
  if n1 =? n2 then
    n1 ← strlen m s1;
    Some (if strncmp m s1 s2 (Z.to_nat n1) =? 0 then 1 else 0)
  else Some 0.

(** ** ulib.c *)

Fixpoint strcpy_loop (fuel : nat) (m : mem) (s t : Z) : option mem :=
  match fuel with
  | O => None
  | S fuel' => let c := ld m t in
               let m := st m s c in
               if nz c then strcpy_loop fuel' m (s + 1) (t + 1) else Some m
  end.

Definition strcpy (m : mem) (s t : Z) : option mem := strcpy_loop STRFUEL m s t.

Fixpoint strcmp_loop (fuel : nat) (m : mem) (p q : Z) : option Z :=
  match fuel with
  | O => None
  | S fuel' => if nz (ld m p) && (ld m p =? ld m q) then strcmp_loop fuel' m (p + 1) (q + 1)
               else Some (ld m p - ld m q)
  end.

Definition strcmp (m : mem) (p q : Z) : option Z := strcmp_loop STRFUEL m p q.

(** [Some 0] is the null pointer: the character does not occur. *)
Fixpoint strchr_loop (fuel : nat) (m : mem) (s c : Z) : option Z :=
  match fuel with
  | O => None
  | S fuel' => if nz (ld m s)
               then if ld m s =? c then Some s else strchr_loop fuel' m (s + 1) c
               else Some 0
  end.

Definition strchr (m : mem) (s c : Z) : option Z := strchr_loop STRFUEL m s c.

Fixpoint atoi_loop (fuel : nat) (m : mem) (s n : Z) : option Z :=
  match fuel with
  | O => None
  | S fuel' => if (48 <=? ld m s) && (ld m s <=? 57)
               then atoi_loop fuel' m (s + 1) (s32 (n * 10 + ld m s - 48))
               else Some n
  end.

Definition atoi (m : mem) (s : Z) : option Z := atoi_loop STRFUEL m s 0.

Fixpoint umemmove (m : mem) (dst src : Z) (n : nat) : mem :=
  match n with
  | O => m
  | S n' => umemmove (st m dst (ld m src)) (dst + 1) (src + 1) n'
  end.

(** ** Facts about memory *)

Section memory.
Implicit Types m : mem.

Lemma lookup_st m a v x : st m a v !! x = if x =? a then Some v else m !! x.
Proof.
  unfold st. destruct (Z.eqb_spec x a) as [->|]; by simplify_map_eq.
Qed.

Lemma ld_st m a v x : ld (st m a v) x = if x =? a then v else ld m x.
Proof. unfold ld. rewrite lookup_st. by case_match. Qed.

Lemma ld_st_eq m a v : ld (st m a v) a = v.
Proof. by rewrite ld_st, Z.eqb_refl. Qed.

Lemma ld_st_ne m a v x : x <> a -> ld (st m a v) x = ld m x.
Proof. intros. rewrite ld_st. by destruct (Z.eqb_spec x a). Qed.

Lemma length_read m a n : length (read m a n) = n.
Proof. revert a. induction n; simpl; auto. Qed.

Lemma read_lookup_total m a n i :
  (i < n)%nat -> read m a n !!! i = ld m (a + Z.of_nat i).
Proof.
  revert a i. induction n as [|n IH]; intros a [|i] Hi; simpl; try lia.
  - f_equal; lia.
  - rewrite IH by lia. f_equal; lia.
Qed.

Lemma read_ext m m' a n :
  (forall x, a <= x < a + Z.of_nat n -> ld m' x = ld m x) -> read m' a n = read m a n.
Proof.
  revert a. induction n as [|n IH]; intros a H; simpl; [done|].
  rewrite H by lia. f_equal. apply IH. intros. apply H. lia.
Qed.

Lemma read_app m a n k : read m a (n + k) = read m a n ++ read m (a + Z.of_nat n) k.
Proof.
  revert a. induction n as [|n IH]; intros a; simpl.
  - f_equal; lia.
  - rewrite IH. do 2 f_equal. f_equal; lia.
Qed.

Lemma lookup_write m a l x :
  write m a l !! x =
    if (a <=? x) && (x <? a + Z.of_nat (length l)) then Some (l !!! Z.to_nat (x - a)) else m !! x.
Proof.
  revert m a. induction l as [|c l IH]; intros m a; simpl.
  - by replace ((a <=? x) && (x <? a + Z.of_nat 0)) with false by lia.
  - rewrite IH, lookup_st. destruct (Z.eqb_spec x a) as [->|Hne].
    + replace (a + 1 <=? a) with false by lia. simpl.
      replace ((a <=? a) && (a <? a + Z.of_nat (S (length l)))) with true by lia.
      by rewrite Z.sub_diag.
    + replace ((a + 1 <=? x) && (x <? a + 1 + Z.of_nat (length l)))
        with ((a <=? x) && (x <? a + Z.of_nat (S (length l)))) by lia.
      case_match; bsplit; [|done].
      by replace (Z.to_nat (x - a)) with (S (Z.to_nat (x - (a + 1)))) by lia.
Qed.

Lemma ld_write m a l x :
  ld (write m a l) x =
    if (a <=? x) && (x <? a + Z.of_nat (length l)) then l !!! Z.to_nat (x - a) else ld m x.
Proof. unfold ld. rewrite lookup_write. by case_match. Qed.

Lemma ld_write_out m a l x :
  x < a \/ a + Z.of_nat (length l) <= x -> ld (write m a l) x = ld m x.
Proof. intros. rewrite ld_write. bcase; [lia|done]. Qed.

Lemma read_write_same m a l : read (write m a l) a (length l) = l.
Proof.
  apply list_eq_same_length with (length l); [done|apply length_read|].
  intros i x y Hi Hx Hy. apply list_lookup_total_correct in Hx, Hy.
  rewrite read_lookup_total, ld_write in Hx by done.
  replace ((a <=? _) && _) with true in Hx by lia.
  replace (Z.to_nat (a + Z.of_nat i - a)) with i in Hx by lia. congruence.
Qed.

Lemma read_write_out m a l b n :
  b + Z.of_nat n <= a \/ a + Z.of_nat (length l) <= b ->
  read (write m a l) b n = read m b n.
Proof. intros. apply read_ext. intros. apply ld_write_out. lia. Qed.

Lemma write_app m a l k :
  write m a (l ++ k) = write (write m a l) (a + Z.of_nat (length l)) k.
Proof.
  revert m a. induction l as [|c l IH]; intros; simpl.
  - f_equal; lia.
  - rewrite IH. f_equal; lia.
Qed.

Lemma write_snoc m a l c : write m a (l ++ [c]) = st (write m a l) (a + Z.of_nat (length l)) c.
Proof. by rewrite write_app. Qed.

End memory.

#[export] Hint Rewrite ld_st_eq length_read read_write_same : kernel.

(** Words are stored little-endian and read back. *)
Lemma bytes_word_bytes w : bytes_word (word_bytes w) = u32 w.
Proof.
  unfold bytes_word, word_bytes, u8, u32; simpl.
  rewrite <- !Z.land_ones by lia.
  apply Z.bits_inj'. intros n Hn.
  rewrite !Z.lor_spec, !Z.shiftl_spec, !Z.land_spec, !Z.testbit_ones by lia.
  assert (n < 8 \/ 8 <= n < 16 \/ 16 <= n < 24 \/ 24 <= n < 32 \/ 32 <= n) as Hc by lia.
  destruct Hc as [|[|[|[|]]]]; bdecide;
    rewrite ?andb_true_r, ?andb_false_r, ?orb_false_r; try done;
    rewrite Z.shiftr_spec by lia; simpl; f_equal; lia.
Qed.

Lemma length_word_bytes w : length (word_bytes w) = 4%nat.
Proof. done. Qed.
Lemma length_words l : length (concat (word_bytes <$> l)) = (4 * length l)%nat.
Proof. induction l as [|w l IH]; [done|]. cbn [fmap list_fmap concat length]. rewrite length_app, IH, length_word_bytes. lia. Qed.

Lemma ldw_stw m a w : ldw (stw m a w) a = u32 w.
Proof.
  unfold ldw, stw. change 4%nat with (length (word_bytes w)).
  rewrite read_write_same. apply bytes_word_bytes.
Qed.

Lemma ldw_stw_out m a w b : b + 4 <= a \/ a + 4 <= b -> ldw (stw m a w) b = ldw m b.
Proof. intros. unfold ldw, stw. rewrite read_write_out; [done|simpl; lia]. Qed.

(** ** memmove and memset *)

Lemma copy_up_spec m d s n :
  d <= s \/ s + Z.of_nat n <= d -> copy_up m d s n = write m d (read m s n).
Proof.
  revert m d s. induction n as [|n IH]; intros m d s H; simpl; [done|].
  rewrite IH by lia. f_equal. apply read_ext. intros. apply ld_st_ne. lia.
Qed.

Lemma copy_down_spec m d s n :
  s < d -> copy_down m d s n = write m (d - Z.of_nat n) (read m (s - Z.of_nat n) n).
Proof.
  revert m d s. induction n as [|n IH]; intros m d s H; [done|].
  cbn [copy_down]. rewrite IH by lia.
  replace (S n) with (n + 1)%nat by lia. rewrite read_app, write_app, length_read. simpl.
  replace (d - Z.of_nat (n + 1)) with (d - 1 - Z.of_nat n) by lia.
  replace (s - Z.of_nat (n + 1)) with (s - 1 - Z.of_nat n) by lia.
  replace (d - 1 - Z.of_nat n + Z.of_nat n) with (d - 1) by lia.
  replace (s - 1 - Z.of_nat n + Z.of_nat n) with (s - 1) by lia.
  rewrite (read_ext m) by (intros; apply ld_st_ne; lia).
  apply map_eq. intros x. rewrite lookup_st, !lookup_write, lookup_st, length_read.
  destruct (Z.eqb_spec x (d - 1)) as [->|]; [|done]. by bdecide.
Qed.

Lemma memmove_eq m dst src n : memmove m dst src n = write m dst (read m src n).
Proof.
  unfold memmove. bcase.
  - rewrite copy_down_spec by lia. f_equal; [lia|]. f_equal; lia.
  - apply copy_up_spec. lia.
Qed.

(** [memmove] copies as if through a buffer: the destination ends up with the
    bytes the source had at the start, however the two ranges overlap, and no
    other byte changes. *)
Theorem memmove_overlap_safe m dst src n : memmove m dst src n = write m dst (read m src n).
Proof. apply memmove_eq. Qed.

Lemma stosb_spec m a c n : stosb m a c n = write m a (replicate n (u8 c)).
Proof. revert m a. induction n as [|n IH]; intros; simpl; auto. Qed.

Lemma stosl_spec m a w n : stosl m a w n = write m a (concat (replicate n (word_bytes w))).
Proof.
  revert m a. induction n as [|n IH]; intros; [done|].
  cbn [stosl replicate concat]. by rewrite IH, (write_app m a (word_bytes w)).
Qed.

Lemma memset_word_byte c k :
  k = 0 \/ k = 8 \/ k = 16 \/ k = 24 ->
  let c8 := Z.land c 0xFF in
  u8 (Z.shiftr (Z.lor (Z.lor (Z.lor (Z.shiftl c8 24) (Z.shiftl c8 16)) (Z.shiftl c8 8)) c8) k) = u8 c.
Proof.
  intros Hk; simpl. unfold u8. rewrite <- !Z.land_ones by lia. change 255 with (Z.ones 8).
  apply Z.bits_inj'; intros n Hn.
  rewrite !Z.land_spec, !Z.shiftr_spec, !Z.lor_spec, !Z.shiftl_spec, !Z.land_spec,
    !Z.testbit_ones by lia.
  destruct (decide (n < 8)); bdecide; rewrite ?andb_false_r, ?andb_true_r; [|done].
  destruct Hk as [-> | [-> | [-> | ->]]]; bdecide; rewrite ?andb_false_r, ?andb_true_r, ?orb_false_r; simpl;
    f_equal; lia.
Qed.

Lemma memset_spec m dst c n :
  0 <= n -> memset m dst c n = write m dst (replicate (Z.to_nat n) (u8 c)).
Proof.
  intros Hn. unfold memset. bcase; [|apply stosb_spec].
  rewrite stosl_spec. f_equal.
  set (W := Z.lor _ _). assert (word_bytes W = replicate 4 (u8 c)) as ->.
  { pose proof (memset_word_byte c) as Hb. simpl in Hb. fold W in Hb.
    unfold word_bytes. rewrite <- (Z.shiftr_0_r W) at 1. by rewrite !Hb by lia. }
  replace (Z.to_nat n) with (Z.to_nat (n / 4) * 4)%nat
    by (pose proof (Z.div_mod n 4); pose proof (Z.div_pos n 4); lia).
  generalize (Z.to_nat (n / 4)) as k. intros k.
  induction k as [|k IH]; [done|]. simpl in *. by rewrite IH.
Qed.

(** ** NUL-terminated strings *)

(** [cstr m a s]: the string [s] is stored at [a], followed by its NUL. *)
Definition cstr (m : mem) (a : Z) (s : list Z) : Prop :=
  Forall (fun c => c <> 0) s /\ read m a (length s + 1) = s ++ [0].

Lemma cstr_nil m a : cstr m a [] <-> ld m a = 0.
Proof. unfold cstr; simpl. split; [by intros [_ [= ?]]|]. intros ->. by split. Qed.

Lemma cstr_cons m a c s : cstr m a (c :: s) <-> c <> 0 /\ ld m a = c /\ cstr m (a + 1) s.
Proof.
  unfold cstr; simpl. rewrite Forall_cons. split.
  - intros [[? ?] [= ? ?]]. auto.
  - intros (? & -> & ? & ->). auto.
Qed.

Ltac cstr_inv :=
  repeat match goal with
  | H : cstr _ _ [] |- _ => apply cstr_nil in H
  | H : cstr _ _ (_ :: _) |- _ => apply cstr_cons in H as (? & ? & ?)
  end.

Lemma cstr_inj m a s1 s2 : cstr m a s1 -> cstr m a s2 -> s1 = s2.
Proof.
  revert a s2. induction s1 as [|c s1 IH]; intros a [|c2 s2];
    intros; cstr_inv; try congruence.
  f_equal; [congruence|eauto].
Qed.

Lemma cstr_ext m m' a s :
  (forall x, a <= x <= a + Z.of_nat (length s) -> ld m' x = ld m x) -> cstr m a s -> cstr m' a s.
Proof. intros H [? Hr]. split; [done|]. rewrite <- Hr. apply read_ext. intros; apply H. lia. Qed.

Lemma cstr_write_out m a l b s :
  b + Z.of_nat (length s) < a \/ a + Z.of_nat (length l) <= b ->
  cstr m b s -> cstr (write m a l) b s.
Proof. intros. eapply cstr_ext; [|done]. intros. apply ld_write_out. lia. Qed.

Lemma cstr_write_same m a s k :
  Forall (fun c => c <> 0) s -> cstr (write m a (s ++ 0 :: k)) a s.
Proof.
  intros Hs. split; [done|].
  rewrite cons_middle, app_assoc, write_app, read_write_out by (rewrite length_app; simpl; lia).
  replace (length s + 1)%nat with (length (s ++ [0])) by (by rewrite length_app).
  apply read_write_same.
Qed.

Lemma strlen_loop_spec fuel m a n s :
  cstr m (a + n) s -> (length s < fuel)%nat -> strlen_loop fuel m a n = Some (n + Z.of_nat (length s)).
Proof.
  revert fuel n. induction s as [|c s IH]; intros [|fuel] n Hs Hf; simpl in *; try lia.
  - apply cstr_nil in Hs. rewrite Hs. simpl. f_equal; lia.
  - apply cstr_cons in Hs as (Hc & Hl & Hs). rewrite Hl.
    replace (nz c) with true by (unfold nz; lia).
    rewrite IH; [f_equal; lia|by rewrite Z.add_assoc|lia].
Qed.

Lemma strlen_spec m a s :
  cstr m a s -> (length s < STRFUEL)%nat -> strlen m a = Some (Z.of_nat (length s)).
Proof. intros. unfold strlen. rewrite strlen_loop_spec with (s := s); rewrite ?Z.add_0_r; auto. Qed.

Lemma strncmp_spec m p q n s1 s2 :
  cstr m p s1 -> cstr m q s2 -> strncmp m p q n = 0 <-> take n s1 = take n s2.
Proof.
  revert p q s1 s2. induction n as [|n IH]; intros p q s1 s2 H1 H2; simpl; [done|].
  destruct s1 as [|c1 s1], s2 as [|c2 s2]; cstr_inv; repeat match goal with H : ld m _ = _ |- _ => rewrite H end; simpl.
  - done.
  - split; [lia|done].
  - replace (nz c1 && (c1 =? 0)) with false by (unfold nz; lia). split; [lia|done].
  - replace (nz c1) with true by (unfold nz; lia). simpl. bcase.
    + rewrite IH by eauto. split; congruence.
    + split; [lia|congruence].
Qed.

(** [equals] decides equality of the two strings. *)
Lemma equals_correct m p q s1 s2 :
  cstr m p s1 -> cstr m q s2 -> (length s1 < STRFUEL)%nat -> (length s2 < STRFUEL)%nat ->
  equals m p q = Some (if bool_decide (s1 = s2) then 1 else 0).
Proof.
  intros H1 H2 L1 L2. unfold equals.
  rewrite (strlen_spec m p s1), (strlen_spec m q s2) by done. simpl. bcase.
  - rewrite Nat2Z.id. pose proof (strncmp_spec m p q (length s1) s1 s2 H1 H2) as Hc.
    rewrite firstn_all, take_ge in Hc by lia.
    case_bool_decide; bcase; tauto.
  - rewrite bool_decide_false; [done|]. congruence.
Qed.

Lemma strncpy_pad_spec m s n : strncpy_pad m s n = write m s (replicate n 0).
Proof. revert m s. induction n; simpl; auto. Qed.

Lemma strncpy_copy_spec m s t n str :
  cstr m t str -> s + Z.of_nat n <= t \/ t + Z.of_nat (length str) < s ->
  strncpy_copy m s t n = write m s (resize n 0 str).
Proof.
  revert m s t str. induction n as [|n IH]; intros m s t [|c str] Hs Hd; [done..| |]; simpl in *.
  - apply cstr_nil in Hs. rewrite Hs. simpl. apply strncpy_pad_spec.
  - apply cstr_cons in Hs as (Hc & -> & Hs). replace (nz c) with true by (unfold nz; lia).
    rewrite IH with (str := str); [done| |lia].
    eapply cstr_ext; [|done]. intros. apply ld_st_ne. lia.
Qed.

(** [strncpy] of a string that does not overlap its destination writes exactly
    [n] bytes: the string cut or NUL-padded to [n]. *)
Lemma strncpy_spec m s t n str :
  cstr m t str -> s + n <= t \/ t + Z.of_nat (length str) < s -> 0 <= n ->
  strncpy m s t n = write m s (resize (Z.to_nat n) 0 str).
Proof. intros. apply strncpy_copy_spec; [done|lia]. Qed.

Lemma safestrcpy_copy_spec m s t n str :
  cstr m t str -> s + Z.of_nat n < t \/ t + Z.of_nat (length str) < s ->
  cstr (safestrcpy_copy m s t n) s (take n str) /\
  (forall x, x < s \/ s + Z.of_nat n < x -> ld (safestrcpy_copy m s t n) x = ld m x).
Proof.
  revert m s t str. induction n as [|n IH]; intros m s t str Hs Hd; simpl.
  - rewrite cstr_nil. split; [apply ld_st_eq|]. intros. apply ld_st_ne. lia.
  - destruct str as [|c str]; simpl.
    + apply cstr_nil in Hs. rewrite Hs. simpl. rewrite cstr_nil. split.
      * by rewrite ld_st_ne, ld_st_eq by lia.
      * intros. by rewrite !ld_st_ne by lia.
    + apply cstr_cons in Hs as (Hc & Hl & Hs). rewrite Hl. replace (nz c) with true by (unfold nz; lia).
      destruct (IH (st m s c) (s + 1) (t + 1) str) as [IH1 IH2].
      { eapply cstr_ext; [|done]. intros. apply ld_st_ne. simpl in Hd. lia. }
      { simpl in Hd. lia. }
      rewrite cstr_cons. split.
      * split; [done|]. split; [|done]. by rewrite IH2, ld_st_eq by lia.
      * intros. rewrite IH2 by lia. apply ld_st_ne. lia.
Qed.

(** [safestrcpy] always leaves a terminated string: the first [n - 1] bytes of
    the source string, and it writes nothing outside the [n] bytes. *)
Theorem safestrcpy_terminates_string m s t n str :
  cstr m t str -> s + n <= t \/ t + Z.of_nat (length str) < s -> 0 < n ->
  cstr (safestrcpy m s t n) s (take (Z.to_nat (n - 1)) str) /\
  (forall x, x < s \/ s + n <= x -> ld (safestrcpy m s t n) x = ld m x).
Proof.
  intros. unfold safestrcpy. bdecide.
  destruct (safestrcpy_copy_spec m s t (Z.to_nat (n - 1)) str) as [H2 H3]; [done|lia|].
  split; [done|]. intros. apply H3. lia.
Qed.

(** Writing a string in front of a zero byte makes a C string. *)
Lemma cstr_write_zero m a s :
  Forall (fun c => c <> 0) s -> ld m (a + Z.of_nat (length s)) = 0 -> cstr (write m a s) a s.
Proof.
  intros Hs Hz. split; [done|]. rewrite read_app, read_write_same. simpl.
  by rewrite ld_write_out, Hz by lia.
Qed.

(** [strncpy(s, t, strlen(t))] copies the bytes of [t] without its NUL. *)
Lemma strncpy_strlen m s t str :
  cstr m t str -> s + Z.of_nat (length str) <= t \/ t + Z.of_nat (length str) < s ->
  strncpy m s t (Z.of_nat (length str)) = write m s str.
Proof.
  intros. rewrite strncpy_spec with (str := str) by (done || lia).
  by rewrite Nat2Z.id, resize_all.
Qed.

Lemma ldw_ext m m' a : (forall x, a <= x < a + 4 -> ld m' x = ld m x) -> ldw m' a = ldw m a.
Proof. intros. unfold ldw. f_equal. by apply read_ext. Qed.

Lemma ld_stw_out m a w x : x < a \/ a + 4 <= x -> ld (stw m a w) x = ld m x.
Proof. intros. apply ld_write_out. simpl. lia. Qed.

Lemma STRFUEL_val : Z.of_nat STRFUEL = 4096.
Proof. unfold STRFUEL. rewrite Z2Nat.id; lia. Qed.

#[global] Opaque STRFUEL.

Lemma safestrcpy_terminates_string_witness :
  let m := write ∅ 100 [97; 98; 99; 0] in
  cstr (safestrcpy m 200 100 3) 200 [97; 98] /\
  (forall x, x < 200 \/ 200 + 3 <= x -> ld (safestrcpy m 200 100 3) x = ld m x).
Proof.
  apply (safestrcpy_terminates_string (write ∅ 100 [97; 98; 99; 0]) 200 100 3 [97; 98; 99]).
  - split; [repeat constructor; lia|reflexivity].
  - simpl. lia.
  - lia.
Defined.
