(* ===== verification/Users.v ===== *)
(** * User accounts and file permissions

    The account table [ltable] of sysfile.c and the permission checks of the
    file-system calls ([whoami], [checkmod], [printstat], [sys_login], the table
    part of [addUser], [deleteUser], [loadUsers] and [flushUsers]), and the mode
    argument of the user program chmod.c.

    [ltable] lies in the byte memory of [CString] at the address the linker
    gives it, with the layout of the C struct:
    [fd] at 0, [userIdx] at 4, [userCnt] at 8, [f] at 12, ten 16-byte rows of
    [usernames] at 16, ten of [passwords] at 176.  So [usernames[-1]], which the
    code reads before a login, is the 16 bytes in front of the rows.  Local
    arrays and string literals are addresses too and are passed as arguments.
    The routines return [None] only when a scan for a NUL byte runs past
    [STRFUEL] bytes. *)

From S2P Require Import Prelude CString.
Open Scope Z_scope.

Definition MAX_USER : Z := 10.
Definition MAX_LEN : Z := 15.

(** fs.h: permission bits of an inode, and what [checkmod] answers. *)
Definition MODE_RUSR : Z := 32.
Definition MODE_WUSR : Z := 16.
Definition MODE_XUSR : Z := 8.
Definition MODE_ROTH : Z := 4.
Definition MODE_WOTH : Z := 2.
Definition MODE_XOTH : Z := 1.
Definition R_OK : Z := 4.
Definition W_OK : Z := 2.
Definition X_OK : Z := 1.

(** stat.h; [st_owner] is the address of the 16-byte array. *)
Definition T_DIR : Z := 1.
Definition T_FILE : Z := 2.
Definition T_DEV : Z := 3.

Record stat := mkStat {
  st_type : Z; st_dev : Z; st_ino : Z; st_nlink : Z; st_size : Z; st_perm : Z; st_owner : Z }.

(** [printstat] writes "rwxrwx" for the six bits of the mode. *)
Definition printstat_perm (p : Z) : list Z :=
  [ if nz (Z.land p MODE_RUSR) then 114 else 45;
    if nz (Z.land p MODE_WUSR) then 119 else 45;
    if nz (Z.land p MODE_XUSR) then 120 else 45;
    if nz (Z.land p MODE_ROTH) then 114 else 45;
    if nz (Z.land p MODE_WOTH) then 119 else 45;
    if nz (Z.land p MODE_XOTH) then 120 else 45 ].

(** chmod.c: the two octal digits of the command line, already checked to be
    '0'..'7' and reduced by '0', become the mode. *)
Definition chmod_mode (a b : Z) : Z :=
  let mode := 0 in
  let mode := if nz (Z.land a 4) then Z.lor mode MODE_RUSR else mode in
  let mode := if nz (Z.land a 2) then Z.lor mode MODE_WUSR else mode in
  let mode := if nz (Z.land a 1) then Z.lor mode MODE_XUSR else mode in
  let mode := if nz (Z.land b 4) then Z.lor mode MODE_ROTH else mode in
  let mode := if nz (Z.land b 2) then Z.lor mode MODE_WOTH else mode in
  let mode := if nz (Z.land b 1) then Z.lor mode MODE_XOTH else mode in
  mode.

(** The mode digits of chmod.c's [argv[1]]: [None] is "Invalid mode". *)
Definition chmod_parse (arg : list Z) : option Z :=
  match arg with
  | [a; b] =>
      if (a <? 48) || (55 <? a) || (b <? 48) || (55 <? b) then None
      else Some (chmod_mode (a - 48) (b - 48))
  | _ => None
  end.

Section ltable.
(** Addresses of [ltable] and of the string literal "root". *)
Context (ltable root : Z).

Definition lt_fd (m : mem) : Z := s32 (ldw m ltable).
Definition lt_userIdx (m : mem) : Z := s32 (ldw m (ltable + 4)).
Definition lt_userCnt (m : mem) : Z := s32 (ldw m (ltable + 8)).
Definition set_userIdx (m : mem) (v : Z) : mem := stw m (ltable + 4) v.
Definition set_userCnt (m : mem) (v : Z) : mem := stw m (ltable + 8) v.
Definition usernames (i : Z) : Z := ltable + 16 + 16 * i.
Definition passwords (i : Z) : Z := ltable + 176 + 16 * i.

Definition whoami (m : mem) (dst : Z) : option mem :=
  if lt_userCnt m =? 0 then
    let m := strncpy m dst root 4 in
    Some (st m (dst + 4) 0)
  else
    let src := usernames (lt_userIdx m) in
    len ← strlen m src;
    let m := strncpy m dst src len in
    Some (st m (dst + len) 0).

(** [username] is the address of the local array of that name. *)
Definition checkmod (m : mem) (username : Z) (s : stat) : option (Z * mem) :=
  let perm := st_perm s in
  if st_type s =? T_DEV then Some (Z.lor (Z.lor R_OK W_OK) X_OK, m)
  else
    m ← whoami m username;
    eo ← equals m (st_owner s) username;
    er ← (if nz eo then Some 0 else equals m root username);
    let result := 0 in
    let result :=
      if nz eo || nz er then
        let result := if nz (Z.land perm MODE_RUSR) then Z.lor result R_OK else result in
        let result := if nz (Z.land perm MODE_WUSR) then Z.lor result W_OK else result in
        if nz (Z.land perm MODE_XUSR) then Z.lor result X_OK else result
      else
        let result := if nz (Z.land perm MODE_ROTH) then Z.lor result R_OK else result in
        let result := if nz (Z.land perm MODE_WOTH) then Z.lor result W_OK else result in
        if nz (Z.land perm MODE_XOTH) then Z.lor result X_OK else result in
    Some (result, m).

(** The scan of [deleteUser] and of [sys_login]: the first row whose length and
    bytes agree with [username]. *)
Fixpoint find_user (m : mem) (username : Z) (n : nat) (i : Z) : option (option Z) :=
  match n with
  | O => Some None
  | S n' =>
      l1 ← strlen m (usernames i);
      l2 ← strlen m username;
      if negb (l1 =? l2) then find_user m username n' (i + 1)
      else
        e ← equals m (usernames i) username;
        if nz e then Some (Some i) else find_user m username n' (i + 1)
  end.

(** [sys_login] once [argstr] has fetched both pointers. *)
Definition sys_login (m : mem) (username password : Z) : option (Z * mem) :=
  r ← find_user m username (Z.to_nat (lt_userCnt m)) 0;
  match r with
  | None => Some (-1, m)
  | Some found =>
      e ← equals m (passwords found) password;
      if nz e then Some (0, set_userIdx m found) else Some (-1, m)
  end.

(** The duplicate check of [addUser]. *)
Fixpoint user_exists (m : mem) (username : Z) (n : nat) (i : Z) : option bool :=
  match n with
  | O => Some false
  | S n' =>
      e ← equals m (usernames i) username;
      if nz e then Some true else user_exists m username n' (i + 1)
  end.

(** [addUser] up to the call of [flushUsers]: [-1] is the early return. *)
Definition addUser_table (m : mem) (username password : Z) : option (Z * mem) :=
  if lt_userCnt m =? MAX_USER then Some (-1, m)
  else
    unlen ← strlen m username;
    pwlen ← strlen m password;
    if (unlen <? 2) || (MAX_LEN <? unlen) || (pwlen <? 2) || (MAX_LEN <? pwlen) then Some (-1, m)
    else
      dup ← user_exists m username (Z.to_nat (lt_userCnt m)) 0;
      if (dup : bool) then Some (-1, m)
      else
        unlen ← strlen m username;
        let m := strncpy m (usernames (lt_userCnt m)) username unlen in
        pwlen ← strlen m password;
        let m := strncpy m (passwords (lt_userCnt m)) password pwlen in
        Some (0, set_userCnt m (lt_userCnt m + 1)).

(** The shifting loop of [deleteUser]. *)
Definition shift_row (m : mem) (row : Z -> Z) (i : Z) : option mem :=
  len ← strlen m (row i);
  let m := strncpy m (row (i - 1)) (row i) len in
  len ← strlen m (row i);
  Some (st m (row (i - 1) + len) 0).

Fixpoint shift_rows (m : mem) (n : nat) (i : Z) : option mem :=
  match n with
  | O => Some m
  | S n' =>
      m ← shift_row m usernames i;
      m ← shift_row m passwords i;
      shift_rows m n' (i + 1)
  end.

Fixpoint clear_rows (m : mem) (n : nat) (i : Z) : mem :=
  match n with
  | O => m
  | S n' =>
      let m := st m (passwords (lt_userCnt m) + i) 0 in
      let m := st m (usernames (lt_userCnt m) + i) 0 in
      clear_rows m n' (i + 1)
  end.

(** [deleteUser] up to the call of [flushUsers]; row 0 is never deleted. *)
Definition deleteUser_table (m : mem) (username : Z) : option (Z * mem) :=
  r ← find_user m username (Z.to_nat (lt_userCnt m)) 0;
  let found := default 0 r in
  if negb (nz found) then Some (-1, m)
  else
    m ← shift_rows m (Z.to_nat (lt_userCnt m - (found + 1))) (found + 1);
    let m := set_userCnt m (lt_userCnt m - 1) in
    Some (0, clear_rows m (Z.to_nat (MAX_LEN + 1)) 0).

(** One line of the passwd file, as [flushUsers] builds it in [buf]; the result
    carries [strlen(buf)], the number of bytes it then writes. *)
Definition flushUsers_line (m : mem) (buf i : Z) : option (Z * mem) :=
  let p := buf in
  len ← strlen m (usernames i);
  let m := strncpy m p (usernames i) len in
  let p := p + len in
  let m := st m p 45 in
  let p := p + 1 in
  len ← strlen m (passwords i);
  let m := strncpy m p (passwords i) len in
  let p := p + len in
  let m := st m p 47 in
  let p := p + 1 in
  let m := st m p 0 in
  n ← strlen m buf;
  Some (n, m).

(** The loop of [flushUsers]: the bytes handed to [filewrite], in order. *)
Fixpoint flushUsers_loop (m : mem) (buf : Z) (n : nat) (i : Z) : option (list Z * mem) :=
  match n with
  | O => Some ([], m)
  | S n' =>
      '(k, m) ← flushUsers_line m buf i;
      let out := read m buf (Z.to_nat k) in
      '(rest, m) ← flushUsers_loop m buf n' (i + 1);
      Some (out ++ rest, m)
  end.

(** The parsing loop of [loadUsers] over the 321-byte local [buf]:
    [(idx, pw, offset)] are its local variables. *)
Definition PASSWD_BUF : Z := (MAX_LEN * 2 + 2) * MAX_USER + 1.

Fixpoint loadUsers_loop (m : mem) (buf : Z) (n : nat) (i idx : Z) (pw : bool) (offset : Z)
    : Z * mem :=
  match n with
  | O => (idx, m)
  | S n' =>
      let c := ld m (buf + i) in
      if (idx =? MAX_USER) || (c =? 0) then (idx, m)
      else if negb pw then
        if negb (c =? 45)
        then loadUsers_loop (st m (usernames idx + offset) c) buf n' (i + 1) idx pw (offset + 1)
        else loadUsers_loop m buf n' (i + 1) idx true 0
      else
        if negb (c =? 47)
        then loadUsers_loop (st m (passwords idx + offset) c) buf n' (i + 1) idx pw (offset + 1)
        else loadUsers_loop m buf n' (i + 1) (idx + 1) false 0
  end.

(** What [loadUsers] does with the [n] bytes that [fileread] put into [buf]. *)
Definition loadUsers_parse (m : mem) (buf n : Z) : mem :=
  let '(idx, m) := if 6 <? n then loadUsers_loop m buf (Z.to_nat PASSWD_BUF) 0 0 false 0
                   else (0, m) in
  set_userCnt m idx.

(** The guards of [sys_addUser] and [sys_deleteUser]. *)
Definition only_root (m : mem) : bool := negb (0 <? lt_userIdx m).

End ltable.

(** ** The abstract account database

    What the table stands for: the list of (name, password) pairs. *)
Module UserDB.
Abbreviation user := (list Z * list Z)%type.

(** Position of the first account called [name]. *)
Fixpoint find (name : list Z) (db : list user) : option nat :=
  match db with
  | [] => None
  | u :: db' => if bool_decide (u.1 = name) then Some O else S <$> find name db'
  end.

Definition valid (s : list Z) : Prop := (2 <= length s <= 15)%nat.

Definition add (name pw : list Z) (db : list user) : option (list user) :=
  if bool_decide (length db = 10%nat) then None
  else if bool_decide (valid name /\ valid pw) then
    if bool_decide (name ∈ db.*1) then None else Some (db ++ [(name, pw)])
  else None.

Definition remove (name : list Z) (db : list user) : option (list user) :=
  match find name db with
  | Some (S i) => Some (delete (S i) db)
  | _ => None
  end.

Definition login (name pw : list Z) (db : list user) : option nat :=
  i ← find name db;
  u ← db !! i;
  if bool_decide (u.2 = pw) then Some i else None.

Definition line (u : user) : list Z := u.1 ++ 45 :: u.2 ++ [47].
Definition print (db : list user) : list Z := concat (line <$> db).

Lemma find_Some name db i : find name db = Some i -> exists u, db !! i = Some u /\ u.1 = name.
Proof.
  revert i. induction db as [|u db IH]; intros i; simpl; [done|].
  case_bool_decide; intros H'; simplify_eq/=; [by exists u|].
  destruct (find name db); simplify_eq/=; eauto.
Qed.

Lemma find_None name db : find name db = None <-> name ∉ db.*1.
Proof.
  induction db as [|u db IH]; simpl; [split; [set_solver|done]|].
  rewrite not_elem_of_cons, <- IH. case_bool_decide; destruct (find name db); simpl; intuition congruence.
Qed.
End UserDB.

(** The bytes of "root". *)
Definition ROOT : list Z := [114; 111; 111; 116].

Section refinement.
Context (ltable root : Z).
Local Abbreviation usernames := (usernames ltable).
Local Abbreviation passwords := (passwords ltable).
Implicit Types (m : mem) (db : list UserDB.user).

(** The rows of the table hold the database; the unused rows are all zero. *)
Record ltable_rep m db : Prop := {
  rep_len : (length db <= 10)%nat;
  rep_cnt : lt_userCnt ltable m = Z.of_nat (length db);
  rep_row : forall i u, db !! i = Some u ->
    cstr m (usernames (Z.of_nat i)) u.1 /\ (length u.1 <= 15)%nat /\
    cstr m (passwords (Z.of_nat i)) u.2 /\ (length u.2 <= 15)%nat;
  rep_free : forall i k, Z.of_nat (length db) <= i < 10 -> 0 <= k < 16 ->
    ld m (usernames i + k) = 0 /\ ld m (passwords i + k) = 0 }.

(** The string at [a] lies outside the table. *)
Definition arg_str m (a : Z) (s : list Z) : Prop :=
  cstr m a s /\ (length s < STRFUEL)%nat /\
  (a + Z.of_nat (length s) < ltable \/ ltable + 336 <= a).

Lemma short_fuel (s : list Z) : (length s <= 15)%nat -> (length s < STRFUEL)%nat.
Proof. pose proof STRFUEL_val. lia. Qed.
Hint Resolve short_fuel : kernel.

Lemma arg_strlen m a s : arg_str m a s -> strlen m a = Some (Z.of_nat (length s)).
Proof. intros (? & ? & _). by apply strlen_spec. Qed.

Lemma rep_row_name m db i u :
  ltable_rep m db -> db !! i = Some u -> strlen m (usernames (Z.of_nat i)) = Some (Z.of_nat (length u.1)).
Proof. intros R H. destruct (rep_row _ _ R i u H) as (? & ? & _). apply strlen_spec; auto with kernel. Qed.

Lemma rep_equals_name m db i u a s :
  ltable_rep m db -> db !! i = Some u -> arg_str m a s ->
  equals m (usernames (Z.of_nat i)) a = Some (if bool_decide (u.1 = s) then 1 else 0).
Proof.
  intros R H (? & ? & _). destruct (rep_row _ _ R i u H) as (? & ? & _).
  apply equals_correct; auto with kernel.
Qed.

Lemma find_user_S m a n i :
  find_user ltable m a (S n) i =
    (l1 ← strlen m (usernames i);
     l2 ← strlen m a;
     if negb (l1 =? l2) then find_user ltable m a n (i + 1)
     else e ← equals m (usernames i) a;
          if nz e then Some (Some i) else find_user ltable m a n (i + 1)).
Proof. done. Qed.

Lemma find_user_spec m db a s k :
  ltable_rep m db -> arg_str m a s -> (k <= length db)%nat ->
  find_user ltable m a (length db - k) (Z.of_nat k) =
  Some ((fun i => Z.of_nat (k + i)) <$> UserDB.find s (drop k db)).
Proof.
  intros R Ha Hk. remember (length db - k)%nat as n eqn:Hn. revert k Hk Hn.
  induction n as [|n IH]; intros k Hk Hn.
  - by rewrite drop_ge by lia.
  - destruct (lookup_lt_is_Some_2 db k) as [u Hu]; [lia|].
    rewrite find_user_S, (rep_row_name m db k u) by done.
    rewrite (rep_equals_name m db k u a s) by done.
    rewrite (arg_strlen m a s) by done. rewrite !obind_Some.
    rewrite (drop_S _ u) by done. cbn [UserDB.find].
    replace (Z.of_nat k + 1) with (Z.of_nat (S k)) by lia.
    rewrite IH by lia. case_bool_decide as E.
    + rewrite E, Z.eqb_refl. simpl. by rewrite Nat.add_0_r.
    + simpl. assert (forall o : option nat, (fun i => Z.of_nat (S k + i)) <$> o =
        (fun i => Z.of_nat (k + i)) <$> (S <$> o)) as ->.
      { intros [j|]; simpl; [f_equal; lia|done]. }
      by case_match.
Qed.

Lemma find_user_db m db a s :
  ltable_rep m db -> arg_str m a s ->
  find_user ltable m a (Z.to_nat (lt_userCnt ltable m)) 0 =
  Some (Z.of_nat <$> UserDB.find s db).
Proof.
  intros R Ha. rewrite (rep_cnt _ _ R), Nat2Z.id.
  pose proof (find_user_spec m db a s 0 R Ha) as H. rewrite Nat.sub_0_r, drop_0 in H.
  apply H. lia.
Qed.

(** Changing [userIdx] or memory outside the table keeps the representation. *)
Lemma rep_ext m m' db :
  (forall x, ltable + 8 <= x < ltable + 12 \/ ltable + 16 <= x < ltable + 336 -> ld m' x = ld m x) ->
  ltable_rep m db -> ltable_rep m' db.
Proof.
  intros E [H1 H2 H3 H4]. unfold Users.usernames, Users.passwords in *. split; [done| | |].
  - rewrite <- H2. unfold lt_userCnt. f_equal. apply ldw_ext. intros. apply E. lia.
  - intros i u Hi. pose proof (lookup_lt_Some _ _ _ Hi).
    destruct (H3 i u Hi) as (Hn & Hnl & Hp & Hpl).
    split; [|split; [done|split; [|done]]].
    + eapply cstr_ext; [|exact Hn]. intros; apply E. unfold Users.usernames in *. lia.
    + eapply cstr_ext; [|exact Hp]. intros; apply E. unfold Users.passwords in *. lia.
  - intros i k Hi Hk. unfold Users.usernames, Users.passwords.
    rewrite (E (ltable + 16 + 16 * i + k)), (E (ltable + 176 + 16 * i + k)) by lia. by apply H4.
Qed.

(** [sys_login] succeeds exactly when the account database has an account of
    that name with that password; it then records the row as the current user
    and leaves the accounts alone, and otherwise changes nothing. *)
Theorem sys_login_refines m db a b name pw :
  ltable_rep m db -> arg_str m a name -> arg_str m b pw ->
  match UserDB.login name pw db with
  | Some i => exists m', sys_login ltable m a b = Some (0, m') /\
                lt_userIdx ltable m' = Z.of_nat i /\ ltable_rep m' db
  | None => sys_login ltable m a b = Some (-1, m)
  end.
Proof.
  intros R Ha Hb. unfold sys_login, UserDB.login. rewrite (find_user_db m db a name) by done. simpl.
  destruct (UserDB.find name db) as [i|] eqn:F; simpl; [|done].
  apply UserDB.find_Some in F as (u & Hi & _). rewrite Hi. simpl.
  destruct (rep_row _ _ R i u Hi) as (_ & _ & Hp & Hl). destruct Hb as (Hb & Hbl & Hbo).
  rewrite (equals_correct m _ b u.2 pw) by auto with kernel. simpl.
  pose proof (lookup_lt_Some _ _ _ Hi). pose proof (rep_len _ _ R).
  case_bool_decide; simpl; [|done].
  eexists. split; [done|]. unfold lt_userIdx, set_userIdx. rewrite ldw_stw. split.
  - rewrite u32_small, s32_small; lia.
  - eapply rep_ext; [|done]. intros. apply ld_stw_out. lia.
Qed.

(** The table occupies [ltable, ltable + 336). *)
Definition frame_table m m' : Prop :=
  forall x, x < ltable + 8 \/ ltable + 336 <= x -> ld m' x = ld m x.

Lemma user_exists_S m a n i :
  user_exists ltable m a (S n) i =
    (e ← equals m (usernames i) a;
     if nz e then Some true else user_exists ltable m a n (i + 1)).
Proof. done. Qed.

Lemma user_exists_spec m db a s k :
  ltable_rep m db -> arg_str m a s -> (k <= length db)%nat ->
  user_exists ltable m a (length db - k) (Z.of_nat k) = Some (bool_decide (s ∈ (drop k db).*1)).
Proof.
  intros R Ha Hk. remember (length db - k)%nat as n eqn:Hn. revert k Hk Hn.
  induction n as [|n IH]; intros k Hk Hn.
  - rewrite drop_ge by lia. rewrite bool_decide_false by set_solver. done.
  - destruct (lookup_lt_is_Some_2 db k) as [u Hu]; [lia|].
    rewrite user_exists_S, (rep_equals_name m db k u a s) by done. rewrite obind_Some.
    rewrite (drop_S _ u) by done. replace (Z.of_nat k + 1) with (Z.of_nat (S k)) by lia.
    rewrite IH by lia. case_bool_decide as E; cbn [nz negb Z.eqb].
    + rewrite bool_decide_true by set_solver. done.
    + f_equal. apply bool_decide_ext. rewrite fmap_cons, elem_of_cons. intuition congruence.
Qed.

Lemma set_userCnt_val m v : 0 <= v < 2 ^ 31 -> lt_userCnt ltable (set_userCnt ltable m v) = v.
Proof. intros. unfold lt_userCnt, set_userCnt. rewrite ldw_stw, u32_small, s32_small; lia. Qed.

Lemma lt_userCnt_ext m m' :
  (forall x, ltable + 8 <= x < ltable + 12 -> ld m' x = ld m x) ->
  lt_userCnt ltable m' = lt_userCnt ltable m.
Proof. intros. unfold lt_userCnt. f_equal. apply ldw_ext. intros. apply H. lia. Qed.

(** Appending a user: the new memory of [addUser]. *)
Lemma rep_snoc m db name pw :
  let cnt := Z.of_nat (length db) in
  ltable_rep m db -> (length db < 10)%nat ->
  Forall (fun c => c <> 0) name -> (length name <= 15)%nat ->
  Forall (fun c => c <> 0) pw -> (length pw <= 15)%nat ->
  ltable_rep (set_userCnt ltable (write (write m (usernames cnt) name) (passwords cnt) pw) (cnt + 1))
    (db ++ [(name, pw)]).
Proof.
  intros cnt R Hl Hn Hnl Hp Hpl. destruct R as [R1 R2 R3 R4].
  unfold Users.usernames, Users.passwords in *. split; rewrite ?length_app; simpl; [lia| | |].
  - rewrite set_userCnt_val; lia.
  - intros i u Hi. apply lookup_app_Some in Hi as [Hi|[Hi Hu]].
    + pose proof (lookup_lt_Some _ _ _ Hi). destruct (R3 i u Hi) as (H1 & H2 & H3 & H4).
      split; [|split; [done|split; [|done]]];
        (eapply cstr_ext; [|eassumption]); intros x Hx; unfold set_userCnt;
        rewrite ld_stw_out, !ld_write_out; unfold Users.usernames, Users.passwords in *; lia || done.
    + destruct (i - length db)%nat eqn:Ei; simplify_eq/=. replace i with (length db) by lia.
      split; [|split; [done|split; [|done]]].
      * eapply cstr_ext with (write m (Users.usernames ltable cnt) name).
        { intros x Hx. unfold set_userCnt, Users.usernames in *.
          rewrite ld_stw_out, ld_write_out; [done|lia..]. }
        apply cstr_write_zero; [done|]. by apply (R4 cnt (Z.of_nat (length name))); lia.
      * eapply cstr_ext with (write m (Users.passwords ltable cnt) pw).
        { intros x Hx. unfold set_userCnt, Users.passwords in *.
          rewrite ld_stw_out, !ld_write by lia. case_match; [done|]. bsplit. bdecide. done. }
        apply cstr_write_zero; [done|]. by apply (R4 cnt (Z.of_nat (length pw))); lia.
  - intros i k Hi Hk. unfold set_userCnt, Users.usernames, Users.passwords.
    rewrite !ld_stw_out, !ld_write_out by lia. apply R4; lia.
Qed.

(** [addUser] adds the account to the database when there is room, both
    strings have 2 to 15 characters and the name is new, and otherwise returns
    -1 with the memory unchanged. *)
Theorem addUser_refines m db a b name pw :
  ltable_rep m db -> arg_str m a name -> arg_str m b pw ->
  match UserDB.add name pw db with
  | Some db' => exists m', addUser_table ltable m a b = Some (0, m') /\
                  ltable_rep m' db' /\ frame_table m m'
  | None => addUser_table ltable m a b = Some (-1, m)
  end.
Proof.
  intros R Ha Hb. pose proof (rep_cnt _ _ R) as Hcnt. pose proof (rep_len _ _ R) as Hlen.
  unfold addUser_table, UserDB.add, UserDB.valid. rewrite Hcnt, Nat2Z.id.
  case_bool_decide as Hfull; [rewrite Hfull; done|].
  replace (Z.of_nat (length db) =? MAX_USER) with false by (unfold MAX_USER; lia).
  rewrite (arg_strlen m a name), (arg_strlen m b pw), !obind_Some by done.
  replace (_ || _) with (negb (bool_decide ((2 <= length name <= 15)%nat /\ (2 <= length pw <= 15)%nat)))
    by (unfold MAX_LEN; case_bool_decide; lia).
  case_bool_decide as Hv; [|done]. simpl negb.
  pose proof (user_exists_spec m db a name 0 R Ha) as Hex.
  rewrite Nat.sub_0_r, drop_0 in Hex. change (Z.of_nat 0) with 0 in Hex.
  rewrite Hex, obind_Some by lia.
  case_bool_decide; [done|].
  destruct Ha as (Hn & _ & Ho), Hb as (Hp & Hpl & Hpo).
  rewrite strncpy_strlen by (done || unfold Users.usernames; lia).
  set (m1 := write m _ name).
  assert (cstr m1 b pw) as Hp1.
  { apply cstr_write_out; [unfold Users.usernames; lia|done]. }
  rewrite (strlen_spec m1 b pw) by done. rewrite obind_Some.
  assert (lt_userCnt ltable m1 = Z.of_nat (length db)) as Hc1.
  { rewrite <- Hcnt. apply lt_userCnt_ext. intros. apply ld_write_out. unfold Users.usernames. lia. }
  rewrite Hc1. rewrite strncpy_strlen by (done || unfold Users.passwords; lia).
  set (m2 := write m1 _ pw).
  assert (lt_userCnt ltable m2 = Z.of_nat (length db)) as Hc2.
  { rewrite <- Hc1. apply lt_userCnt_ext. intros. apply ld_write_out. unfold Users.passwords. lia. }
  rewrite Hc2. eexists. split; [done|]. split.
  - apply rep_snoc; try done; (apply Hn || apply Hp || lia).
  - intros x Hx. unfold set_userCnt. rewrite ld_stw_out by lia. unfold m2, m1.
    unfold Users.passwords, Users.usernames. rewrite !ld_write_out by lia. done.
Qed.

(** ** Deleting a user *)

Lemma shift_row_spec m (row : Z -> Z) i s :
  cstr m (row i) s -> (length s <= 15)%nat -> row i = row (i - 1) + 16 ->
  shift_row m row i = Some (write m (row (i - 1)) (s ++ [0])).
Proof.
  intros Hs Hl Hr. unfold shift_row.
  rewrite (strlen_spec m _ s) by auto with kernel. rewrite obind_Some.
  rewrite strncpy_strlen by (done || lia).
  rewrite (strlen_spec _ _ s); [|apply cstr_write_out; [lia|done]|auto with kernel].
  by rewrite obind_Some, write_snoc.
Qed.

Lemma shift_rows_spec n i m (N P : Z -> list Z) :
  1 <= i -> i + Z.of_nat n <= 10 ->
  (forall j, i <= j < i + Z.of_nat n ->
     (cstr m (usernames j) (N j) /\ (length (N j) <= 15)%nat) /\
     (cstr m (passwords j) (P j) /\ (length (P j) <= 15)%nat)) ->
  exists m', shift_rows ltable m n i = Some m' /\
    (forall j, i <= j < i + Z.of_nat n ->
       cstr m' (usernames (j - 1)) (N j) /\ cstr m' (passwords (j - 1)) (P j)) /\
    (forall x, (x < usernames (i - 1) \/ usernames (i - 1 + Z.of_nat n) <= x) ->
               (x < passwords (i - 1) \/ passwords (i - 1 + Z.of_nat n) <= x) -> ld m' x = ld m x).
Proof.
  revert i m. induction n as [|n IH]; intros i m Hi Hn H.
  { exists m. split; [done|]. split; [intros; lia|done]. }
  destruct (H i) as [[Hu Hul] [Hp Hpl]]; [lia|]. cbn [shift_rows].
  rewrite shift_row_spec with (s := N i) by (done || unfold Users.usernames; lia).
  rewrite obind_Some. set (m1 := write m _ _).
  assert (cstr m1 (passwords i) (P i)) as Hp1.
  { apply cstr_write_out; [|done]. rewrite length_app. simpl.
    unfold Users.usernames, Users.passwords. lia. }
  rewrite shift_row_spec with (s := P i) by (done || unfold Users.passwords; lia).
  rewrite obind_Some. set (m2 := write m1 _ _).
  assert (forall x, (x < usernames (i - 1) \/ usernames i <= x) ->
    (x < passwords (i - 1) \/ passwords i <= x) -> ld m2 x = ld m x) as F2.
  { intros x H1 H2. unfold m2, m1, Users.usernames, Users.passwords in *.
    rewrite !ld_write_out; rewrite ?length_app; simpl; lia || done. }
  destruct (IH (i + 1) m2) as (m' & E & Hs & F); [lia..| |].
  { intros j Hj. destruct (H j) as [[? ?] [? ?]]; [lia|].
    split; (split; [|done]); (eapply cstr_ext; [|eassumption]); intros x Hx;
      apply F2; unfold Users.usernames, Users.passwords in *; lia. }
  exists m'. split; [done|]. split.
  - intros j Hj. destruct (decide (j = i)) as [->|]; [|apply Hs; lia].
    split.
    + eapply cstr_ext with (write m (usernames (i - 1)) (N i ++ [0])).
      * intros x Hx. rewrite F by (unfold Users.usernames, Users.passwords in *; lia).
        unfold m2. rewrite ld_write_out; [done|].
        rewrite length_app. simpl. unfold Users.usernames, Users.passwords in *. lia.
      * apply cstr_write_same. by destruct Hu.
    + eapply cstr_ext with m2.
      * intros x Hx. rewrite F by (unfold Users.usernames, Users.passwords in *; lia). done.
      * apply cstr_write_same. by destruct Hp.
  - intros x H1 H2. rewrite F, F2; [done|..]; unfold Users.usernames, Users.passwords in *; lia.
Qed.

Lemma clear_rows_spec m n i :
  let cnt := lt_userCnt ltable m in
  0 <= cnt < 10 -> 0 <= i -> i + Z.of_nat n <= 16 -> forall x,
  ld (clear_rows ltable m n i) x =
    if ((usernames cnt + i <=? x) && (x <? usernames cnt + i + Z.of_nat n))
       || ((passwords cnt + i <=? x) && (x <? passwords cnt + i + Z.of_nat n)) then 0 else ld m x.
Proof.
  intros cnt. revert m i cnt. induction n as [|n IH]; intros m i cnt Hc Hi Hn x.
  - simpl. by replace (_ || _) with false by lia.
  - cbn [clear_rows]. set (m1 := st m _ 0).
    assert (lt_userCnt ltable m1 = cnt) as E1.
    { apply lt_userCnt_ext. intros. apply ld_st_ne. unfold cnt, Users.passwords in *. lia. }
    rewrite E1. set (m2 := st m1 _ 0).
    assert (lt_userCnt ltable m2 = cnt) as E2.
    { rewrite <- E1. apply lt_userCnt_ext. intros. apply ld_st_ne. unfold cnt, Users.usernames in *. lia. }
    rewrite IH by lia. rewrite E2. unfold m2, m1. rewrite !ld_st.
    unfold cnt, Users.usernames, Users.passwords. repeat case_match; bsplit; lia.
Qed.

(** The rows after the shift and the clearing of [deleteUser] represent the
    list without its [f]-th element. *)
Lemma rep_delete m m' db f :
  let cnt := Z.of_nat (length db) in
  ltable_rep m db -> (0 < f < length db)%nat ->
  lt_userCnt ltable m' = cnt - 1 ->
  (forall j u, (f < j)%nat -> db !! j = Some u ->
     cstr m' (usernames (Z.of_nat j - 1)) u.1 /\ cstr m' (passwords (Z.of_nat j - 1)) u.2) ->
  (forall k, 0 <= k < 16 -> ld m' (usernames (cnt - 1) + k) = 0 /\ ld m' (passwords (cnt - 1) + k) = 0) ->
  (forall x, ltable + 16 <= x < usernames (Z.of_nat f) \/ usernames cnt <= x < passwords (Z.of_nat f) \/
             passwords cnt <= x < ltable + 336 -> ld m' x = ld m x) ->
  ltable_rep m' (delete f db).
Proof.
  intros cnt [R1 R2 R3 R4] Hf Hc Hs Hz Hx.
  assert (length (delete f db) = (length db - 1)%nat) as Hlen
    by (rewrite length_delete; [lia|apply lookup_lt_is_Some_2; lia]).
  split; rewrite ?Hlen; [lia|lia| |].
  - intros i u Hi. destruct (decide (i < f)%nat).
    + rewrite list_lookup_delete_lt in Hi by done. destruct (R3 i u Hi) as (H1 & H2 & H3 & H4).
      split; [|split; [done|split; [|done]]]; (eapply cstr_ext; [|eassumption]); intros x Hxr;
        apply Hx; unfold Users.usernames, Users.passwords in *; lia.
    + rewrite list_lookup_delete_ge in Hi by lia. destruct (R3 _ u Hi) as (_ & H2 & _ & H4).
      destruct (Hs (S i) u) as [H1 H3]; [lia|done|].
      replace (Z.of_nat (S i) - 1) with (Z.of_nat i) in * by lia. auto.
  - intros i k Hi Hk. destruct (decide (i = cnt - 1)) as [->|]; [by apply Hz|].
    destruct (R4 i k) as [H1 H2]; [lia..|].
    unfold Users.usernames, Users.passwords in *. rewrite !Hx by lia. auto.
Qed.

(** The rows of the accounts from [k] on move down by one. *)
Lemma shift_db m db k :
  ltable_rep m db -> 1 <= k <= Z.of_nat (length db) ->
  let n := Z.to_nat (Z.of_nat (length db) - k) in
  exists m', shift_rows ltable m n k = Some m' /\
    (forall j, k <= j < k + Z.of_nat n ->
       cstr m' (usernames (j - 1)) (default ([], []) (db !! Z.to_nat j)).1 /\
       cstr m' (passwords (j - 1)) (default ([], []) (db !! Z.to_nat j)).2) /\
    (forall x, (x < usernames (k - 1) \/ usernames (k - 1 + Z.of_nat n) <= x) ->
               (x < passwords (k - 1) \/ passwords (k - 1 + Z.of_nat n) <= x) -> ld m' x = ld m x).
Proof.
  intros R Hk n. pose proof (rep_len _ _ R).
  apply (shift_rows_spec n k m (fun j => (default ([], []) (db !! Z.to_nat j)).1)
    (fun j => (default ([], []) (db !! Z.to_nat j)).2)); [lia..|].
  intros j Hj. destruct (lookup_lt_is_Some_2 db (Z.to_nat j)) as [v Hv]; [lia|].
  destruct (rep_row _ _ R _ _ Hv) as (? & ? & ? & ?). rewrite Hv. simpl.
  replace (Z.of_nat (Z.to_nat j)) with j in * by lia. auto.
Qed.

(** [deleteUser] removes the named account, shifting the later rows down and
    clearing the last one, unless the name is unknown or names the first
    account, root; no byte outside the table changes. *)
Theorem deleteUser_refines m db a name :
  ltable_rep m db -> arg_str m a name ->
  match UserDB.remove name db with
  | Some db' => exists m', deleteUser_table ltable m a = Some (0, m') /\
                  ltable_rep m' db' /\ frame_table m m'
  | None => deleteUser_table ltable m a = Some (-1, m)
  end.
Proof.
  intros R Ha. unfold deleteUser_table, UserDB.remove.
  rewrite (find_user_db m db a name), obind_Some by done.
  destruct (UserDB.find name db) as [[|i]|] eqn:F; [done| |done].
  apply UserDB.find_Some in F as (u & Hu & _). pose proof (lookup_lt_Some _ _ _ Hu) as Hi.
  pose proof (rep_len _ _ R) as Hlen. pose proof (rep_cnt _ _ R) as Hcnt.
  cbn [fmap option_fmap option_map default from_option id].
  replace (negb (nz (Z.of_nat (S i)))) with false by (unfold nz; lia).
  destruct (shift_db m db (Z.of_nat (S i) + 1) R) as (m1 & E1 & S1 & F1); [lia|].
  rewrite Hcnt, E1, obind_Some.
  assert (forall x, x < ltable + 16 \/ ltable + 336 <= x -> ld m1 x = ld m x) as G1.
  { intros x Hx. apply F1; unfold Users.usernames, Users.passwords; lia. }
  rewrite (lt_userCnt_ext m m1), Hcnt by (intros; apply G1; lia).
  set (m2 := set_userCnt ltable m1 _).
  assert (lt_userCnt ltable m2 = Z.of_nat (length db) - 1) as C2 by (apply set_userCnt_val; lia).
  assert (forall x, x < ltable + 8 \/ ltable + 12 <= x -> ld m2 x = ld m1 x) as G2
    by (intros; apply ld_stw_out; lia).
  pose proof (clear_rows_spec m2 (Z.to_nat (MAX_LEN + 1)) 0) as C3. cbv zeta in C3. rewrite C2 in C3.
  specialize (C3 ltac:(lia) ltac:(lia) ltac:(unfold MAX_LEN; lia)).
  set (m3 := clear_rows ltable m2 _ 0) in *.
  change (Z.of_nat (Z.to_nat (MAX_LEN + 1))) with 16 in C3.
  assert (forall x, x < ltable + 16 \/ ltable + 336 <= x -> ld m3 x = ld m2 x) as G3.
  { intros x Hx. rewrite C3. unfold Users.usernames, Users.passwords.
    case_match; bsplit; [lia|done]. }
  exists m3. split; [done|]. split.
  - apply rep_delete with m; [done|lia| | | |].
    + rewrite <- C2. apply lt_userCnt_ext. intros. apply G3. lia.
    + intros j v Hj Hv. pose proof (lookup_lt_Some _ _ _ Hv).
      destruct (rep_row _ _ R _ _ Hv) as (_ & L1 & _ & L2).
      destruct (S1 (Z.of_nat j)) as [H1 H2]; [lia|]. rewrite Nat2Z.id, Hv in H1, H2. simpl in H1, H2.
      split; (eapply cstr_ext; [|eassumption]); intros x Hx; rewrite C3;
        unfold Users.usernames, Users.passwords in *; (case_match; bsplit; [lia|apply G2; lia]).
    + intros k Hk. rewrite !C3. unfold Users.usernames, Users.passwords.
      split; case_match; bsplit; lia.
    + intros x Hx. rewrite C3. unfold Users.usernames, Users.passwords in *. case_match; bsplit; [lia|].
      rewrite G2, F1 by lia. done.
  - intros x Hx. rewrite G3 by lia. rewrite G2 by lia. apply G1. lia.
Qed.

(** ** The passwd file: flushUsers and loadUsers *)

(** [buf .. buf + n) does not overlap the table. *)
Definition off_table (buf n : Z) : Prop := buf + n <= ltable \/ ltable + 336 <= buf.

Definition nonzero (s : list Z) : Prop := Forall (fun c => c <> 0) s.

Lemma line_nonzero u : nonzero u.1 -> nonzero u.2 -> nonzero (UserDB.line u).
Proof.
  intros. unfold UserDB.line, nonzero. rewrite Forall_app, Forall_cons, Forall_app, Forall_singleton.
  auto with lia.
Qed.

Lemma length_line u : length (UserDB.line u) = (length u.1 + length u.2 + 2)%nat.
Proof. unfold UserDB.line. rewrite length_app. simpl. rewrite length_app. simpl. lia. Qed.

Lemma flushUsers_line_spec m buf db i u :
  ltable_rep m db -> db !! i = Some u -> off_table buf 33 ->
  flushUsers_line ltable m buf (Z.of_nat i) =
    Some (Z.of_nat (length (UserDB.line u)), write m buf (UserDB.line u ++ [0])).
Proof.
  intros R Hi Hb. destruct (rep_row _ _ R _ _ Hi) as (H1 & L1 & H2 & L2).
  pose proof (lookup_lt_Some _ _ _ Hi). pose proof (rep_len _ _ R). unfold off_table in Hb.
  unfold flushUsers_line. rewrite (strlen_spec m _ u.1), obind_Some by auto with kernel.
  rewrite strncpy_strlen by (done || unfold Users.usernames; lia).
  rewrite <- (write_snoc m buf u.1 45). set (m1 := write m buf _).
  assert (cstr m1 (passwords (Z.of_nat i)) u.2) as H2'.
  { apply cstr_write_out; [|done]. rewrite length_app. simpl. unfold Users.passwords. lia. }
  rewrite (strlen_spec m1 _ u.2), obind_Some by auto with kernel.
  rewrite strncpy_strlen by (done || unfold Users.passwords; lia).
  replace (buf + Z.of_nat (length u.1) + 1) with (buf + Z.of_nat (length (u.1 ++ [45])))
    by (rewrite length_app; simpl; lia).
  unfold m1. rewrite <- write_app. rewrite <- Z.add_assoc, <- Nat2Z.inj_add, <- length_app.
  rewrite <- write_snoc.
  assert (((u.1 ++ [45]) ++ u.2) ++ [47] = UserDB.line u) as ->.
  { unfold UserDB.line. by rewrite <- !app_assoc. }
  set (p := buf + _ + 1).
  replace p with (buf + Z.of_nat (length (UserDB.line u))).
  2: { unfold p. rewrite length_line, !length_app. simpl. lia. }
  rewrite <- write_snoc.
  rewrite (strlen_spec _ _ (UserDB.line u)); [by rewrite obind_Some| |].
  - apply cstr_write_same. apply line_nonzero; [apply H1|apply H2].
  - rewrite length_line. pose proof STRFUEL_val. lia.
Qed.

Lemma rep_write_off m db buf l :
  off_table buf (Z.of_nat (length l)) -> ltable_rep m db -> ltable_rep (write m buf l) db.
Proof.
  unfold off_table. intros. eapply rep_ext; [|done]. intros. apply ld_write_out. lia.
Qed.

Lemma flushUsers_loop_spec m buf db k :
  ltable_rep m db -> off_table buf 33 -> (k <= length db)%nat ->
  exists m', flushUsers_loop ltable m buf (length db - k) (Z.of_nat k) =
    Some (UserDB.print (drop k db), m') /\ ltable_rep m' db.
Proof.
  intros R Hb Hk. remember (length db - k)%nat as n eqn:Hn. revert m k R Hk Hn.
  induction n as [|n IH]; intros m k R Hk Hn.
  - rewrite drop_ge by lia. by exists m.
  - destruct (lookup_lt_is_Some_2 db k) as [u Hu]; [lia|]. cbn [flushUsers_loop].
    rewrite (flushUsers_line_spec m buf db k u), obind_Some by done.
    destruct (rep_row _ _ R _ _ Hu) as (H1 & L1 & H2 & L2).
    replace (Z.of_nat k + 1) with (Z.of_nat (S k)) by lia.
    destruct (IH (write m buf (UserDB.line u ++ [0])) (S k)) as (m' & -> & R'); [|lia..|].
    { apply rep_write_off; [|done]. unfold off_table in *. rewrite length_app, length_line. simpl. lia. }
    rewrite obind_Some, (drop_S db u k Hu). exists m'. split; [|done].
    rewrite Nat2Z.id, write_app, read_write_out, read_write_same by lia. done.
Qed.

Definition bytes (m : mem) (a : Z) (l : list Z) : Prop := read m a (length l) = l.

Lemma bytes_cons m a c l : bytes m a (c :: l) <-> ld m a = c /\ bytes m (a + 1) l.
Proof. unfold bytes. simpl. split; [by intros [= -> ?]|]. by intros [-> ->]. Qed.

Lemma bytes_app m a l k :
  bytes m a (l ++ k) <-> bytes m a l /\ bytes m (a + Z.of_nat (length l)) k.
Proof.
  unfold bytes. rewrite length_app, read_app. split.
  - intros H. apply app_inj_1 in H; [done|apply length_read].
  - by intros [-> ->].
Qed.

Lemma bytes_ext m m' a l :
  (forall x, a <= x < a + Z.of_nat (length l) -> ld m' x = ld m x) -> bytes m a l -> bytes m' a l.
Proof. unfold bytes. intros H <-. rewrite length_read. by apply read_ext. Qed.

(** The loop of [loadUsers] over one field ended by its separator. *)
Lemma load_field (pw : bool) l m buf n i idx off :
  let sep := if pw then 47 else 45 in
  let row := (if pw then passwords idx else usernames idx) + off in
  bytes m (buf + i) (l ++ [sep]) -> Forall (fun c => c <> 0 /\ c <> sep) l -> idx <> 10 ->
  row + Z.of_nat (length l) <= buf + i \/ buf + i + Z.of_nat (length l) + 1 <= row ->
  loadUsers_loop ltable m buf (length l + 1 + n) i idx pw off =
  loadUsers_loop ltable (write m row l) buf n (i + Z.of_nat (length l) + 1)
    (if pw then idx + 1 else idx) (negb pw) 0.
Proof.
  intros sep row. subst row. revert m i off. induction l as [|c l IH]; intros m i off Hb Hf Hx Hd.
  - apply bytes_cons in Hb as [Hc _]. simpl. rewrite Hc. subst sep.
    replace (idx =? MAX_USER) with false by (unfold MAX_USER; lia).
    destruct pw; simpl; f_equal; lia.
  - apply bytes_cons in Hb as [Hc Hb]. apply Forall_cons in Hf as [[Hc0 Hcs] Hf].
    cbn [length Nat.add loadUsers_loop]. rewrite Hc.
    replace (idx =? MAX_USER) with false by (unfold MAX_USER; lia).
    replace (c =? 0) with false by lia. simpl orb. cbv iota.
    assert (forall mm, mm = st m ((if pw then passwords idx else usernames idx) + off) c ->
      loadUsers_loop ltable mm buf (length l + 1 + n) (i + 1) idx pw (off + 1) =
      loadUsers_loop ltable (write m ((if pw then passwords idx else usernames idx) + off) (c :: l)) buf n
        (i + Z.of_nat (S (length l)) + 1) (if pw then idx + 1 else idx) (negb pw) 0) as G.
    { intros mm ->. rewrite IH.
      - cbn [write]. rewrite Z.add_assoc. f_equal. lia.
      - eapply bytes_ext; [|replace (buf + (i + 1)) with (buf + i + 1) by lia; exact Hb].
        intros. apply ld_st_ne. rewrite length_app in *. simpl in *. lia.
      - done.
      - done.
      - simpl in Hd. lia. }
    subst sep. destruct pw; cbn [negb];
      [replace (c =? 47) with false by lia | replace (c =? 45) with false by lia]; by apply G.
Qed.

(** Accounts that survive the file format: no separator in the wrong field. *)
Definition storable (u : UserDB.user) : Prop :=
  Forall (fun c => c <> 0 /\ c <> 45) u.1 /\ (length u.1 <= 15)%nat /\
  Forall (fun c => c <> 0 /\ c <> 47) u.2 /\ (length u.2 <= 15)%nat.

Lemma load_user u m buf n i db :
  let idx := Z.of_nat (length db) in
  ltable_rep (set_userCnt ltable m idx) db -> storable u -> (length db < 10)%nat ->
  bytes m (buf + i) (UserDB.line u) -> off_table (buf + i) (Z.of_nat (length (UserDB.line u))) ->
  exists m', loadUsers_loop ltable m buf (length (UserDB.line u) + n) i idx false 0 =
    loadUsers_loop ltable m' buf n (i + Z.of_nat (length (UserDB.line u))) (idx + 1) false 0 /\
  ltable_rep (set_userCnt ltable m' (idx + 1)) (db ++ [u]) /\ frame_table m m'.
Proof.
  intros idx R (F1 & L1 & F2 & L2) Hl Hb Ho. unfold off_table in Ho.
  pose proof (length_line u) as HL. rewrite HL in Ho |- *.
  unfold UserDB.line in Hb. rewrite cons_middle, app_assoc in Hb.
  apply bytes_app in Hb as [Hb1 Hb2]. rewrite length_app in Hb2. simpl in Hb2.
  replace (length u.1 + length u.2 + 2 + n)%nat with (length u.1 + 1 + (length u.2 + 1 + n))%nat by lia.
  rewrite (load_field false); [|done|done|lia|unfold Users.usernames; lia]. cbn [negb].
  set (m1 := write m _ u.1).
  rewrite (load_field true); [|..]; cbn [negb].
  2: { eapply bytes_ext; [|replace (buf + (i + Z.of_nat (length u.1) + 1))
         with (buf + i + Z.of_nat (length u.1 + 1)) by lia; exact Hb2].
       intros x Hx. apply ld_write_out. rewrite length_app in Hx. simpl in Hx.
       unfold Users.usernames. lia. }
  2: done. 2: lia. 2: { unfold Users.passwords. lia. }
  rewrite !Z.add_0_r. eexists. split; [f_equal; lia|]. split.
  - pose proof (rep_snoc _ db u.1 u.2 R Hl) as R'. cbv zeta in R'. destruct u as [nm pw]; simpl in *.
    eapply rep_ext; [|apply R'; try done].
    + intros x Hx. unfold set_userCnt, m1, stw. rewrite !ld_write, !Z.add_0_r.
      simpl length. repeat (case_match; bsplit; try done); lia.
    + eapply Forall_impl; [exact F1|]. by intros ? [].
    + eapply Forall_impl; [exact F2|]. by intros ? [].
  - intros x Hx. unfold m1. rewrite !ld_write_out; unfold Users.usernames, Users.passwords; lia || done.
Qed.

(** The loop of [loadUsers] on a buffer that holds printed accounts and then
    zeros, started with [db] already in the table. *)
Lemma load_users us m buf n i db :
  let idx := Z.of_nat (length db) in
  let k := Z.of_nat (length (UserDB.print us)) in
  ltable_rep (set_userCnt ltable m idx) db -> Forall storable us -> (length db + length us <= 10)%nat ->
  bytes m (buf + i) (UserDB.print us ++ [0]) -> off_table (buf + i) (k + 1) ->
  exists m', loadUsers_loop ltable m buf (length (UserDB.print us) + S n) i idx false 0 =
    (idx + Z.of_nat (length us), m') /\
  ltable_rep (set_userCnt ltable m' (idx + Z.of_nat (length us))) (db ++ us).
Proof.
  cbv zeta. revert m i db. induction us as [|u us IH]; intros m i db R Hs Hl Hb Ho.
  - apply bytes_cons in Hb as [Hb _]. exists m. rewrite app_nil_r, Z.add_0_r. split; [|done].
    simpl. rewrite Hb. by destruct (_ =? _).
  - apply Forall_cons in Hs as [Hu Hs]. change (UserDB.print (u :: us)) with (UserDB.line u ++ UserDB.print us) in *.
    rewrite <- app_assoc in Hb. apply bytes_app in Hb as [Hb1 Hb2]. unfold off_table in Ho.
    rewrite length_app in *. simpl in Hl. rewrite <- Nat.add_assoc.
    destruct (load_user u m buf (length (UserDB.print us) + S n) i db) as (m1 & -> & R1 & F); try done; [lia| |].
    { unfold off_table. lia. }
    destruct (IH m1 (i + Z.of_nat (length (UserDB.line u))) (db ++ [u])) as (m2 & E2 & R2); try done.
    + rewrite length_app. simpl. by rewrite Nat2Z.inj_add.
    + rewrite length_app. simpl. lia.
    + rewrite Z.add_assoc. eapply bytes_ext; [|exact Hb2]. intros x Hx. apply F.
      rewrite length_app in Hx. simpl in Hx. lia.
    + unfold off_table. lia.
    + rewrite length_app in E2, R2. simpl length in *. exists m2. rewrite <- app_assoc in R2.
      replace (Z.of_nat (length db) + 1) with (Z.of_nat (length db + 1)) by lia. rewrite E2.
      replace (Z.of_nat (length db) + Z.of_nat (S (length us)))
        with (Z.of_nat (length db + 1) + Z.of_nat (length us)) by lia. done.
Qed.

(** The rows of the table as they are after boot: all zero. *)
Definition zero_table m : Prop := forall x, ltable + 12 <= x < ltable + 336 -> ld m x = 0.

Lemma zero_table_rep m : zero_table m -> ltable_rep (set_userCnt ltable m 0) [].
Proof.
  intros Hz. split; simpl; [lia|by rewrite set_userCnt_val| |].
  - intros i u Hi. by rewrite lookup_nil in Hi.
  - intros i k Hi Hk. unfold set_userCnt. split; rewrite ld_stw_out by (unfold Users.usernames, Users.passwords; lia);
      apply Hz; unfold Users.usernames, Users.passwords; lia.
Qed.

Lemma length_print us :
  Forall storable us -> (4 * length us <= 4 * length (UserDB.print us) <= 128 * length us)%nat.
Proof.
  induction 1 as [|u us (_ & ? & _ & ?) _ IH]; [done|].
  change (UserDB.print (u :: us)) with (UserDB.line u ++ UserDB.print us).
  rewrite length_app, length_line. simpl length. lia.
Qed.

Lemma loadUsers_print m buf db :
  zero_table m -> Forall storable db -> (length db <= 10)%nat -> (6 < length (UserDB.print db))%nat ->
  bytes m buf (UserDB.print db ++ [0]) -> off_table buf PASSWD_BUF ->
  ltable_rep (loadUsers_parse ltable m buf (Z.of_nat (length (UserDB.print db)))) db.
Proof.
  intros Hz Hs Hl H6 Hb Ho. pose proof (length_print db Hs). unfold loadUsers_parse.
  replace (6 <? _) with true by lia.
  assert (Z.to_nat PASSWD_BUF = length (UserDB.print db) + S (320 - length (UserDB.print db)))%nat as ->
    by (unfold PASSWD_BUF, MAX_LEN, MAX_USER; lia).
  destruct (load_users db m buf (320 - length (UserDB.print db)) 0 []) as (m' & E & R).
  - by apply zero_table_rep.
  - done.
  - done.
  - by rewrite Z.add_0_r.
  - unfold off_table, PASSWD_BUF, MAX_LEN, MAX_USER in *. lia.
  - change (Z.of_nat (length [])) with 0 in *. rewrite E. exact R.
Qed.
(** [cur] is the name the kernel takes the caller to have. *)
Definition current m (cur : list Z) : Prop :=
  cstr m root ROOT /\ (length cur <= 15)%nat /\
  if lt_userCnt ltable m =? 0 then cur = ROOT else cstr m (usernames (lt_userIdx ltable m)) cur.

(** [n] bytes at [a] are apart from the string [s] at [b]. *)
Definition apart (a n b : Z) (s : list Z) : Prop := a + n <= b \/ b + Z.of_nat (length s) < a.

Lemma whoami_spec m dst cur :
  current m cur -> apart dst 16 root ROOT -> apart dst 16 (usernames (lt_userIdx ltable m)) cur ->
  whoami ltable root m dst = Some (write m dst (cur ++ [0])).
Proof.
  unfold apart. intros (Hr & Hl & Hc) Ha1 Ha2. unfold whoami. destruct (_ =? 0).
  - subst cur. change 4 with (Z.of_nat (length ROOT)).
    rewrite strncpy_strlen with (str := ROOT) by (done || simpl in *; lia). by rewrite write_snoc.
  - rewrite strlen_spec with (s := cur), obind_Some by (done || by apply short_fuel).
    rewrite strncpy_strlen with (str := cur) by (done || simpl in *; lia). by rewrite write_snoc.
Qed.

Lemma nz_land_bit p k : 0 <= k -> nz (Z.land p (2 ^ k)) = Z.testbit p k.
Proof.
  intros Hk. unfold nz. destruct (Z.testbit p k) eqn:E.
  - apply negb_true_iff, Z.eqb_neq. intros H. assert (Z.testbit (Z.land p (2 ^ k)) k = false) by (rewrite H; apply Z.bits_0).
    rewrite Z.land_spec, Z.pow2_bits_true, E in H0 by done. done.
  - apply negb_false_iff, Z.eqb_eq, Z.bits_inj'. intros n Hn. rewrite Z.bits_0, Z.land_spec.
    destruct (decide (n = k)) as [-> |]; [by rewrite E|].
    rewrite Z.pow2_bits_false by done. by rewrite andb_false_r.
Qed.

(** The six tests of [checkmod] select three bits of the mode. *)
Lemma land7_bits p :
  Z.land p 7 = Z.b2z (Z.testbit p 0) + 2 * Z.b2z (Z.testbit p 1) + 4 * Z.b2z (Z.testbit p 2).
Proof.
  change 7 with (Z.ones 3). rewrite Z.land_ones by lia.
  assert (forall k, 0 <= k -> Z.b2z (Z.testbit p k) = p / 2 ^ k mod 2) as Hb
    by (intros; by apply Z.testbit_spec').
  rewrite !Hb by lia. change (2 ^ 0) with 1. change (2 ^ 1) with 2. change (2 ^ 2) with 4.
  change (2 ^ 3) with 8. Z.to_euclidean_division_equations. lia.
Qed.
Lemma current_nonzero m cur : current m cur -> nonzero cur.
Proof. intros (Hr & _ & Hc). destruct (_ =? 0); [subst cur; apply Hr|apply Hc]. Qed.

Lemma owner_bits p :
  (let r := if nz (Z.land p MODE_RUSR) then Z.lor 0 R_OK else 0 in
   let r := if nz (Z.land p MODE_WUSR) then Z.lor r W_OK else r in
   if nz (Z.land p MODE_XUSR) then Z.lor r X_OK else r) = Z.land (Z.shiftr p 3) 7.
Proof.
  rewrite land7_bits, !Z.shiftr_spec by lia.
  change MODE_RUSR with (2 ^ 5). change MODE_WUSR with (2 ^ 4). change MODE_XUSR with (2 ^ 3).
  rewrite !nz_land_bit by lia. change (2 + 3) with 5. change (1 + 3) with 4. change (0 + 3) with 3.
  by destruct (Z.testbit p 5), (Z.testbit p 4), (Z.testbit p 3).
Qed.

Lemma other_bits p :
  (let r := if nz (Z.land p MODE_ROTH) then Z.lor 0 R_OK else 0 in
   let r := if nz (Z.land p MODE_WOTH) then Z.lor r W_OK else r in
   if nz (Z.land p MODE_XOTH) then Z.lor r X_OK else r) = Z.land p 7.
Proof.
  rewrite land7_bits.
  change MODE_ROTH with (2 ^ 2). change MODE_WOTH with (2 ^ 1). change MODE_XOTH with (2 ^ 0).
  rewrite !nz_land_bit by lia. by destruct (Z.testbit p 2), (Z.testbit p 1), (Z.testbit p 0).
Qed.

(** What [checkmod] computes, and where it writes. *)
Lemma checkmod_run m username s cur owner :
  current m cur -> cstr m (st_owner s) owner -> (length owner <= 15)%nat ->
  apart username 16 root ROOT -> apart username 16 (usernames (lt_userIdx ltable m)) cur ->
  apart username 16 (st_owner s) owner ->
  exists m', checkmod ltable root m username s =
    Some (if st_type s =? T_DEV then 7
          else if bool_decide (owner = cur \/ cur = ROOT) then Z.land (Z.shiftr (st_perm s) 3) 7
          else Z.land (st_perm s) 7, m') /\
  (forall x, x < username \/ username + 16 <= x -> ld m' x = ld m x).
Proof.
  intros Hc Ho Hlo A1 A2 A3. unfold checkmod. destruct (st_type s =? T_DEV); [by exists m|].
  rewrite (whoami_spec m username cur), obind_Some by done.
  pose proof (current_nonzero _ _ Hc) as Hnz. destruct Hc as (Hr & Hl & _). unfold apart in *.
  set (m' := write m username (cur ++ [0])).
  assert (Z.of_nat (length (cur ++ [0])) <= 16) as Hlen by (rewrite length_app; simpl; lia).
  assert (cstr m' username cur) as Hu by by apply cstr_write_same.
  exists m'. split; [|intros; apply ld_write_out; lia].
  assert (equals m' (st_owner s) username = Some (if bool_decide (owner = cur) then 1 else 0)) as ->.
  { apply equals_correct; auto with kernel. apply cstr_write_out; [lia|done]. }
  assert (equals m' root username = Some (if bool_decide (ROOT = cur) then 1 else 0)) as Er.
  { apply equals_correct; auto with kernel; [|apply short_fuel; simpl; lia].
    apply cstr_write_out; [lia|done]. }
  rewrite obind_Some, <- owner_bits, <- other_bits, Er.
  destruct (decide (owner = cur)).
  { rewrite (bool_decide_true (owner = cur)), (bool_decide_true (owner = cur \/ _)) by auto. done. }
  rewrite (bool_decide_false (owner = cur)) by done. destruct (decide (cur = ROOT)).
  { rewrite (bool_decide_true (ROOT = cur)), (bool_decide_true (owner = cur \/ _)) by auto. done. }
  rewrite (bool_decide_false (ROOT = cur)), (bool_decide_false (owner = cur \/ _))
    by intuition congruence. done.
Qed.

(** ** The claims on accounts and permissions *)

(** What [checkmod] grants.  A device grants everything; otherwise the
    owner of the file and root get the three owner bits of the mode, and
    everyone else gets the three other bits, whatever the mode and the names. *)
Theorem checkmod_grants m username s cur owner :
  current m cur -> cstr m (st_owner s) owner -> (length owner <= 15)%nat ->
  apart username 16 root ROOT -> apart username 16 (usernames (lt_userIdx ltable m)) cur ->
  apart username 16 (st_owner s) owner ->
  exists m', checkmod ltable root m username s =
    Some (if st_type s =? T_DEV then 7
          else if bool_decide (owner = cur \/ cur = ROOT) then Z.land (Z.shiftr (st_perm s) 3) 7
          else Z.land (st_perm s) 7, m') /\
  (forall x, x < username \/ username + 16 <= x -> ld m' x = ld m x).
Proof. apply checkmod_run. Qed.


(** Between [sys_lbegin] and a login the kernel takes the caller's name from
    [usernames[-1]], that is from [ltable.fd], which is 0: the empty name. *)
Lemma whoami_before_login m dst :
  lt_userCnt ltable m <> 0 -> lt_userIdx ltable m = -1 -> ld m ltable = 0 -> dst + 1 <= ltable \/ ltable < dst ->
  whoami ltable root m dst = Some (st m dst 0).
Proof.
  intros Hc Hi Hf Hd. unfold whoami. replace (_ =? 0) with false by lia. rewrite Hi.
  replace (Users.usernames ltable (-1)) with ltable by (unfold Users.usernames; lia).
  rewrite strlen_spec with (s := []); [|by apply cstr_nil|pose proof STRFUEL_val; simpl; lia].
  rewrite obind_Some. simpl. by rewrite Z.add_0_r.
Qed.

(** [sys_lbegin], which anyone may call, stores [-1] into [userIdx], and the
    guard of [sys_addUser] and [sys_deleteUser] lets [-1] pass. *)
Lemma lbegin_lifts_guard m : only_root ltable (set_userIdx ltable m (-1)) = true.
Proof. unfold only_root, lt_userIdx, set_userIdx. by rewrite ldw_stw. Qed.
End refinement.

(** Chmod.c accepts exactly two octal digits, and the mode it builds from
    [ab] makes [checkmod] grant [a] to the owner and root and [b] to others. *)
Theorem chmod_digits a b :
  0 <= a <= 7 -> 0 <= b <= 7 ->
  exists mode, chmod_parse [48 + a; 48 + b] = Some mode /\
    Z.land (Z.shiftr mode 3) 7 = a /\ Z.land mode 7 = b /\ 0 <= mode < 64.
Proof.
  intros Ha Hb. unfold chmod_parse. bdecide.
  replace (48 + a - 48) with a by lia. replace (48 + b - 48) with b by lia. eexists. split; [done|].
  assert (a = 0 \/ a = 1 \/ a = 2 \/ a = 3 \/ a = 4 \/ a = 5 \/ a = 6 \/ a = 7) as Ea by lia.
  assert (b = 0 \/ b = 1 \/ b = 2 \/ b = 3 \/ b = 4 \/ b = 5 \/ b = 6 \/ b = 7) as Eb by lia.
  repeat destruct Ea as [-> |Ea]; try subst a; repeat destruct Eb as [-> |Eb]; try subst b;
    vm_compute; intuition congruence.
Qed.

(** ** Witnesses and a lost account

    A memory with the table at 1000 holding the account root/0000, the literal
    "root" at 2000, and the strings "user" and "1234" at 3000 and 3100. *)
Definition USER : list Z := [117; 115; 101; 114].
Definition demo0 : mem :=
  write (write (write ∅ 2000 (ROOT ++ [0])) 3000 (USER ++ [0])) 3100 ([49; 50; 51; 52] ++ [0]).
Definition demo : mem :=
  set_userCnt 1000
    (write (write (set_userCnt 1000 demo0 0) (usernames 1000 0) ROOT) (passwords 1000 0) [48; 48; 48; 48]) 1.

Lemma demo_rep : ltable_rep 1000 demo [(ROOT, [48; 48; 48; 48])].
Proof.
  apply (rep_snoc 1000 _ []); try (repeat constructor; lia).
  apply zero_table_rep. intros x Hx. unfold demo0. rewrite !ld_write_out by (simpl; lia). done.
Qed.

Lemma demo_arg a s : Forall (fun c => c <> 0) s -> (length s <= 15)%nat -> 2000 <= a ->
  read demo a (length s + 1) = s ++ [0] -> arg_str 1000 demo a s.
Proof. intros. split_and!; [done|by apply short_fuel|lia]. Qed.

Ltac demo_arg := apply demo_arg; [repeat constructor; lia | simpl; lia | lia | vm_compute; reflexivity].

Lemma sys_login_refines_witness :
  exists m', sys_login 1000 demo 2000 3100 = Some (-1, m').
Proof.
  exists demo. apply (sys_login_refines 1000 demo [(ROOT, [48; 48; 48; 48])] 2000 3100 ROOT [49; 50; 51; 52]).
  - apply demo_rep.
  - demo_arg.
  - demo_arg.
Defined.

Lemma addUser_refines_witness :
  exists m', addUser_table 1000 demo 3000 3100 = Some (0, m') /\
    ltable_rep 1000 m' [(ROOT, [48; 48; 48; 48]); (USER, [49; 50; 51; 52])] /\ frame_table 1000 demo m'.
Proof.
  apply (addUser_refines 1000 demo [(ROOT, [48; 48; 48; 48])] 3000 3100 USER [49; 50; 51; 52]).
  - apply demo_rep.
  - demo_arg.
  - demo_arg.
Defined.

Lemma deleteUser_refines_witness : deleteUser_table 1000 demo 2000 = Some (-1, demo).
Proof.
  apply (deleteUser_refines 1000 demo [(ROOT, [48; 48; 48; 48])] 2000 ROOT).
  - apply demo_rep.
  - demo_arg.
Defined.

Lemma checkmod_grants_witness :
  exists m', checkmod 1000 2000 demo 4000 (mkStat T_FILE 1 5 1 10 46 3000) = Some (5, m') /\
    (forall x, x < 4000 \/ 4000 + 16 <= x -> ld m' x = ld demo x).
Proof.
  apply (checkmod_grants 1000 2000 demo 4000 (mkStat T_FILE 1 5 1 10 46 3000) ROOT USER);
    try (unfold apart; vm_compute; intuition congruence).
  - split_and!; [split; [repeat constructor; lia|vm_compute; reflexivity]|simpl; lia|].
    vm_compute. split; [repeat constructor; lia|reflexivity].
  - split; [repeat constructor; lia|vm_compute; reflexivity].
  - simpl. lia.
Defined.


Lemma chmod_digits_witness :
  exists mode, chmod_parse [55; 53] = Some mode /\
    Z.land (Z.shiftr mode 3) 7 = 7 /\ Z.land mode 7 = 5 /\ 0 <= mode < 64.
Proof. apply (chmod_digits 7 5); lia. Defined.

(** [addUser] takes the account "a-b" with password "cd"; written to the passwd
    file and read back it has become the account "a" with password "b-cd". *)
Example addUser_dash_lost :
  let m := write (write demo 3000 [97; 45; 98; 0]) 3100 [99; 100; 0] in
  ('(r, m1) ← addUser_table 1000 m 3000 3100;
   '(out, _) ← flushUsers_loop 1000 m1 4000 2 0;
   let m3 := loadUsers_parse 1000 (write demo0 5000 out) 5000 (Z.of_nat (length out)) in
   Some (r, read m1 (usernames 1000 1) 4, read m3 (usernames 1000 1) 2, read m3 (passwords 1000 1) 5)) =
  Some (0, [97; 45; 98; 0], [97; 0], [98; 45; 99; 100; 0]).
Proof. vm_compute. reflexivity. Qed.
