(* ===== verification/Spinlock.v ===== *)
(** * Spin locks

    spinlock.c: [pushcli] and [popcli], [holding], [acquire] and [release], and
    [getcallerpcs], as operations of one CPU on its own [struct cpu] and on the
    locks in memory.
    The second part, [Module Interleaving], splits [acquire] and [release] into
    their memory accesses and lets any number of CPUs take them in any order. *)

From S2P Require Import Prelude CString.
From stdpp Require Import gmap functions.
Open Scope Z_scope.

(** The part of [struct cpu] the locks use, with the interrupt flag of the
    CPU's eflags register. *)
Record cpu := mkCpu { ncli : Z; intena : bool; IF : bool }.

(** [lk_cpu] is the address of a [struct cpu], 0 when the lock is free. *)
Record spinlock := mkSpinlock { locked : Z; lk_cpu : Z; pcs : list Z }.

Definition initlock : spinlock := mkSpinlock 0 0 (replicate 10 0).

(** What a CPU sees: its [struct cpu] at address [me], the locks by address,
    and its stack, with [frame] the address of the current argument area. *)
Record lockst := mkLockst { me : Z; mycpu : cpu; locks : gmap Z spinlock; stack : mem; frame : Z }.

Definition set_cpu (c : cpu) (s : lockst) : lockst := mkLockst (me s) c (locks s) (stack s) (frame s).
Definition set_lock (a : Z) (l : spinlock) (s : lockst) : lockst :=
  mkLockst (me s) (mycpu s) (<[a := l]> (locks s)) (stack s) (frame s).
Definition lock_at (s : lockst) (a : Z) : spinlock := default initlock (locks s !! a).

Definition KERNBASE : Z := 2147483648.

(** The walk of the %ebp chain: at most ten frames, zero-filled. *)
Fixpoint getcallerpcs_loop (m : mem) (ebp : Z) (n : nat) : list Z :=
  match n with
  | O => []
  | S n' =>
      if (ebp =? 0) || (ebp <? KERNBASE) || (ebp =? 4294967295) then replicate n 0
      else ldw m (ebp + 4) :: getcallerpcs_loop m (ldw m ebp) n'
  end.

Definition getcallerpcs (m : mem) (v : Z) : list Z := getcallerpcs_loop m (u32 (v - 8)) 10.

Definition pushcli : M lockst () :=
  let* s := get in
  let c := mycpu s in
  let eflags := IF c in
  let c := mkCpu (ncli c) (intena c) false in
  let c := if ncli c =? 0 then mkCpu (ncli c) eflags (IF c) else c in
  put (set_cpu (mkCpu (ncli c + 1) (intena c) (IF c)) s).

Definition popcli : M lockst () :=
  let* s := get in
  let c := mycpu s in
  if IF c then panic "popcli - interruptible"
  else
    let c := mkCpu (ncli c - 1) (intena c) (IF c) in
    if ncli c <? 0 then panic "popcli"
    else put (set_cpu (if (ncli c =? 0) && intena c then mkCpu (ncli c) (intena c) true else c) s).

Definition holding (a : Z) : M lockst bool :=
  pushcli ;;;
  let* s := get in
  let l := lock_at s a in
  let r := nz (locked l) && (lk_cpu l =? me s) in
  popcli ;;;
  ret r.

(** On a lock another CPU holds, the [xchg] loop spins: [Blocked]. *)
Definition acquire (a : Z) : M lockst () :=
  pushcli ;;;
  let* h := holding a in
  if h then panic "acquire"
  else
    let* s := get in
    let l := lock_at s a in
    if nz (locked l) then sleeps
    else put (set_lock a (mkSpinlock 1 (me s) (getcallerpcs (stack s) (frame s))) s).

Definition release (a : Z) : M lockst () :=
  let* h := holding a in
  if negb h then panic "release"
  else
    let* s := get in
    let l := lock_at s a in
    put (set_lock a (mkSpinlock 0 0 (<[0%nat := 0]> (pcs l))) s) ;;;
    popcli.

(** A CPU whose nesting count is not negative and which has interrupts off
    while it is positive. *)
Definition cpu_ok (c : cpu) : Prop := 0 <= ncli c /\ (0 < ncli c -> IF c = false).

(** This CPU holds the lock at [a]. *)
Definition held (s : lockst) (a : Z) : bool := nz (locked (lock_at s a)) && (lk_cpu (lock_at s a) =? me s).

Lemma set_set_cpu c c' s : set_cpu c (set_cpu c' s) = set_cpu c s.
Proof. done. Qed.

Lemma set_cpu_id s c : mycpu s = c -> set_cpu c s = s.
Proof. by intros <-; destruct s. Qed.

Lemma pushcli_run s :
  pushcli s = Ret () (set_cpu (mkCpu (ncli (mycpu s) + 1)
    (if ncli (mycpu s) =? 0 then IF (mycpu s) else intena (mycpu s)) false) s).
Proof. unfold pushcli. mrun. simpl. by destruct (_ =? _). Qed.

(** [popcli] undoes [pushcli]: the count and the interrupt flag come back. *)
Lemma popcli_pushcli s s' :
  cpu_ok (mycpu s) -> 0 < ncli (mycpu s') -> ncli (mycpu s') = ncli (mycpu s) + 1 ->
  intena (mycpu s') = (if ncli (mycpu s) =? 0 then IF (mycpu s) else intena (mycpu s)) ->
  IF (mycpu s') = false ->
  popcli s' = Ret () (set_cpu (mkCpu (ncli (mycpu s)) (intena (mycpu s')) (IF (mycpu s))) s').
Proof.
  intros [H0 H1] Hp Hn Hi Hf. unfold popcli. mrun. rewrite Hf, Hn. simpl.
  replace (ncli (mycpu s) + 1 - 1) with (ncli (mycpu s)) by lia.
  replace (_ <? 0) with false by lia. rewrite Hi.
  destruct (ncli (mycpu s) =? 0) eqn:E; simpl; [by destruct (IF (mycpu s))|].
  bsplit. by rewrite H1 by lia.
Qed.

Lemma holding_run s a :
  cpu_ok (mycpu s) ->
  exists i, holding a s = Ret (held s a) (set_cpu (mkCpu (ncli (mycpu s)) i (IF (mycpu s))) s) /\
    (0 < ncli (mycpu s) -> i = intena (mycpu s)).
Proof.
  intros Hc. eexists. unfold holding, bind, get, ret. rewrite pushcli_run.
  erewrite (popcli_pushcli s); simpl; try done; [|destruct Hc; lia].
  split; [done|]. intros. by replace (_ =? 0) with false by lia.
Qed.

(** A cpu that already has interrupts off is left as it is by [holding]. *)
Lemma holding_off s a : cpu_ok (mycpu s) -> 0 < ncli (mycpu s) -> holding a s = Ret (held s a) s.
Proof.
  intros Hc Hn. destruct (holding_run s a Hc) as (i & -> & Hi). rewrite Hi by done.
  rewrite set_cpu_id; [done|by destruct (mycpu s)].
Qed.

Lemma lock_at_set s a l : lock_at (set_lock a l s) a = l.
Proof. unfold lock_at, set_lock. simpl. by rewrite lookup_insert_eq. Qed.

Lemma lock_at_set_ne s a b l : a <> b -> lock_at (set_lock a l s) b = lock_at s b.
Proof. intros. unfold lock_at, set_lock. simpl. by rewrite lookup_insert_ne. Qed.

Lemma lock_at_set_cpu s c a : lock_at (set_cpu c s) a = lock_at s a.
Proof. done. Qed.

(** The state [pushcli] leaves. *)
Definition pushed (s : lockst) : lockst :=
  set_cpu (mkCpu (ncli (mycpu s) + 1)
    (if ncli (mycpu s) =? 0 then IF (mycpu s) else intena (mycpu s)) false) s.

Lemma pushed_ok s : cpu_ok (mycpu s) -> cpu_ok (mycpu (pushed s)) /\ 0 < ncli (mycpu (pushed s)).
Proof. intros [? ?]. unfold cpu_ok. simpl. repeat split; lia || done. Qed.

Lemma acquire_run s a :
  cpu_ok (mycpu s) ->
  acquire a s =
    if held s a then Panic "acquire"
    else if nz (locked (lock_at s a)) then Blocked (pushed s)
    else Ret () (set_lock a (mkSpinlock 1 (me s) (getcallerpcs (stack s) (frame s))) (pushed s)).
Proof.
  intros Hc. pose proof (pushed_ok s Hc) as [Hp1 Hp2]. unfold acquire, bind, get, put, panic, sleeps.
  rewrite pushcli_run. fold (pushed s). rewrite holding_off by done.
  change (held (pushed s) a) with (held s a). destruct (held s a); [done|].
  change (lock_at (pushed s) a) with (lock_at s a). by destruct (nz _).
Qed.

Lemma release_run s a :
  cpu_ok (mycpu s) -> 0 < ncli (mycpu s) -> held s a = true ->
  release a s = popcli (set_lock a (mkSpinlock 0 0 (<[0%nat := 0]> (pcs (lock_at s a)))) s).
Proof.
  intros Hc Hn Hh. unfold release, bind, get, put, panic. rewrite holding_off, Hh by done. done.
Qed.

(** ** Taking and releasing a lock in a known state *)

Definition unlocked (a : Z) (l : lockst) : Prop := cpu_ok (mycpu l) /\ locked (lock_at l a) = 0.
Definition locked_by (a : Z) (l : lockst) : Prop := cpu_ok (mycpu l) /\ 0 < ncli (mycpu l) /\ held l a = true.

Lemma acquire_unlocked a s :
  unlocked a s -> exists l, acquire a s = Ret () l /\ locked_by a l /\
    (forall b, b <> a -> lock_at l b = lock_at s b) /\ ncli (mycpu l) = ncli (mycpu s) + 1.
Proof.
  intros [Hc Hl]. pose proof (pushed_ok _ Hc) as [? ?]. rewrite acquire_run by done.
  unfold held at 1. rewrite Hl. simpl. eexists. split; [done|]. split; [split; [done|split; [done|]]|split].
  - unfold held. rewrite lock_at_set. simpl. lia.
  - intros b Hb. by rewrite lock_at_set_ne.
  - done.
Qed.

Lemma release_locked a s :
  locked_by a s -> exists l, release a s = Ret () l /\ unlocked a l /\
    (forall b, b <> a -> lock_at l b = lock_at s b).
Proof.
  intros (Hc & Hn & Hh). rewrite release_run by done.
  pose proof Hc as [_ Hf]. unfold popcli, bind, get, put, panic. simpl. rewrite Hf by done.
  replace (_ <? 0) with false by lia. eexists. split; [done|]. split; [split|].
  - unfold cpu_ok. simpl. destruct (_ && _) eqn:E; simpl; bsplit; split; lia || auto.
  - rewrite lock_at_set_cpu, lock_at_set. done.
  - intros b Hb. by rewrite lock_at_set_cpu, lock_at_set_ne.
Qed.

(** A sequence of [pushcli] ([true]) and [popcli] ([false]). *)
Fixpoint run_cli (ops : list bool) : M lockst () :=
  match ops with
  | [] => ret ()
  | op :: ops => (if op : bool then pushcli else popcli) ;;; run_cli ops
  end.

(** The nesting depth after [ops], and whether it never becomes negative. *)
Fixpoint depth (ops : list bool) : Z :=
  match ops with [] => 0 | op :: ops => (if op : bool then 1 else -1) + depth ops end.
Definition well_nested (ops : list bool) : Prop := forall k, 0 <= depth (take k ops).

Lemma depth_app l k : depth (l ++ k) = depth l + depth k.
Proof. induction l as [|op l IH]; simpl; [done|]. rewrite IH. lia. Qed.

(** What stays true at depth [d] above the start state [s0]. *)
Definition nested (s0 : lockst) (d : Z) (s : lockst) : Prop :=
  ncli (mycpu s) = ncli (mycpu s0) + d /\
  IF (mycpu s) = (if d =? 0 then IF (mycpu s0) else false) /\
  (0 < d -> ncli (mycpu s0) = 0 -> intena (mycpu s) = IF (mycpu s0)) /\
  locks s = locks s0.

Lemma run_cli_nested ops s0 d s :
  cpu_ok (mycpu s0) -> 0 <= d -> (forall k, 0 <= d + depth (take k ops)) -> nested s0 d s ->
  exists s', run_cli ops s = Ret () s' /\ nested s0 (d + depth ops) s'.
Proof.
  intros Hc. revert d s. induction ops as [|op ops IH]; intros d s Hd Hk (N1 & N2 & N3 & N4); simpl.
  - exists s. split; [done|]. rewrite Z.add_0_r. by unfold nested.
  - assert (forall k, 0 <= d + (if op then 1 else -1) + depth (take k ops)) as Hk'.
    { intros k. specialize (Hk (S k)). simpl in Hk. lia. }
    pose proof (Hk' 0%nat) as Hd'. simpl in Hd'. destruct Hc as [Hc0 Hc1].
    rewrite Z.add_assoc. unfold bind. destruct op.
    + rewrite pushcli_run. apply IH; [lia|done|]. unfold nested. simpl.
      replace (d + 1 =? 0) with false by lia. split_and!; [lia|done| |done].
      intros _ H0. destruct (decide (d = 0)) as [-> |].
      * replace (ncli (mycpu s) =? 0) with true by lia. by rewrite N2.
      * replace (ncli (mycpu s) =? 0) with false by lia. apply N3; lia.
    + replace (d =? 0) with false in N2 by lia.
      unfold popcli, bind, get, put, panic. rewrite N2. simpl.
      replace (ncli (mycpu s) - 1 <? 0) with false by lia. apply IH; [lia|done|].
      unfold nested. destruct (decide (d = 1)) as [-> |].
      * rewrite N1. replace (ncli (mycpu s0) + 1 - 1) with (ncli (mycpu s0)) by lia. simpl.
        destruct (ncli (mycpu s0) =? 0) eqn:E; bsplit.
        -- rewrite N3 by lia. destruct (IF (mycpu s0)); simpl; split_and!; done || lia.
        -- simpl. split_and!; try done; lia.
      * replace (d + -1 =? 0) with false by lia. replace (ncli (mycpu s) - 1 =? 0) with false by lia.
        simpl. split_and!; try done; lia.
Qed.

(** [pushcli] and [popcli] nest.  Any sequence of them that never pops more
    than it has pushed runs without a panic; interrupts are off inside it, and
    when it is balanced the count and the interrupt flag are as before. *)
Theorem cli_nesting ops s :
  cpu_ok (mycpu s) -> well_nested ops ->
  exists s', run_cli ops s = Ret () s' /\
    ncli (mycpu s') = ncli (mycpu s) + depth ops /\
    IF (mycpu s') = (if depth ops =? 0 then IF (mycpu s) else false).
Proof.
  intros Hc Hw. destruct (run_cli_nested ops s 0 s) as (s' & E & N1 & N2 & _); try done.
  - unfold nested. split_and!; done || lia.
  - exists s'. by rewrite Z.add_0_l in N1, N2.
Qed.

Lemma cli_nesting_witness :
  let s := mkLockst 100 (mkCpu 0 false true) ∅ ∅ 0 in
  exists s', run_cli [true; true; false; true; false; false] s = Ret () s' /\
    ncli (mycpu s') = 0 /\ IF (mycpu s') = true.
Proof.
  apply (cli_nesting [true; true; false; true; false; false]).
  - split; simpl; lia.
  - intros k. do 7 (destruct k as [|k]; [simpl; lia|]). simpl. lia.
Defined.

(** Taking a free lock and releasing it puts the CPU and the lock back:
    the lock is free again and the interrupt flag and nesting are as before. *)
Theorem acquire_release s a :
  cpu_ok (mycpu s) -> locked (lock_at s a) = 0 -> me s <> 0 ->
  exists s1 s2, acquire a s = Ret () s1 /\ held s1 a = true /\ IF (mycpu s1) = false /\
    acquire a s1 = Panic "acquire" /\
    release a s1 = Ret () s2 /\ locked (lock_at s2 a) = 0 /\ lk_cpu (lock_at s2 a) = 0 /\
    ncli (mycpu s2) = ncli (mycpu s) /\ IF (mycpu s2) = IF (mycpu s) /\
    (forall b, b <> a -> lock_at s2 b = lock_at s b).
Proof.
  intros Hc Hl Hme. pose proof (pushed_ok s Hc) as [Hp1 Hp2].
  rewrite acquire_run by done. unfold held at 1. rewrite Hl. simpl.
  set (s1 := set_lock a _ _). exists s1.
  assert (held s1 a = true) as Hh by (unfold held, s1; rewrite lock_at_set; simpl; lia).
  rewrite acquire_run, Hh by done. rewrite release_run by done. 
  rewrite (popcli_pushcli s); [|done|simpl; destruct Hc; lia|done..].
  eexists. split_and!; try done; rewrite ?lock_at_set_cpu, ?lock_at_set; try done.
  intros b Hb. rewrite lock_at_set_cpu. unfold s1. by rewrite !lock_at_set_ne.
Qed.

Lemma acquire_release_witness :
  let s := mkLockst 100 (mkCpu 0 false true) ∅ ∅ 0 in
  exists s1 s2, acquire 7 s = Ret () s1 /\ held s1 7 = true /\ IF (mycpu s1) = false /\
    acquire 7 s1 = Panic "acquire" /\
    release 7 s1 = Ret () s2 /\ locked (lock_at s2 7) = 0 /\ lk_cpu (lock_at s2 7) = 0 /\
    ncli (mycpu s2) = ncli (mycpu s) /\ IF (mycpu s2) = IF (mycpu s) /\
    (forall b, b <> 7 -> lock_at s2 b = lock_at s b).
Proof. apply (acquire_release (mkLockst 100 (mkCpu 0 false true) ∅ ∅ 0) 7); [split; simpl; lia|done|done]. Defined.

(** ** Many CPUs

    One lock, shared by CPUs that call [acquire] and [release] in turn; each
    step is one access to the lock's memory.  The program counters are the
    points between these accesses. *)
Module Interleaving.
Inductive pc :=
| Out                                   (* not in acquire, does not hold the lock *)
| AcqLocked | AcqCpu | AcqXchg | AcqSet (* inside acquire *)
| In                                    (* the critical section *)
| RelLocked | RelCpu | RelClear | RelUnlock
| Panicked.
#[export] Instance pc_eq_dec : EqDecision pc.
Proof. solve_decision. Defined.

Record state := mkState { lkd : Z; own : option nat; at_pc : nat -> pc }.

(** The access CPU [i] makes next; a caller enters [acquire] only when it does
    not hold the lock and [release] only when it does. *)
Definition access (i : nat) (s : state) : state :=
  let goto p := mkState (lkd s) (own s) (<[i := p]> (at_pc s)) in
  match at_pc s i with
  | Out => goto AcqLocked
  | AcqLocked => if nz (lkd s) then goto AcqCpu else goto AcqXchg
  | AcqCpu => if bool_decide (own s = Some i) then goto Panicked else goto AcqXchg
  | AcqXchg => if nz (lkd s) then mkState 1 (own s) (at_pc s)
               else mkState 1 (own s) (<[i := AcqSet]> (at_pc s))
  | AcqSet => mkState (lkd s) (Some i) (<[i := In]> (at_pc s))
  | In => goto RelLocked
  | RelLocked => if nz (lkd s) then goto RelCpu else goto Panicked
  | RelCpu => if bool_decide (own s = Some i) then goto RelClear else goto Panicked
  | RelClear => mkState (lkd s) None (<[i := RelUnlock]> (at_pc s))
  | RelUnlock => mkState 0 (own s) (<[i := Out]> (at_pc s))
  | Panicked => s
  end.

Definition init : state := mkState 0 None (fun _ => Out).

(** The states a schedule, a list of CPU numbers, leads to. *)
Definition run (sch : list nat) : state := foldl (fun s i => access i s) init sch.

(** Between the [xchg] that took the lock and the store that frees it. *)
Definition inside (p : pc) : bool :=
  match p with AcqSet | In | RelLocked | RelCpu | RelClear | RelUnlock => true | _ => false end.
Definition owning (p : pc) : bool :=
  match p with In | RelLocked | RelCpu | RelClear => true | _ => false end.

Lemma owning_inside p : owning p = true -> inside p = true.
Proof. by destruct p. Qed.

(** [h] is the CPU that has the lock, if any. *)
Record inv (s : state) (h : option nat) : Prop := {
  inv_inside : forall i, inside (at_pc s i) = true <-> h = Some i;
  inv_locked : lkd s = if h is Some _ then 1 else 0;
  inv_own : forall i, own s = Some i <-> owning (at_pc s i) = true;
  inv_safe : forall i, at_pc s i <> Panicked }.

Lemma inv_init : inv init None.
Proof. split; simpl; done. Qed.

Lemma at_pc_insert (f : nat -> pc) i j p : (<[i := p]> f) j = if decide (i = j) then p else f j.
Proof. unfold insert, fn_insert. by repeat case_decide. Qed.

(** The program counter of [i] moves to [p]; the lock's fields change to fit. *)
Lemma inv_move s h h' i p l o :
  inv s h -> p <> Panicked ->
  (inside p = true <-> h' = Some i) -> (forall j, j <> i -> h' = Some j <-> h = Some j) ->
  l = (if h' is Some _ then 1 else 0) ->
  (o = Some i <-> owning p = true) -> (forall j, j <> i -> o = Some j <-> own s = Some j) ->
  inv (mkState l o (<[i := p]> (at_pc s))) h'.
Proof.
  intros [I1 I2 I3 I4] Hp Hi Hh Hl Ho Ho'.
  split; simpl; [|done|..]; intros j; rewrite at_pc_insert; case_decide; subst; try done.
  - by rewrite I1, Hh by congruence.
  - by rewrite Ho', I3 by congruence.
Qed.

Lemma access_inv i s h : inv s h -> exists h', inv (access i s) h'.
Proof.
  intros I. pose proof I as [I1 I2 I3 I4]. specialize (I1 i). specialize (I3 i). specialize (I4 i).
  unfold access. destruct (at_pc s i) eqn:E; try done; simpl in I1, I3.
  - exists h. by apply (inv_move s h).
  - exists h. destruct (nz _); by apply (inv_move s h).
  - exists h. case_bool_decide as Ho; [by apply I3 in Ho|]. by apply (inv_move s h).
  - rewrite I2. destruct h as [j|]; simpl.
    + exists (Some j). destruct I. by split.
    + exists (Some i). apply (inv_move s None); try done. naive_solver.
  - exists h. destruct h as [j|]; [|intuition congruence]. assert (j = i) as -> by intuition congruence.
    apply (inv_move s (Some i)); try done. intros j Hj. split; [naive_solver|].
    intros Hs. apply (inv_own _ _ I) in Hs. apply owning_inside in Hs. apply (inv_inside _ _ I) in Hs. congruence.
  - exists h. by apply (inv_move s h).
  - exists h. rewrite I2. destruct h; [|intuition congruence]. by apply (inv_move s (Some n)).
  - exists h. case_bool_decide as Ho; [|by destruct Ho; apply I3]. by apply (inv_move s h).
  - exists h. apply (inv_move s h); try done. intros j Hj. split; [done|]. intros Hs.
    assert (own s = Some i) by by apply I3. congruence.
  - assert (h = Some i) as -> by by apply I1. exists None. apply (inv_move s (Some i)); try done.
    intros j Hj. split; [done|congruence].
Qed.

Lemma run_inv sch : exists h, inv (run sch) h.
Proof.
  unfold run. generalize inv_init. generalize init, (@None nat).
  induction sch as [|i sch IH]; intros s h Hs; simpl; [eauto|].
  destruct (access_inv i s h Hs) as [h' Hh']. by apply IH in Hh'.
Qed.

(** C39: mutual exclusion.  However the CPUs' accesses interleave, two of them
    are never between taking and freeing the lock at once, and the checks in
    [acquire] and [release] never panic. *)
Theorem spinlock_mutual_exclusion sch i j :
  (inside (at_pc (run sch) i) = true -> inside (at_pc (run sch) j) = true -> i = j) /\
  at_pc (run sch) i <> Panicked.
Proof.
  destruct (run_inv sch) as [h I]. split; [|apply (inv_safe _ _ I)].
  intros Hi Hj. apply (inv_inside _ _ I) in Hi, Hj. congruence.
Qed.
End Interleaving.
