(* ===== verification/Kalloc.v ===== *)
(** * The physical page allocator

    kalloc.c: a free list threaded through the free pages themselves.  Memory is
    addressed by kernel virtual addresses, the only ones the allocator uses.
    The linker's [end], the first address after the kernel, and the address of
    [kmem.lock] are arguments. *)

From S2P Require Import Prelude CString Spinlock.
Open Scope Z_scope.

(** memlayout.h *)
Definition EXTMEM : Z := 0x100000.
Definition PHYSTOP : Z := 0xE000000.
Definition DEVSPACE : Z := 0xFE000000.
Definition KERNLINK : Z := KERNBASE + EXTMEM.
Definition V2P (a : Z) : Z := u32 (a - KERNBASE).
Definition P2V (a : Z) : Z := u32 (a + KERNBASE).

(** mmu.h *)
Definition PGROUNDUP (sz : Z) : Z := Z.land (u32 (sz + PGSIZE - 1)) (Z.lnot (PGSIZE - 1)).
Definition PGROUNDDOWN (a : Z) : Z := Z.land a (Z.lnot (PGSIZE - 1)).

Record kmem := mkKmem { ram : mem; klock : lockst; use_lock : Z; freelist : Z }.

Definition set_ram (m : mem) (s : kmem) : kmem := mkKmem m (klock s) (use_lock s) (freelist s).
Definition set_freelist (p : Z) (s : kmem) : kmem := mkKmem (ram s) (klock s) (use_lock s) p.
Definition set_use_lock (v : Z) (s : kmem) : kmem := mkKmem (ram s) (klock s) v (freelist s).
Definition set_klock (l : lockst) (s : kmem) : kmem := mkKmem (ram s) l (use_lock s) (freelist s).

(** Loads and stores of kernel code. *)
Definition klk {A} (c : M lockst A) : M kmem A := lift klock set_klock c.
Definition ldk (a : Z) : M kmem Z := gets (fun s => ldw (ram s) a).
Definition stk (a w : Z) : M kmem () := modify (fun s => set_ram (stw (ram s) a w) s).
Definition memsetk (a c n : Z) : M kmem () := modify (fun s => set_ram (memset (ram s) a c n) s).
Definition memmovek (d a : Z) (n : nat) : M kmem () := modify (fun s => set_ram (memmove (ram s) d a n) s).

Section kalloc.
Context (KMEM END : Z).

Definition kfree (v : Z) : M kmem () :=
  if nz (v mod PGSIZE) || (v <? END) || (PHYSTOP <=? V2P v) then panic "kfree"
  else
    memsetk v 1 PGSIZE ;;;
    let* s := get in
    when (nz (use_lock s)) (klk (acquire KMEM)) ;;;
    let* s := get in
    stk v (freelist s) ;;;
    modify (set_freelist v) ;;;
    let* s := get in
    when (nz (use_lock s)) (klk (release KMEM)).

Definition kalloc : M kmem Z :=
  let* s := get in
  when (nz (use_lock s)) (klk (acquire KMEM)) ;;;
  let* s := get in
  let r := freelist s in
  when (nz r) (let* next := ldk r in modify (set_freelist next)) ;;;
  let* s := get in
  when (nz (use_lock s)) (klk (release KMEM)) ;;;
  ret r.

(** The loop of [freerange], [n] times at most: [p] moves on by a page each time,
    so [(vend - p) / PGSIZE + 1] iterations see it pass [vend]. *)
Fixpoint freerange_loop (n : nat) (p vend : Z) : M kmem () :=
  match n with
  | O => ret ()
  | Datatypes.S n =>
      if u32 (p + PGSIZE) <=? vend then kfree p ;;; freerange_loop n (u32 (p + PGSIZE)) vend
      else ret ()
  end.

Definition freerange (vstart vend : Z) : M kmem () :=
  let p := PGROUNDUP vstart in
  freerange_loop (Z.to_nat ((vend - p) / PGSIZE + 1)) p vend.

Definition kinit1 (vstart vend : Z) : M kmem () :=
  modify (fun s => set_klock (set_lock KMEM initlock (klock s)) s) ;;;
  modify (set_use_lock 0) ;;;
  freerange vstart vend.

Definition kinit2 (vstart vend : Z) : M kmem () :=
  freerange vstart vend ;;;
  modify (set_use_lock 1).

(** ** The free list *)

(** A page the allocator may own. *)
Definition page (v : Z) : Prop := v mod PGSIZE = 0 /\ END <= v < KERNBASE + PHYSTOP.

(** [a] lies in the page at [v]. *)
Definition in_page (v a : Z) : Prop := v <= a < v + PGSIZE.

(** The list of free pages in memory [m] from [head]. *)
Fixpoint chain (m : mem) (head : Z) (l : list Z) : Prop :=
  match l with
  | [] => head = 0
  | p :: l => head = p /\ chain m (ldw m p) l
  end.

Definition kinv (s : kmem) (l : list Z) : Prop :=
  chain (ram s) (freelist s) l /\ NoDup l /\ Forall page l /\ unlocked KMEM (klock s).

(** The same bytes outside the pages of [l]. *)
Definition same_outside (l : list Z) (m m' : mem) : Prop :=
  forall a, (forall p, p ∈ l -> ~ in_page p a) -> ld m' a = ld m a.

Lemma page_apart p q : page p -> page q -> p <> q -> p + PGSIZE <= q \/ q + PGSIZE <= p.
Proof.
  intros [Hp _] [Hq _] Hne. unfold PGSIZE in *.
  pose proof (Z.div_mod p 4096). pose proof (Z.div_mod q 4096). lia.
Qed.

Lemma page_disjoint p q a : page p -> page q -> in_page p a -> in_page q a -> p = q.
Proof.
  intros Hp Hq Ha Hb. destruct (decide (p = q)) as [|Hne]; [done|].
  destruct (page_apart p q Hp Hq Hne); unfold in_page in *; lia.
Qed.

(** The bytes of a page that [l] does not have are the same. *)
Lemma same_outside_page l m m' p a :
  same_outside l m m' -> Forall page l -> page p -> p ∉ l -> in_page p a -> ld m' a = ld m a.
Proof.
  intros Hs Hl Hp Hn Ha. apply Hs. intros q Hq Hqa. apply Hn.
  rewrite (page_disjoint p q a); [done|done| |done..]. by eapply Forall_forall in Hl.
Qed.

Lemma same_outside_word l m m' p a :
  same_outside l m m' -> Forall page l -> page p -> p ∉ l -> p <= a -> a + 4 <= p + PGSIZE ->
  ldw m' a = ldw m a.
Proof. intros. apply ldw_ext. intros x Hx. eapply same_outside_page; eauto. unfold in_page. lia. Qed.

Lemma same_outside_refl l m : same_outside l m m.
Proof. by intros a _. Qed.

Lemma same_outside_trans l1 l2 m1 m2 m3 :
  same_outside l1 m1 m2 -> same_outside l2 m2 m3 -> same_outside (l1 ++ l2) m1 m3.
Proof. intros H1 H2 a Ha. rewrite H2, H1; [done|..]; intros p Hp; apply Ha; set_solver. Qed.

Lemma same_outside_sub l l' m m' : l ⊆ l' -> same_outside l m m' -> same_outside l' m m'.
Proof. intros Hl H a Ha. apply H. intros p Hp. apply Ha. set_solver. Qed.

Lemma same_outside_write p m a l :
  p <= a -> a + Z.of_nat (length l) <= p + PGSIZE -> same_outside [p] m (write m a l).
Proof.
  intros H1 H2 x Hx. apply ld_write_out. specialize (Hx p ltac:(set_solver)). unfold in_page in Hx. lia.
Qed.

Lemma same_outside_stw p m a w : p <= a -> a + 4 <= p + PGSIZE -> same_outside [p] m (stw m a w).
Proof.
  intros H1 H2 x Hx. apply ld_stw_out. specialize (Hx p ltac:(set_solver)). unfold in_page in Hx. lia.
Qed.

Lemma same_outside_memset p m c : same_outside [p] m (memset m p c PGSIZE).
Proof.
  rewrite memset_spec by (unfold PGSIZE; lia). apply same_outside_write; [lia|].
  rewrite length_replicate, Z2Nat.id; unfold PGSIZE; lia.
Qed.

Lemma chain_ext m m' h l :
  (forall p, p ∈ l -> ldw m' p = ldw m p) -> chain m h l -> chain m' h l.
Proof.
  revert h. induction l as [|p l IH]; intros h He; [done|]. intros [-> Hc]. split; [done|].
  rewrite He by set_solver. apply IH; [|done]. intros q Hq. apply He. set_solver.
Qed.

(** The free list does not see writes to pages that are not on it. *)
Lemma chain_same_outside m m' h l ps :
  same_outside ps m m' -> Forall page ps -> Forall page l -> (forall p, p ∈ ps -> p ∉ l) ->
  chain m h l -> chain m' h l.
Proof.
  intros Hs Hps Hl Hd. apply chain_ext. intros p Hp.
  apply (same_outside_word ps _ _ p); [done|done| |set_solver|lia|unfold PGSIZE; lia].
  by eapply Forall_forall in Hl.
Qed.

Lemma PGROUNDUP_div a : 0 <= a <= 2 ^ 32 - PGSIZE -> PGROUNDUP a = (a + PGSIZE - 1) / PGSIZE * PGSIZE.
Proof.
  intros Ha. unfold PGROUNDUP. rewrite u32_small by (unfold PGSIZE in *; lia).
  change (PGSIZE - 1) with (Z.ones 12). rewrite <- Z.ldiff_land, Z.ldiff_ones_r by lia.
  rewrite Z.shiftl_mul_pow2, Z.shiftr_div_pow2 by lia. done.
Qed.

Lemma PGROUNDDOWN_div a : PGROUNDDOWN a = a / PGSIZE * PGSIZE.
Proof.
  unfold PGROUNDDOWN. change (PGSIZE - 1) with (Z.ones 12). rewrite <- Z.ldiff_land, Z.ldiff_ones_r by lia.
  by rewrite Z.shiftl_mul_pow2, Z.shiftr_div_pow2 by lia.
Qed.

Lemma PGROUNDUP_spec a : 0 <= a <= 2 ^ 32 - PGSIZE ->
  a <= PGROUNDUP a < a + PGSIZE /\ PGROUNDUP a mod PGSIZE = 0.
Proof.
  intros Ha. rewrite PGROUNDUP_div by done. split; [|by apply Z.mod_mul].
  pose proof (Z.div_mod (a + PGSIZE - 1) PGSIZE). pose proof (Z.mod_pos_bound (a + PGSIZE - 1) PGSIZE).
  unfold PGSIZE in *. lia.
Qed.

Lemma PGROUNDUP_aligned b : 0 <= b < 2 ^ 32 - PGSIZE -> b mod PGSIZE = 0 -> PGROUNDUP b = b.
Proof.
  intros Hb Hm. pose proof (Z.div_mod b PGSIZE). rewrite PGROUNDUP_div by lia.
  replace (b + PGSIZE - 1) with (PGSIZE - 1 + b / PGSIZE * PGSIZE) by (unfold PGSIZE in *; lia).
  rewrite Z.div_add by done. change ((PGSIZE - 1) / PGSIZE) with 0. unfold PGSIZE in *. lia.
Qed.

(** The [n] pages from [p] on, and the pages of a range of addresses. *)
Definition pages_from (p : Z) (n : nat) : list Z := (fun i => p + Z.of_nat i * PGSIZE) <$> seq 0 n.
Definition pages_in (vstart vend : Z) : list Z :=
  pages_from (PGROUNDUP vstart) (Z.to_nat ((vend - PGROUNDUP vstart) / PGSIZE)).

Lemma pages_from_S p n : pages_from p (S n) = p :: pages_from (p + PGSIZE) n.
Proof.
  unfold pages_from. simpl. f_equal; [lia|]. rewrite <- fmap_S_seq, <- list_fmap_compose.
  apply list_fmap_ext. intros i x _. simpl. unfold PGSIZE. lia.
Qed.

Lemma elem_of_pages_from p n q : q ∈ pages_from p n <-> exists i, (i < n)%nat /\ q = p + Z.of_nat i * PGSIZE.
Proof. unfold pages_from. rewrite list_elem_of_fmap. setoid_rewrite elem_of_seq. naive_solver lia. Qed.

Lemma NoDup_pages_from p n : NoDup (pages_from p n).
Proof. apply NoDup_fmap_2; [|apply NoDup_seq]. intros i j. unfold PGSIZE. lia. Qed.

Lemma pages_from_app p n k : pages_from p (n + k) = pages_from p n ++ pages_from (p + Z.of_nat n * PGSIZE) k.
Proof.
  revert p. induction n as [|n IH]; intros p; [by rewrite Z.add_0_r|]; cbn [Nat.add].
  rewrite !pages_from_S, IH. replace (p + Z.of_nat (S n) * PGSIZE) with (p + PGSIZE + Z.of_nat n * PGSIZE) by lia. done.
Qed.

(** Consecutive ranges that meet at a page boundary. *)
Lemma pages_in_app a b c :
  0 <= a -> PGROUNDUP a <= b <= c -> a <= b -> c < 2 ^ 32 - PGSIZE -> b mod PGSIZE = 0 ->
  pages_in a c = pages_in a b ++ pages_in b c.
Proof.
  intros Ha Hb Hab Hc Hm. unfold pages_in. rewrite (PGROUNDUP_aligned b) by (unfold PGSIZE in *; lia).
  destruct (PGROUNDUP_spec a) as [_ Hp]; [unfold PGSIZE in *; lia|]. set (p := PGROUNDUP a) in *.
  assert (b = p + Z.of_nat (Z.to_nat ((b - p) / PGSIZE)) * PGSIZE) as Eb.
  { assert ((b - p) mod PGSIZE = 0) by (rewrite Zminus_mod, Hm, Hp; done).
    pose proof (Z.div_mod (b - p) PGSIZE). assert (0 <= (b - p) / PGSIZE) by (apply Z.div_pos; unfold PGSIZE; lia).
    unfold PGSIZE in *. lia. }
  set (n := Z.to_nat ((b - p) / PGSIZE)) in *.
  replace (Z.to_nat ((c - p) / PGSIZE)) with (n + Z.to_nat ((c - b) / PGSIZE))%nat; [by rewrite pages_from_app, <- Eb|].
  replace (c - p) with (c - b + Z.of_nat n * PGSIZE) by lia. rewrite Z.div_add by done.
  rewrite Z2Nat.inj_add, Nat2Z.id; [lia|apply Z.div_pos; unfold PGSIZE; lia|lia].
Qed.

Lemma kinv_set_ram s l ps m :
  kinv s l -> same_outside ps (ram s) m -> Forall page ps -> (forall p, p ∈ ps -> p ∉ l) -> kinv (set_ram m s) l.
Proof. intros (Hc & Hd & Hp & Hu) Hs Hps Hn. split_and!; [by eapply chain_same_outside|done..]. Qed.

Hypothesis END_kernel : KERNBASE <= END.

Lemma page_bounds v : page v -> 0 < v /\ v + PGSIZE <= KERNBASE + PHYSTOP /\ KERNBASE + PHYSTOP < 2 ^ 32.
Proof.
  unfold page, KERNBASE, PHYSTOP, PGSIZE in *. intros [Hm Hv].
  pose proof (Z.div_mod v 4096). assert (v / 4096 < 581632) by (apply Z.div_lt_upper_bound; lia). lia.
Qed.

Lemma page_V2P v : page v -> V2P v = v - KERNBASE /\ V2P v < PHYSTOP.
Proof.
  intros Hp. pose proof (page_bounds v Hp) as (? & ? & ?). destruct Hp as [_ Hp].
  unfold V2P. rewrite u32_small by (unfold KERNBASE, PHYSTOP, PGSIZE in *; lia).
  unfold PGSIZE in *. lia.
Qed.

Lemma page_P2V v : page v -> P2V (V2P v) = v.
Proof.
  intros Hp. destruct (page_V2P v Hp) as [-> _]. pose proof (page_bounds v Hp) as (? & ? & ?).
  unfold P2V, PGSIZE in *. rewrite u32_small; lia.
Qed.

Lemma when_acquire (b : bool) s :
  unlocked KMEM (klock s) -> exists l, when b (klk (acquire KMEM)) s = Ret () (set_klock l s) /\
    if b then locked_by KMEM l else unlocked KMEM l.
Proof.
  intros Hu. destruct b; simpl.
  - destruct (acquire_unlocked _ _ Hu) as (l & E & Hl & _). exists l. unfold klk, lift. by rewrite E.
  - exists (klock s). by destruct s.
Qed.

Lemma when_release (b : bool) s :
  (if b then locked_by KMEM (klock s) else unlocked KMEM (klock s)) ->
  exists l, when b (klk (release KMEM)) s = Ret () (set_klock l s) /\ unlocked KMEM l.
Proof.
  intros Hu. destruct b; simpl.
  - destruct (release_locked _ _ Hu) as (l & E & Hl & _). exists l. unfold klk, lift. by rewrite E.
  - exists (klock s). by destruct s.
Qed.

(** Freeing a page puts it at the head of the list. *)
Lemma kfree_run s l v :
  kinv s l -> page v -> v ∉ l ->
  exists s', kfree v s = Ret () s' /\ kinv s' (v :: l) /\ same_outside [v] (ram s) (ram s') /\ use_lock s' = use_lock s.
Proof.
  intros (Hc & Hd & Hp & Hu) Hv Hl. pose proof (page_bounds v Hv) as (? & ? & ?). destruct (page_V2P v Hv) as [_ Hlt].
  unfold kfree. pose proof Hv as [-> ?]. replace (v <? END) with false by lia.
  replace (PHYSTOP <=? V2P v) with false by lia. simpl. unfold memsetk. rewrite bind_modify, bind_get.
  set (s1 := set_ram _ s). destruct (when_acquire (nz (use_lock s1)) s1 Hu) as (l1 & E1 & Hk1).
  rewrite (bind_ret _ _ _ _ _ E1), bind_get. unfold stk. rewrite !bind_modify, bind_get.
  match goal with |- context [when _ _ ?x] => destruct (when_release (nz (use_lock x)) x Hk1) as (l2 & -> & Hk2) end.
  eexists. split; [done|]. assert (same_outside [v] (ram s) (stw (memset (ram s) v 1 PGSIZE) v (freelist s))) as Hs.
  { eapply (same_outside_sub ([v] ++ [v])); [set_solver|]. eapply same_outside_trans; [apply same_outside_memset|].
    apply same_outside_stw; unfold PGSIZE; lia. }
  split; [split_and!; simpl|done].
  - split; [done|]. rewrite ldw_stw. apply (chain_same_outside (ram s) _ _ _ [v]); [done|by constructor|done|set_solver|].
    destruct l as [|p l]; [by rewrite Hc|]. destruct Hc as [Hf ?]. rewrite Hf in *. split; [|done].
    apply Forall_cons in Hp as [Hp _]. apply page_bounds in Hp. rewrite u32_small; [done|]. unfold PGSIZE in *. lia.
  - by constructor.
  - by constructor.
  - done.
Qed.

(** Allocating takes the first page of the list, or fails on the empty list. *)
Lemma kalloc_run s l :
  kinv s l -> exists s', kalloc s = Ret (hd 0 l) s' /\ kinv s' (tail l) /\ ram s' = ram s /\ use_lock s' = use_lock s.
Proof.
  intros (Hc & Hd & Hp & Hu). unfold kalloc. rewrite bind_get.
  destruct (when_acquire (nz (use_lock s)) s Hu) as (l1 & E1 & Hk1).
  rewrite (bind_ret _ _ _ _ _ E1), bind_get. cbv zeta.
  assert (freelist s = hd 0 l) as Hf by (by destruct l; [|destruct Hc]). simpl. rewrite Hf.
  assert (exists s2, when (nz (hd 0 l)) (let* next := ldk (hd 0 l) in modify (set_freelist next)) (set_klock l1 s) = Ret () s2 /\
    ram s2 = ram s /\ klock s2 = l1 /\ use_lock s2 = use_lock s /\ chain (ram s2) (freelist s2) (tail l)) as (s2 & E2 & Hr2 & Hk2 & Hu2 & Hc2).
  { destruct l as [|p l]; simpl; [by eexists|]. apply Forall_cons in Hp as [Hp _]. apply page_bounds in Hp.
    replace (nz p) with true by (unfold nz; lia). eexists. split; [done|]. simpl. by destruct Hc. }
  rewrite (bind_ret _ _ _ _ _ E2), bind_get, Hu2.
  destruct (when_release (nz (use_lock s)) s2) as (l3 & E3 & H3); [by rewrite Hk2|].
  rewrite (bind_ret _ _ _ _ _ E3). eexists. split; [done|]. split; [|done]. split_and!; simpl.
  - done.
  - destruct l; [done|]. by apply NoDup_cons in Hd as [].
  - destruct l; [done|]. by apply Forall_cons in Hp as [].
  - done.
Qed.

(** ** The initial list *)

Lemma freerange_loop_run n s l p vend :
  kinv s l -> 0 <= p -> vend < 2 ^ 32 - PGSIZE -> Z.of_nat n = (vend - p) / PGSIZE ->
  Forall page (pages_from p n) -> (forall q, q ∈ pages_from p n -> q ∉ l) ->
  exists s', freerange_loop (n + 1) p vend s = Ret () s' /\ kinv s' (reverse (pages_from p n) ++ l) /\
    same_outside (pages_from p n) (ram s) (ram s') /\ use_lock s' = use_lock s.
Proof.
  revert s l p. induction n as [|n IH]; intros s l p Hs Hp Hv Hn Hpp Hd; simpl freerange_loop.
  - assert (p <= vend < p + PGSIZE) by (pose proof (Z.div_mod (vend - p) PGSIZE);
      pose proof (Z.mod_pos_bound (vend - p) PGSIZE); unfold PGSIZE in *; lia).
    rewrite u32_small by (unfold PGSIZE in *; lia). replace (_ <=? _) with false by lia.
    eexists. split; [done|]. split; [done|]. split; [apply same_outside_refl|done].
  - assert (p + PGSIZE <= vend) by (pose proof (Z.div_mod (vend - p) PGSIZE);
      pose proof (Z.mod_pos_bound (vend - p) PGSIZE); unfold PGSIZE in *; lia).
    rewrite u32_small by (unfold PGSIZE in *; lia). replace (_ <=? _) with true by lia.
    rewrite pages_from_S in *. apply Forall_cons in Hpp as [Hpp1 Hpp2].
    destruct (kfree_run s l p) as (s1 & E1 & Hs1 & Ho1 & Hu1); [done|done|set_solver|].
    rewrite (bind_ret _ _ _ _ _ E1).
    assert (p ∉ pages_from (p + PGSIZE) n) as Hnp by (rewrite elem_of_pages_from; unfold PGSIZE; intros (i & ? & ?); lia).
    destruct (IH s1 (p :: l) (p + PGSIZE)) as (s2 & E2 & Hs2 & Ho2 & Hu2); [done|unfold PGSIZE; lia|done| |done| |].
    + replace (vend - (p + PGSIZE)) with (vend - p + (-1) * PGSIZE) by lia.
      rewrite Z.div_add by done. lia.
    + intros q Hq. specialize (Hd q). set_solver.
    + exists s2. split; [done|]. rewrite reverse_cons, <- app_assoc. split; [done|]. split; [|congruence].
      by eapply (same_outside_trans [p]).
Qed.

(** The pages of a range the allocator may own are pages. *)
Lemma pages_in_ok vstart vend :
  END <= vstart <= vend -> vend <= KERNBASE + PHYSTOP -> Forall page (pages_in vstart vend).
Proof.
  intros Hs He.
  apply Forall_forall. intros q. unfold pages_in. rewrite elem_of_pages_from. intros (i & Hi & ->).
  destruct (PGROUNDUP_spec vstart) as [Hr Hm]; [unfold KERNBASE, PHYSTOP, PGSIZE in *; lia|].
  set (p := PGROUNDUP vstart) in *. split; [by rewrite Z.mod_add|].
  pose proof (Z.div_mod (vend - p) PGSIZE). pose proof (Z.mod_pos_bound (vend - p) PGSIZE). unfold PGSIZE in *. lia.
Qed.

Lemma freerange_run s l vstart vend :
  kinv s l -> END <= vstart <= vend -> PGROUNDUP vstart <= vend <= KERNBASE + PHYSTOP ->
  (forall q, q ∈ pages_in vstart vend -> q ∉ l) ->
  exists s', freerange vstart vend s = Ret () s' /\ kinv s' (reverse (pages_in vstart vend) ++ l) /\
    same_outside (pages_in vstart vend) (ram s) (ram s') /\ use_lock s' = use_lock s.
Proof.
  intros Hs He Hv Hd.
  assert (0 <= (vend - PGROUNDUP vstart) / PGSIZE) by (apply Z.div_pos; unfold PGSIZE; lia).
  unfold freerange. rewrite Z2Nat.inj_add by lia.
  destruct (PGROUNDUP_spec vstart) as [? _]; [unfold KERNBASE, PHYSTOP, PGSIZE in *; lia|].
  apply freerange_loop_run; [done|unfold KERNBASE in *; lia|unfold KERNBASE, PHYSTOP, PGSIZE in *; lia|lia| |done].
  apply pages_in_ok; lia.
Qed.

(** Every page the allocator may own lies in the range from [END]. *)
Lemma page_in_range v : END <= KERNBASE + PHYSTOP -> page v -> v ∈ pages_in END (KERNBASE + PHYSTOP).
Proof.
  intros He [Hm Hv]. unfold pages_in. rewrite elem_of_pages_from.
  destruct (PGROUNDUP_spec END) as [Hr Hp]; [unfold KERNBASE, PHYSTOP, PGSIZE in *; lia|].
  set (p := PGROUNDUP END) in *. pose proof (Z.div_mod v PGSIZE). pose proof (Z.div_mod p PGSIZE).
  assert ((v - p) mod PGSIZE = 0) by (rewrite Zminus_mod, Hm, Hp; done).
  pose proof (Z.div_mod (v - p) PGSIZE). exists (Z.to_nat ((v - p) / PGSIZE)).
  assert (0 <= (v - p) / PGSIZE) by (unfold PGSIZE in *; lia).
  split; [|unfold PGSIZE in *; lia]. apply Z2Nat.inj_lt; [done|apply Z.div_pos; unfold PGSIZE in *; lia|].
  assert ((KERNBASE + PHYSTOP - p) mod PGSIZE = 0) by (rewrite Zminus_mod, Hp; done).
  pose proof (Z.div_mod (KERNBASE + PHYSTOP - p) PGSIZE). unfold PGSIZE in *. lia.
Qed.

(** ** An allocator *)

(** Booting hands out the memory exactly.  [kinit1] for the first 4 Mbyte
    and [kinit2] for the rest, as main() calls them, put every page between the
    end of the kernel and PHYSTOP on the free list, each once, and touch no
    other memory. *)
Theorem kinit_all_pages s :
  END <= KERNBASE + 4 * EXTMEM - PGSIZE -> cpu_ok (mycpu (klock s)) -> freelist s = 0 ->
  exists s1 s2 l,
    kinit1 END (P2V (4 * 1024 * 1024)) s = Ret () s1 /\
    kinit2 (P2V (4 * 1024 * 1024)) (P2V PHYSTOP) s1 = Ret () s2 /\
    kinv s2 l /\ l ≡ₚ pages_in END (KERNBASE + PHYSTOP) /\
    (forall v, v ∈ l <-> page v) /\ same_outside l (ram s) (ram s2).
Proof.
  intros He Hc Hf. change (P2V (4 * 1024 * 1024)) with (KERNBASE + 4 * EXTMEM). change (P2V PHYSTOP) with (KERNBASE + PHYSTOP).
  set (mid := KERNBASE + 4 * EXTMEM). set (top := KERNBASE + PHYSTOP).
  assert (END <= PGROUNDUP END < END + PGSIZE) as Hr by (apply PGROUNDUP_spec; unfold KERNBASE, EXTMEM, PGSIZE in *; lia).
  assert (PGROUNDUP mid = mid) as Hmid by by apply PGROUNDUP_aligned.
  set (s0 := set_use_lock 0 (set_klock (set_lock KMEM initlock (klock s)) s)).
  destruct (freerange_run s0 [] END mid) as (s1 & E1 & Hi1 & Ho1 & Hu1).
  { split_and!; [done|constructor|constructor|]. split; [done|]. simpl. by rewrite lock_at_set. }
  { unfold mid, EXTMEM, PGSIZE in *. lia. }
  { unfold mid, EXTMEM, PHYSTOP, PGSIZE in *. lia. }
  { set_solver. }
  rewrite app_nil_r in Hi1.
  destruct (freerange_run s1 (reverse (pages_in END mid)) mid top) as (s2 & E2 & Hi2 & Ho2 & _).
  { done. }
  { unfold mid, top, EXTMEM, PHYSTOP, PGSIZE in *. lia. }
  { rewrite Hmid. unfold mid, top, EXTMEM, PHYSTOP in *. lia. }
  { intros q. rewrite elem_of_reverse. unfold pages_in. rewrite !elem_of_pages_from, Hmid. intros (i & _ & ->) (j & Hj & Hij).
    pose proof (Z.div_mod (mid - PGROUNDUP END) PGSIZE). pose proof (Z.mod_pos_bound (mid - PGROUNDUP END) PGSIZE).
    unfold PGSIZE in *. lia. }
  assert (pages_in END top = pages_in END mid ++ pages_in mid top) as Happ.
  { apply pages_in_app; [..|done]; unfold mid, top, KERNBASE, EXTMEM, PHYSTOP, PGSIZE in *; lia. }
  assert (reverse (pages_in mid top) ++ reverse (pages_in END mid) ≡ₚ pages_in END top) as Hperm.
  { rewrite Happ, !reverse_Permutation. apply Permutation_app_comm. }
  exists s1, (set_use_lock 1 s2), (reverse (pages_in mid top) ++ reverse (pages_in END mid)). split_and!; [done| | |done| |].
  - unfold kinit2. by rewrite (bind_ret _ _ _ _ _ E2).
  - done.
  - intros v. rewrite Hperm. split; [|apply page_in_range; unfold EXTMEM, PHYSTOP, PGSIZE in *; lia].
    intros Hv. eapply Forall_forall; [|exact Hv]. apply pages_in_ok; unfold top, EXTMEM, PHYSTOP, PGSIZE in *; lia.
  - eapply same_outside_sub; [|exact (same_outside_trans _ _ _ _ _ Ho1 Ho2)].
    intros q. rewrite !elem_of_app, !elem_of_reverse. tauto.
Qed.

(** What a client of the allocator sees: the pages it holds.  An operation is
    allowed when it frees a held page; an allocation gives a page that is not
    held, or null when every page is. *)
Inductive kop := KAlloc | KFree (v : Z).

Definition kop_allowed (o : kop) (hs : list Z) : Prop :=
  match o with KAlloc => True | KFree v => v ∈ hs end.

Definition kop_spec (o : kop) (hs : list Z) (r : Z) (hs' : list Z) : Prop :=
  match o with
  | KAlloc => if r =? 0 then (hs' = hs /\ (forall v, page v -> v ∈ hs)) else (page r /\ (r ∉ hs) /\ hs' = r :: hs)
  | KFree v => hs ≡ₚ v :: hs'
  end.

Definition kop_run (o : kop) : M kmem Z :=
  match o with KAlloc => kalloc | KFree v => kfree v ;;; ret 0 end.

(** The pages are either free or held, and none is both or twice. *)
Definition krep (s : kmem) (hs : list Z) : Prop :=
  exists l, kinv s l /\ NoDup (l ++ hs) /\ forall v, v ∈ l ++ hs <-> page v.

(** C17: the allocator implements the set of held pages.  From a state in which
    every page is free or held once, an allowed operation returns, does what
    [kop_spec] says, keeps the correspondence, and leaves the contents of all
    pages that are held before and after it unchanged. *)
Theorem kalloc_refines s hs o :
  krep s hs -> kop_allowed o hs ->
  exists r s' hs', kop_run o s = Ret r s' /\ kop_spec o hs r hs' /\ krep s' hs' /\
    forall p a, p ∈ hs -> p ∈ hs' -> in_page p a -> ld (ram s') a = ld (ram s) a.
Proof.
  intros (l & Hk & Hd & Hp) Ho. destruct o as [|v]; simpl.
  - destruct (kalloc_run s l Hk) as (s' & E & Hk' & Hr & _).
    destruct l as [|q l]; simpl in *.
    + exists 0, s', hs. split; [done|]. split; [by split; [|intros v Hv; apply Hp]|]. split; [by exists []|by intros; rewrite Hr].
    + exists q, s', (q :: hs). assert (page q) as Hq by (apply Hp; left). pose proof (page_bounds q Hq).
      replace (q =? 0) with false by lia. apply NoDup_cons in Hd as [Hd1 Hd2].
      split; [done|]. split; [set_solver|]. split; [|by intros; rewrite Hr].
      exists l. split; [done|]. split; [rewrite <- Permutation_middle; by constructor|].
      intros v. rewrite <- Permutation_middle. apply Hp.
  - simpl in Ho. apply list_elem_of_split in Ho as (h1 & h2 & ->).
    assert (l ++ h1 ++ v :: h2 ≡ₚ v :: l ++ h1 ++ h2) as Hperm by (rewrite !app_assoc; symmetry; apply Permutation_middle).
    assert (page v) as Hv by (apply Hp; rewrite Hperm; left). rewrite Hperm in Hd. apply NoDup_cons in Hd as [Hd1 Hd2].
    destruct (kfree_run s l v Hk Hv) as (s' & E & Hk' & Ho & _); [set_solver|].
    exists 0, s', (h1 ++ h2). rewrite (bind_ret _ _ _ _ _ E). split_and!; [done|by rewrite Permutation_middle| |].
    + exists (v :: l). split; [done|]. split; [by constructor|]. intros w. rewrite <- Hp, Hperm. done.
    + intros p a Hp1 Hp2 Ha. eapply (same_outside_page [v]); [done|by apply Forall_singleton| | |done].
      * apply Hp. set_solver.
      * set_solver.
Qed.
End kalloc.

(** A machine with the kernel ending at 0x80110000, nothing allocated. *)
Definition demo_ram : kmem := mkKmem ∅ (mkLockst 1 (mkCpu 0 false false) ∅ ∅ 0) 0 0.
Definition DEMO_END : Z := 0x80110000.

Lemma kinit_all_pages_witness : exists s1 s2 l,
    kinit1 1 DEMO_END DEMO_END (P2V (4 * 1024 * 1024)) demo_ram = Ret () s1 /\
    kinit2 1 DEMO_END (P2V (4 * 1024 * 1024)) (P2V PHYSTOP) s1 = Ret () s2 /\
    kinv 1 DEMO_END s2 l /\ l ≡ₚ pages_in DEMO_END (KERNBASE + PHYSTOP) /\
    (forall v, v ∈ l <-> page DEMO_END v) /\ same_outside l (ram demo_ram) (ram s2).
Proof. apply kinit_all_pages; unfold DEMO_END, KERNBASE, EXTMEM, PGSIZE, cpu_ok; simpl; repeat split; lia || done. Defined.

(** A machine with two pages, the lower one held and the upper one free. *)
Definition TWO_END : Z := KERNBASE + PHYSTOP - 2 * PGSIZE.
Definition two_pages : kmem := mkKmem ∅ (mkLockst 1 (mkCpu 0 false false) ∅ ∅ 0) 1 (TWO_END + PGSIZE).

Lemma two_pages_rep : krep 1 TWO_END two_pages [TWO_END].
Proof.
  exists [TWO_END + PGSIZE]. split; [split_and!|split].
  - done.
  - apply NoDup_singleton.
  - apply Forall_singleton. by split.
  - unfold unlocked, cpu_ok. simpl. repeat split; lia || done.
  - apply (bool_decide_unpack _). vm_compute. done.
  - intros v. unfold page. split.
    + rewrite elem_of_app, !list_elem_of_singleton. intros [->| ->]; by split.
    + intros [Hm Hv]. pose proof (Z.div_mod v PGSIZE). rewrite elem_of_app, !list_elem_of_singleton.
      unfold TWO_END, KERNBASE, PHYSTOP, PGSIZE in *. lia.
Qed.

Lemma kalloc_refines_witness : exists r s' hs',
  kop_run 1 TWO_END KAlloc two_pages = Ret r s' /\ kop_spec TWO_END KAlloc [TWO_END] r hs' /\ krep 1 TWO_END s' hs' /\
  forall p a, p ∈ [TWO_END] -> p ∈ hs' -> in_page p a -> ld (ram s') a = ld (ram two_pages) a.
Proof. apply (kalloc_refines 1 TWO_END); [done|apply two_pages_rep|done]. Defined.
