(* ===== verification/Vm.v ===== *)
(** * Page tables

    vm.c: two-level page tables kept in pages of the allocator, and the routines
    that build, copy, change and free the address space of a process.  Kernel
    code reads and writes the tables through the direct map of physical memory
    at KERNBASE, so the memory of [Kalloc] holds them.

    Arguments stand for what is not C code of vm.c: the linker symbols [end] and
    [data], the address of the allocator's lock, the word at virtual address 0 of
    the running process (which [uva2ka] reads when there is no page table), and
    the file system's [readi], which [loaduvm] calls. *)

From S2P Require Import Prelude CString Spinlock Kalloc.
Open Scope Z_scope.

(** mmu.h *)
Definition PTE_P : Z := 1.
Definition PTE_W : Z := 2.
Definition PTE_U : Z := 4.
Definition PDX (va : Z) : Z := Z.land (Z.shiftr va 22) 0x3FF.
Definition PTX (va : Z) : Z := Z.land (Z.shiftr va 12) 0x3FF.
Definition PGADDR (d t o : Z) : Z := u32 (Z.lor (Z.lor (Z.shiftl d 22) (Z.shiftl t 12)) o).
Definition PTE_ADDR (pte : Z) : Z := Z.land pte (Z.lnot 0xFFF).
Definition PTE_FLAGS (pte : Z) : Z := Z.land pte 0xFFF.
Definition NPDENTRIES : nat := Z.to_nat 1024.

Definition present (pte : Z) : bool := nz (Z.land pte PTE_P).

Section vm.
Context (KMEM END DATA NULLW : Z) (readi : Z -> Z -> Z -> Z -> M kmem Z).
Abbreviation kalloc := (kalloc KMEM).
Abbreviation kfree := (kfree KMEM END).

(** The address of a page table entry, 0 when there is none. *)
Definition walkpgdir (pgdir va : Z) (alloc : bool) : M kmem Z :=
  let pde := pgdir + 4 * PDX va in
  let* w := ldk pde in
  if present w then ret (P2V (PTE_ADDR w) + 4 * PTX va)
  else if negb alloc then ret 0
  else
    let* pgtab := kalloc in
    if pgtab =? 0 then ret 0
    else
      memsetk pgtab 0 PGSIZE ;;;
      stk pde (Z.lor (Z.lor (Z.lor (V2P pgtab) PTE_P) PTE_W) PTE_U) ;;;
      ret (pgtab + 4 * PTX va).

(** The loop of [mappages] from page [a] to page [last], which are [n] pages
    apart. *)
Fixpoint mappages_loop (n : nat) (pgdir a last pa perm : Z) : M kmem Z :=
  let* pte := walkpgdir pgdir a true in
  if pte =? 0 then ret (-1)
  else
    let* w := ldk pte in
    if present w then panic "remap"
    else
      stk pte (Z.lor (Z.lor pa perm) PTE_P) ;;;
      if a =? last then ret 0
      else
        match n with
        | O => ret 0
        | Datatypes.S n => mappages_loop n pgdir (u32 (a + PGSIZE)) last (u32 (pa + PGSIZE)) perm
        end.

Definition mappages (pgdir va size pa perm : Z) : M kmem Z :=
  let a := PGROUNDDOWN va in
  let last := PGROUNDDOWN (u32 (va + size - 1)) in
  mappages_loop (Z.to_nat (u32 (last - a) / PGSIZE)) pgdir a last pa perm.

(** The loop of [deallocuvm].  Each turn moves [a] on by at least a page, so
    [oldsz / PGSIZE + 1] turns are enough unless [a] wraps around; then the loop
    does not end. *)
Fixpoint dealloc_loop (n : nat) (pgdir a oldsz : Z) : M kmem () :=
  if oldsz <=? a then ret ()
  else
    match n with
    | O => sleeps
    | Datatypes.S n =>
        let* pte := walkpgdir pgdir a false in
        if pte =? 0 then
          let a := u32 (PGADDR (PDX a + 1) 0 0 - PGSIZE) in
          dealloc_loop n pgdir (u32 (a + PGSIZE)) oldsz
        else
          let* w := ldk pte in
          when (present w) (
            let pa := PTE_ADDR w in
            if pa =? 0 then panic "kfree"
            else
              kfree (P2V pa) ;;;
              stk pte 0) ;;;
          dealloc_loop n pgdir (u32 (a + PGSIZE)) oldsz
    end.

Definition deallocuvm (pgdir oldsz newsz : Z) : M kmem Z :=
  if oldsz <=? newsz then ret oldsz
  else
    dealloc_loop (Z.to_nat (oldsz / PGSIZE + 1)) pgdir (PGROUNDUP newsz) oldsz ;;;
    ret newsz.

Definition freevm (pgdir : Z) : M kmem () :=
  if pgdir =? 0 then panic "freevm: no pgdir"
  else
    deallocuvm pgdir KERNBASE 0 ;;;
    for_each (seq 0 NPDENTRIES) (fun i =>
      let* w := ldk (pgdir + 4 * Z.of_nat i) in
      when (present w) (kfree (P2V (PTE_ADDR w)))) ;;;
    kfree pgdir.

(** The kernel's mappings: virtual address, physical start and end, permissions. *)
Definition kmap : list (Z * Z * Z * Z) :=
  [(KERNBASE, 0, EXTMEM, PTE_W);
   (KERNLINK, V2P KERNLINK, V2P DATA, 0);
   (DATA, V2P DATA, PHYSTOP, PTE_W);
   (DEVSPACE, DEVSPACE, 0, PTE_W)].

Fixpoint kmap_loop (l : list (Z * Z * Z * Z)) (pgdir : Z) : M kmem Z :=
  match l with
  | [] => ret pgdir
  | (virt, phys_start, phys_end, perm) :: l =>
      let* r := mappages pgdir virt (u32 (phys_end - phys_start)) phys_start perm in
      if r <? 0 then freevm pgdir ;;; ret 0
      else kmap_loop l pgdir
  end.

Definition setupkvm : M kmem Z :=
  let* pgdir := kalloc in
  if pgdir =? 0 then ret 0
  else
    memsetk pgdir 0 PGSIZE ;;;
    if DEVSPACE <? P2V PHYSTOP then panic "PHYSTOP too high"
    else kmap_loop kmap pgdir.

(** [init] is the code to load, [sz] its length. *)
Definition inituvm (pgdir : Z) (init : list Z) : M kmem () :=
  if PGSIZE <=? Z.of_nat (length init) then panic "inituvm: more than a page"
  else
    let* mem := kalloc in
    memsetk mem 0 PGSIZE ;;;
    mappages pgdir 0 PGSIZE (V2P mem) (Z.lor PTE_W PTE_U) ;;;
    modify (fun s => set_ram (write (ram s) mem init) s).

Fixpoint loaduvm_loop (n : nat) (pgdir addr ip offset sz i : Z) : M kmem Z :=
  if sz <=? i then ret 0
  else
    match n with
    | O => sleeps
    | Datatypes.S k =>
        let* pte := walkpgdir pgdir (u32 (addr + i)) false in
        if pte =? 0 then panic "loaduvm: address should exist"
        else
          let* w := ldk pte in
          let pa := PTE_ADDR w in
          let n := if sz - i <? PGSIZE then sz - i else PGSIZE in
          let* r := readi ip (P2V pa) (u32 (offset + i)) n in
          if negb (r =? n) then ret (-1)
          else loaduvm_loop k pgdir addr ip offset sz (u32 (i + PGSIZE))
    end.

Definition loaduvm (pgdir addr ip offset sz : Z) : M kmem Z :=
  if nz (addr mod PGSIZE) then panic "loaduvm: addr must be page aligned"
  else loaduvm_loop (Z.to_nat (sz / PGSIZE + 1)) pgdir addr ip offset sz 0.

Fixpoint alloc_loop (n : nat) (pgdir a oldsz newsz : Z) : M kmem Z :=
  if newsz <=? a then ret newsz
  else
    match n with
    | O => sleeps
    | Datatypes.S n =>
        let* mem := kalloc in
        if mem =? 0 then deallocuvm pgdir newsz oldsz ;;; ret 0
        else
          memsetk mem 0 PGSIZE ;;;
          let* r := mappages pgdir a PGSIZE (V2P mem) (Z.lor PTE_W PTE_U) in
          if r <? 0 then
            deallocuvm pgdir newsz oldsz ;;;
            kfree mem ;;;
            ret 0
          else alloc_loop n pgdir (u32 (a + PGSIZE)) oldsz newsz
    end.

Definition allocuvm (pgdir oldsz newsz : Z) : M kmem Z :=
  if KERNBASE <=? newsz then ret 0
  else if newsz <? oldsz then ret oldsz
  else alloc_loop (Z.to_nat (newsz / PGSIZE + 1)) pgdir (PGROUNDUP oldsz) oldsz newsz.

Definition clearpteu (pgdir uva : Z) : M kmem () :=
  let* pte := walkpgdir pgdir uva false in
  if pte =? 0 then panic "clearpteu"
  else
    let* w := ldk pte in
    stk pte (Z.land w (Z.lnot PTE_U)).

(** The loop of [copyuvm]; the two [goto bad] are the calls of [freevm]. *)
Fixpoint copy_loop (n : nat) (pgdir d sz i : Z) : M kmem Z :=
  if sz <=? i then ret d
  else
    match n with
    | O => sleeps
    | Datatypes.S n =>
        let* pte := walkpgdir pgdir i false in
        if pte =? 0 then panic "copyuvm: pte should exist"
        else
          let* w := ldk pte in
          if negb (present w) then panic "copyuvm: page not present"
          else
            let pa := PTE_ADDR w in
            let flags := PTE_FLAGS w in
            let* mem := kalloc in
            if mem =? 0 then freevm d ;;; ret 0
            else
              memmovek mem (P2V pa) (Z.to_nat PGSIZE) ;;;
              let* r := mappages d i PGSIZE (V2P mem) flags in
              if r <? 0 then
                kfree mem ;;;
                freevm d ;;;
                ret 0
              else copy_loop n pgdir d sz (u32 (i + PGSIZE))
    end.

Definition copyuvm (pgdir sz : Z) : M kmem Z :=
  let* d := setupkvm in
  if d =? 0 then ret 0
  else copy_loop (Z.to_nat (sz / PGSIZE + 2)) pgdir d sz 0.

Definition uva2ka (pgdir uva : Z) : M kmem Z :=
  let* pte := walkpgdir pgdir uva false in
  let* w := (if pte =? 0 then ret NULLW else ldk pte) in
  if negb (present w) then ret 0
  else if negb (nz (Z.land w PTE_U)) then ret 0
  else ret (P2V (PTE_ADDR w)).

(** [p] is the rest of the bytes to copy; at least one goes with each turn. *)
Fixpoint copyout_loop (fuel : nat) (pgdir va : Z) (p : list Z) : M kmem Z :=
  if (length p =? 0)%nat then ret 0
  else
    match fuel with
    | O => sleeps
    | Datatypes.S fuel =>
        let va0 := PGROUNDDOWN va in
        let* pa0 := uva2ka pgdir va0 in
        if pa0 =? 0 then ret (-1)
        else
          let n := PGSIZE - (va - va0) in
          let n := if Z.of_nat (length p) <? n then Z.of_nat (length p) else n in
          let k := Z.to_nat n in
          modify (fun s => set_ram (write (ram s) (pa0 + (va - va0)) (take k p)) s) ;;;
          copyout_loop fuel pgdir (u32 (va0 + PGSIZE)) (drop k p)
    end.

Definition copyout (pgdir va : Z) (p : list Z) : M kmem Z := copyout_loop (length p) pgdir va p.
End vm.
