(* ===== verification/VmSpace.v ===== *)
(** * Address spaces

    What the routines of vm.c do to an address space, seen as a map from page
    numbers to page table entries: the page tables and the free list are disjoint
    sets of pages, and every page is accounted for. *)

From S2P Require Import Prelude CString Spinlock Kalloc Vm.
Open Scope Z_scope.

(** ** Entries *)

(** The page an entry points to. *)
Definition entry_page (w : Z) : Z := P2V (PTE_ADDR w).

Lemma PTE_ADDR_div w : PTE_ADDR w = w / PGSIZE * PGSIZE.
Proof. apply PGROUNDDOWN_div. Qed.

Lemma PTE_FLAGS_mod w : PTE_FLAGS w = w mod PGSIZE.
Proof. unfold PTE_FLAGS. change 0xFFF with (Z.ones 12). by rewrite Z.land_ones by lia. Qed.

Lemma present_odd w : present w = Z.odd w.
Proof.
  unfold present, nz, PTE_P. change 1 with (Z.ones 1). rewrite Z.land_ones by lia.
  rewrite Zmod_odd. by destruct (Z.odd w).
Qed.

(** An aligned address and flags share no bits. *)
Lemma lor_page_flags a f : a mod PGSIZE = 0 -> 0 <= f < PGSIZE -> Z.lor a f = a + f.
Proof.
  intros Ha Hf. assert (Z.land a f = 0) as Hl.
  { apply Z.bits_inj'. intros n Hn. rewrite Z.land_spec, Z.bits_0. destruct (decide (n < 12)).
    - replace (Z.testbit a n) with false; [done|]. symmetry.
      rewrite (Z.div_mod a PGSIZE) by done. rewrite Ha, Z.add_0_r, Z.mul_comm.
      change PGSIZE with (2 ^ 12). by apply Z.mul_pow2_bits_low.
    - rewrite (Z.bits_above_log2 f), andb_false_r; [done|lia|]. destruct (decide (f = 0)) as [->|]; [simpl; lia|].
      enough (Z.log2 f < 12) by lia. apply Z.log2_lt_pow2; [lia|]. change (2 ^ 12) with PGSIZE. lia. }
  rewrite <- Z.lxor_lor by done. symmetry. by apply Z.add_nocarry_lxor.
Qed.

Section entries.
Context (END : Z) (END_kernel : KERNBASE <= END).

Lemma V2P_aligned p : page END p -> V2P p mod PGSIZE = 0 /\ 0 <= V2P p < PHYSTOP.
Proof.
  intros Hp. destruct (page_V2P END END_kernel p Hp) as [E ?]. destruct Hp as [Hm Hp]. rewrite E. split; [|lia].
  rewrite Zminus_mod, Hm. done.
Qed.

(** An entry made from a page and flags. *)
Lemma entry_make p f :
  page END p -> 0 <= f < PGSIZE ->
  let w := Z.lor (V2P p) f in
  u32 w = w /\ entry_page w = p /\ PTE_FLAGS w = f /\ present w = Z.odd f.
Proof.
  intros Hp Hf w. destruct (V2P_aligned p Hp) as [Ha Hr]. unfold w. rewrite lor_page_flags by done.
  pose proof (Z.div_mod (V2P p) PGSIZE) as Hd. split_and!.
  - apply u32_small. unfold PHYSTOP, PGSIZE in *. lia.
  - unfold entry_page. rewrite PTE_ADDR_div. replace ((V2P p + f) / PGSIZE * PGSIZE) with (V2P p); [by apply (page_P2V END)|].
    replace ((V2P p + f) / PGSIZE) with (V2P p / PGSIZE); [|apply (Z.div_unique _ _ _ f)]; unfold PGSIZE in *; lia.
  - rewrite PTE_FLAGS_mod, Z.add_mod, Ha, Z.add_0_l, Z.mod_mod, Z.mod_small by done. done.
  - rewrite present_odd, Z.odd_add. rewrite Hd, Ha by done. rewrite Z.add_0_r, Z.odd_mul. done.
Qed.
End entries.

(** ** Tables in memory

    A virtual address is 0 <= va < 2^32, its page number va / 4096.  The entry of
    page [k] is number k mod 1024 of table number k / 1024.  The lists of tables
    and of user pages are sealed: proofs use them through [tabs_eq] and
    [frames_eq] only. *)

Lemma PDX_page va : 0 <= va < 2 ^ 32 -> PDX va = va / PGSIZE / 1024.
Proof.
  intros Hv. unfold PDX. change 0x3FF with (Z.ones 10). rewrite Z.land_ones, Z.shiftr_div_pow2 by lia.
  rewrite Z.div_div by done. change (PGSIZE * 1024) with (2 ^ 22). apply Z.mod_small. split.
  - apply Z.div_pos; lia.
  - apply Z.div_lt_upper_bound; lia.
Qed.

Lemma PTX_page va : PTX va = (va / PGSIZE) mod 1024.
Proof. unfold PTX. change 0x3FF with (Z.ones 10). by rewrite Z.land_ones, Z.shiftr_div_pow2 by lia. Qed.

Definition NPAGES : Z := 2 ^ 20.
Definition UPAGES : Z := KERNBASE / PGSIZE.
Lemma UPAGES_val : UPAGES = 2 ^ 19.
Proof. done. Qed.

(** The word [i] of a table, and the page it points to. *)
Definition word (m : mem) (pg i : Z) : Z := ldw m (pg + 4 * i).
Definition tab_at (m : mem) (pg i : Z) : option Z :=
  if present (word m pg i) then Some (entry_page (word m pg i)) else None.
Definition tabs_def (m : mem) (pg : Z) : list Z := omap (tab_at m pg) (seqZ 0 1024).
Definition tabs_aux : seal tabs_def.
Proof. by eexists. Qed.
Definition tabs : mem -> Z -> list Z := unseal tabs_aux.

(** The entry of page [k], if the page is mapped. *)
Definition entry (m : mem) (pg k : Z) : option Z :=
  t ← tab_at m pg (k / 1024);
  let w := word m t (k mod 1024) in if present w then Some w else None.

(** The pages of user memory. *)
Definition frames_def (m : mem) (pg : Z) : list Z :=
  omap (fun k => entry_page <$> entry m pg k) (seqZ 0 UPAGES).
Definition frames_aux : seal frames_def.
Proof. by eexists. Qed.
Definition frames : mem -> Z -> list Z := unseal frames_aux.

#[global] Arguments entry : simpl never.
#[global] Arguments tab_at : simpl never.

Lemma tabs_eq m pg : tabs m pg = omap (tab_at m pg) (seqZ 0 1024).
Proof. unfold tabs. by rewrite (seal_eq tabs_aux). Qed.
Lemma frames_eq m pg : frames m pg = omap (fun k => entry_page <$> entry m pg k) (seqZ 0 UPAGES).
Proof. unfold frames. by rewrite (seal_eq frames_aux). Qed.

Lemma div_1024 k : 0 <= k < NPAGES -> 0 <= k / 1024 < 1024 /\ 0 <= k mod 1024 < 1024.
Proof.
  unfold NPAGES. intros. split; [|apply Z.mod_pos_bound; lia].
  split; [apply Z.div_pos; lia|apply Z.div_lt_upper_bound; lia].
Qed.

Lemma entry_split k k' : k / 1024 = k' / 1024 -> k mod 1024 = k' mod 1024 -> k = k'.
Proof. intros H1 H2. rewrite (Z.div_mod k 1024), (Z.div_mod k' 1024) by lia. lia. Qed.

Lemma elem_of_tabs m pg t : t ∈ tabs m pg <-> exists i, 0 <= i < 1024 /\ tab_at m pg i = Some t.
Proof. rewrite tabs_eq, list_elem_of_omap. setoid_rewrite elem_of_seqZ. naive_solver lia. Qed.

Lemma omap_NoDup_inj {A B} (f : A -> option B) l x y z :
  NoDup (omap f l) -> x ∈ l -> y ∈ l -> f x = Some z -> f y = Some z -> x = y.
Proof.
  induction l as [|a l IH]; intros Hd Hx Hy Hfx Hfy; [by apply elem_of_nil in Hx|].
  simpl in Hd. apply elem_of_cons in Hx as [->|Hx]; apply elem_of_cons in Hy as [->|Hy]; [done|..].
  - rewrite Hfx in Hd. apply NoDup_cons in Hd as [Hn _]. destruct Hn. apply list_elem_of_omap. eauto.
  - rewrite Hfy in Hd. apply NoDup_cons in Hd as [Hn _]. destruct Hn. apply list_elem_of_omap. eauto.
  - apply IH; try done. destruct (f a); [by apply NoDup_cons in Hd as []|done].
Qed.

Lemma in_seqZ n i : 0 <= i < n -> i ∈ seqZ 0 n.
Proof. intros. apply elem_of_seqZ. lia. Qed.

Lemma tabs_inj m pg i j t :
  NoDup (tabs m pg) -> 0 <= i < 1024 -> 0 <= j < 1024 -> tab_at m pg i = Some t -> tab_at m pg j = Some t -> i = j.
Proof.
  rewrite tabs_eq. intros Hd Hi%in_seqZ Hj%in_seqZ. exact (omap_NoDup_inj (tab_at m pg) (seqZ 0 1024) i j t Hd Hi Hj).
Qed.

Lemma tabs_ext m m' pg : (forall i, 0 <= i < 1024 -> word m' pg i = word m pg i) -> tabs m' pg = tabs m pg.
Proof.
  intros H. rewrite !tabs_eq. apply omap_ext_in. intros i Hi%elem_of_seqZ. unfold tab_at. by rewrite H by lia.
Qed.

Section tables.
Context (END : Z) (END_kernel : KERNBASE <= END).
Abbreviation page := (page END).

(** The free pages, the directory and the tables are different pages. *)
Definition twf (m : mem) (l : list Z) (pg : Z) : Prop :=
  Forall page (l ++ pg :: tabs m pg) /\ NoDup (l ++ pg :: tabs m pg).

Lemma twf_pg m l pg : twf m l pg -> page pg.
Proof. intros [Hp _]. apply Forall_app in Hp as [_ Hp]. by apply Forall_cons in Hp as []. Qed.

Lemma twf_tab m l pg i t :
  twf m l pg -> 0 <= i < 1024 -> tab_at m pg i = Some t -> page t /\ t <> pg /\ t ∉ l.
Proof.
  intros [Hp Hd] Hi Ht. assert (t ∈ tabs m pg) by (apply elem_of_tabs; eauto).
  apply NoDup_app in Hd as (_ & Hl & Hd). apply NoDup_cons in Hd as [Hpg _]. rewrite Forall_forall in Hp.
  split; [apply Hp; set_solver|]. split; [by intros ->|]. intros Htl. apply (Hl t Htl). by right.
Qed.

Lemma twf_NoDup_tabs m l pg : twf m l pg -> NoDup (tabs m pg).
Proof. intros [_ Hd]. apply NoDup_app in Hd as (_ & _ & Hd). by apply NoDup_cons in Hd as []. Qed.

Lemma word_outside ps m m' p i :
  same_outside ps m m' -> Forall page ps -> page p -> p ∉ ps -> 0 <= i < 1024 -> word m' p i = word m p i.
Proof. intros. eapply (same_outside_word END); eauto; unfold PGSIZE; lia. Qed.

(** Entries only depend on the directory and its tables. *)
Lemma entry_outside ps m m' l pg k :
  same_outside ps m m' -> Forall page ps -> twf m l pg -> (forall p, p ∈ ps -> p ∉ pg :: tabs m pg) ->
  0 <= k < NPAGES -> entry m' pg k = entry m pg k.
Proof.
  intros Hs Hps Hw Hd Hk. destruct (div_1024 k Hk) as [H1 H2]. unfold entry.
  assert (tab_at m' pg (k / 1024) = tab_at m pg (k / 1024)) as ->.
  { unfold tab_at. rewrite (word_outside ps m m' pg); [done|done|done|by eapply twf_pg| |done]. intros H. apply (Hd _ H). left. }
  destruct (tab_at m pg (k / 1024)) as [t|] eqn:Ht; [simpl|done].
  destruct (twf_tab m l pg _ t Hw H1 Ht) as (Hp & _). rewrite (word_outside ps m m' t); [done|done|done|done| |done].
  intros H. apply (Hd _ H). right. apply elem_of_tabs. eauto.
Qed.

Lemma tabs_outside ps m m' pg :
  same_outside ps m m' -> Forall page ps -> page pg -> pg ∉ ps -> tabs m' pg = tabs m pg.
Proof. intros. apply tabs_ext. intros i Hi. by eapply word_outside. Qed.

(** Storing an entry. *)
Lemma store_entry m l pg k t w :
  twf m l pg -> 0 <= k < NPAGES -> tab_at m pg (k / 1024) = Some t ->
  let m' := stw m (t + 4 * (k mod 1024)) w in
  same_outside [t] m m' /\ tabs m' pg = tabs m pg /\
  (forall i, 0 <= i < 1024 -> tab_at m' pg i = tab_at m pg i) /\
  forall k', 0 <= k' < NPAGES -> entry m' pg k' =
    if decide (k' = k) then (if present (u32 w) then Some (u32 w) else None) else entry m pg k'.
Proof.
  intros Hw Hk Ht m'. destruct (div_1024 k Hk) as [H1 H2]. destruct (twf_tab m l pg _ t Hw H1 Ht) as (Hp & Hne & _).
  assert (same_outside [t] m m') as Hs by (apply same_outside_stw; unfold PGSIZE; lia).
  assert (forall i, 0 <= i < 1024 -> word m' pg i = word m pg i) as Hpg.
  { intros i Hi. apply (word_outside [t]); [done|by apply Forall_singleton|by eapply twf_pg|set_solver|done]. }
  split; [done|]. split; [by apply tabs_ext|]. split; [intros i Hi; unfold tab_at; by rewrite Hpg|].
  intros k' Hk'. destruct (div_1024 k' Hk') as [H1' H2']. unfold entry.
  assert (tab_at m' pg (k' / 1024) = tab_at m pg (k' / 1024)) as -> by (unfold tab_at; by rewrite Hpg).
  destruct (decide (k' = k)) as [->|Hne']; [rewrite Ht; simpl; unfold word, m'; by rewrite ldw_stw|].
  destruct (tab_at m pg (k' / 1024)) as [t'|] eqn:Ht'; [simpl|done]. destruct (decide (t' = t)) as [->|Htt].
  - assert (k' / 1024 = k / 1024) by (eapply tabs_inj; eauto using twf_NoDup_tabs).
    assert (k' mod 1024 <> k mod 1024) by (intros ?; by apply Hne', entry_split).
    unfold word, m'. rewrite ldw_stw_out by lia. done.
  - destruct (twf_tab m l pg _ t' Hw H1' Ht') as (Hp' & _).
    rewrite (word_outside [t] m m' t'); [done|done|by apply Forall_singleton|done|set_solver|done].
Qed.

Lemma ldw_write_zero m p n a :
  p <= a -> a + 4 <= p + Z.of_nat n -> ldw (write m p (replicate n 0)) a = 0.
Proof.
  intros H1 H2. unfold ldw. replace (CString.read _ a 4) with (replicate 4 0); [done|].
  symmetry. apply list_eq_same_length with 4%nat; [done|apply length_read|]. intros i x y Hi Hx Hy.
  apply list_lookup_total_correct in Hx. apply lookup_replicate in Hy as [-> _]. subst x.
  rewrite read_lookup_total by lia. rewrite ld_write.
  replace (_ && _) with true by (rewrite length_replicate; lia). apply lookup_total_replicate_2. lia.
Qed.

(** The word a directory entry of table [t] is given. *)
Lemma pde_make t :
  page t -> let w := Z.lor (Z.lor (Z.lor (V2P t) PTE_P) PTE_W) PTE_U in
  u32 w = w /\ present w = true /\ entry_page w = t.
Proof.
  intros Ht w. unfold w. rewrite <- !Z.lor_assoc. change (Z.lor PTE_P (Z.lor PTE_W PTE_U)) with 7.
  destruct (entry_make END END_kernel t 7) as (H1 & H2 & _ & H4); [done|unfold PGSIZE; lia|].
  split; [done|]. split; [by rewrite H4|done].
Qed.

(** Adding an empty table. *)
Lemma new_table m l pg i t :
  twf m (t :: l) pg -> 0 <= i < 1024 -> tab_at m pg i = None ->
  let m' := stw (memset m t 0 PGSIZE) (pg + 4 * i) (Z.lor (Z.lor (Z.lor (V2P t) PTE_P) PTE_W) PTE_U) in
  same_outside [t; pg] m m' /\ tab_at m' pg i = Some t /\ tabs m' pg ≡ₚ t :: tabs m pg /\
  (forall j, 0 <= j < 1024 -> j <> i -> tab_at m' pg j = tab_at m pg j) /\
  forall k, 0 <= k < NPAGES -> entry m' pg k = entry m pg k.
Proof.
  intros Hw Hi Hn m'. pose proof (twf_pg _ _ _ Hw) as Hpg. pose proof Hw as [Hp Hd]. simpl in Hp, Hd.
  apply Forall_cons in Hp as [Ht Hp]. apply NoDup_cons in Hd as [Htn Hd].
  assert (t <> pg) as Htpg by set_solver. set (m1 := memset m t 0 PGSIZE) in *.
  assert (same_outside [t] m m1) as H1 by apply same_outside_memset.
  assert (same_outside [pg] m1 m') as H2 by (apply same_outside_stw; unfold PGSIZE; lia).
  assert (forall j, 0 <= j < 1024 -> word m' pg j = if decide (j = i) then Z.lor (Z.lor (Z.lor (V2P t) PTE_P) PTE_W) PTE_U else word m pg j) as Hpw.
  { intros j Hj. unfold word, m'. destruct (decide (j = i)) as [->|].
    - rewrite ldw_stw. by apply pde_make.
    - rewrite ldw_stw_out by lia. apply (word_outside [t]); [done|by apply Forall_singleton|done|set_solver|done]. }
  destruct (pde_make t Ht) as (_ & Hw2 & Hw3).
  assert (tab_at m' pg i = Some t) as Hti by (unfold tab_at; rewrite Hpw, decide_True, Hw2, Hw3 by done; done).
  assert (forall j, 0 <= j < 1024 -> j <> i -> tab_at m' pg j = tab_at m pg j) as Htj
    by (intros j Hj Hne; unfold tab_at; by rewrite Hpw, decide_False by done).
  split; [by apply (same_outside_trans [t] [pg] _ m1)|]. split; [done|]. split; [|split; [done|]].
  { rewrite !tabs_eq. apply (omap_fill _ _ _ i); [apply NoDup_seqZ|by apply in_seqZ|done|done|].
    intros z Hz%elem_of_seqZ Hne. apply Htj; lia. }
  intros k Hk. destruct (div_1024 k Hk) as [Hk1 Hk2]. unfold entry.
  destruct (decide (k / 1024 = i)) as [->|Hne].
  - rewrite Hti, Hn. simpl. replace (word m' t (k mod 1024)) with 0; [done|]. symmetry.
    transitivity (word m1 t (k mod 1024)).
    { apply (word_outside [pg]); [done|by apply Forall_singleton|done|set_solver|done]. }
    unfold word, m1. rewrite memset_spec by (unfold PGSIZE; lia).
    apply ldw_write_zero; [lia|]. rewrite Z2Nat.id by (unfold PGSIZE; lia). unfold PGSIZE. lia.
  - rewrite Htj by done. destruct (tab_at m pg (k / 1024)) as [t'|] eqn:Ht'; [simpl|done].
    destruct (twf_tab m _ pg _ t' Hw Hk1 Ht') as (Hp' & Hne' & Hnl).
    rewrite (word_outside [t; pg] m m' t'); [done|by apply (same_outside_trans [t] [pg] _ m1)|by repeat apply Forall_cons_2|done|set_solver|done].
Qed.
End tables.

(** ** Walking and mapping *)

Section mapping.
Context (KMEM END : Z) (END_kernel : KERNBASE <= END).
Abbreviation page := (page END).
Abbreviation kinv := (kinv KMEM END).

Definition vspace (s : kmem) (l : list Z) (pg : Z) : Prop := kinv s l /\ twf END (ram s) l pg.

(** What changing mappings does to the pages: no page is lost or duplicated,
    and only free pages, the directory and its tables are written. *)
Record vmove (s : kmem) (l : list Z) (pg : Z) (s' : kmem) (l' : list Z) : Prop := {
  mv_space : vspace s' l' pg;
  mv_acct : l' ++ tabs (ram s') pg ≡ₚ l ++ tabs (ram s) pg;
  mv_sub : l' ⊆ l;
  mv_out : same_outside (l ++ pg :: tabs (ram s) pg) (ram s) (ram s') }.

Lemma vmove_refl s l pg : vspace s l pg -> vmove s l pg s l.
Proof. intros H. split; [done|done|done|apply same_outside_refl]. Qed.

Lemma vmove_ram s l pg s' : ram s' = ram s -> kinv s' l -> twf END (ram s) l pg -> vmove s l pg s' l.
Proof. intros E Hk Hw. split; [split; [done|by rewrite E]|by rewrite E|done|rewrite E; apply same_outside_refl]. Qed.

Lemma vmove_trans s1 l1 pg s2 l2 s3 l3 : vmove s1 l1 pg s2 l2 -> vmove s2 l2 pg s3 l3 -> vmove s1 l1 pg s3 l3.
Proof.
  intros [H1 H2 H2' H3] [H4 H5 H5' H6]. split; [done|by rewrite H5|set_solver|].
  eapply same_outside_sub; [|by eapply same_outside_trans].
  intros x. rewrite !elem_of_app, !elem_of_cons. assert (x ∈ l2 ++ tabs (ram s2) pg <-> x ∈ l1 ++ tabs (ram s1) pg) as Hx by by rewrite H2.
  rewrite !elem_of_app in Hx. tauto.
Qed.

(** A store into a table. *)
Lemma store_move s l pg k t w :
  vspace s l pg -> 0 <= k < NPAGES -> tab_at (ram s) pg (k / 1024) = Some t ->
  let s' := set_ram (stw (ram s) (t + 4 * (k mod 1024)) w) s in
  vmove s l pg s' l /\ (forall i, 0 <= i < 1024 -> tab_at (ram s') pg i = tab_at (ram s) pg i) /\
  forall k', 0 <= k' < NPAGES -> entry (ram s') pg k' =
    if decide (k' = k) then (if present (u32 w) then Some (u32 w) else None) else entry (ram s) pg k'.
Proof.
  intros [Hk Hw] Hr Ht s'. destruct (store_entry END END_kernel _ _ _ _ _ w Hw Hr Ht) as (H1 & H2 & H3 & H4).
  destruct (div_1024 k Hr) as [Hk1 _]. destruct (twf_tab END END_kernel _ _ _ _ _ Hw Hk1 Ht) as (Hp & Hne & Hl).
  split; [split|done].
  - split.
    + apply (kinv_set_ram _ _ _ _ [t]); [done|done|by apply Forall_singleton|set_solver].
    + unfold twf. simpl. by rewrite H2.
  - simpl. by rewrite H2.
  - done.
  - simpl. eapply same_outside_sub; [|done]. intros x ->%list_elem_of_singleton.
    apply elem_of_app. right. right. apply elem_of_tabs. eauto.
Qed.

Lemma new_table_move s s1 l pg t m :
  twf END (ram s) (t :: l) pg -> kinv s1 l -> ram s1 = ram s -> same_outside [t; pg] (ram s) m ->
  tabs m pg ≡ₚ t :: tabs (ram s) pg -> vmove s (t :: l) pg (set_ram m s1) l.
Proof.
  intros Hw Hk Hr Hs Ht. pose proof (twf_pg _ _ _ _ Hw) as Hpg.
  assert (l ++ pg :: tabs m pg ≡ₚ (t :: l) ++ pg :: tabs (ram s) pg) as Hperm.
  { rewrite Ht. generalize (tabs (ram s) pg). intros T. solve_Permutation. }
  assert (page t) as Hpt by (destruct Hw as [Hf _]; simpl in Hf; by apply Forall_cons in Hf as []).
  split; [split|..].
  - apply (kinv_set_ram _ _ _ _ [t; pg]); [done|by rewrite Hr|by repeat apply Forall_cons_2|].
    destruct Hw as [_ Hd]. simpl in Hd. apply NoDup_cons in Hd as [Hd1 Hd]. apply NoDup_app in Hd as (_ & Hd & _). set_solver.
  - unfold twf. simpl. by rewrite Hperm.
  - simpl. rewrite Ht. symmetry. apply Permutation_middle.
  - set_solver.
  - eapply same_outside_sub; [|exact Hs]. set_solver.
Qed.

(** Looking up a page without allocating. *)
Lemma walk_lookup s pg va :
  0 <= va < 2 ^ 32 ->
  walkpgdir KMEM pg va false s =
    Ret (if tab_at (ram s) pg (va / PGSIZE / 1024) is Some t then t + 4 * ((va / PGSIZE) mod 1024) else 0) s.
Proof.
  intros Hv. unfold walkpgdir, ldk. rewrite bind_gets, PDX_page, PTX_page by done.
  fold (word (ram s) pg (va / PGSIZE / 1024)). unfold tab_at. by destruct (present _).
Qed.

Lemma va_page va : 0 <= va < 2 ^ 32 -> 0 <= va / PGSIZE < NPAGES.
Proof.
  intros. split; [apply Z.div_pos; unfold PGSIZE; lia|]. apply Z.div_lt_upper_bound; unfold PGSIZE, NPAGES; lia.
Qed.

(** With allocation the table exists afterwards, unless memory is exhausted. *)
Lemma walk_alloc s l pg va :
  vspace s l pg -> 0 <= va < 2 ^ 32 ->
  exists r s' l', walkpgdir KMEM pg va true s = Ret r s' /\ vmove s l pg s' l' /\
    (forall k, 0 <= k < NPAGES -> entry (ram s') pg k = entry (ram s) pg k) /\
    if r =? 0 then l' = [] else
      exists t, tab_at (ram s') pg (va / PGSIZE / 1024) = Some t /\ r = t + 4 * ((va / PGSIZE) mod 1024).
Proof.
  intros Hs Hv. pose proof (div_1024 _ (va_page va Hv)) as [Hi Hj].
  unfold walkpgdir, ldk. rewrite bind_gets, PDX_page, PTX_page by done. fold (word (ram s) pg (va / PGSIZE / 1024)).
  set (i := va / PGSIZE / 1024) in *. set (j := (va / PGSIZE) mod 1024) in *. destruct (present _) eqn:Hp.
  - assert (tab_at (ram s) pg i = Some (entry_page (word (ram s) pg i))) as Ht by (unfold tab_at; by rewrite Hp).
    destruct (twf_tab END END_kernel _ _ _ _ _ (proj2 Hs) Hi Ht) as [Hpt _]. apply (page_bounds END END_kernel) in Hpt.
    eexists _, s, l. split; [done|]. split; [by apply vmove_refl|]. split; [done|].
    fold (entry_page (word (ram s) pg i)). replace (_ =? 0) with false by lia. eauto.
  - assert (tab_at (ram s) pg i = None) as Ht by (unfold tab_at; by rewrite Hp).
    destruct Hs as [Hk Hw]. simpl. destruct (kalloc_run KMEM END END_kernel s l Hk) as (s1 & E1 & Hk1 & Hr1 & _).
    rewrite (bind_ret _ _ _ _ _ E1). destruct l as [|t l]; simpl in *.
    + exists 0, s1, []. split; [done|]. split; [by apply vmove_ram|]. by rewrite Hr1.
    + assert (page t) as Hpt by (destruct Hw as [Hf _]; simpl in Hf; by apply Forall_cons in Hf as []).
      pose proof (page_bounds END END_kernel t Hpt). replace (t =? 0) with false by lia.
      unfold memsetk, stk. rewrite !bind_modify. eexists _, _, l. split; [done|].
      replace (_ =? 0) with false by lia. simpl. rewrite Hr1.
      destruct (new_table END END_kernel _ _ _ _ _ Hw Hi Ht) as (N1 & N2 & N3 & N4 & N5).
      split; [|split; [exact N5|eauto]].
      exact (new_table_move s s1 l pg t _ Hw Hk1 Hr1 N1 N3).
Qed.

(** The word [mappages] stores for the page [k] of a range from [k0], and the
    mapping of a range. *)
Definition mapping (pa perm k0 k : Z) : Z := u32 (Z.lor (Z.lor (u32 (pa + (k - k0) * PGSIZE)) perm) PTE_P).
Definition mapped (f : Z -> option Z) (k0 n pa perm : Z) (k : Z) : option Z :=
  if decide (k0 <= k < k0 + n) then Some (mapping pa perm k0 k) else f k.

Lemma present_mapping pa perm k0 k : present (mapping pa perm k0 k) = true.
Proof.
  unfold mapping, u32 at 1. rewrite present_odd, <- Z.bit0_odd, Z.mod_pow2_bits_low, Z.lor_spec by lia.
  unfold PTE_P. by rewrite Z.bit0_odd, orb_true_r.
Qed.

(** One page: the walk finds or makes its table, and the store maps it. *)
Lemma map_one s l pg k w :
  vspace s l pg -> 0 <= k < NPAGES -> entry (ram s) pg k = None ->
  exists r s1 l1, walkpgdir KMEM pg (k * PGSIZE) true s = Ret r s1 /\
    if r =? 0 then l1 = [] /\ vmove s l pg s1 l1 /\ (forall k', 0 <= k' < NPAGES -> entry (ram s1) pg k' = entry (ram s) pg k')
    else present (ldw (ram s1) r) = false /\ vmove s l pg (set_ram (stw (ram s1) r w) s1) l1 /\
      forall k', 0 <= k' < NPAGES -> entry (stw (ram s1) r w) pg k' =
        if decide (k' = k) then (if present (u32 w) then Some (u32 w) else None) else entry (ram s) pg k'.
Proof.
  intros Hs Hk He. destruct (walk_alloc s l pg (k * PGSIZE) Hs) as (r & s1 & l1 & E1 & Hm & He1 & Hr); [unfold NPAGES, PGSIZE in *; lia|].
  exists r, s1, l1. split; [done|]. destruct (r =? 0); [done|]. destruct Hr as (t & Ht & ->).
  rewrite Z.div_mul in * by done. destruct (store_move s1 l1 pg k t w (mv_space _ _ _ _ _ Hm) Hk Ht) as (Hm2 & _ & He2).
  split; [|split].
  - specialize (He1 k Hk). rewrite He in He1. unfold entry in He1. rewrite Ht in He1. simpl in He1.
    unfold word in He1. by destruct (present _).
  - by eapply vmove_trans.
  - intros k' Hk'. simpl in He2. rewrite He2, He1 by done. done.
Qed.

(** One turn of the loop. *)
Lemma map_turn n s l pg k0 last pa perm :
  vspace s l pg -> 0 <= k0 < NPAGES -> 0 <= pa < 2 ^ 32 -> entry (ram s) pg k0 = None ->
  exists s1 l1,
    (mappages_loop KMEM n pg (k0 * PGSIZE) last pa perm s = Ret (-1) s1 /\ vmove s l pg s1 l1 /\ l1 = [] /\
     forall k, 0 <= k < NPAGES -> entry (ram s1) pg k = entry (ram s) pg k) \/
    (mappages_loop KMEM n pg (k0 * PGSIZE) last pa perm s =
       (if k0 * PGSIZE =? last then ret 0 else
        match n with
        | O => ret 0
        | Datatypes.S n => mappages_loop KMEM n pg (u32 (k0 * PGSIZE + PGSIZE)) last (u32 (pa + PGSIZE)) perm
        end) s1 /\ vmove s l pg s1 l1 /\
     forall k, 0 <= k < NPAGES -> entry (ram s1) pg k = mapped (entry (ram s) pg) k0 1 pa perm k).
Proof.
  intros Hs Hk Hpa He. assert (u32 (Z.lor (Z.lor pa perm) PTE_P) = mapping pa perm k0 k0) as Hw.
  { unfold mapping. rewrite Z.sub_diag, Z.mul_0_l, Z.add_0_r, (u32_small pa) by done. done. }
  destruct (map_one s l pg k0 (Z.lor (Z.lor pa perm) PTE_P) Hs Hk He) as (r & s1 & l1 & E1 & H1).
  destruct (r =? 0) eqn:Hr.
  - destruct H1 as (-> & Hm & He1). exists s1, []. left. split; [|done].
    destruct n; cbn [mappages_loop]; rewrite (bind_ret _ _ _ _ _ E1), Hr; done.
  - destruct H1 as (Hp & Hm & He1). eexists _, l1. right. split; [|split; [exact Hm|]].
    + destruct n; cbn [mappages_loop]; rewrite (bind_ret _ _ _ _ _ E1), Hr; unfold ldk, stk; rewrite bind_gets, Hp, bind_modify; done.
    + intros k Hk'. simpl. rewrite He1, Hw, present_mapping by done. unfold mapped.
      destruct (decide (k = k0)) as [->|]; [by rewrite decide_True by lia|by rewrite decide_False by lia].
Qed.

Lemma mapped_ext f g k0 j pa perm k : f k = g k -> mapped f k0 j pa perm k = mapped g k0 j pa perm k.
Proof. intros E. unfold mapped. by rewrite E. Qed.

Lemma mapped_next f k0 j pa perm k :
  0 <= j -> mapped (mapped f k0 1 pa perm) (k0 + 1) j (u32 (pa + PGSIZE)) perm k = mapped f k0 (j + 1) pa perm k.
Proof.
  intros Hj. unfold mapped. destruct (decide (k0 + 1 <= k < k0 + 1 + j)).
  - rewrite decide_True by lia. unfold mapping. rewrite u32_add_l. do 5 f_equal. lia.
  - destruct (decide (k0 <= k < k0 + 1)).
    + by rewrite decide_True by lia.
    + by rewrite decide_False by lia.
Qed.

(** [mappages_loop] maps the pages from [k0] in order; when memory runs out it
    stops with the pages before mapped. *)
Lemma mappages_loop_run n s l pg k0 pa perm :
  vspace s l pg -> 0 <= k0 -> k0 + Z.of_nat n < NPAGES -> 0 <= pa < 2 ^ 32 -> 0 <= perm < PGSIZE ->
  (forall k, k0 <= k <= k0 + Z.of_nat n -> entry (ram s) pg k = None) ->
  exists r s' l' j,
    mappages_loop KMEM n pg (k0 * PGSIZE) ((k0 + Z.of_nat n) * PGSIZE) pa perm s = Ret r s' /\
    vmove s l pg s' l' /\
    (forall k, 0 <= k < NPAGES -> entry (ram s') pg k = mapped (entry (ram s) pg) k0 j pa perm k) /\
    (r = 0 /\ j = Z.of_nat n + 1 \/ r = -1 /\ 0 <= j <= Z.of_nat n /\ l' = []).
Proof.
  revert s l k0 pa. induction n as [|n IH]; intros s l k0 pa Hs Hk0 Hn Hpa Hperm He.
  - destruct (map_turn 0 s l pg k0 ((k0 + Z.of_nat 0) * PGSIZE) pa perm Hs) as (s1 & l1 & [(-> & Hm & -> & He1)|(-> & Hm & He1)]);
      [lia|done|apply He; lia|..].
    + exists (-1), s1, [], 0. split_and!; [done|done| |by right]. intros k Hk. rewrite He1 by done. unfold mapped. by rewrite decide_False by lia.
    + exists 0, s1, l1, 1. split_and!; [by destruct (_ =? _)|done|done|left; lia].
  - destruct (map_turn (S n) s l pg k0 ((k0 + Z.of_nat (S n)) * PGSIZE) pa perm Hs) as (s1 & l1 & [(-> & Hm & -> & He1)|(-> & Hm & He1)]);
      [lia|done|apply He; lia|..].
    + exists (-1), s1, [], 0. split_and!; [done|done| |right; lia || done]. intros k Hk. rewrite He1 by done. unfold mapped. by rewrite decide_False by lia.
    + replace (_ =? _) with false by (unfold PGSIZE; lia). rewrite (u32_small (k0 * PGSIZE + PGSIZE)) by (unfold NPAGES, PGSIZE in *; lia).
      destruct (IH s1 l1 (k0 + 1) (u32 (pa + PGSIZE))) as (r & s2 & l2 & j & E2 & Hm2 & He2 & Hr);
        [apply Hm|lia|lia|apply u32_range|done| |].
      { intros k Hk. rewrite He1 by lia. unfold mapped. rewrite decide_False by lia. apply He. lia. }
      exists r, s2, l2, (j + 1). split; [|split; [by eapply vmove_trans|split]].
      * replace (k0 * PGSIZE + PGSIZE) with ((k0 + 1) * PGSIZE) by lia.
        by replace (k0 + Z.of_nat (S n)) with (k0 + 1 + Z.of_nat n) by lia.
      * intros k Hk. rewrite He2, <- mapped_next by (done || lia). by apply mapped_ext, He1.
      * destruct Hr as [[-> ->]|(-> & ? & ->)]; [left; lia|right; split_and!; [done|lia|lia|done]].
Qed.

Lemma mappages_run s l pg k0 n pa perm :
  vspace s l pg -> 0 <= k0 -> 0 < n -> k0 + n <= NPAGES -> 0 <= pa < 2 ^ 32 -> 0 <= perm < PGSIZE ->
  (forall k, k0 <= k < k0 + n -> entry (ram s) pg k = None) ->
  exists r s' l' j,
    mappages KMEM pg (k0 * PGSIZE) (n * PGSIZE) pa perm s = Ret r s' /\
    vmove s l pg s' l' /\
    (forall k, 0 <= k < NPAGES -> entry (ram s') pg k = mapped (entry (ram s) pg) k0 j pa perm k) /\
    (r = 0 /\ j = n \/ r = -1 /\ 0 <= j < n /\ l' = []).
Proof.
  intros Hs Hk0 Hn Hkn Hpa Hperm He. unfold mappages. rewrite !PGROUNDDOWN_div, Z.div_mul by done.
  rewrite (u32_small (_ + _ - _)) by (unfold NPAGES, PGSIZE in *; lia).
  replace ((k0 * PGSIZE + n * PGSIZE - 1) / PGSIZE) with (k0 + (n - 1))
    by (apply (Z.div_unique _ _ _ (PGSIZE - 1)); unfold PGSIZE; lia).
  rewrite u32_small by (unfold NPAGES, PGSIZE in *; lia).
  replace (((k0 + (n - 1)) * PGSIZE - k0 * PGSIZE) / PGSIZE) with (n - 1)
    by (replace ((k0 + (n - 1)) * PGSIZE - k0 * PGSIZE) with ((n - 1) * PGSIZE) by lia; by rewrite Z.div_mul).
  destruct (mappages_loop_run (Z.to_nat (n - 1)) s l pg k0 pa perm) as (r & s' & l' & j & E & Hm & He' & Hr);
    [done|done|lia|done|done|intros; apply He; lia|].
  rewrite Z2Nat.id in * by lia. exists r, s', l', j. split_and!; [done|done|done|].
  destruct Hr as [[-> ->]|(-> & ? & ->)]; [left; lia|right; split_and!; lia || done].
Qed.
End mapping.

(** ** User memory *)

(** The pages of an address space: its directory, its tables, its user pages. *)
Definition own (m : mem) (pg : Z) : list Z := pg :: tabs m pg ++ frames m pg.

Lemma frames_ext m m' pg :
  (forall k, 0 <= k < UPAGES -> entry m' pg k = entry m pg k) -> frames m' pg = frames m pg.
Proof. intros H. rewrite !frames_eq. apply omap_ext_in. intros k Hk%elem_of_seqZ. by rewrite H by lia. Qed.

Lemma frames_fill m m' pg k w :
  0 <= k < UPAGES -> entry m pg k = None -> entry m' pg k = Some w ->
  (forall k', 0 <= k' < UPAGES -> k' <> k -> entry m' pg k' = entry m pg k') ->
  frames m' pg ≡ₚ entry_page w :: frames m pg.
Proof.
  intros Hk H1 H2 H3. rewrite !frames_eq.
  apply (omap_fill (fun k => entry_page <$> entry m pg k) _ _ k); [apply NoDup_seqZ|by apply in_seqZ|by rewrite H1|by rewrite H2|].
  intros z Hz%elem_of_seqZ Hne. by rewrite H3 by lia.
Qed.

Lemma elem_of_frames m pg p :
  p ∈ frames m pg <-> exists k w, 0 <= k < UPAGES /\ entry m pg k = Some w /\ entry_page w = p.
Proof.
  rewrite frames_eq, list_elem_of_omap. setoid_rewrite elem_of_seqZ. setoid_rewrite fmap_Some. split.
  - intros (k & Hk & w & Hw & ->). exists k, w. split_and!; [lia|lia|done|done].
  - intros (k & w & Hk & Hw & <-). exists k. split; [lia|eauto].
Qed.
