(* ===== verification/VmUser.v ===== *)
(** * Growing, shrinking, copying and freeing address spaces

    [allocuvm], [deallocuvm], [freevm], [setupkvm], [copyuvm] and [copyout] of
    vm.c on the address spaces of [VmSpace]: what is mapped afterwards, that no
    page is lost or freed twice, and that nothing else is written. *)

From S2P Require Import Prelude CString Spinlock Kalloc Vm VmSpace.
Open Scope Z_scope.

Section user.
Context (KMEM END : Z) (END_link : KERNLINK <= END).
Abbreviation page := (page END).
Abbreviation kinv := (kinv KMEM END).
Abbreviation vspace := (vspace KMEM END).
Abbreviation vmove := (vmove KMEM END).

Lemma END_above : KERNBASE <= END.
Proof. unfold KERNLINK, EXTMEM in *. lia. Qed.

(** The pages of the free list and of the address space are all different. *)
Definition uspace (s : kmem) (l : list Z) (pg : Z) : Prop :=
  kinv s l /\ Forall page (l ++ own (ram s) pg) /\ NoDup (l ++ own (ram s) pg).

Lemma uspace_vspace s l pg : uspace s l pg -> vspace s l pg.
Proof.
  intros (Hk & Hp & Hd). unfold own in *. rewrite app_comm_cons, app_assoc in Hp, Hd.
  split; [done|split]; [by apply Forall_app in Hp as []|by apply NoDup_app in Hd as []].
Qed.

Lemma uspace_pages s l pg : uspace s l pg -> Forall page (l ++ pg :: tabs (ram s) pg).
Proof. intros H. apply uspace_vspace in H as [_ [H _]]. done. Qed.

Lemma uspace_frame s l pg k w :
  uspace s l pg -> 0 <= k < UPAGES -> entry (ram s) pg k = Some w ->
  page (entry_page w) /\ entry_page w ∉ l ++ pg :: tabs (ram s) pg.
Proof.
  intros (Hk & Hp & Hd) Hr He. assert (entry_page w ∈ frames (ram s) pg) as Hf by (apply elem_of_frames; eauto).
  unfold own in *. rewrite app_comm_cons, app_assoc in Hp, Hd. split.
  - rewrite Forall_forall in Hp. apply Hp. set_solver.
  - apply NoDup_app in Hd as (_ & Hd & _). intros H. by apply (Hd _ H).
Qed.

(** From a change of the tables to a change of the address space. *)
Lemma uspace_move s l pg s' l' fs :
  uspace s l pg -> vmove s l pg s' l' -> frames (ram s') pg ≡ₚ fs ++ frames (ram s) pg ->
  Forall page fs -> NoDup fs -> (forall p, p ∈ fs -> p ∉ l ++ own (ram s) pg) ->
  uspace s' l' pg /\ l' ++ own (ram s') pg ≡ₚ fs ++ l ++ own (ram s) pg.
Proof.
  intros (Hk & Hp & Hd) Hm Hf Hfs Hnd Hn. assert (l' ++ own (ram s') pg ≡ₚ fs ++ l ++ own (ram s) pg) as Hperm.
  { unfold own. pose proof (mv_acct _ _ _ _ _ _ _ Hm) as Ha. rewrite Hf. revert Ha.
    generalize (tabs (ram s') pg), (tabs (ram s) pg), (frames (ram s) pg). intros T' T F Ha.
    rewrite <- !Permutation_middle. rewrite !app_assoc, Ha. rewrite <- !app_assoc. solve_Permutation. }
  split; [|done]. split; [apply (mv_space _ _ _ _ _ _ _ Hm)|]. rewrite Hperm. split.
  - by apply Forall_app.
  - apply NoDup_app. done.
Qed.

(** Mapping one user page. *)
Lemma map_page s l pg t k f :
  uspace s l pg -> page t -> t ∉ l ++ own (ram s) pg -> 0 <= k < UPAGES -> entry (ram s) pg k = None -> 0 <= f < PGSIZE ->
  exists r s' l', mappages KMEM pg (k * PGSIZE) PGSIZE (V2P t) f s = Ret r s' /\
    vmove s l pg s' l' /\ uspace s' l' pg /\
    ((r = 0 /\ l' ++ own (ram s') pg ≡ₚ t :: l ++ own (ram s) pg /\
      (forall k', 0 <= k' < NPAGES -> entry (ram s') pg k' =
         if decide (k' = k) then Some (Z.lor (V2P t) (Z.lor f PTE_P)) else entry (ram s) pg k')) \/
     (r = -1 /\ l' ++ own (ram s') pg ≡ₚ l ++ own (ram s) pg /\
      forall k', 0 <= k' < NPAGES -> entry (ram s') pg k' = entry (ram s) pg k')).
Proof.
  intros Hs Ht Hn Hk He Hf. pose proof (V2P_aligned END END_above t Ht) as [Ha Hr].
  destruct (mappages_run KMEM END END_above s l pg k 1 (V2P t) f) as (r & s' & l' & j & E & Hm & He' & Hr');
    [by apply uspace_vspace|lia|lia|rewrite UPAGES_val in Hk; unfold NPAGES; lia|unfold PHYSTOP in *; lia|done|..].
  { intros k' Hk'. by replace k' with k by lia. }
  rewrite Z.mul_1_l in E. exists r, s', l'. split; [done|]. split; [done|].
  assert (0 <= Z.lor f PTE_P < PGSIZE) as Hf2 by (apply (lor_below 12); unfold PTE_P, PGSIZE in *; lia).
  destruct (entry_make END END_above t (Z.lor f PTE_P) Ht Hf2) as (Hw1 & Hw2 & _ & Hw4).
  assert (mapping (V2P t) f k k = Z.lor (V2P t) (Z.lor f PTE_P)) as Hw.
  { unfold mapping. rewrite Z.sub_diag, Z.mul_0_l, Z.add_0_r, (u32_small (V2P t)), <- Z.lor_assoc by (unfold PHYSTOP in *; lia).
    done. }
  destruct Hr' as [[-> ->]|(-> & ? & _)].
  - assert (forall k', 0 <= k' < NPAGES -> entry (ram s') pg k' =
         if decide (k' = k) then Some (Z.lor (V2P t) (Z.lor f PTE_P)) else entry (ram s) pg k') as He2.
    { intros k' Hk'. rewrite He' by done. unfold mapped. destruct (decide (k' = k)) as [->|].
      - by rewrite decide_True, Hw by lia.
      - by rewrite decide_False by lia. }
    assert (frames (ram s') pg ≡ₚ [t] ++ frames (ram s) pg) as Hfr.
    { rewrite <- Hw2. apply (frames_fill _ _ _ k); [done|done| |].
      - rewrite He2 by (rewrite UPAGES_val in *; unfold NPAGES; lia). by rewrite decide_True.
      - intros k' Hk' Hne. rewrite He2 by (rewrite UPAGES_val in *; unfold NPAGES; lia). by rewrite decide_False. }
    destruct (uspace_move s l pg s' l' [t] Hs Hm Hfr) as [Hu Hp]; [by apply Forall_singleton|apply NoDup_singleton|set_solver|].
    split; [done|]. left. done.
  - assert (forall k', 0 <= k' < NPAGES -> entry (ram s') pg k' = entry (ram s) pg k') as He2.
    { intros k' Hk'. rewrite He' by done. unfold mapped. by rewrite decide_False by lia. }
    destruct (uspace_move s l pg s' l' [] Hs Hm) as [Hu Hp]; [|constructor|constructor|set_solver|].
    { rewrite (frames_ext (ram s)); [done|]. intros k' Hk'. apply He2. rewrite UPAGES_val in *. unfold NPAGES. lia. }
    split; [done|]. right. done.
Qed.

(** Freeing one user page and clearing its entry. *)
Lemma free_page s l pg k w t :
  uspace s l pg -> 0 <= k < UPAGES -> entry (ram s) pg k = Some w -> tab_at (ram s) pg (k / 1024) = Some t ->
  exists s1, kfree KMEM END (entry_page w) s = Ret () s1 /\
    let s2 := set_ram (stw (ram s1) (t + 4 * (k mod 1024)) 0) s1 in
    uspace s2 (entry_page w :: l) pg /\ (entry_page w :: l) ++ own (ram s2) pg ≡ₚ l ++ own (ram s) pg /\
    same_outside [entry_page w; t] (ram s) (ram s2) /\ tabs (ram s2) pg = tabs (ram s) pg /\
    (forall k', 0 <= k' < NPAGES -> entry (ram s2) pg k' = if decide (k' = k) then None else entry (ram s) pg k').
Proof.
  intros Hs Hk He Ht. destruct (uspace_frame s l pg k w Hs Hk He) as [Hp Hn].
  pose proof (uspace_vspace _ _ _ Hs) as [_ Hw]. assert (0 <= k < NPAGES) as Hk2 by (rewrite UPAGES_val in *; unfold NPAGES; lia).
  set (p := entry_page w) in *. destruct (kfree_run KMEM END END_above s l p) as (s1 & E1 & Hk1 & Ho1 & _); [apply Hs|done|set_solver|].
  exists s1. split; [done|]. assert (Forall page [p]) as Hfp by by apply Forall_singleton.
  assert (tabs (ram s1) pg = tabs (ram s) pg) as Htabs.
  { apply (tabs_outside END [p]); [done|done|by eapply twf_pg|set_solver]. }
  assert (twf END (ram s1) (p :: l) pg) as Hw1.
  { destruct Hw as [Hw1 Hw2]. unfold twf. rewrite Htabs. simpl. by split; constructor. }
  assert (forall k', 0 <= k' < NPAGES -> entry (ram s1) pg k' = entry (ram s) pg k') as He1.
  { intros k' Hk'. apply (entry_outside END END_above [p] _ _ l); [done|done|done|set_solver|done]. }
  assert (tab_at (ram s1) pg (k / 1024) = Some t) as Ht1.
  { rewrite <- Ht. unfold tab_at. rewrite (word_outside END [p] (ram s) (ram s1)); [done|done|done|by eapply twf_pg|set_solver|by apply div_1024]. }
  destruct (store_move KMEM END END_above s1 (p :: l) pg k t 0 (conj Hk1 Hw1) Hk2 Ht1) as ([[Hkm _] _ _ _] & Htb & He2).
  set (s2 := set_ram _ s1) in *.
  assert (tabs (ram s2) pg = tabs (ram s) pg) as Htabs2.
  { rewrite <- Htabs, !tabs_eq. apply omap_ext_in. intros i Hi%elem_of_seqZ. apply Htb. lia. }
  assert (forall k', 0 <= k' < NPAGES -> entry (ram s2) pg k' = if decide (k' = k) then None else entry (ram s) pg k') as He3.
  { intros k' Hk'. rewrite He2 by done. destruct (decide (k' = k)); [done|by apply He1]. }
  assert (frames (ram s) pg ≡ₚ p :: frames (ram s2) pg) as Hfr.
  { apply (frames_fill _ _ _ k); [done|by rewrite He3, decide_True by done|done|].
    intros k' Hk' Hne. rewrite He3, decide_False; [done|done|]. rewrite UPAGES_val in *. unfold NPAGES. lia. }
  assert ((p :: l) ++ own (ram s2) pg ≡ₚ l ++ own (ram s) pg) as Hperm.
  { unfold own. rewrite Htabs2, Hfr. generalize (tabs (ram s) pg), (frames (ram s2) pg). intros T F. solve_Permutation. }
  split; [|split_and!; [done| |done|done]].
  - split; [done|]. destruct Hs as (_ & Hs1 & Hs2). rewrite Hperm. done.
  - apply (same_outside_trans [p] [t] _ (ram s1)); [done|]. apply same_outside_stw; pose proof (div_1024 k Hk2); unfold PGSIZE; lia.
Qed.

(** The number of pages of [sz] bytes. *)
Definition upto (sz : Z) : Z := (sz + PGSIZE - 1) / PGSIZE.

Lemma upto_lt k sz : k * PGSIZE < sz <-> k < upto sz.
Proof.
  unfold upto. pose proof (Z.div_mod (sz + PGSIZE - 1) PGSIZE). pose proof (Z.mod_pos_bound (sz + PGSIZE - 1) PGSIZE).
  unfold PGSIZE in *. lia.
Qed.

Lemma upto_le sz : sz <= KERNBASE -> upto sz <= UPAGES.
Proof. intros H. apply Z.nlt_ge. rewrite <- upto_lt, UPAGES_val. unfold KERNBASE, PGSIZE in *. lia. Qed.

Lemma entry_no_table m pg k : tab_at m pg (k / 1024) = None -> entry m pg k = None.
Proof. intros H. unfold entry. by rewrite H. Qed.

(** The pages from [k0] up to [oldsz] are unmapped and freed; nothing else
    changes, and only freed pages and tables are written. *)
Definition cleared (s : kmem) (l : list Z) (pg k0 hi : Z) (s' : kmem) (l' : list Z) : Prop :=
  uspace s' l' pg /\ l' ++ own (ram s') pg ≡ₚ l ++ own (ram s) pg /\ tabs (ram s') pg = tabs (ram s) pg /\ l ⊆ l' /\
  same_outside (l' ++ pg :: tabs (ram s') pg) (ram s) (ram s') /\
  forall k, 0 <= k < NPAGES -> entry (ram s') pg k = if decide (k0 <= k < hi) then None else entry (ram s) pg k.

Lemma cleared_nothing s l pg k0 hi : uspace s l pg ->
  (forall k, k0 <= k < hi -> 0 <= k < NPAGES -> entry (ram s) pg k = None) -> cleared s l pg k0 hi s l.
Proof.
  intros Hs He. split_and!; [done|done|done|done|apply same_outside_refl|].
  intros k Hk. destruct (decide _); [by apply He|done].
Qed.

Lemma cleared_trans s1 l1 pg k0 k1 hi s2 l2 s3 l3 :
  k0 <= k1 -> cleared s1 l1 pg k0 k1 s2 l2 -> cleared s2 l2 pg k1 hi s3 l3 -> cleared s1 l1 pg k0 (k1 `max` hi) s3 l3.
Proof.
  intros Hk (A1 & A2 & A3 & A4 & A5 & A6) (B1 & B2 & B3 & B4 & B5 & B6).
  split_and!; [done|by rewrite B2|congruence|set_solver| |].
  - eapply same_outside_sub; [|exact (same_outside_trans _ _ _ _ _ A5 B5)]. rewrite B3. set_solver.
  - intros k Hr. rewrite B6 by done. destruct (decide (k1 <= k < hi)).
    + by rewrite decide_True by lia.
    + rewrite A6 by done. destruct (decide (k0 <= k < k1)); [by rewrite decide_True by lia|]. by rewrite decide_False by lia.
Qed.

Lemma cleared_skip s l pg k0 k1 hi s' l' :
  k0 <= k1 -> (forall k, k0 <= k < k1 -> 0 <= k < NPAGES -> entry (ram s) pg k = None) ->
  cleared s l pg k1 hi s' l' -> cleared s l pg k0 hi s' l'.
Proof.
  intros Hk He (B1 & B2 & B3 & B4 & B5 & B6). split_and!; try done.
  intros k Hr. rewrite B6 by done. destruct (decide (k0 <= k < hi)); destruct (decide (k1 <= k < hi)); try done; try lia.
  apply He; lia.
Qed.

(** The body of the loop for a page whose table exists. *)
Lemma dealloc_turn s l pg k t :
  uspace s l pg -> 0 <= k < UPAGES -> tab_at (ram s) pg (k / 1024) = Some t ->
  let pte := t + 4 * (k mod 1024) in let w := ldw (ram s) pte in
  exists s1 l1,
    when (present w) (if PTE_ADDR w =? 0 then panic "kfree" else kfree KMEM END (P2V (PTE_ADDR w)) ;;; stk pte 0) s = Ret () s1 /\
    cleared s l pg k (k + 1) s1 l1.
Proof.
  intros Hs Hk Ht pte w. assert (entry (ram s) pg k = if present w then Some w else None) as He by (unfold entry; by rewrite Ht).
  destruct (present w); simpl; cycle 1.
  { exists s, l. split; [done|]. apply cleared_nothing; [done|]. intros k' Hk' _. by replace k' with k by lia. }
  destruct (uspace_frame s l pg k w Hs Hk He) as [Hp Hn].
  destruct (free_page s l pg k w t Hs Hk He Ht) as (s1 & E1 & H1 & H2 & H3 & H4 & H5).
  replace (PTE_ADDR w =? 0) with false; cycle 1.
  { symmetry. apply Z.eqb_neq. intros H0. unfold entry_page in Hp. rewrite H0 in Hp. destruct Hp as [_ Hp].
    change (P2V 0) with KERNBASE in Hp. unfold KERNLINK, EXTMEM in *. lia. }
  fold (entry_page w). rewrite (bind_ret _ _ _ _ _ E1). eexists _, (entry_page w :: l). split; [done|].
  fold pte in H1, H2, H3, H4, H5. split_and!; [done|done|done|set_solver| |].
  - eapply same_outside_sub; [|exact H3]. simpl. simpl in H4. rewrite H4.
    assert (t ∈ tabs (ram s) pg) by (apply elem_of_tabs; exists (k / 1024); split; [apply div_1024; rewrite UPAGES_val in *; unfold NPAGES; lia|done]).
    set_solver.
  - intros k' Hk'. rewrite H5 by done. destruct (decide (k' = k)) as [->|]; [by rewrite decide_True by lia|by rewrite decide_False by lia].
Qed.

Lemma dealloc_loop_run n s l pg k0 oldsz :
  uspace s l pg -> 0 <= k0 -> oldsz <= KERNBASE -> upto oldsz <= k0 + Z.of_nat n ->
  exists s' l', dealloc_loop KMEM END n pg (k0 * PGSIZE) oldsz s = Ret () s' /\ cleared s l pg k0 (upto oldsz) s' l'.
Proof.
  revert s l k0. induction n as [|n IH]; intros s l k0 Hs Hk Ho Hn; cbn [dealloc_loop].
  { pose proof (upto_lt k0 oldsz). replace (oldsz <=? _) with true by lia. exists s, l. split; [done|]. apply cleared_nothing; [done|lia]. }
  destruct (oldsz <=? k0 * PGSIZE) eqn:Hlt; bsplit.
  { pose proof (upto_lt k0 oldsz). exists s, l. split; [done|]. apply cleared_nothing; [done|lia]. }
  apply upto_lt in Hlt. pose proof (upto_le oldsz Ho) as Hu.
  assert (0 <= k0 < UPAGES) as Hk0 by lia. rewrite UPAGES_val in Hu.
  assert (0 <= k0 < NPAGES) as HN by (unfold NPAGES; lia).
  rewrite (bind_ret _ _ _ _ _ (walk_lookup KMEM s pg (k0 * PGSIZE) ltac:(unfold PGSIZE; lia))).
  rewrite Z.div_mul by done. destruct (tab_at (ram s) pg (k0 / 1024)) as [t|] eqn:Ht.
  - destruct (twf_tab END END_above _ _ _ _ _ (proj2 (uspace_vspace _ _ _ Hs)) (proj1 (div_1024 k0 HN)) Ht) as (Hpt & _).
    pose proof (page_bounds END END_above t Hpt). pose proof (div_1024 k0 HN).
    replace (_ =? 0) with false by lia. unfold ldk at 1. rewrite bind_gets.
    destruct (dealloc_turn s l pg k0 t Hs Hk0 Ht) as (s1 & l1 & E1 & H1). rewrite (bind_ret _ _ _ _ _ E1).
    rewrite u32_small by (unfold PGSIZE; lia). replace (k0 * PGSIZE + PGSIZE) with ((k0 + 1) * PGSIZE) by lia.
    destruct (IH s1 l1 (k0 + 1)) as (s2 & l2 & E2 & H2); [apply H1|lia|done|lia|].
    exists s2, l2. split; [done|]. replace (upto oldsz) with ((k0 + 1) `max` upto oldsz) by lia.
    eapply cleared_trans; [|done..]. lia.
  - pose proof (div_1024 k0 HN). pose proof (Z.div_mod k0 1024). pose proof (Z.mod_pos_bound k0 1024).
    simpl. rewrite PDX_page, Z.div_mul by (done || unfold PGSIZE; lia).
    unfold PGADDR. rewrite Z.shiftl_0_l, !Z.lor_0_r, Z.shiftl_mul_pow2 by lia.
    assert (k0 / 1024 < 512) by (apply Z.div_lt_upper_bound; lia).
    rewrite u32_add_l, (u32_small ((k0 / 1024 + 1) * 2 ^ 22)), (u32_small (_ - _ + _)) by (unfold PGSIZE; lia).
    replace ((k0 / 1024 + 1) * 2 ^ 22 - PGSIZE + PGSIZE) with ((k0 / 1024 + 1) * 1024 * PGSIZE) by (unfold PGSIZE; lia).
    destruct (IH s l ((k0 / 1024 + 1) * 1024)) as (s2 & l2 & E2 & HC); [done|lia|done|lia|].
    exists s2, l2. split; [done|]. apply (cleared_skip _ _ _ _ ((k0 / 1024 + 1) * 1024)); [lia| |done].
    intros k Hr _. apply entry_no_table. replace (k / 1024) with (k0 / 1024); [done|]. apply Z.div_unique with (k - k0 / 1024 * 1024); lia.
Qed.

Lemma PGROUNDUP_upto sz : 0 <= sz <= KERNBASE -> PGROUNDUP sz = upto sz * PGSIZE.
Proof. intros H. apply PGROUNDUP_div. unfold KERNBASE, PGSIZE in *. lia. Qed.

Lemma upto_mono a b : a <= b -> upto a <= upto b.
Proof. intros H. apply Z.div_le_mono; unfold PGSIZE; lia. Qed.

Lemma upto_fuel sz : 0 <= sz -> upto sz <= sz / PGSIZE + 1.
Proof.
  intros H. apply Z.nlt_ge. rewrite <- upto_lt. pose proof (Z.div_mod sz PGSIZE). pose proof (Z.mod_pos_bound sz PGSIZE).
  unfold PGSIZE in *. lia.
Qed.

Lemma deallocuvm_run s l pg oldsz newsz :
  uspace s l pg -> 0 <= newsz -> 0 <= oldsz <= KERNBASE ->
  exists s' l', deallocuvm KMEM END pg oldsz newsz s = Ret (if oldsz <=? newsz then oldsz else newsz) s' /\
    cleared s l pg (upto newsz) (upto oldsz) s' l'.
Proof.
  intros Hs Hn Ho. unfold deallocuvm. destruct (oldsz <=? newsz) eqn:Hlt; bsplit.
  { exists s, l. split; [done|]. apply cleared_nothing; [done|]. pose proof (upto_mono oldsz newsz). lia. }
  rewrite PGROUNDUP_upto by lia. pose proof (upto_fuel oldsz). assert (0 <= upto newsz) by (apply Z.div_pos; unfold PGSIZE; lia).
  assert (0 <= oldsz / PGSIZE) by (apply Z.div_pos; unfold PGSIZE; lia).
  destruct (dealloc_loop_run (Z.to_nat (oldsz / PGSIZE + 1)) s l pg (upto newsz) oldsz) as (s' & l' & E & H'); [done|done|lia|lia|].
  exists s', l'. by rewrite (bind_ret _ _ _ _ _ E).
Qed.

(** A page taken from the free list, and then written. *)
Lemma take_page s t l pg :
  uspace s (t :: l) pg ->
  exists s1, kalloc KMEM s = Ret t s1 /\ ram s1 = ram s /\ page t /\ (t ∉ l ++ own (ram s) pg) /\ t <> 0 /\
    forall m, same_outside [t] (ram s) m ->
      uspace (set_ram m s1) l pg /\ own m pg = own (ram s) pg /\ tabs m pg = tabs (ram s) pg /\
      forall k, 0 <= k < NPAGES -> entry m pg k = entry (ram s) pg k.
Proof.
  intros Hs. pose proof Hs as (Hk & Hp & Hd). destruct (kalloc_run KMEM END END_above s (t :: l) Hk) as (s1 & E & Hk1 & Hr & _).
  simpl in *. apply Forall_cons in Hp as [Hpt Hp]. apply NoDup_cons in Hd as [Hnt Hd].
  exists s1. pose proof (page_bounds END END_above t Hpt). split_and!; [done|done|done|done|lia|].
  intros m Hm. pose proof (uspace_vspace _ _ _ Hs) as [_ Hw]. assert (Forall page [t]) as Hft by by apply Forall_singleton.
  unfold own in Hnt.
  assert (tabs m pg = tabs (ram s) pg) as Ht.
  { apply (tabs_outside END [t] (ram s)); [done|done|by eapply twf_pg|set_solver]. }
  assert (forall k, 0 <= k < NPAGES -> entry m pg k = entry (ram s) pg k) as He.
  { intros k Hk'. apply (entry_outside END END_above [t] _ _ (t :: l)); [done|done|done|set_solver|done]. }
  assert (own m pg = own (ram s) pg) as Ho.
  { unfold own. rewrite Ht, (frames_ext (ram s)); [done|]. intros k Hk'. apply He. rewrite UPAGES_val in *. unfold NPAGES. lia. }
  split_and!; [split|done|done|done].
  - apply (kinv_set_ram _ _ _ _ [t]); [done|by rewrite Hr|done|set_solver].
  - simpl. by rewrite Ho.
Qed.

(** ** Growing *)

Definition zeroed (m : mem) (p : Z) : Prop := forall a, in_page p a -> ld m a = 0.

(** The pages from [k0] to [k] are new, zero-filled and writable by the user. *)
Definition grown (s : kmem) (l : list Z) (pg k0 k : Z) (s' : kmem) (l' : list Z) : Prop :=
  uspace s' l' pg /\ l' ++ own (ram s') pg ≡ₚ l ++ own (ram s) pg /\ l' ⊆ l /\
  l' ++ tabs (ram s') pg ⊆ l ++ tabs (ram s) pg /\
  same_outside (l ++ pg :: tabs (ram s) pg) (ram s) (ram s') /\
  forall j, 0 <= j < NPAGES ->
    if decide (k0 <= j < k) then exists p, entry (ram s') pg j = Some (Z.lor (V2P p) 7) /\ p ∈ l /\ page p /\ zeroed (ram s') p
    else entry (ram s') pg j = entry (ram s) pg j.

(** Failed, and everything mapped as before. *)
Definition restored (s : kmem) (l : list Z) (pg : Z) (s' : kmem) (l' : list Z) : Prop :=
  uspace s' l' pg /\ l' ++ own (ram s') pg ≡ₚ l ++ own (ram s) pg /\
  same_outside (l ++ l' ++ pg :: tabs (ram s) pg ++ tabs (ram s') pg) (ram s) (ram s') /\
  forall j, 0 <= j < NPAGES -> entry (ram s') pg j = entry (ram s) pg j.

Lemma grown_refl s l pg k0 : uspace s l pg -> grown s l pg k0 k0 s l.
Proof.
  intros Hs. split_and!; [done|done|done|done|apply same_outside_refl|]. intros j Hj. by rewrite decide_False by lia.
Qed.

Lemma zeroed_memset m p : zeroed (memset m p 0 PGSIZE) p.
Proof.
  intros a Ha. unfold in_page in Ha. rewrite memset_spec, ld_write, length_replicate by (unfold PGSIZE; lia).
  rewrite Z2Nat.id by (unfold PGSIZE; lia). replace (_ && _) with true by lia.
  apply lookup_total_replicate_2. unfold PGSIZE in *. lia.
Qed.

Lemma zeroed_outside ps m m' p :
  same_outside ps m m' -> Forall page ps -> page p -> p ∉ ps -> zeroed m p -> zeroed m' p.
Proof. intros Hs Hp Hpp Hn Hz a Ha. rewrite (same_outside_page END ps m m' p a); auto. Qed.

Lemma entry_page_lor p f : page p -> 0 <= f < PGSIZE -> entry_page (Z.lor (V2P p) f) = p.
Proof. intros Hp Hf. apply (entry_make END END_above p f Hp Hf). Qed.

(** One more page: the turn of [allocuvm]'s loop that finds a page [t]. *)
Lemma grown_step s l pg k0 k s1 t l1 :
  grown s l pg k0 k s1 (t :: l1) -> k0 <= k -> 0 <= k < UPAGES -> entry (ram s) pg k = None ->
  exists s2, kalloc KMEM s1 = Ret t s2 /\ t <> 0 /\
    exists r s3 l3, mappages KMEM pg (k * PGSIZE) PGSIZE (V2P t) (Z.lor PTE_W PTE_U) (set_ram (memset (ram s2) t 0 PGSIZE) s2) = Ret r s3 /\
      ((r = 0 /\ grown s l pg k0 (k + 1) s3 l3) \/
       (r = -1 /\ page t /\ (t ∉ l3 ++ own (ram s3) pg) /\ t ∈ l /\
         uspace s3 l3 pg /\ t :: l3 ++ own (ram s3) pg ≡ₚ l ++ own (ram s) pg /\ l3 ++ tabs (ram s3) pg ⊆ l ++ tabs (ram s) pg /\
         same_outside (l ++ pg :: tabs (ram s) pg) (ram s) (ram s3) /\
         forall j, 0 <= j < NPAGES -> if decide (k0 <= j < k) then True else entry (ram s3) pg j = entry (ram s) pg j)).
Proof.
  intros (G1 & G2 & G3 & G4 & G5 & G6) Hk0 Hk He.
  destruct (take_page s1 t l1 pg G1) as (s2 & E2 & Hr2 & Hpt & Hnt & Ht0 & Hset).
  exists s2. split; [done|]. split; [done|]. rewrite Hr2.
  destruct (Hset (memset (ram s1) t 0 PGSIZE) (same_outside_memset _ _ _)) as (Hu2 & Ho2 & Htb2 & He2).
  set (s2' := set_ram _ s2) in *. assert (ram s2' = memset (ram s1) t 0 PGSIZE) as Hr2' by done.
  rewrite <- Hr2' in Ho2, Htb2, He2.
  assert (same_outside [t] (ram s1) (ram s2')) as Hs2 by (rewrite Hr2'; apply same_outside_memset).
  assert (zeroed (ram s2') t) as Hz by (rewrite Hr2'; apply zeroed_memset). clearbody s2'.
  assert (0 <= k < NPAGES) as HN by (rewrite UPAGES_val in *; unfold NPAGES; lia).
  assert (entry (ram s2') pg k = None) as Hek.
  { rewrite He2 by done. specialize (G6 k). rewrite decide_False in G6 by lia. by rewrite G6. }
  destruct (map_page s2' l1 pg t k (Z.lor PTE_W PTE_U) Hu2 Hpt) as (r & s3 & l3 & E3 & Hm3 & Hu3 & Hcase); [by rewrite Ho2|done|done|by compute|].
  exists r, s3, l3. split; [done|]. destruct Hm3 as [_ Ha3 Hl3 Ho3].
  assert (l3 ++ tabs (ram s3) pg ⊆ l ++ tabs (ram s) pg) as Hsub.
  { rewrite Ha3, Htb2. clear -G4. set_solver. }
  assert (same_outside (l ++ pg :: tabs (ram s) pg) (ram s) (ram s3)) as Hout.
  { eapply same_outside_sub; [|exact (same_outside_trans _ _ _ _ _ (same_outside_trans _ _ _ _ _ G5 Hs2) Ho3)].
    rewrite Htb2. clear -G3 G4. set_solver. }
  destruct Hcase as [(-> & Hp3 & He3)|(-> & Hp3 & He3)].
  - left. split; [done|]. split_and!; [done| |set_solver|done|done|].
    + rewrite Hp3, Ho2. exact G2.
    + pose proof (uspace_pages _ _ _ Hu2) as Hpp.
      intros j Hj. rewrite He3 by done. specialize (G6 j Hj). destruct (decide (j = k)) as [->|Hne].
      * rewrite decide_True by lia. exists t. split; [done|]. split; [set_solver|]. split; [done|].
        apply (zeroed_outside _ _ _ _ Ho3); [done|done| |done]. rewrite Htb2. unfold own in Hnt. clear -Hnt. set_solver.
      * destruct (decide (k0 <= j < k)) as [Hr|Hr]; [rewrite decide_True by lia|rewrite decide_False by lia; by rewrite He2].
        destruct G6 as (p & Hp1 & Hp2 & Hp3' & Hp4). exists p. rewrite He2 by done. split_and!; [done..|].
        destruct (uspace_frame s1 (t :: l1) pg j _ G1 ltac:(lia) Hp1) as [_ Hnp]. rewrite entry_page_lor in Hnp by (done || by compute).
        apply (zeroed_outside _ _ _ _ Ho3); [done|done|rewrite Htb2; clear -Hnp; set_solver|].
        apply (zeroed_outside _ _ _ _ Hs2); [by apply Forall_singleton|done|clear -Hnp; set_solver|done].
  - right. split_and!; [done|done| |set_solver|done| |done|done|].
    + rewrite Hp3, Ho2. done.
    + rewrite Hp3, Ho2. exact G2.
    + intros j Hj. specialize (G6 j Hj). destruct (decide _); [done|]. by rewrite He3, He2, G6.
Qed.

(** Undoing a partial growth by unmapping the range gives the old mappings back. *)
Lemma undo_growth s l pg k0 k hi s1 l1 s2 l2 :
  (forall j, k0 <= j < hi -> 0 <= j < NPAGES -> entry (ram s) pg j = None) -> k <= hi ->
  (forall j, 0 <= j < NPAGES -> if decide (k0 <= j < k) then True else entry (ram s1) pg j = entry (ram s) pg j) ->
  same_outside (l ++ pg :: tabs (ram s) pg) (ram s) (ram s1) ->
  cleared s1 l1 pg k0 hi s2 l2 ->
  same_outside (l ++ l2 ++ pg :: tabs (ram s) pg ++ tabs (ram s2) pg) (ram s) (ram s2) /\
  forall j, 0 <= j < NPAGES -> entry (ram s2) pg j = entry (ram s) pg j.
Proof.
  intros Hn Hk He Ho (C1 & C2 & C3 & C4 & C5 & C6). split.
  - eapply same_outside_sub; [|exact (same_outside_trans _ _ _ _ _ Ho C5)]. clear. set_solver.
  - intros j Hj. rewrite C6 by done. specialize (He j Hj). destruct (decide (k0 <= j < hi)); [by rewrite Hn|].
    by rewrite decide_False in He by lia.
Qed.

(** Giving a page back that is in no address space. *)
Lemma give_page s l pg t :
  uspace s l pg -> page t -> t ∉ l ++ own (ram s) pg ->
  exists s', kfree KMEM END t s = Ret () s' /\ uspace s' (t :: l) pg /\ own (ram s') pg = own (ram s) pg /\
    tabs (ram s') pg = tabs (ram s) pg /\ same_outside [t] (ram s) (ram s') /\
    forall k, 0 <= k < NPAGES -> entry (ram s') pg k = entry (ram s) pg k.
Proof.
  intros Hs Hpt Hnt. pose proof Hs as (Hk & Hp & Hd). pose proof (uspace_vspace _ _ _ Hs) as [_ Hw].
  destruct (kfree_run KMEM END END_above s l t Hk Hpt) as (s' & E & Hk' & Ho & _); [set_solver|].
  exists s'. split; [done|]. assert (Forall page [t]) as Hft by by apply Forall_singleton. unfold own in Hnt.
  assert (tabs (ram s') pg = tabs (ram s) pg) as Ht.
  { apply (tabs_outside END [t] (ram s)); [done|done|by eapply twf_pg|set_solver]. }
  assert (forall k, 0 <= k < NPAGES -> entry (ram s') pg k = entry (ram s) pg k) as He.
  { intros k Hk2. apply (entry_outside END END_above [t] _ _ l); [done|done|done|set_solver|done]. }
  assert (own (ram s') pg = own (ram s) pg) as Hown.
  { unfold own. rewrite Ht, (frames_ext (ram s)); [done|]. intros k Hk2. apply He. rewrite UPAGES_val in *. unfold NPAGES. lia. }
  split_and!; try done. unfold uspace. rewrite Hown. split; [done|]. split; [by constructor|]. by constructor.
Qed.

Lemma alloc_loop_run n s l pg k s1 l1 oldsz newsz :
  let k0 := upto oldsz in
  uspace s l pg -> grown s l pg k0 k s1 l1 -> k0 <= k -> k <= upto newsz -> 0 <= oldsz <= newsz -> newsz < KERNBASE ->
  upto newsz <= k + Z.of_nat n -> (forall j, k0 <= j < upto newsz -> entry (ram s) pg j = None) ->
  exists r s' l', alloc_loop KMEM END n pg (k * PGSIZE) oldsz newsz s1 = Ret r s' /\
    ((r = newsz /\ grown s l pg k0 (upto newsz) s' l') \/ (r = 0 /\ restored s l pg s' l')).
Proof.
  intros k0 Hs. revert k s1 l1. induction n as [|n IH]; intros k s1 l1 Hg Hk0 Hk Ho Hn Hf He; cbn [alloc_loop].
  { pose proof (upto_lt k newsz). replace (newsz <=? _) with true by lia. replace k with (upto newsz) in * by lia. eauto 10. }
  destruct (newsz <=? k * PGSIZE) eqn:Hlt; bsplit.
  { pose proof (upto_lt k newsz). replace k with (upto newsz) in * by lia. eauto 10. }
  apply upto_lt in Hlt. pose proof (upto_le newsz ltac:(lia)) as Hu.
  assert (0 <= k0) by (apply Z.div_pos; unfold PGSIZE; lia).
  destruct l1 as [|t l1].
  - destruct Hg as (G1 & G2 & G3 & G4 & G5 & G6). pose proof G1 as (Hk1 & Hp1 & Hd1).
    destruct (kalloc_run KMEM END END_above s1 [] Hk1) as (s2 & E2 & Hk2 & Hr2 & _). rewrite (bind_ret _ _ _ _ _ E2). simpl.
    destruct (deallocuvm_run s2 [] pg newsz oldsz) as (s3 & l3 & E3 & H3); [unfold uspace; by rewrite Hr2|lia|lia|].
    rewrite (bind_ret _ _ _ _ _ E3). exists 0, s3, l3. split; [done|]. right. split; [done|].
    destruct (undo_growth s l pg k0 k (upto newsz) s2 [] s3 l3) as [Ho3 He3]; [intros; by apply He|done| |by rewrite Hr2|done|].
    { intros j Hj. specialize (G6 j Hj). rewrite Hr2. by destruct (decide _). }
    destruct H3 as (C1 & C2 & _). split_and!; [done| |done|done]. rewrite C2, Hr2. done.
  - destruct (grown_step s l pg k0 k s1 t l1 Hg) as (s2 & E2 & Ht0 & r & s3 & l3 & E3 & Hcase); [done|lia|apply He; lia|].
    rewrite (bind_ret _ _ _ _ _ E2). replace (t =? 0) with false by lia. unfold memsetk. rewrite bind_modify, (bind_ret _ _ _ _ _ E3).
    destruct Hcase as [(-> & Hg3)|(-> & Hpt & Hnt & Htl & Hu3 & Hp3 & Hsub & Ho3 & He3)]; simpl.
    + rewrite u32_small by (rewrite UPAGES_val in Hu; unfold PGSIZE; lia).
      replace (k * PGSIZE + PGSIZE) with ((k + 1) * PGSIZE) by lia. apply (IH (k + 1) s3 l3); try done; lia.
    + destruct (deallocuvm_run s3 l3 pg newsz oldsz) as (s4 & l4 & E4 & H4); [done|lia|lia|].
      rewrite (bind_ret _ _ _ _ _ E4).
      destruct (undo_growth s l pg k0 k (upto newsz) s3 l3 s4 l4) as [Ho4 He4]; [intros; by apply He|done..|].
      destruct H4 as (C1 & C2 & C3 & _).
      destruct (give_page s4 l4 pg t C1 Hpt) as (s5 & E5 & Hu5 & Hown5 & Htb5 & Ho5 & He5); [by rewrite C2|].
      rewrite (bind_ret _ _ _ _ _ E5). exists 0, s5, (t :: l4). split; [done|]. right. split; [done|]. split_and!; [done| | |].
      * rewrite Hown5. simpl. rewrite C2. done.
      * eapply same_outside_sub; [|exact (same_outside_trans _ _ _ _ _ Ho4 Ho5)]. rewrite Htb5. clear. set_solver.
      * intros j Hj. by rewrite He5, He4.
Qed.

(** A user page keeps its contents when only free pages and tables are written. *)
Lemma frames_kept s l pg s' l' ps p a :
  uspace s l pg -> uspace s' l' pg -> same_outside ps (ram s) (ram s') ->
  ps ⊆ l ++ l' ++ pg :: tabs (ram s) pg ++ tabs (ram s') pg ->
  (forall j, 0 <= j < UPAGES -> is_Some (entry (ram s) pg j) -> entry (ram s') pg j = entry (ram s) pg j) ->
  p ∈ frames (ram s) pg -> in_page p a -> ld (ram s') a = ld (ram s) a.
Proof.
  intros Hs Hs' Ho Hps He Hp Ha. apply elem_of_frames in Hp as (j & w & Hj & Hw & <-).
  destruct (uspace_frame s l pg j w Hs Hj Hw) as [Hpp Hn]. rewrite <- He in Hw by eauto.
  destruct (uspace_frame s' l' pg j w Hs' Hj Hw) as [_ Hn'].
  apply (same_outside_page END ps _ _ (entry_page w)); [done| |done| |done].
  - apply Forall_forall. intros x Hx%Hps. destruct Hs as (_ & H1 & _), Hs' as (_ & H2 & _).
    rewrite Forall_forall in H1, H2. unfold own in H1, H2. specialize (H1 x). specialize (H2 x).
    clear -Hx H1 H2. set_solver.
  - clear -Hps Hn Hn'. set_solver.
Qed.

(** C15: [allocuvm] grows a process or leaves it alone.  It returns the new size
    with every page of the grown range mapped to a page taken from the free
    list, zero-filled, present, writable and accessible to the user, or it
    returns 0 with every mapping as before.  Either way all other mappings and
    the contents of the process's pages are unchanged, the pages of the free
    list and of the address space are the same all together (none is leaked or
    used twice), and no page of anyone else is written. *)
Theorem allocuvm_spec s l pg oldsz newsz :
  uspace s l pg -> 0 <= oldsz <= newsz -> newsz < KERNBASE ->
  (forall k, upto oldsz <= k < upto newsz -> entry (ram s) pg k = None) ->
  exists r s' l', allocuvm KMEM END pg oldsz newsz s = Ret r s' /\
    uspace s' l' pg /\ l' ++ own (ram s') pg ≡ₚ l ++ own (ram s) pg /\
    same_outside (l ++ own (ram s) pg) (ram s) (ram s') /\
    (forall p a, p ∈ frames (ram s) pg -> in_page p a -> ld (ram s') a = ld (ram s) a) /\
    ((r = newsz /\ forall k, 0 <= k < NPAGES ->
        if decide (upto oldsz <= k < upto newsz)
        then exists p, entry (ram s') pg k = Some (Z.lor (V2P p) 7) /\ p ∈ l /\ page p /\ zeroed (ram s') p
        else entry (ram s') pg k = entry (ram s) pg k) \/
     (r = 0 /\ forall k, 0 <= k < NPAGES -> entry (ram s') pg k = entry (ram s) pg k)).
Proof.
  intros Hs Ho Hn He. unfold allocuvm. replace (KERNBASE <=? newsz) with false by lia. replace (newsz <? oldsz) with false by lia.
  rewrite PGROUNDUP_upto by lia. pose proof (upto_fuel newsz). pose proof (upto_mono oldsz newsz).
  assert (0 <= newsz / PGSIZE) by (apply Z.div_pos; unfold PGSIZE; lia). assert (0 <= upto oldsz) by (apply Z.div_pos; unfold PGSIZE; lia).
  destruct (alloc_loop_run (Z.to_nat (newsz / PGSIZE + 1)) s l pg (upto oldsz) s l oldsz newsz) as (r & s' & l' & E & Hcase);
    [done|by apply grown_refl|lia|lia|lia|lia|lia|done|].
  exists r, s', l'. split; [done|]. pose proof (upto_le newsz ltac:(lia)). destruct Hcase as [[-> Hg]|[-> Hr]].
  - destruct Hg as (G1 & G2 & G3 & G4 & G5 & G6). split_and!; [done|done| | |by left].
    + eapply same_outside_sub; [|done]. unfold own. clear. set_solver.
    + intros p a. apply (frames_kept s l pg s' l' _ p a Hs G1 G5); [clear; set_solver|].
      intros j Hj [w Hw]. specialize (G6 j). destruct (decide _) as [Hd|]; [by rewrite He in Hw|].
      apply G6. rewrite UPAGES_val in *. unfold NPAGES. lia.
  - destruct Hr as (R1 & R2 & R3 & R4). split_and!; [done|done| | |by right].
    + eapply same_outside_sub; [|done]. assert (l' ++ own (ram s') pg ⊆ l ++ own (ram s) pg) as Hsub by by rewrite R2.
      unfold own in *. clear -Hsub. set_solver.
    + intros p a. apply (frames_kept s l pg s' l' _ p a Hs R1 R3); [clear; set_solver|].
      intros j Hj _. apply R4. rewrite UPAGES_val in *. unfold NPAGES. lia.
Qed.

(** ** Freeing *)

(** The loop of [freevm] over the directory entries from [i] on: the tables go to
    the free list one after the other; the directory itself stays readable. *)
Lemma free_tables_run n i s l pg m0 ts :
  kinv s l -> page pg -> (forall j, 0 <= j < 1024 -> word (ram s) pg j = word m0 pg j) ->
  Z.of_nat (i + n) <= 1024 ->
  ts = omap (fun j => tab_at m0 pg (Z.of_nat j)) (seq i n) ->
  Forall page ts -> NoDup ts -> pg ∉ ts -> (forall t, t ∈ ts -> t ∉ l) ->
  exists s', for_each (seq i n) (fun i =>
      let* w := ldk (pg + 4 * Z.of_nat i) in
      when (present w) (kfree KMEM END (P2V (PTE_ADDR w)))) s = Ret () s' /\
    kinv s' (reverse ts ++ l) /\ same_outside ts (ram s) (ram s').
Proof.
  intros Hk Hpg Hw Hn. revert i s l ts Hk Hw Hn. induction n as [|n IH]; intros i s l ts Hk Hw Hn -> Hp Hd Hnp Hnl.
  { exists s. split; [done|]. split; [done|apply same_outside_refl]. }
  cbn [seq for_each]. cbn [seq omap list_omap] in *. unfold ldk at 1. rewrite bind_assoc, bind_gets.
  change (ldw (ram s) (pg + 4 * Z.of_nat i)) with (word (ram s) pg (Z.of_nat i)). rewrite Hw by lia.
  destruct (tab_at m0 pg (Z.of_nat i)) as [t|] eqn:Ht; unfold tab_at in Ht; destruct (present (word m0 pg (Z.of_nat i))); simplify_eq.
  - fold (entry_page (word m0 pg (Z.of_nat i))). set (t := entry_page _) in *.
    set (ts := omap _ (seq (S i) n)) in *. apply Forall_cons in Hp as [Hpt Hp]. apply NoDup_cons in Hd as [Hnt Hd].
    destruct (kfree_run KMEM END END_above s l t Hk Hpt) as (s1 & E1 & Hk1 & Ho1 & _); [apply Hnl; left|].
    simpl. rewrite (bind_ret _ _ _ _ _ E1).
    destruct (IH (S i) s1 (t :: l) ts) as (s2 & E2 & Hk2 & Ho2); [done| |lia|done|done|done|set_solver| |].
    { intros j Hj. rewrite <- Hw by done. apply (word_outside END [t]); [done|by apply Forall_singleton|done|set_solver|done]. }
    { intros t' Ht'. specialize (Hnl t'). set_solver. }
    exists s2. split; [done|]. rewrite reverse_cons, <- app_assoc. split; [done|]. by apply (same_outside_trans [t]) with (ram s1).
  - simpl. eapply (IH (S i) s l); try done. lia.
Qed.

Lemma tabs_seq m pg : tabs m pg = omap (fun j => tab_at m pg (Z.of_nat j)) (seq 0 NPDENTRIES).
Proof. rewrite tabs_eq. change 1024 with (Z.of_nat NPDENTRIES). generalize NPDENTRIES. intros n.
  unfold seqZ. rewrite Nat2Z.id. induction (seq 0 n) as [|x l IH]; [done|]. cbn. rewrite Z.add_0_r.
  destruct (tab_at m pg (Z.of_nat x)); by rewrite IH.
Qed.

Lemma no_frames m pg : (forall k, 0 <= k < UPAGES -> entry m pg k = None) -> frames m pg = [].
Proof.
  intros He. destruct (frames m pg) as [|p F] eqn:E; [done|].
  assert (p ∈ frames m pg) as Hp by (rewrite E; left). apply elem_of_frames in Hp as (k & w & Hk & Hw & _).
  by rewrite He in Hw.
Qed.

Lemma freevm_run s l pg :
  uspace s l pg ->
  exists s' l', freevm KMEM END pg s = Ret () s' /\ kinv s' l' /\ l' ≡ₚ l ++ own (ram s) pg /\
    same_outside (l ++ own (ram s) pg) (ram s) (ram s').
Proof.
  intros Hs. pose proof (twf_pg END _ _ _ (proj2 (uspace_vspace _ _ _ Hs))) as Hpg. pose proof (page_bounds END END_above pg Hpg).
  unfold freevm. replace (pg =? 0) with false by lia.
  destruct (deallocuvm_run s l pg KERNBASE 0) as (s1 & l1 & E1 & C1 & C2 & C3 & C4 & C5 & C6); [done|lia|unfold KERNBASE; lia|].
  rewrite (bind_ret _ _ _ _ _ E1). assert (frames (ram s1) pg = []) as Hf.
  { apply no_frames. intros k Hk. change (upto 0) with 0 in C6. change (upto KERNBASE) with UPAGES in C6.
    rewrite C6, decide_True by (rewrite UPAGES_val in *; unfold NPAGES; lia). done. }
  unfold own in C2. rewrite Hf, app_nil_r in C2. fold (own (ram s) pg) in C2.
  destruct C1 as (K1 & P1 & D1). unfold own in P1, D1. rewrite Hf, app_nil_r in P1, D1.
  apply Forall_app in P1 as [_ P1]. apply Forall_cons in P1 as [_ P1]. apply NoDup_app in D1 as (_ & D1 & D2).
  apply NoDup_cons in D2 as [D2 D3]. pose proof (tabs_seq (ram s1) pg) as Ht.
  destruct (free_tables_run NPDENTRIES 0 s1 l1 pg (ram s1) (tabs (ram s1) pg) K1 Hpg (fun j _ => eq_refl)) as (s2 & E2 & K2 & O2);
    [by vm_compute|exact Ht|exact P1|exact D3|exact D2|clear -D1; set_solver|].
  rewrite (bind_ret _ _ _ _ _ E2).
  destruct (kfree_run KMEM END END_above s2 (reverse (tabs (ram s1) pg) ++ l1) pg K2 Hpg) as (s3 & E3 & K3 & O3 & _).
  { rewrite elem_of_app, elem_of_reverse. intros [|Hx]; [done|]. apply (D1 pg Hx). left. }
  exists s3, (pg :: reverse (tabs (ram s1) pg) ++ l1).
  assert (pg :: reverse (tabs (ram s1) pg) ++ l1 ≡ₚ l ++ own (ram s) pg) as Hperm.
  { rewrite <- C2, reverse_Permutation. generalize (tabs (ram s1) pg). intros T. solve_Permutation. }
  split_and!; [done|done|done|].
  eapply same_outside_sub; [|exact (same_outside_trans _ _ _ _ _ (same_outside_trans _ _ _ _ _ C5 O2) O3)].
  rewrite <- Hperm. intros x. rewrite !elem_of_app, !elem_of_cons, elem_of_nil, elem_of_app, elem_of_reverse. tauto.
Qed.

(** C16: [freevm] gives back everything: the free list gains exactly the
    directory, the tables and the user pages of the address space, each once,
    and no other page is written. *)
Theorem freevm_returns_all s l pg :
  uspace s l pg ->
  exists s' l', freevm KMEM END pg s = Ret () s' /\ kinv s' l' /\ l' ≡ₚ l ++ own (ram s) pg /\
    same_outside (l ++ own (ram s) pg) (ram s) (ram s').
Proof. apply freevm_run. Qed.

(** ** The kernel's part *)

(** The regions of a kernel map, and the mappings it makes over [f]. *)
Definition region := (Z * Z * Z * Z)%type.

Definition region_ok (r : region) : Prop :=
  let '(v, ps, pe, perm) := r in
  v mod PGSIZE = 0 /\ KERNBASE <= v /\ u32 (pe - ps) mod PGSIZE = 0 /\ 0 < u32 (pe - ps) /\ v + u32 (pe - ps) <= 2 ^ 32 /\
  0 <= ps < 2 ^ 32 /\ 0 <= perm < PGSIZE.

Definition region_map (r : region) (f : Z -> option Z) : Z -> option Z :=
  let '(v, ps, pe, perm) := r in mapped f (v / PGSIZE) (u32 (pe - ps) / PGSIZE) ps perm.

Definition region_free (r : region) (f : Z -> option Z) : Prop :=
  let '(v, ps, pe, perm) := r in
  forall k, v / PGSIZE <= k < v / PGSIZE + u32 (pe - ps) / PGSIZE -> f k = None.

Fixpoint kview (rs : list region) (f : Z -> option Z) : Z -> option Z :=
  match rs with [] => f | r :: rs => kview rs (region_map r f) end.
Fixpoint kfits (rs : list region) (f : Z -> option Z) : Prop :=
  match rs with [] => True | r :: rs => region_free r f /\ kfits rs (region_map r f) end.

Lemma kview_ext rs f g k : (forall k, 0 <= k < NPAGES -> f k = g k) -> 0 <= k < NPAGES -> kview rs f k = kview rs g k.
Proof.
  revert f g. induction rs as [|[[[v ps] pe] perm] rs IH]; intros f g H Hk; simpl; [by apply H|].
  apply IH; [|done]. intros k' Hk'. by apply mapped_ext, H.
Qed.

Lemma mappages_region s l pg v ps pe perm :
  uspace s l pg -> region_ok (v, ps, pe, perm) -> region_free (v, ps, pe, perm) (entry (ram s) pg) ->
  exists r s' l', mappages KMEM pg v (u32 (pe - ps)) ps perm s = Ret r s' /\ uspace s' l' pg /\
    l' ++ own (ram s') pg ≡ₚ l ++ own (ram s) pg /\ same_outside (l ++ own (ram s) pg) (ram s) (ram s') /\
    (r = 0 /\ (forall k, 0 <= k < NPAGES -> entry (ram s') pg k = region_map (v, ps, pe, perm) (entry (ram s) pg) k) \/ r = -1).
Proof.
  intros Hs (Hv & Hkb & Hsz & Hpos & Hend & Hps & Hperm) Hfree.
  set (n := u32 (pe - ps) / PGSIZE) in *. set (k0 := v / PGSIZE) in *.
  assert (v = k0 * PGSIZE) as Ev by (pose proof (Z.div_mod v PGSIZE); unfold PGSIZE in *; lia).
  assert (u32 (pe - ps) = n * PGSIZE) as En by (pose proof (Z.div_mod (u32 (pe - ps)) PGSIZE); unfold PGSIZE in *; lia).
  assert (UPAGES <= k0) as Hk0 by (rewrite UPAGES_val; unfold KERNBASE, PGSIZE in *; lia).
  rewrite En in Hpos, Hend. destruct (mappages_run KMEM END END_above s l pg k0 n ps perm) as (r & s' & l' & j & E & Hm & He & Hr);
    [by apply uspace_vspace|rewrite UPAGES_val in *; lia|unfold PGSIZE in *; lia|unfold NPAGES, PGSIZE in *; lia|done|done|exact Hfree|].
  rewrite <- Ev, <- En in E. exists r, s', l'. split; [done|].
  destruct (uspace_move s l pg s' l' [] Hs Hm) as [Hu Hp]; [|constructor|constructor|set_solver|].
  { rewrite (frames_ext (ram s)); [done|]. intros k Hk. rewrite He by (rewrite UPAGES_val in *; unfold NPAGES; lia).
    unfold mapped. rewrite decide_False by lia. done. }
  split_and!; [done|done| |].
  - eapply same_outside_sub; [|apply Hm]. unfold own. clear. set_solver.
  - destruct Hr as [[-> ->]|(-> & _)]; [left|by right]. split; [done|]. exact He.
Qed.

Lemma kfits_ext rs f g :
  Forall region_ok rs -> (forall k, 0 <= k < NPAGES -> f k = g k) -> kfits rs f -> kfits rs g.
Proof.
  revert f g. induction rs as [|[[[v ps] pe] perm] rs IH]; intros f g Hok Hfg; [done|].
  apply Forall_cons in Hok as [(Hv & Hkb & Hsz & Hpos & Hend & _) Hok]. intros [Hfr Hfit]. split.
  - intros k Hk. rewrite <- Hfg; [by apply Hfr|].
    pose proof (Z.div_mod v PGSIZE). pose proof (Z.div_mod (u32 (pe - ps)) PGSIZE).
    unfold NPAGES, KERNBASE, PGSIZE in *. lia.
  - eapply IH; [done| |done]. intros k Hk. by apply mapped_ext, Hfg.
Qed.

(** [kmap_loop] makes all the regions, or frees the address space. *)
Lemma kmap_loop_run rs s l pg :
  uspace s l pg -> Forall region_ok rs -> kfits rs (entry (ram s) pg) ->
  exists r s' l', kmap_loop KMEM END rs pg s = Ret r s' /\ same_outside (l ++ own (ram s) pg) (ram s) (ram s') /\
    ((r = pg /\ uspace s' l' pg /\ l' ++ own (ram s') pg ≡ₚ l ++ own (ram s) pg /\
      forall k, 0 <= k < NPAGES -> entry (ram s') pg k = kview rs (entry (ram s) pg) k) \/
     (r = 0 /\ kinv s' l' /\ l' ≡ₚ l ++ own (ram s) pg)).
Proof.
  revert s l. induction rs as [|[[[v ps] pe] perm] rs IH]; intros s l Hs Hok Hfit; simpl.
  { exists pg, s, l. split; [done|]. split; [apply same_outside_refl|]. by left. }
  apply Forall_cons in Hok as [Hr Hok]. destruct Hfit as [Hfr Hfit].
  destruct (mappages_region s l pg v ps pe perm Hs Hr Hfr) as (r & s1 & l1 & E1 & Hu1 & Hp1 & Ho1 & Hcase).
  rewrite (bind_ret _ _ _ _ _ E1). destruct Hcase as [[-> He1]| ->]; simpl.
  - destruct (IH s1 l1 Hu1 Hok) as (r2 & s2 & l2 & E2 & Ho2 & Hcase2).
    { eapply kfits_ext; [done| |exact Hfit]. intros k Hk. symmetry. by apply He1. }
    exists r2, s2, l2. split; [done|]. split.
    { eapply same_outside_sub; [|exact (same_outside_trans _ _ _ _ _ Ho1 Ho2)].
      intros x. rewrite elem_of_app, Hp1. tauto. }
    rewrite Hp1 in Hcase2. destruct Hcase2 as [(-> & Hu2 & Hp2 & He2)|?]; [left|by right].
    split_and!; [done..|]. intros k Hk. rewrite He2 by done. by apply kview_ext.
  - destruct (freevm_run s1 l1 pg Hu1) as (s2 & l2 & E2 & Hk2 & Hp2 & Ho2). rewrite (bind_ret _ _ _ _ _ E2).
    exists 0, s2, l2. split; [done|]. split; [|right; by rewrite <- Hp1].
    eapply same_outside_sub; [|exact (same_outside_trans _ _ _ _ _ Ho1 Ho2)]. intros x. rewrite elem_of_app, Hp1. tauto.
Qed.

(** A new directory: a zero-filled page maps nothing. *)
Lemma new_directory s t l :
  kinv s (t :: l) -> exists s1, kalloc KMEM s = Ret t s1 /\ ram s1 = ram s /\ t <> 0 /\
    let s2 := set_ram (memset (ram s) t 0 PGSIZE) s1 in
    uspace s2 l t /\ own (ram s2) t = [t] /\ forall k, 0 <= k < NPAGES -> entry (ram s2) t k = None.
Proof.
  intros Hk. destruct (kalloc_run KMEM END END_above s (t :: l) Hk) as (s1 & E & Hk1 & Hr & _). simpl in E, Hk1.
  pose proof Hk as (_ & Hd & Hp & _). apply NoDup_cons in Hd as [Hnt Hd]. apply Forall_cons in Hp as [Hpt Hp].
  pose proof (page_bounds END END_above t Hpt). exists s1. split; [done|]. split; [done|]. split; [lia|]. intros s2.
  assert (forall i, 0 <= i < 1024 -> word (ram s2) t i = 0) as Hw.
  { intros i Hi. unfold word, s2. simpl. rewrite memset_spec by (unfold PGSIZE; lia).
    apply ldw_write_zero; rewrite ?Z2Nat.id; unfold PGSIZE; lia. }
  assert (forall k, 0 <= k < NPAGES -> entry (ram s2) t k = None) as He.
  { intros k Hk2. destruct (div_1024 k Hk2). apply entry_no_table. unfold tab_at. by rewrite Hw. }
  assert (own (ram s2) t = [t]) as Ho.
  { unfold own. rewrite no_frames, app_nil_r.
    - f_equal. destruct (tabs (ram s2) t) as [|x T] eqn:ET; [done|].
      assert (x ∈ tabs (ram s2) t) as Hx by (rewrite ET; left). apply elem_of_tabs in Hx as (i & Hi & Hx).
      unfold tab_at in Hx. by rewrite Hw in Hx.
    - intros k Hk2. apply He. rewrite UPAGES_val in *. unfold NPAGES. lia. }
  split_and!; [split|done|done].
  - apply (kinv_set_ram _ _ _ _ [t]); [done|rewrite Hr; apply same_outside_memset|by apply Forall_singleton|set_solver].
  - rewrite Ho. split; [apply Forall_app; split; [done|by apply Forall_singleton]|].
    apply NoDup_app. split; [done|]. split; [set_solver|apply NoDup_singleton].
Qed.

Context (DATA : Z).
Hypothesis DATA_link : DATA mod PGSIZE = 0 /\ KERNLINK < DATA < KERNBASE + PHYSTOP.

(** The kernel's mappings (vm.c), by page number: the I/O space, the kernel's
    text, its data and all physical memory, the devices. *)
Definition kernel_map (k : Z) : option Z :=
  let pa := k * PGSIZE - KERNBASE in
  if decide (KERNBASE <= k * PGSIZE < KERNLINK) then Some (Z.lor (Z.lor pa PTE_W) PTE_P)
  else if decide (KERNLINK <= k * PGSIZE < DATA) then Some (Z.lor pa PTE_P)
  else if decide (DATA <= k * PGSIZE < KERNBASE + PHYSTOP) then Some (Z.lor (Z.lor pa PTE_W) PTE_P)
  else if decide (DEVSPACE <= k * PGSIZE < 2 ^ 32) then Some (Z.lor (Z.lor (k * PGSIZE) PTE_W) PTE_P)
  else None.

(** The regions of [kmap] by page numbers. *)
Lemma kmap_sizes :
  exists d, DATA = d * PGSIZE /\ 2 ^ 19 + 256 < d < 2 ^ 19 + 57344 /\
    V2P KERNLINK = EXTMEM /\ V2P DATA = (d - 2 ^ 19) * PGSIZE /\
    u32 (EXTMEM - 0) = 256 * PGSIZE /\ u32 (V2P DATA - V2P KERNLINK) = (d - 2 ^ 19 - 256) * PGSIZE /\
    u32 (PHYSTOP - V2P DATA) = (2 ^ 19 + 57344 - d) * PGSIZE /\ u32 (0 - DEVSPACE) = 8192 * PGSIZE.
Proof.
  destruct DATA_link as [Hd Hr]. pose proof (Z.div_mod DATA PGSIZE) as Hdm. exists (DATA / PGSIZE).
  assert (DATA = DATA / PGSIZE * PGSIZE) as Ed by (unfold PGSIZE in *; lia). set (d := DATA / PGSIZE) in *.
  clearbody d. subst DATA. unfold KERNLINK, KERNBASE, EXTMEM, PHYSTOP, PGSIZE in *.
  assert (V2P (d * 4096) = (d - 2 ^ 19) * 4096) as -> by (unfold V2P; rewrite u32_small; unfold KERNBASE; lia).
  change (V2P (2147483648 + 1048576)) with 1048576.
  split_and!; try done; try lia; rewrite u32_small; lia.
Qed.

Lemma kmap_ok : Forall region_ok (kmap DATA).
Proof.
  destruct kmap_sizes as (d & Ed & Hd & H1 & H2 & H3 & H4 & H5 & H6). unfold kmap, region_ok.
  repeat apply Forall_cons_2; [..|apply Forall_nil_2]; rewrite ?H3, ?H4, ?H5, ?H6, ?H1, ?H2, ?Z.mod_mul by done;
    unfold KERNLINK, KERNBASE, EXTMEM, DEVSPACE, PTE_W, PGSIZE in *; split_and!; try done; try lia.
Qed.

Lemma mapping_small pa perm k0 k x :
  x = pa + (k - k0) * PGSIZE -> 0 <= x < 2 ^ 32 -> 0 <= perm < 2 ^ 32 -> mapping pa perm k0 k = Z.lor (Z.lor x perm) PTE_P.
Proof.
  intros -> Hx Hp. unfold mapping. rewrite (u32_small (_ + _)) by done. apply u32_small.
  repeat apply lor_below; unfold PTE_P; lia.
Qed.

Lemma kernel_map_view k : 0 <= k < NPAGES -> kview (kmap DATA) (fun _ => None) k = kernel_map k.
Proof.
  intros Hk. destruct kmap_sizes as (d & Ed & Hd & H1 & H2 & H3 & H4 & H5 & H6).
  cbn [kview kmap region_map]. rewrite H3, H4, H5, H6, !Z.div_mul by done. rewrite H1, H2.
  change (KERNBASE / PGSIZE) with (2 ^ 19). change (KERNLINK / PGSIZE) with (2 ^ 19 + 256). rewrite Ed, Z.div_mul by done.
  change (DEVSPACE / PGSIZE) with 1040384. unfold kernel_map, NPAGES in *. rewrite Ed.
  unfold mapped. unfold KERNLINK, KERNBASE, EXTMEM, PHYSTOP, DEVSPACE, PGSIZE in *.
  repeat case_decide; try lia; try done; f_equal; unfold PTE_W in *;
    (erewrite mapping_small; [rewrite ?Z.lor_0_r; reflexivity|unfold PGSIZE; lia|lia|lia]).
Qed.

Lemma kernel_map_user k : 0 <= k < UPAGES -> kernel_map k = None.
Proof.
  rewrite UPAGES_val. destruct DATA_link. unfold kernel_map, KERNLINK, KERNBASE, EXTMEM, DEVSPACE, PGSIZE in *.
  intros Hk. by repeat (rewrite decide_False by lia).
Qed.

Lemma kmap_fits : kfits (kmap DATA) (fun _ => None).
Proof.
  destruct kmap_sizes as (d & Ed & Hd & H1 & H2 & H3 & H4 & H5 & H6).
  cbn [kfits kmap region_map region_free]. rewrite H3, H4, H5, H6, !Z.div_mul by done. rewrite H1, H2.
  change (KERNBASE / PGSIZE) with (2 ^ 19). change (KERNLINK / PGSIZE) with (2 ^ 19 + 256). rewrite Ed, Z.div_mul by done.
  change (DEVSPACE / PGSIZE) with 1040384. unfold mapped.
  split_and!; [..|done]; intros k Hk; repeat (rewrite decide_False by lia); done.
Qed.

Lemma setupkvm_run s l :
  kinv s l ->
  exists r s' l', setupkvm KMEM END DATA s = Ret r s' /\ same_outside l (ram s) (ram s') /\
    ((r ∈ l /\ r <> 0 /\ uspace s' l' r /\ l' ++ own (ram s') r ≡ₚ l /\ frames (ram s') r = [] /\
      forall k, 0 <= k < NPAGES -> entry (ram s') r k = kernel_map k) \/
     (r = 0 /\ kinv s' l' /\ l' ≡ₚ l)).
Proof.
  intros Hk. unfold setupkvm. destruct l as [|t l].
  { destruct (kalloc_run KMEM END END_above s [] Hk) as (s1 & E & Hk1 & Hr & _). rewrite (bind_ret _ _ _ _ _ E). simpl.
    exists 0, s1, []. rewrite Hr. split; [done|]. split; [apply same_outside_refl|]. by right. }
  destruct (new_directory s t l Hk) as (s1 & E & Hr & Ht & Hu & Ho & He). rewrite (bind_ret _ _ _ _ _ E).
  replace (t =? 0) with false by lia. unfold memsetk. rewrite bind_modify, Hr.
  change (DEVSPACE <? P2V PHYSTOP) with false. cbv iota. set (s2 := set_ram _ s1) in *.
  assert (same_outside [t] (ram s) (ram s2)) as Ho2 by apply same_outside_memset. clearbody s2.
  destruct (kmap_loop_run (kmap DATA) s2 l t Hu kmap_ok) as (r & s3 & l3 & E3 & Ho3 & Hcase).
  { eapply kfits_ext; [apply kmap_ok| |apply kmap_fits]. intros k Hk2. by rewrite He. }
  rewrite Ho in *. exists r, s3, l3. split; [done|]. split.
  { eapply same_outside_sub; [|exact (same_outside_trans _ _ _ _ _ Ho2 Ho3)]. clear. set_solver. }
  assert (l ++ [t] ≡ₚ t :: l) as Hp by (rewrite Permutation_app_comm; done). rewrite Hp in Hcase.
  destruct Hcase as [(-> & Hu3 & Hp3 & He3)|?]; [left|by right].
  assert (forall k, 0 <= k < NPAGES -> entry (ram s3) t k = kernel_map k) as Hkm.
  { intros k Hk2. rewrite He3, <- kernel_map_view by done. by apply kview_ext. }
  split_and!; [left|done|done|done| |done].
  apply no_frames. intros k Hk2. rewrite Hkm by (rewrite UPAGES_val in *; unfold NPAGES; lia).
  by apply kernel_map_user.
Qed.

(** ** Copying *)

Lemma lor_odd_1 f : Z.odd f = true -> Z.lor f 1 = f.
Proof.
  intros Hf. apply Z.bits_inj'. intros n Hn. rewrite Z.lor_spec. destruct (decide (n = 0)) as [->|].
  - rewrite Z.bit0_odd, Hf. done.
  - rewrite (Z.bits_above_log2 1) by (simpl; lia). apply orb_false_r.
Qed.

(** Page [p] of memory [m'] holds what page [q] of [m] holds. *)
Definition same_page (m : mem) (q : Z) (m' : mem) (p : Z) : Prop :=
  forall off, 0 <= off < PGSIZE -> ld m' (p + off) = ld m (q + off).

(** The first [k] pages of [d] are copies of the pages of [pg]; the rest is the
    kernel's. *)
Definition copied (s : kmem) (l : list Z) (pg d k : Z) (s' : kmem) (l' : list Z) : Prop :=
  uspace s' l' d /\ l' ++ own (ram s') d ≡ₚ l /\ same_outside l (ram s) (ram s') /\
  forall j, 0 <= j < NPAGES ->
    if decide (j < k) then exists w p, entry (ram s) pg j = Some w /\ entry (ram s') d j = Some (Z.lor (V2P p) (PTE_FLAGS w)) /\
      p ∈ l /\ page p /\ same_page (ram s) (entry_page w) (ram s') p
    else entry (ram s') d j = kernel_map j.

Lemma same_page_outside ps m q m1 m2 p :
  same_outside ps m1 m2 -> Forall page ps -> page p -> p ∉ ps -> same_page m q m1 p -> same_page m q m2 p.
Proof.
  intros Hs Hp Hpp Hn H off Hoff. rewrite (same_outside_page END ps m1 m2 p); [by apply H|done|done|done|done|].
  unfold in_page. lia.
Qed.

Lemma same_page_memmove m p q : same_page m q (memmove m p q (Z.to_nat PGSIZE)) p.
Proof.
  intros off Hoff. rewrite memmove_eq, ld_write, length_read. rewrite Z2Nat.id by (unfold PGSIZE; lia).
  replace (_ && _) with true by (unfold PGSIZE in *; lia). rewrite read_lookup_total by (unfold PGSIZE in *; lia).
  f_equal. lia.
Qed.

Lemma flags_entry w : present w = true -> Z.odd (PTE_FLAGS w) = true /\ 0 <= PTE_FLAGS w < PGSIZE.
Proof.
  rewrite present_odd, PTE_FLAGS_mod. intros Hw. split; [|by apply Z.mod_pos_bound].
  rewrite <- Z.bit0_odd in *. change PGSIZE with (2 ^ 12). by rewrite Z.mod_pow2_bits_low by lia.
Qed.

Lemma entry_present m pg k w : entry m pg k = Some w -> present w = true /\ exists t, tab_at m pg (k / 1024) = Some t /\ word m t (k mod 1024) = w.
Proof.
  unfold entry. intros (t & Ht & Hw)%bind_Some. destruct (present (word m t (k mod 1024))) eqn:E; [|done].
  simplify_eq. eauto.
Qed.

(** A user page of another address space is not written. *)
Lemma parent_page s l pg m w k :
  uspace s l pg -> same_outside l (ram s) m -> 0 <= k < UPAGES -> entry (ram s) pg k = Some w ->
  same_page (ram s) (entry_page w) m (entry_page w).
Proof.
  intros Hs Ho Hk Hw off Hoff. destruct (uspace_frame s l pg k w Hs Hk Hw) as [Hp Hn]. destruct Hs as ((_ & _ & Hl & _) & _ & _).
  apply (same_outside_page END l _ _ (entry_page w)); [done|done|done|set_solver|]. unfold in_page. lia.
Qed.

Lemma same_page_trans m1 q m2 p m3 r : same_page m1 q m2 p -> same_page m2 p m3 r -> same_page m1 q m3 r.
Proof. intros H1 H2 off Hoff. rewrite H2, H1; done. Qed.

(** The turn of [copyuvm]'s loop that finds a page [t]. *)
Lemma copied_step s l pg d k s1 t l1 w :
  uspace s l pg -> copied s l pg d k s1 (t :: l1) -> 0 <= k < UPAGES -> entry (ram s) pg k = Some w ->
  exists s2, kalloc KMEM s1 = Ret t s2 /\ t <> 0 /\
    exists r s3 l3, mappages KMEM d (k * PGSIZE) PGSIZE (V2P t) (PTE_FLAGS w)
        (set_ram (memmove (ram s2) t (entry_page w) (Z.to_nat PGSIZE)) s2) = Ret r s3 /\
      uspace s3 l3 d /\ same_outside l (ram s) (ram s3) /\
      ((r = 0 /\ copied s l pg d (k + 1) s3 l3) \/
       (r = -1 /\ page t /\ (t ∉ l3 ++ own (ram s3) d) /\ t :: l3 ++ own (ram s3) d ≡ₚ l)).
Proof.
  intros Hs (G1 & G2 & G3 & G4) Hk Hw.
  destruct (take_page s1 t l1 d G1) as (s2 & E2 & Hr2 & Hpt & Hnt & Ht0 & Hset).
  exists s2. split; [done|]. split; [done|]. rewrite Hr2. set (m := memmove (ram s1) t (entry_page w) (Z.to_nat PGSIZE)).
  assert (same_outside [t] (ram s1) m) as Hsm.
  { unfold m. rewrite memmove_eq. apply same_outside_write; [lia|]. rewrite length_read. unfold PGSIZE. lia. }
  assert (same_page (ram s) (entry_page w) m t) as Hcp.
  { eapply same_page_trans; [by eapply parent_page|apply same_page_memmove]. }
  destruct (Hset m Hsm) as (Hu2 & Ho2 & Htb2 & He2). clear Hset. clearbody m.
  remember (set_ram m s2) as s2' eqn:Es. assert (m = ram s2') as Em by by subst. clear Es. subst m.
  assert (0 <= k < NPAGES) as HN by (rewrite UPAGES_val in *; unfold NPAGES; lia).
  destruct (entry_present _ _ _ _ Hw) as [Hpr _]. destruct (flags_entry w Hpr) as [Hodd Hfl].
  assert (entry (ram s2') d k = None) as Hek.
  { rewrite He2 by done. specialize (G4 k HN). rewrite decide_False in G4 by lia. by rewrite G4, kernel_map_user. }
  destruct (map_page s2' l1 d t k (PTE_FLAGS w) Hu2 Hpt) as (r & s3 & l3 & E3 & Hm3 & Hu3 & Hcase); [by rewrite Ho2|done|done|done|].
  exists r, s3, l3. split; [done|]. split; [done|]. destruct Hm3 as [_ Ha3 Hl3 Ho3].
  assert (t :: l1 ++ own (ram s1) d ≡ₚ l) as Hl by done.
  assert (same_outside l (ram s) (ram s3)) as Hout.
  { eapply same_outside_sub; [|exact (same_outside_trans _ _ _ _ _ (same_outside_trans _ _ _ _ _ G3 Hsm) Ho3)].
    rewrite Htb2, <- Hl. unfold own. clear. set_solver. }
  split; [done|]. destruct Hcase as [(-> & Hp3 & He3)|(-> & Hp3 & He3)]; [left|right].
  - split; [done|]. pose proof (uspace_pages _ _ _ Hu2) as Hpp. split_and!; [done|by rewrite Hp3, Ho2|done|].
    intros j Hj. rewrite He3 by done. specialize (G4 j Hj). destruct (decide (j = k)) as [->|Hne].
    + rewrite decide_True by lia. exists w, t. rewrite lor_odd_1 by done. split_and!; [done|done|rewrite <- Hl; left|done|].
      apply (same_page_outside _ _ _ _ _ _ Ho3); [done|done| |done]. rewrite Htb2. unfold own in Hnt. clear -Hnt. set_solver.
    + destruct (decide (j < k)) as [Hr|Hr]; [rewrite decide_True by lia|rewrite decide_False by lia; by rewrite He2].
      destruct G4 as (w' & p & Hp0 & Hp1 & Hp2 & Hp3' & Hp4). exists w', p. rewrite He2 by done. split_and!; [done..|].
      destruct (entry_present _ _ _ _ Hp0) as [Hpr' _]. destruct (flags_entry w' Hpr') as [_ Hfl'].
      destruct (uspace_frame s1 (t :: l1) d j _ G1 ltac:(lia) Hp1) as [_ Hnp]. rewrite entry_page_lor in Hnp by done.
      apply (same_page_outside _ _ _ _ _ _ Ho3); [done|done|rewrite Htb2; clear -Hnp; set_solver|].
      apply (same_page_outside _ _ _ _ _ _ Hsm); [by apply Forall_singleton|done|clear -Hnp; set_solver|done].
  - split_and!; [done|done|rewrite Hp3, Ho2; done|]. rewrite Hp3, Ho2. done.
Qed.

(** The child has copies of the parent's pages, or all pages are free again. *)
Definition copy_result (s : kmem) (l : list Z) (pg n r : Z) (s' : kmem) (l' : list Z) : Prop :=
  (r ∈ l /\ r <> 0 /\ copied s l pg r n s' l') \/
  (r = 0 /\ kinv s' l' /\ l' ≡ₚ l /\ same_outside l (ram s) (ram s')).

(** Giving up: the child's address space is freed. *)
Lemma copy_failed s l pg n d s1 l1 :
  uspace s1 l1 d -> same_outside l (ram s) (ram s1) -> l1 ++ own (ram s1) d ≡ₚ l ->
  exists s' l', (freevm KMEM END d ;;; ret 0) s1 = Ret 0 s' /\ copy_result s l pg n 0 s' l'.
Proof.
  intros Hu Ho Hp. destruct (freevm_run s1 l1 d Hu) as (s2 & l2 & E2 & Hk2 & Hp2 & Ho2).
  exists s2, l2. rewrite (bind_ret _ _ _ _ _ E2). split; [done|]. right. rewrite Hp in Hp2. split_and!; [done..|].
  eapply same_outside_sub; [|exact (same_outside_trans _ _ _ _ _ Ho Ho2)]. intros x. rewrite elem_of_app, Hp. tauto.
Qed.

(** The parent's entry of page [k], looked up while only free pages are written. *)
Lemma parent_lookup s l pg k w s1 :
  uspace s l pg -> same_outside l (ram s) (ram s1) -> 0 <= k < UPAGES -> entry (ram s) pg k = Some w ->
  exists a, walkpgdir KMEM pg (k * PGSIZE) false s1 = Ret a s1 /\ a <> 0 /\ ldw (ram s1) a = w.
Proof.
  intros Hs Ho Hk Hw. destruct (entry_present _ _ _ _ Hw) as (_ & t & Ht & Hwt).
  assert (0 <= k < NPAGES) as HN by (rewrite UPAGES_val in *; unfold NPAGES; lia). destruct (div_1024 k HN) as [H1 H2].
  pose proof (uspace_vspace _ _ _ Hs) as [(_ & _ & Hlp & _) Htw]. destruct (twf_tab END END_above _ _ _ _ _ Htw H1 Ht) as (Hpt & _ & Hnl).
  pose proof (page_bounds END END_above t Hpt).
  assert (tab_at (ram s1) pg (k / 1024) = Some t) as Ht1.
  { rewrite <- Ht. unfold tab_at. rewrite (word_outside END l (ram s)); [done|done|done|by eapply twf_pg| |done].
    destruct Htw as [_ Htw]. apply NoDup_app in Htw as (_ & Htw & _). intros Hx. apply (Htw pg Hx). left. }
  exists (t + 4 * (k mod 1024)). rewrite walk_lookup by (rewrite UPAGES_val in *; unfold PGSIZE; lia).
  rewrite Z.div_mul, Ht1 by done. split; [done|]. split; [lia|]. rewrite <- Hwt. by apply (word_outside END l).
Qed.

Lemma copy_loop_run n s l pg d k s1 l1 sz :
  uspace s l pg -> copied s l pg d k s1 l1 -> d ∈ l -> d <> 0 -> 0 <= k <= upto sz -> sz <= KERNBASE ->
  upto sz <= k + Z.of_nat n -> (forall j, 0 <= j < upto sz -> is_Some (entry (ram s) pg j)) ->
  exists r s' l', copy_loop KMEM END n pg d sz (k * PGSIZE) s1 = Ret r s' /\ copy_result s l pg (upto sz) r s' l'.
Proof.
  intros Hs Hc Hd Hd0. revert k s1 l1 Hc. induction n as [|n IH]; intros k s1 l1 Hc Hk Hsz Hn He; cbn [copy_loop].
  { pose proof (upto_lt k sz). replace (sz <=? _) with true by lia. replace k with (upto sz) in * by lia.
    exists d, s1, l1. split; [done|]. by left. }
  destruct (sz <=? k * PGSIZE) eqn:Hlt; bsplit.
  { pose proof (upto_lt k sz). replace k with (upto sz) in * by lia. exists d, s1, l1. split; [done|]. by left. }
  apply upto_lt in Hlt. pose proof (upto_le sz Hsz) as Hu. destruct (He k) as [w Hw]; [lia|].
  pose proof Hc as (C1 & C2 & C3 & _). destruct (entry_present _ _ _ _ Hw) as [Hpr _].
  destruct (parent_lookup s l pg k w s1 Hs C3) as (a & Ea & Ha & Hwa); [lia|done|].
  rewrite (bind_ret _ _ _ _ _ Ea). replace (a =? 0) with false by lia. unfold ldk. rewrite bind_gets, Hwa, Hpr. cbn [negb].
  fold (entry_page w). destruct l1 as [|t l1].
  - pose proof C1 as (Hk1 & Hu1). destruct (kalloc_run KMEM END END_above s1 [] Hk1) as (s2 & E2 & Hk2 & Hr2 & _).
    rewrite (bind_ret _ _ _ _ _ E2). simpl.
    destruct (copy_failed s l pg (upto sz) d s2 []) as (s3 & l3 & E3 & H3); [unfold uspace; by rewrite Hr2|by rewrite Hr2|by rewrite Hr2|].
    exists 0, s3, l3. done.
  - destruct (copied_step s l pg d k s1 t l1 w Hs Hc) as (s2 & E2 & Ht0 & r & s3 & l3 & E3 & Hu3 & Ho3 & Hcase); [lia|done|].
    rewrite (bind_ret _ _ _ _ _ E2). replace (t =? 0) with false by lia. unfold memmovek. rewrite bind_modify, (bind_ret _ _ _ _ _ E3).
    destruct Hcase as [(-> & Hc3)|(-> & Hpt & Hnt & Hp3)]; simpl.
    + rewrite u32_small by (rewrite UPAGES_val in Hu; unfold PGSIZE; lia).
      replace (k * PGSIZE + PGSIZE) with ((k + 1) * PGSIZE) by lia. apply (IH (k + 1) s3 l3); try done; lia.
    + destruct (give_page s3 l3 d t Hu3 Hpt Hnt) as (s4 & E4 & Hu4 & Hown4 & _ & Ho4 & _). rewrite (bind_ret _ _ _ _ _ E4).
      destruct (copy_failed s l pg (upto sz) d s4 (t :: l3)) as (s5 & l5 & E5 & H5); [done| |by rewrite Hown4|by exists 0, s5, l5].
      eapply same_outside_sub; [|exact (same_outside_trans _ _ _ _ _ Ho3 Ho4)]. intros x. rewrite elem_of_app, list_elem_of_singleton.
      intros [?| ->]; [done|]. rewrite <- Hp3. left.
Qed.

(** C14: [copyuvm] makes a copy of an address space that shares nothing with it.
    If every page below [sz] is mapped, it either returns a new directory whose
    pages below [sz] are pages taken from the free list with the same contents
    and the same permissions as the parent's, whose other entries are exactly
    the kernel's, and which together with the new free list makes up the old
    one; or it returns 0 and the free list has the pages it had.  The parent's
    mappings do not change and only pages of the free list are written, also
    when memory runs out half way. *)
Theorem copyuvm_spec s l pg sz :
  uspace s l pg -> 0 <= sz <= KERNBASE -> (forall k, 0 <= k < upto sz -> is_Some (entry (ram s) pg k)) ->
  exists r s' l', copyuvm KMEM END DATA pg sz s = Ret r s' /\ same_outside l (ram s) (ram s') /\
    (forall k, 0 <= k < NPAGES -> entry (ram s') pg k = entry (ram s) pg k) /\
    ((r ∈ l /\ r <> 0 /\ uspace s' l' r /\ l' ++ own (ram s') r ≡ₚ l /\
      forall k, 0 <= k < NPAGES ->
        if decide (k < upto sz) then
          exists w p, entry (ram s) pg k = Some w /\ entry (ram s') r k = Some (Z.lor (V2P p) (PTE_FLAGS w)) /\
            p ∈ l /\ page p /\ same_page (ram s) (entry_page w) (ram s') p
        else entry (ram s') r k = kernel_map k) \/
     (r = 0 /\ kinv s' l' /\ l' ≡ₚ l)).
Proof.
  intros Hs Hsz He. pose proof (uspace_vspace _ _ _ Hs) as [Hk Htw]. pose proof Hk as (_ & _ & Hlp & _).
  assert (forall m, same_outside l (ram s) m -> forall k, 0 <= k < NPAGES -> entry m pg k = entry (ram s) pg k) as Hpar.
  { intros m Hm k Hkk. apply (entry_outside END END_above l _ _ l); [done|done|done| |done].
    destruct Htw as [_ Htw]. apply NoDup_app in Htw as (_ & Htw & _). done. }
  unfold copyuvm. destruct (setupkvm_run s l Hk) as (d & s1 & l1 & E1 & Ho1 & Hcase). rewrite (bind_ret _ _ _ _ _ E1).
  destruct Hcase as [(Hd & Hd0 & Hu1 & Hp1 & Hf1 & He1)|(-> & Hk1 & Hp1)]; cycle 1.
  { exists 0, s1, l1. split_and!; [done|done|by apply Hpar|by right]. }
  replace (d =? 0) with false by lia. pose proof (upto_fuel sz). assert (0 <= sz / PGSIZE) by (apply Z.div_pos; unfold PGSIZE; lia).
  assert (0 <= upto sz) by (apply Z.div_pos; unfold PGSIZE; lia).
  destruct (copy_loop_run (Z.to_nat (sz / PGSIZE + 2)) s l pg d 0 s1 l1 sz) as (r & s2 & l2 & E2 & Hr);
    [done| |done|done|lia|lia|lia|done|].
  { split_and!; [done|done|done|]. intros j Hj. rewrite decide_False by lia. by apply He1. }
  exists r, s2, l2. split; [done|]. destruct Hr as [(Hr & Hr0 & R1 & R2 & R3 & R4)|(-> & R1 & R2 & R3)].
  - split_and!; [done|by apply Hpar|]. left. done.
  - split_and!; [done|by apply Hpar|]. by right.
Qed.
End user.

(** ** A machine *)

(** The 80 pages below PHYSTOP are free, linked in order. *)
Definition DEMO_END : Z := KERNBASE + PHYSTOP - 80 * PGSIZE.
Definition DEMO_DATA : Z := KERNLINK + 16 * PGSIZE.
Definition demo_free : list Z := pages_from DEMO_END 80.

Fixpoint link (l : list Z) : mem :=
  match l with
  | [] => ∅
  | p :: l => stw (link l) p (hd 0 l)
  end.

Definition demo_mem : kmem := mkKmem (link demo_free) (mkLockst 1 (mkCpu 0 false false) ∅ ∅ 0) 1 DEMO_END.

Lemma demo_mem_inv : kinv 1 DEMO_END demo_mem demo_free.
Proof.
  split_and!.
  - vm_compute. repeat split.
  - apply NoDup_pages_from.
  - apply (bool_decide_unpack (Forall (fun v => v mod PGSIZE = 0 /\ DEMO_END <= v < KERNBASE + PHYSTOP) demo_free)). vm_compute. done.
  - unfold unlocked, cpu_ok. simpl. repeat split; lia || done.
Qed.

(** An empty address space on it, with the first page as directory. *)
Definition demo_space : kmem :=
  match kalloc 1 demo_mem with
  | Ret t s => set_ram (memset (ram demo_mem) t 0 PGSIZE) s
  | _ => demo_mem
  end.

Lemma demo_space_ok :
  uspace 1 DEMO_END demo_space (tail demo_free) DEMO_END /\
  forall k, 0 <= k < NPAGES -> entry (ram demo_space) DEMO_END k = None.
Proof.
  destruct (new_directory 1 DEMO_END ltac:(by vm_compute) demo_mem DEMO_END (tail demo_free) demo_mem_inv) as (s1 & E & _ & _ & Hu & _ & He).
  unfold demo_space. rewrite E. split; [exact Hu|exact He].
Qed.

Lemma allocuvm_spec_witness : exists r s' l',
  allocuvm 1 DEMO_END DEMO_END 0 5000 demo_space = Ret r s' /\
    uspace 1 DEMO_END s' l' DEMO_END /\ l' ++ own (ram s') DEMO_END ≡ₚ tail demo_free ++ own (ram demo_space) DEMO_END /\
    same_outside (tail demo_free ++ own (ram demo_space) DEMO_END) (ram demo_space) (ram s') /\
    (forall p a, p ∈ frames (ram demo_space) DEMO_END -> in_page p a -> ld (ram s') a = ld (ram demo_space) a) /\
    ((r = 5000 /\ forall k, 0 <= k < NPAGES ->
        if decide (upto 0 <= k < upto 5000)
        then exists p, entry (ram s') DEMO_END k = Some (Z.lor (V2P p) 7) /\ p ∈ tail demo_free /\ page DEMO_END p /\ zeroed (ram s') p
        else entry (ram s') DEMO_END k = entry (ram demo_space) DEMO_END k) \/
     (r = 0 /\ forall k, 0 <= k < NPAGES -> entry (ram s') DEMO_END k = entry (ram demo_space) DEMO_END k)).
Proof.
  apply (allocuvm_spec 1 DEMO_END); [by vm_compute|apply demo_space_ok|lia|by vm_compute|].
  intros k Hk. apply demo_space_ok. change (upto 0) with 0 in Hk. change (upto 5000) with 2 in Hk. unfold NPAGES. lia.
Defined.

Lemma freevm_returns_all_witness : exists s' l',
  freevm 1 DEMO_END DEMO_END demo_space = Ret () s' /\ kinv 1 DEMO_END s' l' /\
    l' ≡ₚ tail demo_free ++ own (ram demo_space) DEMO_END /\
    same_outside (tail demo_free ++ own (ram demo_space) DEMO_END) (ram demo_space) (ram s').
Proof. apply (freevm_returns_all 1 DEMO_END); [by vm_compute|apply demo_space_ok]. Defined.

(** The address space after growing it to one page: it is mapped. *)
Definition demo_grown : kmem :=
  match allocuvm 1 DEMO_END DEMO_END 0 PGSIZE demo_space with Ret _ s => s | _ => demo_space end.

Lemma demo_grown_ok : exists l,
  uspace 1 DEMO_END demo_grown l DEMO_END /\ is_Some (entry (ram demo_grown) DEMO_END 0).
Proof.
  assert (0 <= 0 < NPAGES) as H0 by (unfold NPAGES; lia). assert (upto 0 <= 0 < upto PGSIZE) as H1 by done.
  destruct demo_space_ok as [Hu He].
  destruct (alloc_loop_run 1 DEMO_END ltac:(by vm_compute) 2 demo_space (tail demo_free) DEMO_END 0 demo_space (tail demo_free) 0 PGSIZE)
    as (r & s' & l' & E & Hcase); [done|by apply grown_refl|done|done|done|done|done|intros j Hj; apply He; change (upto PGSIZE) with 1 in Hj; change (upto 0) with 0 in Hj; unfold NPAGES; lia|].
  assert (allocuvm 1 DEMO_END DEMO_END 0 PGSIZE demo_space = Ret r s') as E' by exact E.
  assert (r = PGSIZE) as ->.
  { assert (match allocuvm 1 DEMO_END DEMO_END 0 PGSIZE demo_space with Ret r _ => r | _ => 0 end = PGSIZE) as Er by by vm_compute.
    rewrite E' in Er. done. }
  unfold demo_grown. rewrite E'. destruct Hcase as [[_ Hg]|[Hf _]]; [|discriminate Hf].
  destruct Hg as (G1 & _ & _ & _ & _ & G6). exists l'. split; [exact G1|]. specialize (G6 0 H0).
  rewrite decide_True in G6 by exact H1. destruct G6 as (p & Hp & _). exists (Z.lor (V2P p) 7). exact Hp.
Qed.

Lemma copyuvm_spec_witness : exists l r s' l',
  copyuvm 1 DEMO_END DEMO_DATA DEMO_END PGSIZE demo_grown = Ret r s' /\ same_outside l (ram demo_grown) (ram s') /\
    (forall k, 0 <= k < NPAGES -> entry (ram s') DEMO_END k = entry (ram demo_grown) DEMO_END k) /\
    ((r ∈ l /\ r <> 0 /\ uspace 1 DEMO_END s' l' r /\ l' ++ own (ram s') r ≡ₚ l /\
      forall k, 0 <= k < NPAGES ->
        if decide (k < upto PGSIZE) then
          exists w p, entry (ram demo_grown) DEMO_END k = Some w /\ entry (ram s') r k = Some (Z.lor (V2P p) (PTE_FLAGS w)) /\
            p ∈ l /\ page DEMO_END p /\ same_page (ram demo_grown) (entry_page w) (ram s') p
        else entry (ram s') r k = kernel_map DEMO_DATA k) \/
     (r = 0 /\ kinv 1 DEMO_END s' l' /\ l' ≡ₚ l)).
Proof.
  destruct demo_grown_ok as (l & Hu & He). exists l.
  apply (copyuvm_spec 1 DEMO_END); [by vm_compute|by vm_compute|exact Hu|by vm_compute|].
  intros k Hk. change (upto PGSIZE) with 1 in Hk. by replace k with 0 by lia.
Defined.
