(* ===== verification/ProcData.v ===== *)
(** * Process data

    The types of proc.h and x86.h that the three process managers share
    (proc_MLFQ.c, proc_multiLevel.c and proc.c), and the interface through which
    they call the rest of the kernel. *)

From S2P Require Import Prelude CString Spinlock.
Open Scope Z_scope.

Definition NPROC : nat := 64.
Definition NOFILE : nat := 16.

Inductive procstate := UNUSED | EMBRYO | SLEEPING | RUNNABLE | RUNNING | ZOMBIE.
#[export] Instance procstate_eq_dec : EqDecision procstate.
Proof. solve_decision. Defined.

(** A sleep channel is an address: null, a [struct proc] (by its index in the
    table) or another kernel object. *)
Inductive channel := NoChan | ProcChan (i : nat) | AddrChan (a : Z).
#[export] Instance channel_eq_dec : EqDecision channel.
Proof. solve_decision. Defined.

(** The channel [&ptable.proc[i]], null for [None]. *)
Definition proc_chan (o : option nat) : channel := if o is Some i then ProcChan i else NoChan.

(** x86.h: the registers saved on a trap. *)
Record trapframe := mkTrapframe {
  tf_edi : Z; tf_esi : Z; tf_ebp : Z; tf_oesp : Z; tf_ebx : Z; tf_edx : Z; tf_ecx : Z; tf_eax : Z;
  tf_gs : Z; tf_fs : Z; tf_es : Z; tf_ds : Z; tf_trapno : Z;
  tf_err : Z; tf_eip : Z; tf_cs : Z; tf_eflags : Z; tf_esp : Z; tf_ss : Z }.

Definition zero_tf : trapframe := mkTrapframe 0 0 0 0 0 0 0 0 0 0 0 0 0 0 0 0 0 0 0.

Definition set_eax (v : Z) (t : trapframe) : trapframe :=
  mkTrapframe (tf_edi t) (tf_esi t) (tf_ebp t) (tf_oesp t) (tf_ebx t) (tf_edx t) (tf_ecx t) v
    (tf_gs t) (tf_fs t) (tf_es t) (tf_ds t) (tf_trapno t)
    (tf_err t) (tf_eip t) (tf_cs t) (tf_eflags t) (tf_esp t) (tf_ss t).

Definition set_eip_esp (ip sp : Z) (t : trapframe) : trapframe :=
  mkTrapframe (tf_edi t) (tf_esi t) (tf_ebp t) (tf_oesp t) (tf_ebx t) (tf_edx t) (tf_ecx t) (tf_eax t)
    (tf_gs t) (tf_fs t) (tf_es t) (tf_ds t) (tf_trapno t)
    (tf_err t) ip (tf_cs t) (tf_eflags t) sp (tf_ss t).

(** A saved kernel context: the point at which [swtch] will resume the process,
    and the [intena] that [sched] keeps across the switch. *)
Inductive resume := AtForkret | AtYield | AtSleep (lk : Z) | AtExit.
Record kcontext := mkContext { resume_at : resume; saved_intena : bool }.

(** proc.h *)
Record proc := mkProc {
  sz : Z; pgdir : Z; kstack : Z; state : procstate; pid : Z; parent : option nat; tf : trapframe; context : kcontext; chan : channel;
  killed : Z; ofile : list Z; cwd : Z; name : list Z; tid : Z; main : option nat; retval : Z; sbase : Z; priority : Z; level : nat; extime : Z }.

Definition no_proc : proc :=
  mkProc 0 0 0 UNUSED 0 None zero_tf (mkContext AtForkret false) NoChan 0 (replicate NOFILE 0) 0 []
    0 None 0 0 0 0 0.
#[export] Instance proc_inhabited : Inhabited proc := populate no_proc.

Definition set_sz (v : Z) (p : proc) : proc :=
  mkProc v (pgdir p) (kstack p) (state p) (pid p) (parent p) (tf p) (context p) (chan p) (killed p)
    (ofile p) (cwd p) (name p) (tid p) (main p) (retval p) (sbase p) (priority p) (level p) (extime p).
Definition set_pgdir (v : Z) (p : proc) : proc :=
  mkProc (sz p) v (kstack p) (state p) (pid p) (parent p) (tf p) (context p) (chan p) (killed p)
    (ofile p) (cwd p) (name p) (tid p) (main p) (retval p) (sbase p) (priority p) (level p) (extime p).
Definition set_kstack (v : Z) (p : proc) : proc :=
  mkProc (sz p) (pgdir p) v (state p) (pid p) (parent p) (tf p) (context p) (chan p) (killed p)
    (ofile p) (cwd p) (name p) (tid p) (main p) (retval p) (sbase p) (priority p) (level p) (extime p).
Definition set_state (v : procstate) (p : proc) : proc :=
  mkProc (sz p) (pgdir p) (kstack p) v (pid p) (parent p) (tf p) (context p) (chan p) (killed p)
    (ofile p) (cwd p) (name p) (tid p) (main p) (retval p) (sbase p) (priority p) (level p) (extime p).
Definition set_pid (v : Z) (p : proc) : proc :=
  mkProc (sz p) (pgdir p) (kstack p) (state p) v (parent p) (tf p) (context p) (chan p) (killed p)
    (ofile p) (cwd p) (name p) (tid p) (main p) (retval p) (sbase p) (priority p) (level p) (extime p).
Definition set_parent (v : option nat) (p : proc) : proc :=
  mkProc (sz p) (pgdir p) (kstack p) (state p) (pid p) v (tf p) (context p) (chan p) (killed p)
    (ofile p) (cwd p) (name p) (tid p) (main p) (retval p) (sbase p) (priority p) (level p) (extime p).
Definition set_tf (v : trapframe) (p : proc) : proc :=
  mkProc (sz p) (pgdir p) (kstack p) (state p) (pid p) (parent p) v (context p) (chan p) (killed p)
    (ofile p) (cwd p) (name p) (tid p) (main p) (retval p) (sbase p) (priority p) (level p) (extime p).
Definition set_context (v : kcontext) (p : proc) : proc :=
  mkProc (sz p) (pgdir p) (kstack p) (state p) (pid p) (parent p) (tf p) v (chan p) (killed p)
    (ofile p) (cwd p) (name p) (tid p) (main p) (retval p) (sbase p) (priority p) (level p) (extime p).
Definition set_chan (v : channel) (p : proc) : proc :=
  mkProc (sz p) (pgdir p) (kstack p) (state p) (pid p) (parent p) (tf p) (context p) v (killed p)
    (ofile p) (cwd p) (name p) (tid p) (main p) (retval p) (sbase p) (priority p) (level p) (extime p).
Definition set_killed (v : Z) (p : proc) : proc :=
  mkProc (sz p) (pgdir p) (kstack p) (state p) (pid p) (parent p) (tf p) (context p) (chan p) v
    (ofile p) (cwd p) (name p) (tid p) (main p) (retval p) (sbase p) (priority p) (level p) (extime p).
Definition set_ofile (v : list Z) (p : proc) : proc :=
  mkProc (sz p) (pgdir p) (kstack p) (state p) (pid p) (parent p) (tf p) (context p) (chan p) (killed p)
    v (cwd p) (name p) (tid p) (main p) (retval p) (sbase p) (priority p) (level p) (extime p).
Definition set_cwd (v : Z) (p : proc) : proc :=
  mkProc (sz p) (pgdir p) (kstack p) (state p) (pid p) (parent p) (tf p) (context p) (chan p) (killed p)
    (ofile p) v (name p) (tid p) (main p) (retval p) (sbase p) (priority p) (level p) (extime p).
Definition set_name (v : list Z) (p : proc) : proc :=
  mkProc (sz p) (pgdir p) (kstack p) (state p) (pid p) (parent p) (tf p) (context p) (chan p) (killed p)
    (ofile p) (cwd p) v (tid p) (main p) (retval p) (sbase p) (priority p) (level p) (extime p).
Definition set_tid (v : Z) (p : proc) : proc :=
  mkProc (sz p) (pgdir p) (kstack p) (state p) (pid p) (parent p) (tf p) (context p) (chan p) (killed p)
    (ofile p) (cwd p) (name p) v (main p) (retval p) (sbase p) (priority p) (level p) (extime p).
Definition set_main (v : option nat) (p : proc) : proc :=
  mkProc (sz p) (pgdir p) (kstack p) (state p) (pid p) (parent p) (tf p) (context p) (chan p) (killed p)
    (ofile p) (cwd p) (name p) (tid p) v (retval p) (sbase p) (priority p) (level p) (extime p).
Definition set_retval (v : Z) (p : proc) : proc :=
  mkProc (sz p) (pgdir p) (kstack p) (state p) (pid p) (parent p) (tf p) (context p) (chan p) (killed p)
    (ofile p) (cwd p) (name p) (tid p) (main p) v (sbase p) (priority p) (level p) (extime p).
Definition set_sbase (v : Z) (p : proc) : proc :=
  mkProc (sz p) (pgdir p) (kstack p) (state p) (pid p) (parent p) (tf p) (context p) (chan p) (killed p)
    (ofile p) (cwd p) (name p) (tid p) (main p) (retval p) v (priority p) (level p) (extime p).
Definition set_priority (v : Z) (p : proc) : proc :=
  mkProc (sz p) (pgdir p) (kstack p) (state p) (pid p) (parent p) (tf p) (context p) (chan p) (killed p)
    (ofile p) (cwd p) (name p) (tid p) (main p) (retval p) (sbase p) v (level p) (extime p).
Definition set_level (v : nat) (p : proc) : proc :=
  mkProc (sz p) (pgdir p) (kstack p) (state p) (pid p) (parent p) (tf p) (context p) (chan p) (killed p)
    (ofile p) (cwd p) (name p) (tid p) (main p) (retval p) (sbase p) (priority p) v (extime p).
Definition set_extime (v : Z) (p : proc) : proc :=
  mkProc (sz p) (pgdir p) (kstack p) (state p) (pid p) (parent p) (tf p) (context p) (chan p) (killed p)
    (ofile p) (cwd p) (name p) (tid p) (main p) (retval p) (sbase p) (priority p) (level p) v.

(** ** The rest of the kernel

    What the process managers call of the allocator (kalloc.c), of the page
    tables (vm.c), of the open files (file.c), the file system (fs.c, log.c).
    The calls act on a state [K] of their own; a result of 0 is a null pointer.
    [ustore a w] is a store of the word [w] through a pointer [a]. *)
Class KernelOps (K : Type) := {
  kalloc : M K Z;
  kfree : Z -> M K ();
  setupkvm : M K Z;
  inituvm : Z -> M K ();
  copyuvm : Z -> Z -> M K Z;
  freevm : Z -> M K ();
  allocuvm : Z -> Z -> Z -> M K Z;
  deallocuvm : Z -> Z -> Z -> M K Z;
  copyout : Z -> Z -> list Z -> M K Z;
  clearpteu : Z -> Z -> M K ();
  ustore : Z -> Z -> M K ();
  filedup : Z -> M K Z;
  fileclose : Z -> M K ();
  idup : Z -> M K Z;
  iput : Z -> M K ();
  begin_op : M K ();
  end_op : M K ();
  namei_root : M K Z;
  fs_init : M K () }.

(** [initcode] in the name of the first process. *)
Definition INITCODE : list Z := [105; 110; 105; 116; 99; 111; 100; 101].

(** [safestrcpy(dst, src, sizeof(p->name))] on the names, which are 16 bytes. *)
Definition copy_name (src : list Z) : list Z := take 15 src.

(** ** The machine a process manager runs on

    One CPU: its locks, the manager's process table [T], the rest of the kernel
    [K], and the static variable [first] of [forkret]. *)
Record kstate (T K : Type) := mkKstate { kl : lockst; pt : T; kern : K; first : bool }.
Arguments mkKstate {T K}. Arguments kl {T K}. Arguments pt {T K}.
Arguments kern {T K}. Arguments first {T K}.

Section machine.
Context {T K : Type}.

Definition lk {A} (c : M lockst A) : M (kstate T K) A :=
  lift kl (fun l s => mkKstate l (pt s) (kern s) (first s)) c.
Definition kcall {A} (c : M K A) : M (kstate T K) A :=
  lift kern (fun k s => mkKstate (kl s) (pt s) k (first s)) c.
Definition getp : M (kstate T K) T := gets pt.
Definition modp (f : T -> T) : M (kstate T K) () :=
  modify (fun s => mkKstate (kl s) (f (pt s)) (kern s) (first s)).

(** [switchuvm] up to the loading of the hardware registers. *)
Definition switchuvm (p : proc) : M (kstate T K) () :=
  if kstack p =? 0 then panic "switchuvm: no kstack"
  else if pgdir p =? 0 then panic "switchuvm: no pgdir"
  else lk pushcli ;;; lk popcli.

(** The table is [t]. *)
Definition table_is (t : T) (s : kstate T K) : Prop := pt s = t.

Lemma triple_lk {A} t (c : M lockst A) (B : kstate T K -> Prop) :
  (forall s, table_is t s -> B s) -> triple (table_is t) (lk c) (fun _ => table_is t) B.
Proof.
  intros HB s Hs. unfold lk, lift. destruct (c (kl s)); [done..|]. apply HB. exact Hs.
Qed.

Lemma triple_kcall {A} t (c : M K A) (B : kstate T K -> Prop) :
  (forall s, table_is t s -> B s) -> triple (table_is t) (kcall c) (fun _ => table_is t) B.
Proof.
  intros HB s Hs. unfold kcall, lift. destruct (c (kern s)); [done..|]. apply HB. exact Hs.
Qed.

Lemma triple_getp {A} t (k : T -> M (kstate T K) A) Q B :
  triple (table_is t) (k t) Q B -> triple (table_is t) (bind getp k) Q B.
Proof. intros H s Hs. unfold bind, getp, gets. rewrite Hs. by apply H. Qed.

Lemma triple_modp {A} t f (k : () -> M (kstate T K) A) Q B :
  triple (table_is (f t)) (k ()) Q B -> triple (table_is t) (bind (modp f) k) Q B.
Proof. intros H s Hs. unfold bind, modp, modify. apply H. unfold table_is in *. simpl. by rewrite Hs. Qed.

Lemma triple_switchuvm t p (B : kstate T K -> Prop) :
  (forall s, table_is t s -> B s) -> triple (table_is t) (switchuvm p) (fun _ => table_is t) B.
Proof.
  intros HB. unfold switchuvm. repeat case_match; try apply triple_panic.
  eapply triple_bind; [by apply triple_lk|]. intros []. by apply triple_lk.
Qed.
End machine.


(** ** Keeping a property of the table

    [keeps J c]: wherever [c] returns or gives up the CPU, [J] still holds of
    the table. *)
Section keeps.
Context {T K : Type} (J : T -> Prop).
Local Abbreviation KS := (kstate T K).

Definition on_table (s : KS) : Prop := J (pt s).
Definition keeps {A} (c : M KS A) : Prop := triple on_table c (fun _ => on_table) on_table.

Lemma keeps_bind {A B} (c : M KS A) (k : A -> M KS B) :
  keeps c -> (forall a, keeps (k a)) -> keeps (bind c k).
Proof. intros Hc Hk. by eapply triple_bind. Qed.

Lemma keeps_ret {A} (a : A) : keeps (ret a).
Proof. by apply triple_ret. Qed.

Lemma keeps_sleeps {A} : keeps (sleeps : M KS A).
Proof. by intros s Hs. Qed.

Lemma keeps_panic {A} msg : keeps (panic msg : M KS A).
Proof. apply triple_panic. Qed.

Lemma keeps_lk {A} (c : M lockst A) : keeps (lk c).
Proof. intros s Hs. unfold lk, lift. by destruct (c (kl s)). Qed.

Lemma keeps_kcall {A} (c : M K A) : keeps (kcall c).
Proof. intros s Hs. unfold kcall, lift. by destruct (c (kern s)). Qed.

Lemma keeps_modp f : (forall t, J t -> J (f t)) -> keeps (modp f).
Proof. intros Hf s Hs. by apply Hf. Qed.

Lemma keeps_when b (c : M KS ()) : (b = true -> keeps c) -> keeps (when b c).
Proof. intros. destruct b; [auto|apply keeps_ret]. Qed.

Lemma keeps_for_each {A} (l : list A) (body : A -> M KS ()) :
  (forall x, keeps (body x)) -> keeps (for_each l body).
Proof. intros Hb. induction l; simpl; [apply keeps_ret|by apply keeps_bind]. Qed.

Lemma keeps_switchuvm p : keeps (switchuvm p).
Proof.
  unfold switchuvm. repeat case_match; try apply keeps_panic.
  apply keeps_bind; [apply keeps_lk|]. intros. apply keeps_lk.
Qed.

(** From a table known to be [t]. *)
Definition keeps_from {A} (t : T) (c : M KS A) : Prop :=
  triple (table_is t) c (fun _ => on_table) on_table.

Lemma keeps_getp {A} (k : T -> M KS A) : (forall t, J t -> keeps_from t (k t)) -> keeps (bind getp k).
Proof. intros Hk s Hs. unfold bind, getp, gets. by apply (Hk (pt s) Hs). Qed.

Lemma on_table_getp {A} (k : T -> M KS A) Q B :
  (forall t, J t -> triple (table_is t) (k t) Q B) -> triple on_table (bind getp k) Q B.
Proof. intros Hk s Hs. unfold bind, getp, gets. by apply (Hk (pt s) Hs). Qed.

Lemma is_on t s : J t -> table_is t s -> on_table s.
Proof. unfold on_table. by intros ? ->. Qed.

Lemma keeps_from_keeps {A} t (c : M KS A) : J t -> keeps c -> keeps_from t c.
Proof. intros Ht Hc s Hs. apply Hc. unfold on_table. by rewrite Hs. Qed.

Lemma from_modp {A} t f (k : () -> M KS A) : keeps_from (f t) (k ()) -> keeps_from t (bind (modp f) k).
Proof. intros. by apply triple_modp. Qed.

Lemma from_modp_last t f : J (f t) -> keeps_from t (modp f).
Proof. intros Hf s Hs. unfold modp, modify, on_table. simpl. by rewrite Hs. Qed.

Lemma from_getp {A} t (k : T -> M KS A) : keeps_from t (k t) -> keeps_from t (bind getp k).
Proof. intros. by apply triple_getp. Qed.

Lemma from_lk {A B} t (c : M lockst A) (k : A -> M KS B) :
  J t -> (forall a, keeps_from t (k a)) -> keeps_from t (bind (lk c) k).
Proof.
  intros Ht Hk. eapply triple_bind; [apply triple_lk|done]. intros s Hs. unfold on_table. by rewrite Hs.
Qed.

Lemma from_kcall {A B} t (c : M K A) (k : A -> M KS B) :
  J t -> (forall a, keeps_from t (k a)) -> keeps_from t (bind (kcall c) k).
Proof.
  intros Ht Hk. eapply triple_bind; [apply triple_kcall|done]. intros s Hs. unfold on_table. by rewrite Hs.
Qed.

Lemma from_bind {A B} t (c : M KS A) (k : A -> M KS B) :
  keeps_from t c -> (forall a, keeps (k a)) -> keeps_from t (bind c k).
Proof. intros Hc Hk. by eapply triple_bind. Qed.

Lemma from_panic {A} t msg : keeps_from t (panic msg : M KS A).
Proof. apply triple_panic. Qed.
End keeps.

#[export] Hint Resolve keeps_ret keeps_sleeps keeps_panic keeps_lk keeps_kcall keeps_switchuvm from_panic : kernel.

(** Walk a routine whose table is known at each point. *)
Ltac tstep :=
  lazymatch goal with
  | |- triple _ (bind (lk _) _) _ _ => eapply triple_bind; [apply triple_lk | intros ?]
  | |- triple _ (bind (kcall _) _) _ _ => eapply triple_bind; [apply triple_kcall | intros ?]
  | |- triple _ (bind (switchuvm _) _) _ _ => eapply triple_bind; [apply triple_switchuvm | intros ?]
  | |- triple _ (bind getp _) _ _ => apply triple_getp
  | |- triple _ (bind (modp _) _) _ _ => apply triple_modp
  | |- triple _ (panic _) _ _ => apply triple_panic
  | |- triple _ (ret _) _ _ => apply triple_ret; intros ? ?; eapply is_on; [|eassumption]
  | |- triple _ (let _ := _ in _) _ _ => cbv zeta
  | |- triple _ (if ?b then _ else _) _ _ => destruct b eqn:?
  | |- triple _ (match ?o with Some _ => _ | None => _ end) _ _ => destruct o eqn:?
  end.

(** Walk a routine, leaving the table changes it makes. *)
Ltac kstep :=
  lazymatch goal with
  | |- forall _, _ => intros ?
  | |- keeps _ (bind getp _) => apply keeps_getp; intros ? ?
  | |- keeps_from _ _ _ => apply keeps_from_keeps; [assumption|]
  | |- keeps _ (bind (if ?b then _ else _) _) => destruct b eqn:?
  | |- keeps _ (bind _ _) => apply keeps_bind
  | |- keeps _ (for_each _ _) => apply keeps_for_each; intros ?
  | |- keeps _ (when _ _) => apply keeps_when; intros ?
  | |- keeps _ (let _ := _ in _) => cbv zeta
  | |- keeps _ (match ?o with Some _ => _ | None => _ end) => destruct o as [?|] eqn:?
  | |- keeps _ (if ?b then _ else _) => destruct b eqn:?
  | |- keeps _ (modp _) => apply keeps_modp; intros ? ?
  | |- keeps _ _ => solve [auto with kernel]
  end.

(** ** Taking and releasing a lock in a known state *)
Section locked.
Context {T K : Type}.
Implicit Types s : kstate T K.

Definition with_kl (l : lockst) (s : kstate T K) : kstate T K := mkKstate l (pt s) (kern s) (first s).

Lemma lk_acquire a s :
  unlocked a (kl s) -> exists l, lk (acquire a) s = Ret () (with_kl l s) /\ locked_by a l /\
    (forall b, b <> a -> lock_at l b = lock_at (kl s) b) /\ ncli (mycpu l) = ncli (mycpu (kl s)) + 1.
Proof. intros (l & E & ?)%acquire_unlocked. exists l. unfold lk, lift. by rewrite E. Qed.

Lemma lk_release a s :
  locked_by a (kl s) -> exists l, lk (release a) s = Ret () (with_kl l s) /\ unlocked a l /\
    (forall b, b <> a -> lock_at l b = lock_at (kl s) b).
Proof. intros (l & E & ?)%release_locked. exists l. unfold lk, lift. by rewrite E. Qed.
End locked.
