(* ===== verification/Mlfq.v ===== *)
(** * The multi-level feedback queue

    proc_MLFQ.c: the process table with its [heads] and [numproc] arrays, every
    operation on it, the scheduler's search for the next process, and the timer
    part of trap.c that drives it.

    [MLFQ_K] is the number of queues (a build-time macro), [PTLOCK] and
    [TICKSLOCK] the addresses of the two locks.  Pointers into the table are
    indices.  A routine that ends in [swtch] to the scheduler is [Blocked]; what
    it does when it is switched back to is [resume_proc]. *)

From S2P Require Import Prelude CString Spinlock ProcData.
Open Scope Z_scope.

(** [ptable] with the globals of proc_MLFQ.c, [c->proc] of the CPU, and
    [ticks] of trap.c. *)
Record ptable := mkPtable {
  procs : list proc; heads : list (option nat); numproc : list Z;
  nextpid : Z; initproc : option nat; cproc : option nat; ticks : Z }.

Definition set_procs (v : list proc) (t : ptable) : ptable :=
  mkPtable v (heads t) (numproc t) (nextpid t) (initproc t) (cproc t) (ticks t).
Definition set_heads (v : list (option nat)) (t : ptable) : ptable :=
  mkPtable (procs t) v (numproc t) (nextpid t) (initproc t) (cproc t) (ticks t).
Definition set_numproc (v : list Z) (t : ptable) : ptable :=
  mkPtable (procs t) (heads t) v (nextpid t) (initproc t) (cproc t) (ticks t).
Definition set_nextpid (v : Z) (t : ptable) : ptable :=
  mkPtable (procs t) (heads t) (numproc t) v (initproc t) (cproc t) (ticks t).
Definition set_initproc (v : option nat) (t : ptable) : ptable :=
  mkPtable (procs t) (heads t) (numproc t) (nextpid t) v (cproc t) (ticks t).
Definition set_cproc (v : option nat) (t : ptable) : ptable :=
  mkPtable (procs t) (heads t) (numproc t) (nextpid t) (initproc t) v (ticks t).
Definition set_ticks (v : Z) (t : ptable) : ptable :=
  mkPtable (procs t) (heads t) (numproc t) (nextpid t) (initproc t) (cproc t) v.

(** [ptable.proc[i]], an assignment to its fields, and [numproc[l] += d]. *)
Definition P (t : ptable) (i : nat) : proc := procs t !!! i.
Definition upd (i : nat) (f : proc -> proc) (t : ptable) : ptable := set_procs (alter f i (procs t)) t.
Definition incr (l : nat) (d : Z) (t : ptable) : ptable :=
  set_numproc (alter (fun x => x + d) l (numproc t)) t.

(** [p->state = RUNNABLE; ptable.numproc[p->level]++;] *)
Definition make_runnable (i : nat) (t : ptable) : ptable :=
  let t := upd i (set_state RUNNABLE) t in
  incr (level (P t i)) 1 t.

(** The channel [&ticks]. *)
Definition TICKS : channel := AddrChan 1.

(** QT(LEVEL): the ticks a process may run at a level. *)
Definition QT (l : nat) : Z := 4 * Z.of_nat l + 2.

(** [wakeup1], over the table's slots in order. *)
Definition wakeup1 (c : channel) (t : ptable) : ptable :=
  foldl (fun t i =>
    if bool_decide (state (P t i) = SLEEPING /\ chan (P t i) = c) then make_runnable i t else t)
    t (seq 0 NPROC).

(** The loop of [exit] that passes abandoned children to init. *)
Definition reparent (cur : nat) (t : ptable) : ptable :=
  foldl (fun t i =>
    if bool_decide (parent (P t i) = Some cur) then
      let t := upd i (set_parent (initproc t)) t in
      if bool_decide (state (P t i) = ZOMBIE) then wakeup1 (proc_chan (initproc t)) t else t
    else t)
    t (seq 0 NPROC).

(** The loop of [boost]. *)
Definition boost_all (t : ptable) : ptable :=
  foldl (fun t i =>
    if bool_decide (state (P t i) <> UNUSED) then
      let t := if bool_decide (state (P t i) = RUNNABLE)
               then incr 0 1 (incr (level (P t i)) (-1) t) else t in
      upd i (set_extime 0) (upd i (set_level 0) t)
    else t)
    t (seq 0 NPROC).

Section Mlfq.
Context (MLFQ_K : nat) (PTLOCK TICKSLOCK : Z) {K : Type} `{!KernelOps K}.
Local Abbreviation KS := (kstate ptable K).
Local Abbreviation acquire_pt := (lk (acquire PTLOCK)).
Local Abbreviation release_pt := (lk (release PTLOCK)).

Definition pinit : M KS () :=
  modp (set_heads (replicate MLFQ_K None)) ;;;
  modp (set_numproc (replicate MLFQ_K 0)) ;;;
  lk (modify (set_lock PTLOCK initlock)).

(** A null [myproc()] is dereferenced by most callers: a fault in the kernel. *)
Definition myproc : M KS nat :=
  let* t := getp in
  if cproc t is Some i then ret i else panic "trap".

Definition allocproc : M KS (option nat) :=
  acquire_pt ;;;
  let* t := getp in
  match list_find (fun p => state p = UNUSED) (procs t) with
  | None => release_pt ;;; ret None
  | Some (i, _) =>
      modp (upd i (set_state EMBRYO)) ;;;
      modp (fun t => set_nextpid (nextpid t + 1) (upd i (set_pid (nextpid t)) t)) ;;;
      modp (upd i (set_priority 0)) ;;;
      modp (upd i (set_extime 0)) ;;;
      modp (upd i (set_level 0)) ;;;
      release_pt ;;;
      let* stk := kcall kalloc in
      modp (upd i (set_kstack stk)) ;;;
      if stk =? 0 then modp (upd i (set_state UNUSED)) ;;; ret None
      else modp (upd i (set_context (mkContext AtForkret false))) ;;; ret (Some i)
  end.

Definition userinit : M KS () :=
  let* p := allocproc in
  modp (set_initproc p) ;;;
  match p with
  | None => panic "trap"
  | Some i =>
      let* pg := kcall setupkvm in
      modp (upd i (set_pgdir pg)) ;;;
      if pg =? 0 then panic "userinit: out of memory?"
      else
        kcall (inituvm pg) ;;;
        modp (upd i (set_sz PGSIZE)) ;;;
        modp (upd i (set_tf (mkTrapframe 0 0 0 0 0 0 0 0 0 0 35 35 0 0 0 27 512 PGSIZE 35))) ;;;
        modp (upd i (set_name (copy_name INITCODE))) ;;;
        let* root := kcall namei_root in
        modp (upd i (set_cwd root)) ;;;
        acquire_pt ;;;
        modp (make_runnable i) ;;;
        release_pt
  end.

Definition growproc (n : Z) : M KS Z :=
  let* cur := myproc in
  let* t := getp in
  let p := P t cur in
  let finish s :=
    modp (upd cur (set_sz s)) ;;;
    let* t := getp in
    switchuvm (P t cur) ;;; ret 0 in
  if 0 <? n then
    let* s := kcall (allocuvm (pgdir p) (sz p) (u32 (sz p + n))) in
    if s =? 0 then ret (-1) else finish s
  else if n <? 0 then
    let* s := kcall (deallocuvm (pgdir p) (sz p) (u32 (sz p + n))) in
    if s =? 0 then ret (-1) else finish s
  else finish (sz p).

(** The file descriptors a child inherits. *)
Definition dup_files (cur np : nat) : M KS () :=
  for_each (seq 0 NOFILE) (fun fd =>
    let* t := getp in
    let f := ofile (P t cur) !!! fd in
    when (nz f) (
      let* f' := kcall (filedup f) in
      modp (upd np (fun p => set_ofile (<[fd := f']> (ofile p)) p)))).

Definition fork : M KS Z :=
  let* cur := myproc in
  let* r := allocproc in
  match r with
  | None => ret (-1)
  | Some np =>
      let* t := getp in
      let* pg := kcall (copyuvm (pgdir (P t cur)) (sz (P t cur))) in
      modp (upd np (set_pgdir pg)) ;;;
      if pg =? 0 then
        let* t := getp in
        kcall (kfree (kstack (P t np))) ;;;
        modp (upd np (set_kstack 0)) ;;;
        modp (upd np (set_state UNUSED)) ;;;
        ret (-1)
      else
        modp (upd np (set_sz (sz (P t cur)))) ;;;
        modp (upd np (set_parent (Some cur))) ;;;
        modp (upd np (set_tf (tf (P t cur)))) ;;;
        modp (upd np (fun p => set_tf (set_eax 0 (tf p)) p)) ;;;
        dup_files cur np ;;;
        let* d := kcall (idup (cwd (P t cur))) in
        modp (upd np (set_cwd d)) ;;;
        modp (upd np (set_name (copy_name (name (P t cur))))) ;;;
        let* t := getp in
        let pid := pid (P t np) in
        acquire_pt ;;;
        modp (make_runnable np) ;;;
        release_pt ;;;
        ret pid
  end.

(** [sched], with the point at which the caller resumes. *)
Definition sched (r : resume) : M KS () :=
  let* cur := myproc in
  let* h := lk (holding PTLOCK) in
  if negb h then panic "sched ptable.lock"
  else
    let* c := lk (gets mycpu) in
    if negb (ncli c =? 1) then panic "sched locks"
    else
      let* t := getp in
      if bool_decide (state (P t cur) = RUNNING) then panic "sched running"
      else if IF c then panic "sched interruptible"
      else
        modp (upd cur (set_context (mkContext r (intena c)))) ;;;
        sleeps.

Definition yield : M KS () :=
  acquire_pt ;;;
  let* cur := myproc in
  modp (make_runnable cur) ;;;
  sched AtYield.

Definition sleep (c : channel) (lock : Z) : M KS () :=
  let* t := getp in
  match cproc t with
  | None => panic "sleep"
  | Some cur =>
      if lock =? 0 then panic "sleep without lk"
      else
        when (negb (lock =? PTLOCK)) (acquire_pt ;;; lk (release lock)) ;;;
        modp (upd cur (set_chan c)) ;;;
        modp (upd cur (set_state SLEEPING)) ;;;
        sched (AtSleep lock)
  end.

Definition wakeup (c : channel) : M KS () :=
  acquire_pt ;;;
  modp (wakeup1 c) ;;;
  release_pt.

Definition close_files (cur : nat) : M KS () :=
  for_each (seq 0 NOFILE) (fun fd =>
    let* t := getp in
    let f := ofile (P t cur) !!! fd in
    when (nz f) (
      kcall (fileclose f) ;;;
      modp (upd cur (fun p => set_ofile (<[fd := 0]> (ofile p)) p)))).

Definition exit : M KS () :=
  let* cur := myproc in
  let* t := getp in
  if bool_decide (Some cur = initproc t) then panic "init exiting"
  else
    close_files cur ;;;
    kcall begin_op ;;;
    let* t := getp in
    kcall (iput (cwd (P t cur))) ;;;
    kcall end_op ;;;
    modp (upd cur (set_cwd 0)) ;;;
    acquire_pt ;;;
    modp (fun t => wakeup1 (proc_chan (parent (P t cur))) t) ;;;
    modp (reparent cur) ;;;
    modp (upd cur (set_state ZOMBIE)) ;;;
    sched AtExit.

(** One pass over the table; with children but no zombie the caller sleeps and
    starts over when it is woken. *)
Definition wait_loop : M KS Z :=
  let* cur := myproc in
  let* t := getp in
  match list_find (fun p => parent p = Some cur /\ state p = ZOMBIE) (procs t) with
  | Some (i, p) =>
      kcall (kfree (kstack p)) ;;;
      modp (upd i (set_kstack 0)) ;;;
      kcall (freevm (pgdir p)) ;;;
      modp (upd i (set_pid 0)) ;;;
      modp (upd i (set_parent None)) ;;;
      modp (upd i (set_name [])) ;;;
      modp (upd i (set_killed 0)) ;;;
      modp (upd i (set_state UNUSED)) ;;;
      release_pt ;;;
      ret (pid p)
  | None =>
      let havekids := existsb (fun p => bool_decide (parent p = Some cur)) (procs t) in
      if negb havekids || nz (killed (P t cur)) then release_pt ;;; ret (-1)
      else sleep (ProcChan cur) PTLOCK ;;; ret (-1)
  end.

Definition wait : M KS Z := acquire_pt ;;; wait_loop.

Definition degrade : M KS () :=
  acquire_pt ;;;
  let* t := getp in
  match cproc t with
  | None => release_pt
  | Some p =>
      modp (upd p (fun q => set_extime (extime q + 1) q)) ;;;
      let* t := getp in
      let l := level (P t p) in
      if negb (bool_decide (heads t !!! l = Some p)) then panic "degrade"
      else
        when (QT l <=? extime (P t p)) (
          modp (fun t => set_heads (<[l := None]> (heads t)) t) ;;;
          if bool_decide (l = MLFQ_K - 1)%nat then modp (upd p (set_extime (-1)))
          else
            when (bool_decide (state (P t p) = RUNNABLE))
              (modp (incr l (-1)) ;;; modp (incr (l + 1) 1)) ;;;
            modp (upd p (set_extime 0)) ;;;
            modp (upd p (fun q => set_level (level q + 1) q))) ;;;
        release_pt
  end.

Definition boost : M KS () :=
  acquire_pt ;;;
  modp boost_all ;;;
  release_pt.

Definition rst : M KS () :=
  acquire_pt ;;;
  let* p := myproc in
  let* t := getp in
  when (bool_decide (state (P t p) = RUNNABLE))
    (modp (incr (level (P t p)) (-1)) ;;; modp (incr 0 1)) ;;;
  modp (upd p (set_level 0)) ;;;
  modp (upd p (set_extime 0)) ;;;
  release_pt.

Definition kill (pd : Z) : M KS Z :=
  acquire_pt ;;;
  let* t := getp in
  match list_find (fun p => pid p = pd) (procs t) with
  | Some (i, p) =>
      modp (upd i (set_killed 1)) ;;;
      when (bool_decide (state p = SLEEPING)) (modp (make_runnable i)) ;;;
      release_pt ;;;
      ret 0
  | None => release_pt ;;; ret (-1)
  end.

Definition getlev : M KS Z :=
  let* p := myproc in
  let* t := getp in
  ret (Z.of_nat (level (P t p))).

Definition setpriority (pd prio : Z) : M KS Z :=
  if (prio <? 0) || (10 <? prio) then ret (-2)
  else
    let* cur := myproc in
    acquire_pt ;;;
    let* t := getp in
    match list_find (fun p => state p <> UNUSED /\ parent p = Some cur /\ pid p = pd) (procs t) with
    | Some (i, _) => modp (upd i (set_priority prio)) ;;; release_pt ;;; ret 0
    | None => release_pt ;;; ret (-1)
    end.

(** sysproc.c *)
Definition sys_yield : M KS Z := rst ;;; yield ;;; ret 0.

(** [sys_sleep] after [argint]; [ticks0] is the tick count at the call.  The
    comparison is unsigned.  A caller that sleeps comes back to the loop. *)
Definition sys_sleep_loop (n ticks0 : Z) : M KS Z :=
  let* t := getp in
  if u32 (ticks t - ticks0) <? u32 n then
    let* cur := myproc in
    let* t := getp in
    if nz (killed (P t cur)) then lk (release TICKSLOCK) ;;; ret (-1)
    else sleep (TICKS) TICKSLOCK ;;; ret 0
  else lk (release TICKSLOCK) ;;; ret 0.

Definition sys_sleep (n : Z) : M KS Z :=
  rst ;;;
  lk (acquire TICKSLOCK) ;;;
  let* t := getp in
  sys_sleep_loop n (ticks t).

(** The end of [trap]: exit if killed while the CPU was given up. *)
Definition trap_tail (user : bool) : M KS () :=
  let* t := getp in
  if cproc t is Some p then when (nz (killed (P t p)) && user) exit else ret ().

(** trap.c, a timer interrupt on CPU 0, in user mode when [user]. *)
Definition trap_timer (user : bool) : M KS () :=
  lk (acquire TICKSLOCK) ;;;
  modp (fun t => set_ticks (u32 (ticks t + 1)) t) ;;;
  degrade ;;;
  let* t := getp in
  when (ticks t mod 100 =? 0) boost ;;;
  wakeup (TICKS) ;;;
  lk (release TICKSLOCK) ;;;
  let* t := getp in
  match cproc t with
  | None => ret ()
  | Some p =>
      when (nz (killed (P t p)) && user) exit ;;;
      let* t := getp in
      when (bool_decide (state (P t p) = RUNNING)) yield ;;;
      trap_tail user
  end.

(** Where a process goes on when the scheduler switches to it. *)
Definition resume_proc : M KS () :=
  let* cur := myproc in
  let* t := getp in
  let c := context (P t cur) in
  let restore := lk (modify (fun l => set_cpu (mkCpu (ncli (mycpu l)) (saved_intena c) (IF (mycpu l))) l)) in
  match resume_at c with
  | AtForkret =>
      release_pt ;;;
      let* s := get in
      when (first s) (
        put (mkKstate (kl s) (pt s) (kern s) false) ;;;
        kcall fs_init)
  | AtYield => restore ;;; release_pt
  | AtSleep lock =>
      restore ;;;
      modp (upd cur (set_chan NoChan)) ;;;
      when (negb (lock =? PTLOCK)) (release_pt ;;; lk (acquire lock))
  | AtExit => restore ;;; panic "zombie exit"
  end.

(** ** The scheduler

    Its local variables are [level] and [p], here [lv] and [i].  One evaluation
    of the loops' tests and of the body up to the switch: *)
Inductive action := Goto (lv i : nat) | Pick (i : nat) | Idle.

Definition better (t : ptable) (lv i : nat) : option (nat * proc) :=
  list_find (fun q => state q = RUNNABLE /\ level q = lv /\ priority (P t i) < priority q) (procs t).

Definition search_step (t : ptable) (lv i : nat) : action :=
  if (i <? NPROC)%nat then
    if existsb (fun j => 0 <? numproc t !!! j) (seq 0 lv) then Goto 0 0
    else if negb (bool_decide (state (P t i) = RUNNABLE /\ level (P t i) = lv)) then Goto lv (i + 1)
    else
      match (if 1 <? numproc t !!! lv then better t lv i else None) with
      | Some (j, _) => if (j <? i)%nat then Goto lv 0 else Goto lv (i + 1)
      | None => Pick i
      end
  else if 0 <? numproc t !!! lv then Goto lv 0
  else if (lv + 1 <? MLFQ_K)%nat then Goto (lv + 1) 0
  else Idle.

(** The search from a point until it picks a process or has found none. *)
Fixpoint search (fuel : nat) (t : ptable) (lv i : nat) : option action :=
  match fuel with
  | O => None
  | Datatypes.S fuel =>
      match search_step t lv i with
      | Goto lv i => search fuel t lv i
      | a => Some a
      end
  end.

(** The switch to the chosen process, until it runs again. *)
Definition dispatch (i : nat) : M KS () :=
  modp (set_cproc (Some i)) ;;;
  modp (fun t => set_heads (<[level (P t i) := Some i]> (heads t)) t) ;;;
  let* t := getp in
  switchuvm (P t i) ;;;
  modp (upd i (set_state RUNNING)) ;;;
  modp (fun t => incr (level (P t i)) (-1) t) ;;;
  resume_proc.

End Mlfq.

(** ** The invariant of the table *)

Definition runnable_at (l : nat) (p : proc) : bool := bool_decide (state p = RUNNABLE /\ level p = l).
Definition count (l : nat) (ps : list proc) : Z := Z.of_nat (length (filter (fun p => runnable_at l p) ps)).

(** A process that can be switched to has a kernel stack and a page table. *)
Definition proc_ok (MLFQ_K : nat) (p : proc) : Prop :=
  (level p < MLFQ_K)%nat /\
  (state p = RUNNABLE \/ state p = RUNNING \/ state p = SLEEPING -> kstack p <> 0 /\ pgdir p <> 0).

Record tinv (MLFQ_K : nat) (t : ptable) : Prop := {
  ti_procs : length (procs t) = NPROC;
  ti_heads : length (heads t) = MLFQ_K;
  ti_numproc : length (numproc t) = MLFQ_K;
  ti_count : forall l, (l < MLFQ_K)%nat -> numproc t !!! l = count l (procs t);
  ti_ok : forall i p, procs t !! i = Some p -> proc_ok MLFQ_K p;
  ti_running : forall i p, procs t !! i = Some p -> state p = RUNNING -> cproc t = Some i }.

Lemma count_insert l ps i p p' :
  ps !! i = Some p ->
  count l (<[i := p']> ps) = count l ps - Z.b2z (runnable_at l p) + Z.b2z (runnable_at l p').
Proof.
  intros Hi. unfold count. rewrite insert_take_drop by (by eapply lookup_lt_Some).
  rewrite <- (take_drop_middle ps i p) at 3 by done.
  rewrite !filter_app, !filter_cons, !length_app. unfold Is_true.
  repeat case_decide; destruct (runnable_at l p) eqn:E1, (runnable_at l p') eqn:E2; simpl; try done; lia.
Qed.

Lemma P_lookup t i p : procs t !! i = Some p -> P t i = p.
Proof. apply list_lookup_total_correct. Qed.

Lemma procs_upd t i f j :
  procs (upd i f t) !! j = if decide (i = j) then f <$> procs t !! i else procs t !! j.
Proof. apply list_lookup_alter. Qed.

Lemma procs_upd_eq t i f : procs (upd i f t) !! i = f <$> procs t !! i.
Proof. rewrite procs_upd. by rewrite decide_True. Qed.

Lemma upd_insert t i f p : procs t !! i = Some p -> procs (upd i f t) = <[i := f p]> (procs t).
Proof.
  intros Hi. apply list_eq. intros j. rewrite procs_upd. pose proof (lookup_lt_Some _ _ _ Hi).
  case_decide; subst; [by rewrite Hi, list_lookup_insert_eq|by rewrite list_lookup_insert_ne].
Qed.

Lemma count_upd l t i f p :
  procs t !! i = Some p ->
  count l (procs (upd i f t)) = count l (procs t) - Z.b2z (runnable_at l p) + Z.b2z (runnable_at l (f p)).
Proof.
  intros Hi. rewrite <- (count_insert l _ i p) by done. f_equal. by apply upd_insert.
Qed.

Lemma numproc_incr t l d j :
  (l < length (numproc t))%nat ->
  numproc (incr l d t) !!! j = numproc t !!! j + (if decide (l = j) then d else 0).
Proof.
  intros Hl. unfold incr. simpl. rewrite !list_lookup_total_alt, list_lookup_alter.
  destruct (lookup_lt_is_Some_2 (numproc t) l Hl) as [x Hx].
  case_decide; [subst; rewrite Hx|]; simpl; lia.
Qed.

Section invariant.
Context (MLFQ_K : nat).
Local Abbreviation tinv := (tinv MLFQ_K).
Local Abbreviation proc_ok := (proc_ok MLFQ_K).

(** The process in slot [i] changes and the counts are adjusted by [d]. *)
Lemma tinv_change t i f np :
  tinv t -> length np = MLFQ_K ->
  (forall p, procs t !! i = Some p ->
     (forall l, (l < MLFQ_K)%nat -> np !!! l =
        numproc t !!! l - Z.b2z (runnable_at l p) + Z.b2z (runnable_at l (f p))) /\
     proc_ok (f p) /\ (state (f p) = RUNNING -> cproc t = Some i)) ->
  (procs t !! i = None -> np = numproc t) ->
  tinv (set_numproc np (upd i f t)).
Proof.
  intros [I1 I2 I3 I4 I5 I6] Hlen Hf Hn. split; simpl; try done.
  - by rewrite length_alter.
  - intros l Hl. destruct (procs t !! i) as [p|] eqn:E.
    + change (alter f i (procs t)) with (procs (upd i f t)). rewrite (count_upd l t i f p), <- I4 by done.
      by apply Hf.
    + rewrite Hn, I4 by done. f_equal. apply list_eq. intros j.
      rewrite list_lookup_alter. case_decide; [by subst; rewrite E|done].
  - intros j p Hj. rewrite list_lookup_alter in Hj. case_decide; [subst|by eapply I5].
    apply fmap_Some in Hj as (q & Hq & ->). by apply Hf.
  - intros j p Hj Hs. rewrite list_lookup_alter in Hj. case_decide; [subst|by eapply I6].
    apply fmap_Some in Hj as (q & Hq & ->). by apply (Hf q).
Qed.

Lemma tinv_upd t i f :
  tinv t ->
  (forall p, procs t !! i = Some p ->
     (forall l, runnable_at l (f p) = runnable_at l p) /\
     proc_ok (f p) /\ (state (f p) = RUNNING -> cproc t = Some i)) ->
  tinv (upd i f t).
Proof.
  intros I Hf. apply (tinv_change t i f (numproc t)); [done|apply I| |done].
  intros p Hp. destruct (Hf p Hp) as (H1 & H2 & H3). split_and!; [|done..].
  intros l Hl. rewrite H1. lia.
Qed.

(** Fields the scheduler does not look at. *)
Lemma tinv_quiet t i f :
  tinv t ->
  (forall p, state (f p) = state p /\ level (f p) = level p /\ kstack (f p) = kstack p /\ pgdir (f p) = pgdir p) ->
  tinv (upd i f t).
Proof.
  intros I Hf. apply tinv_upd; [done|]. intros p Hp. destruct (Hf p) as (E1 & E2 & E3 & E4).
  unfold runnable_at, Mlfq.proc_ok. rewrite E1, E2, E3, E4.
  split_and!; [done|by eapply ti_ok|by eapply ti_ok|]. by eapply ti_running.
Qed.

Lemma tinv_make_runnable t i p :
  tinv t -> procs t !! i = Some p -> state p <> RUNNABLE -> kstack p <> 0 -> pgdir p <> 0 ->
  tinv (make_runnable i t).
Proof.
  intros I Hp Hs Hk Hg. unfold make_runnable.
  assert (P (upd i (set_state RUNNABLE) t) i = set_state RUNNABLE p) as HP.
  { apply P_lookup. by rewrite procs_upd_eq, Hp. }
  rewrite HP. change (level (set_state RUNNABLE p)) with (level p).
  destruct (ti_ok _ _ I i p Hp) as [Hl _].
  apply (tinv_change t i _ (numproc (incr (level p) 1 t))); 
    [done|unfold incr; simpl; rewrite length_alter; apply I| |].
  - intros q Hq. simplify_eq. split_and!; [|split; [done|by simpl]|done].
    intros l Hll. rewrite numproc_incr by (by rewrite (ti_numproc _ _ I)). unfold runnable_at. simpl.
    rewrite (bool_decide_false (state p = RUNNABLE /\ _)) by tauto. simpl.
    case_decide; [rewrite bool_decide_true by done|rewrite bool_decide_false by (by intros [_ ?])]; simpl; lia.
  - by rewrite Hp.
Qed.

Lemma tinv_cproc_range t i : tinv t -> state (P t i) <> UNUSED -> exists p, procs t !! i = Some p.
Proof.
  intros I Hs. destruct (procs t !! i) as [p|] eqn:E; [eauto|].
  unfold P in Hs. rewrite list_lookup_total_alt, E in Hs. done.
Qed.

(** Changes outside the process slots and the counts. *)
Lemma tinv_heads t h : tinv t -> length h = MLFQ_K -> tinv (set_heads h t).
Proof. intros [] ?. by split. Qed.
Lemma tinv_nextpid t v : tinv t -> tinv (set_nextpid v t).
Proof. intros []. by split. Qed.
Lemma tinv_initproc t v : tinv t -> tinv (set_initproc v t).
Proof. intros []. by split. Qed.
Lemma tinv_ticks t v : tinv t -> tinv (set_ticks v t).
Proof. intros []. by split. Qed.

Lemma tinv_foldl f t (l : list nat) :
  (forall t i, tinv t -> i ∈ l -> tinv (f t i)) -> tinv t -> tinv (foldl f t l).
Proof.
  revert t. induction l as [|i l IH]; intros t Hf I; simpl; [done|].
  apply IH; [|apply Hf; [done|set_solver]]. intros. apply Hf; [done|set_solver].
Qed.

Lemma tinv_wakeup1 c t : tinv t -> tinv (wakeup1 c t).
Proof.
  intros I. apply tinv_foldl; [|done]. clear I. intros t' i I _.
  case_bool_decide as Hc; [|done]. destruct Hc as [Hs _].
  destruct (tinv_cproc_range t' i I) as [p Hp]; [congruence|].
  rewrite (P_lookup _ _ _ Hp) in Hs. destruct (ti_ok _ _ I i p Hp) as [_ Hk].
  destruct Hk as [? ?]; [tauto|]. eapply tinv_make_runnable; eauto. congruence.
Qed.

Lemma tinv_reparent cur t : tinv t -> tinv (reparent cur t).
Proof.
  intros I. apply tinv_foldl; [|done]. clear I. intros t' i I _.
  case_bool_decide; [|done]. cbv zeta. case_bool_decide; [apply tinv_wakeup1|]; by apply tinv_quiet.
Qed.

(** The process in slot [i] moves to queue [l']. *)
Lemma tinv_level t i p l' :
  tinv t -> procs t !! i = Some p -> (l' < MLFQ_K)%nat ->
  tinv (upd i (set_level l')
    (if bool_decide (state p = RUNNABLE) then incr l' 1 (incr (level p) (-1) t) else t)).
Proof.
  intros I Hp Hl. destruct (ti_ok _ _ I i p Hp) as [Hlp Hk]. pose proof (ti_numproc _ _ I) as Hn.
  case_bool_decide as Hs.
  - apply (tinv_change t i (set_level l') (numproc (incr l' 1 (incr (level p) (-1) t))));
      [done|unfold incr; simpl; by rewrite !length_alter| |by rewrite Hp].
    intros q Hq. simplify_eq. split_and!; [|by split|simpl; by eapply ti_running].
    intros l Hll. rewrite !numproc_incr by (unfold incr; simpl; rewrite ?length_alter; lia).
    unfold runnable_at. simpl. rewrite !bool_decide_and, (bool_decide_true (state p = RUNNABLE)) by done.
    rewrite !bool_decide_decide. simpl. repeat case_decide; simpl; lia.
  - apply tinv_upd; [done|]. intros q Hq. simplify_eq. unfold runnable_at. simpl.
    split_and!; [|by split|by eapply ti_running].
    intros l. by rewrite !(bool_decide_false (state p = RUNNABLE /\ _)) by tauto.
Qed.

Lemma tinv_boost_all t : tinv t -> (0 < MLFQ_K)%nat -> tinv (boost_all t).
Proof.
  intros I HK. apply tinv_foldl; [|done]. clear I. intros t' i I _. case_bool_decide as Hs; [|done].
  destruct (tinv_cproc_range t' i I Hs) as [p Hp]. cbv zeta. rewrite (P_lookup _ _ _ Hp).
  apply tinv_quiet; [|done]. by apply tinv_level.
Qed.

Lemma tinv_lookup_cur t i : tinv t -> (i < NPROC)%nat -> exists p, procs t !! i = Some p.
Proof. intros I Hi. apply lookup_lt_is_Some_2. by rewrite (ti_procs _ _ I). Qed.
End invariant.

(** ** Every operation keeps the invariant *)
Section operations.
Context (MLFQ_K : nat) (PTLOCK TICKSLOCK : Z) {K : Type} `{!KernelOps K}.
Hypothesis K_pos : (0 < MLFQ_K)%nat.
Local Abbreviation KS := (kstate ptable K).
Local Abbreviation tinv := (tinv MLFQ_K).

(** The invariant with a current process [cur] inside the table ([parked]), which
    moreover is running ([curinv]). *)
Definition parked (cur : option nat) (t : ptable) : Prop :=
  tinv t /\ cproc t = cur /\ forall i, cur = Some i -> (i < NPROC)%nat.
Definition curinv (cur : option nat) (t : ptable) : Prop :=
  parked cur t /\ forall c, cur = Some c -> state (P t c) = RUNNING.

(** Slot [np] is being set up: allocated, not yet runnable. *)
Definition embryo (cur : option nat) (np : nat) (pg : bool) (t : ptable) : Prop :=
  curinv cur t /\ exists p, procs t !! np = Some p /\ state p = EMBRYO /\ kstack p <> 0 /\ (pg = true -> pgdir p <> 0).

(** Assignments to the fields the invariant ignores. *)
Definition quiet (f : proc -> proc) : Prop :=
  forall p, state (f p) = state p /\ level (f p) = level p /\ kstack (f p) = kstack p /\ pgdir (f p) = pgdir p.

Lemma curinv_parked cur t : curinv cur t -> parked cur t.
Proof. by intros []. Qed.
Lemma embryo_curinv cur np pg t : embryo cur np pg t -> curinv cur t.
Proof. by intros []. Qed.
Lemma embryo_parked cur np pg t : embryo cur np pg t -> parked cur t.
Proof. by intros [[]]. Qed.

Lemma parked_range cur t i : parked cur t -> cur = Some i -> exists p, procs t !! i = Some p.
Proof. intros (I & _ & H) E. apply (tinv_lookup_cur MLFQ_K); auto. Qed.

Lemma P_upd t i f c : i <> c -> P (upd i f t) c = P t c.
Proof. intros. unfold P. by rewrite !list_lookup_total_alt, procs_upd, decide_False. Qed.

Lemma P_upd_eq t c f p : procs t !! c = Some p -> P (upd c f t) c = f p.
Proof. intros Hp. apply P_lookup. by rewrite procs_upd_eq, Hp. Qed.

(** A slot that is not the running process changes. *)
Lemma curinv_other cur t i f :
  curinv cur t -> tinv (upd i f t) -> (forall p, procs t !! i = Some p -> state p <> RUNNING) ->
  curinv cur (upd i f t).
Proof.
  intros [(I & E & H) R] I' Hs. split; [by split_and!|]. intros c Hc. rewrite P_upd; [by apply R|].
  intros ->. destruct (parked_range cur t c) as [p Hp]; [by split_and!|done|].
  apply (Hs p Hp). rewrite <- (P_lookup _ _ _ Hp). by apply R.
Qed.

Lemma parked_upd cur t i f : parked cur t -> quiet f -> parked cur (upd i f t).
Proof. intros (I & E & H) Hf. split_and!; [by apply tinv_quiet|done..]. Qed.

Lemma curinv_upd cur t i f : curinv cur t -> quiet f -> curinv cur (upd i f t).
Proof.
  intros [I R] Hf. split; [by apply parked_upd|]. intros c Hc.
  destruct (decide (i = c)) as [-> |]; [|rewrite P_upd by done; by apply R].
  destruct (parked_range cur t c) as [p Hp]; [done..|]. rewrite (P_upd_eq _ _ _ p) by done.
  destruct (Hf p) as [-> _]. rewrite <- (P_lookup _ _ _ Hp). by apply R.
Qed.

Lemma embryo_upd cur np pg t i f : embryo cur np pg t -> quiet f -> embryo cur np pg (upd i f t).
Proof.
  intros (I & p & Hp & Hs & Hk & Hg) Hf. split; [by apply curinv_upd|].
  rewrite procs_upd. case_decide; [subst|by eauto].
  exists (f p). rewrite Hp. destruct (Hf p) as (-> & _ & -> & ->). done.
Qed.

Lemma bind_myproc {A} J cur (k : nat -> M KS A) Q B :
  (forall t, J t -> cproc t = cur) -> (forall i, cur = Some i -> triple (on_table J) (k i) Q B) ->
  triple (on_table J) (bind myproc k) Q B.
Proof.
  intros HJ Hk s Hs. unfold myproc, bind, getp, gets, panic, ret.
  rewrite (HJ _ Hs). destruct cur as [i|]; [by apply Hk|done].
Qed.

Lemma curinv_cproc cur t : curinv cur t -> cproc t = cur.
Proof. by intros [(_ & ? & _) _]. Qed.

Lemma curinv_state cur t i v :
  curinv cur t -> v <> RUNNABLE -> v <> RUNNING -> v <> SLEEPING ->
  (forall p, procs t !! i = Some p -> state p <> RUNNABLE /\ state p <> RUNNING) ->
  curinv cur (upd i (set_state v) t).
Proof.
  intros I H1 H2 H3 Hs. apply curinv_other; [done| |intros p Hp; by apply Hs].
  destruct I as [(I & E & H) _]. apply tinv_upd; [done|].
  intros p Hp. destruct (Hs p Hp). unfold runnable_at, proc_ok. simpl.
  split_and!; [|by eapply ti_ok|intuition congruence|congruence].
  intros l. by rewrite !bool_decide_false by intuition congruence.
Qed.

Lemma curinv_kstack cur t i v :
  curinv cur t ->
  (forall p, procs t !! i = Some p -> state p <> RUNNABLE /\ state p <> RUNNING /\ state p <> SLEEPING) ->
  curinv cur (upd i (set_kstack v) t).
Proof.
  intros I Hs. apply curinv_other; [done| |intros p Hp; by apply Hs].
  destruct I as [(I & E & H) _]. apply tinv_upd; [done|].
  intros p Hp. destruct (Hs p Hp) as (? & ? & ?). unfold runnable_at, proc_ok. simpl.
  split_and!; [done|by eapply ti_ok|intuition congruence|congruence].
Qed.

Lemma curinv_level cur t i l :
  curinv cur t -> (l < MLFQ_K)%nat ->
  (forall p, procs t !! i = Some p -> state p <> RUNNABLE) ->
  curinv cur (upd i (set_level l) t).
Proof.
  intros [(I & E & H) R] Hl Hs. split.
  - split_and!; [|done..]. apply tinv_upd; [done|].
    intros p Hp. pose proof (Hs p Hp). destruct (ti_ok _ _ I i p Hp) as [_ ?]. unfold runnable_at, proc_ok. simpl.
    split_and!; [|done|done|by eapply ti_running].
    intros l'. by rewrite !bool_decide_false by intuition congruence.
  - intros c Hc. destruct (decide (i = c)) as [-> |]; [|rewrite P_upd by done; by apply R].
    destruct (parked_range cur t c) as [p Hp]; [by split_and!|done|].
    rewrite (P_upd_eq _ _ _ p) by done. simpl. rewrite <- (P_lookup _ _ _ Hp). by apply R.
Qed.

Lemma procs_upd_inv t i f p : procs (upd i f t) !! i = Some p -> exists q, procs t !! i = Some q /\ p = f q.
Proof. rewrite procs_upd_eq. intros (q & ? & ?)%fmap_Some. eauto. Qed.

Lemma curinv_nextpid cur t v : curinv cur t -> curinv cur (set_nextpid v t).
Proof. intros [(I & E & H) R]. split; [|done]. split_and!; [by apply tinv_nextpid|done..]. Qed.
Lemma curinv_initproc cur t v : curinv cur t -> curinv cur (set_initproc v t).
Proof. intros [(I & E & H) R]. split; [|done]. split_and!; [by apply tinv_initproc|done..]. Qed.
Lemma curinv_ticks cur t v : curinv cur t -> curinv cur (set_ticks v t).
Proof. intros [(I & E & H) R]. split; [|done]. split_and!; [by apply tinv_ticks|done..]. Qed.

(** [allocproc]: the slot it returns is an [embryo]. *)
Lemma allocproc_ok cur :
  triple (on_table (curinv cur)) (allocproc PTLOCK : M KS (option nat))
    (fun r => if r is Some np then on_table (embryo cur np false) else on_table (curinv cur))
    (on_table (curinv cur)).
Proof.
  unfold allocproc. eapply triple_bind; [apply keeps_lk|]. intros ?. apply on_table_getp. intros t I.
  destruct (list_find _ _) as [[i p]|] eqn:F.
  2: { tstep; [intros; by eapply is_on|]. by tstep. }
  apply list_find_Some in F as (Hi & Hs & _). do 5 tstep.
  set (t5 := upd i (set_level 0) _).
  assert (exists q, procs t5 !! i = Some q /\ state q = EMBRYO) as (q & Hq & Hqs).
  { unfold t5. rewrite !procs_upd_eq. simpl. rewrite !list_lookup_alter_eq, Hi. simpl. eauto. }
  assert (curinv cur t5) as I5.
  { unfold t5. apply curinv_level; [|done|].
    - do 2 (apply curinv_upd; [|done]). apply curinv_nextpid, curinv_upd; [|done].
      apply curinv_state; try done. intros. by simplify_eq/=; rewrite Hs.
    - intros x Hx. apply procs_upd_inv in Hx as (y & Hy & ->). apply procs_upd_inv in Hy as (z & Hz & ->).
      simpl in Hz. rewrite !list_lookup_alter_eq, Hi in Hz. by simplify_eq/=. }
  clearbody t5. tstep; [intros; by eapply is_on|]. tstep; [intros; by eapply is_on|]. tstep. cbv zeta.
  assert (curinv cur (upd i (set_kstack a1) t5)) as I6.
  { apply curinv_kstack; [done|]. intros x Hx. simplify_eq. rewrite Hqs. done. }
  tstep; tstep; tstep.
  - apply curinv_state; try done. intros x Hx. apply procs_upd_inv in Hx as (y & Hy & ->). simplify_eq/=.
    by rewrite Hqs.
  - bsplit. split; [by apply curinv_upd|]. rewrite !procs_upd_eq, Hq. simpl. eauto 10.
Qed.

(** What is shown of each routine: the invariant holds, with the same process
    running, when it returns, and without the last part when it switches away. *)
Definition op_ok {A} (cur : option nat) (c : M KS A) : Prop :=
  triple (on_table (curinv cur)) c (fun _ => on_table (curinv cur)) (on_table (parked cur)).

Lemma keeps_op_ok {A} cur (c : M KS A) : keeps (curinv cur) c -> op_ok cur c.
Proof. intros Hc. eapply triple_weaken; [exact Hc|done|done|]. intros s. apply curinv_parked. Qed.

Lemma op_ok_bind {A B} cur (c : M KS A) (k : A -> M KS B) :
  op_ok cur c -> (forall a, op_ok cur (k a)) -> op_ok cur (bind c k).
Proof. intros Hc Hk. by eapply triple_bind. Qed.

Lemma op_ok_myproc {A} cur (k : nat -> M KS A) :
  (forall c, cur = Some c -> op_ok cur (k c)) -> op_ok cur (bind myproc k).
Proof. intros. eapply bind_myproc; [|done]. apply curinv_cproc. Qed.

Lemma op_ok_getp {A} cur (k : ptable -> M KS A) :
  (forall t, curinv cur t -> triple (table_is t) (k t) (fun _ => on_table (curinv cur)) (on_table (parked cur))) ->
  op_ok cur (bind getp k).
Proof. intros Hk. by apply on_table_getp. Qed.

Lemma op_ok_from {A} cur t (c : M KS A) :
  curinv cur t -> op_ok cur c -> triple (table_is t) c (fun _ => on_table (curinv cur)) (on_table (parked cur)).
Proof. intros Ht Hc s Hs. apply Hc. unfold on_table. by rewrite Hs. Qed.

Lemma op_ok_when cur b (c : M KS ()) : (b = true -> op_ok cur c) -> op_ok cur (when b c).
Proof. intros Hc. destruct b; [by apply Hc|apply keeps_op_ok, keeps_ret]. Qed.

(** From one property of the table to another. *)
Lemma moves_bind {A B} (J J2 : ptable -> Prop) (c : M KS A) (k : A -> M KS B) Q :
  (forall t, J t -> J2 t) -> keeps J c -> (forall a, triple (on_table J) (k a) Q (on_table J2)) ->
  triple (on_table J) (bind c k) Q (on_table J2).
Proof.
  intros HJ Hc Hk. eapply triple_bind; [|exact Hk].
  eapply triple_weaken; [exact Hc|done|done|]. intros s. apply HJ.
Qed.

Lemma moves_modp {A} (J J' J2 : ptable -> Prop) f (k : () -> M KS A) Q :
  (forall t, J t -> J' (f t)) -> triple (on_table J') (k ()) Q (on_table J2) ->
  triple (on_table J) (bind (modp f) k) Q (on_table J2).
Proof. intros Hf Hk s Hs. apply Hk. by apply Hf. Qed.

Lemma moves_getp {A} (J J2 : ptable -> Prop) (k : ptable -> M KS A) Q :
  (forall t, J t -> triple (on_table J) (k t) Q (on_table J2)) ->
  triple (on_table J) (bind getp k) Q (on_table J2).
Proof. intros Hk s Hs. unfold bind, getp, gets. by apply Hk. Qed.

Lemma keeps_quiet cur i f : quiet f -> keeps (curinv cur) (modp (upd i f) : M KS ()).
Proof. intros Hf. apply keeps_modp. intros t Ht. by apply curinv_upd. Qed.

Lemma keeps_quiet_embryo cur np pg i f : quiet f -> keeps (embryo cur np pg) (modp (upd i f) : M KS ()).
Proof. intros Hf. apply keeps_modp. intros t Ht. by apply embryo_upd. Qed.

Lemma keeps_dup_files cur np c : keeps (embryo cur np true) (dup_files c np : M KS ()).
Proof. unfold dup_files. repeat kstep. by apply embryo_upd. Qed.

Lemma growproc_ok cur n : op_ok cur (growproc n : M KS Z).
Proof.
  unfold growproc. apply op_ok_myproc. intros c Hc. apply keeps_op_ok. repeat kstep; by apply curinv_upd.
Qed.

Lemma embryo_pgdir cur np t v :
  embryo cur np false t -> embryo cur np (negb (v =? 0)) (upd np (set_pgdir v) t).
Proof.
  intros (I & p & Hp & Hs & Hk & _). split.
  - apply curinv_other; [done| |intros q Hq; by simplify_eq/=; rewrite Hs].
    destruct I as [(I & E & H) _]. apply tinv_upd; [done|]. intros q Hq. simplify_eq.
    unfold runnable_at, proc_ok. simpl.
    split_and!; [done|by eapply ti_ok|intuition congruence|congruence].
  - exists (set_pgdir v p). rewrite procs_upd_eq, Hp. split_and!; try done. simpl. intros. bsplit. done.
Qed.

Lemma embryo_free cur np pg t :
  embryo cur np pg t -> curinv cur (upd np (set_state UNUSED) (upd np (set_kstack 0) t)).
Proof.
  intros (I & p & Hp & Hs & Hk & _). apply curinv_state; try done.
  - apply curinv_kstack; [done|]. intros q Hq. simplify_eq. by rewrite Hs.
  - intros q Hq. apply procs_upd_inv in Hq as (r & Hr & ->). simplify_eq/=. by rewrite Hs.
Qed.

Lemma P_make_runnable t i c : i <> c -> P (make_runnable i t) c = P t c.
Proof. intros. unfold make_runnable. change (P (incr ?a ?b ?t) c) with (P t c). by apply P_upd. Qed.

Lemma embryo_run cur np t : embryo cur np true t -> curinv cur (make_runnable np t).
Proof.
  intros ([(I & E & H) R] & p & Hp & Hs & Hk & Hg). split; [split_and!; [|done..]|].
  - eapply tinv_make_runnable; eauto; congruence.
  - intros c Hc. rewrite P_make_runnable; [by apply R|]. intros ->.
    specialize (R c Hc). rewrite (P_lookup _ _ _ Hp) in R. congruence.
Qed.

Ltac embryo_steps :=
  repeat (apply moves_bind;
    [apply embryo_parked | first [by apply keeps_quiet_embryo | apply keeps_dup_files | solve [auto with kernel]] | intros ?]).

Lemma fork_ok cur : op_ok cur (fork PTLOCK : M KS Z).
Proof.
  unfold fork. apply op_ok_myproc. intros c Hc.
  eapply triple_bind.
  { eapply triple_weaken; [apply allocproc_ok|done|done|]. intros s. apply curinv_parked. }
  intros [np|]; [|by apply keeps_op_ok, keeps_ret].
  apply moves_getp. intros t _. embryo_steps.
  eapply moves_modp; [intros; by apply embryo_pgdir|]. destruct (_ =? 0); simpl negb.
  - apply moves_getp. intros t1 _. embryo_steps.
    intros s Hs. by apply (embryo_free cur np false).
  - embryo_steps. apply moves_getp. intros t2 _. cbv zeta. embryo_steps.
    eapply moves_modp; [apply embryo_run|]. apply keeps_op_ok. repeat kstep.
Qed.

Lemma userinit_ok cur : op_ok cur (userinit PTLOCK : M KS ()).
Proof.
  unfold userinit. eapply triple_bind.
  { eapply triple_weaken; [apply allocproc_ok|done|done|]. intros s. apply curinv_parked. }
  intros [np|].
  2: { apply keeps_op_ok, keeps_bind; [|auto with kernel]. apply keeps_modp. intros. by apply curinv_initproc. }
  eapply (moves_modp _ (embryo cur np false)).
  { intros t [I Hp]. split; [|done]. by apply curinv_initproc. }
  embryo_steps. eapply moves_modp; [intros; by apply embryo_pgdir|].
  destruct (_ =? 0); simpl negb; [apply triple_panic|]. embryo_steps.
  eapply moves_modp; [apply embryo_run|]. by apply keeps_op_ok, keeps_lk.
Qed.

(** [sched] does not return before the scheduler switches back. *)
Definition switches {A} (J : ptable -> Prop) (cur : option nat) (c : M KS A) : Prop :=
  triple (on_table J) c (fun _ _ => False) (on_table (parked cur)).

Lemma switches_op_ok {A} cur (c : M KS A) : switches (curinv cur) cur c -> op_ok cur c.
Proof. intros Hc. by eapply triple_weaken; [exact Hc|..]. Qed.

Lemma switches_bind {A B} J cur (c : M KS A) (k : A -> M KS B) :
  (forall t, J t -> parked cur t) -> keeps J c -> (forall a, switches J cur (k a)) ->
  switches J cur (bind c k).
Proof. intros. by apply moves_bind. Qed.

Lemma switches_then {A B} J cur (c : M KS A) (k : A -> M KS B) :
  switches J cur c -> switches J cur (bind c k).
Proof. intros Hc. eapply triple_bind; [exact Hc|]. by intros a s. Qed.

Lemma sched_switches cur r : switches (parked cur) cur (sched PTLOCK r : M KS ()).
Proof.
  unfold sched. eapply bind_myproc; [by intros t (_ & ? & _)|]. intros c Hc.
  apply switches_bind; [done|auto with kernel|]. intros h. destruct (negb h); [apply triple_panic|].
  apply switches_bind; [done|auto with kernel|]. intros x. destruct (negb _); [apply triple_panic|].
  apply moves_getp. intros t It. case_bool_decide; [apply triple_panic|].
  destruct (IF x); [apply triple_panic|]. eapply (moves_modp _ (parked cur)); [|by intros s Hs].
  intros t' I'. by apply parked_upd.
Qed.

(** The running process leaves the CPU in state [v]. *)
Lemma curinv_leave c t v :
  curinv (Some c) t -> v = SLEEPING \/ v = ZOMBIE -> parked (Some c) (upd c (set_state v) t).
Proof.
  intros [(I & E & H) R] Hv. split_and!; [|done..]. apply tinv_upd; [done|]. intros p Hp.
  pose proof (R c eq_refl) as Hs. rewrite (P_lookup _ _ _ Hp) in Hs. unfold runnable_at, proc_ok. simpl.
  split_and!; [|by eapply ti_ok|intros _; eapply (ti_ok _ _ I c p); [done|tauto]|intuition congruence].
  intros l. by rewrite !bool_decide_false by intuition congruence.
Qed.

Lemma curinv_yield c t : curinv (Some c) t -> parked (Some c) (make_runnable c t).
Proof.
  intros [(I & E & H) R]. split_and!; [|done..]. pose proof (R c eq_refl) as Hs.
  destruct (tinv_lookup_cur _ t c I) as [p Hp]; [by apply H|]. rewrite (P_lookup _ _ _ Hp) in Hs.
  destruct (ti_ok _ _ I c p Hp) as [_ [? ?]]; [tauto|]. eapply tinv_make_runnable; eauto. congruence.
Qed.

Lemma yield_switches cur : switches (curinv cur) cur (yield PTLOCK : M KS ()).
Proof.
  unfold yield. apply switches_bind; [apply curinv_parked|auto with kernel|intros []].
  eapply bind_myproc; [apply curinv_cproc|]. intros c ->.
  eapply moves_modp; [apply curinv_yield|apply sched_switches].
Qed.

Lemma sleep_switches cur ch lock : switches (curinv cur) cur (sleep PTLOCK ch lock : M KS ()).
Proof.
  unfold sleep. apply moves_getp. intros t It. rewrite (curinv_cproc _ _ It).
  destruct cur as [c|]; [|apply triple_panic]. destruct (lock =? 0); [apply triple_panic|].
  apply switches_bind; [apply curinv_parked|repeat kstep|intros []].
  apply switches_bind; [apply curinv_parked|by apply keeps_quiet|intros []].
  eapply moves_modp; [|apply sched_switches]. intros t' I'. apply curinv_leave; auto.
Qed.

(** [wakeup1] touches sleeping processes only. *)
Lemma wakeup1_frame ch t c :
  state (P t c) <> SLEEPING -> P (wakeup1 ch t) c = P t c /\ cproc (wakeup1 ch t) = cproc t.
Proof.
  unfold wakeup1. generalize (seq 0 NPROC). intros l. revert t.
  induction l as [|i l IH]; intros t Hs; simpl; [done|]. case_bool_decide as Hc; [|by apply IH].
  assert (i <> c) by (intros ->; tauto).
  destruct (IH (make_runnable i t)) as [-> ->]; [by rewrite P_make_runnable|].
  by rewrite P_make_runnable.
Qed.

Lemma wakeup1_cproc ch t : cproc (wakeup1 ch t) = cproc t.
Proof.
  unfold wakeup1. generalize (seq 0 NPROC). intros l. revert t.
  induction l as [|i l IH]; intros t; simpl; [done|]. rewrite IH. by case_bool_decide.
Qed.

Lemma curinv_wakeup1 cur ch t : curinv cur t -> curinv cur (wakeup1 ch t).
Proof.
  intros [(I & E & H) R]. split.
  - split_and!; [by apply tinv_wakeup1|by rewrite wakeup1_cproc|done].
  - intros c Hc. destruct (wakeup1_frame ch t c) as [-> _]; rewrite R; done.
Qed.

Lemma wakeup_ok cur ch : op_ok cur (wakeup PTLOCK ch : M KS ()).
Proof. apply keeps_op_ok. unfold wakeup. repeat kstep. by apply curinv_wakeup1. Qed.

Lemma curinv_reparent cur c t : curinv cur t -> curinv cur (reparent c t).
Proof.
  unfold reparent. generalize (seq 0 NPROC). intros l. revert t.
  induction l as [|i l IH]; intros t I; simpl; [done|]. apply IH. case_bool_decide; [|done].
  cbv zeta. case_bool_decide; [apply curinv_wakeup1|]; by apply curinv_upd.
Qed.

Lemma exit_switches cur : switches (curinv cur) cur (exit PTLOCK : M KS ()).
Proof.
  unfold exit. eapply bind_myproc; [apply curinv_cproc|]. intros c ->. apply moves_getp. intros t _.
  case_bool_decide; [apply triple_panic|].
  apply switches_bind; [apply curinv_parked|unfold close_files; repeat kstep; by apply curinv_upd|intros []].
  apply switches_bind; [apply curinv_parked|auto with kernel|intros []]. apply moves_getp. intros t2 _.
  do 2 (apply switches_bind; [apply curinv_parked|auto with kernel|intros []]).
  apply switches_bind; [apply curinv_parked|by apply keeps_quiet|intros []].
  apply switches_bind; [apply curinv_parked|auto with kernel|intros []].
  apply switches_bind; [apply curinv_parked|apply keeps_modp; intros; by apply curinv_wakeup1|intros []].
  apply switches_bind; [apply curinv_parked|apply keeps_modp; intros; by apply curinv_reparent|intros []].
  eapply moves_modp; [|apply sched_switches]. intros t' I'. apply curinv_leave; auto.
Qed.

Lemma zombie_freed cur t i p :
  curinv cur t -> procs t !! i = Some p -> state p = ZOMBIE ->
  curinv cur (upd i (set_kstack 0) t) /\
  curinv cur (upd i (set_state UNUSED) (upd i (set_killed 0) (upd i (set_name []) (upd i (set_parent None)
    (upd i (set_pid 0) (upd i (set_kstack 0) t)))))).
Proof.
  intros I Hp Hs. assert (curinv cur (upd i (set_kstack 0) t)) as I1.
  { apply curinv_kstack; [done|]. intros q Hq. simplify_eq. by rewrite Hs. }
  split; [done|]. apply curinv_state; try done; [by repeat (apply curinv_upd; [|done])|].
  intros q Hq. do 5 (apply procs_upd_inv in Hq as (? & Hq & ->)). simplify_eq/=. by rewrite Hs.
Qed.

Lemma wait_loop_ok cur : op_ok cur (wait_loop PTLOCK : M KS Z).
Proof.
  unfold wait_loop. apply op_ok_myproc. intros c ->. apply on_table_getp. intros t I.
  destruct (list_find _ _) as [[i p]|] eqn:F.
  - apply list_find_Some in F as (Hi & [_ Hs] & _). destruct (zombie_freed (Some c) t i p) as [I1 I2]; try done.
    assert (forall t', curinv (Some c) t' -> forall s : KS, table_is t' s -> on_table (parked (Some c)) s) as HB.
    { intros t' It s Hs'. eapply is_on; [|done]. by apply curinv_parked. }
    tstep; [by apply HB|]. tstep. tstep; [by apply HB|]. do 5 tstep. tstep; [by apply HB|]. by tstep.
  - apply op_ok_from; [done|]. cbv zeta. destruct (_ || _).
    + apply keeps_op_ok. repeat kstep.
    + apply switches_op_ok, switches_then, sleep_switches.
Qed.

Lemma wait_ok cur : op_ok cur (wait PTLOCK : M KS Z).
Proof. apply op_ok_bind; [apply keeps_op_ok; auto with kernel|]. intros. apply wait_loop_ok. Qed.

Lemma state_upd t i f c : (forall p, state (f p) = state p) -> state (P (upd i f t) c) = state (P t c).
Proof.
  intros Hf. unfold P. rewrite !list_lookup_total_alt, procs_upd. case_decide; [subst|done].
  destruct (procs t !! c); simpl; [apply Hf|done].
Qed.

Lemma boost_frame t c : state (P (boost_all t) c) = state (P t c) /\ cproc (boost_all t) = cproc t.
Proof.
  unfold boost_all. generalize (seq 0 NPROC). intros l. revert t.
  induction l as [|i l IH]; intros t; simpl; [done|]. destruct (IH (if bool_decide (state (P t i) <> UNUSED) then
    upd i (set_extime 0) (upd i (set_level 0) (if bool_decide (state (P t i) = RUNNABLE)
               then incr 0 1 (incr (level (P t i)) (-1) t) else t)) else t)) as [-> ->].
  case_bool_decide; [|done]. rewrite !state_upd by done. by case_bool_decide.
Qed.

Lemma curinv_boost cur t : curinv cur t -> curinv cur (boost_all t).
Proof.
  intros [(I & E & H) R]. split.
  - split_and!; [by apply tinv_boost_all|by destruct (boost_frame t 0) as [_ ->]|done].
  - intros c Hc. destruct (boost_frame t c) as [-> _]. by apply R.
Qed.

Lemma boost_ok cur : op_ok cur (boost PTLOCK : M KS ()).
Proof. apply keeps_op_ok. unfold boost. repeat kstep. by apply curinv_boost. Qed.

Lemma curinv_heads cur t h : curinv cur t -> length h = MLFQ_K -> curinv cur (set_heads h t).
Proof. intros [(I & E & H) R] ?. split; [|done]. split_and!; [by apply tinv_heads|done..]. Qed.

Lemma curinv_running cur t c p :
  curinv cur t -> cur = Some c -> procs t !! c = Some p -> state p = RUNNING /\ (level p < MLFQ_K)%nat.
Proof.
  intros [(I & _ & _) R] Hc Hp. rewrite <- (P_lookup _ _ _ Hp) at 1. split; [by apply R|].
  by eapply (ti_ok _ _ I).
Qed.

(** The running process is not counted, so its level may change freely. *)
Lemma curinv_cur_level cur t c f :
  curinv cur t -> cur = Some c ->
  (forall p, procs t !! c = Some p -> (f (level p) < MLFQ_K)%nat) ->
  curinv cur (upd c (fun q => set_level (f (level q)) q) t).
Proof.
  intros I Hc Hf. destruct (parked_range cur t c) as [p Hp]; [by apply curinv_parked|done|].
  destruct (curinv_running cur t c p I Hc Hp) as [Hs Hl].
  replace (upd c (fun q => set_level (f (level q)) q) t) with (upd c (set_level (f (level p))) t).
  - apply curinv_level; [done|by apply Hf|]. intros q Hq. simplify_eq. by rewrite Hs.
  - unfold upd, set_procs. f_equal. apply list_alter_ext; [|done]. intros q Hq. by simplify_eq.
Qed.

Lemma level_P_lt cur t c : curinv cur t -> cur = Some c -> (level (P t c) < MLFQ_K)%nat.
Proof.
  intros I Hc. destruct (parked_range cur t c) as [p Hp]; [by apply curinv_parked|done|].
  rewrite (P_lookup _ _ _ Hp). by eapply curinv_running.
Qed.

Lemma degrade_ok cur : op_ok cur (degrade MLFQ_K PTLOCK : M KS ()).
Proof.
  apply keeps_op_ok. unfold degrade. apply keeps_bind; [auto with kernel|intros []].
  apply keeps_getp. intros t It. rewrite (curinv_cproc _ _ It). apply keeps_from_keeps; [done|].
  destruct cur as [c|]; [|auto with kernel].
  apply keeps_bind; [by apply keeps_quiet|intros []]. apply keeps_getp. intros t1 I1. cbv zeta.
  set (l := level (P t1 c)). destruct (negb _); [apply from_panic|].
  apply from_bind; [|auto with kernel]. destruct (_ <=? _); [|by apply keeps_from_keeps, keeps_ret].
  assert (curinv (Some c) (set_heads (<[l := None]> (heads t1)) t1)) as I2.
  { apply curinv_heads; [done|]. rewrite length_insert. destruct I1 as [(I & _) _]. apply I. }
  apply from_modp. case_bool_decide as Hl; [apply from_modp_last; by apply curinv_upd|].
  destruct I1 as [HP R]. rewrite (R c eq_refl), bool_decide_false by done. simpl.
  apply from_modp, from_modp_last.
  eapply (curinv_cur_level _ _ c (fun x => x + 1)%nat); [by apply curinv_upd|done|].
  intros p Hp. apply procs_upd_inv in Hp as (q & Hq & ->). simpl in *.
  assert (level q = l) as -> by (unfold l; by rewrite (P_lookup _ _ _ Hq)).
  pose proof (level_P_lt (Some c) t1 c (conj HP R) eq_refl). fold l in H. lia.
Qed.

Lemma rst_ok cur : op_ok cur (rst PTLOCK : M KS ()).
Proof.
  unfold rst. apply op_ok_bind; [apply keeps_op_ok; auto with kernel|intros []].
  apply op_ok_myproc. intros c ->. apply keeps_op_ok, keeps_getp. intros t It.
  rewrite (proj2 It c eq_refl), bool_decide_false by done. apply keeps_from_keeps; [done|].
  apply keeps_bind; [apply keeps_ret|intros []].
  apply keeps_bind; [|intros []; repeat kstep; by apply curinv_upd].
  apply keeps_modp. intros t' I'. by apply (curinv_cur_level (Some c) t' c (fun _ => 0%nat)).
Qed.

Lemma curinv_wake_one cur t i p :
  curinv cur t -> procs t !! i = Some p -> state p = SLEEPING -> curinv cur (make_runnable i t).
Proof.
  intros [(I & E & H) R] Hp Hs. split; [split_and!; [|done..]|].
  - destruct (ti_ok _ _ I i p Hp) as [_ [? ?]]; [tauto|]. eapply tinv_make_runnable; eauto. congruence.
  - intros c Hc. rewrite P_make_runnable; [by apply R|]. intros ->.
    specialize (R c Hc). rewrite (P_lookup _ _ _ Hp) in R. congruence.
Qed.

Lemma kill_ok cur pd : op_ok cur (kill PTLOCK pd : M KS Z).
Proof.
  apply keeps_op_ok. unfold kill. apply keeps_bind; [auto with kernel|intros []].
  apply keeps_getp. intros t It. destruct (list_find _ _) as [[i p]|] eqn:F.
  2: { apply keeps_from_keeps; [done|]. repeat kstep. }
  apply list_find_Some in F as (Hi & _). apply from_modp.
  assert (curinv cur (upd i (set_killed 1) t)) by by apply curinv_upd.
  apply from_bind; [|intros; repeat kstep]. case_bool_decide; [|by apply keeps_from_keeps, keeps_ret].
  apply from_modp_last. apply (curinv_wake_one cur _ i (set_killed 1 p)); [done| |done].
  by rewrite procs_upd_eq, Hi.
Qed.

Lemma getlev_ok cur : op_ok cur (getlev : M KS Z).
Proof. apply op_ok_myproc. intros. apply keeps_op_ok. repeat kstep. Qed.

Lemma setpriority_ok cur pd prio : op_ok cur (setpriority PTLOCK pd prio : M KS Z).
Proof.
  unfold setpriority. destruct (_ || _); [apply keeps_op_ok, keeps_ret|].
  apply op_ok_myproc. intros c Hc. apply keeps_op_ok.
  apply keeps_bind; [auto with kernel|intros []]. apply keeps_getp. intros t It. apply keeps_from_keeps; [done|].
  destruct (list_find _ _) as [[i p]|]; repeat kstep. by apply curinv_upd.
Qed.

Lemma sys_yield_ok cur : op_ok cur (sys_yield PTLOCK : M KS Z).
Proof.
  apply op_ok_bind; [apply rst_ok|]. intros []. apply switches_op_ok, switches_then, yield_switches.
Qed.

Lemma sys_sleep_loop_ok cur n t0 : op_ok cur (sys_sleep_loop PTLOCK TICKSLOCK n t0 : M KS Z).
Proof.
  unfold sys_sleep_loop. apply op_ok_getp. intros t It. apply op_ok_from; [done|].
  destruct (_ <? _); [|apply keeps_op_ok; repeat kstep].
  apply op_ok_myproc. intros c Hc. apply op_ok_getp. intros t2 It2. apply op_ok_from; [done|].
  destruct (nz _); [apply keeps_op_ok; repeat kstep|]. apply switches_op_ok, switches_then, sleep_switches.
Qed.

Lemma sys_sleep_ok cur n : op_ok cur (sys_sleep PTLOCK TICKSLOCK n : M KS Z).
Proof.
  apply op_ok_bind; [apply rst_ok|]. intros []. apply op_ok_bind; [apply keeps_op_ok; auto with kernel|].
  intros []. apply op_ok_getp. intros t It. apply op_ok_from; [done|]. apply sys_sleep_loop_ok.
Qed.

Lemma trap_timer_ok cur user : op_ok cur (trap_timer MLFQ_K PTLOCK TICKSLOCK user : M KS ()).
Proof.
  unfold trap_timer. apply op_ok_bind; [apply keeps_op_ok; auto with kernel|intros []].
  apply op_ok_bind; [apply keeps_op_ok, keeps_modp; intros; by apply curinv_ticks|intros []].
  apply op_ok_bind; [apply degrade_ok|intros []].
  apply op_ok_getp. intros t It. apply op_ok_from; [done|].
  apply op_ok_bind; [apply op_ok_when; intros; apply boost_ok|intros []].
  apply op_ok_bind; [apply wakeup_ok|intros []].
  apply op_ok_bind; [apply keeps_op_ok; auto with kernel|intros []].
  apply op_ok_getp. intros t2 It2. apply op_ok_from; [done|].
  destruct (cproc t2) as [c|]; [|apply keeps_op_ok; auto with kernel].
  apply op_ok_bind; [apply op_ok_when; intros; apply switches_op_ok, exit_switches|intros []].
  apply op_ok_getp. intros t3 It3. apply op_ok_from; [done|].
  apply op_ok_bind; [apply op_ok_when; intros; apply switches_op_ok, yield_switches|intros []].
  unfold trap_tail. apply op_ok_getp. intros t4 It4. apply op_ok_from; [done|].
  destruct (cproc t4) as [c'|]; [|apply keeps_op_ok; auto with kernel].
  apply op_ok_when. intros. apply switches_op_ok, exit_switches.
Qed.
End operations.

(** ** The scheduler's choice *)
Section choice.
Context (MLFQ_K : nat).
Local Abbreviation tinv := (tinv MLFQ_K).
Local Abbreviation search_step := (search_step MLFQ_K).
Local Abbreviation search := (search MLFQ_K).

(** Slot [i] holds a runnable process of queue [lv]. *)
Definition ready (t : ptable) (lv i : nat) : Prop :=
  (i < NPROC)%nat /\ state (P t i) = RUNNABLE /\ level (P t i) = lv.

(** [m] is the first slot of highest priority among the runnable ones of [lv]. *)
Definition first_best (t : ptable) (lv m : nat) : Prop :=
  ready t lv m /\
  (forall i, ready t lv i -> priority (P t i) <= priority (P t m)) /\
  (forall i, ready t lv i -> (i < m)%nat -> priority (P t i) < priority (P t m)).

(** No queue above [lv] has a runnable process. *)
Definition top_level (t : ptable) (lv : nat) : Prop := forall l i, (l < lv)%nat -> ~ ready t l i.

Lemma ready_lookup t lv i :
  tinv t -> ready t lv i <-> exists p, procs t !! i = Some p /\ state p = RUNNABLE /\ level p = lv.
Proof.
  intros I. unfold ready. split.
  - intros (Hi & Hs & Hl). destruct (tinv_lookup_cur _ t i I Hi) as [p Hp].
    rewrite (P_lookup _ _ _ Hp) in Hs, Hl. eauto.
  - intros (p & Hp & Hs & Hl). rewrite (P_lookup _ _ _ Hp). split_and!; [|done..].
    rewrite <- (ti_procs _ _ I). by eapply lookup_lt_Some.
Qed.

Lemma count_pos l ps : 0 < count l ps <-> exists i p, ps !! i = Some p /\ state p = RUNNABLE /\ level p = l.
Proof.
  unfold count, runnable_at. split.
  - intros Hc. destruct (filter _ ps) as [|p k] eqn:E; [simpl in Hc; lia|].
    assert (p ∈ filter (fun p => bool_decide (state p = RUNNABLE /\ level p = l)) ps) as Hp by (rewrite E; left).
    apply list_elem_of_filter in Hp as [Hb Hin]. apply bool_decide_unpack in Hb.
    apply list_elem_of_lookup in Hin as [i Hi]. exists i, p. tauto.
  - intros (i & p & Hi & Hp). assert (p ∈ filter (fun p => bool_decide (state p = RUNNABLE /\ level p = l)) ps) as Hin.
    { apply list_elem_of_filter. split; [by apply bool_decide_pack|]. by eapply list_elem_of_lookup_2. }
    destruct (filter _ ps); [by apply elem_of_nil in Hin|simpl; lia].
Qed.

Lemma numproc_pos t l : tinv t -> (l < MLFQ_K)%nat -> 0 < numproc t !!! l <-> exists i, ready t l i.
Proof.
  intros I Hl. rewrite (ti_count _ _ I), count_pos by done.
  split; [intros (i & H)|intros [i H]]; exists i; by apply (ready_lookup t l i I).
Qed.

Lemma count_insert_unused l ps i p :
  ps !! i = Some p -> count l (<[i := no_proc]> ps) = count l ps - Z.b2z (runnable_at l p).
Proof. intros Hp. rewrite (count_insert l _ i p) by done. simpl. lia. Qed.

(** A queue with two runnable processes has a count above one. *)
Lemma numproc_two t l i j :
  tinv t -> (l < MLFQ_K)%nat -> ready t l i -> ready t l j -> i <> j -> 1 < numproc t !!! l.
Proof.
  intros I Hl Hi Hj Hne. apply (ready_lookup _ _ _ I) in Hi as (p & Hp & Hps & Hpl).
  apply (ready_lookup _ _ _ I) in Hj as (q & Hq & Hqs & Hql).
  rewrite (ti_count _ _ I) by done. pose proof (count_insert_unused l (procs t) i p Hp) as E.
  assert (0 < count l (<[i := no_proc]> (procs t))).
  { apply count_pos. exists j, q. by rewrite list_lookup_insert_ne. }
  unfold runnable_at in E. rewrite bool_decide_true in E by done. simpl in E. lia.
Qed.

Lemma top_level_test t lv :
  tinv t -> (lv <= MLFQ_K)%nat -> top_level t lv -> existsb (fun j => 0 <? numproc t !!! j) (seq 0 lv) = false.
Proof.
  intros I Hlv Ht. apply not_true_iff_false. intros Hx. apply existsb_exists in Hx as (j & Hj & Hn).
  apply in_seq in Hj. bsplit. apply numproc_pos in Hn as [i Hi]; [|done|lia]. apply (Ht j i); [lia|done].
Qed.

Lemma top_level_true t lv :
  tinv t -> (lv <= MLFQ_K)%nat -> existsb (fun j => 0 <? numproc t !!! j) (seq 0 lv) = false -> top_level t lv.
Proof.
  intros I Hlv Hx l i Hl Hi. apply not_true_iff_false in Hx. apply Hx. apply existsb_exists.
  exists l. split; [apply in_seq; lia|]. apply Z.ltb_lt, numproc_pos; [done|lia|eauto].
Qed.

(** [better] finds the first process of higher priority. *)
Lemma better_Some t lv i j q :
  tinv t -> better t lv i = Some (j, q) ->
  ready t lv j /\ priority (P t i) < priority (P t j) /\
  (forall k, (k < j)%nat -> ready t lv k -> priority (P t k) <= priority (P t i)).
Proof.
  intros I Hb. apply list_find_Some in Hb as (Hj & (Hs & Hl & Hp) & Hk). split_and!.
  - apply (ready_lookup _ _ _ I). eauto.
  - by rewrite (P_lookup _ _ _ Hj).
  - intros k Hkj Hr. apply (ready_lookup _ _ _ I) in Hr as (r & Hr & Hrs & Hrl).
    pose proof (Hk k r Hr Hkj) as Hn. rewrite (P_lookup _ _ _ Hr). apply Z.le_ngt. tauto.
Qed.

Lemma better_None t lv i k :
  tinv t -> better t lv i = None -> ready t lv k -> priority (P t k) <= priority (P t i).
Proof.
  intros I Hb Hr. apply list_find_None in Hb. apply (ready_lookup _ _ _ I) in Hr as (r & Hr & Hrs & Hrl).
  rewrite (P_lookup _ _ _ Hr). rewrite Forall_lookup in Hb. pose proof (Hb k r Hr). apply Z.le_ngt. tauto.
Qed.

Lemma ready_test t lv i :
  (i < NPROC)%nat -> bool_decide (state (P t i) = RUNNABLE /\ level (P t i) = lv) = true <-> ready t lv i.
Proof. intros Hi. rewrite bool_decide_eq_true. unfold ready. tauto. Qed.

Lemma step_skip t lv i :
  tinv t -> (lv < MLFQ_K)%nat -> (i < NPROC)%nat -> top_level t lv -> ~ ready t lv i ->
  search_step t lv i = Goto lv (i + 1).
Proof.
  intros I Hlv Hi Ht Hr. unfold Mlfq.search_step. replace (i <? NPROC)%nat with true by (symmetry; by apply Nat.ltb_lt).
  rewrite top_level_test by (done || lia). rewrite bool_decide_false; [done|].
  intros Hx. apply Hr. by split.
Qed.

(** The body of the loop at a runnable process of the top queue. *)
Lemma step_ready t lv i :
  tinv t -> (lv < MLFQ_K)%nat -> top_level t lv -> ready t lv i ->
  search_step t lv i =
    match (if 1 <? numproc t !!! lv then better t lv i else None) with
    | Some (j, _) => if (j <? i)%nat then Goto lv 0 else Goto lv (i + 1)
    | None => Pick i
    end.
Proof.
  intros I Hlv Ht Hr. unfold Mlfq.search_step. destruct Hr as (Hi & Hs & Hl).
  replace (i <? NPROC)%nat with true by (symmetry; by apply Nat.ltb_lt).
  rewrite top_level_test by (done || lia). by rewrite bool_decide_true.
Qed.

Lemma step_pick t lv m :
  tinv t -> (lv < MLFQ_K)%nat -> top_level t lv -> ready t lv m ->
  (forall i, ready t lv i -> priority (P t i) <= priority (P t m)) -> search_step t lv m = Pick m.
Proof.
  intros I Hlv Ht Hr Hm. rewrite step_ready by done. destruct (1 <? _); [|done].
  destruct (better t lv m) as [[j q]|] eqn:E; [|done].
  apply (better_Some _ _ _ _ _ I) in E as (Hj & Hp & _). specialize (Hm j Hj). lia.
Qed.

Lemma step_beaten t lv i k :
  tinv t -> (lv < MLFQ_K)%nat -> top_level t lv -> ready t lv i -> ready t lv k ->
  priority (P t i) < priority (P t k) ->
  exists j, ready t lv j /\ priority (P t i) < priority (P t j) /\
    (forall k, (k < j)%nat -> ready t lv k -> priority (P t k) <= priority (P t i)) /\
    search_step t lv i = if (j <? i)%nat then Goto lv 0 else Goto lv (i + 1).
Proof.
  intros I Hlv Ht Hi Hk Hp. rewrite step_ready by done.
  replace (1 <? _) with true; [|symmetry; apply Z.ltb_lt, (numproc_two t lv i k); try done; intros ->; lia].
  destruct (better t lv i) as [[j q]|] eqn:E.
  - apply (better_Some _ _ _ _ _ I) in E as (Hj & Hjp & Hjk). exists j. done.
  - pose proof (better_None _ _ _ k I E Hk). lia.
Qed.

Lemma search_goto f t lv i lv' i' :
  search_step t lv i = Goto lv' i' -> search (1 + f) t lv i = search f t lv' i'.
Proof. intros E. simpl. by rewrite E. Qed.

Lemma search_mono f g t lv i a : search f t lv i = Some a -> search (f + g) t lv i = Some a.
Proof.
  revert lv i. induction f as [|f IH]; intros lv i; simpl; [done|]. destruct (search_step t lv i); auto.
Qed.

(** A stretch of slots the search passes over. *)
Lemma search_pass f t lv i n :
  (forall k, (i <= k < i + n)%nat -> search_step t lv k = Goto lv (k + 1)) ->
  search (n + f) t lv i = search f t lv (i + n).
Proof.
  revert i. induction n as [|n IH]; intros i Hk; simpl; [by rewrite Nat.add_0_r|].
  rewrite Hk by lia. rewrite IH; [f_equal; lia|]. intros k ?. apply Hk. lia.
Qed.

(** The queues above the first non-empty one are passed over. *)
Lemma search_descend f t l n :
  tinv t -> (l + n < MLFQ_K)%nat -> top_level t (l + n) ->
  search (n * (NPROC + 1) + f) t l 0 = search f t (l + n) 0.
Proof.
  intros I. revert l. induction n as [|n IH]; intros l Hl Ht; [simpl; by rewrite Nat.add_0_r|].
  assert (top_level t l) as Htl by (intros x i ?; apply Ht; lia).
  replace (Datatypes.S n * (NPROC + 1) + f)%nat with (NPROC + (1 + (n * (NPROC + 1) + f)))%nat by (simpl; lia).
  rewrite search_pass.
  2: { intros k Hk. apply step_skip; [done|lia|lia|done|]. apply Ht. lia. }
  rewrite (search_goto _ _ _ _ (l + 1) 0).
  - rewrite IH; [f_equal; lia|lia|]. replace (l + 1 + n)%nat with (l + Datatypes.S n)%nat by lia. done.
  - unfold Mlfq.search_step. rewrite Nat.ltb_irrefl.
    replace (0 <? numproc t !!! l) with false.
    + by replace (l + 1 <? MLFQ_K)%nat with true by (symmetry; apply Nat.ltb_lt; lia).
    + symmetry. apply Z.ltb_ge, Z.le_ngt. rewrite numproc_pos by (done || lia).
      intros [i Hi]. by apply (Ht l i); [lia|].
Qed.

(** C4: the process the scheduler switches to is a best one.  Wherever the search
    stands, if it picks slot [j], then [j] is runnable, no runnable process is
    in a higher queue, and none of its own queue has a higher priority. *)
Theorem scheduler_picks_best t fuel lv i j :
  tinv t -> (lv < MLFQ_K)%nat -> search fuel t lv i = Some (Pick j) ->
  exists l, ready t l j /\ top_level t l /\
    forall k, ready t l k -> priority (P t k) <= priority (P t j).
Proof.
  intros I. revert lv i. induction fuel as [|fuel IH]; intros lv i Hlv; simpl; [done|].
  destruct (search_step t lv i) as [lv' i'|j'|] eqn:E; [|intros [= ->]|done].
  - apply IH. revert E. unfold Mlfq.search_step. repeat case_match; intros; simplify_eq; lia.
  - revert E. unfold Mlfq.search_step. destruct (i <? NPROC)%nat eqn:Hi; [|by repeat case_match].
    apply Nat.ltb_lt in Hi. destruct (existsb _ _) eqn:Hx; [done|].
    case_bool_decide as Hr; [simpl|done]. assert (ready t lv i) as Hri by by split.
    assert (top_level t lv) by (apply top_level_true; [done|lia|done]).
    destruct (1 <? _) eqn:Hn.
    + destruct (better t lv i) as [[k q]|] eqn:Hb; [by case_match|]. intros [= ->].
      exists lv. split_and!; [done..|]. intros k Hk. by apply (better_None t lv j k I).
    + intros [= ->]. exists lv. split_and!; [done..|]. intros k Hk.
      destruct (decide (k = j)) as [-> |Hne]; [done|]. bsplit.
      pose proof (numproc_two t lv k j I Hlv Hk Hri Hne). lia.
Qed.

(** The runnable priorities of queue [lv] never fall before slot [m]. *)
Definition climbing (t : ptable) (lv m : nat) : Prop :=
  forall i j, ready t lv i -> ready t lv j -> (i < j < m)%nat -> priority (P t i) <= priority (P t j).


(** C8: the search does not always end.  When the runnable priorities of the top
    queue fall before its first best process [m], the scheduler goes back to the
    first slot for ever, holding ptable.lock with interrupts off, although
    [m] is runnable. *)
Theorem scheduler_livelock t lv m i j fuel :
  tinv t -> (lv < MLFQ_K)%nat -> top_level t lv -> first_best t lv m ->
  ready t lv i -> ready t lv j -> (i < j < m)%nat -> priority (P t j) < priority (P t i) ->
  search fuel t 0 0 = None.
Proof.
  intros I Hlv Ht (Hm & Hmax & Hfirst) Hi Hj Hij Hp.
  assert (forall f k, (k <= j)%nat -> search f t lv k = None) as Hloop.
  { induction f as [|f IH]; intros k Hk; [done|]. simpl. pose proof Hm as (Hmn & _).
    destruct (decide (ready t lv k)) as [Hr|Hr].
    - destruct (step_beaten t lv k m) as (b & Hb & Hbp & Hbk & ->); try done; [apply Hfirst; [done|lia]|].
      destruct (b <? k)%nat eqn:E; [apply IH; lia|]. apply Nat.ltb_ge in E.
      apply IH. destruct (decide (k = j)) as [-> |]; [|lia].
      assert (b <> i) by (intros ->; lia).
      destruct (decide (i < b)%nat) as [Hib|]; [pose proof (Hbk i Hib Hi)|]; lia.
    - rewrite step_skip by (done || lia). apply IH. destruct (decide (k = j)) as [-> |]; [done|lia]. }
  destruct (search fuel t 0 0) as [a|] eqn:E; [|done].
  apply (search_mono _ (lv * (NPROC + 1))) in E. rewrite Nat.add_comm, search_descend in E by done.
  rewrite Hloop in E by lia. done.
Qed.

(** With no runnable process the search gives up the lock after one pass over
    the queues. *)
Theorem scheduler_idles t fuel :
  tinv t -> (0 < MLFQ_K)%nat -> top_level t MLFQ_K -> (MLFQ_K * (NPROC + 1) <= fuel)%nat ->
  search fuel t 0 0 = Some Idle.
Proof.
  intros I HK Ht Hf.
  replace fuel with ((MLFQ_K - 1) * (NPROC + 1) + (NPROC + (1 + (fuel - MLFQ_K * (NPROC + 1)))))%nat by nia.
  rewrite search_descend; [|done|lia|intros l i ?; apply Ht; lia].
  assert (top_level t (MLFQ_K - 1)) by (intros l i ?; apply Ht; lia).
  rewrite Nat.add_0_l, search_pass.
  2: { intros k Hk. apply step_skip; [done|lia|lia|done|]. apply Ht. lia. }
  rewrite Nat.add_0_l. simpl. unfold Mlfq.search_step. rewrite Nat.ltb_irrefl.
  replace (0 <? _) with false.
  - by replace (_ <? MLFQ_K)%nat with false by (symmetry; apply Nat.ltb_ge; lia).
  - symmetry. apply Z.ltb_ge, Z.le_ngt. rewrite numproc_pos by (done || lia).
    intros [i Hi]. by apply (Ht (MLFQ_K - 1)%nat i); [lia|].
Qed.
End choice.

(** ** The whole system

    One CPU runs the current process's kernel calls, or the scheduler. *)
Section system.
Context (MLFQ_K : nat) (PTLOCK TICKSLOCK : Z) {K : Type} `{!KernelOps K}.
Hypothesis K_pos : (0 < MLFQ_K)%nat.
Local Abbreviation KS := (kstate ptable K).

(** The entry points of this file, with their arguments; [OWaitLoop] and
    [OSleepLoop] are the loops a woken process goes back to. *)
Inductive kop :=
| OFork | OExit | OWait | OWaitLoop | OGrow (n : Z) | OKill (pd : Z) | OSetpriority (pd prio : Z) | OGetlev
| OYield | OSleep (n : Z) | OSleepLoop (n ticks0 : Z) | OSleepOn (c : channel) (lock : Z)
| OWakeup (c : channel) | OTimer (user : bool).

Definition run_op (o : kop) : M KS () :=
  let void {A} (c : M KS A) : M KS () := c ;;; ret () in
  match o with
  | OFork => void (fork PTLOCK)
  | OExit => exit PTLOCK
  | OWait => void (wait PTLOCK)
  | OWaitLoop => void (wait_loop PTLOCK)
  | OGrow n => void (growproc n)
  | OKill pd => void (kill PTLOCK pd)
  | OSetpriority pd prio => void (setpriority PTLOCK pd prio)
  | OGetlev => void getlev
  | OYield => void (sys_yield PTLOCK)
  | OSleep n => void (sys_sleep PTLOCK TICKSLOCK n)
  | OSleepLoop n t0 => void (sys_sleep_loop PTLOCK TICKSLOCK n t0)
  | OSleepOn c l => sleep PTLOCK c l
  | OWakeup c => wakeup PTLOCK c
  | OTimer u => trap_timer MLFQ_K PTLOCK TICKSLOCK u
  end.

(** The CPU runs [c->proc], with the scheduler stopped in front of slot [i] of
    queue [lv]; or it runs the scheduler's search; or the scheduler has
    released the lock. *)
Inductive mode := Running (lv i : nat) | Searching (lv i : nat) | Released.

(** [c->proc = 0] after [swtch] has returned to the scheduler. *)
Definition left (s : KS) : KS := mkKstate (kl s) (set_cproc None (pt s)) (kern s) (first s).

Inductive step : mode * KS -> mode * KS -> Prop :=
| step_return lv i o s s' :
    run_op o s = Ret () s' -> step (Running lv i, s) (Running lv i, s')
| step_switch lv i o s s' c :
    run_op o s = Blocked s' -> cproc (pt s') = Some c -> state (P (pt s') c) <> RUNNING ->
    step (Running lv i, s) (Searching lv i, left s')
| step_search lv i lv' i' s :
    search_step MLFQ_K (pt s) lv i = Goto lv' i' -> step (Searching lv i, s) (Searching lv' i', s)
| step_dispatch lv i s s' :
    search_step MLFQ_K (pt s) lv i = Pick i -> dispatch PTLOCK i s = Ret () s' ->
    step (Searching lv i, s) (Running lv (i + 1), s')
| step_release lv i s s' :
    search_step MLFQ_K (pt s) lv i = Idle -> lk (release PTLOCK) s = Ret () s' ->
    step (Searching lv i, s) (Released, s')
| step_irq o s s' :
    run_op o s = Ret () s' -> step (Released, s) (Released, s')
| step_again s s' :
    lk (acquire PTLOCK) s = Ret () s' -> step (Released, s) (Searching 0 0, s').

(** The invariant of the system. *)
Definition sys_inv (c : mode * KS) : Prop :=
  match c.1 with
  | Running lv _ => exists p, curinv MLFQ_K (Some p) (pt c.2)
  | Searching lv _ => curinv MLFQ_K None (pt c.2)
  | Released => curinv MLFQ_K None (pt c.2)
  end.

Lemma run_op_ok cur o : op_ok MLFQ_K cur (run_op o).
Proof.
  assert (forall A (c : M KS A), op_ok MLFQ_K cur c -> op_ok MLFQ_K cur (c ;;; ret ())) as Hv.
  { intros A c Hc. apply op_ok_bind; [done|]. intros. by apply keeps_op_ok, keeps_ret. }
  destruct o; simpl; try apply Hv; auto using fork_ok, wait_ok, wait_loop_ok, growproc_ok, kill_ok,
    setpriority_ok, getlev_ok, sys_yield_ok, sys_sleep_ok, sys_sleep_loop_ok, wakeup_ok, trap_timer_ok.
  - apply switches_op_ok, exit_switches.
  - apply switches_op_ok, sleep_switches.
Qed.

Lemma left_inv c t :
  parked MLFQ_K (Some c) t -> state (P t c) <> RUNNING -> curinv MLFQ_K None (set_cproc None t).
Proof.
  intros ([I1 I2 I3 I4 I5 I6] & E & H) Hs. split; [|done]. split_and!; [|done..]. split; simpl; try done.
  intros i p Hp Hr. rewrite (I6 i p Hp Hr) in E. simplify_eq. destruct Hs. by rewrite (P_lookup _ _ _ Hp).
Qed.

Lemma keeps_resume cur : keeps (curinv MLFQ_K cur) (resume_proc PTLOCK : M KS ()).
Proof.
  unfold resume_proc. eapply bind_myproc; [apply curinv_cproc|]. intros c Hc.
  apply keeps_getp. intros t It. apply keeps_from_keeps; [done|]. cbv zeta.
  destruct (resume_at _).
  - apply keeps_bind; [auto with kernel|intros [] s Hs]. unfold bind, get, when, put.
    destruct (first s); [|done]. by apply (keeps_kcall (curinv MLFQ_K cur)).
  - repeat kstep.
  - repeat kstep. by apply curinv_upd.
  - repeat kstep.
Qed.

Lemma dispatch_inv i t p :
  curinv MLFQ_K None t -> procs t !! i = Some p -> state p = RUNNABLE ->
  let t2 := set_heads (<[level p := Some i]> (heads t)) (set_cproc (Some i) t) in
  curinv MLFQ_K (Some i) (incr (level p) (-1) (upd i (set_state RUNNING) t2)).
Proof.
  intros [(I & E & _) _] Hp Hs t2. destruct (ti_ok _ _ I i p Hp) as [Hl Hk].
  assert (tinv MLFQ_K t2) as I2.
  { unfold t2. apply tinv_heads; [|by rewrite length_insert; apply I].
    destruct I as [I1 I2 I3 I4 I5 I6]. split; simpl; try done.
    intros j q Hq Hr. rewrite (I6 j q Hq Hr) in E. done. }
  split.
  - split_and!; [|done|intros j [= <-]; rewrite <- (ti_procs _ _ I); by eapply lookup_lt_Some].
    apply (tinv_change MLFQ_K t2 i (set_state RUNNING) (numproc (incr (level p) (-1) t2)));
      [done|unfold incr; simpl; rewrite length_alter; apply I| |by simpl; rewrite Hp].
    intros q Hq. simpl in Hq. simplify_eq. split_and!; [|by split; [|intros _; apply Hk; tauto]|done].
    intros l Hll. rewrite numproc_incr by (unfold t2; simpl; by rewrite (ti_numproc _ _ I)).
    unfold runnable_at. simpl.
    case_decide; [rewrite bool_decide_true by done|rewrite bool_decide_false by (by intros [_ ?])]; simpl; lia.
  - intros c [= <-]. change (P (incr ?a ?b ?t) i) with (P t i). by rewrite (P_upd_eq _ _ _ p).
Qed.

Lemma dispatch_ok i p s s' :
  curinv MLFQ_K None (pt s) -> procs (pt s) !! i = Some p -> state p = RUNNABLE ->
  dispatch PTLOCK i s = Ret () s' -> curinv MLFQ_K (Some i) (pt s').
Proof.
  intros I Hp Hs Hd. pose proof (dispatch_inv i (pt s) p I Hp Hs) as I'. cbv zeta in I'.
  assert (triple (table_is (pt s)) (dispatch PTLOCK i : M KS ()) (fun _ => on_table (curinv MLFQ_K (Some i))) (fun _ => True)) as H.
  { unfold dispatch. tstep. tstep. tstep. tstep; [done|]. tstep. tstep.
    intros s1 Hs1. pose proof (keeps_resume (Some i) s1) as HR. unfold on_table, table_is in *.
    rewrite Hs1 in HR. change (P (set_cproc (Some i) (pt s)) i) with (P (pt s) i) in HR.
    rewrite (P_lookup _ _ _ Hp), (P_upd_eq _ _ _ p) in HR by done. specialize (HR I').
    by destruct (resume_proc PTLOCK s1). }
  specialize (H s eq_refl). by rewrite Hd in H.
Qed.

Lemma step_inv c c' : sys_inv c -> step c c' -> sys_inv c'.
Proof.
  intros I H. destruct H as [lv i o s s' E|lv i o s s' c E Hc Hr|lv i lv' i' s E|lv i s s' E D|lv i s s' E D|o s s' E|s s' E];
    unfold sys_inv in *; simpl in *.
  - destruct I as [p I]. exists p. pose proof (run_op_ok (Some p) o s I) as H. by rewrite E in H.
  - destruct I as [p I]. pose proof (run_op_ok (Some p) o s I) as H. rewrite E in H.
    assert (p = c) as ->. { destruct H as (_ & H & _). congruence. }
    by apply (left_inv c).
  - done.
  - exists i. assert (exists p, procs (pt s) !! i = Some p /\ state p = RUNNABLE) as (p & Hp & Hs); [|by eapply dispatch_ok].
    revert E. unfold search_step. destruct (i <? NPROC)%nat eqn:Hi; [|by repeat case_match].
    apply Nat.ltb_lt in Hi. destruct (existsb _ _); [done|]. case_bool_decide as Hb; [intros _|done].
    destruct I as [(I & _) _]. destruct (tinv_lookup_cur _ _ i I Hi) as [p Hp]. exists p. split; [done|].
    destruct Hb as [Hb _]. by rewrite (P_lookup _ _ _ Hp) in Hb.
  - pose proof (keeps_lk (curinv MLFQ_K None) (release PTLOCK) s I) as H. by rewrite D in H.
  - pose proof (run_op_ok None o s I) as H. by rewrite E in H.
  - pose proof (keeps_lk (curinv MLFQ_K None) (acquire PTLOCK) s I) as H. by rewrite E in H.
Qed.

(** ** The claims *)

(** The table before [pinit]: no process, the first pid is 1. *)
Definition boot_table (h : list (option nat)) (n : list Z) : ptable :=
  mkPtable (replicate NPROC no_proc) h n 1 None None 0.

Lemma count_none l n : count l (replicate n no_proc) = 0.
Proof.
  unfold count. induction n as [|n IH]; simpl; [done|].
  rewrite filter_cons_False; [done|]. by intros [[=] _]%bool_decide_unpack.
Qed.

Lemma boot_inv h n : tinv MLFQ_K (set_numproc (replicate MLFQ_K 0) (set_heads (replicate MLFQ_K None) (boot_table h n))).
Proof.
  split; cbn [procs heads numproc cproc set_numproc set_heads boot_table]; try apply length_replicate.
  - intros l Hl. rewrite count_none. by apply lookup_total_replicate_2.
  - intros i p Hp. apply lookup_replicate in Hp as [-> _]. split; simpl; [lia|intuition congruence].
  - intros i p Hp Hs. apply lookup_replicate in Hp as [-> _]. done.
Qed.

(** C3: the counts the scheduler relies on are right at all times.  In every state
    the system reaches from boot, whatever calls, interrupts and switches
    happen, [numproc[l]] is the number of runnable processes of queue [l],
    every process is in one of the queues, and only [c->proc] is running. *)
Theorem mlfq_invariant h n l0 k s0 md s :
  (pinit MLFQ_K PTLOCK ;;; userinit PTLOCK) (mkKstate l0 (boot_table h n) k true) = Ret () s0 ->
  rtc step (Released, s0) (md, s) ->
  (forall l, (l < MLFQ_K)%nat -> numproc (pt s) !!! l = count l (procs (pt s))) /\
  (forall i p, procs (pt s) !! i = Some p ->
     (level p < MLFQ_K)%nat /\ (state p = RUNNING -> cproc (pt s) = Some i)).
Proof.
  intros Hb Hr. assert (sys_inv (Released, s0)) as I0.
  { unfold sys_inv. simpl.
    assert (triple (table_is (boot_table h n)) (pinit MLFQ_K PTLOCK ;;; userinit PTLOCK : M KS ())
              (fun _ => on_table (curinv MLFQ_K None)) (fun _ => True)) as H.
    { eapply triple_bind.
      - unfold pinit. tstep. tstep. by apply triple_lk.
      - intros []. eapply triple_weaken; [apply (userinit_ok MLFQ_K) with (cur := None); done|..]; try done.
        intros s' Hs'. unfold on_table. rewrite Hs'.
        split; [|by intros ? [=]]. split; [apply boot_inv|]. split; [done|by intros ? [=]]. }
    specialize (H (mkKstate l0 (boot_table h n) k true) eq_refl). by rewrite Hb in H. }
  assert (sys_inv (md, s)) as I.
  { revert I0. generalize dependent (md, s). generalize (Released, s0). intros c0 c1 Hr I0.
    induction Hr as [|c1 c2 c3 H12 _ IH]; [done|]. apply IH. by eapply step_inv. }
  assert (exists cur, curinv MLFQ_K cur (pt s)) as [cur [([I1 I2 I3 I4 I5 I6] & _) _]].
  { unfold sys_inv in I. destruct md; simpl in I; [destruct I|..]; eauto. }
  split; [done|]. intros i p Hp. split; [by eapply I5|by apply I6].
Qed.

(** One tick of the running process [c].  Below its quantum it only gets one
    tick older; at the quantum it moves to the next queue with a fresh
    quantum, and in the last queue it stays with [extime] set to -1.
    Nothing else changes but the head of its queue. *)
Theorem degrade_spec (s : KS) c p :
  unlocked PTLOCK (kl s) -> cproc (pt s) = Some c -> procs (pt s) !! c = Some p -> state p = RUNNING ->
  heads (pt s) !!! level p = Some c ->
  exists s', degrade MLFQ_K PTLOCK s = Ret () s' /\ kern s' = kern s /\ numproc (pt s') = numproc (pt s) /\
    procs (pt s') = <[c := if extime p + 1 <? QT (level p) then set_extime (extime p + 1) p
                           else if bool_decide (level p = MLFQ_K - 1)%nat then set_extime (-1) p
                           else set_level (level p + 1) (set_extime 0 p)]> (procs (pt s)) /\
    heads (pt s') = if extime p + 1 <? QT (level p) then heads (pt s) else <[level p := None]> (heads (pt s)).
Proof.
  intros Hu Hc Hp Hs Hh. destruct (lk_acquire PTLOCK s Hu) as (l & Ha & Hl & _).
  unfold degrade. rewrite (bind_ret _ _ _ _ _ Ha). unfold getp at 1. unfold gets, bind at 1. simpl. rewrite Hc.
  unfold modp at 1. unfold modify, bind at 1. simpl. unfold getp at 1. unfold gets, bind at 1. simpl.
  set (t1 := upd c _ (pt s)).
  assert (procs t1 !! c = Some (set_extime (extime p + 1) p)) as Hp1 by (unfold t1; by rewrite procs_upd_eq, Hp).
  rewrite !(P_lookup _ _ _ Hp1). simpl. rewrite Hh, bool_decide_true by done. simpl. rewrite Hs. simpl.
  assert (procs t1 = <[c := set_extime (extime p + 1) p]> (procs (pt s))) as Ht1
    by exact (upd_insert _ _ (fun q => set_extime (extime q + 1) q) p Hp).
  assert (procs (upd c (set_extime (-1)) t1) = <[c := set_extime (-1) p]> (procs (pt s))) as Ht2
    by (rewrite (upd_insert _ _ _ _ Hp1), Ht1; apply list_insert_insert_eq).
  assert (procs (upd c (fun q => set_level (level q + 1) q) (upd c (set_extime 0) t1)) =
          <[c := set_level (level p + 1) (set_extime 0 p)]> (procs (pt s))) as Ht3.
  { rewrite (upd_insert _ _ (fun q => set_level (level q + 1) q) (set_extime 0 (set_extime (extime p + 1) p)))
      by by rewrite procs_upd_eq, Hp1.
    rewrite (upd_insert _ _ _ _ Hp1), Ht1. by rewrite !list_insert_insert_eq. }
  assert (forall t' : ptable, exists l', lk (release PTLOCK) (mkKstate l t' (kern s) (first s)) =
            Ret () (mkKstate l' t' (kern s) (first s))) as Hrel.
  { intros t'. destruct (lk_release PTLOCK (mkKstate l t' (kern s) (first s))) as (l' & -> & _); [done|]. by exists l'. }
  rewrite Z.leb_antisym. destruct (_ <? _) eqn:Eq; simpl.
  - destruct (Hrel t1) as [l' E]. eexists. split; [exact E|]. split_and!; try done.
  - case_bool_decide as El; unfold bind, modp, modify, ret; simpl.
    + match goal with |- context [mkKstate l ?t' _ _] => destruct (Hrel t') as [l' ->] end.
      eexists. split; [done|]. by split_and!.
    + match goal with |- context [mkKstate l ?t' _ _] => destruct (Hrel t') as [l' ->] end.
      eexists. split; [done|]. by split_and!.
Qed.

(** A running process whose queue has another head makes [degrade] panic. *)
Lemma degrade_panics (s : KS) c p :
  unlocked PTLOCK (kl s) -> cproc (pt s) = Some c -> procs (pt s) !! c = Some p ->
  heads (pt s) !!! level p <> Some c -> degrade MLFQ_K PTLOCK s = Panic "degrade".
Proof.
  intros Hu Hc Hp Hh. destruct (lk_acquire PTLOCK s Hu) as (l & Ha & Hl & _).
  unfold degrade. rewrite (bind_ret _ _ _ _ _ Ha). unfold getp, gets, bind, modp, modify, panic. simpl.
  rewrite Hc. simpl. rewrite (P_upd_eq _ _ _ p) by done. simpl. by rewrite bool_decide_false.
Qed.

(** [rst] breaks what [degrade] checks.  A running process that is not the
    head of queue 0 and calls [rst] (in [sys_yield] or [sys_sleep]) makes the
    next timer interrupt panic, unless it has given up the CPU before. *)
Theorem rst_then_degrade_panics (s : KS) c p :
  unlocked PTLOCK (kl s) -> cproc (pt s) = Some c -> procs (pt s) !! c = Some p -> state p = RUNNING ->
  heads (pt s) !!! 0%nat <> Some c ->
  exists s1, rst PTLOCK s = Ret () s1 /\ degrade MLFQ_K PTLOCK s1 = Panic "degrade".
Proof.
  intros Hu Hc Hp Hs Hh. destruct (lk_acquire PTLOCK s Hu) as (l & Ha & Hl & _).
  unfold rst. rewrite (bind_ret _ _ _ _ _ Ha). unfold myproc, getp, gets, bind, modp, modify, ret. simpl.
  rewrite Hc. simpl. rewrite (P_lookup _ _ _ Hp), Hs. simpl.
  match goal with |- context [lk (release _) ?s'] => destruct (lk_release PTLOCK s') as (l' & -> & Hu' & _); [done|] end.
  eexists. split; [done|]. unfold with_kl. simpl.
  apply (degrade_panics _ c (set_extime 0 (set_level 0 p))); [done..| |done].
  simpl. by rewrite !list_lookup_alter_eq, Hp.
Qed.
End system.

(** ** Boosting *)

(** The effect of [boost_all] on one slot. *)
Definition boosted (p : proc) : proc :=
  if bool_decide (state p <> UNUSED) then set_extime 0 (set_level 0 p) else p.

Lemma boost_slot (l : list nat) t i :
  NoDup l ->
  procs (foldl (fun t i =>
    if bool_decide (state (P t i) <> UNUSED) then
      let t := if bool_decide (state (P t i) = RUNNABLE)
               then incr 0 1 (incr (level (P t i)) (-1) t) else t in
      upd i (set_extime 0) (upd i (set_level 0) t)
    else t) t l) !! i = if decide (i ∈ l) then boosted <$> procs t !! i else procs t !! i.
Proof.
  intros Hn. revert t. induction Hn as [|j l Hj Hn IH]; intros t; cbn [foldl];
    [by case_decide; [set_solver|]|].
  rewrite IH. set (t' := if bool_decide (state (P t j) <> UNUSED) then _ else _).
  assert (forall k, procs t' !! k = if decide (k = j) then boosted <$> procs t !! k else procs t !! k) as Ht'.
  { intros k. unfold t'. destruct (decide (k = j)) as [-> |Hk].
    - destruct (procs t !! j) as [p|] eqn:Hp.
      + rewrite (P_lookup _ _ _ Hp). unfold boosted. simpl. case_bool_decide; [|done].
        rewrite !procs_upd_eq. case_bool_decide; simpl; by rewrite Hp.
      + case_bool_decide; [|done]. rewrite !procs_upd_eq. case_bool_decide; simpl; by rewrite Hp.
    - case_bool_decide; [|done]. rewrite !procs_upd, !decide_False by done. by case_bool_decide. }
  rewrite !Ht'. destruct (decide (i = j)) as [-> |]; repeat case_decide; set_solver.
Qed.

(** [boost].  Every process in use ends up in queue 0 with a fresh quantum
    and is otherwise unchanged, the invariant is kept, and the counts of the
    lower queues are zero. *)
Theorem boost_spec MLFQ_K t :
  tinv MLFQ_K t -> (0 < MLFQ_K)%nat ->
  tinv MLFQ_K (boost_all t) /\
  (forall i p, procs t !! i = Some p -> procs (boost_all t) !! i = Some (boosted p)) /\
  (forall l, (0 < l < MLFQ_K)%nat -> numproc (boost_all t) !!! l = 0).
Proof.
  intros I HK. assert (tinv MLFQ_K (boost_all t)) as I' by by apply tinv_boost_all.
  assert (forall i p, procs t !! i = Some p -> procs (boost_all t) !! i = Some (boosted p)) as Hb.
  { intros i p Hp. unfold boost_all. rewrite boost_slot by apply NoDup_seq.
    rewrite decide_True; [by rewrite Hp|]. apply elem_of_seq. pose proof (lookup_lt_Some _ _ _ Hp) as Hi.
    rewrite (ti_procs _ _ I) in Hi. lia. }
  generalize dependent (boost_all t). intros t' I' Hb.
  split_and!; [done..|]. intros l Hl. destruct (decide (0 < numproc t' !!! l)) as [Hp|Hp].
  - apply (numproc_pos MLFQ_K) in Hp as [i Hi]; [|done|lia].
    apply (ready_lookup MLFQ_K) in Hi as (q & Hq & Hs & Hql); [|done].
    exfalso. destruct (procs t !! i) as [p|] eqn:Hp.
    + rewrite (Hb i p Hp) in Hq. simplify_eq. clear Hb I'. revert Hs Hl. unfold boosted.
      case_bool_decide as Hu; simpl; [lia|]. congruence.
    + apply lookup_ge_None_1 in Hp. apply lookup_lt_Some in Hq.
      rewrite (ti_procs _ _ I) in Hp. rewrite (ti_procs _ _ I') in Hq. lia.
  - rewrite (ti_count _ _ I') in * by lia. unfold count in *. lia.
Qed.

(** ** A concrete kernel, witnesses and what goes wrong

    An allocator that hands out fresh pages, everything else succeeding. *)
Definition demo_ops : KernelOps Z := {|
  kalloc := fun k => Ret (4096 * (k + 1)) (k + 1); kfree := fun _ k => Ret () k;
  setupkvm := fun k => Ret (4096 * (k + 1)) (k + 1); inituvm := fun _ k => Ret () k;
  copyuvm := fun _ _ k => Ret (4096 * (k + 1)) (k + 1); freevm := fun _ k => Ret () k;
  allocuvm := fun _ _ n k => Ret n k; deallocuvm := fun _ _ n k => Ret n k;
  copyout := fun _ _ _ k => Ret 0 k; clearpteu := fun _ _ k => Ret () k; ustore := fun _ _ k => Ret () k; filedup := fun f k => Ret f k; fileclose := fun _ k => Ret () k;
  idup := fun i k => Ret i k; iput := fun _ k => Ret () k; begin_op := fun k => Ret () k;
  end_op := fun k => Ret () k; namei_root := fun k => Ret 1 k; fs_init := fun k => Ret () k |}.

Definition after {S A} (c : M S A) (s : S) : S := match c s with Ret _ s' => s' | Blocked s' => s' | Panic _ => s end.

Definition demo_boot : kstate ptable Z :=
  mkKstate (mkLockst 100 (mkCpu 0 false true) ∅ ∅ 0) (boot_table [] []) 0 true.
Definition demo_up : kstate ptable Z := after (pinit 3 1 ;;; @userinit 1 Z demo_ops) demo_boot.
Definition demo_locked : kstate ptable Z := after (lk (acquire 1)) demo_up.
(** The first process runs. *)
Definition demo_run : kstate ptable Z := after (@dispatch 1 Z demo_ops 0) demo_locked.
Definition demo_fork : kstate ptable Z := after (@run_op 3 1 2 Z demo_ops OFork) demo_run.

Lemma demo_path : rtc (@step 3 1 2 Z demo_ops) (Released, demo_up) (Running 0 1, demo_fork).
Proof.
  eapply rtc_l; [apply (@step_again 3 1 2 Z demo_ops demo_up demo_locked); vm_compute; reflexivity|].
  eapply rtc_l; [apply (@step_dispatch 3 1 2 Z demo_ops 0 0 demo_locked demo_run); vm_compute; reflexivity|].
  apply rtc_once. apply (@step_return 3 1 2 Z demo_ops 0 1 OFork demo_run demo_fork). vm_compute. reflexivity.
Qed.

Lemma mlfq_invariant_witness :
  (forall l, (l < 3)%nat -> numproc (pt demo_fork) !!! l = count l (procs (pt demo_fork))) /\
  (forall i p, procs (pt demo_fork) !! i = Some p ->
     (level p < 3)%nat /\ (state p = RUNNING -> cproc (pt demo_fork) = Some i)).
Proof.
  apply (@mlfq_invariant 3 1 2 Z demo_ops ltac:(lia) [] [] (kl demo_boot) 0 demo_up (Running 0 1) demo_fork).
  - vm_compute. reflexivity.
  - apply demo_path.
Defined.

(** A table of runnable processes of queue 0 with the given priorities. *)
Definition ready_proc (prio : Z) : proc :=
  set_priority prio (set_pgdir 4096 (set_kstack 4096 (set_state RUNNABLE no_proc))).
Definition prio_table (prios : list Z) : ptable :=
  mkPtable ((ready_proc <$> prios) ++ replicate (NPROC - length prios) no_proc) [None; None; None]
    [Z.of_nat (length prios); 0; 0] 1 None None 0.

Lemma runnable_ready l x : runnable_at l (ready_proc x) = bool_decide (l = 0%nat).
Proof. apply bool_decide_ext. simpl. intuition congruence. Qed.

Lemma count_ready l prios : count l (ready_proc <$> prios) = if bool_decide (l = 0%nat) then Z.of_nat (length prios) else 0.
Proof.
  unfold count. induction prios as [|x prios IH]; [by case_bool_decide|].
  rewrite fmap_cons, filter_cons, runnable_ready. case_bool_decide.
  - rewrite decide_True by done. cbn [length]. lia.
  - by rewrite decide_False by (by intros []).
Qed.

Lemma prio_table_inv prios : (length prios <= NPROC)%nat -> tinv 3 (prio_table prios).
Proof.
  intros Hl. assert (Forall (fun p => proc_ok 3 p /\ state p <> RUNNING) (procs (prio_table prios))) as HF.
  { apply Forall_app. split; [apply Forall_fmap, Forall_true|apply Forall_replicate];
      intros; unfold proc_ok; simpl; intuition (lia || congruence). }
  split; cbn [procs heads numproc cproc prio_table].
  - rewrite length_app, length_fmap, length_replicate. lia.
  - done.
  - done.
  - intros l Hll. unfold count. rewrite filter_app, length_app, Nat2Z.inj_add.
    change (numproc (prio_table prios) !!! l = count l (ready_proc <$> prios) + count l (replicate (NPROC - length prios) no_proc)).
    rewrite count_ready, count_none. do 3 (destruct l as [|l]; [simpl; lia|]). lia.
  - intros i p Hp. by destruct (Forall_lookup_1 _ _ _ _ HF Hp).
  - intros i p Hp Hr. by destruct (Forall_lookup_1 _ _ _ _ HF Hp).
Qed.

Ltac prio_ready := unfold ready, NPROC; simpl; split_and!; (done || lia).

(** Only the listed processes are ready, in queue 0. *)
Lemma prio_ready_inv prios l i :
  (length prios <= NPROC)%nat -> ready (prio_table prios) l i -> l = 0%nat /\ exists x, prios !! i = Some x /\ P (prio_table prios) i = ready_proc x.
Proof.
  intros Hl Hr. apply (ready_lookup 3) in Hr as (p & Hp & Hs & Hlv); [|by apply prio_table_inv].
  pose proof Hp as Hp'. apply lookup_app_Some in Hp as [Hp|[_ Hp]].
  - apply list_lookup_fmap_Some_1 in Hp as (x & -> & Hx). split; [done|]. exists x. split; [done|by apply P_lookup].
  - apply lookup_replicate in Hp as [-> _]. done.
Qed.


Lemma scheduler_livelock_witness : search 3 5000 (prio_table [1; 0; 2]) 0 0 = None.
Proof.
  apply (scheduler_livelock 3 (prio_table [1; 0; 2]) 0 2 0 1); try lia; try prio_ready.
  - apply prio_table_inv. unfold NPROC. simpl. lia.
  - intros l i Hl. lia.
  - split_and!; [prio_ready|..]; intros i Hi; apply prio_ready_inv in Hi as (_ & x & Hx & ->); try (unfold NPROC; simpl; lia).
    + do 3 (destruct i as [|i]; [simpl in *; simplify_eq; simpl; lia|]). done.
    + intros H1. do 2 (destruct i as [|i]; [simpl in *; simplify_eq; simpl; lia|]). lia.
  - vm_compute. reflexivity.
Defined.

Lemma scheduler_idles_witness : search 3 195 (prio_table []) 0 0 = Some Idle.
Proof.
  apply (scheduler_idles 3); [apply prio_table_inv; simpl; lia|lia| |unfold NPROC; lia].
  intros l i Hl Hr. apply prio_ready_inv in Hr as (_ & x & Hx & _); [done|simpl; lia].
Defined.

Lemma scheduler_picks_best_witness :
  exists l, ready (prio_table [4; 7; 7]) l 2 /\ top_level (prio_table [4; 7; 7]) l /\
    forall k, ready (prio_table [4; 7; 7]) l k -> priority (P (prio_table [4; 7; 7]) k) <= priority (P (prio_table [4; 7; 7]) 2).
Proof.
  apply (scheduler_picks_best 3 (prio_table [4; 7; 7]) 1 0 2); [apply prio_table_inv; unfold NPROC; simpl; lia|lia|].
  vm_compute. reflexivity.
Defined.

Lemma boost_spec_witness :
  tinv 3 (boost_all (prio_table [4; 7])) /\
  (forall i p, procs (prio_table [4; 7]) !! i = Some p -> procs (boost_all (prio_table [4; 7])) !! i = Some (boosted p)) /\
  (forall l, (0 < l < 3)%nat -> numproc (boost_all (prio_table [4; 7])) !!! l = 0).
Proof. apply (boost_spec 3); [apply prio_table_inv; unfold NPROC; simpl; lia|lia]. Defined.

(** A first process that runs in queue 1: two ticks have passed. *)
Definition demo_level1 : kstate ptable Z :=
  mkKstate (kl demo_run)
    (mkPtable (alter (set_level 1) 0%nat (procs (pt demo_run))) [None; Some 0%nat; None] (numproc (pt demo_run))
       (nextpid (pt demo_run)) (initproc (pt demo_run)) (Some 0%nat) 2) (kern demo_run) false.

Lemma degrade_spec_witness :
  exists s', degrade 3 1 demo_level1 = Ret () s' /\ kern s' = kern demo_level1 /\
    numproc (pt s') = numproc (pt demo_level1) /\
    procs (pt s') = <[0%nat := set_extime 1 (P (pt demo_level1) 0)]> (procs (pt demo_level1)) /\
    heads (pt s') = heads (pt demo_level1).
Proof.
  apply (degrade_spec 3 1 demo_level1 0 (P (pt demo_level1) 0)); try (vm_compute; reflexivity).
  split; [split|]; vm_compute; congruence.
Defined.

Lemma rst_then_degrade_panics_witness :
  exists s1, rst 1 demo_level1 = Ret () s1 /\ degrade 3 1 s1 = Panic "degrade".
Proof.
  apply (rst_then_degrade_panics 3 1 demo_level1 0 (P (pt demo_level1) 0)); try (vm_compute; reflexivity).
  - split; [split|]; vm_compute; congruence.
  - vm_compute. congruence.
Defined.

(** The system call [sleep(0)] of a process in queue 1 returns, and the next
    timer interrupt then panics. *)
Example sleep_zero_panics :
  (sys_sleep 1 2 0 ;;; @trap_timer 3 1 2 Z demo_ops true) demo_level1 = Panic "degrade" /\
  returns (sys_sleep 1 2 0 demo_level1) = true.
Proof. split; vm_compute; reflexivity. Qed.

(** A process of the last queue whose quantum is used up has [extime] -1, and the
    scheduler picks it all the same. *)
Example last_queue_still_scheduled :
  let p := set_extime (-1) (set_level 2 (ready_proc 0)) in
  let t := mkPtable (p :: replicate 63 no_proc) [None; None; None] [0; 0; 1] 2 None None 0 in
  search 3 200 t 0 0 = Some (Pick 0).
Proof. vm_compute. reflexivity. Qed.

(** [kill(0)] finds a free slot, whose pid is 0, and marks it killed; the next
    [fork] that takes the slot creates a process that is already killed. *)
Example kill_zero_hits_next_child :
  let s := after (kill 1 0 ;;; @fork 1 Z demo_ops) demo_run in
  state (P (pt s) 1) = RUNNABLE /\ pid (P (pt s) 1) = 2 /\ killed (P (pt s) 1) = 1.
Proof. vm_compute. done. Qed.
