(* ===== verification/ProcTable.v ===== *)
(** * The plain process table

    The part that proc.c (threads) and proc_multiLevel.c have in common: the
    process table without queues, giving up the CPU and being switched to,
    sleeping and waking, killing.  A routine that ends in [swtch] to the
    scheduler is [Blocked]; what it does when it is switched back to is
    [resume_proc].  [PTLOCK] is the address of [ptable.lock]. *)

From S2P Require Import Prelude CString Spinlock ProcData.
Open Scope Z_scope.

(** [ptable] with the globals of the two files, and [c->proc] of the CPU. *)
Record ptable := mkPtable {
  procs : list proc; nextpid : Z; nexttid : Z; initproc : option nat; cproc : option nat }.

Definition set_procs (v : list proc) (t : ptable) : ptable := mkPtable v (nextpid t) (nexttid t) (initproc t) (cproc t).
Definition set_nextpid (v : Z) (t : ptable) : ptable := mkPtable (procs t) v (nexttid t) (initproc t) (cproc t).
Definition set_nexttid (v : Z) (t : ptable) : ptable := mkPtable (procs t) (nextpid t) v (initproc t) (cproc t).
Definition set_initproc (v : option nat) (t : ptable) : ptable := mkPtable (procs t) (nextpid t) (nexttid t) v (cproc t).
Definition set_cproc (v : option nat) (t : ptable) : ptable := mkPtable (procs t) (nextpid t) (nexttid t) (initproc t) v.

(** [ptable.proc[i]], and an assignment to its fields. *)
Definition P (t : ptable) (i : nat) : proc := procs t !!! i.
Definition upd (i : nat) (f : proc -> proc) (t : ptable) : ptable := set_procs (alter f i (procs t)) t.

Definition wakeup1 (c : channel) (t : ptable) : ptable :=
  foldl (fun t i =>
    if bool_decide (state (P t i) = SLEEPING /\ chan (P t i) = c) then upd i (set_state RUNNABLE) t else t)
    t (seq 0 NPROC).

(** The loop that passes the children of [p] to init. *)
Definition reparent (p : nat) (t : ptable) : ptable :=
  foldl (fun t i =>
    if bool_decide (parent (P t i) = Some p) then
      let t := upd i (set_parent (initproc t)) t in
      if bool_decide (state (P t i) = ZOMBIE) then wakeup1 (proc_chan (initproc t)) t else t
    else t)
    t (seq 0 NPROC).

Section table.
Context (PTLOCK : Z) {K : Type} `{!KernelOps K}.
Local Abbreviation KS := (kstate ptable K).
Local Abbreviation acquire_pt := (lk (acquire PTLOCK)).
Local Abbreviation release_pt := (lk (release PTLOCK)).

Definition pinit : M KS () := lk (modify (set_lock PTLOCK initlock)).

(** A null [myproc()] is dereferenced by most callers: a fault in the kernel. *)
Definition myproc : M KS nat :=
  let* t := getp in
  if cproc t is Some i then ret i else panic "trap".

(** The file descriptors a child inherits. *)
Definition dup_files (cur np : nat) : M KS () :=
  for_each (seq 0 NOFILE) (fun fd =>
    let* t := getp in
    let f := ofile (P t cur) !!! fd in
    when (nz f) (
      let* f' := kcall (filedup f) in
      modp (upd np (fun p => set_ofile (<[fd := f']> (ofile p)) p)))).

Definition close_files (p : nat) : M KS () :=
  for_each (seq 0 NOFILE) (fun fd =>
    let* t := getp in
    let f := ofile (P t p) !!! fd in
    when (nz f) (
      kcall (fileclose f) ;;;
      modp (upd p (fun q => set_ofile (<[fd := 0]> (ofile q)) q)))).

(** [begin_op(); iput(p->cwd); end_op(); p->cwd = 0;] *)
Definition put_cwd (p : nat) : M KS () :=
  kcall begin_op ;;;
  let* t := getp in
  kcall (iput (cwd (P t p))) ;;;
  kcall end_op ;;;
  modp (upd p (set_cwd 0)).

(** [sched], with the point at which the caller resumes. *)
Definition sched (r : resume) : M KS () :=
  let* cur := myproc in
  let* h := lk (holding PTLOCK) in
  if negb h then panic "sched ptable.lock"
  else
    let* c := lk (gets mycpu) in
    if negb (ncli c =? 1) then panic "sched locks"
    else
      let* t := getp in
      if bool_decide (state (P t cur) = RUNNING) then panic "sched running"
      else if IF c then panic "sched interruptible"
      else
        modp (upd cur (set_context (mkContext r (intena c)))) ;;;
        sleeps.

Definition yield : M KS () :=
  acquire_pt ;;;
  let* cur := myproc in
  modp (upd cur (set_state RUNNABLE)) ;;;
  sched AtYield.

Definition sleep (c : channel) (lock : Z) : M KS () :=
  let* t := getp in
  match cproc t with
  | None => panic "sleep"
  | Some cur =>
      if lock =? 0 then panic "sleep without lk"
      else
        when (negb (lock =? PTLOCK)) (acquire_pt ;;; lk (release lock)) ;;;
        modp (upd cur (set_chan c)) ;;;
        modp (upd cur (set_state SLEEPING)) ;;;
        sched (AtSleep lock)
  end.

Definition wakeup (c : channel) : M KS () :=
  acquire_pt ;;;
  modp (wakeup1 c) ;;;
  release_pt.

(** One pass over the table; with children but no zombie the caller sleeps and
    starts over when it is woken. *)
Definition wait_loop : M KS Z :=
  let* cur := myproc in
  let* t := getp in
  match list_find (fun p => parent p = Some cur /\ state p = ZOMBIE) (procs t) with
  | Some (i, p) =>
      kcall (kfree (kstack p)) ;;;
      modp (upd i (set_kstack 0)) ;;;
      kcall (freevm (pgdir p)) ;;;
      modp (upd i (set_pid 0)) ;;;
      modp (upd i (set_parent None)) ;;;
      modp (upd i (set_name [])) ;;;
      modp (upd i (set_killed 0)) ;;;
      modp (upd i (set_state UNUSED)) ;;;
      release_pt ;;;
      ret (pid p)
  | None =>
      let havekids := existsb (fun p => bool_decide (parent p = Some cur)) (procs t) in
      if negb havekids || nz (killed (P t cur)) then release_pt ;;; ret (-1)
      else sleep (ProcChan cur) PTLOCK ;;; ret (-1)
  end.

Definition wait : M KS Z := acquire_pt ;;; wait_loop.

Definition kill (pd : Z) : M KS Z :=
  acquire_pt ;;;
  let* t := getp in
  match list_find (fun p => pid p = pd) (procs t) with
  | Some (i, p) =>
      modp (upd i (set_killed 1)) ;;;
      when (bool_decide (state p = SLEEPING)) (modp (upd i (set_state RUNNABLE))) ;;;
      release_pt ;;;
      ret 0
  | None => release_pt ;;; ret (-1)
  end.

(** The first process is set up in slot [i], just allocated. *)
Definition init_first (i : nat) : M KS () :=
  let* pg := kcall setupkvm in
  modp (upd i (set_pgdir pg)) ;;;
  if pg =? 0 then panic "userinit: out of memory?"
  else
    kcall (inituvm pg) ;;;
    modp (upd i (set_sz PGSIZE)) ;;;
    modp (upd i (set_tf (mkTrapframe 0 0 0 0 0 0 0 0 0 0 35 35 0 0 0 27 512 PGSIZE 35))) ;;;
    modp (upd i (set_name (copy_name INITCODE))) ;;;
    let* root := kcall namei_root in
    modp (upd i (set_cwd root)) ;;;
    acquire_pt ;;;
    modp (upd i (set_state RUNNABLE)) ;;;
    release_pt.

(** Where a process goes on when the scheduler switches to it: [forkret], or
    after the [sched] in which it gave up the CPU. *)
Definition resume_proc : M KS () :=
  let* cur := myproc in
  let* t := getp in
  let c := context (P t cur) in
  let restore := lk (modify (fun l => set_cpu (mkCpu (ncli (mycpu l)) (saved_intena c) (IF (mycpu l))) l)) in
  match resume_at c with
  | AtForkret =>
      release_pt ;;;
      let* s := get in
      when (first s) (
        put (mkKstate (kl s) (pt s) (kern s) false) ;;;
        kcall fs_init)
  | AtYield => restore ;;; release_pt
  | AtSleep lock =>
      restore ;;;
      modp (upd cur (set_chan NoChan)) ;;;
      when (negb (lock =? PTLOCK)) (release_pt ;;; lk (acquire lock))
  | AtExit => restore ;;; panic "zombie exit"
  end.

(** The switch to the chosen process, until it runs again. *)
Definition dispatch (i : nat) : M KS () :=
  modp (set_cproc (Some i)) ;;;
  let* t := getp in
  switchuvm (P t i) ;;;
  modp (upd i (set_state RUNNING)) ;;;
  resume_proc.
End table.


(** ** Facts about the table *)

Lemma slot_lookup t i p : procs t !! i = Some p -> P t i = p.
Proof. apply list_lookup_total_correct. Qed.
Lemma slot_upd t i f j : procs (upd i f t) !! j = if decide (i = j) then f <$> procs t !! i else procs t !! j.
Proof. apply list_lookup_alter. Qed.
Lemma slot_upd_eq t i f : procs (upd i f t) !! i = f <$> procs t !! i.
Proof. rewrite slot_upd. by rewrite decide_True. Qed.
Lemma slot_upd_ne t i f c : i <> c -> P (upd i f t) c = P t c.
Proof. intros. unfold P. by rewrite !list_lookup_total_alt, slot_upd, decide_False. Qed.
Lemma slot_upd_at t c f p : procs t !! c = Some p -> P (upd c f t) c = f p.
Proof. intros Hp. apply slot_lookup. by rewrite slot_upd_eq, Hp. Qed.

(** ** Properties of the table that only some assignments can break

    [J] is kept by every assignment to the fields of a slot that [F] allows,
    and does not depend on the other variables. *)
Section framed.
Context (PTLOCK : Z) {K : Type} `{!KernelOps K} (J : ptable -> Prop) (F : (proc -> proc) -> Prop).
Local Abbreviation KS := (kstate ptable K).
Hypothesis J_upd : forall t i f, F f -> J t -> J (upd i f t).
Hypothesis J_cproc : forall t v, J t -> J (set_cproc v t).
Hypothesis F_state : forall v, F (set_state v).
Hypothesis F_chan : forall v, F (set_chan v).
Hypothesis F_context : forall v, F (set_context v).
Hypothesis F_parent : forall v, F (set_parent v).
Hypothesis F_killed : forall v, F (set_killed v).
Hypothesis F_kstack : forall v, F (set_kstack v).
Hypothesis F_pid : forall v, F (set_pid v).
Hypothesis F_name : forall v, F (set_name v).
Hypothesis F_cwd : forall v, F (set_cwd v).
Hypothesis F_ofile : forall g, F (fun p => set_ofile (g (ofile p)) p).
Hypothesis F_pgdir : forall v, F (set_pgdir v).
Hypothesis F_sz : forall v, F (set_sz v).
Hypothesis F_tf : forall v, F (set_tf v).

Lemma framed_wakeup1 c t : J t -> J (wakeup1 c t).
Proof.
  unfold wakeup1. generalize (seq 0 NPROC). intros l. revert t. induction l as [|i l IH]; intros t I; [done|].
  apply IH. case_bool_decide; auto.
Qed.

Lemma framed_reparent p t : J t -> J (reparent p t).
Proof.
  unfold reparent. generalize (seq 0 NPROC). intros l. revert t. induction l as [|i l IH]; intros t I; [done|].
  apply IH. case_bool_decide; [|done]. cbv zeta. case_bool_decide; [apply framed_wakeup1|]; auto.
Qed.

Lemma framed_modp i f : F f -> keeps J (modp (upd i f) : M KS ()).
Proof. intros Hf. apply keeps_modp. auto. Qed.

Lemma framed_myproc {A} (k : nat -> M KS A) : (forall i, keeps J (k i)) -> keeps J (bind myproc k).
Proof.
  intros Hk. apply keeps_bind; [|done]. unfold myproc. apply keeps_getp. intros t It.
  apply keeps_from_keeps; [done|]. destruct (cproc t); auto with kernel.
Qed.

Lemma framed_sched r : keeps J (sched PTLOCK r : M KS ()).
Proof.
  unfold sched. apply framed_myproc. intros c. repeat kstep. auto.
Qed.
Lemma framed_sleep c lock : keeps J (sleep PTLOCK c lock : M KS ()).
Proof. unfold sleep. repeat kstep; try apply framed_sched; auto. Qed.
Lemma framed_yield : keeps J (yield PTLOCK : M KS ()).
Proof.
  unfold yield. apply keeps_bind; [auto with kernel|intros []]. apply framed_myproc. intros c.
  apply keeps_bind; [by apply framed_modp|intros []]. apply framed_sched.
Qed.
Lemma framed_wakeup c : keeps J (wakeup PTLOCK c : M KS ()).
Proof. unfold wakeup. repeat kstep. by apply framed_wakeup1. Qed.
Lemma framed_dup_files c n : keeps J (dup_files c n : M KS ()).
Proof. unfold dup_files. repeat kstep. apply J_upd; [apply (F_ofile (fun o => <[_ := _]> o))|done]. Qed.
Lemma framed_close_files c : keeps J (close_files c : M KS ()).
Proof. unfold close_files. repeat kstep. apply J_upd; [apply (F_ofile (fun o => <[_ := _]> o))|done]. Qed.
Lemma framed_put_cwd c : keeps J (put_cwd c : M KS ()).
Proof. unfold put_cwd. repeat kstep. auto. Qed.
Lemma framed_init_first i : keeps J (init_first PTLOCK i : M KS ()).
Proof. unfold init_first. repeat kstep; auto. Qed.
Lemma framed_wait : keeps J (wait PTLOCK : M KS Z).
Proof.
  unfold wait, wait_loop. apply keeps_bind; [auto with kernel|intros []]. apply framed_myproc. intros c.
  apply keeps_getp. intros t It. apply keeps_from_keeps; [done|].
  destruct (list_find _ _) as [[i p]|]; [repeat kstep; auto|]. cbv zeta. destruct (_ || _); [repeat kstep|].
  apply keeps_bind; [apply framed_sleep|]. intros []. apply keeps_ret.
Qed.
Lemma framed_kill pd : keeps J (kill PTLOCK pd : M KS Z).
Proof.
  unfold kill. apply keeps_bind; [auto with kernel|intros []]. apply keeps_getp. intros t It.
  apply keeps_from_keeps; [done|]. destruct (list_find _ _) as [[i p]|]; repeat kstep; auto.
Qed.
Lemma framed_resume : keeps J (resume_proc PTLOCK : M KS ()).
Proof.
  unfold resume_proc. apply framed_myproc. intros c. apply keeps_getp. intros t It. apply keeps_from_keeps; [done|].
  cbv zeta. destruct (resume_at _).
  - apply keeps_bind; [auto with kernel|intros []]. intros s Hs. unfold bind, get. destruct (first s); [|done].
    unfold when, bind, put. by apply (keeps_kcall J fs_init).
  - repeat kstep.
  - repeat kstep. auto.
  - repeat kstep.
Qed.
Lemma framed_dispatch i : keeps J (dispatch PTLOCK i : M KS ()).
Proof.
  unfold dispatch. repeat kstep; auto. apply framed_resume.
Qed.
End framed.

(** ** Running routines in a known state *)
Section running.
Context (PTLOCK : Z) {K : Type} `{!KernelOps K}.
Local Abbreviation KS := (kstate ptable K).

Definition with_kern (k : K) (s : KS) : KS := mkKstate (kl s) (pt s) k (first s).
Definition with_pt (t : ptable) (s : KS) : KS := mkKstate (kl s) t (kern s) (first s).

Lemma kcall_run {A} (c : M K A) (s : KS) a k : c (kern s) = Ret a k -> kcall c s = Ret a (with_kern k s).
Proof. intros E. unfold kcall, lift. by rewrite E. Qed.

Lemma modp_run f (s : KS) : modp f s = Ret () (with_pt (f (pt s)) s).
Proof. done. Qed.

Lemma myproc_run (s : KS) i : cproc (pt s) = Some i -> myproc s = Ret i s.
Proof. intros E. unfold myproc, bind, getp, gets. by rewrite E. Qed.

Lemma slot_upd_in t i f j : (i < length (procs t))%nat -> P (upd i f t) j = if decide (i = j) then f (P t j) else P t j.
Proof.
  intros Hi. case_decide; [subst|by apply slot_upd_ne]. destruct (lookup_lt_is_Some_2 _ _ Hi) as [p Hp].
  by rewrite (slot_upd_at _ _ _ _ Hp), (slot_lookup _ _ _ Hp).
Qed.
Lemma len_upd t i f : length (procs (upd i f t)) = length (procs t).
Proof. apply length_alter. Qed.

Lemma upd_upd t i f g : upd i f (upd i g t) = upd i (fun p => f (g p)) t.
Proof. unfold upd, set_procs. simpl. by rewrite alter_twice. Qed.

(** [filedup] returns its argument. *)
Lemma dup_files_run c np (s : KS) :
  (forall f k, exists k', filedup f k = Ret f k') ->
  exists k' o, dup_files c np s = Ret () (with_pt (upd np (fun p => set_ofile (o (ofile p)) p) (pt s)) (with_kern k' s)).
Proof.
  intros Hf. unfold dup_files. generalize (seq 0 NOFILE). intros l. revert s. induction l as [|fd l IH]; intros s; simpl.
  - exists (kern s), (fun o => o). destruct s as [a t k b]. unfold with_pt, with_kern. simpl. unfold ret. do 2 f_equal.
    destruct t as [ps ? ? ? ?]. unfold upd, set_procs. simpl. f_equal. apply list_eq. intros j. rewrite list_lookup_alter.
    case_decide; [subst|done]. destruct (ps !! j) as [[]|]; done.
  - unfold bind at 1, bind at 1, getp at 1, gets. cbv zeta. set (f := ofile (P (pt s) c) !!! fd).
    destruct (nz f) eqn:E; unfold when.
    + destruct (Hf f (kern s)) as [k' Ek]. rewrite (bind_ret _ _ _ _ _ (kcall_run _ s _ _ Ek)). rewrite modp_run.
      destruct (IH (with_pt (upd np (fun p => set_ofile (<[fd := f]> (ofile p)) p) (pt s)) (with_kern k' s))) as (k2 & o & E2).
      exists k2, (fun x => o (<[fd := f]> x)). etrans; [exact E2|]. unfold with_pt, with_kern. simpl. by rewrite upd_upd.
    + unfold ret at 1. apply IH.
Qed.

Lemma close_files_run c (s : KS) :
  (forall f k, exists k', fileclose f k = Ret () k') ->
  exists k' o, close_files c s = Ret () (with_pt (upd c (fun p => set_ofile (o (ofile p)) p) (pt s)) (with_kern k' s)).
Proof.
  intros Hf. unfold close_files. generalize (seq 0 NOFILE). intros l. revert s. induction l as [|fd l IH]; intros s; simpl.
  - exists (kern s), (fun o => o). destruct s as [a t k b]. unfold with_pt, with_kern. simpl. unfold ret. do 2 f_equal.
    destruct t as [ps ? ? ? ?]. unfold upd, set_procs. simpl. f_equal. apply list_eq. intros j. rewrite list_lookup_alter.
    case_decide; [subst|done]. destruct (ps !! j) as [[]|]; done.
  - unfold bind at 1, bind at 1, getp at 1, gets. cbv zeta. set (f := ofile (P (pt s) c) !!! fd).
    destruct (nz f) eqn:E; unfold when.
    + destruct (Hf f (kern s)) as [k' Ek]. rewrite (bind_ret _ _ _ _ _ (kcall_run _ s _ _ Ek)). rewrite modp_run.
      destruct (IH (with_pt (upd c (fun p => set_ofile (<[fd := 0]> (ofile p)) p) (pt s)) (with_kern k' s))) as (k2 & o & E2).
      exists k2, (fun x => o (<[fd := 0]> x)). etrans; [exact E2|]. unfold with_pt, with_kern. simpl. by rewrite upd_upd.
    + unfold ret at 1. apply IH.
Qed.

Lemma put_cwd_run c (s : KS) :
  (forall k, exists k', begin_op k = Ret () k') -> (forall i k, exists k', iput i k = Ret () k') ->
  (forall k, exists k', end_op k = Ret () k') ->
  exists k', put_cwd c s = Ret () (with_pt (upd c (set_cwd 0) (pt s)) (with_kern k' s)).
Proof.
  intros H1 H2 H3. unfold put_cwd. destruct (H1 (kern s)) as [k1 E1].
  rewrite (bind_ret _ _ _ _ _ (kcall_run _ s _ _ E1)). unfold bind at 1, getp, gets.
  destruct (H2 (cwd (P (pt s) c)) k1) as [k2 E2].
  rewrite (bind_ret _ _ _ _ _ (kcall_run _ (with_kern k1 s) _ _ E2)). destruct (H3 k2) as [k3 E3].
  rewrite (bind_ret _ _ _ _ _ (kcall_run _ (with_kern k2 (with_kern k1 s)) _ _ E3)). by exists k3.
Qed.

(** [wakeup1] touches sleeping processes only. *)
Lemma wakeup1_others ch t c :
  (c < length (procs t))%nat -> state (P t c) <> SLEEPING ->
  P (wakeup1 ch t) c = P t c /\ cproc (wakeup1 ch t) = cproc t /\ length (procs (wakeup1 ch t)) = length (procs t).
Proof.
  intros Hc. unfold wakeup1. generalize (seq 0 NPROC). intros l. revert t Hc.
  induction l as [|i l IH]; intros t Hc Hs; simpl; [done|]. case_bool_decide as Hb; [|by apply IH].
  assert (i <> c) by (intros ->; tauto).
  destruct (IH (upd i (set_state RUNNABLE) t)) as (-> & -> & ->); [by rewrite len_upd|by rewrite slot_upd_ne|].
  by rewrite slot_upd_ne, len_upd.
Qed.

(** A process that holds only [ptable.lock] and has left the running state
    gives up the CPU. *)
Lemma sched_run r (s : KS) cur :
  cproc (pt s) = Some cur -> locked_by PTLOCK (kl s) -> ncli (mycpu (kl s)) = 1 -> state (P (pt s) cur) <> RUNNING ->
  exists b, sched PTLOCK r s = Blocked (with_pt (upd cur (set_context (mkContext r b)) (pt s)) s).
Proof.
  intros Hc (Hcpu & Hpos & Hh) Hn Hs. unfold sched. rewrite (bind_ret _ _ _ _ _ (myproc_run s cur Hc)).
  assert (lk (holding PTLOCK) s = Ret true s) as Eh.
  { unfold lk, lift. rewrite holding_off, Hh by done. by destruct s. }
  rewrite (bind_ret _ _ _ _ _ Eh). cbn [negb].
  assert (lk (gets mycpu) s = Ret (mycpu (kl s)) s) as Eg by (unfold lk, lift, gets; by destruct s).
  rewrite (bind_ret _ _ _ _ _ Eg). rewrite Hn. cbn [negb Z.eqb Pos.eqb]. unfold bind at 1, getp, gets.
  rewrite bool_decide_false by done. rewrite (proj2 Hcpu Hpos). rewrite (bind_ret _ _ _ _ _ (modp_run _ _)). by eexists.
Qed.
End running.
