(* ===== verification/Threads.v ===== *)
(** * Processes and threads

    proc.c: a thread is a slot of the process table with its own kernel stack
    and a non-zero [tid]; [main] points to the slot of the process it belongs
    to, whose page table it uses.  The operations are those of proc.c; the ones
    it shares with proc_multiLevel.c are in ProcTable.v. *)

From S2P Require Import Prelude CString Spinlock ProcData ProcTable.
Open Scope Z_scope.

Section Threads.
Context (PTLOCK TICKSLOCK : Z) {K : Type} `{!KernelOps K}.
Local Abbreviation KS := (kstate ptable K).
Local Abbreviation acquire_pt := (lk (acquire PTLOCK)).
Local Abbreviation release_pt := (lk (release PTLOCK)).

Definition allocproc : M KS (option nat) :=
  acquire_pt ;;;
  let* t := getp in
  match list_find (fun p => state p = UNUSED) (procs t) with
  | None => release_pt ;;; ret None
  | Some (i, _) =>
      modp (upd i (set_state EMBRYO)) ;;;
      modp (fun t => set_nextpid (nextpid t + 1) (upd i (set_pid (nextpid t)) t)) ;;;
      modp (upd i (set_tid 0)) ;;;
      modp (upd i (set_main None)) ;;;
      release_pt ;;;
      let* stk := kcall kalloc in
      modp (upd i (set_kstack stk)) ;;;
      if stk =? 0 then modp (upd i (set_state UNUSED)) ;;; ret None
      else modp (upd i (set_context (mkContext AtForkret false))) ;;; ret (Some i)
  end.

Definition userinit : M KS () :=
  let* p := allocproc in
  modp (set_initproc p) ;;;
  match p with None => panic "trap" | Some i => init_first PTLOCK i end.

(** A null [curproc->main] would be dereferenced: a fault in the kernel. *)
Definition main_of (t : ptable) (cur : nat) : option nat :=
  if tid (P t cur) =? 0 then Some cur else main (P t cur).

Definition growproc (n : Z) : M KS Z :=
  let* cur := myproc in
  let* t := getp in
  match main_of t cur with
  | None => panic "trap"
  | Some m =>
      let p := P t m in
      let finish s :=
        modp (upd m (set_sz s)) ;;;
        let* t := getp in
        switchuvm (P t cur) ;;; ret 0 in
      if 0 <? n then
        let* s := kcall (allocuvm (pgdir p) (sz p) (u32 (sz p + n))) in
        if s =? 0 then ret (-1) else finish s
      else if n <? 0 then
        let* s := kcall (deallocuvm (pgdir p) (sz p) (u32 (sz p + n))) in
        if s =? 0 then ret (-1) else finish s
      else finish (sz p)
  end.

Definition fork : M KS Z :=
  let* cur := myproc in
  let* r := allocproc in
  match r with
  | None => ret (-1)
  | Some np =>
      let* t := getp in
      let* pg := kcall (copyuvm (pgdir (P t cur)) (sz (P t cur))) in
      modp (upd np (set_pgdir pg)) ;;;
      if pg =? 0 then
        let* t := getp in
        kcall (kfree (kstack (P t np))) ;;;
        modp (upd np (set_kstack 0)) ;;;
        modp (upd np (set_state UNUSED)) ;;;
        ret (-1)
      else
        modp (upd np (set_sz (sz (P t cur)))) ;;;
        modp (fun t => upd np (set_parent (if negb (tid (P t np) =? 0) then main (P t cur) else Some cur)) t) ;;;
        modp (upd np (set_tf (tf (P t cur)))) ;;;
        modp (upd np (fun p => set_tf (set_eax 0 (tf p)) p)) ;;;
        dup_files cur np ;;;
        let* d := kcall (idup (cwd (P t cur))) in
        modp (upd np (set_cwd d)) ;;;
        modp (upd np (set_name (copy_name (name (P t cur))))) ;;;
        let* t := getp in
        let pid := pid (P t np) in
        acquire_pt ;;;
        modp (upd np (set_state RUNNABLE)) ;;;
        release_pt ;;;
        ret pid
  end.

(** [thread], [start_routine] and [arg] are addresses of the caller. *)
Definition thread_create (thread start_routine arg : Z) : M KS Z :=
  let* cur := myproc in
  let* t := getp in
  let m := default cur (main (P t cur)) in
  let* r := allocproc in
  match r with
  | None => ret (-1)
  | Some np =>
      modp (fun t => set_nextpid (nextpid t - 1) t) ;;;
      modp (fun t => set_nexttid (nexttid t + 1) (upd np (set_tid (nexttid t)) t)) ;;;
      let* t := getp in
      kcall (ustore thread (tid (P t np))) ;;;
      modp (upd np (set_main (Some m))) ;;;
      modp (upd np (set_parent (Some m))) ;;;
      modp (fun t => upd np (set_pid (pid (P t m))) t) ;;;
      let* t := getp in
      let pg := pgdir (P t m) in
      let sb := sz (P t m) in
      modp (upd m (fun p => set_sz (u32 (sz p + 2 * PGSIZE)) p)) ;;;
      let* s := kcall (allocuvm pg sb (u32 (sb + 2 * PGSIZE))) in
      if s =? 0 then modp (upd np (set_state UNUSED)) ;;; ret (-1)
      else
        kcall (clearpteu pg (u32 (s - 2 * PGSIZE))) ;;;
        let sp := u32 (s - 8) in
        let* o := kcall (copyout pg sp (word_bytes 0xffffffff ++ word_bytes arg)) in
        if negb (o =? 0) then panic "create_tread"
        else
          modp (upd np (set_pgdir pg)) ;;;
          modp (fun t => upd np (set_sz (sz (P t m))) t) ;;;
          modp (upd np (set_sbase sb)) ;;;
          modp (fun t => upd np (set_tf (tf (P t m))) t) ;;;
          modp (upd np (fun p => set_tf (set_eip_esp start_routine sp (tf p)) p)) ;;;
          dup_files m np ;;;
          let* t := getp in
          let* d := kcall (idup (cwd (P t m))) in
          modp (upd np (set_cwd d)) ;;;
          modp (fun t => upd np (set_name (copy_name (name (P t m)))) t) ;;;
          acquire_pt ;;;
          modp (upd np (set_state RUNNABLE)) ;;;
          release_pt ;;;
          ret 0
  end.

Definition thread_clear (i : nat) : M KS () :=
  let* t := getp in
  kcall (kfree (kstack (P t i))) ;;;
  modp (upd i (set_kstack 0)) ;;;
  modp (upd i (set_pid 0)) ;;;
  modp (upd i (set_tid 0)) ;;;
  modp (upd i (set_main None)) ;;;
  modp (upd i (set_parent None)) ;;;
  modp (upd i (set_name [])) ;;;
  modp (upd i (set_killed 0)) ;;;
  modp (upd i (set_state UNUSED)).

(** One pass of [clear_subthreads] over the table: whether a thread of [cur]'s
    process is still there.  If so the caller sleeps and starts over. *)
Fixpoint clear_pass (cur : nat) (l : list nat) (havethreads : bool) : M KS bool :=
  match l with
  | [] => ret havethreads
  | i :: l' =>
      let* t := getp in
      if negb (pid (P t i) =? pid (P t cur)) || (i =? cur)%nat then clear_pass cur l' havethreads
      else if bool_decide (state (P t i) = ZOMBIE) then
        thread_clear i ;;; clear_pass cur l' havethreads
      else
        modp (upd i (set_killed 1)) ;;;
        modp (wakeup1 (ProcChan i)) ;;;
        clear_pass cur l' true
  end.

Definition clear_subthreads (cur : nat) : M KS () :=
  let* t := getp in
  when (tid (P t cur) =? 0) (
    acquire_pt ;;;
    let* have := clear_pass cur (seq 0 NPROC) false in
    if have then sleep PTLOCK (ProcChan cur) PTLOCK else release_pt).

(** [exec] kills every other thread of the process. *)
Definition kill_threads_except (pd : Z) (cp : nat) : M KS () :=
  acquire_pt ;;;
  for_each (seq 0 NPROC) (fun i =>
    let* t := getp in
    when (negb (negb (pid (P t i) =? pd) || (i =? cp)%nat)) (
      modp (reparent i) ;;;
      close_files i ;;;
      release_pt ;;;
      put_cwd i ;;;
      acquire_pt ;;;
      thread_clear i)) ;;;
  release_pt.

Definition exit : M KS () :=
  let* cur := myproc in
  let* t := getp in
  if bool_decide (Some cur = initproc t) then panic "init exiting"
  else
    clear_subthreads cur ;;;
    close_files cur ;;;
    put_cwd cur ;;;
    acquire_pt ;;;
    let* t := getp in
    match main (P t cur) with
    | None => modp (wakeup1 (proc_chan (parent (P t cur))))
    | Some m => modp (upd m (set_killed 1)) ;;; modp (wakeup1 (ProcChan m))
    end ;;;
    modp (reparent cur) ;;;
    modp (upd cur (set_state ZOMBIE)) ;;;
    sched PTLOCK AtExit.

Definition thread_exit (rv : Z) : M KS () :=
  let* cur := myproc in
  let* t := getp in
  if bool_decide (Some cur = initproc t) then panic "init exiting"
  else
    modp (upd cur (set_retval rv)) ;;;
    close_files cur ;;;
    put_cwd cur ;;;
    acquire_pt ;;;
    modp (fun t => wakeup1 (proc_chan (main (P t cur))) t) ;;;
    modp (upd cur (set_state ZOMBIE)) ;;;
    sched PTLOCK AtExit.

(** One pass of [thread_join]; [rp] is where the return value goes. *)
Definition join_loop (thread rp : Z) : M KS Z :=
  let* cur := myproc in
  let* t := getp in
  match list_find (fun p => tid p = thread /\ state p = ZOMBIE) (procs t) with
  | Some (i, p) =>
      kcall (ustore rp (retval p)) ;;;
      thread_clear i ;;;
      release_pt ;;;
      ret 0
  | None =>
      let found := existsb (fun p => bool_decide (tid p = thread)) (procs t) in
      if negb found || nz (killed (P t cur)) then release_pt ;;; ret (-1)
      else sleep PTLOCK (ProcChan cur) PTLOCK ;;; ret (-1)
  end.

Definition thread_join (thread rp : Z) : M KS Z := acquire_pt ;;; join_loop thread rp.

(** The scheduler's loop over the table from slot [i]: the next slot to switch
    to, or [None] at the end of the table (where the lock is released and
    interrupts are let in before the next pass). *)
Definition next_runnable (t : ptable) (i : nat) : option nat :=
  '(k, _) ← list_find (fun j => state (P t j) = RUNNABLE) (seq i (NPROC - i));
  Some (i + k)%nat.

(** sysproc.c, after the arguments have been fetched. *)
Definition sys_sbrk (n : Z) : M KS Z :=
  let* cur := myproc in
  let* t := getp in
  match main_of t cur with
  | None => panic "trap"
  | Some m =>
      let addr := sz (P t m) in
      let* r := growproc n in
      if r <? 0 then ret (-1) else ret (s32 addr)
  end.
Definition sys_getpid : M KS Z := let* cur := myproc in let* t := getp in ret (pid (P t cur)).
Definition sys_getppid : M KS Z :=
  let* cur := myproc in
  let* t := getp in
  if parent (P t cur) is Some p then ret (pid (P t p)) else panic "trap".
End Threads.

(** ** Thread ids *)

(** Every thread id in the table has been handed out, and to one slot only. *)
Definition tids_ok (t : ptable) : Prop :=
  (forall i p, procs t !! i = Some p -> 0 <= tid p < nexttid t) /\
  (forall i j p q, procs t !! i = Some p -> procs t !! j = Some q -> tid p = tid q -> tid p <> 0 -> i = j).

Definition keeps_tid (f : proc -> proc) : Prop := forall p, tid (f p) = tid p.

Lemma tids_upd t i f : keeps_tid f -> tids_ok t -> tids_ok (upd i f t).
Proof.
  intros Hf [H1 H2].
  assert (forall j p, procs (upd i f t) !! j = Some p -> exists q, procs t !! j = Some q /\ tid p = tid q) as Hl.
  { intros j p. rewrite slot_upd. case_decide; [subst|eauto]. intros (q & Hq & ->)%fmap_Some. eauto. }
  split.
  - intros j p Hj. destruct (Hl j p Hj) as (q & Hq & ->). by apply (H1 j q).
  - intros j k p q Hj Hk He Hn. destruct (Hl j p Hj) as (p' & Hp' & E1). destruct (Hl k q Hk) as (q' & Hq' & E2).
    apply (H2 j k p' q'); congruence.
Qed.

(** A slot gets a new id, or none. *)
Lemma tids_set t i v : tids_ok t -> 0 < nexttid t -> v = 0 \/ v = nexttid t ->
  tids_ok (set_nexttid (if v =? 0 then nexttid t else nexttid t + 1) (upd i (set_tid v) t)).
Proof.
  intros [H1 H2] Hpos Hv.
  assert (forall j p, alter (set_tid v) i (procs t) !! j = Some p ->
            (j = i /\ tid p = v) \/ (j <> i /\ procs t !! j = Some p)) as Hl.
  { intros j p. rewrite list_lookup_alter. case_decide; [subst; intros (q & _ & ->)%fmap_Some; auto|auto]. }
  split; simpl.
  - intros j p Hj. destruct (Hl j p Hj) as [[_ ->] |[_ Hp]]; [destruct (Z.eqb_spec v 0); lia|].
    pose proof (H1 j p Hp). destruct (v =? 0); lia.
  - intros j k p q Hj Hk He Hn. destruct (Hl j p Hj) as [[-> Ep]|[Hji Hp]], (Hl k q Hk) as [[-> Eq]|[Hki Hq]]; try done.
    + pose proof (H1 k q Hq). lia.
    + pose proof (H1 j p Hp). lia.
    + by apply (H2 j k p q).
Qed.

Section tids.
Context (PTLOCK TICKSLOCK : Z) {K : Type} `{!KernelOps K}.
Local Abbreviation KS := (kstate ptable K).

Definition tinv (t : ptable) : Prop := tids_ok t /\ 0 < nexttid t.

Lemma tinv_slot t i f : keeps_tid f -> tinv t -> tinv (upd i f t).
Proof. intros Hf [H1 H2]. split; [by apply tids_upd|done]. Qed.
Lemma tinv_cproc t v : tinv t -> tinv (set_cproc v t).
Proof. done. Qed.
Lemma tinv_tid0 t i : tinv t -> tinv (upd i (set_tid 0) t).
Proof. intros [H1 H2]. split; [|done]. exact (tids_set t i 0 H1 H2 (or_introl eq_refl)). Qed.
Lemma tinv_newtid t i : tinv t -> tinv (set_nexttid (nexttid t + 1) (upd i (set_tid (nexttid t)) t)).
Proof.
  intros [H1 H2]. split; [|simpl; lia]. pose proof (tids_set t i (nexttid t) H1 H2 (or_intror eq_refl)) as H.
  by replace (nexttid t =? 0) with false in H by lia.
Qed.

Ltac framed lem := eapply lem with (J := tinv) (F := keeps_tid); first [exact tinv_slot|exact tinv_cproc|done].

Lemma tinv_modp i f : keeps_tid f -> keeps tinv (modp (upd i f) : M KS ()).
Proof. intros Hf. apply keeps_modp. intros t. by apply tinv_slot. Qed.

Ltac tinv_step := first [by apply tinv_slot|by apply tinv_tid0|by apply tinv_newtid|done].
Ltac framed_myproc c := apply (framed_myproc tinv); intros c.

Lemma keeps_allocproc : keeps tinv (allocproc PTLOCK : M KS (option nat)).
Proof.
  unfold allocproc. apply keeps_bind; [auto with kernel|intros []]. apply keeps_getp. intros t It.
  apply keeps_from_keeps; [done|]. destruct (list_find _ _) as [[i p]|]; [|repeat kstep].
  repeat kstep; tinv_step.
Qed.

Lemma keeps_thread_clear i : keeps tinv (thread_clear i : M KS ()).
Proof. unfold thread_clear. repeat kstep; tinv_step. Qed.

Lemma keeps_growproc n : keeps tinv (growproc n : M KS Z).
Proof.
  unfold growproc. framed_myproc c. repeat kstep; tinv_step.
Qed.

Lemma keeps_fork : keeps tinv (fork PTLOCK : M KS Z).
Proof.
  unfold fork. framed_myproc c. apply keeps_bind; [apply keeps_allocproc|intros [np|]; [|apply keeps_ret]].
  repeat (kstep || framed framed_dup_files); tinv_step.
Qed.

Lemma keeps_userinit : keeps tinv (userinit PTLOCK : M KS ()).
Proof.
  unfold userinit. apply keeps_bind; [apply keeps_allocproc|intros [np|]];
    (apply keeps_bind; [by apply keeps_modp|intros []]); [framed framed_init_first|auto with kernel].
Qed.

Lemma keeps_thread_create th fn arg : keeps tinv (thread_create PTLOCK th fn arg : M KS Z).
Proof.
  unfold thread_create. framed_myproc c. apply keeps_getp. intros t It. apply keeps_from_keeps; [done|]. cbv zeta.
  apply keeps_bind; [apply keeps_allocproc|intros [np|]; [|apply keeps_ret]].
  repeat (kstep || framed framed_dup_files); tinv_step.
Qed.

Lemma keeps_clear_pass c l b : keeps tinv (clear_pass c l b : M KS bool).
Proof.
  revert b. induction l as [|i l IH]; intros b; simpl; [apply keeps_ret|]. apply keeps_getp. intros t It.
  apply keeps_from_keeps; [done|]. destruct (_ || _); [apply IH|]. case_bool_decide.
  - apply keeps_bind; [apply keeps_thread_clear|]. intros. apply IH.
  - apply keeps_bind; [by apply tinv_modp|intros []]. apply keeps_bind; [|intros; apply IH].
    apply keeps_modp. intros t' It'. framed framed_wakeup1.
Qed.

Lemma keeps_clear_subthreads c : keeps tinv (clear_subthreads PTLOCK c : M KS ()).
Proof.
  unfold clear_subthreads. apply keeps_getp. intros t It. apply keeps_from_keeps; [done|]. apply keeps_when. intros _.
  apply keeps_bind; [auto with kernel|intros []]. apply keeps_bind; [apply keeps_clear_pass|]. intros [].
  - framed framed_sleep.
  - auto with kernel.
Qed.

Lemma keeps_kill_threads pd c : keeps tinv (kill_threads_except PTLOCK pd c : M KS ()).
Proof.
  unfold kill_threads_except. apply keeps_bind; [auto with kernel|intros []]. apply keeps_bind; [|auto with kernel].
  apply keeps_for_each. intros i. apply keeps_getp. intros t It. apply keeps_from_keeps; [done|]. apply keeps_when. intros _.
  apply keeps_bind; [apply keeps_modp; intros t' It'; framed framed_reparent|intros []].
  apply keeps_bind; [framed framed_close_files|intros []]. apply keeps_bind; [auto with kernel|intros []].
  apply keeps_bind; [framed framed_put_cwd|intros []]. apply keeps_bind; [auto with kernel|intros []].
  apply keeps_thread_clear.
Qed.

Lemma keeps_exit : keeps tinv (exit PTLOCK : M KS ()).
Proof.
  unfold exit. framed_myproc c. apply keeps_getp. intros t It. apply keeps_from_keeps; [done|].
  case_bool_decide; [auto with kernel|]. apply keeps_bind; [apply keeps_clear_subthreads|intros []].
  apply keeps_bind; [framed framed_close_files|intros []]. apply keeps_bind; [framed framed_put_cwd|intros []].
  apply keeps_bind; [auto with kernel|intros []]. apply keeps_getp. intros t2 It2. apply keeps_from_keeps; [done|].
  apply keeps_bind.
  - destruct (main _); repeat kstep; first [tinv_step|framed framed_wakeup1].
  - intros []. apply keeps_bind; [apply keeps_modp; intros t' It'; framed framed_reparent|intros []].
    apply keeps_bind; [by apply tinv_modp|intros []]. framed framed_sched.
Qed.

Lemma keeps_thread_exit rv : keeps tinv (thread_exit PTLOCK rv : M KS ()).
Proof.
  unfold thread_exit. framed_myproc c. apply keeps_getp. intros t It. apply keeps_from_keeps; [done|].
  case_bool_decide; [auto with kernel|]. apply keeps_bind; [by apply tinv_modp|intros []].
  apply keeps_bind; [framed framed_close_files|intros []]. apply keeps_bind; [framed framed_put_cwd|intros []].
  apply keeps_bind; [auto with kernel|intros []].
  apply keeps_bind; [apply keeps_modp; intros t' It'; framed framed_wakeup1|intros []].
  apply keeps_bind; [by apply tinv_modp|intros []]. framed framed_sched.
Qed.

Lemma keeps_thread_join th rp : keeps tinv (thread_join PTLOCK th rp : M KS Z).
Proof.
  unfold thread_join, join_loop. apply keeps_bind; [auto with kernel|intros []]. framed_myproc c.
  apply keeps_getp. intros t It. apply keeps_from_keeps; [done|]. destruct (list_find _ _) as [[i p]|].
  - apply keeps_bind; [auto with kernel|intros []]. apply keeps_bind; [apply keeps_thread_clear|intros []]. repeat kstep.
  - cbv zeta. destruct (_ || _); [repeat kstep|]. apply keeps_bind; [framed framed_sleep|]. intros. apply keeps_ret.
Qed.

(** What a running process may call. *)
Inductive op := OFork | OExit | OWait | OKill (pd : Z) | OGrow (n : Z) | OYield | OSleep (c : channel) (lock : Z)
  | OWakeup (c : channel) | OCreate (th fn arg : Z) | OThreadExit (rv : Z) | OJoin (th rp : Z) | OExecKill (pd : Z) (cp : nat).

Definition run_op (o : op) : M KS Z :=
  match o with
  | OFork => fork PTLOCK
  | OExit => exit PTLOCK ;;; ret 0
  | OWait => wait PTLOCK
  | OKill pd => kill PTLOCK pd
  | OGrow n => growproc n
  | OYield => yield PTLOCK ;;; ret 0
  | OSleep c lock => sleep PTLOCK c lock ;;; ret 0
  | OWakeup c => wakeup PTLOCK c ;;; ret 0
  | OCreate th fn arg => thread_create PTLOCK th fn arg
  | OThreadExit rv => thread_exit PTLOCK rv ;;; ret 0
  | OJoin th rp => thread_join PTLOCK th rp
  | OExecKill pd cp => kill_threads_except PTLOCK pd cp ;;; ret 0
  end.

Lemma keeps_run_op o : keeps tinv (run_op o).
Proof.
  destruct o; simpl.
  - apply keeps_fork.
  - apply keeps_bind; [apply keeps_exit|intros; apply keeps_ret].
  - framed framed_wait.
  - framed framed_kill.
  - apply keeps_growproc.
  - apply keeps_bind; [framed framed_yield|intros; apply keeps_ret].
  - apply keeps_bind; [framed framed_sleep|intros; apply keeps_ret].
  - apply keeps_bind; [framed framed_wakeup|intros; apply keeps_ret].
  - apply keeps_thread_create.
  - apply keeps_bind; [apply keeps_thread_exit|intros; apply keeps_ret].
  - apply keeps_thread_join.
  - apply keeps_bind; [apply keeps_kill_threads|intros; apply keeps_ret].
Qed.

(** The system: the scheduler switches to a slot, the process there makes calls
    that return or give up the CPU, and the scheduler takes over again. *)
Inductive step : KS -> KS -> Prop :=
| step_returns o s r s' : run_op o s = Ret r s' -> step s s'
| step_gives_up o s s' : run_op o s = Blocked s' -> step s s'
| step_dispatch i s s' : dispatch PTLOCK i s = Ret () s' -> step s s'
| step_idle s : step s (mkKstate (kl s) (set_cproc None (pt s)) (kern s) (first s))
| step_lock s l : step s (mkKstate l (pt s) (kern s) (first s)).

Lemma step_tinv s s' : step s s' -> tinv (pt s) -> tinv (pt s').
Proof.
  intros Hs I. destruct Hs as [o s r s' E|o s s' E|i s s' E|s|s l]; try done.
  - pose proof (keeps_run_op o s I) as H. by rewrite E in H.
  - pose proof (keeps_run_op o s I) as H. by rewrite E in H.
  - assert (keeps tinv (dispatch PTLOCK i : M KS ())) as Hd by framed framed_dispatch.
    pose proof (Hd s I) as H. by rewrite E in H.
Qed.

(** The table when the kernel starts. *)
Definition boot_table : ptable := mkPtable (replicate NPROC no_proc) 1 1 None None.

Lemma boot_tinv : tinv boot_table.
Proof.
  split; [|done]. split.
  - intros i p Hp. apply lookup_replicate_1 in Hp as [-> _]. simpl. lia.
  - intros i j p q Hp _ _ Hn. apply lookup_replicate_1 in Hp as [-> _]. done.
Qed.

End tids.

(** ** What [thread_create] sets up *)

(** A kernel in which no call of [thread_create] fails. *)
Record kernel_ok {K} (H : KernelOps K) : Prop := {
  ko_kalloc : forall k, exists a k', kalloc k = Ret a k' /\ a <> 0;
  ko_allocuvm : forall pg o n k, o <= n -> n <> 0 -> exists k', allocuvm pg o n k = Ret n k';
  ko_copyout : forall pg a bs k, exists k', copyout pg a bs k = Ret 0 k';
  ko_clearpteu : forall pg a k, exists k', clearpteu pg a k = Ret () k';
  ko_ustore : forall a w k, exists k', ustore a w k = Ret () k';
  ko_filedup : forall f k, exists k', filedup f k = Ret f k';
  ko_idup : forall i k, exists k', idup i k = Ret i k' }.

Section create.
Context (PTLOCK : Z) {K : Type} `{H : !KernelOps K} (KO : kernel_ok H).
Local Abbreviation KS := (kstate ptable K).

Ltac rkcall E :=
  match goal with |- context [bind (kcall ?c) ?k ?s] => rewrite (bind_ret (kcall c) k s _ _ (kcall_run c s _ _ E)) end.

(** The slot after [allocproc]. *)
Definition fresh (pd stk : Z) (p : proc) : proc :=
  set_context (mkContext AtForkret false) (set_kstack stk (set_main None (set_tid 0 (set_pid pd (set_state EMBRYO p))))).

Lemma allocproc_run (s : KS) i p :
  unlocked PTLOCK (kl s) -> list_find (fun p => state p = UNUSED) (procs (pt s)) = Some (i, p) ->
  exists l k stk, stk <> 0 /\ unlocked PTLOCK l /\
    allocproc PTLOCK s = Ret (Some i)
      (mkKstate l (set_nextpid (nextpid (pt s) + 1) (upd i (fresh (nextpid (pt s)) stk) (pt s))) k (first s)).
Proof.
  intros Hu Hf. unfold allocproc. destruct (lk_acquire PTLOCK s Hu) as (l1 & E1 & L1 & _).
  rewrite (bind_ret _ _ _ _ _ E1). unfold bind at 1, getp, gets. change (pt (with_kl l1 s)) with (pt s). rewrite Hf.
  rewrite !(bind_ret _ _ _ _ _ (modp_run _ _)).
  destruct (lk_release PTLOCK (with_pt (upd i (set_main None) (upd i (set_tid 0) (set_nextpid (nextpid (pt s) + 1)
    (upd i (set_pid (nextpid (pt s))) (upd i (set_state EMBRYO) (pt s)))))) (with_kl l1 s)) L1) as (l2 & E2 & L2 & _).
  rewrite (bind_ret _ _ _ _ _ E2). destruct (ko_kalloc _ KO (kern s)) as (stk & k & Ek & Hs).
  rkcall Ek.
  rewrite !(bind_ret _ _ _ _ _ (modp_run _ _)). rewrite (proj2 (Z.eqb_neq stk 0) Hs).
  rewrite !(bind_ret _ _ _ _ _ (modp_run _ _)). exists l2, k, stk. split; [done|]. split; [done|].
  unfold ret, with_pt, with_kl, with_kern. simpl. do 2 f_equal. unfold upd, set_procs, set_nextpid. simpl.
  by rewrite !alter_twice.
Qed.

(** While it works, only the new slot [np] and the slot [m] of the process
    change: the state [s] of the machine, seen through them. *)
Section view.
Context (t0 : ptable) (np m : nat) (Hne : m <> np) (Hnp : (np < NPROC)%nat) (Hm : (m < NPROC)%nat).

Record slots (s : KS) (pn pm : proc) (nt pd : Z) : Prop := {
  sl_np : P (pt s) np = pn; sl_m : P (pt s) m = pm;
  sl_rest : forall j, j <> np -> j <> m -> P (pt s) j = P t0 j;
  sl_len : length (procs (pt s)) = NPROC; sl_nt : nexttid (pt s) = nt; sl_pd : nextpid (pt s) = pd }.

Lemma modp_np {A} F f (k : () -> M KS A) s pn pm nt pd :
  slots s pn pm nt pd -> F (pt s) = upd np f (pt s) ->
  exists s', slots s' (f pn) pm nt pd /\ kl s' = kl s /\ bind (modp F) k s = k () s'.
Proof.
  intros [V1 V2 V3 V4 V5 V6] HF. exists (with_pt (upd np f (pt s)) s). split; [|split; [done|]].
  - split; cbn [pt with_pt]; rewrite ?slot_upd_in, ?len_upd by lia; try done.
    + by rewrite decide_True, V1.
    + by rewrite decide_False.
    + intros j Hj1 Hj2. rewrite slot_upd_in, decide_False by (lia || done). by apply V3.
  - rewrite (bind_ret _ _ _ _ _ (modp_run _ _)). by rewrite HF.
Qed.

Lemma modp_m {A} f (k : () -> M KS A) s pn pm nt pd :
  slots s pn pm nt pd ->
  exists s', slots s' pn (f pm) nt pd /\ kl s' = kl s /\ bind (modp (upd m f)) k s = k () s'.
Proof.
  intros [V1 V2 V3 V4 V5 V6]. exists (with_pt (upd m f (pt s)) s). split; [|split; [done|done]].
  split; cbn [pt with_pt]; rewrite ?slot_upd_in, ?len_upd by lia; try done.
  - by rewrite decide_False.
  - by rewrite decide_True, V2.
  - intros j Hj1 Hj2. rewrite slot_upd_in, decide_False by (lia || done). by apply V3.
Qed.

Lemma kcall_view {A B} (c : M K A) (k : A -> M KS B) s a pn pm nt pd :
  slots s pn pm nt pd -> (forall x, exists x', c x = Ret a x') ->
  exists s', slots s' pn pm nt pd /\ kl s' = kl s /\ bind (kcall c) k s = k a s'.
Proof.
  intros V Hc. destruct (Hc (kern s)) as [x E]. exists (with_kern x s). split; [by destruct V; split|]. split; [done|].
  by rewrite (bind_ret _ _ _ _ _ (kcall_run _ _ _ _ E)).
Qed.

Lemma getp_view {A} (k : ptable -> M KS A) s : bind getp k s = k (pt s) s.
Proof. done. Qed.

Lemma dup_view {A} (k : () -> M KS A) s pn pm nt pd :
  slots s pn pm nt pd ->
  exists s' o, slots s' (set_ofile o pn) pm nt pd /\ kl s' = kl s /\ bind (dup_files m np) k s = k () s'.
Proof.
  intros V. destruct (dup_files_run m np s (ko_filedup _ KO)) as (x & o & E).
  destruct (modp_np (upd np (fun p => set_ofile (o (ofile p)) p)) (fun p => set_ofile (o (ofile p)) p) k
    (with_kern x s) pn pm nt pd) as (s' & V' & Hl & Es); [by destruct V; split|done|].
  exists s', (o (ofile pn)). split; [done|]. split; [done|]. rewrite (bind_ret _ _ _ _ _ E). exact Es.
Qed.

(** Marking the slot runnable under the lock. *)
Lemma publish_view s pn pm nt pd :
  slots s pn pm nt pd -> unlocked PTLOCK (kl s) ->
  exists s', slots s' (set_state RUNNABLE pn) pm nt pd /\ unlocked PTLOCK (kl s') /\
    (lk (acquire PTLOCK) ;;; modp (upd np (set_state RUNNABLE)) ;;; lk (release PTLOCK) ;;; ret 0) s = Ret 0 s'.
Proof.
  intros V Hu. destruct (lk_acquire PTLOCK s Hu) as (l1 & E1 & L1 & _). rewrite (bind_ret _ _ _ _ _ E1).
  destruct (modp_np (upd np (set_state RUNNABLE)) (set_state RUNNABLE) (fun _ => lk (release PTLOCK) ;;; ret 0) (with_kl l1 s) pn pm nt pd)
    as (s2 & V2 & Hl2 & ->); [by destruct V; split|done|].
  destruct (lk_release PTLOCK s2) as (l3 & E3 & L3 & _); [by rewrite Hl2|]. rewrite (bind_ret _ _ _ _ _ E3).
  exists (with_kl l3 s2). split; [by destruct V2; split|]. split; done.
Qed.

Ltac vnp f :=
  lazymatch goal with
  | V : slots ?s ?pn ?pm ?nt ?pd, U : unlocked _ (kl ?s) |- context [bind (modp ?F) ?k ?s] =>
      let s' := fresh "s" in let V' := fresh "V" in let L := fresh "L" in let E := fresh "E" in
      destruct (modp_np F f k s pn pm nt pd V) as (s' & V' & L & E);
      [cbv beta; rewrite ?(sl_m _ _ _ _ _ V); reflexivity|rewrite E, <- L in *; clear E L V]
  end.
Ltac vm f :=
  lazymatch goal with
  | V : slots ?s ?pn ?pm ?nt ?pd, U : unlocked _ (kl ?s) |- context [bind (modp _) ?k ?s] =>
      let s' := fresh "s" in let V' := fresh "V" in let L := fresh "L" in let E := fresh "E" in
      destruct (modp_m f k s pn pm nt pd V) as (s' & V' & L & E); rewrite E, <- L in *; clear E L V
  end.
Ltac vk r H :=
  lazymatch goal with
  | V : slots ?s ?pn ?pm ?nt ?pd, U : unlocked _ (kl ?s) |- context [bind (kcall ?c) ?k ?s] =>
      let s' := fresh "s" in let V' := fresh "V" in let L := fresh "L" in let E := fresh "E" in
      destruct (kcall_view c k s r pn pm nt pd V H) as (s' & V' & L & E); rewrite E, <- L in *; clear E L V
  end.

Ltac vgetm := rewrite getp_view; match goal with V : slots _ _ _ _ _ |- _ => rewrite (sl_m _ _ _ _ _ V) end.

(** The slot of the new thread of the process [M], with the stack at [M]'s
    end and return value register and files as inherited. *)
Definition thread_slot (p0 : proc) (nt pd0 stk fn : Z) (M : proc) (o : list Z) : proc :=
  let e := sz M + 2 * PGSIZE in
  set_state RUNNABLE (set_name (copy_name (name M)) (set_cwd (cwd M) (set_ofile o
    (set_tf (set_eip_esp fn (e - 8) (tf M)) (set_sbase (sz M) (set_sz e (set_pgdir (pgdir M)
    (set_pid (pid M) (set_parent (Some m) (set_main (Some m) (set_tid nt (fresh pd0 stk p0)))))))))))).

Lemma thread_create_run (s : KS) cur p0 th fn arg :
  unlocked PTLOCK (kl s) -> pt s = t0 -> length (procs t0) = NPROC -> cproc t0 = Some cur ->
  m = default cur (main (P t0 cur)) -> list_find (fun p => state p = UNUSED) (procs t0) = Some (np, p0) ->
  0 <= sz (P t0 m) -> sz (P t0 m) + 2 * PGSIZE < 2 ^ 32 ->
  exists s' stk o, stk <> 0 /\ unlocked PTLOCK (kl s') /\ thread_create PTLOCK th fn arg s = Ret 0 s' /\
    slots s' (thread_slot p0 (nexttid t0) (nextpid t0) stk fn (P t0 m) o)
      (set_sz (sz (P t0 m) + 2 * PGSIZE) (P t0 m)) (nexttid t0 + 1) (nextpid t0).
Proof.
  intros Hu Ht Hlen Hc Hdm Hf Hsz Hsz2. unfold thread_create.
  rewrite (bind_ret _ _ _ _ _ (myproc_run s cur ltac:(by rewrite Ht))). rewrite getp_view, Ht. cbv zeta. rewrite <- Hdm.
  rewrite <- Ht in Hf. destruct (allocproc_run s np p0 Hu Hf) as (l1 & k1 & stk & Hstk & U & E1).
  rewrite Ht in *. rewrite (bind_ret _ _ _ _ _ E1). clear E1. rewrite 2!(bind_ret _ _ _ _ _ (modp_run _ _)).
  match goal with |- context [bind getp _ ?s0] => set (s1 := s0) end.
  assert (slots s1 (set_tid (nexttid t0) (fresh (nextpid t0) stk p0)) (P t0 m) (nexttid t0 + 1) (nextpid t0)) as V.
  { apply list_find_Some in Hf as (Hi & _).
    split; unfold s1; simpl; try lia; try done.
    - apply slot_lookup. simpl. rewrite !list_lookup_alter_eq, Hi. done.
    - etrans; [|etrans]; [apply (slot_upd_ne (upd np (fresh (nextpid t0) stk) t0)); done|by apply slot_upd_ne|done].
    - intros j Hj _. etrans; [apply (slot_upd_ne (upd np (fresh (nextpid t0) stk) t0)); done|by apply slot_upd_ne].
    - by rewrite !length_alter. }
  change l1 with (kl s1) in U. clearbody s1. clear Hf Hu. rewrite getp_view. set (M := P t0 m) in *.
  assert (u32 (sz M + 2 * PGSIZE) = sz M + 2 * PGSIZE) as Hu32 by (apply u32_small; unfold PGSIZE in *; lia).
  vk tt (ko_ustore _ KO th (tid (P (pt s1) np))).
  vnp (set_main (Some m)). vnp (set_parent (Some m)). vnp (set_pid (pid M)). vgetm.
  vm (fun p => set_sz (u32 (sz p + 2 * PGSIZE)) p). rewrite Hu32 in *.
  vk (sz M + 2 * PGSIZE) (fun x => ko_allocuvm _ KO (pgdir M) (sz M) (sz M + 2 * PGSIZE) x ltac:(unfold PGSIZE; lia) ltac:(unfold PGSIZE; lia)).
  replace (sz M + 2 * PGSIZE =? 0) with false by (unfold PGSIZE; lia).
  vk tt (ko_clearpteu _ KO (pgdir M) (u32 (sz M + 2 * PGSIZE - 2 * PGSIZE))).
  rewrite (u32_small (sz M + 2 * PGSIZE - 8)) by (unfold PGSIZE in *; lia).
  vk 0 (ko_copyout _ KO (pgdir M) (sz M + 2 * PGSIZE - 8) (word_bytes 0xffffffff ++ word_bytes arg)).
  change (negb (0 =? 0)) with false. cbv iota.
  vnp (set_pgdir (pgdir M)). vnp (set_sz (sz M + 2 * PGSIZE)). vnp (set_sbase (sz M)). vnp (set_tf (tf M)).
  vnp (fun p => set_tf (set_eip_esp fn (sz M + 2 * PGSIZE - 8) (tf p)) p).
  match goal with V : slots ?s ?pn ?pm ?nt ?pd |- context [bind (dup_files _ _) ?k ?s] =>
    destruct (dup_view k s pn pm nt pd V) as (sd & o & Vd & Ld & Ed); rewrite Ed, <- Ld in *; clear Ed Ld V end.
  vgetm. vk (cwd M) (ko_idup _ KO (cwd M)).
  vnp (set_cwd (cwd M)). vnp (set_name (copy_name (name M))).
  match goal with V : slots ?s ?pn ?pm ?nt ?pd |- _ =>
    destruct (publish_view s pn pm nt pd V U) as (s' & V' & U' & E') end.
  exists s', stk, o. split; [done|]. split; [done|]. split; [exact E'|exact V'].
Qed.
End view.

(** What [thread_create] makes.  When memory and slots are available it
    returns 0 and the first free slot holds a runnable thread that belongs to
    the caller's process: it has the next thread id, the pid and page table of
    the process, its own kernel stack, and a user stack of two pages added at
    the end of the process's memory, starting in [fn] with the stack pointer 8
    bytes below the end.  The process has grown by these two pages, no pid is
    used up, and no other slot has changed. *)
Theorem thread_create_spec (s : KS) cur m np p0 th fn arg :
  unlocked PTLOCK (kl s) -> length (procs (pt s)) = NPROC -> cproc (pt s) = Some cur ->
  m = default cur (main (P (pt s) cur)) -> (m < NPROC)%nat -> m <> np ->
  list_find (fun p => state p = UNUSED) (procs (pt s)) = Some (np, p0) ->
  0 <= sz (P (pt s) m) -> sz (P (pt s) m) + 2 * PGSIZE < 2 ^ 32 ->
  exists s', thread_create PTLOCK th fn arg s = Ret 0 s' /\ unlocked PTLOCK (kl s') /\
    let M := P (pt s) m in
    let p := P (pt s') np in
    state p = RUNNABLE /\ tid p = nexttid (pt s) /\ main p = Some m /\ parent p = Some m /\ pid p = pid M /\
    pgdir p = pgdir M /\ sbase p = sz M /\ sz p = sz M + 2 * PGSIZE /\ kstack p <> 0 /\
    tf p = set_eip_esp fn (sz M + 2 * PGSIZE - 8) (tf M) /\ cwd p = cwd M /\
    P (pt s') m = set_sz (sz M + 2 * PGSIZE) M /\
    (forall j, j <> np -> j <> m -> P (pt s') j = P (pt s) j) /\
    nexttid (pt s') = nexttid (pt s) + 1 /\ nextpid (pt s') = nextpid (pt s).
Proof.
  intros Hu Hlen Hc Hm Hmn Hne Hf Hsz Hsz2.
  assert (np < NPROC)%nat as Hnp by (rewrite <- Hlen; apply list_find_Some in Hf as (Hi & _); by apply lookup_lt_Some in Hi).
  destruct (thread_create_run (pt s) np m Hne Hnp Hmn s cur p0 th fn arg) as (s' & stk & o & Hstk & Hu' & E & V); try done.
  exists s'. split; [done|]. split; [done|]. cbv zeta. rewrite (sl_np _ _ _ _ _ _ _ _ V). split_and!; try done; apply V.
Qed.
End create.

(** ** Leaving and joining *)

(** A kernel in which the calls of [thread_exit] and [thread_join] return. *)
Record exit_ok {K} (H : KernelOps K) : Prop := {
  eo_close : forall f k, exists k', fileclose f k = Ret () k';
  eo_begin : forall k, exists k', begin_op k = Ret () k';
  eo_iput : forall i k, exists k', iput i k = Ret () k';
  eo_end : forall k, exists k', end_op k = Ret () k';
  eo_ustore : forall a w k, exists k', ustore a w k = Ret () k';
  eo_kfree : forall a k, exists k', kfree a k = Ret () k' }.

Section exit_join.
Context (PTLOCK : Z) {K : Type} `{H : !KernelOps K} (EO : exit_ok H).
Local Abbreviation KS := (kstate ptable K).

(** The end of [thread_exit], with the lock held. *)
Lemma leave_run (s : KS) cur :
  locked_by PTLOCK (kl s) -> ncli (mycpu (kl s)) = 1 -> cproc (pt s) = Some cur ->
  (cur < length (procs (pt s)))%nat -> state (P (pt s) cur) = RUNNING ->
  exists s' b, (modp (fun t => wakeup1 (proc_chan (main (P t cur))) t) ;;;
             modp (upd cur (set_state ZOMBIE)) ;;; sched PTLOCK AtExit) s = Blocked s' /\
    P (pt s') cur = set_context (mkContext AtExit b) (set_state ZOMBIE (P (pt s) cur)).
Proof.
  intros L Hn Hc Hlt Hr.
  destruct (wakeup1_others (proc_chan (main (P (pt s) cur))) (pt s) cur) as (HW & Hcp & Hlen); [done|by rewrite Hr|].
  rewrite (bind_ret _ _ _ _ _ (modp_run _ _)). cbv beta.
  generalize dependent (wakeup1 (proc_chan (main (P (pt s) cur))) (pt s)). intros tw HW Hcp Hlen.
  rewrite (bind_ret _ _ _ _ _ (modp_run _ _)).
  assert (cur < length (procs tw))%nat as Hl by (by rewrite Hlen).
  destruct (sched_run PTLOCK AtExit (with_pt (upd cur (set_state ZOMBIE) tw) s) cur) as (b & E); try done.
  - simpl. by rewrite Hcp.
  - cbn [pt with_pt]. by rewrite slot_upd_in, decide_True.
  - exists (with_pt (upd cur (set_context (mkContext AtExit b)) (upd cur (set_state ZOMBIE) tw)) s), b. split; [exact E|].
    cbn [pt with_pt]. rewrite !slot_upd_in, !decide_True by (rewrite ?len_upd; done). by rewrite HW.
Qed.

Lemma thread_exit_run (s : KS) cur rv :
  unlocked PTLOCK (kl s) -> ncli (mycpu (kl s)) = 0 -> cproc (pt s) = Some cur ->
  (cur < length (procs (pt s)))%nat -> state (P (pt s) cur) = RUNNING -> initproc (pt s) <> Some cur ->
  exists s', thread_exit PTLOCK rv s = Blocked s' /\
    state (P (pt s') cur) = ZOMBIE /\ retval (P (pt s') cur) = rv /\ tid (P (pt s') cur) = tid (P (pt s) cur) /\
    kstack (P (pt s') cur) = kstack (P (pt s) cur).
Proof.
  intros Hu Hn Hc Hlt Hr Hi. unfold thread_exit. rewrite (bind_ret _ _ _ _ _ (myproc_run s cur Hc)).
  unfold bind at 1, getp at 1, gets at 1. rewrite bool_decide_false by congruence.
  rewrite (bind_ret _ _ _ _ _ (modp_run _ _)).
  destruct (close_files_run cur (with_pt (upd cur (set_retval rv) (pt s)) s) (eo_close _ EO)) as (k1 & o & E1).
  rewrite (bind_ret _ _ _ _ _ E1). clear E1.
  match goal with |- context [bind (put_cwd cur) _ ?s0] =>
    destruct (put_cwd_run cur s0 (eo_begin _ EO) (eo_iput _ EO) (eo_end _ EO)) as (k2 & E2); rewrite (bind_ret _ _ _ _ _ E2); clear E2 end.
  match goal with |- context [bind (lk (acquire PTLOCK)) _ ?s0] =>
    destruct (lk_acquire PTLOCK s0 Hu) as (l3 & E3 & L3 & _ & Hn3); rewrite (bind_ret _ _ _ _ _ E3); clear E3;
    destruct (leave_run (with_kl l3 s0) cur) as (s' & b & E & HP) end.
  - exact L3.
  - simpl. rewrite Hn3. simpl. lia.
  - done.
  - simpl. by rewrite !length_alter.
  - cbn [pt with_pt with_kl with_kern]. by rewrite !slot_upd_in, !decide_True by (rewrite ?len_upd; done).
  - exists s'. split; [exact E|]. rewrite HP. cbn [pt with_pt with_kl with_kern].
    by rewrite !slot_upd_in, !decide_True by (rewrite ?len_upd; done).
Qed.

Lemma thread_clear_run (s : KS) i :
  exists k, kfree (kstack (P (pt s) i)) (kern s) = Ret () k /\
    thread_clear i s = Ret () (with_pt (upd i (fun p => set_state UNUSED (set_killed 0 (set_name [] (set_parent None
      (set_main None (set_tid 0 (set_pid 0 (set_kstack 0 p)))))))) (pt s)) (with_kern k s)).
Proof.
  destruct (eo_kfree _ EO (kstack (P (pt s) i)) (kern s)) as (k & E). exists k. split; [done|].
  unfold thread_clear, bind at 1, getp, gets. rewrite (bind_ret _ _ _ _ _ (kcall_run _ s _ _ E)).
  rewrite !(bind_ret _ _ _ _ _ (modp_run _ _)), modp_run. unfold with_pt, with_kern. simpl. by rewrite !upd_upd.
Qed.

(** C10: a thread's return value reaches the caller of [thread_join].  When a
    running thread calls [thread_exit(rv)] it gives up the CPU as a zombie; and
    in any later state in which its slot is as it left it, [thread_join] on
    its id returns 0 after storing exactly [rv] through the caller's pointer and
    freeing the thread's kernel stack and slot, and nothing else. *)
Theorem thread_exit_join (s : KS) i rv :
  unlocked PTLOCK (kl s) -> ncli (mycpu (kl s)) = 0 -> cproc (pt s) = Some i ->
  (i < length (procs (pt s)))%nat -> state (P (pt s) i) = RUNNING -> initproc (pt s) <> Some i ->
  tid (P (pt s) i) <> 0 ->
  exists s1, thread_exit PTLOCK rv s = Blocked s1 /\
  forall s2 cur rp, tids_ok (pt s2) -> unlocked PTLOCK (kl s2) -> cproc (pt s2) = Some cur ->
    procs (pt s2) !! i = Some (P (pt s1) i) ->
    exists s3 k, thread_join PTLOCK (tid (P (pt s) i)) rp s2 = Ret 0 s3 /\
      ustore rp rv (kern s2) = Ret () k /\ kfree (kstack (P (pt s) i)) k = Ret () (kern s3) /\
      state (P (pt s3) i) = UNUSED /\ tid (P (pt s3) i) = 0 /\
      (forall j, j <> i -> P (pt s3) j = P (pt s2) j).
Proof.
  intros Hu Hn Hc Hlt Hr Hi Ht. destruct (thread_exit_run s i rv) as (s1 & E1 & Z1 & R1 & T1 & K1); try done.
  exists s1. split; [done|]. intros s2 cur rp [_ Hun] Hu2 Hc2 Hp2. unfold thread_join.
  destruct (lk_acquire PTLOCK s2 Hu2) as (l3 & E3 & L3 & _). rewrite (bind_ret _ _ _ _ _ E3). unfold join_loop.
  rewrite (bind_ret _ _ _ _ _ (myproc_run (with_kl l3 s2) cur Hc2)). unfold bind at 1, getp at 1, gets at 1.
  change (pt (with_kl l3 s2)) with (pt s2).
  assert (exists p, list_find (fun p => tid p = tid (P (pt s) i) /\ state p = ZOMBIE) (procs (pt s2)) = Some (i, p) /\ p = P (pt s1) i) as (p & Ef & ->).
  { destruct (list_find_elem_of (fun p => tid p = tid (P (pt s) i) /\ state p = ZOMBIE) (procs (pt s2)) (P (pt s1) i)) as [[j q] Ej];
      [by eapply list_elem_of_lookup_2|done|].
    pose proof Ej as (Hj & [Hq _] & _)%list_find_Some. assert (i = j) as <-.
    { apply (Hun i j (P (pt s1) i) q); congruence. }
    exists q. split; [done|]. congruence. }
  rewrite Ef. rewrite R1. destruct (eo_ustore _ EO rp rv (kern s2)) as (k & Ek).
  match goal with |- context [bind (kcall ?c) ?f ?s0] => rewrite (bind_ret (kcall c) f s0 _ _ (kcall_run c s0 _ _ Ek)) end.
  match goal with |- context [bind (thread_clear i) ?f ?s0] => destruct (thread_clear_run s0 i) as (k' & Ek' & Ec);
    rewrite (bind_ret _ f _ _ _ Ec) end.
  match goal with |- context [bind (lk (release PTLOCK)) _ ?s0] => destruct (lk_release PTLOCK s0 L3) as (l4 & E4 & _ & _);
    rewrite (bind_ret _ _ _ _ _ E4) end.
  eexists _, k. split; [done|]. cbn [pt kern with_kern with_pt with_kl] in *.
  rewrite (slot_lookup _ _ _ Hp2), K1 in Ek'. split; [done|]. split; [done|].
  assert (i < length (procs (pt s2)))%nat as Hi2 by (by apply lookup_lt_Some in Hp2).
  split_and!; [by rewrite slot_upd_in, decide_True..|]. intros j Hj. by rewrite slot_upd_in, decide_False.
Qed.
End exit_join.

(** ** What goes wrong *)
Section wait_threads.
Context (PTLOCK : Z) {K : Type} `{H : !KernelOps K}.
Local Abbreviation KS := (kstate ptable K).

(** C11: [wait] does not know about threads.  A thread's [parent] is the slot of
    its process, so a thread that has exited but was not joined is taken for
    an exited child: [wait] of the process returns the process's own pid and
    calls [freevm] on the page table it shares with the thread, while the
    process goes on running on it. *)
Theorem wait_frees_shared_pgdir (s : KS) cur i p :
  unlocked PTLOCK (kl s) -> cproc (pt s) = Some cur ->
  (forall k, exists k', kfree (kstack p) k = Ret () k') -> (forall k, exists k', freevm (pgdir p) k = Ret () k') ->
  list_find (fun p => parent p = Some cur /\ state p = ZOMBIE) (procs (pt s)) = Some (i, p) ->
  main p = Some cur -> pgdir p = pgdir (P (pt s) cur) -> pid p = pid (P (pt s) cur) -> i <> cur ->
  exists s' k, run_op PTLOCK OWait s = Ret (pid (P (pt s) cur)) s' /\
    freevm (pgdir (P (pt s) cur)) k = Ret () (kern s') /\
    P (pt s') cur = P (pt s) cur /\ cproc (pt s') = Some cur.
Proof.
  intros Hu Hc Hk Hv Hf _ Hpg Hpid Hne. cbn [run_op]. unfold wait.
  destruct (lk_acquire PTLOCK s Hu) as (l1 & E1 & L1 & _). rewrite (bind_ret _ _ _ _ _ E1). unfold wait_loop.
  rewrite (bind_ret _ _ _ _ _ (myproc_run (with_kl l1 s) cur Hc)). unfold bind at 1, getp at 1, gets at 1.
  change (pt (with_kl l1 s)) with (pt s). rewrite Hf. destruct (Hk (kern s)) as [k1 Ek1].
  rewrite (bind_ret _ _ _ _ _ (kcall_run _ (with_kl l1 s) _ _ Ek1)). rewrite (bind_ret _ _ _ _ _ (modp_run _ _)).
  destruct (Hv k1) as [k2 Ek2].
  match goal with |- context [bind (kcall ?c) ?f ?s0] => rewrite (bind_ret (kcall c) f s0 _ _ (kcall_run c s0 _ _ Ek2)) end.
  rewrite !(bind_ret _ _ _ _ _ (modp_run _ _)).
  match goal with |- context [bind (lk (release PTLOCK)) _ ?s0] => destruct (lk_release PTLOCK s0 L1) as (l4 & E4 & _ & _);
    rewrite (bind_ret _ _ _ _ _ E4) end.
  eexists _, k1. rewrite Hpid. split; [done|]. cbn [pt kern with_kern with_pt with_kl]. rewrite <- Hpg.
  split; [done|]. split; [|done]. rewrite !slot_upd_ne by done. done.
Qed.
End wait_threads.

(** ** The scheduler *)


(** ** A concrete kernel, and witnesses

    Every call succeeds; [freevm] records the page table it frees. *)
Definition demo_ops : KernelOps (list Z) := {|
  kalloc := fun k => Ret 8192 k; kfree := fun _ k => Ret () k;
  setupkvm := fun k => Ret 4096 k; inituvm := fun _ k => Ret () k;
  copyuvm := fun _ _ k => Ret 12288 k; freevm := fun pg k => Ret () (pg :: k);
  allocuvm := fun _ _ n k => Ret n k; deallocuvm := fun _ _ n k => Ret n k;
  copyout := fun _ _ _ k => Ret 0 k; clearpteu := fun _ _ k => Ret () k; ustore := fun _ _ k => Ret () k;
  filedup := fun f k => Ret f k; fileclose := fun _ k => Ret () k;
  idup := fun i k => Ret i k; iput := fun _ k => Ret () k; begin_op := fun k => Ret () k;
  end_op := fun k => Ret () k; namei_root := fun k => Ret 1 k; fs_init := fun k => Ret () k |}.

Lemma demo_kernel_ok : kernel_ok demo_ops.
Proof. split; intros; simpl; eauto. Qed.
Lemma demo_exit_ok : exit_ok demo_ops.
Proof. split; intros; simpl; eauto. Qed.

Definition after {S A} (c : M S A) (s : S) : S := match c s with Ret _ s' => s' | Blocked s' => s' | Panic _ => s end.
(** Leave the scheduler with the lock [1], whatever the CPU was doing. *)
Definition idle (s : kstate ptable (list Z)) : kstate ptable (list Z) :=
  mkKstate (mkLockst 100 (mkCpu 0 false true) ∅ ∅ 0) (set_cproc None (pt s)) (kern s) (first s).
Definition switch_to (i : nat) (s : kstate ptable (list Z)) : kstate ptable (list Z) :=
  after (lk (acquire 1) ;;; @dispatch 1 _ demo_ops i) (idle s).

Definition demo_boot : kstate ptable (list Z) :=
  mkKstate (mkLockst 100 (mkCpu 0 false true) ∅ ∅ 0) boot_table [] true.
Definition demo_up : kstate ptable (list Z) := after (@userinit 1 _ demo_ops) demo_boot.
(** The first process forks, its child runs and creates a thread. *)
Definition demo_child : kstate ptable (list Z) := switch_to 1 (after (@fork 1 _ demo_ops) (switch_to 0 demo_up)).
Definition demo_thread : kstate ptable (list Z) := after (@thread_create 1 _ demo_ops 100 200 300) demo_child.
(** The thread runs. *)
Definition demo_in_thread : kstate ptable (list Z) := switch_to 2 (after (@yield 1 _) demo_thread).

Lemma demo_child_facts :
  unlocked 1 (kl demo_child) /\ length (procs (pt demo_child)) = NPROC /\ cproc (pt demo_child) = Some 1%nat /\
  1%nat = default 1%nat (main (P (pt demo_child) 1)) /\ sz (P (pt demo_child) 1) = 4096 /\
  list_find (fun p => state p = UNUSED) (procs (pt demo_child)) = Some (2%nat, no_proc).
Proof.
  unfold unlocked, cpu_ok. split_and!; try (vm_compute; reflexivity).
  - vm_compute. discriminate.
  - intros Hn. vm_compute in Hn. discriminate.
Qed.

Lemma thread_create_spec_witness :
  exists s', @thread_create 1 _ demo_ops 100 200 300 demo_child = Ret 0 s' /\
    state (P (pt s') 2) = RUNNABLE /\ main (P (pt s') 2) = Some 1%nat.
Proof.
  destruct demo_child_facts as (F1 & F2 & F3 & F4 & F5 & F6).
  destruct (thread_create_spec 1 demo_kernel_ok demo_child 1 1 2 no_proc 100 200 300 F1 F2 F3 F4
    ltac:(unfold NPROC; lia) ltac:(lia) F6 ltac:(rewrite F5; lia) ltac:(rewrite F5; unfold PGSIZE; lia))
    as (s' & E & _ & Hs & _ & Hm & _).
  exists s'. split; [exact E|]. split; [exact Hs|exact Hm].
Defined.

Lemma demo_in_thread_facts :
  unlocked 1 (kl demo_in_thread) /\ ncli (mycpu (kl demo_in_thread)) = 0 /\ cproc (pt demo_in_thread) = Some 2%nat /\
  length (procs (pt demo_in_thread)) = NPROC /\ state (P (pt demo_in_thread) 2) = RUNNING /\
  initproc (pt demo_in_thread) = Some 0%nat /\ tid (P (pt demo_in_thread) 2) = 1.
Proof.
  unfold unlocked, cpu_ok. split_and!; try (vm_compute; reflexivity).
  - vm_compute. discriminate.
  - intros Hn. vm_compute in Hn. discriminate.
Qed.

Lemma thread_exit_join_witness :
  exists s1, @thread_exit 1 _ demo_ops 77 demo_in_thread = Blocked s1.
Proof.
  destruct demo_in_thread_facts as (F1 & F2 & F3 & F4 & F5 & F6 & F7).
  destruct (thread_exit_join 1 demo_exit_ok demo_in_thread 2 77 F1 F2 F3 ltac:(rewrite F4; unfold NPROC; lia) F5
    ltac:(rewrite F6; discriminate) ltac:(rewrite F7; discriminate)) as (s1 & E & _).
  exists s1. exact E.
Defined.

(** The thread has exited; its process runs again and waits. *)
Definition demo_zombie : kstate ptable (list Z) := switch_to 1 (after (@thread_exit 1 _ demo_ops 77) demo_in_thread).

Lemma demo_zombie_facts :
  unlocked 1 (kl demo_zombie) /\ cproc (pt demo_zombie) = Some 1%nat /\
  match list_find (fun p => parent p = Some 1%nat /\ state p = ZOMBIE) (procs (pt demo_zombie)) with
  | Some (i, p) => i = 2%nat /\ main p = Some 1%nat /\ pgdir p = pgdir (P (pt demo_zombie) 1) /\ pid p = pid (P (pt demo_zombie) 1)
  | None => False
  end.
Proof.
  unfold unlocked, cpu_ok. split_and!; try (vm_compute; reflexivity).
  - vm_compute. discriminate.
  - intros Hn. vm_compute in Hn. discriminate.
  - vm_compute. repeat split.
Qed.

Lemma wait_frees_shared_pgdir_witness :
  exists s' k, @run_op 1 _ demo_ops OWait demo_zombie = Ret (pid (P (pt demo_zombie) 1)) s' /\
    @freevm _ demo_ops (pgdir (P (pt demo_zombie) 1)) k = Ret () (kern s').
Proof.
  destruct demo_zombie_facts as (F1 & F2 & F3).
  destruct (list_find _ (procs (pt demo_zombie))) as [[i p]|] eqn:Ef; [|destruct F3].
  destruct F3 as (Hi & Hm & Hg & Hd).
  destruct (@wait_frees_shared_pgdir 1 _ demo_ops demo_zombie 1 i p F1 F2 (fun k => ex_intro _ k eq_refl)
    (fun k => ex_intro _ (pgdir p :: k) eq_refl) Ef Hm Hg Hd ltac:(rewrite Hi; discriminate)) as (s' & k & E & Ek & _).
  exists s', k. exact (conj E Ek).
Defined.



(** [fork] tests the thread id of the new slot, which [allocproc] has just
    cleared: the child of a thread gets the thread as its parent, not the
    process. *)
Example fork_in_thread_parent :
  parent (P (pt (after (@fork 1 _ demo_ops) demo_in_thread)) 3) = Some 2%nat /\
  main (P (pt demo_in_thread) 2) = Some 1%nat.
Proof. vm_compute. split; reflexivity. Qed.

(** The child exits; the first process asks for thread 0. *)
Definition demo_dead_child : kstate ptable (list Z) := switch_to 0 (after (@exit 1 _ demo_ops) demo_child).

(** [thread_join] compares thread ids only, and every process has thread id 0:
    [thread_join(0)] reaps a zombie process without freeing its page table, and
    its parent's [wait] then finds no child. *)
Example join_zero_reaps_process :
  let s := after (@thread_join 1 _ demo_ops 0 100) demo_dead_child in
  state (P (pt demo_dead_child) 1) = ZOMBIE /\ state (P (pt s) 1) = UNUSED /\ kern s = [] /\
  match @wait 1 _ demo_ops s with Ret r _ => r = -1 | _ => False end.
Proof. vm_compute. repeat split. Qed.

(** A thread that sleeps is not woken when its process exits: [clear_subthreads]
    wakes what sleeps on the thread's slot, not the thread, and waits. *)
Definition demo_asleep : kstate ptable (list Z) :=
  switch_to 1 (after (lk (acquire 7) ;;; @sleep 1 _ (AddrChan 50) 7) demo_in_thread).
Example exit_waits_for_sleeping_thread :
  match @exit 1 _ demo_ops demo_asleep with
  | Blocked s => state (P (pt s) 1) = SLEEPING /\ state (P (pt s) 2) = SLEEPING /\ killed (P (pt s) 2) = 1
  | _ => False
  end.
Proof. vm_compute. repeat split. Qed.

(** A failed [thread_create] leaves the process two pages larger and keeps the
    kernel stack it allocated. *)
Definition full_ops : KernelOps (list Z) := {|
  kalloc := fun k => Ret 8192 k; kfree := fun a k => Ret () (a :: k);
  setupkvm := fun k => Ret 4096 k; inituvm := fun _ k => Ret () k;
  copyuvm := fun _ _ k => Ret 12288 k; freevm := fun pg k => Ret () (pg :: k);
  allocuvm := fun _ _ n k => Ret 0 k; deallocuvm := fun _ _ n k => Ret n k;
  copyout := fun _ _ _ k => Ret 0 k; clearpteu := fun _ _ k => Ret () k; ustore := fun _ _ k => Ret () k;
  filedup := fun f k => Ret f k; fileclose := fun _ k => Ret () k;
  idup := fun i k => Ret i k; iput := fun _ k => Ret () k; begin_op := fun k => Ret () k;
  end_op := fun k => Ret () k; namei_root := fun k => Ret 1 k; fs_init := fun k => Ret () k |}.
Example failed_create_leaks :
  match @thread_create 1 _ full_ops 100 200 300 demo_child with
  | Ret r s => r = -1 /\ kern s = [] /\ sz (P (pt s) 1) = sz (P (pt demo_child) 1) + 2 * PGSIZE /\
      state (P (pt s) 2) = UNUSED /\ kstack (P (pt s) 2) = 8192
  | _ => False
  end.
Proof. vm_compute. repeat split. Qed.
