(* ===== verification/MultiLevel.v ===== *)
(** * The multi-level queue

    proc_multiLevel.c: processes with an even pid are scheduled round robin,
    and those with an odd pid first come, first served when no even one is
    runnable.  What the file shares with proc.c is in ProcTable.v. *)

From S2P Require Import Prelude CString Spinlock ProcData ProcTable.
Open Scope Z_scope.

Section MultiLevel.
Context (PTLOCK : Z) {K : Type} `{!KernelOps K}.
Local Abbreviation KS := (kstate ptable K).
Local Abbreviation acquire_pt := (lk (acquire PTLOCK)).
Local Abbreviation release_pt := (lk (release PTLOCK)).

Definition pinit : M KS () := ProcTable.pinit PTLOCK.
Definition myproc : M KS nat := ProcTable.myproc.

Definition allocproc : M KS (option nat) :=
  acquire_pt ;;;
  let* t := getp in
  match list_find (fun p => state p = UNUSED) (procs t) with
  | None => release_pt ;;; ret None
  | Some (i, _) =>
      modp (upd i (set_state EMBRYO)) ;;;
      modp (fun t => set_nextpid (nextpid t + 1) (upd i (set_pid (nextpid t)) t)) ;;;
      release_pt ;;;
      let* stk := kcall kalloc in
      modp (upd i (set_kstack stk)) ;;;
      if stk =? 0 then modp (upd i (set_state UNUSED)) ;;; ret None
      else modp (upd i (set_context (mkContext AtForkret false))) ;;; ret (Some i)
  end.

Definition userinit : M KS () :=
  let* p := allocproc in
  modp (set_initproc p) ;;;
  match p with None => panic "trap" | Some i => init_first PTLOCK i end.

Definition growproc (n : Z) : M KS Z :=
  let* cur := myproc in
  let* t := getp in
  let p := P t cur in
  let finish s :=
    modp (upd cur (set_sz s)) ;;;
    let* t := getp in
    switchuvm (P t cur) ;;; ret 0 in
  if 0 <? n then
    let* s := kcall (allocuvm (pgdir p) (sz p) (u32 (sz p + n))) in
    if s =? 0 then ret (-1) else finish s
  else if n <? 0 then
    let* s := kcall (deallocuvm (pgdir p) (sz p) (u32 (sz p + n))) in
    if s =? 0 then ret (-1) else finish s
  else finish (sz p).

Definition fork : M KS Z :=
  let* cur := myproc in
  let* r := allocproc in
  match r with
  | None => ret (-1)
  | Some np =>
      let* t := getp in
      let* pg := kcall (copyuvm (pgdir (P t cur)) (sz (P t cur))) in
      modp (upd np (set_pgdir pg)) ;;;
      if pg =? 0 then
        let* t := getp in
        kcall (kfree (kstack (P t np))) ;;;
        modp (upd np (set_kstack 0)) ;;;
        modp (upd np (set_state UNUSED)) ;;;
        ret (-1)
      else
        modp (upd np (set_sz (sz (P t cur)))) ;;;
        modp (upd np (set_parent (Some cur))) ;;;
        modp (upd np (set_tf (tf (P t cur)))) ;;;
        modp (upd np (fun p => set_tf (set_eax 0 (tf p)) p)) ;;;
        dup_files cur np ;;;
        let* d := kcall (idup (cwd (P t cur))) in
        modp (upd np (set_cwd d)) ;;;
        modp (upd np (set_name (copy_name (name (P t cur))))) ;;;
        let* t := getp in
        let pid := pid (P t np) in
        acquire_pt ;;;
        modp (upd np (set_state RUNNABLE)) ;;;
        release_pt ;;;
        ret pid
  end.

Definition sched (r : resume) : M KS () := ProcTable.sched PTLOCK r.

Definition exit : M KS () :=
  let* cur := myproc in
  let* t := getp in
  if bool_decide (Some cur = initproc t) then panic "init exiting"
  else
    close_files cur ;;;
    put_cwd cur ;;;
    acquire_pt ;;;
    modp (fun t => wakeup1 (proc_chan (parent (P t cur))) t) ;;;
    modp (reparent cur) ;;;
    modp (upd cur (set_state ZOMBIE)) ;;;
    sched AtExit.

Definition wait : M KS Z := ProcTable.wait PTLOCK.
Definition yield : M KS () := ProcTable.yield PTLOCK.
Definition forkret_resume : M KS () := ProcTable.resume_proc PTLOCK.
Definition sleep (c : channel) (lock : Z) : M KS () := ProcTable.sleep PTLOCK c lock.
Definition wakeup (c : channel) : M KS () := ProcTable.wakeup PTLOCK c.
Definition kill (pd : Z) : M KS Z := ProcTable.kill PTLOCK pd.
End MultiLevel.

(** ** The scheduler

    Where its loops are: at slot [i] of the round robin, or at the start of
    the first-come-first-served loop. *)
Inductive position := EvenAt (i : nat) | Fcfs.
(** One evaluation of the loops' tests: go on elsewhere, switch to a slot and
    go on, or release the lock at the end of the outer loop's body. *)
Inductive action := Goto (p : position) | Pick (i : nat) (p : position) | PassDone.

Definition odd (p : proc) : bool := negb (Z.rem (pid p) 2 =? 0).

(** The search among the odd pids: [None] is [goto even]. *)
Fixpoint fcfs_scan (l : list proc) (k : nat) (tmp : Z) (best : option nat) : option (option nat) :=
  match l with
  | [] => Some best
  | p :: l' =>
      if negb (bool_decide (state p = RUNNABLE)) then fcfs_scan l' (k + 1) tmp best
      else if odd p then
        if (tmp =? 0) || (pid p <? tmp) then fcfs_scan l' (k + 1) (pid p) (Some k)
        else fcfs_scan l' (k + 1) tmp best
      else None
  end.

Definition sched_step (t : ptable) (q : position) : action :=
  match q with
  | EvenAt i =>
      if (i <? NPROC)%nat then
        if odd (P t i) || negb (bool_decide (state (P t i) = RUNNABLE)) then Goto (EvenAt (i + 1))
        else Pick i (EvenAt (i + 1))
      else Goto Fcfs
  | Fcfs =>
      match fcfs_scan (procs t) 0 0 None with
      | None => Goto (EvenAt 0)
      | Some None => PassDone
      | Some (Some i) => Pick i Fcfs
      end
  end.

Fixpoint search (fuel : nat) (t : ptable) (q : position) : option action :=
  match fuel with
  | O => None
  | Datatypes.S fuel => match sched_step t q with Goto q => search fuel t q | a => Some a end
  end.

Definition ready (t : ptable) (i : nat) : Prop := exists p, procs t !! i = Some p /\ state p = RUNNABLE.
(** Slot [i] is the runnable odd process with the lowest pid. *)
Definition oldest_odd (t : ptable) (i : nat) : Prop :=
  ready t i /\ odd (P t i) = true /\
  forall j, ready t j -> odd (P t j) = true -> pid (P t i) <= pid (P t j).

(** The scan after the prefix [pre], whose lowest runnable odd pid is in [best]. *)
Definition scanned (pre : list proc) (tmp : Z) (best : option nat) : Prop :=
  (forall p, p ∈ pre -> state p = RUNNABLE -> odd p = true) /\
  match best with
  | None => tmp = 0 /\ forall p, p ∈ pre -> state p <> RUNNABLE
  | Some i => exists p, pre !! i = Some p /\ state p = RUNNABLE /\ odd p = true /\ pid p = tmp /\
      forall q, q ∈ pre -> state q = RUNNABLE -> tmp <= pid q
  end.

Lemma fcfs_scan_spec l pre tmp best :
  (forall p, p ∈ pre ++ l -> state p = RUNNABLE -> 0 < pid p) -> scanned pre tmp best ->
  match fcfs_scan l (length pre) tmp best with
  | None => exists p, p ∈ l /\ state p = RUNNABLE /\ odd p = false
  | Some best' => exists tmp', scanned (pre ++ l) tmp' best'
  end.
Proof.
  revert pre tmp best. induction l as [|p l IH]; intros pre tmp best Hpos Hs; simpl; [rewrite app_nil_r; eauto|].
  assert (forall tmp' best', scanned (pre ++ [p]) tmp' best' ->
    match fcfs_scan l (length pre + 1) tmp' best' with
    | None => exists p0, p0 ∈ p :: l /\ state p0 = RUNNABLE /\ odd p0 = false
    | Some b => exists t', scanned (pre ++ p :: l) t' b
    end) as Hnext.
  { intros tmp' best' Hs'. specialize (IH (pre ++ [p]) tmp' best'). rewrite <- app_assoc, length_app in IH. simpl in IH.
    specialize (IH Hpos Hs'). destruct (fcfs_scan _ _ _ _); [done|]. destruct IH as (p0 & ? & ?). exists p0. split; [by right|done]. }
  destruct Hs as [Hodd Hb]. assert (0 < pid p \/ state p <> RUNNABLE) as Hp.
  { destruct (decide (state p = RUNNABLE)); [left|by right]. apply Hpos; [|done]. apply elem_of_app. right. by left. }
  case_bool_decide as Hst; simpl.
  - destruct (odd p) eqn:Eo; [|exists p; split; [by left|done]].
    assert (forall q, q ∈ pre ++ [p] -> state q = RUNNABLE -> odd q = true) as Hodd'.
    { intros q [Hq| ->%list_elem_of_singleton]%elem_of_app; auto. }
    destruct ((tmp =? 0) || (pid p <? tmp)) eqn:Et; apply Hnext; split; try done.
    + exists p. rewrite lookup_app_r, Nat.sub_diag by lia. split_and!; try done.
      intros q [Hq| ->%list_elem_of_singleton]%elem_of_app Hrq; [|lia]. destruct best as [i|].
      * destruct Hb as (pi & Hi & Hri & Hoi & Hpi & Hmin). assert (0 < pid pi) as Hpos'.
        { apply Hpos; [|done]. apply elem_of_app. left. by eapply list_elem_of_lookup_2. }
        specialize (Hmin q Hq Hrq). lia.
      * by destruct Hb as [_ Hb]; destruct (Hb q Hq).
    + destruct best as [i|]; [|destruct Hb; lia]. destruct Hb as (pi & Hi & Hri & Hoi & Hpi & Hmin).
      exists pi. rewrite lookup_app_l by (by eapply lookup_lt_Some). split_and!; try done.
      intros q [Hq| ->%list_elem_of_singleton]%elem_of_app Hrq; [by apply Hmin|lia].
  - apply Hnext. split.
    + intros q [Hq| ->%list_elem_of_singleton]%elem_of_app Hrq; [auto|done].
    + destruct best as [i|].
      * destruct Hb as (pi & Hi & Hri & Hoi & Hpi & Hmin). exists pi. rewrite lookup_app_l by (by eapply lookup_lt_Some).
        split_and!; try done. intros q [Hq| ->%list_elem_of_singleton]%elem_of_app Hrq; [by apply Hmin|done].
      * destruct Hb as [-> Hb]. split; [done|]. intros q [Hq| ->%list_elem_of_singleton]%elem_of_app; auto.
Qed.

Section choice.
Context (t : ptable) (Hlen : length (procs t) = NPROC)
  (Hpos : forall i, ready t i -> 0 < pid (P t i)).

Definition even_ready (i : nat) : Prop := ready t i /\ odd (P t i) = false.

Lemma ready_slot i : (i < NPROC)%nat -> state (P t i) = RUNNABLE -> ready t i.
Proof.
  intros Hi Hs. destruct (lookup_lt_is_Some_2 (procs t) i) as [p Hp]; [lia|]. exists p. by rewrite (slot_lookup _ _ _ Hp) in Hs.
Qed.

(** The round robin from slot [i]: the next even process, or on to the rest. *)
Lemma even_run d i f : (NPROC - i <= d)%nat ->
  (exists j, (i <= j)%nat /\ even_ready j /\ search (d + 1 + f) t (EvenAt i) = Some (Pick j (EvenAt (j + 1)))) \/
  ((forall j, (i <= j)%nat -> ~ even_ready j) /\ exists f', (f <= f')%nat /\ search (d + 1 + f) t (EvenAt i) = search f' t Fcfs).
Proof.
  revert i. induction d as [|d IH]; intros i Hd.
  - right. split.
    + intros j Hj [[p [Hp _]] _]. apply lookup_lt_Some in Hp. lia.
    + exists f. split; [lia|]. simpl. by replace (i <? NPROC)%nat with false by lia.
  - replace (Datatypes.S d + 1 + f)%nat with (Datatypes.S (d + 1 + f)) by lia. cbn [search sched_step].
    destruct (Nat.ltb_spec i NPROC) as [Hi|Hi].
    + destruct (odd (P t i) || negb (bool_decide (state (P t i) = RUNNABLE))) eqn:E.
      * destruct (IH (i + 1)%nat) as [(j & Hj & Hr & Es)|(Hno & f' & Hf & Es)]; [lia| |].
        -- left. exists j. split; [lia|]. by split.
        -- right. split; [|eauto]. intros j Hj He. destruct (decide (j = i)) as [-> |]; [|apply (Hno j); [lia|done]].
           destruct He as [[p [Hp Hs]] Ho]. rewrite (slot_lookup _ _ _ Hp) in Ho, E. rewrite Ho, bool_decide_true in E by done. done.
      * left. apply orb_false_iff in E as [E1 E2]. exists i. split; [lia|]. split; [|done].
        split; [|done]. apply ready_slot; [done|]. by apply negb_false_iff, bool_decide_eq_true in E2.
    + right. split; [|exists (d + 1 + f)%nat; split; [lia|done]]. intros j Hj [[p [Hp _]] _]. apply lookup_lt_Some in Hp. lia.
Qed.

(** The first-come-first-served search. *)
Lemma fcfs_run :
  (fcfs_scan (procs t) 0 0 None = None /\ exists i, even_ready i) \/
  (exists best, fcfs_scan (procs t) 0 0 None = Some best /\ (forall i, ~ even_ready i) /\
     match best with None => forall i, ~ ready t i | Some i => oldest_odd t i end).
Proof.
  assert (forall p, p ∈ procs t -> state p = RUNNABLE -> 0 < pid p) as Hp.
  { intros p [i Hi]%list_elem_of_lookup Hs. rewrite <- (slot_lookup _ _ _ Hi). apply Hpos. by exists p. }
  pose proof (fcfs_scan_spec (procs t) [] 0 None Hp) as Hs. simpl in Hs.
  destruct (fcfs_scan (procs t) 0 0 None) as [best|].
  - right. exists best. split; [done|]. destruct Hs as (tmp & Hodd & Hb).
    { split; [by intros ? ?%elem_of_nil|]. split; [done|]. by intros ? ?%elem_of_nil. }
    split.
    + intros i [[p [Hi Hr]] Ho]. rewrite (slot_lookup _ _ _ Hi) in Ho. rewrite (Hodd p) in Ho; [done| |done]. by eapply list_elem_of_lookup_2.
    + destruct best as [i|].
      * destruct Hb as (p & Hi & Hr & Ho & Hpid & Hmin). split; [by exists p|]. rewrite (slot_lookup _ _ _ Hi). split; [done|].
        intros j [q [Hj Hq]] _. rewrite (slot_lookup _ _ _ Hj), Hpid. apply Hmin; [by eapply list_elem_of_lookup_2|done].
      * destruct Hb as [_ Hb]. intros i [p [Hi Hr]]. apply (Hb p); [by eapply list_elem_of_lookup_2|done].
  - left. split; [done|]. destruct Hs as (p & [i Hi]%list_elem_of_lookup & Hr & Ho).
    { split; [by intros ? ?%elem_of_nil|]. split; [done|]. by intros ? ?%elem_of_nil. }
    exists i. split; [by exists p|]. by rewrite (slot_lookup _ _ _ Hi).
Qed.

Lemma search_fcfs f : (NPROC + 1 < f)%nat ->
  exists a, search f t Fcfs = Some a /\
    match a with
    | Pick i _ => even_ready i \/ (oldest_odd t i /\ forall j, ~ even_ready j)
    | PassDone => forall i, ~ ready t i
    | Goto _ => False
    end.
Proof.
  intros Hf. destruct f as [|f]; [lia|]. cbn [search sched_step]. destruct fcfs_run as [[-> [i Hi]]|(best & -> & Hno & Hb)].
  - destruct (even_run NPROC 0 (f - (NPROC + 1))) as [(j & _ & Hj & E)|[Hno _]]; [lia| |by destruct (Hno i); [lia|]].
    replace (NPROC + 1 + (f - (NPROC + 1)))%nat with f in E by lia. rewrite E. eexists. split; [done|]. by left.
  - destruct best as [i|]; eexists; (split; [done|]); [by right|done].
Qed.
End choice.

(** C13: what the scheduler runs next.  From wherever its loops are, on a table
    whose runnable processes have positive pids, the search ends (within three
    rounds over the table) and either switches to a runnable process with an
    even pid, or to the runnable process with the lowest odd pid and only if no
    even one is runnable, or finds that nothing is runnable. *)
Theorem multilevel_choice (t : ptable) (q : position) :
  length (procs t) = NPROC -> (forall i, ready t i -> 0 < pid (P t i)) ->
  exists a, search (3 * NPROC) t q = Some a /\
    match a with
    | Pick i _ => (ready t i /\ odd (P t i) = false) \/
        (oldest_odd t i /\ forall j, ready t j -> odd (P t j) = true)
    | PassDone => forall i, ~ ready t i
    | Goto _ => False
    end.
Proof.
  intros Hlen Hpos.
  assert (forall f, (NPROC + 1 < f)%nat -> exists a, search f t Fcfs = Some a /\
    match a with
    | Pick i _ => (ready t i /\ odd (P t i) = false) \/ (oldest_odd t i /\ forall j, ready t j -> odd (P t j) = true)
    | PassDone => forall i, ~ ready t i
    | Goto _ => False
    end) as HF.
  { intros f Hf. destruct (search_fcfs t Hlen Hpos f Hf) as (a & E & Ha). exists a. split; [done|].
    destruct a as [|i q'|]; try done. destruct Ha as [Ha|[Ha Hno]]; [by left|right]. split; [done|].
    intros j Hj. destruct (odd (P t j)) eqn:Eo; [done|]. by destruct (Hno j). }
  destruct q as [i|]; [|apply HF; unfold NPROC; lia].
  change (3 * NPROC)%nat with (NPROC + 1 + (2 * NPROC - 1))%nat.
  destruct (even_run t Hlen NPROC i (2 * NPROC - 1)) as [(j & _ & Hj & E)|(_ & f' & Hf & E)]; [lia| |]; rewrite E.
  - eexists. split; [done|]. by left.
  - apply HF. unfold NPROC in *. lia.
Qed.

(** Five processes: pids 1 to 5, of which 3 and 5 can run. *)
Definition demo_table (states : list procstate) : ptable :=
  mkPtable (imap (fun i st => set_pid (Z.of_nat i + 1) (set_state st no_proc)) states
    ++ replicate (NPROC - length states) no_proc) 6 1 None None.

Lemma multilevel_choice_witness :
  exists a, search (3 * NPROC) (demo_table [SLEEPING; SLEEPING; RUNNABLE; ZOMBIE; RUNNABLE]) (EvenAt 1) = Some a /\
    a = Pick 2 Fcfs.
Proof.
  destruct (multilevel_choice (demo_table [SLEEPING; SLEEPING; RUNNABLE; ZOMBIE; RUNNABLE]) (EvenAt 1)) as (a & E & _).
  - reflexivity.
  - intros i [p [Hp Hr]]. rewrite (slot_lookup _ _ _ Hp).
    do 5 (destruct i as [|i]; [vm_compute in Hp; injection Hp as <-; vm_compute; reflexivity|]).
    apply (lookup_replicate_1 (NPROC - 5) no_proc p i) in Hp as [-> _]. discriminate Hr.
  - exists a. split; [exact E|]. vm_compute in E. injection E as <-. reflexivity.
Defined.
