(* ===== verification/Block.v ===== *)
(** * The bytes of a disk block

    The structures on the disk (the log header, the superblock, inodes,
    directory entries) are accessed through casts of [b->data]: here, byte
    lists read and patched at an offset. *)

From S2P Require Import Prelude CString.
Open Scope Z_scope.

(** The [n] bytes of [d] at [off], and [d] with the bytes [bs] stored at [off]. *)
Definition sub (d : list Z) (off n : nat) : list Z := take n (drop off d).
Definition patch (d : list Z) (off : nat) (bs : list Z) : list Z :=
  take off d ++ bs ++ drop (off + length bs) d.

(** A [uint], an [int] and a [ushort] field. *)
Definition word_at (d : list Z) (off : nat) : Z := bytes_word (sub d off 4).
Definition int_at (d : list Z) (off : nat) : Z := s32 (word_at d off).
Definition put_word (d : list Z) (off : nat) (w : Z) : list Z := patch d off (word_bytes w).

Lemma length_patch d off bs : (off + length bs <= length d)%nat -> length (patch d off bs) = length d.
Proof. intros. unfold patch. rewrite !length_app, length_take, length_drop. lia. Qed.

Lemma lookup_patch d off bs i :
  (off + length bs <= length d)%nat ->
  patch d off bs !! i = if decide (off <= i < off + length bs)%nat then bs !! (i - off)%nat else d !! i.
Proof.
  intros Hl. unfold patch. case_decide as Hd.
  - rewrite lookup_app_r; rewrite length_take; [|lia]. rewrite Nat.min_l by lia. by rewrite lookup_app_l by lia.
  - destruct (decide (i < off)%nat).
    + rewrite lookup_app_l by (rewrite length_take; lia). by rewrite lookup_take_lt.
    + rewrite lookup_app_r by (rewrite length_take; lia). rewrite length_take, Nat.min_l by lia.
      rewrite lookup_app_r by lia. rewrite lookup_drop. f_equal. lia.
Qed.

Lemma sub_patch_same d off bs : (off + length bs <= length d)%nat -> sub (patch d off bs) off (length bs) = bs.
Proof.
  intros. unfold sub, patch. rewrite drop_app_length'; [|rewrite length_take; lia].
  by rewrite take_app_length.
Qed.

Lemma sub_lookup d off n i : sub d off n !! i = if decide (i < n)%nat then d !! (off + i)%nat else None.
Proof.
  unfold sub. case_decide; [by rewrite lookup_take_lt, lookup_drop|].
  rewrite lookup_take_ge by lia. done.
Qed.

Lemma sub_patch_other d off bs off' n :
  (off + length bs <= length d)%nat -> (off' + n <= off \/ off + length bs <= off')%nat ->
  sub (patch d off bs) off' n = sub d off' n.
Proof.
  intros Hl Hd. apply list_eq. intros i. rewrite !sub_lookup. case_decide; [|done].
  rewrite lookup_patch by done. by rewrite decide_False by lia.
Qed.

Lemma length_put_word d off w : (off + 4 <= length d)%nat -> length (put_word d off w) = length d.
Proof. intros. apply length_patch. by rewrite length_word_bytes. Qed.

Lemma word_at_put d off w : (off + 4 <= length d)%nat -> word_at (put_word d off w) off = u32 w.
Proof.
  intros. unfold word_at, put_word. change 4%nat with (length (word_bytes w)).
  rewrite sub_patch_same by (by rewrite length_word_bytes). apply bytes_word_bytes.
Qed.

Lemma word_at_put_other d off w off' :
  (off + 4 <= length d)%nat -> (off' + 4 <= off \/ off + 4 <= off')%nat ->
  word_at (put_word d off w) off' = word_at d off'.
Proof. intros. unfold word_at, put_word. by rewrite sub_patch_other by (by rewrite length_word_bytes). Qed.

Lemma int_at_put d off w : (off + 4 <= length d)%nat -> - 2 ^ 31 <= w < 2 ^ 31 -> int_at (put_word d off w) off = w.
Proof.
  intros. unfold int_at. rewrite word_at_put by done. unfold s32, u32.
  rewrite Zplus_mod_idemp_l, Z.mod_small; lia.
Qed.

Lemma int_at_put_other d off w off' :
  (off + 4 <= length d)%nat -> (off' + 4 <= off \/ off + 4 <= off')%nat ->
  int_at (put_word d off w) off' = int_at d off'.
Proof. intros. unfold int_at. by rewrite word_at_put_other. Qed.

(** A [short] field. *)
Definition s16 (z : Z) : Z := (z + 2 ^ 15) mod 2 ^ 16 - 2 ^ 15.
Definition half_bytes (w : Z) : list Z := [u8 w; u8 (Z.shiftr w 8)].
Definition half_at (d : list Z) (off : nat) : Z := Z.lor (d !!! off) (Z.shiftl (d !!! (off + 1)%nat) 8).
Definition short_at (d : list Z) (off : nat) : Z := s16 (half_at d off).
Definition put_half (d : list Z) (off : nat) (w : Z) : list Z := patch d off (half_bytes w).
