(* ===== verification/Bio.v ===== *)
(** * The buffer cache

    bio.c with the sleep locks of sleeplock.c and the memory disk of memide.c.

    The 30 buffers are a list indexed by buffer number, and [mru] is the
    doubly linked list through [next] from [bcache.head], most recently used
    first.  The routines run under [bcache.lock] and under the spin lock of a
    sleep lock, which they take and release in pairs (see [Spinlock]); a
    routine is one step here.  [wakeup] of [releasesleep] acts on the process
    table only.  [Blocked] is a sleep on a buffer another process has locked.

    The second half states what the cache promises: [cache_rep] relates a
    concrete cache to an abstract one, and the [BlockCache] class is the
    interface the log and the file system are verified against. *)

From S2P Require Import Prelude CString.
From stdpp Require Import gmap.
Open Scope Z_scope.

Definition BSIZE : Z := 512.
Definition NBUF : nat := 30.
Definition B_VALID : Z := 2.
Definition B_DIRTY : Z := 4.
Definition ROOTDEV : Z := 1.

Abbreviation block := (list Z).
Definition disk := Z -> block.

(** A block of the right size. *)
Definition is_block (d : block) : Prop := length d = Z.to_nat BSIZE.

Record sleeplock := mkSleeplock { slocked : Z; spid : Z }.

Record buf := mkBuf {
  flags : Z; dev : Z; blockno : Z; lock : sleeplock; refcnt : Z; data : block }.

(** [bcache], the memory disk, and the sequence of block writes it has seen. *)
Record bcache := mkBcache {
  bufs : list buf; mru : list nat; memdisk : disk; disksize : Z; wtrace : list (Z * block) }.

#[export] Instance buf_inhabited : Inhabited buf := populate (mkBuf 0 0 0 (mkSleeplock 0 0) 0 []).

Definition set_flags (v : Z) (b : buf) : buf := mkBuf v (dev b) (blockno b) (lock b) (refcnt b) (data b).
Definition set_lock (v : sleeplock) (b : buf) : buf := mkBuf (flags b) (dev b) (blockno b) v (refcnt b) (data b).
Definition set_refcnt (v : Z) (b : buf) : buf := mkBuf (flags b) (dev b) (blockno b) (lock b) v (data b).
Definition set_bdata (v : block) (b : buf) : buf := mkBuf (flags b) (dev b) (blockno b) (lock b) (refcnt b) v.
Definition set_bufs (v : list buf) (s : bcache) : bcache := mkBcache v (mru s) (memdisk s) (disksize s) (wtrace s).
Definition set_mru (v : list nat) (s : bcache) : bcache := mkBcache (bufs s) v (memdisk s) (disksize s) (wtrace s).

Definition disk_upd (d : disk) (b : Z) (v : block) : disk := fun x => if x =? b then v else d x.
Definition write_disk (b : Z) (v : block) (s : bcache) : bcache :=
  mkBcache (bufs s) (mru s) (disk_upd (memdisk s) b v) (disksize s) (wtrace s ++ [(b, v)]).

Definition B (s : bcache) (i : nat) : buf := bufs s !!! i.
Definition updb (i : nat) (f : buf -> buf) (s : bcache) : bcache := set_bufs (alter f i (bufs s)) s.

(** [binit]: each buffer is linked in at the head of the list. *)
Definition binit (s : bcache) : bcache :=
  foldl (fun s i => set_mru (i :: mru s) (updb i (set_lock (mkSleeplock 0 0)) s)) (set_mru [] s) (seq 0 NBUF).

Section bio.
(** [me] is [myproc()->pid]. *)
Context (me : Z).

Definition acquiresleep (i : nat) : M bcache () :=
  let* s := get in
  if nz (slocked (lock (B s i))) then sleeps
  else put (updb i (set_lock (mkSleeplock 1 me)) s).

Definition releasesleep (i : nat) : M bcache () := modify (updb i (set_lock (mkSleeplock 0 0))).

Definition holdingsleep (i : nat) : M bcache bool :=
  gets (fun s => nz (slocked (lock (B s i))) && (spid (lock (B s i)) =? me)).

(** memide.c *)
Definition iderw (i : nat) : M bcache () :=
  let* h := holdingsleep i in
  if negb h then panic "iderw: buf not locked"
  else
    let* s := get in
    let b := B s i in
    if Z.land (flags b) (Z.lor B_VALID B_DIRTY) =? B_VALID then panic "iderw: nothing to do"
    else if negb (dev b =? 1) then panic "iderw: request not for disk 1"
    else if disksize s <=? blockno b then panic "iderw: block out of range"
    else
      (if nz (Z.land (flags b) B_DIRTY) then
         modify (updb i (set_flags (Z.land (flags b) (Z.lnot B_DIRTY)))) ;;;
         modify (write_disk (blockno b) (data b))
       else modify (updb i (set_bdata (memdisk s (blockno b))))) ;;;
      modify (updb i (fun b => set_flags (Z.lor (flags b) B_VALID) b)).

Definition bget (dv bn : Z) : M bcache nat :=
  let* s := get in
  match list_find (fun i => dev (B s i) = dv /\ blockno (B s i) = bn) (mru s) with
  | Some (_, i) =>
      modify (updb i (fun b => set_refcnt (u32 (refcnt b + 1)) b)) ;;;
      acquiresleep i ;;;
      ret i
  | None =>
      match list_find (fun i => refcnt (B s i) = 0 /\ Z.land (flags (B s i)) B_DIRTY = 0) (reverse (mru s)) with
      | Some (_, i) =>
          modify (updb i (fun b => mkBuf 0 dv bn (lock b) 1 (data b))) ;;;
          acquiresleep i ;;;
          ret i
      | None => panic "bget: no buffers"
      end
  end.

Definition bread (dv bn : Z) : M bcache nat :=
  let* i := bget dv bn in
  let* s := get in
  when (Z.land (flags (B s i)) B_VALID =? 0) (iderw i) ;;;
  ret i.

Definition bwrite (i : nat) : M bcache () :=
  let* h := holdingsleep i in
  if negb h then panic "bwrite"
  else
    modify (updb i (fun b => set_flags (Z.lor (flags b) B_DIRTY) b)) ;;;
    iderw i.

Definition brelse (i : nat) : M bcache () :=
  let* h := holdingsleep i in
  if negb h then panic "brelse"
  else
    releasesleep i ;;;
    modify (updb i (fun b => set_refcnt (u32 (refcnt b - 1)) b)) ;;;
    let* s := get in
    when (refcnt (B s i) =? 0) (modify (fun s => set_mru (i :: filter (fun j => j <> i) (mru s)) s)).

(** The accesses of the callers to [b->data], and [b->flags |= B_DIRTY] of
    [log_write]. *)
Definition getdata (i : nat) : M bcache block := gets (fun s => data (B s i)).
Definition setdata (i : nat) (d : block) : M bcache () := modify (updb i (set_bdata d)).
Definition pin (i : nat) : M bcache () := modify (updb i (fun b => set_flags (Z.lor (flags b) B_DIRTY) b)).
Definition getblockno (i : nat) : M bcache Z := gets (fun s => blockno (B s i)).
End bio.

(** ** The abstract cache

    [view] is what readers see, [adisk] what is on the disk; [dirty] are the
    blocks pinned by [log_write], [hold] the blocks the caller has locked, with
    their buffers, and [trace] the writes that reached the disk. *)
Record acache := mkAcache {
  view : disk; adisk : disk; asize : Z; dirty : gset Z; hold : gmap Z nat; trace : list (Z * block) }.

Definition a_hold (h : gmap Z nat) (a : acache) : acache :=
  mkAcache (view a) (adisk a) (asize a) (dirty a) h (trace a).
Definition a_set (b : Z) (d : block) (a : acache) : acache :=
  mkAcache (disk_upd (view a) b d) (adisk a) (asize a) (dirty a) (hold a) (trace a).
Definition a_pin (b : Z) (a : acache) : acache :=
  mkAcache (view a) (adisk a) (asize a) ({[b]} ∪ dirty a) (hold a) (trace a).
Definition a_write (b : Z) (a : acache) : acache :=
  mkAcache (view a) (disk_upd (adisk a) b (view a b)) (asize a) (dirty a ∖ {[b]}) (hold a) (trace a ++ [(b, view a b)]).

(** A buffer of the disk is valid, shows the view, and is dirty, referenced and
    locked exactly as the abstract cache says; any other buffer is free. *)
Definition buf_ok (me : Z) (a : acache) (i : nat) (b : buf) : Prop :=
  if bool_decide (dev b = 1) then
    flags b = (if bool_decide (blockno b ∈ dirty a) then 6 else 2) /\
    data b = view a (blockno b) /\
    match hold a !! blockno b with
    | Some j => j = i /\ refcnt b = 1 /\ lock b = mkSleeplock 1 me
    | None => refcnt b = 0 /\ slocked (lock b) = 0
    end
  else flags b = 0 /\ refcnt b = 0 /\ slocked (lock b) = 0.

Record cache_rep (me : Z) (s : bcache) (a : acache) : Prop := {
  cr_len : length (bufs s) = NBUF;
  cr_mru : mru s ≡ₚ seq 0 NBUF;
  cr_uniq : forall i j, (i < NBUF)%nat -> (j < NBUF)%nat -> dev (B s i) = 1 -> dev (B s j) = 1 ->
    blockno (B s i) = blockno (B s j) -> i = j;
  cr_buf : forall i, (i < NBUF)%nat -> buf_ok me a i (B s i);
  cr_cached : forall b, b ∈ dirty a \/ is_Some (hold a !! b) ->
    exists i, (i < NBUF)%nat /\ dev (B s i) = 1 /\ blockno (B s i) = b;
  cr_clean : forall b, b ∉ dirty a -> hold a !! b = None -> view a b = adisk a b;
  cr_disk : forall b, memdisk s b = adisk a b;
  cr_size : disksize s = asize a;
  cr_trace : wtrace s = trace a }.

Section lemmas.
Context (me : Z).
Local Abbreviation cache_rep := (cache_rep me).
Local Abbreviation buf_ok := (buf_ok me).

Lemma B_updb s i f j : (i < length (bufs s))%nat -> B (updb i f s) j = if decide (i = j) then f (B s i) else B s j.
Proof.
  intros Hi. unfold B, updb. simpl. rewrite !list_lookup_total_alt, list_lookup_alter.
  destruct (lookup_lt_is_Some_2 (bufs s) i Hi) as [b Hb].
  case_decide; [subst; by rewrite Hb|done].
Qed.

Lemma updb_len s i f : length (bufs (updb i f s)) = length (bufs s).
Proof. apply length_alter. Qed.

Lemma cr_lt s a i : cache_rep s a -> (i < NBUF)%nat -> (i < length (bufs s))%nat.
Proof. intros R. by rewrite (cr_len _ _ _ R). Qed.

Lemma mru_in s a i : cache_rep s a -> i ∈ mru s <-> (i < NBUF)%nat.
Proof. intros R. rewrite (cr_mru _ _ _ R), elem_of_seq. lia. Qed.

(** The buffer of a held block. *)
Lemma held_buf s a b i :
  cache_rep s a -> hold a !! b = Some i ->
  (i < NBUF)%nat /\ dev (B s i) = 1 /\ blockno (B s i) = b /\ data (B s i) = view a b /\
  flags (B s i) = (if bool_decide (b ∈ dirty a) then 6 else 2) /\
  refcnt (B s i) = 1 /\ lock (B s i) = mkSleeplock 1 me.
Proof.
  intros R Hh. destruct (cr_cached _ _ _ R b) as (j & Hj & Hd & Hb); [eauto|].
  pose proof (cr_buf _ _ _ R j Hj) as Hok. unfold Bio.buf_ok in Hok.
  rewrite bool_decide_true, Hb, Hh in Hok by done. destruct Hok as (Hf & Hdt & -> & Hr & Hl). done.
Qed.

Lemma B_alter s s' i f j :
  bufs s' = alter f i (bufs s) -> (i < length (bufs s))%nat ->
  B s' j = if decide (i = j) then f (B s i) else B s j.
Proof. intros E Hi. rewrite <- (B_updb s i f j Hi). unfold B, updb. simpl. by rewrite E. Qed.

(** A change to the buffer of one block, which stays the buffer of that block. *)
Lemma cache_change s s' a a' b i f :
  cache_rep s a -> (i < NBUF)%nat -> dev (B s i) = 1 -> blockno (B s i) = b ->
  bufs s' = alter f i (bufs s) -> mru s' ≡ₚ mru s -> disksize s' = disksize s ->
  (forall x, memdisk s' x = adisk a' x) -> wtrace s' = trace a' -> asize a' = asize a ->
  dev (f (B s i)) = 1 -> blockno (f (B s i)) = b -> buf_ok a' i (f (B s i)) ->
  (forall x, x <> b -> view a' x = view a x /\ adisk a' x = adisk a x /\ hold a' !! x = hold a !! x /\
     (x ∈ dirty a' <-> x ∈ dirty a)) ->
  (b ∉ dirty a' -> hold a' !! b = None -> view a' b = adisk a' b) ->
  cache_rep s' a'.
Proof.
  intros R Hi Hd Hb Hbufs Hmru Hds Hdisk Htr Hsz Hd' Hb' Hok Hx Hc. pose proof (cr_lt _ _ _ R Hi) as Hil.
  pose proof (fun j => B_alter s s' i f j Hbufs Hil) as HB.
  assert (forall j, dev (B s' j) = dev (B s j) /\ blockno (B s' j) = blockno (B s j)) as Hsame.
  { intros j. rewrite HB. case_decide; [subst j|done]. by rewrite Hd', Hb', Hd, Hb. }
  split; try done.
  - rewrite Hbufs, length_alter. apply R.
  - rewrite Hmru. apply R.
  - intros j k Hj Hk. destruct (Hsame j) as [-> ->], (Hsame k) as [-> ->]. by apply (cr_uniq _ _ _ R).
  - intros j Hj. rewrite HB. case_decide as Hij; [by subst j|].
    pose proof (cr_buf _ _ _ R j Hj) as Ho. unfold Bio.buf_ok in *.
    case_bool_decide as Hdj; [|done].
    assert (blockno (B s j) <> b) as Hne.
    { intros E. apply Hij. apply (cr_uniq _ _ _ R); congruence. }
    destruct (Hx _ Hne) as (-> & _ & -> & Hdir). by rewrite (bool_decide_ext _ _ Hdir).
  - intros x Hxx. destruct (decide (x = b)) as [-> |Hne]; [exists i; by destruct (Hsame i) as [-> ->]|].
    destruct (Hx x Hne) as (_ & _ & Hh & Hdir). rewrite Hh, Hdir in Hxx.
    destruct (cr_cached _ _ _ R x Hxx) as (j & ? & ? & ?). exists j. by destruct (Hsame j) as [-> ->].
  - intros x Hxd Hxh. destruct (decide (x = b)) as [-> |Hne]; [by apply Hc|].
    destruct (Hx x Hne) as (-> & -> & Hh & Hdir). apply (cr_clean _ _ _ R); [by rewrite <- Hdir|congruence].
  - rewrite Hds, Hsz. apply R.
Qed.

Lemma disk_upd_eq d b v : disk_upd d b v b = v.
Proof. unfold disk_upd. by rewrite Z.eqb_refl. Qed.
Lemma disk_upd_ne d b v x : x <> b -> disk_upd d b v x = d x.
Proof. intros. unfold disk_upd. by replace (x =? b) with false by lia. Qed.

(** ** The promises of the operations *)

Lemma getdata_spec s a b i : cache_rep s a -> hold a !! b = Some i -> getdata i s = Ret (view a b) s.
Proof. intros R Hh. destruct (held_buf _ _ _ _ R Hh) as (_ & _ & _ & E & _). unfold getdata, gets. by rewrite E. Qed.

Lemma getblockno_spec s a b i : cache_rep s a -> hold a !! b = Some i -> getblockno i s = Ret b s.
Proof. intros R Hh. destruct (held_buf _ _ _ _ R Hh) as (_ & _ & E & _). unfold getblockno, gets. by rewrite E. Qed.

Lemma setdata_spec s a b i d :
  cache_rep s a -> hold a !! b = Some i -> exists s', setdata i d s = Ret () s' /\ cache_rep s' (a_set b d a).
Proof.
  intros R Hh. destruct (held_buf _ _ _ _ R Hh) as (Hi & Hd & Hb & Hdt & Hf & Hr & Hl).
  eexists. split; [done|]. apply (cache_change s _ a _ b i (set_bdata d)); try done.
  - apply R.
  - apply R.
  - unfold Bio.buf_ok. simpl. rewrite Hd, bool_decide_true, Hb, Hh, disk_upd_eq by done. done.
  - intros x Hx. simpl. by rewrite disk_upd_ne.
  - simpl. by rewrite Hh.
Qed.

Lemma pin_spec s a b i :
  cache_rep s a -> hold a !! b = Some i -> exists s', pin i s = Ret () s' /\ cache_rep s' (a_pin b a).
Proof.
  intros R Hh. destruct (held_buf _ _ _ _ R Hh) as (Hi & Hd & Hb & Hdt & Hf & Hr & Hl).
  eexists. split; [done|].
  apply (cache_change s _ a _ b i (fun b => set_flags (Z.lor (flags b) B_DIRTY) b)); try done.
  - apply R.
  - apply R.
  - unfold Bio.buf_ok. simpl. rewrite Hd, bool_decide_true, Hb, Hh, Hf by done.
    rewrite (bool_decide_true (b ∈ {[b]} ∪ dirty a)) by set_solver. by case_bool_decide.
  - intros x Hx. simpl. split_and!; try done. rewrite elem_of_union, elem_of_singleton. intuition congruence.
  - simpl. set_solver.
Qed.

Lemma holding_held s a b i : cache_rep s a -> hold a !! b = Some i -> holdingsleep me i s = Ret true s.
Proof.
  intros R Hh. destruct (held_buf _ _ _ _ R Hh) as (_ & _ & _ & _ & _ & _ & Hl).
  unfold holdingsleep, gets. rewrite Hl. simpl. by rewrite Z.eqb_refl.
Qed.

Lemma bwrite_spec s a b i :
  cache_rep s a -> hold a !! b = Some i -> b < asize a ->
  exists s', bwrite me i s = Ret () s' /\ cache_rep s' (a_write b a).
Proof.
  intros R Hh Hsz. destruct (held_buf _ _ _ _ R Hh) as (Hi & Hd & Hb & Hdt & Hf & Hr & Hl).
  pose proof (cr_lt _ _ _ R Hi) as Hil.
  unfold bwrite. rewrite (bind_ret _ _ _ _ _ (holding_held _ _ _ _ R Hh)). simpl.
  unfold iderw, bind, modify, get, holdingsleep, gets, panic.
  rewrite B_updb, decide_True by done. simpl. rewrite Hl. simpl. rewrite Z.eqb_refl. simpl.
  rewrite B_updb, decide_True by done. simpl. rewrite Hd, Hb, Hf, (cr_size _ _ _ R).
  replace (asize a <=? b) with false by lia.
  assert (Z.lor (if bool_decide (b ∈ dirty a) then 6 else 2) B_DIRTY = 6) as -> by by case_bool_decide.
  simpl. eexists. split; [done|].
  apply (cache_change s _ a _ b i (fun x => set_flags 2 (set_flags 6 x))); try done.
  - unfold updb, write_disk, set_bufs. cbn [bufs]. rewrite !alter_twice. apply list_alter_ext; [|done].
    intros x Hx. unfold B in Hf. apply list_lookup_total_correct in Hx. rewrite Hx in Hf. simpl. rewrite Hf.
    by case_bool_decide.
  - intros x. simpl. unfold disk_upd. rewrite (cr_disk _ _ _ R), Hdt. done.
  - simpl. by rewrite (cr_trace _ _ _ R), Hdt.
  - unfold Bio.buf_ok. simpl. rewrite Hd, bool_decide_true, Hb, Hh by done.
    rewrite bool_decide_false by set_solver. done.
  - intros x Hx. simpl. rewrite disk_upd_ne by done. split_and!; try done.
    rewrite elem_of_difference, elem_of_singleton. intuition congruence.
  - simpl. by rewrite Hh.
Qed.

Lemma brelse_spec s a b i :
  cache_rep s a -> hold a !! b = Some i -> (b ∈ dirty a \/ view a b = adisk a b) ->
  exists s', brelse me i s = Ret () s' /\ cache_rep s' (a_hold (delete b (hold a)) a).
Proof.
  intros R Hh Hc. destruct (held_buf _ _ _ _ R Hh) as (Hi & Hd & Hb & Hdt & Hf & Hr & Hl).
  pose proof (cr_lt _ _ _ R Hi) as Hil.
  unfold brelse. rewrite (bind_ret _ _ _ _ _ (holding_held _ _ _ _ R Hh)). simpl.
  unfold bind, releasesleep, modify, get, when. rewrite !B_updb by (rewrite ?updb_len; done).
  rewrite !decide_True by done. simpl. rewrite Hr. simpl. eexists. split; [done|].
  apply (cache_change s _ a _ b i (fun x => set_refcnt 0 (set_lock (mkSleeplock 0 0) x))); try done.
  - unfold updb, set_mru, set_bufs. cbn [bufs]. rewrite !alter_twice. apply list_alter_ext; [|done].
    intros x Hx. unfold B in Hr. apply list_lookup_total_correct in Hx. rewrite Hx in Hr. simpl. by rewrite Hr.
  - simpl. assert (i ∈ mru s) as Him by by apply (mru_in s a).
    assert (NoDup (mru s)) as Hn by (rewrite (cr_mru _ _ _ R); apply NoDup_seq).
    apply NoDup_Permutation; [|done|].
    + apply NoDup_cons. split; [|by apply NoDup_filter]. rewrite list_elem_of_filter. tauto.
    + intros j. rewrite elem_of_cons, list_elem_of_filter. destruct (decide (j = i)); set_solver.
  - apply R.
  - apply R.
  - unfold Bio.buf_ok. simpl. rewrite Hd, bool_decide_true, Hb, lookup_delete_eq by done. done.
  - intros x Hx. simpl. by rewrite lookup_delete_ne.
  - simpl. intros Hnd _. by destruct Hc.
Qed.

(** Blocks that occupy a buffer. *)
Definition busy (a : acache) : gset Z := dirty a ∪ dom (hold a).

Definition free_buf (b : buf) : Prop := refcnt b = 0 /\ Z.land (flags b) B_DIRTY = 0.

Lemma not_free_busy s a i :
  cache_rep s a -> (i < NBUF)%nat -> ~ free_buf (B s i) -> dev (B s i) = 1 /\ blockno (B s i) ∈ busy a.
Proof.
  intros R Hi Hf. pose proof (cr_buf _ _ _ R i Hi) as Ho. unfold Bio.buf_ok, free_buf, busy in *.
  case_bool_decide as Hd.
  - split; [done|]. destruct Ho as (Hfl & _ & Hh). apply elem_of_union.
    destruct (hold a !! blockno (B s i)) eqn:E; [right; by apply elem_of_dom_2 in E|].
    case_bool_decide; [by left|]. destruct Hf. destruct Hh as [-> _]. by rewrite Hfl.
  - destruct Ho as (Hfl & Hr & _). destruct Hf. by rewrite Hfl, Hr.
Qed.

(** With fewer than [NBUF] busy blocks, [bget] finds a buffer to recycle. *)
Lemma free_buffer s a :
  cache_rep s a -> (size (busy a) < NBUF)%nat -> exists i, (i < NBUF)%nat /\ free_buf (B s i).
Proof.
  intros R Hs. destruct (decide (Exists (fun i => free_buf (B s i)) (seq 0 NBUF))) as [Hx|Hx].
  { apply Exists_exists in Hx as (i & Hi & Hf). apply elem_of_seq in Hi. exists i. split; [lia|done]. }
  exfalso. rewrite Exists_exists in Hx.
  assert (forall i, i ∈ seq 0 NBUF -> (i < NBUF)%nat /\ dev (B s i) = 1 /\ blockno (B s i) ∈ busy a) as Hbusy.
  { intros i Hi. pose proof Hi as Hi'. apply elem_of_seq in Hi'. split; [lia|].
    apply not_free_busy; [done|lia|]. intros Hf. eauto. }
  set (l := (fun i => blockno (B s i)) <$> seq 0 NBUF).
  assert (NoDup l) as Hnd.
  { apply NoDup_fmap_2_strong; [|apply NoDup_seq]. intros i j Hi Hj E.
    destruct (Hbusy i Hi) as (? & ? & _), (Hbusy j Hj) as (? & ? & _). by apply (cr_uniq _ _ _ R). }
  assert (list_to_set l ⊆ busy a) as Hsub.
  { intros x Hx'. apply elem_of_list_to_set, list_elem_of_fmap in Hx' as (i & -> & Hi). by apply Hbusy. }
  apply subseteq_size in Hsub. rewrite size_list_to_set in Hsub by done.
  unfold l in Hsub. rewrite length_fmap, length_seq in Hsub. lia.
Qed.

Lemma bget_cached s a b i k :
  cache_rep s a -> hold a !! b = None ->
  list_find (fun i => dev (B s i) = ROOTDEV /\ blockno (B s i) = b) (mru s) = Some (k, i) ->
  exists s', bget me ROOTDEV b s = Ret i s' /\ cache_rep s' (a_hold (<[b := i]> (hold a)) a) /\ flags (B s' i) <> 0.
Proof.
  intros R Hh F. unfold bget, bind, get. rewrite F. apply list_find_Some in F as (Hk & (Hd & Hb) & _).
  assert (i < NBUF)%nat as Hi by (apply (mru_in s a i R); by eapply list_elem_of_lookup_2).
  pose proof (cr_lt _ _ _ R Hi) as Hil. unfold ROOTDEV in Hd.
  pose proof (cr_buf _ _ _ R i Hi) as Ho. unfold Bio.buf_ok in Ho. rewrite bool_decide_true, Hb, Hh in Ho by done.
  destruct Ho as (Hf & Hdt & Hr & Hl). unfold modify, acquiresleep, bind, get, put, ret.
  rewrite B_updb, decide_True by done. simpl. rewrite Hl. simpl. eexists. split; [done|]. split.
  - apply (cache_change s _ a _ b i (fun x => set_lock (mkSleeplock 1 me) (set_refcnt 1 x))); try done.
    + unfold updb, set_bufs. cbn [bufs]. rewrite !alter_twice. apply list_alter_ext; [|done].
      intros x Hx. unfold B in Hr. apply list_lookup_total_correct in Hx. rewrite Hx in Hr. simpl. by rewrite Hr.
    + apply R.
    + apply R.
    + unfold Bio.buf_ok. simpl. rewrite Hd, bool_decide_true, Hb, lookup_insert_eq by done. done.
    + intros x Hx. simpl. by rewrite lookup_insert_ne.
    + simpl. by rewrite lookup_insert_eq.
  - rewrite !B_updb by (by rewrite ?updb_len). rewrite !decide_True by done. simpl. rewrite Hf. by case_bool_decide.
Qed.

(** A free buffer is given to a block that was in no buffer. *)
Lemma cache_recycle s s' a b i f :
  cache_rep s a -> (i < NBUF)%nat -> free_buf (B s i) ->
  (forall j, (j < NBUF)%nat -> ~ (dev (B s j) = 1 /\ blockno (B s j) = b)) ->
  bufs s' = alter f i (bufs s) -> mru s' = mru s -> memdisk s' = memdisk s -> disksize s' = disksize s ->
  wtrace s' = wtrace s -> f (B s i) = mkBuf 2 1 b (mkSleeplock 1 me) 1 (memdisk s b) ->
  cache_rep s' (a_hold (<[b := i]> (hold a)) a).
Proof.
  intros R Hi [Hr0 Hf0] Hno Hbufs Hmru Hdisk Hsz Htr Hf. pose proof (cr_lt _ _ _ R Hi) as Hil.
  pose proof (fun j => B_alter s s' i f j Hbufs Hil) as HB. rewrite Hf in HB.
  assert (b ∉ dirty a) as Hnd.
  { intros Hb. destruct (cr_cached _ _ _ R b) as (j & Hj & ? & ?); [by left|]. by eapply Hno. }
  assert (hold a !! b = None) as Hnh.
  { apply eq_None_not_Some. intros Hb. destruct (cr_cached _ _ _ R b) as (j & Hj & ? & ?); [by right|]. by eapply Hno. }
  assert (forall x, x ∈ dirty a \/ is_Some (hold a !! x) -> dev (B s i) = 1 -> blockno (B s i) <> x) as Hix.
  { intros x Hx Hd Hb. pose proof (cr_buf _ _ _ R i Hi) as Ho. unfold Bio.buf_ok in Ho.
    rewrite bool_decide_true, Hb in Ho by done. destruct Ho as (Hfl & _ & Hh). rewrite Hfl in Hf0.
    destruct Hx as [Hx|[k Hx]]; [by rewrite bool_decide_true in Hf0|]. rewrite Hx, Hr0 in Hh. lia. }
  split; simpl; try (by rewrite ?Hmru, ?Hsz, ?Htr; apply R).
  - rewrite Hbufs, length_alter. apply R.
  - intros j k Hj Hk. rewrite !HB. repeat case_decide; subst; simpl; intros; try done.
    + exfalso. by apply (Hno k).
    + exfalso. by apply (Hno j).
    + by apply (cr_uniq _ _ _ R).
  - intros j Hj. rewrite HB. case_decide as E.
    + subst j. unfold Bio.buf_ok. simpl. rewrite lookup_insert_eq, bool_decide_false by done.
      split_and!; try done. rewrite (cr_disk _ _ _ R). symmetry. by apply (cr_clean _ _ _ R).
    + pose proof (cr_buf _ _ _ R j Hj) as Ho. unfold Bio.buf_ok in *. simpl. case_bool_decide as Hd; [|done].
      rewrite lookup_insert_ne; [done|]. intros ->. by apply (Hno j).
  - intros x Hx. destruct (decide (x = b)) as [-> |Hne].
    + exists i. rewrite HB, decide_True by done. done.
    + rewrite lookup_insert_ne in Hx by done. destruct (cr_cached _ _ _ R x Hx) as (j & Hj & Hd & Hb).
      exists j. rewrite HB, decide_False; [done|]. intros ->. by apply (Hix x).
  - intros x Hx Hxh. destruct (decide (x = b)) as [-> |]; [by rewrite lookup_insert_eq in Hxh|].
    rewrite lookup_insert_ne in Hxh by done. by apply (cr_clean _ _ _ R).
  - intros x. rewrite Hdisk. apply R.
Qed.

Lemma free_unlocked s a i : cache_rep s a -> (i < NBUF)%nat -> refcnt (B s i) = 0 -> slocked (lock (B s i)) = 0.
Proof.
  intros R Hi Hr. pose proof (cr_buf _ _ _ R i Hi) as Ho. unfold Bio.buf_ok in Ho.
  case_bool_decide; [|tauto]. destruct Ho as (_ & _ & Hh). destruct (hold a !! _); [lia|tauto].
Qed.

Lemma bread_spec s a b :
  cache_rep s a -> hold a !! b = None -> b < asize a -> (size ({[b]} ∪ busy a) <= NBUF)%nat ->
  exists i s', bread me ROOTDEV b s = Ret i s' /\ cache_rep s' (a_hold (<[b := i]> (hold a)) a).
Proof.
  intros R Hh Hb Hs. unfold bread.
  destruct (list_find (fun i => dev (B s i) = ROOTDEV /\ blockno (B s i) = b) (mru s)) as [[k i]|] eqn:F.
  { destruct (bget_cached s a b i k R Hh F) as (s' & E & R' & Hf). exists i, s'. split; [|done].
    rewrite (bind_ret _ _ _ _ _ E). unfold bind, get, when.
    destruct (held_buf s' _ b i R') as (_ & _ & _ & _ & -> & _); [apply lookup_insert_eq|].
    by case_bool_decide. }
  assert (forall j, (j < NBUF)%nat -> ~ (dev (B s j) = 1 /\ blockno (B s j) = b)) as Hno.
  { apply list_find_None in F. rewrite Forall_forall in F. intros j Hj. apply F. by apply (mru_in s a). }
  assert (b ∉ busy a) as Hnb.
  { intros Hb'. destruct (cr_cached _ _ _ R b) as (j & Hj & ? & ?); [|by apply (Hno j)].
    apply elem_of_union in Hb' as [?|?%elem_of_dom]; auto. }
  rewrite size_union, size_singleton in Hs by set_solver.
  destruct (free_buffer s a R) as (i0 & Hi0 & Hf0); [lia|].
  unfold bget, bind at 1 2, get. rewrite F.
  destruct (list_find (fun i => refcnt (B s i) = 0 /\ _) _) as [[k i]|] eqn:F2.
  2: { exfalso. apply list_find_None in F2. rewrite Forall_forall in F2. apply (F2 i0); [|done].
       apply elem_of_reverse. by apply (mru_in s a). }
  apply list_find_Some in F2 as (Hk & Hfree & _).
  assert (i < NBUF)%nat as Hi.
  { apply (mru_in s a i R). apply elem_of_reverse. by eapply list_elem_of_lookup_2. }
  pose proof (cr_lt _ _ _ R Hi) as Hil. exists i.
  unfold modify, acquiresleep, bind, get, put, ret. rewrite B_updb, decide_True by done. simpl.
  rewrite (free_unlocked s a i R Hi) by apply Hfree. simpl.
  rewrite !B_updb by (by rewrite ?updb_len). rewrite !decide_True by done. simpl.
  unfold iderw, holdingsleep, bind, modify, get, gets, panic, when.
  rewrite !B_updb by (by rewrite ?updb_len). rewrite !decide_True by done. simpl. rewrite Z.eqb_refl. simpl.
  rewrite !B_updb by (by rewrite ?updb_len). rewrite !decide_True by done. simpl.
  rewrite (cr_size _ _ _ R). replace (asize a <=? b) with false by lia.
  eexists. split; [done|]. eapply (cache_recycle s _ a b i); 
    [done|done|done|done|unfold updb, set_bufs; cbn [bufs]; rewrite !alter_twice; reflexivity|done..].
Qed.
End lemmas.

(** ** The interface

    What log.c and fs.c use of the cache, and what they may rely on. *)
Class BlockCache (S : Type) := {
  bc_bread : Z -> M S nat;
  bc_getdata : nat -> M S block;
  bc_setdata : nat -> block -> M S ();
  bc_blockno : nat -> M S Z;
  bc_pin : nat -> M S ();
  bc_bwrite : nat -> M S ();
  bc_brelse : nat -> M S ();
  bc_rep : S -> acache -> Prop;
  bc_clean s a b : bc_rep s a -> b ∉ dirty a -> hold a !! b = None -> view a b = adisk a b;
  bc_bread_spec s a b :
    bc_rep s a -> hold a !! b = None -> b < asize a -> (size ({[b]} ∪ busy a) <= NBUF)%nat ->
    exists i s', bc_bread b s = Ret i s' /\ bc_rep s' (a_hold (<[b := i]> (hold a)) a);
  bc_getdata_spec s a b i : bc_rep s a -> hold a !! b = Some i -> bc_getdata i s = Ret (view a b) s;
  bc_setdata_spec s a b i d :
    bc_rep s a -> hold a !! b = Some i -> exists s', bc_setdata i d s = Ret () s' /\ bc_rep s' (a_set b d a);
  bc_blockno_spec s a b i : bc_rep s a -> hold a !! b = Some i -> bc_blockno i s = Ret b s;
  bc_pin_spec s a b i :
    bc_rep s a -> hold a !! b = Some i -> exists s', bc_pin i s = Ret () s' /\ bc_rep s' (a_pin b a);
  bc_bwrite_spec s a b i :
    bc_rep s a -> hold a !! b = Some i -> b < asize a ->
    exists s', bc_bwrite i s = Ret () s' /\ bc_rep s' (a_write b a);
  bc_brelse_spec s a b i :
    bc_rep s a -> hold a !! b = Some i -> (b ∈ dirty a \/ view a b = adisk a b) ->
    exists s', bc_brelse i s = Ret () s' /\ bc_rep s' (a_hold (delete b (hold a)) a) }.

(** bio.c implements it, for the process with pid [me]. *)
#[export] Instance bio_cache (me : Z) : BlockCache bcache := {
  bc_bread := bread me ROOTDEV; bc_getdata := getdata; bc_setdata := setdata; bc_blockno := getblockno;
  bc_pin := pin; bc_bwrite := bwrite me; bc_brelse := brelse me; bc_rep := cache_rep me;
  bc_clean := fun s a b R => cr_clean me s a R b;
  bc_bread_spec := bread_spec me; bc_getdata_spec := getdata_spec me; bc_setdata_spec := setdata_spec me;
  bc_blockno_spec := getblockno_spec me; bc_pin_spec := pin_spec me; bc_bwrite_spec := bwrite_spec me;
  bc_brelse_spec := brelse_spec me }.

(** The cache at boot: zeroed buffers over a disk of [n] blocks. *)
Definition boot_cache (d : disk) (n : Z) : bcache :=
  binit (mkBcache (replicate NBUF (mkBuf 0 0 0 (mkSleeplock 0 0) 0 (replicate (Z.to_nat BSIZE) 0))) [] d n []).
Definition boot_acache (d : disk) (n : Z) : acache := mkAcache d d n ∅ ∅ [].

Lemma binit_spec l s :
  let s' := foldl (fun s i => set_mru (i :: mru s) (updb i (set_lock (mkSleeplock 0 0)) s)) s l in
  mru s' = reverse l ++ mru s /\ memdisk s' = memdisk s /\ disksize s' = disksize s /\ wtrace s' = wtrace s /\
  bufs s' = foldl (fun bs i => alter (set_lock (mkSleeplock 0 0)) i bs) (bufs s) l.
Proof.
  revert s. induction l as [|i l IH]; intros s; [done|]. cbn [foldl]. destruct (IH (set_mru (i :: mru s)
    (updb i (set_lock (mkSleeplock 0 0)) s))) as (-> & -> & -> & -> & ->).
  split_and!; try done. by rewrite reverse_cons, <- app_assoc.
Qed.

(** At boot the cache shows the disk: nothing is dirty and nothing is held. *)
Lemma boot_cache_rep me d n : cache_rep me (boot_cache d n) (boot_acache d n).
Proof.
  unfold boot_cache, binit. set (s0 := set_mru [] _).
  destruct (binit_spec (seq 0 NBUF) s0) as (Hm & Hd & Hn & Ht & Hb). cbv zeta in *.
  set (s := foldl _ s0 _) in *. clearbody s.
  assert (bufs s = replicate NBUF (mkBuf 0 0 0 (mkSleeplock 0 0) 0 (replicate (Z.to_nat BSIZE) 0))) as Hbufs
    by (rewrite Hb; reflexivity).
  assert (forall i, (i < NBUF)%nat -> B s i = mkBuf 0 0 0 (mkSleeplock 0 0) 0 (replicate (Z.to_nat BSIZE) 0)) as HB.
  { intros i Hi. unfold B. rewrite Hbufs. by apply lookup_total_replicate_2. }
  split; simpl.
  - rewrite Hbufs. apply length_replicate.
  - rewrite Hm, app_nil_r. apply reverse_Permutation.
  - intros i j Hi Hj. by rewrite (HB i Hi).
  - intros i Hi. by rewrite (HB i Hi).
  - intros b [Hb'|[? Hb']]; [by apply not_elem_of_empty in Hb'|by rewrite lookup_empty in Hb'].
  - done.
  - intros b. by rewrite Hd.
  - by rewrite Hn.
  - by rewrite Ht.
Qed.

(** ** The claims on the cache *)

(** What a file-system routine does to overwrite block [b]. *)
Definition overwrite (me b : Z) (d : block) : M bcache () :=
  let* i := bread me ROOTDEV b in
  setdata i d ;;;
  bwrite me i ;;;
  brelse me i.

(** And to read it. *)
Definition read_block (me b : Z) : M bcache block :=
  let* i := bread me ROOTDEV b in
  let* d := getdata i in
  brelse me i ;;;
  ret d.

Lemma read_block_run me s a b :
  cache_rep me s a -> hold a !! b = None -> b < asize a -> (size ({[b]} ∪ busy a) <= NBUF)%nat ->
  exists s', read_block me b s = Ret (view a b) s' /\ cache_rep me s' a.
Proof.
  intros R Hh Hb Hs. destruct (bread_spec me s a b R Hh Hb Hs) as (i & s1 & E1 & R1).
  unfold read_block. rewrite (bind_ret _ _ _ _ _ E1).
  rewrite (bind_ret _ _ _ _ _ (getdata_spec me s1 _ b i R1 (lookup_insert_eq _ _ _))).
  destruct (brelse_spec me s1 _ b i R1 (lookup_insert_eq _ _ _)) as (s2 & E2 & R2).
  { simpl. destruct (decide (b ∈ dirty a)); [by left|right]. by apply (cr_clean _ _ _ R). }
  rewrite (bind_ret _ _ _ _ _ E2). exists s2. split; [done|]. revert R2. unfold a_hold. simpl.
  rewrite delete_insert_id by done. by destruct a.
Qed.

(** C37: the cache is coherent.  As long as a buffer can be found for [b] (fewer
    than 30 blocks pinned or held), overwriting block [b] and then reading any
    block neither panics nor sleeps: reading [b] gives the new contents, which
    are also on the disk, and every other block reads as before. *)
Theorem bio_read_after_write me s a b d x :
  cache_rep me s a -> hold a = ∅ -> 0 <= b < asize a -> 0 <= x < asize a ->
  (size (dirty a) < NBUF)%nat ->
  exists s1 s2, overwrite me b d s = Ret () s1 /\ memdisk s1 b = d /\
    (forall y, y <> b -> memdisk s1 y = memdisk s y) /\
    read_block me x s1 = Ret (if x =? b then d else view a x) s2.
Proof.
  intros R Hh Hb Hx Hs.
  assert (forall (h : gmap Z nat), hold a = h -> busy a = dirty a ∪ dom h) as Hbusy by by intros h <-.
  assert (size ({[b]} ∪ busy a) <= NBUF)%nat as Hsb.
  { rewrite (Hbusy ∅ Hh), dom_empty_L, union_empty_r_L. rewrite size_union_alt, size_singleton.
    pose proof (subseteq_size (dirty a ∖ {[b]}) (dirty a) (subseteq_difference_l _ _ _ (reflexivity _))). lia. }
  destruct (bread_spec me s a b R) as (i & s1 & E1 & R1); [by rewrite Hh|lia|done|].
  pose proof (lookup_insert_eq (hold a) b i) as Hi.
  unfold overwrite. rewrite (bind_ret _ _ _ _ _ E1).
  destruct (setdata_spec me s1 _ b i d R1 Hi) as (s2 & E2 & R2). rewrite (bind_ret _ _ _ _ _ E2).
  destruct (bwrite_spec me s2 _ b i R2 Hi) as (s3 & E3 & R3); [simpl; lia|]. rewrite (bind_ret _ _ _ _ _ E3).
  destruct (brelse_spec me s3 _ b i R3 Hi) as (s4 & E4 & R4); [right; simpl; by rewrite !disk_upd_eq|].
  rewrite E4. exists s4. destruct (read_block_run me s4 _ x R4) as (s5 & E5 & R5); simpl.
  - rewrite Hh. destruct (decide (x = b)) as [-> |]; [by rewrite lookup_delete_eq|].
    by rewrite lookup_delete_ne, lookup_insert_ne.
  - lia.
  - unfold busy. simpl. rewrite Hh, delete_insert_id by done. rewrite dom_empty_L, union_empty_r_L.
    rewrite size_union_alt, size_singleton.
    pose proof (subseteq_size (dirty a ∖ {[b]} ∖ {[x]}) (dirty a)
      (subseteq_difference_l _ _ _ (subseteq_difference_l _ _ _ (reflexivity _)))). lia.
  - exists s5. split; [done|]. rewrite E5. split_and!.
    + rewrite (cr_disk _ _ _ R4). simpl. by rewrite !disk_upd_eq.
    + intros y Hy. rewrite (cr_disk _ _ _ R4), (cr_disk _ _ _ R). simpl. by rewrite disk_upd_ne.
    + done.
Qed.

Lemma bio_read_after_write_witness :
  let s := boot_cache (fun _ => []) 1000 in
  exists s1 s2, overwrite 7 45 [1; 2; 3] s = Ret () s1 /\ memdisk s1 45 = [1; 2; 3] /\
    (forall y, y <> 45 -> memdisk s1 y = memdisk s y) /\ read_block 7 45 s1 = Ret [1; 2; 3] s2.
Proof.
  apply (bio_read_after_write 7 (boot_cache (fun _ => []) 1000) (boot_acache (fun _ => []) 1000) 45 [1; 2; 3] 45);
    [apply boot_cache_rep|done|simpl; lia|simpl; lia|]. vm_compute. lia.
Defined.
