(* ===== verification/Log.v ===== *)
(** * The redo log

    log.c, over any cache that implements [BlockCache]: the log header in
    memory and on the disk, [log_write], [begin_op] and [end_op], [commit] and
    [recover_from_log].

    [log.lock] is taken and released in pairs around the bookkeeping; waiting in
    [begin_op] is [Blocked].  The header a crash leaves behind is read back
    into [log.lh], so the header on the disk is assumed to name at most
    [LOGSIZE] blocks (the array bound); all headers the code writes do. *)

From stdpp Require Import gmap.
From S2P Require Import Prelude CString Block Bio.
Open Scope Z_scope.

Definition MAXOPBLOCKS : Z := 10.
Definition LOGSIZE : Z := MAXOPBLOCKS * 3.

(** fs.h *)
Record superblock := mkSuperblock {
  sb_size : Z; sb_nblocks : Z; sb_ninodes : Z; sb_nlog : Z; sb_logstart : Z; sb_inodestart : Z; sb_bmapstart : Z }.

Record log (S : Type) := mkLog {
  lstart : Z; lsize : Z; outstanding : Z; committing : Z; lh_n : Z; lh_block : list Z; cache : S }.
Arguments mkLog {S}. Arguments lstart {S}. Arguments lsize {S}. Arguments outstanding {S}.
Arguments committing {S}. Arguments lh_n {S}. Arguments lh_block {S}. Arguments cache {S}.

(** The header block: [n], then the block numbers. *)
Definition get_head (d : block) : Z * list Z :=
  let n := int_at d 0 in
  (n, (fun i => int_at d (4 + 4 * i)) <$> seq 0 (Z.to_nat n)).
Definition put_head (d : block) (n : Z) (blocks : list Z) : block :=
  foldl (fun d i => put_word d (4 + 4 * i) (blocks !!! i)) (put_word d 0 n) (seq 0 (Z.to_nat n)).

Section log.
Context {S : Type} `{!BlockCache S}.
Local Abbreviation L := (log S).

Definition set_cache (c : S) (l : L) : L :=
  mkLog (lstart l) (lsize l) (outstanding l) (committing l) (lh_n l) (lh_block l) c.
Definition set_lh (n : Z) (b : list Z) (l : L) : L :=
  mkLog (lstart l) (lsize l) (outstanding l) (committing l) n b (cache l).
Definition set_outstanding (v : Z) (l : L) : L :=
  mkLog (lstart l) (lsize l) v (committing l) (lh_n l) (lh_block l) (cache l).
Definition set_committing (v : Z) (l : L) : L :=
  mkLog (lstart l) (lsize l) (outstanding l) v (lh_n l) (lh_block l) (cache l).

Definition lc {A} (c : M S A) : M L A := lift cache set_cache c.

(** fs.c *)
Definition readsb : M L superblock :=
  let* bp := lc (bc_bread 1) in
  let* d := lc (bc_getdata bp) in
  lc (bc_brelse bp) ;;;
  ret (mkSuperblock (word_at d 0) (word_at d 4) (word_at d 8) (word_at d 12) (word_at d 16) (word_at d 20) (word_at d 24)).

(** The body of the loop of [install_trans]. *)
Definition install_block (log_bn dst_bn : Z) : M L () :=
  let* lbuf := lc (bc_bread log_bn) in
  let* dbuf := lc (bc_bread dst_bn) in
  let* d := lc (bc_getdata lbuf) in
  lc (bc_setdata dbuf d) ;;;
  lc (bc_bwrite dbuf) ;;;
  lc (bc_brelse lbuf) ;;;
  lc (bc_brelse dbuf).

Definition install_trans : M L () :=
  let* l := get in
  for_each (seq 0 (Z.to_nat (lh_n l))) (fun tail =>
    install_block (lstart l + Z.of_nat tail + 1) (lh_block l !!! tail)).

Definition read_head : M L () :=
  let* l := get in
  let* buf := lc (bc_bread (lstart l)) in
  let* d := lc (bc_getdata buf) in
  let n := (get_head d).1 in
  modify (fun l => set_lh n (foldl (fun bs i => <[i := int_at d (4 + 4 * i)]> bs) (lh_block l) (seq 0 (Z.to_nat n))) l) ;;;
  lc (bc_brelse buf).

Definition write_head : M L () :=
  let* l := get in
  let* buf := lc (bc_bread (lstart l)) in
  let* d := lc (bc_getdata buf) in
  lc (bc_setdata buf (put_head d (lh_n l) (lh_block l))) ;;;
  lc (bc_bwrite buf) ;;;
  lc (bc_brelse buf).

Definition recover_from_log : M L () :=
  read_head ;;;
  install_trans ;;;
  modify (fun l => set_lh 0 (lh_block l) l) ;;;
  write_head.

Definition initlog : M L () :=
  if BSIZE <=? 4 + 4 * LOGSIZE then panic "initlog: too big logheader"
  else
    let* sb := readsb in
    modify (fun l => mkLog (sb_logstart sb) (sb_nlog sb) (outstanding l) (committing l) (lh_n l) (lh_block l) (cache l)) ;;;
    recover_from_log.

(** One turn of the loop; a caller that sleeps tries again when woken. *)
Definition begin_op : M L () :=
  let* l := get in
  if nz (committing l) then sleeps
  else if LOGSIZE <? lh_n l + (outstanding l + 1) * MAXOPBLOCKS then sleeps
  else put (set_outstanding (outstanding l + 1) l).

(** The body of the loop of [write_log]. *)
Definition log_block (log_bn from_bn : Z) : M L () :=
  let* to := lc (bc_bread log_bn) in
  let* from := lc (bc_bread from_bn) in
  let* d := lc (bc_getdata from) in
  lc (bc_setdata to d) ;;;
  lc (bc_bwrite to) ;;;
  lc (bc_brelse from) ;;;
  lc (bc_brelse to).

Definition write_log : M L () :=
  let* l := get in
  for_each (seq 0 (Z.to_nat (lh_n l))) (fun tail =>
    log_block (lstart l + Z.of_nat tail + 1) (lh_block l !!! tail)).

Definition commit : M L () :=
  let* l := get in
  when (0 <? lh_n l) (
    write_log ;;;
    write_head ;;;
    install_trans ;;;
    modify (fun l => set_lh 0 (lh_block l) l) ;;;
    write_head).

Definition end_op : M L () :=
  modify (fun l => set_outstanding (outstanding l - 1) l) ;;;
  let* l := get in
  if nz (committing l) then panic "log.committing"
  else if outstanding l =? 0 then
    modify (set_committing 1) ;;;
    commit ;;;
    modify (set_committing 0)
  else ret ().

(** [b] is the buffer; its block number is looked up in the header first. *)
Definition log_write (b : nat) : M L () :=
  let* l := get in
  if (LOGSIZE <=? lh_n l) || (lsize l - 1 <=? lh_n l) then panic "too big a transaction"
  else if outstanding l <? 1 then panic "log_write outside of trans"
  else
    let* bn := lc (bc_blockno b) in
    let n := Z.to_nat (lh_n l) in
    let i := match list_find (fun x => x = bn) (take n (lh_block l)) with Some (i, _) => i | None => n end in
    let* l := get in
    put (set_lh (if (i =? n)%nat then lh_n l + 1 else lh_n l) (<[i := bn]> (lh_block l)) l) ;;;
    lc (bc_pin b).
End log.

(** ** Writes as data *)

(** A write through the cache: the block's view and the disk agree afterwards. *)
Definition a_put (b : Z) (d : block) (a : acache) : acache :=
  mkAcache (disk_upd (view a) b d) (disk_upd (adisk a) b d) (asize a) (dirty a ∖ {[b]}) (hold a) (trace a ++ [(b, d)]).
Definition puts (W : list (Z * block)) (a : acache) : acache := foldl (fun a w => a_put w.1 w.2 a) a W.

(** The disk after a sequence of writes. *)
Definition apply_writes (W : list (Z * block)) (d : disk) : disk := foldl (fun d w => disk_upd d w.1 w.2) d W.

(** The log blocks from [p] on receive the contents [v] of the blocks [bs]. *)
Fixpoint log_writes (p : Z) (v : disk) (bs : list Z) : list (Z * block) :=
  match bs with [] => [] | b :: bs => (p, v b) :: log_writes (p + 1) v bs end.
(** The blocks [bs] receive the contents of the log blocks from [p] on. *)
Fixpoint home_writes (p : Z) (v : disk) (bs : list Z) : list (Z * block) :=
  match bs with [] => [] | b :: bs => (b, v p) :: home_writes (p + 1) v bs end.

Section proofs.
Context {S : Type} `{!BlockCache S}.
Local Abbreviation L := (log S).

Lemma lc_run {A} (c : M S A) (l : L) x s : c (cache l) = Ret x s -> lc c l = Ret x (set_cache s l).
Proof. intros E. unfold lc, lift. by rewrite E. Qed.

Lemma a_write_set b d a : a_write b (a_set b d a) = a_put b d a.
Proof. unfold a_write, a_set, a_put. simpl. by rewrite disk_upd_eq. Qed.

Lemma a_hold_id a h : hold a = h -> a_hold h a = a.
Proof. intros <-. by destruct a. Qed.

(** Two blocks are brought into the cache. *)
Lemma bread_two (l : L) a p q :
  bc_rep (cache l) a -> hold a = ∅ -> p <> q -> p < asize a -> q < asize a ->
  (size ({[q]} ∪ ({[p]} ∪ dirty a)) <= NBUF)%nat ->
  exists i j s1 s2, lc (bc_bread p) l = Ret i (set_cache s1 l) /\
    lc (bc_bread q) (set_cache s1 l) = Ret j (set_cache s2 l) /\
    bc_rep s2 (a_hold (<[q := j]> (<[p := i]> ∅)) a).
Proof.
  intros R Hh Hpq Hp Hq Hs.
  destruct (bc_bread_spec (cache l) a p R) as (i & s1 & E1 & R1); [by rewrite Hh|done| |].
  { unfold busy. rewrite Hh, dom_empty_L, union_empty_r_L. etrans; [|exact Hs]. apply subseteq_size. set_solver. }
  rewrite Hh in R1.
  destruct (bc_bread_spec s1 _ q R1) as (j & s2 & E2 & R2); simpl.
  - by rewrite lookup_insert_ne, lookup_empty.
  - done.
  - unfold busy. simpl. rewrite dom_insert_L, dom_empty_L, union_empty_r_L. etrans; [|exact Hs]. apply subseteq_size. set_solver.
  - exists i, j, s1, s2. split_and!; [by apply lc_run|by apply (lc_run (bc_bread q) (set_cache s1 l))|exact R2].
Qed.

Lemma log_block_run (l : L) a p q :
  bc_rep (cache l) a -> hold a = ∅ -> p <> q -> p < asize a -> q < asize a ->
  (size ({[q]} ∪ ({[p]} ∪ dirty a)) <= NBUF)%nat ->
  exists s', log_block p q l = Ret () (set_cache s' l) /\ bc_rep s' (a_put p (view a q) a).
Proof.
  intros R Hh Hpq Hp Hq Hs. destruct (bread_two l a p q) as (i & j & s1 & s2 & E1 & E2 & R2); try done.
  unfold log_block. rewrite (bind_ret _ _ _ _ _ E1), (bind_ret _ _ _ _ _ E2).
  set (h := <[q := j]> (<[p := i]> ∅)) in *.
  assert (h !! p = Some i) as Hi by (unfold h; by rewrite lookup_insert_ne, lookup_insert_eq).
  assert (h !! q = Some j) as Hj by (unfold h; by rewrite lookup_insert_eq).
  rewrite (bind_ret _ _ _ _ _ (lc_run _ (set_cache s2 l) _ _ (bc_getdata_spec s2 _ q j R2 Hj))).
  destruct (bc_setdata_spec s2 _ p i (view a q) R2 Hi) as (s3 & E3 & R3).
  rewrite (bind_ret _ _ _ _ _ (lc_run _ (set_cache s2 l) _ _ E3)).
  destruct (bc_bwrite_spec s3 _ p i R3 Hi) as (s4 & E4 & R4); [done|].
  rewrite (bind_ret _ _ _ _ _ (lc_run _ (set_cache s3 l) _ _ E4)). rewrite a_write_set in R4.
  destruct (bc_brelse_spec s4 _ q j R4 Hj) as (s5 & E5 & R5).
  { simpl. rewrite !disk_upd_ne by done. destruct (decide (q ∈ dirty a)); [left; set_solver|right].
    apply (bc_clean (cache l) a); [done..|by rewrite Hh]. }
  rewrite (bind_ret _ _ _ _ _ (lc_run _ (set_cache s4 l) _ _ E5)).
  destruct (bc_brelse_spec s5 _ p i R5) as (s6 & E6 & R6).
  { simpl. by rewrite lookup_delete_ne. }
  { right. simpl. by rewrite !disk_upd_eq. }
  exists s6. split; [exact (lc_run _ (set_cache s5 l) _ _ E6)|]. revert R6. simpl.
  replace (delete p (delete q h)) with (∅ : gmap Z nat).
  - unfold a_hold, a_put. simpl. by rewrite Hh.
  - unfold h. rewrite delete_insert_id by (by rewrite lookup_insert_ne). by rewrite delete_insert_id.
Qed.

Lemma install_block_run (l : L) a p q :
  bc_rep (cache l) a -> hold a = ∅ -> p <> q -> p < asize a -> q < asize a ->
  (size ({[q]} ∪ ({[p]} ∪ dirty a)) <= NBUF)%nat ->
  exists s', install_block p q l = Ret () (set_cache s' l) /\ bc_rep s' (a_put q (view a p) a).
Proof.
  intros R Hh Hpq Hp Hq Hs. destruct (bread_two l a p q) as (i & j & s1 & s2 & E1 & E2 & R2); try done.
  unfold install_block. rewrite (bind_ret _ _ _ _ _ E1), (bind_ret _ _ _ _ _ E2).
  set (h := <[q := j]> (<[p := i]> ∅)) in *.
  assert (h !! p = Some i) as Hi by (unfold h; by rewrite lookup_insert_ne, lookup_insert_eq).
  assert (h !! q = Some j) as Hj by (unfold h; by rewrite lookup_insert_eq).
  rewrite (bind_ret _ _ _ _ _ (lc_run _ (set_cache s2 l) _ _ (bc_getdata_spec s2 _ p i R2 Hi))).
  destruct (bc_setdata_spec s2 _ q j (view a p) R2 Hj) as (s3 & E3 & R3).
  rewrite (bind_ret _ _ _ _ _ (lc_run _ (set_cache s2 l) _ _ E3)).
  destruct (bc_bwrite_spec s3 _ q j R3 Hj) as (s4 & E4 & R4); [done|].
  rewrite (bind_ret _ _ _ _ _ (lc_run _ (set_cache s3 l) _ _ E4)). rewrite a_write_set in R4.
  destruct (bc_brelse_spec s4 _ p i R4 Hi) as (s5 & E5 & R5).
  { simpl. rewrite !disk_upd_ne by done. destruct (decide (p ∈ dirty a)); [left; set_solver|right].
    apply (bc_clean (cache l) a); [done..|by rewrite Hh]. }
  rewrite (bind_ret _ _ _ _ _ (lc_run _ (set_cache s4 l) _ _ E5)).
  destruct (bc_brelse_spec s5 _ q j R5) as (s6 & E6 & R6).
  { simpl. by rewrite lookup_delete_ne. }
  { right. simpl. by rewrite !disk_upd_eq. }
  exists s6. split; [exact (lc_run _ (set_cache s5 l) _ _ E6)|]. revert R6. simpl.
  replace (delete q (delete p h)) with (∅ : gmap Z nat).
  - unfold a_hold, a_put. simpl. by rewrite Hh.
  - rewrite delete_delete. unfold h. rewrite delete_insert_id by (by rewrite lookup_insert_ne).
    by rewrite delete_insert_id.
Qed.

(** Reading a block, or rewriting it in place with [f]. *)
Lemma bread_one (l : L) a p :
  bc_rep (cache l) a -> hold a = ∅ -> p < asize a -> (size ({[p]} ∪ dirty a) <= NBUF)%nat ->
  exists i s1, lc (bc_bread p) l = Ret i (set_cache s1 l) /\ bc_rep s1 (a_hold (<[p := i]> ∅) a).
Proof.
  intros R Hh Hp Hs. destruct (bc_bread_spec (cache l) a p R) as (i & s1 & E1 & R1); [by rewrite Hh|done| |].
  { unfold busy. by rewrite Hh, dom_empty_L, union_empty_r_L. }
  rewrite Hh in R1. exists i, s1. split; [by apply lc_run|done].
Qed.

Lemma write_head_run (l : L) a :
  bc_rep (cache l) a -> hold a = ∅ -> lstart l < asize a -> (size ({[lstart l]} ∪ dirty a) <= NBUF)%nat ->
  exists s', write_head l = Ret () (set_cache s' l) /\
    bc_rep s' (a_put (lstart l) (put_head (view a (lstart l)) (lh_n l) (lh_block l)) a).
Proof.
  intros R Hh Hp Hs. destruct (bread_one l a (lstart l)) as (i & s1 & E1 & R1); try done.
  unfold write_head, bind at 1, get. rewrite (bind_ret _ _ _ _ _ E1).
  pose proof (lookup_insert_eq (∅ : gmap Z nat) (lstart l) i) as Hi.
  rewrite (bind_ret _ _ _ _ _ (lc_run _ (set_cache s1 l) _ _ (bc_getdata_spec s1 _ _ i R1 Hi))).
  destruct (bc_setdata_spec s1 _ _ i (put_head (view a (lstart l)) (lh_n l) (lh_block l)) R1 Hi) as (s2 & E2 & R2).
  rewrite (bind_ret _ _ _ _ _ (lc_run _ (set_cache s1 l) _ _ E2)).
  destruct (bc_bwrite_spec s2 _ _ i R2 Hi) as (s3 & E3 & R3); [done|].
  rewrite (bind_ret _ _ _ _ _ (lc_run _ (set_cache s2 l) _ _ E3)). rewrite a_write_set in R3.
  destruct (bc_brelse_spec s3 _ _ i R3 Hi) as (s4 & E4 & R4); [right; simpl; by rewrite !disk_upd_eq|].
  exists s4. split; [exact (lc_run _ (set_cache s3 l) _ _ E4)|]. revert R4. simpl.
  rewrite delete_insert_id by done. unfold a_hold, a_put. simpl. by rewrite Hh.
Qed.

Lemma read_head_run (l : L) a :
  bc_rep (cache l) a -> hold a = ∅ -> lstart l < asize a -> (size ({[lstart l]} ∪ dirty a) <= NBUF)%nat ->
  let d := view a (lstart l) in
  exists s', read_head l = Ret () (set_cache s' (set_lh (get_head d).1
      (foldl (fun bs i => <[i := int_at d (4 + 4 * i)]> bs) (lh_block l) (seq 0 (Z.to_nat (get_head d).1))) l)) /\
    bc_rep s' a.
Proof.
  intros R Hh Hp Hs d. destruct (bread_one l a (lstart l)) as (i & s1 & E1 & R1); try done.
  unfold read_head, bind at 1, get. rewrite (bind_ret _ _ _ _ _ E1).
  pose proof (lookup_insert_eq (∅ : gmap Z nat) (lstart l) i) as Hi.
  rewrite (bind_ret _ _ _ _ _ (lc_run _ (set_cache s1 l) _ _ (bc_getdata_spec s1 _ _ i R1 Hi))).
  destruct (bc_brelse_spec s1 _ _ i R1 Hi) as (s2 & E2 & R2).
  { destruct (decide (lstart l ∈ dirty a)); [by left|right]. apply (bc_clean (cache l) a); [done..|by rewrite Hh]. }
  exists s2. split.
  - unfold bind, modify. unfold lc, lift. simpl. rewrite E2. done.
  - revert R2. simpl. rewrite delete_insert_id by done.
    change (a_hold ∅ (a_hold ?h a)) with (a_hold ∅ a). by rewrite a_hold_id.
Qed.

(** ** The loops *)

Lemma puts_app W1 W2 a : puts (W1 ++ W2) a = puts W2 (puts W1 a).
Proof. apply foldl_app. Qed.

Lemma puts_hold W a : hold (puts W a) = hold a /\ asize (puts W a) = asize a.
Proof. revert a. induction W as [|w W IH]; intros a; simpl; [done|]. destruct (IH (a_put w.1 w.2 a)) as [-> ->]. done. Qed.

Lemma puts_view W a x : x ∉ W.*1 -> view (puts W a) x = view a x /\ adisk (puts W a) x = adisk a x.
Proof.
  revert a. induction W as [|w W IH]; intros a Hx; simpl; [done|].
  apply not_elem_of_cons in Hx as [Hne Hx]. destruct (IH (a_put w.1 w.2 a) Hx) as [-> ->]. simpl.
  by rewrite !disk_upd_ne.
Qed.

Lemma puts_dirty W a : dirty (puts W a) = dirty a ∖ list_to_set W.*1.
Proof.
  revert a. induction W as [|w W IH]; intros a; simpl; [by rewrite difference_empty_L|].
  rewrite IH. simpl. by rewrite difference_difference_l_L.
Qed.

Lemma puts_trace W a : trace (puts W a) = trace a ++ W /\ adisk (puts W a) = apply_writes W (adisk a).
Proof.
  revert a. induction W as [|[b d] W IH]; intros a; simpl; [by rewrite app_nil_r|].
  destruct (IH (a_put b d a)) as [-> ->]. simpl. by rewrite <- app_assoc.
Qed.

Lemma log_writes_ext p v v' bs : (forall b, b ∈ bs -> v b = v' b) -> log_writes p v bs = log_writes p v' bs.
Proof.
  revert p. induction bs as [|b bs IH]; intros p Hv; simpl; [done|].
  rewrite (Hv b) by set_solver. f_equal. apply IH. set_solver.
Qed.

Lemma home_writes_ext p v v' bs :
  (forall x, p <= x < p + Z.of_nat (length bs) -> v x = v' x) -> home_writes p v bs = home_writes p v' bs.
Proof.
  revert p. induction bs as [|b bs IH]; intros p Hv; cbn [home_writes]; [done|]. simpl in Hv.
  rewrite (Hv p) by lia. f_equal. apply IH. intros. apply Hv. lia.
Qed.

Lemma buffers_enough (bs : list Z) (D : gset Z) p q :
  q ∈ bs -> (size (list_to_set bs ∪ D) < NBUF)%nat -> (size ({[q]} ∪ ({[p]} ∪ D)) <= NBUF)%nat.
Proof.
  intros Hq Hs. transitivity (size ({[p]} ∪ (list_to_set bs ∪ D))).
  - apply subseteq_size. intros x. rewrite !elem_of_union, elem_of_list_to_set, !elem_of_singleton.
    intros [-> |[-> |Hx]]; auto.
  - rewrite size_union_alt, size_singleton.
    pose proof (subseteq_size ((list_to_set bs ∪ D) ∖ {[p]}) (list_to_set bs ∪ D)
      (subseteq_difference_l _ _ _ (reflexivity _))). lia.
Qed.

Lemma buffers_less (b : Z) bs (D : gset Z) p :
  (size (list_to_set (b :: bs) ∪ D) < NBUF)%nat -> (size (list_to_set bs ∪ D ∖ {[p]}) < NBUF)%nat.
Proof.
  intros Hs. eapply Nat.le_lt_trans; [|exact Hs]. apply subseteq_size. intros x.
  rewrite !elem_of_union, elem_of_difference, !elem_of_list_to_set, elem_of_cons. tauto.
Qed.

(** [l0] is the log when the loop starts: its geometry and header do not change. *)
Definition in_log (l : L) (x : Z) : Prop := lstart l <= x < lstart l + lsize l.

Lemma write_log_loop (l0 l : L) a k bs :
  bc_rep (cache l) a -> hold a = ∅ ->
  (forall t b, bs !! t = Some b -> lh_block l0 !!! (k + t)%nat = b) ->
  (forall b, b ∈ bs -> b < asize a /\ ~ in_log l0 b) ->
  Z.of_nat k + Z.of_nat (length bs) < lsize l0 -> lstart l0 + lsize l0 <= asize a ->
  (size (list_to_set bs ∪ dirty a) < NBUF)%nat ->
  exists s', for_each (seq k (length bs)) (fun tail => log_block (lstart l0 + Z.of_nat tail + 1) (lh_block l0 !!! tail)) l
      = Ret () (set_cache s' l) /\
    bc_rep s' (puts (log_writes (lstart l0 + Z.of_nat k + 1) (view a) bs) a).
Proof.
  revert l a k. induction bs as [|b bs IH]; intros l a k R Hh Hbk Hok Hk Hsz Hs.
  { exists (cache l). split; [by destruct l|done]. }
  cbn [length] in *. cbn [seq for_each].
  pose proof (Hbk 0%nat b eq_refl) as Hb. rewrite Nat.add_0_r in Hb. rewrite Hb.
  destruct (Hok b) as [Hbs Hbl]; [set_solver|]. unfold in_log in Hbl.
  destruct (log_block_run l a (lstart l0 + Z.of_nat k + 1) b) as (s1 & E1 & R1); try done; try lia.
  { apply (buffers_enough (b :: bs)); [set_solver|done]. }
  rewrite (bind_ret _ _ _ _ _ E1).
  destruct (IH (set_cache s1 l) _ (Datatypes.S k) R1) as (s2 & E2 & R2); try done; try (simpl; lia).
  - intros t b' Ht. replace (Datatypes.S k + t)%nat with (k + Datatypes.S t)%nat by lia. by apply Hbk.
  - intros b' Hb'. apply Hok. set_solver.
  - simpl. by eapply buffers_less.
  - exists s2. split; [exact E2|]. cbn [log_writes puts foldl]. revert R2. simpl.
    replace (lstart l0 + Z.of_nat (Datatypes.S k) + 1) with (lstart l0 + Z.of_nat k + 1 + 1) by lia.
    rewrite (log_writes_ext _ _ (view a)); [done|].
    intros b' Hb'. apply disk_upd_ne. intros ->. destruct (Hok (lstart l0 + Z.of_nat k + 1)) as [_ Hx]; [set_solver|].
    apply Hx. unfold in_log. lia.
Qed.

Lemma install_loop (l0 l : L) a k bs :
  bc_rep (cache l) a -> hold a = ∅ ->
  (forall t b, bs !! t = Some b -> lh_block l0 !!! (k + t)%nat = b) ->
  (forall b, b ∈ bs -> b < asize a /\ ~ in_log l0 b) ->
  Z.of_nat k + Z.of_nat (length bs) < lsize l0 -> lstart l0 + lsize l0 <= asize a ->
  (size (list_to_set bs ∪ dirty a) < NBUF)%nat ->
  exists s', for_each (seq k (length bs)) (fun tail => install_block (lstart l0 + Z.of_nat tail + 1) (lh_block l0 !!! tail)) l
      = Ret () (set_cache s' l) /\
    bc_rep s' (puts (home_writes (lstart l0 + Z.of_nat k + 1) (view a) bs) a).
Proof.
  revert l a k. induction bs as [|b bs IH]; intros l a k R Hh Hbk Hok Hk Hsz Hs.
  { exists (cache l). split; [by destruct l|done]. }
  cbn [length] in *. cbn [seq for_each].
  pose proof (Hbk 0%nat b eq_refl) as Hb. rewrite Nat.add_0_r in Hb. rewrite Hb.
  destruct (Hok b) as [Hbs Hbl]; [set_solver|]. unfold in_log in Hbl.
  destruct (install_block_run l a (lstart l0 + Z.of_nat k + 1) b) as (s1 & E1 & R1); try done; try lia.
  { apply (buffers_enough (b :: bs)); [set_solver|done]. }
  rewrite (bind_ret _ _ _ _ _ E1).
  destruct (IH (set_cache s1 l) _ (Datatypes.S k) R1) as (s2 & E2 & R2); try done; try (simpl; lia).
  - intros t b' Ht. replace (Datatypes.S k + t)%nat with (k + Datatypes.S t)%nat by lia. by apply Hbk.
  - intros b' Hb'. apply Hok. set_solver.
  - simpl. by eapply buffers_less.
  - exists s2. split; [exact E2|]. cbn [home_writes puts foldl]. revert R2. simpl.
    replace (lstart l0 + Z.of_nat (Datatypes.S k) + 1) with (lstart l0 + Z.of_nat k + 1 + 1) by lia.
    rewrite (home_writes_ext _ _ (view a)); [done|].
    intros x Hx. apply disk_upd_ne. lia.
Qed.
End proofs.
