(* ===== verification/LogCrash.v ===== *)
(** * Crash safety of the redo log

    The writes [commit] and [recover_from_log] issue, what the disk looks like
    after any prefix of them, and what the next [initlog] makes of it. *)

From stdpp Require Import gmap.
From S2P Require Import Prelude CString Block Bio Log.
Open Scope Z_scope.

(** ** The header block *)

Lemma put_blocks_spec (bl : list Z) d m :
  is_block d -> (m <= 30)%nat -> (forall t, (t < m)%nat -> - 2 ^ 31 <= bl !!! t < 2 ^ 31) ->
  let d' := foldl (fun d i => put_word d (4 + 4 * i) (bl !!! i)) d (seq 0 m) in
  is_block d' /\ int_at d' 0 = int_at d 0 /\ (forall t, (t < m)%nat -> int_at d' (4 + 4 * t) = bl !!! t).
Proof.
  cbv zeta. unfold is_block. change (Z.to_nat BSIZE) with 512%nat.
  intros Hd. induction m as [|m IH]; intros Hm Hr; [by repeat split; intros; try lia|].
  rewrite seq_S, foldl_app. cbn [foldl]. set (d1 := foldl _ d (seq 0 m)) in *.
  destruct IH as (Hl & H0 & Ht); [lia|intros; apply Hr; lia|]. fold d1 in Hl, H0, Ht.
  change (0 + m)%nat with m. split_and!.
  - by rewrite length_put_word by lia.
  - by rewrite int_at_put_other by lia.
  - intros t Hlt. destruct (decide (t = m)) as [-> |Hne].
    + apply int_at_put; [lia|]. apply Hr. lia.
    + rewrite int_at_put_other by lia. apply Ht. lia.
Qed.

Lemma put_head_spec d n bl :
  is_block d -> 0 <= n <= 30 -> (forall t, (t < Z.to_nat n)%nat -> - 2 ^ 31 <= bl !!! t < 2 ^ 31) ->
  is_block (put_head d n bl) /\
  get_head (put_head d n bl) = (n, (fun t => bl !!! t) <$> seq 0 (Z.to_nat n)).
Proof.
  intros Hd Hn Hr. unfold put_head.
  assert (is_block (put_word d 0 n)) as Hd1.
  { unfold is_block in *. rewrite length_put_word; [done|]. rewrite Hd. vm_compute. lia. }
  destruct (put_blocks_spec bl (put_word d 0 n) (Z.to_nat n) Hd1) as (Hl & H0 & Ht); [lia|done|].
  split; [done|]. unfold get_head. rewrite H0, int_at_put; [|rewrite Hd; vm_compute; lia|lia].
  f_equal. apply list_fmap_ext. intros i t Hi. apply lookup_seq in Hi. apply Ht. lia.
Qed.

Lemma put_head_zero d bl : is_block d -> is_block (put_head d 0 bl) /\ get_head (put_head d 0 bl) = (0, []).
Proof. intros Hd. apply (put_head_spec d 0 bl); [done|lia|simpl; lia]. Qed.

(** [read_head] stores the block numbers one by one. *)
Lemma read_blocks (f : nat -> Z) bs m t :
  (m <= length bs)%nat -> (t < m)%nat -> foldl (fun bs i => <[i := f i]> bs) bs (seq 0 m) !!! t = f t.
Proof.
  intros Hm Ht. assert (length (foldl (fun bs i => <[i := f i]> bs) bs (seq 0 m)) = length bs) as Hl.
  { clear. generalize (seq 0 m). intros l. revert bs. induction l as [|i l IH]; intros bs; simpl; [done|].
    by rewrite IH, length_insert. }
  revert Hm Ht Hl. induction m as [|m IH]; intros Hm Ht Hl; [lia|].
  rewrite seq_S, foldl_app in *. cbn [foldl] in *. change (0 + m)%nat with m in *. rewrite length_insert in Hl.
  destruct (decide (t = m)) as [-> |Hne].
  - apply list_lookup_total_insert_eq. rewrite Hl. lia.
  - rewrite list_lookup_total_insert_ne by done. apply IH; [lia..|done].
Qed.

(** ** Sequences of writes *)

Lemma apply_writes_app W1 W2 d : apply_writes (W1 ++ W2) d = apply_writes W2 (apply_writes W1 d).
Proof. apply foldl_app. Qed.

Lemma apply_writes_notin W d x : x ∉ W.*1 -> apply_writes W d x = d x.
Proof.
  revert d. induction W as [|w W IH]; intros d Hx; [done|].
  apply not_elem_of_cons in Hx as [Hne Hx]. etrans; [exact (IH _ Hx)|]. by apply disk_upd_ne.
Qed.

Lemma apply_writes_in W d x v t : NoDup W.*1 -> W !! t = Some (x, v) -> apply_writes W d x = v.
Proof.
  revert d t. induction W as [|w W IH]; intros d t Hn Ht; [done|]. apply NoDup_cons in Hn as [Hw Hn].
  destruct t as [|t]; simpl in Ht.
  - simplify_eq. simpl. etrans; [exact (apply_writes_notin W _ x Hw)|]. by rewrite disk_upd_eq.
  - by apply (IH _ t).
Qed.

Lemma apply_writes_ext W d d' : (forall x, d x = d' x) -> forall x, apply_writes W d x = apply_writes W d' x.
Proof.
  revert d d'. induction W as [|w W IH]; intros d d' H x; [apply H|]. apply IH. intros y. unfold disk_upd. by rewrite H.
Qed.

Lemma home_writes_fst p v bs : (home_writes p v bs).*1 = bs.
Proof. revert p. induction bs as [|b bs IH]; intros p; simpl; [done|]. by rewrite IH. Qed.
Lemma home_writes_lookup p v bs t b : bs !! t = Some b -> home_writes p v bs !! t = Some (b, v (p + Z.of_nat t)).
Proof.
  revert p t. induction bs as [|b' bs IH]; intros p [|t] Ht; simplify_eq/=; [by rewrite Z.add_0_r|].
  rewrite (IH _ t Ht). do 3 f_equal. lia.
Qed.
Lemma home_writes_length p v bs : length (home_writes p v bs) = length bs.
Proof. by rewrite <- (home_writes_fst p v bs) at 2; rewrite length_fmap. Qed.
Lemma log_writes_length p v bs : length (log_writes p v bs) = length bs.
Proof. revert p. induction bs as [|b bs IH]; intros p; simpl; [done|]. by rewrite IH. Qed.
Lemma log_writes_lookup p v bs t b : bs !! t = Some b -> log_writes p v bs !! t = Some (p + Z.of_nat t, v b).
Proof.
  revert p t. induction bs as [|b' bs IH]; intros p [|t] Ht; simplify_eq/=; [by rewrite Z.add_0_r|].
  rewrite (IH _ t Ht). do 2 f_equal. lia.
Qed.
Lemma log_writes_fst p v bs : (log_writes p v bs).*1 = (fun t => p + Z.of_nat t) <$> seq 0 (length bs).
Proof.
  revert p. induction bs as [|b bs IH]; intros p; simpl; [done|]. rewrite IH, <- fmap_S_seq, <- list_fmap_compose.
  f_equal; [lia|]. apply list_fmap_ext. intros i x _. simpl. lia.
Qed.
Lemma log_writes_range p v bs x : x ∈ (log_writes p v bs).*1 -> p <= x < p + Z.of_nat (length bs).
Proof. rewrite log_writes_fst. intros (t & -> & Ht)%list_elem_of_fmap. apply elem_of_seq in Ht. lia. Qed.
Lemma log_writes_nodup p v bs : NoDup (log_writes p v bs).*1.
Proof. rewrite log_writes_fst. apply NoDup_fmap_2; [intros ???; lia|apply NoDup_seq]. Qed.

(** Writing a list of blocks home in order. *)
Lemma home_writes_log p v bs d :
  (forall x, p <= x < p + Z.of_nat (length bs) -> v x = apply_writes (log_writes p d bs) d x) ->
  home_writes p v bs = (fun b => (b, d b)) <$> bs.
Proof.
  intros Hv. apply list_eq. intros t. rewrite list_lookup_fmap. destruct (bs !! t) as [b|] eqn:E.
  - rewrite (home_writes_lookup _ _ _ _ _ E). simpl. pose proof (lookup_lt_Some _ _ _ E). rewrite Hv by lia.
    by rewrite (apply_writes_in _ _ _ (d b) t (log_writes_nodup _ _ _)) by (by apply log_writes_lookup).
  - apply lookup_ge_None. rewrite home_writes_length. by apply lookup_ge_None.
Qed.

(** ** The log on the disk *)

(** The superblock [readsb] finds in block 1. *)
Definition sb_of (d : block) : superblock :=
  mkSuperblock (word_at d 0) (word_at d 4) (word_at d 8) (word_at d 12) (word_at d 16) (word_at d 20) (word_at d 24).

(** The log area: [n] blocks from [p] on a disk of [size] blocks; the
    superblock says so, and lies outside. *)
Record geometry (p n size : Z) : Prop := {
  ge_p : 1 < p; ge_n : 0 < n <= LOGSIZE; ge_end : p + n <= size; ge_size : size <= 2 ^ 31 }.

(** Blocks a transaction may change. *)
Definition home (p n size b : Z) : Prop := 0 <= b < size /\ b <> 1 /\ ~ (p <= b < p + n).

(** The header on the disk is well formed and names the blocks [bs]. *)
Record disk_log (p n size : Z) (d : disk) (bs : list Z) : Prop := {
  dl_block : is_block (d p);
  dl_head : get_head (d p) = (Z.of_nat (length bs), bs);
  dl_nodup : NoDup bs;
  dl_home : forall b, b ∈ bs -> home p n size b;
  dl_len : Z.of_nat (length bs) < n;
  dl_sb : sb_logstart (sb_of (d 1)) = p /\ sb_nlog (sb_of (d 1)) = n }.

(** What [recover_from_log] writes. *)
Definition recovery_writes (p : Z) (d : disk) : list (Z * block) :=
  home_writes (p + 1) d (get_head (d p)).2 ++ [(p, put_head (d p) 0 [])].

(** Recovery from [d] gives [f] outside the log area. *)
Definition recovers (p n size : Z) (d f : disk) : Prop :=
  exists bs, disk_log p n size d bs /\
    forall x, ~ (p <= x < p + n) -> apply_writes (recovery_writes p d) d x = f x.

Section disk.
Context (p n size : Z) (G : geometry p n size).

Lemma home_not_in_log bs d x :
  disk_log p n size d bs -> p <= x < p + n -> x ∉ bs.
Proof. intros D Hx Hb. by destruct (dl_home _ _ _ _ _ D x Hb) as (_ & _ & Hl). Qed.

Lemma recovery_in d bs x t : disk_log p n size d bs -> bs !! t = Some x ->
  apply_writes (recovery_writes p d) d x = d (p + 1 + Z.of_nat t).
Proof.
  intros D Ht. unfold recovery_writes. rewrite (dl_head _ _ _ _ _ D), apply_writes_app. simpl.
  assert (x <> p) as Hx.
  { intros ->. destruct G. apply (home_not_in_log bs d p D); [lia|]. by apply list_elem_of_lookup_2 in Ht. }
  rewrite disk_upd_ne by done. apply (apply_writes_in _ _ _ _ t).
  - rewrite home_writes_fst. by apply (dl_nodup _ _ _ _ _ D).
  - by apply home_writes_lookup.
Qed.

Lemma recovery_out d bs x : disk_log p n size d bs -> x ∉ bs -> x <> p -> apply_writes (recovery_writes p d) d x = d x.
Proof.
  intros D Hx Hp. apply apply_writes_notin. unfold recovery_writes. rewrite (dl_head _ _ _ _ _ D), fmap_app, home_writes_fst.
  simpl. rewrite not_elem_of_app, list_elem_of_singleton. done.
Qed.

(** A disk with an empty log recovers to itself. *)
Lemma recovers_empty d f : disk_log p n size d [] -> (forall x, ~ (p <= x < p + n) -> d x = f x) -> recovers p n size d f.
Proof.
  intros D Hf. exists []. split; [done|]. intros x Hx. destruct G.
  rewrite (recovery_out d [] x D); [by apply Hf|apply not_elem_of_nil|lia].
Qed.

(** Writes that keep the log area and change only blocks the log names do not
    matter. *)
Lemma disk_log_same d d' bs :
  disk_log p n size d bs -> (forall x, x ∉ bs -> d' x = d x) -> disk_log p n size d' bs.
Proof.
  intros D Hd. destruct G. assert (d' p = d p) as Hp by (apply Hd, (home_not_in_log bs d p D); lia).
  destruct D as [??? Hh ??]. split; rewrite ?Hp; try done. rewrite Hd; [done|].
  intros H1. by destruct (Hh 1 H1) as (_ & ? & _).
Qed.

Lemma recovers_partial d bs f W : disk_log p n size d bs -> recovers p n size d f ->
  (forall x, x ∈ W.*1 -> x ∈ bs) -> recovers p n size (apply_writes W d) f.
Proof.
  intros D (bs' & D' & Hf) HW. assert (bs' = bs) as ->.
  { pose proof (dl_head _ _ _ _ _ D) as H1. rewrite (dl_head _ _ _ _ _ D') in H1. congruence. }
  assert (forall x, x ∉ bs -> apply_writes W d x = d x) as Hs.
  { intros x Hx. apply apply_writes_notin. auto. }
  pose proof (disk_log_same d _ bs D Hs) as D2. exists bs. split; [done|]. intros x Hx. rewrite <- (Hf x Hx). destruct G.
  destruct (decide (x ∈ bs)) as [Hb|Hb].
  - pose proof Hb as [t Ht]%list_elem_of_lookup_1. rewrite !(recovery_in _ bs x t) by done. apply Hs.
    apply (home_not_in_log bs d _ D). pose proof (lookup_lt_Some _ _ _ Ht). pose proof (dl_len _ _ _ _ _ D). lia.
  - rewrite !(recovery_out _ bs x) by (done || lia). by apply Hs.
Qed.

(** After recovery the log is empty. *)
Lemma recovered_log d bs : disk_log p n size d bs -> disk_log p n size (apply_writes (recovery_writes p d) d) [].
Proof.
  intros D. destruct (put_head_zero (d p) [] (dl_block _ _ _ _ _ D)) as [Hb Hg]. destruct G.
  assert (apply_writes (recovery_writes p d) d p = put_head (d p) 0 []) as Hp.
  { unfold recovery_writes. rewrite apply_writes_app. simpl. by rewrite disk_upd_eq. }
  split; rewrite ?Hp; [done..|apply NoDup_nil_2|by intros b ?%elem_of_nil|simpl; lia|].
  rewrite (recovery_out d bs 1); [by apply D|done| |lia]. intros H1. by destruct (dl_home _ _ _ _ _ D 1 H1) as (_ & ? & _).
Qed.

(** A crash while recovering loses nothing: the next recovery gives the same. *)
Lemma recovers_crash d f j : recovers p n size d f -> recovers p n size (apply_writes (take j (recovery_writes p d)) d) f.
Proof.
  intros Rf. pose proof Rf as (bs & D & Hf). destruct (decide (j <= length bs)%nat) as [Hj|Hj].
  - apply (recovers_partial d bs); [done..|]. intros x. unfold recovery_writes. rewrite (dl_head _ _ _ _ _ D).
    rewrite take_app_le by (by rewrite home_writes_length). rewrite fmap_take, home_writes_fst.
    intros (i & Hi & _)%elem_of_take. by apply list_elem_of_lookup_2 in Hi.
  - rewrite take_ge; [|unfold recovery_writes; rewrite (dl_head _ _ _ _ _ D), length_app, home_writes_length; simpl; lia].
    apply recovers_empty; [by apply (recovered_log d bs)|done].
Qed.
End disk.

(** ** The log in memory *)

(** The transaction being built names the blocks [bs]: exactly the dirty ones. *)
Record log_inv {S} (l : log S) (a : acache) (bs : list Z) : Prop := {
  li_geo : geometry (lstart l) (lsize l) (asize a);
  li_n : lh_n l = Z.of_nat (length bs);
  li_len : length (lh_block l) = Z.to_nat LOGSIZE;
  li_bs : forall t b, bs !! t = Some b -> lh_block l !!! t = b;
  li_nodup : NoDup bs;
  li_home : forall b, b ∈ bs -> home (lstart l) (lsize l) (asize a) b;
  li_lt : Z.of_nat (length bs) < lsize l;
  li_dirty : dirty a = list_to_set bs;
  li_disk : disk_log (lstart l) (lsize l) (asize a) (adisk a) [] }.

(** What [commit] writes, for a cache that shows [v]. *)
Definition commit_writes {S} (l : log S) (v : disk) (bs : list Z) : list (Z * block) :=
  let h := put_head (v (lstart l)) (lh_n l) (lh_block l) in
  log_writes (lstart l + 1) v bs ++ (lstart l, h) :: ((fun b => (b, v b)) <$> bs) ++ [(lstart l, put_head h 0 [])].

Section run.
Context {S : Type} `{!BlockCache S}.
Local Abbreviation L := (log S).

Lemma list_size_le (bs : list Z) : (size (list_to_set bs : gset Z) <= length bs)%nat.
Proof.
  induction bs as [|b bs IH]; [vm_compute; lia|]. rewrite list_to_set_cons; simpl length; rewrite size_union_alt, size_singleton.
  pose proof (subseteq_size (list_to_set bs ∖ {[b]} : gset Z) (list_to_set bs) (subseteq_difference_l _ _ _ (reflexivity _))). lia.
Qed.

Lemma buffers_small (bs : list Z) (D : gset Z) n :
  D ⊆ list_to_set bs -> Z.of_nat (length bs) < n <= LOGSIZE -> (size (list_to_set bs ∪ D) < NBUF)%nat.
Proof.
  intros HD Hn. replace (list_to_set bs ∪ D) with (list_to_set bs : gset Z) by set_solver.
  pose proof (list_size_le bs). unfold LOGSIZE, MAXOPBLOCKS, NBUF in *. lia.
Qed.

Lemma buffers_one (D : gset Z) q : (size D < NBUF)%nat -> (size ({[q]} ∪ D) <= NBUF)%nat.
Proof.
  intros Hs. rewrite size_union_alt, size_singleton.
  pose proof (subseteq_size (D ∖ {[q]}) D (subseteq_difference_l _ _ _ (reflexivity _))). lia.
Qed.

Lemma install_trans_run (l : L) a bs :
  bc_rep (cache l) a -> hold a = ∅ -> geometry (lstart l) (lsize l) (asize a) ->
  lh_n l = Z.of_nat (length bs) -> (forall t b, bs !! t = Some b -> lh_block l !!! t = b) ->
  (forall b, b ∈ bs -> home (lstart l) (lsize l) (asize a) b) -> Z.of_nat (length bs) < lsize l ->
  dirty a ⊆ list_to_set bs ->
  exists s', install_trans l = Ret () (set_cache s' l) /\
    bc_rep s' (puts (home_writes (lstart l + 1) (view a) bs) a).
Proof.
  intros R Hh G Hn Hbs Hho Hlt HD. destruct G. unfold install_trans, bind at 1, get. rewrite Hn, Nat2Z.id.
  destruct (install_loop l l a 0 bs) as (s' & E & R'); try done; try lia.
  - intros b Hb. destruct (Hho b Hb) as (? & _ & ?). unfold in_log. lia.
  - by apply (buffers_small _ _ (lsize l)); [|lia].
  - exists s'. split; [exact E|]. by rewrite Z.add_0_r in R'.
Qed.

Lemma write_log_run (l : L) a bs :
  bc_rep (cache l) a -> hold a = ∅ -> log_inv l a bs ->
  exists s', write_log l = Ret () (set_cache s' l) /\ bc_rep s' (puts (log_writes (lstart l + 1) (view a) bs) a).
Proof.
  intros R Hh I. destruct I as [G Hn _ Hbs _ Hho Hlt HD _]. destruct G. unfold write_log, bind at 1, get. rewrite Hn, Nat2Z.id.
  destruct (write_log_loop l l a 0 bs) as (s' & E & R'); try done; try lia.
  - intros b Hb. destruct (Hho b Hb) as (? & _ & ?). unfold in_log. lia.
  - apply (buffers_small _ _ (lsize l)); [by rewrite HD|lia].
  - exists s'. split; [exact E|]. by rewrite Z.add_0_r in R'.
Qed.

(** Outside the blocks the log names, the cache shows the disk. *)
Lemma clean_view (l : L) a bs x : bc_rep (cache l) a -> hold a = ∅ -> log_inv l a bs -> x ∉ bs -> view a x = adisk a x.
Proof.
  intros R Hh I Hx. apply (bc_clean (cache l) a); [done| |by rewrite Hh].
  rewrite (li_dirty _ _ _ I). by rewrite elem_of_list_to_set.
Qed.

Lemma head_not_home (l : L) a bs : log_inv l a bs -> lstart l ∉ bs.
Proof. intros I Hb. destruct (li_home _ _ _ I _ Hb) as (_ & _ & Hl), (li_geo _ _ _ I). lia. Qed.

(** The view after the log has been written and the header committed. *)
Lemma logged_view (l : L) a bs h x :
  log_inv l a bs -> lstart l + 1 <= x < lstart l + 1 + Z.of_nat (length bs) ->
  disk_upd (view (puts (log_writes (lstart l + 1) (view a) bs) a)) (lstart l) h x =
  apply_writes (log_writes (lstart l + 1) (view a) bs) (view a) x.
Proof.
  intros I Hx. rewrite disk_upd_ne by lia. clear. generalize (log_writes (lstart l + 1) (view a) bs). intros W. revert a.
  induction W as [|w W IH]; intros a; [done|]. exact (IH (a_put w.1 w.2 a)).
Qed.

(** Installing the log and clearing its header. *)
Definition install_clear : M L () :=
  install_trans ;;; modify (fun l => set_lh 0 (lh_block l) l) ;;; write_head.

Lemma install_clear_run (l : L) a bs :
  bc_rep (cache l) a -> hold a = ∅ -> geometry (lstart l) (lsize l) (asize a) ->
  lh_n l = Z.of_nat (length bs) -> (forall t b, bs !! t = Some b -> lh_block l !!! t = b) ->
  (forall b, b ∈ bs -> home (lstart l) (lsize l) (asize a) b) -> Z.of_nat (length bs) < lsize l ->
  dirty a ⊆ list_to_set bs ->
  exists s', install_clear l = Ret () (set_lh 0 (lh_block l) (set_cache s' l)) /\
    bc_rep s' (puts (home_writes (lstart l + 1) (view a) bs ++ [(lstart l, put_head (view a (lstart l)) 0 [])]) a).
Proof.
  intros R Hh G Hn Hbs Hho Hlt HD. unfold install_clear.
  destruct (install_trans_run l a bs) as (s1 & E1 & R1); try done. rewrite (bind_ret _ _ _ _ _ E1).
  unfold bind at 1, modify. set (W := home_writes _ _ _) in *. destruct (puts_hold W a) as [Hh1 Hz1].
  destruct (write_head_run (set_lh 0 (lh_block (set_cache s1 l)) (set_cache s1 l)) (puts W a)) as (s2 & E2 & R2).
  - done.
  - by rewrite Hh1.
  - rewrite Hz1. destruct G. simpl. lia.
  - apply buffers_one. rewrite puts_dirty. unfold W. rewrite home_writes_fst.
    replace (dirty a ∖ list_to_set bs) with (∅ : gset Z) by set_solver. rewrite size_empty. unfold NBUF. lia.
  - exists s2. split; [exact E2|]. rewrite puts_app. revert R2. cbn [lstart lh_n lh_block set_lh set_cache].
    rewrite (proj1 (puts_view W a (lstart l) ltac:(unfold W; rewrite home_writes_fst; intros Hb;
      destruct (Hho _ Hb) as (_ & _ & ?), G; lia))). done.
Qed.

Lemma commit_run (l : L) a bs :
  bc_rep (cache l) a -> hold a = ∅ -> log_inv l a bs -> bs <> [] ->
  exists s', commit l = Ret () (set_lh 0 (lh_block l) (set_cache s' l)) /\
    bc_rep s' (puts (commit_writes l (view a) bs) a).
Proof.
  intros R Hh I Hne. unfold commit, bind at 1, get.
  assert ((0 <? lh_n l) = true) as ->.
  { rewrite (li_n _ _ _ I). destruct bs; [done|simpl; apply Z.ltb_lt; lia]. }
  unfold when. destruct (write_log_run l a bs) as (s1 & E1 & R1); try done. rewrite (bind_ret _ _ _ _ _ E1).
  set (W1 := log_writes _ _ _) in *. destruct (puts_hold W1 a) as [Hh1 Hz1]. pose proof (li_geo _ _ _ I) as G.
  assert (dirty (puts W1 a) ⊆ list_to_set bs) as Hd1.
  { rewrite puts_dirty. apply subseteq_difference_l. by rewrite (li_dirty _ _ _ I). }
  destruct (write_head_run (set_cache s1 l) (puts W1 a)) as (s2 & E2 & R2); [done|by rewrite Hh1|rewrite Hz1; destruct G; simpl; lia| |].
  { apply buffers_one. eapply Nat.le_lt_trans; [by apply subseteq_size, Hd1|].
    rewrite <- (union_empty_r_L (list_to_set bs)). apply (buffers_small _ _ (lsize l)); [apply empty_subseteq|].
    destruct G. pose proof (li_lt _ _ _ I). lia. }
  rewrite (bind_ret _ _ _ _ _ E2). cbn [lstart lh_n lh_block set_cache] in R2.
  assert (view (puts W1 a) (lstart l) = view a (lstart l)) as Hv.
  { apply puts_view. intros Hx%log_writes_range. lia. }
  rewrite Hv in R2. set (h := put_head _ _ _) in R2. set (a2 := a_put _ _ _) in R2.
  destruct (install_clear_run (set_cache s2 (set_cache s1 l)) a2 bs) as (s3 & E3 & R3); try done; try apply I.
  { unfold a2. simpl. by rewrite Hh1. } { unfold a2. simpl. by rewrite Hz1. }
  { unfold a2. simpl. rewrite Hz1. apply I. } { unfold a2. simpl. by apply subseteq_difference_l. }
  exists s3. split; [exact E3|]. unfold commit_writes. rewrite puts_app. fold W1. fold h. simpl. fold a2.
  cbn [lstart set_cache] in R3. rewrite (home_writes_log _ _ _ (view a)) in R3; [|intros x Hx; by apply logged_view].
  unfold a2 in R3 at 2. simpl in R3. by rewrite disk_upd_eq in R3.
Qed.
Lemma recover_run (l : L) a bs :
  bc_rep (cache l) a -> hold a = ∅ -> dirty a = ∅ -> geometry (lstart l) (lsize l) (asize a) ->
  length (lh_block l) = Z.to_nat LOGSIZE -> disk_log (lstart l) (lsize l) (asize a) (adisk a) bs ->
  exists s' bl, recover_from_log l = Ret () (set_lh 0 bl (set_cache s' l)) /\ length bl = Z.to_nat LOGSIZE /\
    bc_rep s' (puts (recovery_writes (lstart l) (adisk a)) a).
Proof.
  intros R Hh Hd G Hl D. unfold recover_from_log.
  assert (forall x, view a x = adisk a x) as Hv.
  { intros x. apply (bc_clean (cache l) a); [done|by rewrite Hd; apply not_elem_of_empty|by rewrite Hh]. }
  destruct (read_head_run l a) as (s1 & E1 & R1); [done..|destruct G; lia|rewrite Hd; apply buffers_one; vm_compute; lia|].
  rewrite (bind_ret _ _ _ _ _ E1). rewrite Hv, (dl_head _ _ _ _ _ D) in *. cbn [fst] in *.
  rewrite Nat2Z.id in *. set (bl := foldl _ _ _) in *.
  assert (Z.of_nat (length bs) < lsize l) as Hn by apply D.
  assert (length bs <= length (lh_block l))%nat as Hn' by (rewrite Hl; destruct G; lia).
  assert (forall t b, bs !! t = Some b -> bl !!! t = b) as Hbl.
  { intros t b Ht. unfold bl. rewrite read_blocks; [|done|by apply lookup_lt_Some in Ht].
    pose proof (dl_head _ _ _ _ _ D) as Hg. unfold get_head in Hg. injection Hg as Hg0 Hg1. rewrite <- Hg1 in Ht.
    rewrite list_lookup_fmap in Ht. destruct (seq _ _ !! t) as [t'|] eqn:Es; [|done]. apply lookup_seq in Es as [-> _].
    by simplify_eq/=. }
  destruct (install_clear_run (set_cache s1 (set_lh (Z.of_nat (length bs)) bl l)) a bs) as (s2 & E2 & R2); try done.
  { apply D. } { rewrite Hd. apply empty_subseteq. }
  exists s2, bl. split; [exact E2|]. split.
  - unfold bl. clear -Hl. revert Hl. generalize (lh_block l) (seq 0 (length bs)). intros bl l'. revert bl.
    induction l' as [|i l' IH]; intros bl Hl; [done|]. apply IH. by rewrite length_insert.
  - revert R2. unfold recovery_writes. rewrite (dl_head _ _ _ _ _ D). cbn [lstart set_cache set_lh snd].
    rewrite Hv. by rewrite (home_writes_ext _ (view a) (adisk a)).
Qed.

Lemma readsb_run (l : L) a :
  bc_rep (cache l) a -> hold a = ∅ -> dirty a = ∅ -> 1 < asize a ->
  exists s', readsb l = Ret (sb_of (adisk a 1)) (set_cache s' l) /\ bc_rep s' a.
Proof.
  intros R Hh Hd H1. unfold readsb. destruct (bread_one l a 1) as (i & s1 & E1 & R1); try done.
  { rewrite Hd. vm_compute. lia. }
  rewrite (bind_ret _ _ _ _ _ E1). pose proof (lookup_insert_eq (∅ : gmap Z nat) 1 i) as Hi.
  rewrite (bind_ret _ _ _ _ _ (lc_run _ (set_cache s1 l) _ _ (bc_getdata_spec s1 _ _ i R1 Hi))).
  assert (view a 1 = adisk a 1) as Hv.
  { apply (bc_clean (cache l) a); [done|by rewrite Hd; apply not_elem_of_empty|by rewrite Hh]. }
  destruct (bc_brelse_spec s1 _ _ i R1 Hi) as (s2 & E2 & R2); [by right|].
  rewrite (bind_ret _ _ _ _ _ (lc_run _ (set_cache s1 l) _ _ E2)). exists s2. split; [simpl; by rewrite Hv|].
  revert R2. simpl. rewrite delete_insert_id by done. change (a_hold ∅ (a_hold ?h a)) with (a_hold ∅ a). by rewrite a_hold_id.
Qed.

Lemma initlog_run (l : L) a bs p n :
  bc_rep (cache l) a -> hold a = ∅ -> dirty a = ∅ -> geometry p n (asize a) ->
  length (lh_block l) = Z.to_nat LOGSIZE -> disk_log p n (asize a) (adisk a) bs ->
  exists l', initlog l = Ret () l' /\ lstart l' = p /\ lsize l' = n /\ lh_n l' = 0 /\
    outstanding l' = outstanding l /\ committing l' = committing l /\ length (lh_block l') = Z.to_nat LOGSIZE /\
    bc_rep (cache l') (puts (recovery_writes p (adisk a)) a).
Proof.
  intros R Hh Hd G Hl D. unfold initlog. change (BSIZE <=? 4 + 4 * LOGSIZE) with false. cbv iota.
  destruct (readsb_run l a) as (s1 & E1 & R1); [done..|destruct G; lia|]. rewrite (bind_ret _ _ _ _ _ E1).
  unfold bind at 1, modify. destruct (dl_sb _ _ _ _ _ D) as [Hp Hn].
  rewrite Hp, Hn.
  destruct (recover_run (mkLog p n (outstanding l) (committing l) (lh_n l) (lh_block l) s1) a bs)
    as (s2 & bl & E2 & Hbl & R2); try done.
  eexists. split; [exact E2|done].
Qed.
End run.

Lemma recovers_ext p n size d d' f :
  geometry p n size -> (forall x, d' x = d x) -> recovers p n size d f -> recovers p n size d' f.
Proof.
  intros G Hd (bs & D & Hf). exists bs. split; [by apply (disk_log_same p n size G d)|].
  intros x Hx. rewrite <- (Hf x Hx). unfold recovery_writes. rewrite Hd, (home_writes_ext _ d' d) by auto.
  by apply apply_writes_ext.
Qed.

(** ** Building a transaction *)

Section write.
Context {S : Type} `{!BlockCache S}.
Local Abbreviation L := (log S).

Definition add_block (b : Z) (bs : list Z) : list Z := if decide (b ∈ bs) then bs else bs ++ [b].

Lemma log_blocks (l : L) a bs : log_inv l a bs -> take (length bs) (lh_block l) = bs.
Proof.
  intros I. apply list_eq. intros t. destruct (bs !! t) as [b|] eqn:E.
  - pose proof (lookup_lt_Some _ _ _ E). rewrite lookup_take_lt by done. rewrite <- (li_bs _ _ _ I t b E).
    apply list_lookup_lookup_total_lt. rewrite (li_len _ _ _ I). destruct (li_geo _ _ _ I). pose proof (li_lt _ _ _ I). lia.
  - apply lookup_take_ge. by apply lookup_ge_None.
Qed.

(** Where [log_write] stores the block number. *)
Lemma log_slot (l : L) a bs b : log_inv l a bs ->
  let n := Z.to_nat (lh_n l) in
  let i := match list_find (fun x => x = b) (take n (lh_block l)) with Some (i, _) => i | None => n end in
  (b ∈ bs /\ (i < n)%nat /\ bs !! i = Some b) \/ ((b ∉ bs) /\ i = n).
Proof.
  intros I. cbv zeta. rewrite (li_n _ _ _ I), Nat2Z.id, (log_blocks l a bs I).
  destruct (list_find _ bs) as [[i x]|] eqn:E.
  - apply list_find_Some in E as (Ei & -> & _). left. split; [by apply list_elem_of_lookup_2 in Ei|].
    split; [by apply lookup_lt_Some in Ei|done].
  - right. split; [|done]. apply list_find_None in E. rewrite Forall_forall in E. intros Hb. by apply (E b Hb).
Qed.

Lemma add_block_inv (l : L) a bs b s :
  log_inv l a bs -> home (lstart l) (lsize l) (asize a) b -> Z.of_nat (length bs) < lsize l - 1 ->
  let n := Z.to_nat (lh_n l) in
  let i := match list_find (fun x => x = b) (take n (lh_block l)) with Some (i, _) => i | None => n end in
  log_inv (set_cache s (set_lh (if (i =? n)%nat then lh_n l + 1 else lh_n l) (<[i := b]> (lh_block l)) l))
    (a_pin b a) (add_block b bs).
Proof.
  intros I Hb Hlt n i. pose proof (log_slot l a bs b I) as Hi. cbv zeta in Hi. fold n i in Hi.
  assert (n = length bs) as Hn by (unfold n; by rewrite (li_n _ _ _ I), Nat2Z.id). clearbody i.
  destruct I as [G Hln Hl Hbs Hnd Hho _ HD D0]. unfold add_block. destruct Hi as [(Hin & Hlti & Hlk)|(Hin & ->)].
  - rewrite decide_True by done. destruct (Nat.eqb_spec i n) as [|_]; [lia|].
    rewrite list_insert_id.
    2:{ rewrite <- (Hbs _ _ Hlk). apply list_lookup_lookup_total_lt. destruct G. lia. }
    split; simpl; try done; [lia|]. rewrite HD. apply leibniz_equiv, subseteq_union_1.
    intros x ->%elem_of_singleton. by apply elem_of_list_to_set.
  - rewrite decide_False by done. rewrite Nat.eqb_refl.
    assert (length bs < length (lh_block l))%nat as Hlb by (destruct G; lia).
    split; cbn [lstart lsize asize lh_n lh_block set_cache set_lh a_pin adisk dirty]; try done.
    + rewrite length_app. simpl. lia.
    + by rewrite length_insert.
    + intros t b'. rewrite lookup_app, Hn. destruct (bs !! t) as [b''|] eqn:E.
      * intros [= <-]. rewrite list_lookup_total_insert_ne by (apply lookup_lt_Some in E; lia). by apply Hbs.
      * intros Ht. apply lookup_ge_None in E. apply list_lookup_singleton_Some in Ht as [Ht <-].
        replace t with (length bs) by lia. by apply list_lookup_total_insert_eq.
    + apply NoDup_app. split_and!; [done| |apply NoDup_singleton]. intros x Hx ->%list_elem_of_singleton. done.
    + intros x [Hx| ->%list_elem_of_singleton]%elem_of_app; auto.
    + rewrite length_app. simpl. lia.
    + rewrite HD, list_to_set_app_L. simpl. by rewrite union_empty_r_L, (comm_L (∪)).
Qed.

Lemma log_write_run (l : L) a bs b i :
  bc_rep (cache l) a -> log_inv l a bs -> hold a !! b = Some i -> home (lstart l) (lsize l) (asize a) b ->
  Z.of_nat (length bs) < lsize l - 1 -> 1 <= outstanding l ->
  exists l', log_write i l = Ret () l' /\ bc_rep (cache l') (a_pin b a) /\ log_inv l' (a_pin b a) (add_block b bs) /\
    lstart l' = lstart l /\ lsize l' = lsize l /\ outstanding l' = outstanding l /\ committing l' = committing l.
Proof.
  intros R I Hi Hb Hlt Ho. unfold log_write, bind at 1, get.
  pose proof (li_geo _ _ _ I) as [_ Gn _ _].
  pose proof (li_n _ _ _ I) as Hn. rewrite (proj2 (Z.leb_gt LOGSIZE (lh_n l))) by lia.
  rewrite (proj2 (Z.leb_gt (lsize l - 1) (lh_n l))) by lia. rewrite (proj2 (Z.ltb_ge _ _)) by lia. cbv iota beta delta [orb].
  rewrite (bind_ret _ _ _ _ _ (lc_run _ l _ _ (bc_blockno_spec _ _ _ _ R Hi))).
  destruct (bc_pin_spec _ _ _ _ R Hi) as (s' & E & R').
  unfold bind at 1, get, bind at 1, put. replace (set_cache (cache l) l) with l by by destruct l.
  eexists. split; [apply lc_run; exact E|]. split; [exact R'|]. split; [by apply add_block_inv|done].
Qed.
End write.

(** ** The disk while a commit is under way *)

Section commit.
Context {S : Type} `{!BlockCache S} (l : log S) (a : acache) (bs : list Z).
Context (R : bc_rep (cache l) a) (Hh : hold a = ∅) (I : log_inv l a bs).

Definition commit_head : block := put_head (view a (lstart l)) (lh_n l) (lh_block l).
(** The writes up to the commit point, and the disk they leave. *)
Definition log_part : list (Z * block) := log_writes (lstart l + 1) (view a) bs ++ [(lstart l, commit_head)].
Definition committed : disk := apply_writes log_part (adisk a).

Lemma head_clean : view a (lstart l) = adisk a (lstart l).
Proof. apply (clean_view l a bs); [done..|]. by apply (head_not_home l a). Qed.

Lemma commit_head_spec : is_block commit_head /\ get_head commit_head = (Z.of_nat (length bs), bs).
Proof.
  unfold commit_head. rewrite head_clean. destruct I as [G Hn _ Hbs _ Hho Hlt _ D0]. rewrite Hn.
  assert (forall t, (t < length bs)%nat -> bs !! t = Some (lh_block l !!! t)) as Hlk.
  { intros t Ht. destruct (lookup_lt_is_Some_2 bs t Ht) as [b Hb]. by rewrite (Hbs t b Hb). }
  destruct (put_head_spec (adisk a (lstart l)) (Z.of_nat (length bs)) (lh_block l)) as [Hb Hg].
  - apply D0.
  - destruct G. unfold LOGSIZE, MAXOPBLOCKS in *. lia.
  - intros t Ht. rewrite Nat2Z.id in Ht. destruct (Hho (lh_block l !!! t)) as (? & _).
    + by apply list_elem_of_lookup_2 with t, Hlk.
    + destruct G. lia.
  - split; [done|]. rewrite Hg. f_equal. rewrite Nat2Z.id. apply list_eq. intros t. rewrite list_lookup_fmap.
    destruct (decide (t < length bs)%nat) as [Ht|Ht].
    + rewrite lookup_seq_lt by done. symmetry. by apply Hlk.
    + rewrite lookup_seq_ge by lia. symmetry. apply lookup_ge_None. lia.
Qed.

Lemma committed_head : committed (lstart l) = commit_head.
Proof. unfold committed, log_part. rewrite apply_writes_app. apply disk_upd_eq. Qed.

(** Log blocks only: the rest of the disk is as before. *)
Lemma log_prefix_out k x : ~ in_log l x -> apply_writes (take k log_part) (adisk a) x = adisk a x.
Proof.
  intros Hx. apply apply_writes_notin. rewrite fmap_take. intros (i & Hi & _)%elem_of_take.
  apply list_elem_of_lookup_2 in Hi. revert Hi. unfold log_part. rewrite fmap_app, elem_of_app. unfold in_log in Hx.
  destruct I as [[] ? ? ? ? ? ? ? ?]. intros [Hw%log_writes_range|Hw].
  - lia.
  - simpl in Hw. apply list_elem_of_singleton in Hw. lia.
Qed.

Lemma committed_out x : ~ in_log l x -> committed x = adisk a x.
Proof. intros Hx. unfold committed. rewrite <- (firstn_all log_part). by apply log_prefix_out. Qed.

Lemma committed_log t b : bs !! t = Some b -> committed (lstart l + 1 + Z.of_nat t) = view a b.
Proof.
  intros Ht. unfold committed, log_part. rewrite apply_writes_app. simpl. rewrite disk_upd_ne by lia.
  apply (apply_writes_in _ _ _ _ t (log_writes_nodup _ _ _)). by apply log_writes_lookup.
Qed.

Lemma committed_disk_log : disk_log (lstart l) (lsize l) (asize a) committed bs.
Proof.
  destruct commit_head_spec as [Hb Hg]. destruct I as [G ? ? ? ? ? ? ? D0].
  split; rewrite ?committed_head; try done. rewrite committed_out; [apply D0|]. unfold in_log. destruct G. lia.
Qed.

Lemma commit_writes_split : commit_writes l (view a) bs = log_part ++ recovery_writes (lstart l) committed.
Proof.
  unfold commit_writes, log_part, recovery_writes. rewrite committed_head. fold commit_head.
  destruct commit_head_spec as [_ ->]. cbn [snd]. rewrite <- app_assoc. simpl. do 2 f_equal.
  f_equal. apply list_eq. intros t. rewrite list_lookup_fmap. destruct (bs !! t) as [b|] eqn:E.
  - rewrite (home_writes_lookup _ _ _ _ _ E). simpl. by rewrite (committed_log t b E).
  - simpl. symmetry. apply lookup_ge_None. rewrite home_writes_length. by apply lookup_ge_None.
Qed.

(** Past the commit point the new contents are recovered... *)
Lemma committed_recovers : recovers (lstart l) (lsize l) (asize a) committed (view a).
Proof.
  exists bs. split; [apply committed_disk_log|]. intros x Hx. destruct (decide (x ∈ bs)) as [Hb|Hb].
  - pose proof Hb as [t Ht]%list_elem_of_lookup_1.
    rewrite (recovery_in _ _ _ (li_geo _ _ _ I) _ bs x t committed_disk_log Ht). by apply committed_log.
  - rewrite (recovery_out _ _ _ _ bs x committed_disk_log Hb); [|destruct (li_geo _ _ _ I); lia].
    rewrite committed_out by done. symmetry. by apply (clean_view l a bs).
Qed.

(** ... and before it the old ones. *)
Lemma uncommitted_recovers k : (k <= length bs)%nat ->
  recovers (lstart l) (lsize l) (asize a) (apply_writes (take k log_part) (adisk a)) (adisk a).
Proof.
  intros Hk. apply recovers_empty; [apply I| |intros x Hx; by apply log_prefix_out].
  assert (apply_writes (take k log_part) (adisk a) (lstart l) = adisk a (lstart l)) as Hp.
  { apply apply_writes_notin. unfold log_part. rewrite take_app_le by (by rewrite log_writes_length).
    rewrite fmap_take. intros (i & Hi & _)%elem_of_take. apply list_elem_of_lookup_2, log_writes_range in Hi. lia. }
  destruct I as [G ? ? ? ? ? ? ? D0]. destruct D0. split; rewrite ?Hp; try done.
  rewrite log_prefix_out; [done|]. unfold in_log. destruct G. lia.
Qed.

Lemma commit_prefix_recovers k :
  recovers (lstart l) (lsize l) (asize a) (apply_writes (take k (commit_writes l (view a) bs)) (adisk a))
    (if (k <=? length bs)%nat then adisk a else view a).
Proof.
  rewrite commit_writes_split. assert (length log_part = Datatypes.S (length bs)) as Hl.
  { unfold log_part. rewrite length_app, log_writes_length. simpl. lia. }
  destruct (Nat.leb_spec k (length bs)) as [Hk|Hk].
  - rewrite take_app_le by lia. by apply uncommitted_recovers.
  - rewrite take_app_ge by lia. rewrite apply_writes_app. apply recovers_crash; [apply I|]. apply committed_recovers.
Qed.
End commit.

(** ** Transactions *)

(** The use of the log its comment describes. *)
Definition logged_write {S} `{!BlockCache S} (b : Z) (d : block) : M (log S) () :=
  let* bp := lc (bc_bread b) in
  lc (bc_setdata bp d) ;;;
  log_write bp ;;;
  lc (bc_brelse bp).

Section txn.
Context {S : Type} `{!BlockCache S}.
Local Abbreviation L := (log S).

Lemma log_inv_frame (l : L) a a' bs s :
  log_inv l a bs -> asize a' = asize a -> dirty a' = dirty a -> adisk a' = adisk a -> log_inv (set_cache s l) a' bs.
Proof. intros [] Hs Hd Ha. by split; rewrite ?Hs, ?Hd, ?Ha. Qed.

Lemma dirty_small (l : L) a bs : log_inv l a bs -> (size (dirty a) < NBUF)%nat.
Proof.
  intros I. rewrite (li_dirty _ _ _ I), <- (union_empty_r_L (list_to_set bs)).
  apply (buffers_small _ _ (lsize l)); [apply empty_subseteq|]. destruct (li_geo _ _ _ I). pose proof (li_lt _ _ _ I). lia.
Qed.

Lemma logged_write_run (l : L) a bs b d :
  bc_rep (cache l) a -> hold a = ∅ -> log_inv l a bs -> home (lstart l) (lsize l) (asize a) b ->
  Z.of_nat (length bs) < lsize l - 1 -> 1 <= outstanding l ->
  exists l', logged_write b d l = Ret () l' /\ bc_rep (cache l') (a_pin b (a_set b d a)) /\
    log_inv l' (a_pin b (a_set b d a)) (add_block b bs) /\
    lstart l' = lstart l /\ lsize l' = lsize l /\ outstanding l' = outstanding l /\ committing l' = committing l.
Proof.
  intros R Hh I Hb Hlt Ho. unfold logged_write.
  destruct (bread_one l a b R Hh) as (i & s1 & E1 & R1); [apply Hb|apply buffers_one; by apply (dirty_small l a bs)|].
  rewrite (bind_ret _ _ _ _ _ E1). pose proof (lookup_insert_eq (∅ : gmap Z nat) b i) as Hi.
  destruct (bc_setdata_spec s1 _ b i d R1 Hi) as (s2 & E2 & R2).
  rewrite (bind_ret _ _ _ _ _ (lc_run _ (set_cache s1 l) _ _ E2)).
  destruct (log_write_run (set_cache s2 (set_cache s1 l)) (a_set b d (a_hold (<[b := i]> ∅) a)) bs b i)
    as (l3 & E3 & R3 & I3 & Hg); try done.
  { by apply (log_inv_frame (set_cache s1 l) (a_hold (<[b := i]> ∅) a)); [apply (log_inv_frame l a)|..]. }
  rewrite (bind_ret _ _ _ _ _ E3).
  destruct (bc_brelse_spec _ _ b i R3 Hi) as (s4 & E4 & R4).
  { left. simpl. apply elem_of_union_l. by apply elem_of_singleton. }
  exists (set_cache s4 l3). split; [by apply lc_run|]. split; [|split; [|exact Hg]].
  - revert R4. simpl. rewrite delete_insert_id by done. unfold a_hold, a_pin, a_set. simpl. by rewrite Hh.
  - by apply (log_inv_frame l3 _ _ _ _ I3).
Qed.

(** A whole commit, also of an empty transaction. *)
Lemma commit_empties (l : L) a bs :
  bc_rep (cache l) a -> hold a = ∅ -> log_inv l a bs ->
  exists l' a', commit l = Ret () l' /\ bc_rep (cache l') a' /\ hold a' = ∅ /\ log_inv l' a' [] /\
    (forall x, ~ in_log l x -> adisk a' x = view a x) /\
    lstart l' = lstart l /\ lsize l' = lsize l /\ asize a' = asize a /\ outstanding l' = outstanding l.
Proof.
  intros R Hh I. destruct (decide (bs = [])) as [-> |Hne].
  - exists l, a. unfold commit, bind, get. rewrite (li_n _ _ _ I). simpl. split_and!; try done.
    intros x _. symmetry. apply (clean_view l a []); [done..|apply not_elem_of_nil].
  - destruct (commit_run l a bs R Hh I Hne) as (s' & E & R'). eexists _, _. split; [exact E|]. split; [exact R'|].
    destruct (puts_hold (commit_writes l (view a) bs) a) as [Hh' Hz].
    assert (adisk (puts (commit_writes l (view a) bs) a) =
      apply_writes (recovery_writes (lstart l) (committed l a bs)) (committed l a bs)) as Ha.
    { by rewrite (proj2 (puts_trace _ _)), (commit_writes_split l a bs R Hh I), apply_writes_app. }
    pose proof (committed_disk_log l a bs R Hh I) as D. destruct (committed_recovers l a bs R Hh I) as (bs' & _ & Hc).
    split; [by rewrite Hh'|]. split; [|split; [intros x Hx; rewrite Ha; by apply Hc|by rewrite Hz]].
    destruct I as [G Hn Hl Hbs Hnd Hho Hlt HD D0].
    split; cbn [lstart lsize lh_n lh_block set_lh set_cache]; rewrite ?Hz; try done.
    + apply NoDup_nil_2.
    + by intros b ?%elem_of_nil.
    + destruct G. simpl. lia.
    + rewrite puts_dirty, HD. unfold commit_writes. rewrite fmap_app, list_to_set_app_L. simpl.
      rewrite fmap_app, <- list_fmap_compose. simpl. apply leibniz_equiv. intros x.
      rewrite elem_of_difference, !elem_of_union, !elem_of_list_to_set, elem_of_app.
      replace ((fst ∘ (fun b => (b, view a b))) <$> bs) with bs by (symmetry; apply list_fmap_id).
      set_solver.
    + rewrite Ha. by apply (recovered_log _ _ _ G _ bs).
Qed.
Lemma logged_writes_run ws (l : L) a bs :
  bc_rep (cache l) a -> hold a = ∅ -> log_inv l a bs ->
  (forall w, w ∈ ws -> home (lstart l) (lsize l) (asize a) w.1) ->
  Z.of_nat (length bs + length ws) < lsize l -> 1 <= outstanding l ->
  exists l' a' bs', for_each ws (fun w => logged_write w.1 w.2) l = Ret () l' /\ bc_rep (cache l') a' /\ hold a' = ∅ /\
    log_inv l' a' bs' /\ (length bs' <= length bs + length ws)%nat /\
    (forall x, view a' x = apply_writes ws (view a) x) /\
    lstart l' = lstart l /\ lsize l' = lsize l /\ asize a' = asize a /\
    outstanding l' = outstanding l /\ committing l' = committing l.
Proof.
  revert l a bs. induction ws as [|w ws IH]; intros l a bs R Hh I Hw Hlt Ho.
  { exists l, a, bs. split; [done|]. simpl. split_and!; try done. lia. }
  simpl in Hlt. destruct (logged_write_run l a bs w.1 w.2) as (l1 & E1 & R1 & I1 & Hp & Hn & Hout & Hc); try done; [|lia|].
  { apply Hw. by apply list_elem_of_here. }
  assert (length (add_block w.1 bs) <= Datatypes.S (length bs))%nat as Hab.
  { unfold add_block. case_decide; [lia|]. rewrite length_app. simpl. lia. }
  destruct (IH l1 _ (add_block w.1 bs) R1) as (l2 & a2 & bs2 & E2 & R2 & Hh2 & I2 & Hb2 & Hv2 & Hp2 & Hn2 & Hz2 & Hout2 & Hc2); try done.
  - intros w' Hw'. rewrite Hp, Hn. apply Hw. by apply list_elem_of_further.
  - rewrite Hn. lia.
  - by rewrite Hout.
  - exists l2, a2, bs2. cbn [for_each]. rewrite (bind_ret _ _ _ _ _ E1). split_and!; try done; try congruence.
    simpl. lia.
Qed.

(** C2: a file-system operation that logs at most [MAXOPBLOCKS] block writes
    runs to the end without a panic and without waiting when nothing else is
    going on: [begin_op] admits it, each [log_write] finds room in the log and
    a buffer in the cache, and [end_op] commits.  The disk outside the log
    area then holds exactly the writes, in order, and the log is empty and
    ready for the next operation. *)
Theorem transaction_commits (l : L) a ws :
  bc_rep (cache l) a -> hold a = ∅ -> log_inv l a [] -> outstanding l = 0 -> committing l = 0 ->
  (forall w, w ∈ ws -> home (lstart l) (lsize l) (asize a) w.1) ->
  Z.of_nat (length ws) <= MAXOPBLOCKS -> MAXOPBLOCKS < lsize l ->
  exists l' a', (begin_op ;;; for_each ws (fun w => logged_write w.1 w.2) ;;; end_op) l = Ret () l' /\
    bc_rep (cache l') a' /\ hold a' = ∅ /\ log_inv l' a' [] /\ outstanding l' = 0 /\ committing l' = 0 /\
    (forall x, ~ in_log l x -> adisk a' x = apply_writes ws (adisk a) x) /\
    (forall x, view a' x = adisk a' x).
Proof.
  intros R Hh I Ho Hc Hw Hlen Hlog. pose proof (li_n _ _ _ I) as Hn0. simpl in Hn0.
  assert (begin_op l = Ret () (set_outstanding 1 l)) as Eb.
  { unfold begin_op, bind, get. rewrite Hc, Hn0, Ho. done. }
  rewrite (bind_ret _ _ _ _ _ Eb).
  assert (log_inv (set_outstanding 1 l) a []) as I0 by (destruct I; by split).
  destruct (logged_writes_run ws (set_outstanding 1 l) a [] R Hh I0 Hw) as (l1 & a1 & bs & E1 & R1 & Hh1 & I1 & _ & Hv & Hp & Hn & Hz & Ho1 & Hc1);
    [simpl; lia|simpl; lia|]. rewrite (bind_ret _ _ _ _ _ E1).
  set (l2 := set_committing 1 (set_outstanding 0 l1)).
  assert (log_inv l2 a1 bs) as I2 by (destruct I1; by split).
  destruct (commit_empties l2 a1 bs R1 Hh1 I2) as (l3 & a3 & E3 & R3 & Hh3 & I3 & Hd & Hp3 & Hn3 & Hz3 & Ho3).
  exists (set_committing 0 l3), a3. split_and!; try done.
  - unfold end_op, bind at 1, modify, bind at 1, get. rewrite Ho1. cbn [committing set_outstanding outstanding].
    rewrite Hc1. cbn [committing set_outstanding]. rewrite Hc. simpl. unfold bind at 1. fold l2. by rewrite (bind_ret _ _ _ _ _ E3).
  - by destruct I3; split.
  - intros x Hx. rewrite Hd, Hv; [|unfold in_log, l2 in *; simpl in *; by rewrite Hp, Hn].
    apply apply_writes_ext. intros y. apply (clean_view l a []); [done..|apply not_elem_of_nil].
  - intros x. apply (clean_view l3 a3 []); [done..|apply not_elem_of_nil].
Qed.
End txn.

(** ** Crashes and reboots *)

(** At boot the log is zeroed memory over a fresh cache. *)
Definition boot_log (d : disk) (size : Z) : log bcache :=
  mkLog 0 0 0 0 0 (replicate (Z.to_nat LOGSIZE) 0) (boot_cache d size).

(** [reboots me size d d']: starting from the disk [d], some number of boots
    each crash after a prefix of the writes [initlog] issues, leaving [d']. *)
Inductive reboots (me size : Z) : disk -> disk -> Prop :=
| reboots_done d : reboots me size d d
| reboots_crash d d' l' j :
    initlog (BlockCache0 := bio_cache me) (boot_log d size) = Ret () l' ->
    reboots me size (apply_writes (take j (wtrace (cache l'))) d) d' -> reboots me size d d'.

Lemma boot_run me d size p n f :
  geometry p n size -> recovers p n size d f ->
  exists l', initlog (BlockCache0 := bio_cache me) (boot_log d size) = Ret () l' /\
    lstart l' = p /\ lsize l' = n /\ lh_n l' = 0 /\ wtrace (cache l') = recovery_writes p d /\
    (forall x, ~ (p <= x < p + n) -> memdisk (cache l') x = f x).
Proof.
  intros G (bs & D & Hf).
  destruct (initlog_run (BlockCache0 := bio_cache me) (boot_log d size) (boot_acache d size) bs p n
    (boot_cache_rep me d size) eq_refl eq_refl G (length_replicate _ _) D) as (l' & E & Hp & Hn & H0 & _ & _ & _ & R).
  exists l'. split_and!; [exact E|exact Hp|exact Hn|exact H0| |].
  - rewrite (cr_trace _ _ _ R). by rewrite (proj1 (puts_trace _ _)).
  - intros x Hx. rewrite (cr_disk _ _ _ R), (proj2 (puts_trace _ _)). by apply Hf.
Qed.

Lemma reboots_recovers me p n size d d' f :
  geometry p n size -> reboots me size d d' -> recovers p n size d f -> recovers p n size d' f.
Proof.
  intros G Hr. induction Hr as [d|d d' l' j E _ IH]; intros Rf; [exact Rf|]. apply IH.
  destruct (boot_run me d size p n f G Rf) as (l2 & E2 & _ & _ & _ & Ht & _).
  rewrite E in E2. injection E2 as <-. rewrite Ht. by apply recovers_crash.
Qed.

(** C1: commits are atomic with respect to crashes.  [commit] ends, and the
    disk then holds everything the cache showed.  If instead the machine stops
    after any prefix of its disk writes, and then again any number of times in
    the middle of recovery, the next [initlog] that completes leaves a disk
    that, outside the log area, holds either exactly the old contents (the
    header block had not been written) or exactly the new ones (it had). *)
Theorem commit_crash_safe me (l : log bcache) a bs :
  cache_rep me (cache l) a -> hold a = ∅ -> log_inv l a bs -> bs <> [] ->
  exists l' W, commit (BlockCache0 := bio_cache me) l = Ret () l' /\ lh_n l' = 0 /\
    wtrace (cache l') = wtrace (cache l) ++ W /\
    (forall x, ~ in_log l x -> memdisk (cache l') x = view a x) /\
    forall k d, reboots me (asize a) (apply_writes (take k W) (memdisk (cache l))) d ->
      exists l2, initlog (BlockCache0 := bio_cache me) (boot_log d (asize a)) = Ret () l2 /\ lh_n l2 = 0 /\
        forall x, ~ in_log l x ->
          memdisk (cache l2) x = (if (k <=? length bs)%nat then memdisk (cache l) x else view a x).
Proof.
  intros R Hh I Hne. pose proof (li_geo _ _ _ I) as G.
  destruct (commit_run (BlockCache0 := bio_cache me) l a bs R Hh I Hne) as (s' & E & R').
  pose proof (commit_prefix_recovers (BlockCache0 := bio_cache me) l a bs R Hh I) as HP.
  exists (set_lh 0 (lh_block l) (set_cache s' l)), (commit_writes l (view a) bs). split; [exact E|]. split; [done|].
  cbn [cache set_lh set_cache]. split; [by rewrite (cr_trace _ _ _ R'), (cr_trace _ _ _ R), (proj1 (puts_trace _ _))|].
  split.
  { intros x Hx. rewrite (cr_disk _ _ _ R'), (proj2 (puts_trace _ _)), (commit_writes_split (BlockCache0 := bio_cache me) l a bs R Hh I), apply_writes_app.
    destruct (committed_recovers (BlockCache0 := bio_cache me) l a bs R Hh I) as (bs' & _ & Hc). by apply Hc. }
  intros k d Hr. pose proof (reboots_recovers me _ _ _ _ d _ G Hr
    (recovers_ext _ _ _ _ _ _ G (apply_writes_ext _ _ _ (cr_disk _ _ _ R)) (HP k))) as Hd.
  destruct (boot_run me d (asize a) _ _ _ G Hd) as (l2 & E2 & _ & _ & H0 & _ & Hx).
  exists l2. split; [exact E2|]. split; [exact H0|]. intros x Hin. rewrite (Hx x Hin).
  destruct (k <=? length bs)%nat; [by rewrite (cr_disk _ _ _ R)|done].
Qed.

(** ** A concrete disk *)

(** 1000 blocks, a log of 30 blocks from block 2, as mkfs lays it out. *)
Definition demo_disk : disk := fun x =>
  let z := replicate (Z.to_nat BSIZE) 0 in if x =? 1 then put_word (put_word z 12 30) 16 2 else z.
Definition demo_log (ops : Z) : log bcache :=
  mkLog 2 30 ops 0 0 (replicate (Z.to_nat LOGSIZE) 0) (boot_cache demo_disk 1000).

Lemma demo_geometry : geometry 2 30 1000.
Proof. split; unfold LOGSIZE, MAXOPBLOCKS; lia. Qed.

Lemma demo_empty : disk_log 2 30 1000 demo_disk [].
Proof.
  split; [vm_compute; reflexivity..|apply NoDup_nil_2|by intros b ?%elem_of_nil|simpl; lia|vm_compute; done].
Qed.

Lemma demo_inv ops : log_inv (demo_log ops) (boot_acache demo_disk 1000) [].
Proof.
  split.
  - apply demo_geometry.
  - reflexivity.
  - apply length_replicate.
  - intros t b Ht. discriminate Ht.
  - apply NoDup_nil_2.
  - by intros b ?%elem_of_nil.
  - simpl. lia.
  - reflexivity.
  - apply demo_empty.
Qed.

Lemma home_demo b : 31 < b < 1000 -> home 2 30 1000 b.
Proof. unfold home. lia. Qed.

Lemma commit_crash_safe_witness :
  exists (l : log bcache) a, cache_rep 7 (cache l) a /\ hold a = ∅ /\ log_inv l a [100] /\
    exists l' W, commit (BlockCache0 := bio_cache 7) l = Ret () l' /\ lh_n l' = 0 /\
      wtrace (cache l') = wtrace (cache l) ++ W /\ (forall x, ~ in_log l x -> memdisk (cache l') x = view a x).
Proof.
  destruct (logged_write_run (BlockCache0 := bio_cache 7) (demo_log 1) (boot_acache demo_disk 1000) [] 100
    (replicate 512 1) (boot_cache_rep 7 demo_disk 1000) eq_refl (demo_inv 1)) as (l & _ & R & I & _).
  - apply home_demo. lia.
  - simpl. lia.
  - simpl. lia.
  - exists l, (a_pin 100 (a_set 100 (replicate 512 1) (boot_acache demo_disk 1000))).
    split; [exact R|]. split; [reflexivity|]. split; [exact I|].
    destruct (commit_crash_safe 7 l _ [100] R eq_refl I) as (l' & W & E & H0 & Ht & Hd & _); [discriminate|].
    exists l', W. split_and!; [exact E|exact H0|exact Ht|exact Hd].
Defined.

Lemma transaction_commits_witness :
  exists (l' : log bcache) a',
    (let H := bio_cache 7 in begin_op ;;; for_each [(100, [1]); (200, [2]); (100, [3])] (fun w => logged_write w.1 w.2) ;;; end_op)
      (demo_log 0) = Ret () l' /\ cache_rep 7 (cache l') a' /\ adisk a' 100 = [3].
Proof.
  destruct (transaction_commits (BlockCache0 := bio_cache 7) (demo_log 0) (boot_acache demo_disk 1000)
    [(100, [1]); (200, [2]); (100, [3])] (boot_cache_rep 7 demo_disk 1000) eq_refl (demo_inv 0) eq_refl eq_refl)
    as (l' & a' & E & R & _ & _ & _ & _ & Hd & _).
  - intros w Hw. apply home_demo. repeat (apply elem_of_cons in Hw as [-> |Hw]; [simpl; lia|]). by apply elem_of_nil in Hw.
  - simpl. unfold MAXOPBLOCKS. lia.
  - simpl. unfold MAXOPBLOCKS. lia.
  - exists l', a'. split; [exact E|]. split; [exact R|]. rewrite Hd; [reflexivity|]. unfold in_log. simpl. lia.
Defined.

