(* ===== verification/Fs.v ===== *)
(** * The file system

    fs.c over the log: block allocation, the inode cache, file contents,
    directories and path names.  A pointer to an inode is its index in
    [icache]; a null pointer is [None].  The callers' buffers are byte lists:
    [readi] returns the bytes it copies out, [writei] is given the bytes it
    copies in, and a C string is the list of its bytes before the NUL.

    The spin lock [icache.lock] is taken and released in pairs around the
    bookkeeping of each routine; a sleep lock that is taken is [Blocked]. *)

From stdpp Require Import gmap.
From S2P Require Import Prelude CString Block Bio Log Users.
Open Scope Z_scope.

Definition ROOTINO : Z := 1.
Definition NDIRECT : nat := 7.
Definition NINDIRECT : Z := BSIZE / 4.
Definition MAXFILE : Z := Z.of_nat NDIRECT + NINDIRECT.
Definition NINODE : nat := 50.
Definition NDEV : Z := 10.
Definition DIRSIZ : nat := 14.
Definition DINODE_SIZE : Z := 64.
Definition DIRENT_SIZE : Z := 16.
Definition IPB : Z := BSIZE / DINODE_SIZE.
Definition BPB : Z := BSIZE * 8.

Definition IBLOCK (i : Z) (sb : superblock) : Z := u32 (i / IPB + sb_inodestart sb).
Definition BBLOCK (b : Z) (sb : superblock) : Z := u32 (b / BPB + sb_bmapstart sb).

(** file.h *)
Record inode := mkInode {
  idev : Z; inum : Z; iref : Z; ilk : sleeplock; ivalid : Z;
  itype : Z; imajor : Z; iminor : Z; inlink : Z; isize : Z; iperm : Z; iowner : list Z; iaddrs : list Z }.

#[export] Instance inode_inhabited : Inhabited inode :=
  populate (mkInode 0 0 0 (mkSleeplock 0 0) 0 0 0 0 0 0 0 (replicate 16 0) (replicate 8 0)).

Definition set_iref (v : Z) (i : inode) : inode :=
  mkInode (idev i) (inum i) v (ilk i) (ivalid i) (itype i) (imajor i) (iminor i) (inlink i) (isize i) (iperm i) (iowner i) (iaddrs i).
Definition set_ilk (v : sleeplock) (i : inode) : inode :=
  mkInode (idev i) (inum i) (iref i) v (ivalid i) (itype i) (imajor i) (iminor i) (inlink i) (isize i) (iperm i) (iowner i) (iaddrs i).
Definition set_ivalid (v : Z) (i : inode) : inode :=
  mkInode (idev i) (inum i) (iref i) (ilk i) v (itype i) (imajor i) (iminor i) (inlink i) (isize i) (iperm i) (iowner i) (iaddrs i).
Definition set_itype (v : Z) (i : inode) : inode :=
  mkInode (idev i) (inum i) (iref i) (ilk i) (ivalid i) v (imajor i) (iminor i) (inlink i) (isize i) (iperm i) (iowner i) (iaddrs i).
Definition set_inlink (v : Z) (i : inode) : inode :=
  mkInode (idev i) (inum i) (iref i) (ilk i) (ivalid i) (itype i) (imajor i) (iminor i) v (isize i) (iperm i) (iowner i) (iaddrs i).
Definition set_isize (v : Z) (i : inode) : inode :=
  mkInode (idev i) (inum i) (iref i) (ilk i) (ivalid i) (itype i) (imajor i) (iminor i) (inlink i) v (iperm i) (iowner i) (iaddrs i).
Definition set_iaddrs (v : list Z) (i : inode) : inode :=
  mkInode (idev i) (inum i) (iref i) (ilk i) (ivalid i) (itype i) (imajor i) (iminor i) (inlink i) (isize i) (iperm i) (iowner i) v.

(** [strncpy] of string.c on byte arrays: [n] bytes of [dst] are overwritten by
    the string [src], padded with zeros. *)
Definition strncpy_l (n : nat) (dst src : list Z) : list Z :=
  let k := match list_find (fun c => c = 0) (take n src) with Some (k, _) => k | None => Nat.min n (length src) end in
  take k src ++ replicate (n - k) 0 ++ drop n dst.

(** fs.h: the on-disk inode at byte [off] of a block.  Of the 16-byte owner
    arrays [MAX_LEN] = 15 bytes are copied. *)
Definition get_dinode (d : block) (off : nat) (i : inode) : inode :=
  mkInode (idev i) (inum i) (iref i) (ilk i) (ivalid i)
    (short_at d off) (short_at d (off + 2)) (short_at d (off + 4)) (short_at d (off + 6))
    (word_at d (off + 8)) (word_at d (off + 12))
    (strncpy_l 15 (iowner i) (sub d (off + 16) 16))
    ((fun k => word_at d (off + 32 + 4 * k)) <$> seq 0 8).

Definition put_dinode (d : block) (off : nat) (i : inode) : block :=
  let d := put_half d off (itype i) in
  let d := put_half d (off + 2) (imajor i) in
  let d := put_half d (off + 4) (iminor i) in
  let d := put_half d (off + 6) (inlink i) in
  let d := put_word d (off + 8) (isize i) in
  let d := put_word d (off + 12) (iperm i) in
  let d := patch d (off + 16) (strncpy_l 15 (sub d (off + 16) 16) (iowner i)) in
  patch d (off + 32) (concat (word_bytes <$> iaddrs i)).

(** The state of fs.c, over the log; [users] is the memory of the account
    table that [checkmod] reads. *)
Record fs (S : Type) := mkFs { sb : superblock; icache : list inode; flog : log S; users : mem }.
Arguments mkFs {S}. Arguments sb {S}. Arguments icache {S}. Arguments flog {S}. Arguments users {S}.

(** The process that makes the call, and where its stack and the accounts are. *)
Record caller := mkCaller {
  c_pid : Z; c_cwd : nat; c_ltable : Z; c_root : Z; c_username : Z; c_owner : Z }.

Section fs.
Context {S : Type} `{!BlockCache S}.
Local Abbreviation F := (fs S).

Definition set_flog (l : log S) (f : F) : F := mkFs (sb f) (icache f) l (users f).
Definition set_icache (v : list inode) (f : F) : F := mkFs (sb f) v (flog f) (users f).
Definition set_users (v : mem) (f : F) : F := mkFs (sb f) (icache f) (flog f) v.
Definition I (f : F) (ip : nat) : inode := icache f !!! ip.
Definition updi (ip : nat) (g : inode -> inode) (f : F) : F := set_icache (alter g ip (icache f)) f.

(** The calls into log.c and bio.c; the only disk is disk 1. *)
Definition fl {A} (m : M (log S) A) : M F A := lift flog set_flog m.
Definition fbread (dv b : Z) : M F nat :=
  if dv =? ROOTDEV then fl (lc (bc_bread b)) else panic "iderw: request not for disk 1".
Definition fdata (bp : nat) : M F block := fl (lc (bc_getdata bp)).
Definition fset (bp : nat) (d : block) : M F () := fl (lc (bc_setdata bp d)).
Definition flog_write (bp : nat) : M F () := fl (log_write bp).
Definition fbrelse (bp : nat) : M F () := fl (lc (bc_brelse bp)).

(** ** Blocks *)

Definition bzero (dv bno : Z) : M F () :=
  let* bp := fbread dv bno in
  fset bp (replicate (Z.to_nat BSIZE) 0) ;;;
  flog_write bp ;;;
  fbrelse bp.

Definition bit_mask (bi : Z) : Z := Z.shiftl 1 (bi mod 8).
Definition bit_free (d : block) (bi : Z) : bool := Z.land (d !!! Z.to_nat (bi / 8)) (bit_mask bi) =? 0.

(** The inner loop of [balloc]. *)
Fixpoint scan_bits (n : nat) (d : block) (b bi size : Z) : option Z :=
  match n with
  | O => None
  | Datatypes.S n' =>
      if (bi <? BPB) && (b + bi <? size) then
        if bit_free d bi then Some bi else scan_bits n' d b (bi + 1) size
      else None
  end.

Fixpoint balloc_loop (fuel : nat) (dv b : Z) : M F Z :=
  match fuel with
  | O => panic "balloc: out of blocks"
  | Datatypes.S fuel' =>
      let* f := get in
      if b <? sb_size (sb f) then
        let* bp := fbread dv (BBLOCK b (sb f)) in
        let* d := fdata bp in
        match scan_bits (Z.to_nat BPB) d b 0 (sb_size (sb f)) with
        | Some bi =>
            fset bp (alter (fun x => Z.lor x (bit_mask bi)) (Z.to_nat (bi / 8)) d) ;;;
            flog_write bp ;;;
            fbrelse bp ;;;
            bzero dv (b + bi) ;;;
            ret (b + bi)
        | None => fbrelse bp ;;; balloc_loop fuel' dv (b + BPB)
        end
      else panic "balloc: out of blocks"
  end.

(** One turn per bitmap block. *)
Definition balloc (dv : Z) : M F Z :=
  let* f := get in balloc_loop (Z.to_nat (sb_size (sb f) / BPB) + 1) dv 0.

Definition bfree (dv b : Z) : M F () :=
  let* f := get in
  let* bp := fbread dv (BBLOCK b (sb f)) in
  let* d := fdata bp in
  let bi := b mod BPB in
  if bit_free d bi then panic "freeing free block"
  else
    fset bp (alter (fun x => Z.land x (Z.lnot (bit_mask bi))) (Z.to_nat (bi / 8)) d) ;;;
    flog_write bp ;;;
    fbrelse bp.

(** ** Inodes *)

(** [acquiresleep], [releasesleep] and [holdingsleep] on [ip->lock]. *)
Definition iacquire (me : Z) (ip : nat) : M F () :=
  let* f := get in
  if nz (slocked (ilk (I f ip))) then sleeps else put (updi ip (set_ilk (mkSleeplock 1 me)) f).
Definition irelease (ip : nat) : M F () := modify (updi ip (set_ilk (mkSleeplock 0 0))).
Definition iholding (me : Z) (ip : nat) : M F bool :=
  gets (fun f => nz (slocked (ilk (I f ip))) && (spid (ilk (I f ip)) =? me)).

Definition iinit : M F () :=
  for_each (seq 0 NINODE) irelease ;;;
  let* s := fl readsb in
  modify (fun f => mkFs s (icache f) (flog f) (users f)).

(** The scan of [iget]: the cached entry, and the first empty slot. *)
Fixpoint iget_scan (l : list inode) (k : nat) (dv n : Z) (empty : option nat) : option nat * option nat :=
  match l with
  | [] => (None, empty)
  | i :: l' =>
      if (0 <? iref i) && (idev i =? dv) && (inum i =? n) then (Some k, empty)
      else iget_scan l' (k + 1) dv n
             (match empty with None => if iref i =? 0 then Some k else None | Some e => Some e end)
  end.

Definition iget (dv n : Z) : M F nat :=
  let* f := get in
  match iget_scan (icache f) 0 dv n None with
  | (Some ip, _) => modify (updi ip (fun i => set_iref (iref i + 1) i)) ;;; ret ip
  | (None, None) => panic "iget: no inodes"
  | (None, Some ip) =>
      modify (updi ip (fun i =>
        mkInode dv n 1 (ilk i) 0 (itype i) (imajor i) (iminor i) (inlink i) (isize i) (iperm i) (iowner i) (iaddrs i))) ;;;
      ret ip
  end.

Definition dinode_off (n : Z) : nat := Z.to_nat (n mod IPB * DINODE_SIZE).

Fixpoint ialloc_loop (fuel : nat) (dv n type : Z) : M F nat :=
  match fuel with
  | O => panic "ialloc: no inodes"
  | Datatypes.S fuel' =>
      let* f := get in
      if n <? sb_ninodes (sb f) then
        let* bp := fbread dv (IBLOCK n (sb f)) in
        let* d := fdata bp in
        if short_at d (dinode_off n) =? 0 then
          let d := patch d (dinode_off n) (replicate (Z.to_nat DINODE_SIZE) 0) in
          fset bp (put_half d (dinode_off n) type) ;;;
          flog_write bp ;;;
          fbrelse bp ;;;
          iget dv n
        else fbrelse bp ;;; ialloc_loop fuel' dv (n + 1) type
      else panic "ialloc: no inodes"
  end.
Definition ialloc (dv type : Z) : M F nat :=
  let* f := get in ialloc_loop (Z.to_nat (sb_ninodes (sb f))) dv 1 type.

Definition iupdate (ip : nat) : M F () :=
  let* f := get in
  let i := I f ip in
  let* bp := fbread (idev i) (IBLOCK (inum i) (sb f)) in
  let* d := fdata bp in
  fset bp (put_dinode d (dinode_off (inum i)) i) ;;;
  flog_write bp ;;;
  fbrelse bp.

Definition idup (ip : nat) : M F nat := modify (updi ip (fun i => set_iref (iref i + 1) i)) ;;; ret ip.

Definition ilock (me : Z) (ip : nat) : M F () :=
  let* f := get in
  if iref (I f ip) <? 1 then panic "ilock"
  else
    iacquire me ip ;;;
    let* f := get in
    let i := I f ip in
    when (ivalid i =? 0) (
      let* bp := fbread (idev i) (IBLOCK (inum i) (sb f)) in
      let* d := fdata bp in
      modify (updi ip (get_dinode d (dinode_off (inum i)))) ;;;
      fbrelse bp ;;;
      modify (updi ip (set_ivalid 1)) ;;;
      let* f := get in
      when (itype (I f ip) =? 0) (panic "ilock: no type")).

Definition iunlock (me : Z) (ip : nat) : M F () :=
  let* h := iholding me ip in
  let* f := get in
  if negb h || (iref (I f ip) <? 1) then panic "iunlock" else irelease ip.

(** ** File contents *)

Definition bmap (ip : nat) (bn : Z) : M F Z :=
  let* f := get in
  let i := I f ip in
  if bn <? Z.of_nat NDIRECT then
    let addr := iaddrs i !!! Z.to_nat bn in
    if addr =? 0 then
      let* addr := balloc (idev i) in
      modify (updi ip (fun i => set_iaddrs (<[Z.to_nat bn := addr]> (iaddrs i)) i)) ;;;
      ret addr
    else ret addr
  else
    let bn := bn - Z.of_nat NDIRECT in
    if bn <? NINDIRECT then
      let addr := iaddrs i !!! NDIRECT in
      let* addr :=
        (if addr =? 0 then
           let* addr := balloc (idev i) in
           modify (updi ip (fun i => set_iaddrs (<[NDIRECT := addr]> (iaddrs i)) i)) ;;;
           ret addr
         else ret addr) in
      let* bp := fbread (idev i) addr in
      let* d := fdata bp in
      let addr := word_at d (4 * Z.to_nat bn) in
      let* addr :=
        (if addr =? 0 then
           let* addr := balloc (idev i) in
           let* d := fdata bp in
           fset bp (put_word d (4 * Z.to_nat bn) addr) ;;;
           flog_write bp ;;;
           ret addr
         else ret addr) in
      fbrelse bp ;;;
      ret addr
    else panic "bmap: out of range".

Definition itrunc (ip : nat) : M F () :=
  for_each (seq 0 NDIRECT) (fun k =>
    let* f := get in
    let a := iaddrs (I f ip) !!! k in
    when (nz a) (
      bfree (idev (I f ip)) a ;;;
      modify (updi ip (fun i => set_iaddrs (<[k := 0]> (iaddrs i)) i)))) ;;;
  (let* f := get in
   let a := iaddrs (I f ip) !!! NDIRECT in
   when (nz a) (
     let* bp := fbread (idev (I f ip)) a in
     for_each (seq 0 (Z.to_nat NINDIRECT)) (fun j =>
       let* d := fdata bp in
       let a := word_at d (4 * j) in
       when (nz a) (bfree (idev (I f ip)) a)) ;;;
     fbrelse bp ;;;
     bfree (idev (I f ip)) a ;;;
     modify (updi ip (fun i => set_iaddrs (<[NDIRECT := 0]> (iaddrs i)) i)))) ;;;
  modify (updi ip (set_isize 0)) ;;;
  iupdate ip.

Definition iput (me : Z) (ip : nat) : M F () :=
  iacquire me ip ;;;
  let* f := get in
  when (nz (ivalid (I f ip)) && (inlink (I f ip) =? 0) && (iref (I f ip) =? 1)) (
    itrunc ip ;;;
    modify (updi ip (set_itype 0)) ;;;
    iupdate ip ;;;
    modify (updi ip (set_ivalid 0))) ;;;
  irelease ip ;;;
  modify (updi ip (fun i => set_iref (iref i - 1) i)).

Definition iunlockput (me : Z) (ip : nat) : M F () := iunlock me ip ;;; iput me ip.

(** A device of [devsw]: its [read] returns what it copies out. *)
Record dev_ops := mkDev {
  dev_read : option (nat -> Z -> M F (Z * list Z));
  dev_write : option (nat -> list Z -> Z -> M F Z) }.
Context (devsw : Z -> dev_ops).

Definition file_chunk (off left : Z) : Z := Z.min left (BSIZE - off mod BSIZE).

(** The loop of [readi]: [left] bytes from offset [off] on. *)
Fixpoint readi_loop (fuel : nat) (ip : nat) (off left : Z) : M F (list Z) :=
  match fuel with
  | O => ret []
  | Datatypes.S fuel' =>
      if 0 <? left then
        let* f := get in
        let* addr := bmap ip (off / BSIZE) in
        let* bp := fbread (idev (I f ip)) addr in
        let* d := fdata bp in
        let m := file_chunk off left in
        fbrelse bp ;;;
        let* rest := readi_loop fuel' ip (off + m) (left - m) in
        ret (sub d (Z.to_nat (off mod BSIZE)) (Z.to_nat m) ++ rest)
      else ret []
  end.

(** Every turn but the first starts at a block boundary. *)
Definition chunks (left : Z) : nat := Z.to_nat (left / BSIZE) + 2.

Definition readi (ip : nat) (off n : Z) : M F (Z * list Z) :=
  let* f := get in
  let i := I f ip in
  if itype i =? T_DEV then
    if (imajor i <? 0) || (NDEV <=? imajor i) then ret (-1, [])
    else match dev_read (devsw (imajor i)) with None => ret (-1, []) | Some rd => rd ip n end
  else if (isize i <? off) || (u32 (off + n) <? off) then ret (-1, [])
  else
    let n := if isize i <? u32 (off + n) then isize i - off else n in
    let* bs := readi_loop (chunks n) ip off n in
    ret (n, bs).

Fixpoint writei_loop (fuel : nat) (ip : nat) (src : list Z) (off left : Z) : M F () :=
  match fuel with
  | O => ret ()
  | Datatypes.S fuel' =>
      if 0 <? left then
        let* f := get in
        let* addr := bmap ip (off / BSIZE) in
        let* bp := fbread (idev (I f ip)) addr in
        let m := file_chunk off left in
        let* d := fdata bp in
        fset bp (patch d (Z.to_nat (off mod BSIZE)) (take (Z.to_nat m) src)) ;;;
        flog_write bp ;;;
        fbrelse bp ;;;
        writei_loop fuel' ip (drop (Z.to_nat m) src) (off + m) (left - m)
      else ret ()
  end.

Definition writei (ip : nat) (src : list Z) (off n : Z) : M F Z :=
  let* f := get in
  let i := I f ip in
  if itype i =? T_DEV then
    if (imajor i <? 0) || (NDEV <=? imajor i) then ret (-1)
    else match dev_write (devsw (imajor i)) with None => ret (-1) | Some wr => wr ip src n end
  else if (isize i <? off) || (u32 (off + n) <? off) then ret (-1)
  else if MAXFILE * BSIZE <? u32 (off + n) then ret (-1)
  else
    writei_loop (chunks n) ip src off n ;;;
    let* f := get in
    when ((0 <? n) && (isize (I f ip) <? off + n)) (
      modify (updi ip (set_isize (off + n))) ;;;
      iupdate ip) ;;;
    ret n.

Fixpoint cleari_loop (fuel : nat) (ip : nat) (off left : Z) : M F () :=
  match fuel with
  | O => ret ()
  | Datatypes.S fuel' =>
      if 0 <? left then
        let* f := get in
        let* addr := bmap ip (off / BSIZE) in
        let* bp := fbread (idev (I f ip)) addr in
        let m := file_chunk off left in
        let* d := fdata bp in
        fset bp (patch d (Z.to_nat (off mod BSIZE)) (replicate (Z.to_nat m) 0)) ;;;
        flog_write bp ;;;
        fbrelse bp ;;;
        cleari_loop fuel' ip (off + m) (left - m)
      else ret ()
  end.

Definition cleari (ip : nat) : M F Z :=
  let* f := get in
  let i := I f ip in
  if itype i =? T_DEV then ret (-1)
  else
    let off := 0 in
    let n := isize i in
    if (isize i <? off) || (u32 (off + n) <? off) then ret (-1)
    else if MAXFILE * BSIZE <? u32 (off + n) then ret (-1)
    else
      cleari_loop (chunks n) ip off n ;;;
      iupdate ip ;;;
      ret 0.

(** ** Directories *)

(** The character at [k] of a string; past the end of the list is the NUL. *)
Definition char_at (s : list Z) (k : nat) : Z := default 0 (s !! k).
(** [strncmp] on byte arrays. *)
Fixpoint strncmp_at (n : nat) (s t : list Z) (k : nat) : Z :=
  match n with
  | O => 0
  | Datatypes.S n' =>
      let p := char_at s k in
      let q := char_at t k in
      if nz p && (p =? q) then strncmp_at n' s t (k + 1) else p - q
  end.
Definition namecmp (s t : list Z) : Z := strncmp_at DIRSIZ s t 0.

(** A directory entry: [inum], then the name. *)
Definition de_inum (de : list Z) : Z := half_at de 0.
Definition de_name (de : list Z) : list Z := sub de 2 DIRSIZ.

Fixpoint dirlookup_loop (fuel : nat) (dp : nat) (name : list Z) (off : Z) : M F (option (nat * Z)) :=
  match fuel with
  | O => ret None
  | Datatypes.S fuel' =>
      let* f := get in
      if off <? isize (I f dp) then
        let* r := readi dp off DIRENT_SIZE in
        if negb (r.1 =? DIRENT_SIZE) then panic "dirlookup read"
        else if de_inum r.2 =? 0 then dirlookup_loop fuel' dp name (off + DIRENT_SIZE)
        else if namecmp name (de_name r.2) =? 0 then
          let* ip := iget (idev (I f dp)) (de_inum r.2) in
          ret (Some (ip, off))
        else dirlookup_loop fuel' dp name (off + DIRENT_SIZE)
      else ret None
  end.

(** One turn per entry, and one to find the end. *)
Definition entries (size : Z) : nat := Z.to_nat (size / DIRENT_SIZE) + 2.

(** The inode found and the offset of its entry. *)
Definition dirlookup (dp : nat) (name : list Z) : M F (option (nat * Z)) :=
  let* f := get in
  if negb (itype (I f dp) =? T_DIR) then panic "dirlookup not DIR"
  else dirlookup_loop (entries (isize (I f dp))) dp name 0.

(** The search for an empty entry; [None] is running out of fuel. *)
Fixpoint dirlink_scan (fuel : nat) (dp : nat) (off : Z) : M F (option Z) :=
  match fuel with
  | O => ret None
  | Datatypes.S fuel' =>
      let* f := get in
      if off <? isize (I f dp) then
        let* r := readi dp off DIRENT_SIZE in
        if negb (r.1 =? DIRENT_SIZE) then panic "dirlink read"
        else if de_inum r.2 =? 0 then ret (Some off)
        else dirlink_scan fuel' dp (off + DIRENT_SIZE)
      else ret (Some off)
  end.

(** [strncpy(de.name, name, DIRSIZ)], after the inode number. *)
Definition mk_dirent (name : list Z) (n : Z) : list Z := half_bytes n ++ strncpy_l DIRSIZ (replicate DIRSIZ 0) name.

Definition dirlink (me : Z) (dp : nat) (name : list Z) (n : Z) : M F Z :=
  let* r := dirlookup dp name in
  match r with
  | Some (ip, _) => iput me ip ;;; ret (-1)
  | None =>
      let* f := get in
      let* o := dirlink_scan (entries (isize (I f dp))) dp 0 in
      match o with
      | None => panic "dirlink: fuel"
      | Some off =>
          let* w := writei dp (mk_dirent name n) off DIRENT_SIZE in
          if negb (w =? DIRENT_SIZE) then panic "dirlink" else ret 0
      end
  end.

(** ** Paths *)

Definition SLASH : Z := 47.

Fixpoint skip_slashes (p : list Z) : list Z :=
  match p with c :: p' => if c =? SLASH then skip_slashes p' else p | [] => [] end.
(** The element at the head of [p], and what follows it. *)
Fixpoint take_elem (p : list Z) : list Z * list Z :=
  match p with
  | [] => ([], [])
  | c :: p' => if c =? SLASH then ([], p) else let r := take_elem p' in (c :: r.1, r.2)
  end.

(** The path after the element, and the [name] array with the element in it. *)
Definition skipelem (path name : list Z) : option (list Z * list Z) :=
  let path := skip_slashes path in
  match path with
  | [] => None
  | _ =>
      let r := take_elem path in
      let name := if (DIRSIZ <=? length r.1)%nat then patch name 0 (take DIRSIZ r.1)
                  else patch name 0 (r.1 ++ [0]) in
      Some (skip_slashes r.2, name)
  end.

(** [stati] and [checkmod] on the locked inode [ip]: [st.owner] is filled in on
    the stack, where [checkmod] compares it with the name of the user. *)
Definition check_inode (c : caller) (ip : nat) : M F Z :=
  let* f := get in
  let i := I f ip in
  let m := write (users f) (c_owner c) (strncpy_l 16 (replicate 16 0) (iowner i)) in
  let st := mkStat (itype i) (idev i) (inum i) (inlink i) (isize i) (iperm i) (c_owner c) in
  match checkmod (c_ltable c) (c_root c) m (c_username c) st with
  | Some (r, m) => modify (set_users m) ;;; ret r
  | None => panic "checkmod: unterminated name"
  end.

Fixpoint namex_loop (fuel : nat) (c : caller) (parent : bool) (ip : nat) (path name : list Z) : M F (option nat * list Z) :=
  match fuel with
  | O => panic "namex: fuel"
  | Datatypes.S fuel' =>
      match skipelem path name with
      | None => if parent then iput (c_pid c) ip ;;; ret (None, name) else ret (Some ip, name)
      | Some (path, name) =>
          ilock (c_pid c) ip ;;;
          let* f := get in
          if negb (itype (I f ip) =? T_DIR) then iunlockput (c_pid c) ip ;;; ret (None, name)
          else
            let* ok := (if 2 <? c_pid c then let* r := check_inode c ip in ret (nz (Z.land r X_OK)) else ret true) in
            if negb ok then iunlockput (c_pid c) ip ;;; ret (None, name)
            else if parent && bool_decide (path = []) then iunlock (c_pid c) ip ;;; ret (Some ip, name)
            else
              let* next := dirlookup ip name in
              match next with
              | None => iunlockput (c_pid c) ip ;;; ret (None, name)
              | Some (next, _) => iunlockput (c_pid c) ip ;;; namex_loop fuel' c parent next path name
              end
      end
  end.

(** One turn per path element at most. *)
Definition namex (c : caller) (path : list Z) (parent : bool) (name : list Z) : M F (option nat * list Z) :=
  let* ip := (if bool_decide (head path = Some SLASH) then iget ROOTDEV ROOTINO else idup (c_cwd c)) in
  namex_loop (length path + 1) c parent ip path name.

Definition namei (c : caller) (path : list Z) : M F (option nat) :=
  let* r := namex c path false (replicate DIRSIZ 0) in ret r.1.
Definition nameiparent (c : caller) (path name : list Z) : M F (option nat * list Z) := namex c path true name.
End fs.
