(* ===== verification/FsPath.v ===== *)
(** * Path names

    [skipelem] walks exactly the non-empty components of a path, each cut to
    [DIRSIZ] bytes; on-disk inodes and directory entries read back as they were
    written. *)

From stdpp Require Import gmap.
From S2P Require Import Prelude CString Block Bio Log Users Fs.
Open Scope Z_scope.

(** The pieces of a path between slashes, and the non-empty ones. *)
Fixpoint split_slash (p : list Z) : list (list Z) :=
  match p with
  | [] => [[]]
  | c :: p' =>
      if c =? SLASH then [] :: split_slash p'
      else match split_slash p' with h :: t => (c :: h) :: t | [] => [[c]] end
  end.
Definition components (p : list Z) : list (list Z) := filter (fun e => e <> []) (split_slash p).

(** The string in a [char name[DIRSIZ]]. *)
Fixpoint until_nul (l : list Z) : list Z :=
  match l with [] => [] | c :: l' => if c =? 0 then [] else c :: until_nul l' end.
Definition name_of (name : list Z) : list Z := until_nul (take DIRSIZ name).

Lemma split_nonempty p : split_slash p <> [].
Proof. destruct p as [|c p]; simpl; [done|]. destruct (c =? SLASH); [done|]. by destruct (split_slash p). Qed.

Lemma components_skip p : components (skip_slashes p) = components p.
Proof.
  induction p as [|c p IH]; [done|]. cbn [skip_slashes]. destruct (c =? SLASH) eqn:E; [|done].
  rewrite IH. unfold components. simpl. rewrite E. by rewrite filter_cons_False by auto.
Qed.

Lemma skip_head p : head (skip_slashes p) <> Some SLASH.
Proof.
  induction p as [|c p IH]; [done|]. simpl. destruct (Z.eqb_spec c SLASH); [done|]. simpl. congruence.
Qed.

Lemma take_elem_split p : split_slash p =
  match (take_elem p).2 with [] => [(take_elem p).1] | _ :: r => (take_elem p).1 :: split_slash r end.
Proof.
  induction p as [|c p IH]; [done|]. simpl. destruct (c =? SLASH); [done|].
  rewrite IH. simpl. by destruct (take_elem p).2.
Qed.

Lemma take_elem_rest p : match (take_elem p).2 with [] => True | c :: _ => c = SLASH end.
Proof.
  induction p as [|c p IH]; [done|]. simpl. destruct (Z.eqb_spec c SLASH) as [-> |]; done.
Qed.

Lemma take_elem_app p : p = (take_elem p).1 ++ (take_elem p).2.
Proof. induction p as [|c p IH]; [done|]. simpl. destruct (c =? SLASH); simpl; congruence. Qed.

Lemma components_elem p : p <> [] -> head p <> Some SLASH ->
  (take_elem p).1 <> [] /\ components p = (take_elem p).1 :: components (skip_slashes (take_elem p).2).
Proof.
  intros Hp Hh. assert ((take_elem p).1 <> []) as Hne.
  { destruct p as [|c p]; [done|]. simpl. destruct (Z.eqb_spec c SLASH) as [-> |]; [done|]. done. }
  split; [done|]. rewrite components_skip. unfold components. rewrite take_elem_split.
  pose proof (take_elem_rest p) as Hr. destruct (take_elem p).2 as [|c r].
  - by rewrite filter_cons_True.
  - subst c. by rewrite filter_cons_True.
Qed.

Lemma until_nul_id l : Forall (fun c => c <> 0) l -> until_nul l = l.
Proof. induction 1 as [|c l Hc _ IH]; simpl; [done|]. rewrite (proj2 (Z.eqb_neq c 0) Hc). by f_equal. Qed.
Lemma until_nul_app l r : Forall (fun c => c <> 0) l -> until_nul (l ++ 0 :: r) = l.
Proof. induction 1 as [|c l Hc _ IH]; simpl; [done|]. rewrite (proj2 (Z.eqb_neq c 0) Hc). by f_equal. Qed.

Lemma skip_head_id p : head p <> Some SLASH -> skip_slashes p = p.
Proof. destruct p as [|c p]; [done|]. simpl. destruct (Z.eqb_spec c SLASH); [congruence|done]. Qed.

Lemma components_nil p : head p <> Some SLASH -> components p = [] -> p = [].
Proof.
  intros Hh Hc. destruct (decide (p = [])) as [|Hp]; [done|]. destruct (components_elem p Hp Hh) as [_ He]. congruence.
Qed.

(** The name array after [skipelem]. *)
Lemma stored_name name e :
  length name = DIRSIZ -> Forall (fun c => c <> 0) e ->
  name_of (if (DIRSIZ <=? length e)%nat then patch name 0 (take DIRSIZ e) else patch name 0 (e ++ [0])) = take DIRSIZ e.
Proof.
  intros Hn He. unfold name_of, patch. destruct (Nat.leb_spec DIRSIZ (length e)) as [Hl|Hl]; rewrite take_0; simpl.
  - rewrite length_take, Nat.min_l by done. rewrite (drop_ge name) by (rewrite Hn; lia). rewrite app_nil_r.
    rewrite take_take, Nat.min_id. apply until_nul_id. by apply Forall_take.
  - rewrite <- app_assoc, take_app_ge, (take_ge e) by lia.
    replace (DIRSIZ - length e)%nat with (Datatypes.S (DIRSIZ - length e - 1)) by lia. simpl. by apply until_nul_app.
Qed.

Lemma take_elem_nonul p : Forall (fun c => c <> 0) p ->
  Forall (fun c => c <> 0) (take_elem p).1 /\ Forall (fun c => c <> 0) (take_elem p).2.
Proof. intros H. rewrite (take_elem_app p) in H. by apply Forall_app in H. Qed.
Lemma skip_nonul p : Forall (fun c => c <> 0) p -> Forall (fun c => c <> 0) (skip_slashes p).
Proof. induction 1 as [|c p Hc Hp IH]; simpl; [done|]. destruct (c =? SLASH); [done|]. by constructor. Qed.

(** C34: [skipelem] splits a path the way the file system's name space is
    defined: it fails exactly when the path has no non-empty component;
    otherwise it stores the first component, cut to [DIRSIZ] bytes, in [name]
    and returns a shorter path without a leading slash that has the remaining
    components, so that the returned path is empty exactly when the component
    was the last one. *)
Theorem skipelem_components (path name : list Z) :
  Forall (fun c => c <> 0) path -> length name = DIRSIZ ->
  match skipelem path name with
  | None => components path = []
  | Some (path', name') =>
      exists e, components path = e :: components path' /\ name_of name' = take DIRSIZ e /\
        length name' = DIRSIZ /\ Forall (fun c => c <> 0) path' /\ (length path' < length path)%nat /\
        (path' = [] <-> components path' = [])
  end.
Proof.
  intros Hz Hn. unfold skipelem. rewrite <- components_skip. pose proof (skip_head path) as Hh.
  pose proof (skip_nonul path Hz) as Hz'.
  assert (length (skip_slashes path) <= length path)%nat as Hle.
  { clear. induction path as [|c p IH]; simpl; [done|]. destruct (c =? SLASH); simpl; lia. }
  set (p := skip_slashes path) in *. destruct (decide (p = [])) as [Hp|Hp]; [by rewrite Hp|].
  destruct (components_elem p Hp Hh) as [Hne Hc]. destruct (take_elem_nonul p Hz') as [H1 H2].
  assert (length p = length (take_elem p).1 + length (take_elem p).2)%nat as Hlen by (rewrite (take_elem_app p) at 1; apply length_app).
  assert (length (skip_slashes (take_elem p).2) <= length (take_elem p).2)%nat as Hle2.
  { clear. generalize (take_elem p).2. intros q. induction q as [|c q IH]; simpl; [done|]. destruct (c =? SLASH); simpl; lia. }
  destruct p as [|c0 p0] eqn:Ep; [done|]. rewrite <- Ep in *.
  exists (take_elem p).1. split_and!; [done|by apply stored_name| |by apply skip_nonul| |].
  - destruct (Nat.leb_spec DIRSIZ (length (take_elem p).1)) as [Hl|Hl]; rewrite length_patch, Hn; rewrite ?length_take, ?length_app, ?Hn; cbn [length]; unfold DIRSIZ in *; lia.
  - destruct (take_elem p).1; [done|]. simpl in Hlen. lia.
  - split; [by intros ->|]. apply components_nil, skip_head.
Qed.

Lemma skipelem_components_witness :
  skipelem [47; 97; 47; 47; 98; 98] (replicate DIRSIZ 0) = Some ([98; 98], 97 :: replicate 13 0) /\
  exists e, components [47; 97; 47; 47; 98; 98] = e :: components [98; 98] /\ name_of (97 :: replicate 13 0) = take DIRSIZ e.
Proof.
  split; [reflexivity|].
  destruct (skipelem_components [47; 97; 47; 47; 98; 98] (replicate DIRSIZ 0)) as (e & Hc & Hname & _); [|reflexivity|].
  - repeat (constructor; [lia|]). constructor.
  - exists e. exact (conj Hc Hname).
Defined.

(** ** On-disk inodes *)

Lemma patch_next d o o' b1 b2 : o' = (o + length b1)%nat -> (o' + length b2 <= length d)%nat ->
  patch (patch d o b1) o' b2 = patch d o (b1 ++ b2).
Proof.
  intros -> Hl. apply list_eq. intros i. rewrite !lookup_patch; rewrite ?length_patch, ?length_app; try lia.
  repeat case_decide; try lia; try done.
  - rewrite lookup_app_r by lia. f_equal. lia.
  - by rewrite lookup_app_l by lia.
Qed.

Lemma sub_patch_in d o b k n : (o + length b <= length d)%nat -> (k + n <= length b)%nat ->
  sub (patch d o b) (o + k) n = sub b k n.
Proof.
  intros Hl Hk. apply list_eq. intros i. rewrite !sub_lookup. case_decide; [|done].
  rewrite lookup_patch by done. rewrite decide_True by lia. f_equal. lia.
Qed.

Lemma half_patch_in d o b k : (o + length b <= length d)%nat -> (k + 2 <= length b)%nat ->
  half_at (patch d o b) (o + k) = half_at b k.
Proof.
  intros Hl Hk. unfold half_at. rewrite !list_lookup_total_alt, !lookup_patch by done.
  rewrite !decide_True by lia. do 3 f_equal; f_equal; lia.
Qed.

Lemma half_bytes_half w : Z.lor (u8 w) (Z.shiftl (u8 (Z.shiftr w 8)) 8) = w mod 2 ^ 16.
Proof.
  unfold u8. apply Z.bits_inj'. intros n Hn. rewrite Z.lor_spec, Z.shiftl_spec by done.
  rewrite !Z.testbit_mod_pow2 by lia. destruct (decide (8 <= n)).
  - rewrite Z.shiftr_spec by lia. replace (n - 8 + 8) with n by lia.
    destruct (Z.ltb_spec n 8), (Z.ltb_spec (n - 8) 8), (Z.ltb_spec n 16); try lia; done.
  - rewrite (Z.testbit_neg_r _ (n - 8)) by lia. rewrite andb_false_r, orb_false_r.
    destruct (Z.ltb_spec n 8), (Z.ltb_spec n 16); try lia; done.
Qed.

Lemma s16_half w : - 2 ^ 15 <= w < 2 ^ 15 -> s16 (w mod 2 ^ 16) = w.
Proof. intros Hw. unfold s16. rewrite Zplus_mod_idemp_l, Z.mod_small; lia. Qed.

Lemma half_at_cons w l : half_at (half_bytes w ++ l) 0 = w mod 2 ^ 16.
Proof. apply half_bytes_half. Qed.

Lemma half_at_app l1 l2 k : half_at (l1 ++ l2) (length l1 + k) = half_at l2 k.
Proof.
  unfold half_at. rewrite !list_lookup_total_alt, !lookup_app_r by lia. do 4 f_equal; lia.
Qed.

Lemma sub_app_r l1 l2 k n : sub (l1 ++ l2) (length l1 + k) n = sub l2 k n.
Proof. unfold sub. by rewrite drop_app_add. Qed.

Lemma length_strncpy_l n dst src : (n <= length dst)%nat -> length (strncpy_l n dst src) = length dst.
Proof.
  intros Hn. unfold strncpy_l. set (k := match list_find _ _ with Some (k, _) => k | None => _ end).
  assert (k <= n /\ k <= length src)%nat as [Hk1 Hk2].
  { unfold k. destruct (list_find _ (take n src)) as [[j c]|] eqn:E; [|lia].
    apply list_find_Some in E as (Ej & _). apply lookup_lt_Some in Ej. rewrite length_take in Ej. lia. }
  rewrite !length_app, length_take, length_replicate, length_drop. lia.
Qed.

(** The string in the first [n] bytes survives [strncpy]. *)
Lemma strncpy_l_string n dst src :
  until_nul (take n (strncpy_l n dst src)) = until_nul (take n src).
Proof.
  unfold strncpy_l. destruct (list_find _ (take n src)) as [[k c]|] eqn:E.
  - apply list_find_Some in E as (Ek & -> & Hk).
    assert (k < n)%nat as Hkn by (apply lookup_lt_Some in Ek; rewrite length_take in Ek; lia).
    rewrite lookup_take_lt in Ek by done. pose proof (lookup_lt_Some _ _ _ Ek).
    assert (Forall (fun c => c <> 0) (take k src)) as Hz.
    { apply Forall_lookup. intros j c Hj. apply lookup_take_Some in Hj as [Hj Hlt].
      apply (Hk j c); [|done]. rewrite lookup_take_lt by lia. done. }
    assert (take n src = take k src ++ 0 :: drop (Datatypes.S k) (take n src)) as ->.
    { rewrite <- (take_drop_middle (take n src) k 0) at 1 by (by rewrite lookup_take_lt).
      by rewrite take_take, Nat.min_l by lia. }
    rewrite until_nul_app by done. rewrite take_app_ge; rewrite length_take, Nat.min_l by lia; [|lia].
    replace (n - k)%nat with (Datatypes.S (n - k - 1)) by lia. simpl. by apply until_nul_app.
  - assert (Forall (fun c => c <> 0) (take n src)) as Hz by (apply list_find_None in E; done).
    destruct (decide (n <= length src)%nat) as [Hn|Hn].
    + rewrite Nat.min_l by lia. rewrite take_app_le by (rewrite length_take; lia). by rewrite take_take, Nat.min_id.
    + rewrite Nat.min_r by lia. rewrite (take_ge src n) in * by lia. rewrite (take_ge src (length src)) by lia. rewrite take_app_ge by lia.
      replace (n - length src)%nat with (Datatypes.S (n - length src - 1)) by lia. simpl. rewrite until_nul_app by done. by rewrite until_nul_id.
Qed.

(** The 64 bytes of an inode, with [own] in the owner field. *)
Definition enc_dinode (i : inode) (own : list Z) : list Z :=
  half_bytes (itype i) ++ half_bytes (imajor i) ++ half_bytes (iminor i) ++ half_bytes (inlink i) ++
  word_bytes (isize i) ++ word_bytes (iperm i) ++ own ++ concat (word_bytes <$> iaddrs i).

Definition short (z : Z) : Prop := - 2 ^ 15 <= z < 2 ^ 15.
Definition uint (z : Z) : Prop := 0 <= z < 2 ^ 32.
(** The fields of an in-memory inode have their C types. *)
Record inode_typed (i : inode) : Prop := {
  ty_shorts : short (itype i) /\ short (imajor i) /\ short (iminor i) /\ short (inlink i);
  ty_uints : uint (isize i) /\ uint (iperm i);
  ty_owner : length (iowner i) = 16%nat;
  ty_addrs : length (iaddrs i) = 8%nat /\ Forall uint (iaddrs i) }.

Lemma put_dinode_enc d off i :
  inode_typed i -> (off + 64 <= length d)%nat ->
  put_dinode d off i = patch d off (enc_dinode i (strncpy_l 15 (sub d (off + 16) 16) (iowner i))).
Proof.
  intros [_ _ Ho [Ha _]] Hl. unfold put_dinode, put_half, put_word. cbv zeta.
  assert (length (sub d (off + 16) 16) = 16%nat) as Hs by (unfold sub; rewrite length_take, length_drop; lia).
  rewrite 5!(patch_next d off) by (simpl; lia). rewrite sub_patch_other by (simpl; lia).
  rewrite (patch_next d off); [|simpl; lia|rewrite length_strncpy_l; lia].
  rewrite (patch_next d off).
  - reflexivity.
  - rewrite length_app, length_strncpy_l by lia. rewrite Hs. simpl. lia.
  - rewrite length_words. lia.
Qed.

Lemma length_enc i own : inode_typed i -> length own = 16%nat -> length (enc_dinode i own) = 64%nat.
Proof.
  intros [_ _ _ [Ha _]] Ho. unfold enc_dinode. rewrite !length_app, Ho, length_words, Ha. done.
Qed.

Lemma words_at l k : Forall uint l -> (k < length l)%nat ->
  word_at (concat (word_bytes <$> l)) (4 * k) = l !!! k.
Proof.
  intros Hl. revert k. induction Hl as [|w l Hw _ IH]; intros k Hk; [simpl in Hk; lia|].
  destruct k as [|k].
  - change (bytes_word (word_bytes w) = w). rewrite bytes_word_bytes. by apply u32_small.
  - unfold word_at in *. cbn [fmap list_fmap concat]. replace (4 * Datatypes.S k)%nat with (length (word_bytes w) + 4 * k)%nat by (simpl; lia).
    rewrite sub_app_r. cbn [length] in Hk. rewrite IH by lia. done.
Qed.

Lemma enc_short w : short w -> s16 (Z.lor (u8 w) (Z.shiftl (u8 (Z.shiftr w 8)) 8)) = w.
Proof. intros. rewrite half_bytes_half. by apply s16_half. Qed.
Lemma enc_uint w : uint w -> bytes_word (word_bytes w) = w.
Proof. intros. rewrite bytes_word_bytes. by apply u32_small. Qed.
Lemma enc_tail i own k n : sub (enc_dinode i own) (16 + k) n = sub (own ++ concat (word_bytes <$> iaddrs i)) k n.
Proof. reflexivity. Qed.

(** The fields that [iupdate] writes agree. *)
Definition same_dinode (j i : inode) : Prop :=
  itype j = itype i /\ imajor j = imajor i /\ iminor j = iminor i /\ inlink j = inlink i /\
  isize j = isize i /\ iperm j = iperm i /\ iaddrs j = iaddrs i /\
  until_nul (take 15 (iowner j)) = until_nul (take 15 (iowner i)).

Lemma get_put_dinode d off i j :
  is_block d -> (off + 64 <= Z.to_nat BSIZE)%nat -> inode_typed i ->
  is_block (put_dinode d off i) /\
  (forall o n, (o + n <= off \/ off + 64 <= o)%nat -> sub (put_dinode d off i) o n = sub d o n) /\
  same_dinode (get_dinode (put_dinode d off i) off j) i.
Proof.
  intros Hd Hoff T. unfold is_block, same_dinode in *. pose proof T as [(S1 & S2 & S3 & S4) [U1 U2] Ho [Ha Hu]].
  assert (length (sub d (off + 16) 16) = 16%nat) as Hs by (unfold sub; rewrite length_take, length_drop; lia).
  rewrite put_dinode_enc by (done || lia). set (own := strncpy_l 15 _ _).
  assert (length own = 16%nat) as Hown by (unfold own; rewrite length_strncpy_l; lia).
  pose proof (length_enc i own T Hown) as Hle. set (e := enc_dinode i own) in *.
  split; [rewrite length_patch; lia|]. split; [intros o n Hon; apply sub_patch_other; lia|].
  unfold get_dinode, short_at, word_at. cbn [itype imajor iminor inlink isize iperm iaddrs iowner inum idev iref ivalid].
  rewrite <- (Nat.add_0_r off) at 2. rewrite !half_patch_in, !sub_patch_in by lia.
  split_and!; [by apply enc_short..|by apply enc_uint|by apply enc_uint| |].
  - apply list_eq. intros k. rewrite list_lookup_fmap. destruct (decide (k < 8)%nat) as [Hk|Hk].
    + rewrite lookup_seq_lt by done. unfold fmap, option_fmap, option_map. rewrite Nat.add_0_l.
      rewrite <- Nat.add_assoc, sub_patch_in by lia. replace (32 + 4 * k)%nat with (16 + (16 + 4 * k))%nat by lia.
      unfold e. rewrite enc_tail. replace (16 + 4 * k)%nat with (length own + 4 * k)%nat by lia. rewrite sub_app_r.
      fold (word_at (concat (word_bytes <$> iaddrs i)) (4 * k)).
      rewrite words_at by (done || lia). symmetry. apply list_lookup_lookup_total_lt. lia.
    + rewrite lookup_seq_ge by lia. symmetry. apply lookup_ge_None. lia.
  - assert (sub e 16 16 = own) as ->.
    { change 16%nat with (16 + 0)%nat at 1. unfold e. rewrite enc_tail. unfold sub. rewrite drop_0. by rewrite take_app_length'. }
    rewrite strncpy_l_string. unfold own. by rewrite strncpy_l_string.
Qed.

(** Writing an inode to its disk block and reading it back.  [iupdate]'s
    stores touch only the 64 bytes of the inode's slot; [ilock], reading that
    slot into any cache entry, gets back every field, and the owner's name up
    to its first 15 characters. *)
Theorem dinode_roundtrip d off i j :
  is_block d -> (off + 64 <= Z.to_nat BSIZE)%nat -> inode_typed i ->
  let d' := put_dinode d off i in
  let j' := get_dinode d' off j in
  is_block d' /\
  (forall o n, (o + n <= off \/ off + 64 <= o)%nat -> sub d' o n = sub d o n) /\
  itype j' = itype i /\ imajor j' = imajor i /\ iminor j' = iminor i /\ inlink j' = inlink i /\
  isize j' = isize i /\ iperm j' = iperm i /\ iaddrs j' = iaddrs i /\
  until_nul (take 15 (iowner j')) = until_nul (take 15 (iowner i)) /\
  (inum j', idev j', iref j', ivalid j') = (inum j, idev j, iref j, ivalid j).
Proof.
  intros Hd Hoff T. destruct (get_put_dinode d off i j Hd Hoff T) as (? & ? & ? & ? & ? & ? & ? & ? & ? & ?). by split_and!.
Qed.

Lemma dinode_roundtrip_witness :
  let i := mkInode 1 9 1 (mkSleeplock 1 3) 1 2 0 0 1 700 54 ([114; 111; 111; 116] ++ replicate 12 0) [60; 61; 0; 0; 0; 0; 0; 0] in
  let d' := put_dinode (replicate 512 7) 64 i in
  isize (get_dinode d' 64 inhabitant) = 700 /\ iaddrs (get_dinode d' 64 inhabitant) = iaddrs i.
Proof.
  intros i d'. destruct (dinode_roundtrip (replicate 512 7) 64 i inhabitant)
    as (_ & _ & _ & _ & _ & _ & Hs & _ & Ha & _).
  - reflexivity.
  - vm_compute. lia.
  - split; [repeat split; unfold short; simpl; lia|split; unfold uint; simpl; lia|reflexivity|split; [reflexivity|]].
    repeat (constructor; [unfold uint; lia|]). constructor.
  - exact (conj Hs Ha).
Defined.
