(* ===== verification/FsTxn.v ===== *)
(** * File system code inside a transaction

    The blocks the file system sees while a transaction is open, and what its
    accesses through log.c and bio.c do to them.  [txn] hides the state of the
    log and of the cache behind the contents [V] of the blocks, the
    buffers [H] held and the blocks [bs] logged so far. *)

From stdpp Require Import gmap.
From S2P Require Import Prelude CString Block Bio Log LogCrash Fs.
Open Scope Z_scope.

(** What does not change during a transaction: the superblock, the log area, the
    number of blocks of the device, the first data block, and the disk. *)
Record world := mkWorld {
  w_sb : superblock; w_start : Z; w_nlog : Z; w_size : Z; w_data : Z; w_disk : disk }.

(** A block that may be logged. *)
Definition loggable (W : world) (b : Z) : Prop := home (w_start W) (w_nlog W) (w_size W) b.

Record txn {S} `{!BlockCache S} (W : world) (l : log S) (V : disk) (H : gmap Z nat) (bs : list Z) : Prop := {
  tx_cache : exists a, bc_rep (cache l) a /\ hold a = H /\ view a = V /\ log_inv l a bs /\ asize a = w_size W /\ adisk a = w_disk W;
  tx_start : lstart l = w_start W;
  tx_nlog : lsize l = w_nlog W;
  tx_out : 1 <= outstanding l }.

Section txn.
Context {S : Type} `{!BlockCache S} (W : world).
Local Abbreviation F := (fs S).

Lemma fl_run {A} (m : M (log S) A) (f : F) x l' : m (flog f) = Ret x l' -> fl m f = Ret x (set_flog l' f).
Proof. intros E. unfold fl, lift. by rewrite E. Qed.

Lemma txn_nodup (l : log S) V H bs : txn W l V H bs -> NoDup bs.
Proof. intros [(a & _ & _ & _ & I & _) _ _ _]. by destruct I. Qed.

Lemma txn_clean (l : log S) V H bs b : txn W l V H bs -> H !! b = None -> b ∈ bs \/ V b = w_disk W b.
Proof.
  intros [(a & R & <- & <- & I & _ & <-) _ _ _] Hb. destruct (decide (b ∈ bs)); [by left|right].
  apply (bc_clean (cache l) a); [done| |done]. rewrite (li_dirty _ _ _ I). by rewrite elem_of_list_to_set.
Qed.

Lemma fbread_run (f : F) V H bs b :
  txn W (flog f) V H bs -> H !! b = None -> b < w_size W -> (length bs + size H < NBUF)%nat ->
  exists i l', fbread ROOTDEV b f = Ret i (set_flog l' f) /\ txn W l' V (<[b := i]> H) bs.
Proof.
  intros [(a & R & HH & HV & I & Hs & HD) Hp Hn Ho] Hb Hlt Hroom.
  destruct (bc_bread_spec (cache (flog f)) a b R) as (i & s' & E & R').
  - by rewrite HH.
  - by rewrite Hs.
  - unfold busy. rewrite (li_dirty _ _ _ I), HH. pose proof (list_size_le bs). pose proof (size_dom H).
    transitivity (1 + (size (list_to_set bs : gset Z) + size (dom H)))%nat; [|lia].
    rewrite !size_union_alt, size_singleton. apply Nat.add_le_mono_l.
    etransitivity; [apply subseteq_size, subseteq_difference_l; reflexivity|].
    rewrite size_union_alt. apply Nat.add_le_mono_l. apply subseteq_size, subseteq_difference_l; reflexivity.
  - exists i, (set_cache s' (flog f)). split; [apply fl_run; by apply lc_run|]. rewrite HH in R'.
    split; [|done..]. eexists. split; [exact R'|]. split_and!; try done. by apply (log_inv_frame (flog f) a).
Qed.

Lemma fdata_run (f : F) V H bs b i :
  txn W (flog f) V H bs -> H !! b = Some i -> fdata i f = Ret (V b) f.
Proof.
  intros [(a & R & <- & <- & I & _) _ _ _] Hi. unfold fdata, fl, lift, lc, lift.
  rewrite (bc_getdata_spec _ _ _ _ R Hi). by destruct f as [? ? [] ?].
Qed.

Lemma fset_run (f : F) V H bs b i d :
  txn W (flog f) V H bs -> H !! b = Some i ->
  exists l', fset i d f = Ret () (set_flog l' f) /\ txn W l' (disk_upd V b d) H bs.
Proof.
  intros [(a & R & <- & <- & I & Hs & HD) Hp Hn Ho] Hi. destruct (bc_setdata_spec _ _ _ _ d R Hi) as (s' & E & R').
  exists (set_cache s' (flog f)). split; [apply fl_run; by apply lc_run|]. split; [|done..].
  eexists. split; [exact R'|]. split_and!; try done. by apply (log_inv_frame (flog f) a).
Qed.

Lemma flog_write_run (f : F) V H bs b i :
  txn W (flog f) V H bs -> H !! b = Some i -> loggable W b -> Z.of_nat (length bs) < w_nlog W - 1 ->
  exists l', flog_write i f = Ret () (set_flog l' f) /\ txn W l' V H (add_block b bs).
Proof.
  intros [(a & R & <- & <- & I & Hs & HD) Hp Hn Ho] Hi Hb Hlt.
  destruct (log_write_run (flog f) a bs b i R I Hi) as (l' & E & R' & I' & Hp' & Hn' & Ho' & _); [|lia|done|].
  { unfold loggable in Hb. by rewrite Hp, Hn, Hs. }
  exists l'. split; [by apply fl_run|]. split; [|congruence..|lia]. eexists. split; [exact R'|]. by split_and!.
Qed.

Lemma fbrelse_run (f : F) V H bs b i :
  txn W (flog f) V H bs -> H !! b = Some i -> (b ∈ bs \/ V b = w_disk W b) ->
  exists l', fbrelse i f = Ret () (set_flog l' f) /\ txn W l' V (delete b H) bs.
Proof.
  intros [(a & R & <- & <- & I & Hs & HD) Hp Hn Ho] Hi Hc.
  destruct (bc_brelse_spec _ _ _ _ R Hi) as (s' & E & R').
  { rewrite (li_dirty _ _ _ I), elem_of_list_to_set, HD. done. }
  exists (set_cache s' (flog f)). split; [apply fl_run; by apply lc_run|]. split; [|done..].
  eexists. split; [exact R'|]. split_and!; try done. by apply (log_inv_frame (flog f) a).
Qed.

Lemma elem_of_add_block x b bs : x ∈ add_block b bs <-> x = b \/ x ∈ bs.
Proof. unfold add_block. case_decide; set_solver. Qed.
Lemma length_add_block b bs : (length bs <= length (add_block b bs) <= Datatypes.S (length bs))%nat.
Proof. unfold add_block. case_decide; rewrite ?length_app; simpl; lia. Qed.

(** ** Reading a block, and rewriting it *)

Lemma read_run {A} (f : F) V H bs b (k : block -> M F A) :
  txn W (flog f) V H bs -> H !! b = None -> b < w_size W -> (length bs + size H < NBUF)%nat ->
  exists l', (let* bp := fbread ROOTDEV b in let* d := fdata bp in fbrelse bp ;;; k d) f = k (V b) (set_flog l' f) /\
    txn W l' V H bs.
Proof.
  intros T Hb Hlt Hroom. destruct (fbread_run f V H bs b T Hb Hlt Hroom) as (i & l1 & E1 & T1).
  rewrite (bind_ret _ _ _ _ _ E1). pose proof (lookup_insert_eq H b i) as Hi.
  rewrite (bind_ret _ _ _ _ _ (fdata_run (set_flog l1 f) _ _ _ _ _ T1 Hi)).
  destruct (fbrelse_run (set_flog l1 f) _ _ _ _ _ T1 Hi (txn_clean _ _ _ _ _ T Hb)) as (l2 & E2 & T2).
  rewrite delete_insert_id in T2 by done. exists l2. by rewrite (bind_ret _ _ _ _ _ E2).
Qed.

Lemma rewrite_run {A} (f : F) V H bs b (g : block -> block) (k : M F A) :
  txn W (flog f) V H bs -> H !! b = None -> loggable W b -> (length bs + size H < NBUF)%nat ->
  Z.of_nat (length bs) < w_nlog W - 1 ->
  exists l', (let* bp := fbread ROOTDEV b in let* d := fdata bp in fset bp (g d) ;;; flog_write bp ;;; fbrelse bp ;;; k) f
      = k (set_flog l' f) /\
    txn W l' (disk_upd V b (g (V b))) H (add_block b bs).
Proof.
  intros T Hb Hl Hroom Hlog. destruct (fbread_run f V H bs b T Hb) as (i & l1 & E1 & T1); [apply Hl|done|].
  rewrite (bind_ret _ _ _ _ _ E1). pose proof (lookup_insert_eq H b i) as Hi.
  rewrite (bind_ret _ _ _ _ _ (fdata_run (set_flog l1 f) _ _ _ _ _ T1 Hi)).
  destruct (fset_run (set_flog l1 f) _ _ _ _ _ (g (V b)) T1 Hi) as (l2 & E2 & T2). rewrite (bind_ret _ _ _ _ _ E2).
  destruct (flog_write_run (set_flog l2 f) _ _ _ _ _ T2 Hi Hl Hlog) as (l3 & E3 & T3).
  change (set_flog l2 (set_flog l1 f)) with (set_flog l2 f). rewrite (bind_ret _ _ _ _ _ E3).
  destruct (fbrelse_run (set_flog l3 f) _ _ _ _ _ T3 Hi) as (l4 & E4 & T4); [left; apply elem_of_add_block; by left|].
  rewrite delete_insert_id in T4 by done. exists l4.
  change (set_flog l3 (set_flog l2 f)) with (set_flog l3 f). by rewrite (bind_ret _ _ _ _ _ E4).
Qed.

Lemma rewrite_end_run (f : F) V H bs b (g : block -> block) :
  txn W (flog f) V H bs -> H !! b = None -> loggable W b -> (length bs + size H < NBUF)%nat ->
  Z.of_nat (length bs) < w_nlog W - 1 ->
  exists l', (let* bp := fbread ROOTDEV b in let* d := fdata bp in fset bp (g d) ;;; flog_write bp ;;; fbrelse bp) f
      = Ret () (set_flog l' f) /\
    txn W l' (disk_upd V b (g (V b))) H (add_block b bs).
Proof.
  intros T Hb Hl Hroom Hlog. destruct (rewrite_run f V H bs b g (ret ()) T Hb Hl Hroom Hlog) as (l' & E & T').
  exists l'. split; [|done]. change (Ret () (set_flog l' f)) with (ret () (set_flog l' f)). rewrite <- E.
  do 4 (apply bind_ext; intros ? ?). by rewrite bind_done.
Qed.
End txn.
