(* ===== verification/FsBlocks.v ===== *)
(** * The free map

    [balloc] and [bfree] of fs.c over the layout of the disk that fs.h
    describes: [balloc] takes the first free block, marks it in the bitmap and
    zeroes it; [bfree] undoes the marking. *)

From stdpp Require Import gmap.
From S2P Require Import Prelude CString Block Bio Log LogCrash Fs FsTxn.
Open Scope Z_scope.

(** boot block | super block | log | inode blocks | free bit map | data blocks *)
Record layout (W : world) : Prop := {
  ly_log : 1 < w_start W /\ 0 <= w_nlog W /\ w_start W + w_nlog W <= sb_inodestart (w_sb W);
  ly_ino : 0 <= sb_ninodes (w_sb W) /\ sb_inodestart (w_sb W) + sb_ninodes (w_sb W) / IPB < sb_bmapstart (w_sb W);
  ly_bm : sb_bmapstart (w_sb W) + sb_size (w_sb W) / BPB < w_data W;
  ly_data : 0 < w_data W <= sb_size (w_sb W) /\ sb_size (w_sb W) <= w_size W;
  ly_max : sb_size (w_sb W) < 2 ^ 31 }.

Definition data_block (W : world) (b : Z) : Prop := w_data W <= b < sb_size (w_sb W).
Definition bitmap_of (W : world) (b : Z) : Z := BBLOCK b (w_sb W).
(** [b] is marked free in the bitmap. *)
Definition is_free (W : world) (V : disk) (b : Z) : bool := bit_free (V (bitmap_of W b)) (b mod BPB).

(** Every block has its size, and the blocks before the data are never free. *)
Record disk_ok (W : world) (V : disk) : Prop := {
  dk_block : forall b, 0 <= b < sb_size (w_sb W) -> is_block (V b);
  dk_meta : forall b, 0 <= b < w_data W -> is_free W V b = false }.

(** The bitmap block with the bit of [b] set, and cleared. *)
Definition mark (b : Z) (d : block) : block :=
  alter (fun x => Z.lor x (bit_mask (b mod BPB))) (Z.to_nat (b mod BPB / 8)) d.
Definition unmark (b : Z) (d : block) : block :=
  alter (fun x => Z.land x (Z.lnot (bit_mask (b mod BPB)))) (Z.to_nat (b mod BPB / 8)) d.

(** ** Bits *)

Lemma bit_free_testbit d bi : bit_free d bi = negb (Z.testbit (d !!! Z.to_nat (bi / 8)) (bi mod 8)).
Proof.
  unfold bit_free, bit_mask. rewrite Z.shiftl_1_l. pose proof (Z.mod_pos_bound bi 8 ltac:(lia)).
  destruct (Z.testbit _ _) eqn:E; cbn [negb].
  - apply Z.eqb_neq. intros H0. assert (Z.testbit (Z.land (d !!! Z.to_nat (bi / 8)) (2 ^ (bi mod 8))) (bi mod 8) = true) as H1.
    { rewrite Z.land_spec, E, Z.pow2_bits_true by lia. done. }
    rewrite H0, Z.bits_0 in H1. done.
  - apply Z.eqb_eq, Z.bits_inj_0. intros k. rewrite Z.land_spec. destruct (decide (k = bi mod 8)) as [->|Hk]; [by rewrite E|].
    rewrite (Z.pow2_bits_false (bi mod 8) k), andb_false_r by lia. done.
Qed.

Lemma BPB_bytes b : 0 <= b mod BPB / 8 < BSIZE.
Proof.
  unfold BPB. pose proof (Z.mod_pos_bound b (BSIZE * 8) ltac:(done)). unfold BSIZE in *.
  split; [apply Z.div_pos; lia|apply Z.div_lt_upper_bound; lia].
Qed.

Lemma bit_free_alter (g : Z -> Z) (v : bool) d b x :
  is_block d -> (forall y k, 0 <= k -> Z.testbit (g y) k = if decide (k = b mod BPB mod 8) then v else Z.testbit y k) ->
  bit_free (alter g (Z.to_nat (b mod BPB / 8)) d) (x mod BPB) =
    if decide (x mod BPB = b mod BPB) then negb v else bit_free d (x mod BPB).
Proof.
  intros Hd Hg. rewrite !bit_free_testbit. pose proof (BPB_bytes b). pose proof (BPB_bytes x). unfold is_block in Hd.
  pose proof (Z.mod_pos_bound (x mod BPB) 8 ltac:(lia)).
  destruct (decide (x mod BPB / 8 = b mod BPB / 8)) as [E|E].
  - rewrite E, list_lookup_total_alter, decide_True by lia. rewrite Hg by lia. case_decide as Ek; case_decide as Ex; try done.
    + exfalso. apply Ex. rewrite (Z.div_mod (x mod BPB) 8), (Z.div_mod (b mod BPB) 8) by lia. by rewrite E, Ek.
    + exfalso. apply Ek. by rewrite Ex.
  - rewrite list_lookup_total_alter, decide_False by lia. rewrite decide_False; [done|]. intros Ex. by rewrite Ex in E.
Qed.

Lemma bit_free_mark d b x : is_block d ->
  bit_free (mark b d) (x mod BPB) = if decide (x mod BPB = b mod BPB) then false else bit_free d (x mod BPB).
Proof.
  intros Hd. pose proof (Z.mod_pos_bound (b mod BPB) 8 ltac:(lia)). unfold mark. apply (bit_free_alter _ true); [done|].
  intros y k Hk. unfold bit_mask. rewrite Z.shiftl_1_l, Z.lor_spec. case_decide as E.
  - rewrite E, Z.pow2_bits_true, orb_true_r by lia. done.
  - rewrite Z.pow2_bits_false, orb_false_r by lia. done.
Qed.

Lemma bit_free_unmark d b x : is_block d ->
  bit_free (unmark b d) (x mod BPB) = if decide (x mod BPB = b mod BPB) then true else bit_free d (x mod BPB).
Proof.
  intros Hd. pose proof (Z.mod_pos_bound (b mod BPB) 8 ltac:(lia)). unfold unmark. apply (bit_free_alter _ false); [done|].
  intros y k Hk. unfold bit_mask. rewrite Z.shiftl_1_l, Z.land_spec, Z.lnot_spec by lia. case_decide as E.
  - rewrite E, Z.pow2_bits_true, andb_false_r by lia. done.
  - rewrite Z.pow2_bits_false, andb_true_r by lia. done.
Qed.

Lemma length_mark b d : length (mark b d) = length d.
Proof. apply length_alter. Qed.
Lemma length_unmark b d : length (unmark b d) = length d.
Proof. apply length_alter. Qed.

Section layout.
Context {W : world} (LY : layout W).

Lemma bitmap_of_eq b : 0 <= b < sb_size (w_sb W) -> bitmap_of W b = sb_bmapstart (w_sb W) + b / BPB.
Proof.
  intros Hb. destruct LY as [? ? ? ? ?]. unfold bitmap_of, BBLOCK. rewrite u32_small; [lia|].
  pose proof (Z.div_pos b BPB ltac:(lia) ltac:(done)). pose proof (Z.div_le_mono b (sb_size (w_sb W)) BPB ltac:(done) ltac:(lia)).
  pose proof (Z.div_pos (sb_ninodes (w_sb W)) IPB ltac:(lia) ltac:(done)). lia.
Qed.

Lemma bitmap_range b : 0 <= b < sb_size (w_sb W) ->
  w_start W + w_nlog W < bitmap_of W b < w_data W /\ loggable W (bitmap_of W b).
Proof.
  intros Hb. rewrite bitmap_of_eq by done. destruct LY as [? ? ? ? ?].
  pose proof (Z.div_pos b BPB ltac:(lia) ltac:(done)). pose proof (Z.div_le_mono b (sb_size (w_sb W)) BPB ltac:(done) ltac:(lia)).
  pose proof (Z.div_pos (sb_ninodes (w_sb W)) IPB ltac:(lia) ltac:(done)). unfold loggable, home. lia.
Qed.

Lemma data_loggable b : data_block W b -> loggable W b.
Proof.
  unfold data_block, loggable, home. destruct LY as [? ? ? ? ?].
  pose proof (Z.div_pos (sb_ninodes (w_sb W)) IPB ltac:(lia) ltac:(done)).
  pose proof (Z.div_pos (sb_size (w_sb W)) BPB ltac:(lia) ltac:(done)). lia.
Qed.

(** Which bit of which block. *)
Lemma bitmap_inj b x : 0 <= b < sb_size (w_sb W) -> 0 <= x < sb_size (w_sb W) ->
  bitmap_of W x = bitmap_of W b -> x mod BPB = b mod BPB -> x = b.
Proof.
  intros Hb Hx. rewrite !bitmap_of_eq by done. intros E Em.
  rewrite (Z.div_mod x BPB), (Z.div_mod b BPB) by done. f_equal; [f_equal|]; lia.
Qed.

(** Marking changes the bit of [b] only, whatever is written to data blocks. *)
Lemma is_free_upd V b d x v :
  0 <= b < sb_size (w_sb W) -> 0 <= x < sb_size (w_sb W) ->
  (bit_free d (x mod BPB) = if decide (x mod BPB = b mod BPB) then v else bit_free (V (bitmap_of W b)) (x mod BPB)) ->
  is_free W (disk_upd V (bitmap_of W b) d) x = if decide (x = b) then v else is_free W V x.
Proof.
  intros Hb Hx Hd. unfold is_free. destruct (decide (bitmap_of W x = bitmap_of W b)) as [E|E].
  - rewrite E, disk_upd_eq, Hd. case_decide as Em; case_decide as Ex; try done.
    + exfalso. apply Ex. by apply bitmap_inj.
    + subst x. done.
  - rewrite disk_upd_ne by done. rewrite decide_False; [done|]. by intros ->.
Qed.

Lemma is_free_mark V b x : disk_ok W V -> 0 <= b < sb_size (w_sb W) -> 0 <= x < sb_size (w_sb W) ->
  is_free W (disk_upd V (bitmap_of W b) (mark b (V (bitmap_of W b)))) x = if decide (x = b) then false else is_free W V x.
Proof.
  intros D Hb Hx. apply is_free_upd; [done..|]. apply bit_free_mark. apply D.
  pose proof (bitmap_range b Hb). destruct LY. lia.
Qed.
Lemma is_free_unmark V b x : disk_ok W V -> 0 <= b < sb_size (w_sb W) -> 0 <= x < sb_size (w_sb W) ->
  is_free W (disk_upd V (bitmap_of W b) (unmark b (V (bitmap_of W b)))) x = if decide (x = b) then true else is_free W V x.
Proof.
  intros D Hb Hx. apply is_free_upd; [done..|]. apply bit_free_unmark. apply D.
  pose proof (bitmap_range b Hb). destruct LY. lia.
Qed.

Lemma is_free_data V b d x : 0 <= x < sb_size (w_sb W) -> w_data W <= b -> is_free W (disk_upd V b d) x = is_free W V x.
Proof. intros Hx Hb. unfold is_free. rewrite disk_upd_ne; [done|]. pose proof (bitmap_range x Hx). lia. Qed.

Lemma disk_ok_upd V b d : disk_ok W V -> is_block d -> w_data W <= b -> disk_ok W (disk_upd V b d).
Proof.
  intros [Hb Hm] Hd Hdat. split.
  - intros x Hx. unfold disk_upd. destruct (x =? b); auto.
  - intros x Hx. rewrite is_free_data; [by apply Hm| |done]. destruct LY. lia.
Qed.
Lemma disk_ok_mark V b : disk_ok W V -> 0 <= b < sb_size (w_sb W) ->
  disk_ok W (disk_upd V (bitmap_of W b) (mark b (V (bitmap_of W b)))).
Proof.
  intros D Hb. pose proof D as [Hk Hm]. split.
  - intros x Hx. unfold disk_upd. destruct (x =? bitmap_of W b) eqn:E; [|auto]. unfold is_block. rewrite length_mark. apply Hk.
    bsplit. by subst x.
  - intros x Hx. rewrite is_free_mark; [|done..|destruct LY; lia]. case_decide; [done|by apply Hm].
Qed.
Lemma disk_ok_unmark V b : disk_ok W V -> data_block W b ->
  disk_ok W (disk_upd V (bitmap_of W b) (unmark b (V (bitmap_of W b)))).
Proof.
  intros D Hb. pose proof D as [Hk Hm]. pose proof (data_loggable b Hb) as [? _]. unfold data_block in Hb. split.
  - intros x Hx. unfold disk_upd. destruct (x =? bitmap_of W b) eqn:E; [|auto]. unfold is_block. rewrite length_unmark. apply Hk.
    bsplit. by subst x.
  - intros x Hx. rewrite is_free_unmark; [|done|lia|destruct LY; lia]. rewrite decide_False by lia. by apply Hm.
Qed.
End layout.

(** ** Allocation *)

Lemma scan_bits_spec n d b bi size :
  match scan_bits n d b bi size with
  | Some x => bi <= x < BPB /\ b + x < size /\ bit_free d x = true /\ forall y, bi <= y < x -> bit_free d y = false
  | None => forall y, bi <= y < bi + Z.of_nat n -> y < BPB -> b + y < size -> bit_free d y = false
  end.
Proof.
  revert bi. induction n as [|n IH]; intros bi; cbn [scan_bits]; [intros; lia|].
  destruct ((bi <? BPB) && (b + bi <? size)) eqn:E; bsplit; [|intros; lia].
  destruct (bit_free d bi) eqn:Ef; [split_and!; try done; try lia|]. specialize (IH (bi + 1)).
  destruct (scan_bits n d b (bi + 1) size) as [x|].
  - destruct IH as (? & ? & ? & Hy). split_and!; try done; try lia. intros y Hy'.
    destruct (decide (y = bi)) as [->|]; [done|]. apply Hy. lia.
  - intros y Hy1 Hy2 Hy3. destruct (decide (y = bi)) as [->|]; [done|]. apply IH; lia.
Qed.

(** The disk after [b] is allocated. *)
Definition alloc_block (W : world) (b : Z) (V : disk) : disk :=
  disk_upd (disk_upd V (bitmap_of W b) (mark b (V (bitmap_of W b)))) b (replicate (Z.to_nat BSIZE) 0).

Section balloc.
Context {S : Type} `{!BlockCache S} {W : world} (LY : layout W).
Local Abbreviation F := (fs S).

Lemma bzero_run (f : F) V H bs b :
  txn W (flog f) V H bs -> H !! b = None -> loggable W b -> (length bs + size H < NBUF)%nat ->
  Z.of_nat (length bs) < w_nlog W - 1 ->
  exists l', bzero ROOTDEV b f = Ret () (set_flog l' f) /\
    txn W l' (disk_upd V b (replicate (Z.to_nat BSIZE) 0)) H (add_block b bs).
Proof.
  intros T Hb Hl Hroom Hlog. unfold bzero.
  destruct (fbread_run W f V H bs b T Hb) as (i & l1 & E1 & T1); [apply Hl|done|].
  rewrite (bind_ret _ _ _ _ _ E1). pose proof (lookup_insert_eq H b i) as Hi.
  destruct (fset_run W (set_flog l1 f) _ _ _ _ _ (replicate (Z.to_nat BSIZE) 0) T1 Hi) as (l2 & E2 & T2). rewrite (bind_ret _ _ _ _ _ E2).
  destruct (flog_write_run W (set_flog l2 f) _ _ _ _ _ T2 Hi Hl Hlog) as (l3 & E3 & T3).
  change (set_flog l2 (set_flog l1 f)) with (set_flog l2 f). rewrite (bind_ret _ _ _ _ _ E3).
  destruct (fbrelse_run W (set_flog l3 f) _ _ _ _ _ T3 Hi) as (l4 & E4 & T4); [left; apply elem_of_add_block; by left|].
  rewrite delete_insert_id in T4 by done. exists l4. done.
Qed.

Lemma BBLOCK_base b bi : 0 <= bi < BPB -> b mod BPB = 0 -> 0 <= b -> b + bi < sb_size (w_sb W) ->
  BBLOCK b (w_sb W) = bitmap_of W (b + bi) /\ (b + bi) mod BPB = bi.
Proof.
  intros Hbi Hm Hb Hlt. rewrite (bitmap_of_eq LY) by lia. change (BBLOCK b (w_sb W)) with (bitmap_of W b).
  rewrite (bitmap_of_eq LY) by lia. assert (b = b / BPB * BPB) as Eb by (rewrite (Z.div_mod b BPB) at 1 by done; lia).
  assert ((b + bi) / BPB = b / BPB) as -> by (rewrite Eb at 1; rewrite Z.div_add_l, (Z.div_small bi) by (done || lia); lia).
  split; [lia|]. rewrite Eb, Z.add_comm, Z.mod_add by done. by apply Z.mod_small.
Qed.

(** The turn that finds a free bit... *)
Lemma balloc_take (f : F) V H bs b bi :
  txn W (flog f) V H bs -> data_block W (b + bi) -> b mod BPB = 0 -> 0 <= b -> 0 <= bi < BPB ->
  H !! bitmap_of W b = None -> H !! (b + bi) = None ->
  (length bs + size H + 1 < NBUF)%nat -> Z.of_nat (length bs) + 1 < w_nlog W - 1 ->
  exists l', (let* bp := fbread ROOTDEV (bitmap_of W b) in
      let* d := fdata bp in
      fset bp (alter (fun x => Z.lor x (bit_mask bi)) (Z.to_nat (bi / 8)) d) ;;;
      flog_write bp ;;; fbrelse bp ;;; bzero ROOTDEV (b + bi) ;;; ret (b + bi)) f = Ret (b + bi) (set_flog l' f) /\
    txn W l' (alloc_block W (b + bi) V) H (add_block (b + bi) (add_block (bitmap_of W (b + bi)) bs)).
Proof.
  intros T Hd Hm Hb Hbi HHb HHx Hroom Hlog. pose proof (data_loggable LY _ Hd) as Hl. unfold data_block in Hd.
  pose proof (BBLOCK_base b bi Hbi Hm Hb) as [HB Hmod]; [lia|]. change (BBLOCK b (w_sb W)) with (bitmap_of W b) in HB.
  assert (loggable W (bitmap_of W b)) as Hbl by (apply (bitmap_range LY); lia).
  destruct (rewrite_run W f V H bs (bitmap_of W b) (mark (b + bi)) (bzero ROOTDEV (b + bi) ;;; ret (b + bi)) T HHb Hbl) as (l1 & E1 & T1); [lia..|].
  unfold mark in E1. rewrite Hmod in E1. rewrite E1. pose proof (length_add_block (bitmap_of W b) bs).
  destruct (bzero_run (set_flog l1 f) _ _ _ (b + bi) T1 HHx Hl) as (l2 & E2 & T2); [lia..|].
  exists l2. rewrite (bind_ret _ _ _ _ _ E2). split; [done|]. unfold alloc_block. by rewrite <- HB.
Qed.

Lemma scan_then {A} (f : F) V H bs b (k : nat -> block -> M F A) k' :
  txn W (flog f) V H bs -> H !! b = None -> b < w_size W -> (length bs + size H < NBUF)%nat ->
  (forall bp s, k bp (V b) s = k' bp (V b) s) ->
  (let* bp := fbread ROOTDEV b in let* d := fdata bp in k bp d) f = (let* bp := fbread ROOTDEV b in let* d := fdata bp in k' bp d) f.
Proof.
  intros T Hb Hlt Hroom Hk. destruct (fbread_run W f V H bs b T Hb Hlt Hroom) as (i & l1 & E1 & T1).
  rewrite !(bind_ret _ _ _ _ _ E1). pose proof (lookup_insert_eq H b i) as Hi.
  rewrite !(bind_ret _ _ _ _ _ (fdata_run W (set_flog l1 f) _ _ _ _ _ T1 Hi)). by rewrite Hk.
Qed.

(** ... and what a scan says about the blocks of its bitmap block. *)
Lemma scan_free V b x : b mod BPB = 0 -> 0 <= b <= x -> x < b + BPB -> x < sb_size (w_sb W) ->
  is_free W V x = bit_free (V (bitmap_of W b)) (x - b).
Proof.
  intros Hm Hx Hxb Hs. destruct (BBLOCK_base b (x - b)) as [HBx Hmx]; [lia..|]. replace (b + (x - b)) with x in * by lia.
  change (BBLOCK b (w_sb W)) with (bitmap_of W b) in HBx. unfold is_free. by rewrite <- HBx, Hmx.
Qed.

Lemma balloc_loop_run (f : F) V H bs fuel b :
  txn W (flog f) V H bs -> sb f = w_sb W -> disk_ok W V -> b mod BPB = 0 -> 0 <= b ->
  (forall x, 0 <= x < sb_size (w_sb W) -> H !! bitmap_of W x = None) ->
  (forall x, 0 <= x < b -> is_free W V x = false) ->
  (exists x, b <= x < sb_size (w_sb W) /\ is_free W V x = true) ->
  (forall x, data_block W x -> is_free W V x = true -> H !! x = None) ->
  sb_size (w_sb W) <= b + Z.of_nat fuel * BPB ->
  (length bs + size H + 1 < NBUF)%nat -> Z.of_nat (length bs) + 1 < w_nlog W - 1 ->
  exists x l', balloc_loop fuel ROOTDEV b f = Ret x (set_flog l' f) /\ data_block W x /\ is_free W V x = true /\
    (forall y, 0 <= y < x -> is_free W V y = false) /\
    txn W l' (alloc_block W x V) H (add_block x (add_block (bitmap_of W x) bs)).
Proof.
  revert f b. induction fuel as [|fuel IH]; intros f b T Hsb D Hm Hb HHb Hlow (x0 & Hx0 & Hf0) HHf Hfuel Hroom Hlog; [lia|].
  cbn [balloc_loop]. rewrite bind_get, Hsb. rewrite (proj2 (Z.ltb_lt _ _)) by lia.
  assert (0 <= b < sb_size (w_sb W)) as Hbr by lia. destruct (bitmap_range LY b Hbr) as [Hbm Hbl].
  change (BBLOCK b (w_sb W)) with (bitmap_of W b).
  pose proof (scan_bits_spec (Z.to_nat BPB) (V (bitmap_of W b)) b 0 (sb_size (w_sb W))) as Hscan.
  destruct (scan_bits _ _ _ _ _) as [bi|] eqn:Es.
  - destruct Hscan as (Hbi & Hlt & Hfree & Hfirst).
    assert (is_free W V (b + bi) = true) as Hfx by (rewrite (scan_free V b) by lia; by replace (b + bi - b) with bi by lia).
    assert (data_block W (b + bi)) as Hdx.
    { split; [|lia]. destruct (decide (w_data W <= b + bi)); [done|]. rewrite (dk_meta W V D) in Hfx by lia. done. }
    destruct (balloc_take f V H bs b bi T Hdx Hm Hb Hbi) as (l1 & E1 & T1); [by apply HHb|by apply HHf|lia..|].
    exists (b + bi), l1. split; [|split_and!; [apply Hdx..|done| |done]].
    + rewrite <- E1. apply (scan_then f V H bs); [done|by apply HHb|apply Hbl|lia|]. intros bp s. by rewrite Es.
    + intros y Hy. destruct (decide (y < b)); [apply Hlow; lia|]. rewrite (scan_free V b) by lia. apply Hfirst. lia.
  - assert (forall x, b <= x < b + BPB -> x < sb_size (w_sb W) -> is_free W V x = false) as Hnone.
    { intros x Hx Hxs. rewrite (scan_free V b) by lia. apply Hscan; unfold BPB, BSIZE in *; lia. }
    assert (b + BPB <= x0) as Hx0' by (destruct (decide (x0 < b + BPB)); [|lia]; rewrite Hnone in Hf0 by lia; done).
    destruct (fbread_run W f V H bs (bitmap_of W b) T) as (i & l1 & E1 & T1); [by apply HHb|apply Hbl|lia|].
    rewrite (bind_ret _ _ _ _ _ E1). pose proof (lookup_insert_eq H (bitmap_of W b) i) as Hi.
    rewrite (bind_ret _ _ _ _ _ (fdata_run W (set_flog l1 f) _ _ _ _ _ T1 Hi)), Es.
    destruct (fbrelse_run W (set_flog l1 f) _ _ _ _ _ T1 Hi) as (l2 & E2 & T2).
    { apply (txn_clean W _ _ _ _ _ T). by apply HHb. }
    rewrite delete_insert_id in T2 by (by apply HHb). rewrite (bind_ret _ _ _ _ _ E2).
    change (set_flog l2 (set_flog l1 f)) with (set_flog l2 f).
    apply (IH (set_flog l2 f) (b + BPB) T2); try done; try lia.
    + rewrite Z.add_mod, Z.mod_same, Hm by done. done.
    + unfold BPB, BSIZE in *. lia.
    + intros x Hx. destruct (decide (x < b)); [apply Hlow; lia|]. apply Hnone; lia.
    + exists x0. split; [lia|done].
Qed.

Lemma balloc_run (f : F) V H bs :
  txn W (flog f) V H bs -> sb f = w_sb W -> disk_ok W V ->
  (forall x, 0 <= x < sb_size (w_sb W) -> H !! bitmap_of W x = None) ->
  (forall x, data_block W x -> is_free W V x = true -> H !! x = None) ->
  (exists x, 0 <= x < sb_size (w_sb W) /\ is_free W V x = true) ->
  (length bs + size H + 1 < NBUF)%nat -> Z.of_nat (length bs) + 1 < w_nlog W - 1 ->
  exists x l', balloc ROOTDEV f = Ret x (set_flog l' f) /\ data_block W x /\ is_free W V x = true /\
    (forall y, 0 <= y < x -> is_free W V y = false) /\
    txn W l' (alloc_block W x V) H (add_block x (add_block (bitmap_of W x) bs)).
Proof.
  intros T Hsb D HHb HHf Hex Hroom Hlog. unfold balloc. rewrite bind_get, Hsb.
  apply balloc_loop_run; try done; [intros; lia|]. destruct Hex as (x & Hx & _).
  pose proof (Z.div_mod (sb_size (w_sb W)) BPB ltac:(done)). pose proof (Z.mod_pos_bound (sb_size (w_sb W)) BPB ltac:(done)).
  pose proof (Z.div_pos (sb_size (w_sb W)) BPB ltac:(lia) ltac:(done)). change BPB with 4096 in *. lia.
Qed.

Lemma bfree_run (f : F) V H bs b :
  txn W (flog f) V H bs -> sb f = w_sb W -> data_block W b -> is_free W V b = false ->
  H !! bitmap_of W b = None -> (length bs + size H < NBUF)%nat -> Z.of_nat (length bs) < w_nlog W - 1 ->
  exists l', bfree ROOTDEV b f = Ret () (set_flog l' f) /\
    txn W l' (disk_upd V (bitmap_of W b) (unmark b (V (bitmap_of W b)))) H (add_block (bitmap_of W b) bs).
Proof.
  intros T Hsb Hd Hf HH Hroom Hlog. unfold bfree. rewrite bind_get, Hsb. change (BBLOCK b (w_sb W)) with (bitmap_of W b).
  pose proof (data_loggable LY b Hd) as [? _]. destruct Hd as [_ ?].
  destruct (bitmap_range LY b) as [_ Hbl]; [lia|].
  destruct (rewrite_end_run W f V H bs (bitmap_of W b) (unmark b) T HH Hbl Hroom Hlog) as (l' & E & T').
  exists l'. split; [|done]. rewrite <- E. apply (scan_then f V H bs); [done|done|apply Hbl|done|].
  intros bp s. unfold is_free in Hf. by rewrite Hf.
Qed.
End balloc.

Section alloc.
Context {W : world} (LY : layout W).

Lemma alloc_ok V b : disk_ok W V -> data_block W b -> disk_ok W (alloc_block W b V).
Proof.
  intros D Hb. pose proof (data_loggable LY b Hb) as [? _]. destruct Hb as [? ?].
  apply (disk_ok_upd LY); [apply (disk_ok_mark LY); [done|lia]|apply length_replicate|done].
Qed.

Lemma alloc_free V b x : disk_ok W V -> data_block W b -> 0 <= x < sb_size (w_sb W) ->
  is_free W (alloc_block W b V) x = if decide (x = b) then false else is_free W V x.
Proof.
  intros D Hb Hx. pose proof (data_loggable LY b Hb) as [? _]. destruct Hb as [? ?]. unfold alloc_block.
  rewrite (is_free_data LY) by done. apply (is_free_mark LY); [done|lia|done].
Qed.

Lemma alloc_data V b x : data_block W x -> x <> b -> 0 <= b < sb_size (w_sb W) -> alloc_block W b V x = V x.
Proof.
  intros Hx Hne Hb. unfold alloc_block. rewrite disk_upd_ne by done. apply disk_upd_ne.
  destruct (bitmap_range LY b Hb). destruct Hx. lia.
Qed.
Lemma alloc_new V b : alloc_block W b V b = replicate (Z.to_nat BSIZE) 0.
Proof. apply disk_upd_eq. Qed.
End alloc.
