(* ===== verification/FsFile.v ===== *)
(** * The contents of a file

    [bmap], [readi] and [writei] of fs.c.  An inode points to its blocks by 136
    slots: 0 to 6 are the direct blocks, 7 the indirect block and 8 to 135 the
    entries of the indirect block.  A file is a function from offsets to
    bytes, where a block that is not there reads as zeros. *)

From stdpp Require Import gmap.
From S2P Require Import Prelude CString Block Bio Log LogCrash Users Fs FsTxn FsBlocks.
Open Scope Z_scope.

Definition SLOTS : nat := 136.
Definition IND : nat := 7.

Definition ptr (V : disk) (i : inode) (k : nat) : Z :=
  if (k <=? IND)%nat then iaddrs i !!! k
  else if iaddrs i !!! IND =? 0 then 0 else word_at (V (iaddrs i !!! IND)) (4 * (k - 8)).

(** The slot of block [bn] of the file. *)
Definition slot (bn : Z) : nat := if bn <? Z.of_nat NDIRECT then Z.to_nat bn else Z.to_nat bn + 1.

Definition fbyte (V : disk) (i : inode) (o : Z) : Z :=
  let b := ptr V i (slot (o / BSIZE)) in if b =? 0 then 0 else V b !!! Z.to_nat (o mod BSIZE).

(** The blocks of an inode are distinct data blocks in use. *)
Record file_ok (W : world) (V : disk) (i : inode) : Prop := {
  fo_len : length (iaddrs i) = 8%nat;
  fo_dev : idev i = ROOTDEV;
  fo_ptr : forall k, (k < SLOTS)%nat -> ptr V i k <> 0 -> data_block W (ptr V i k) /\ is_free W V (ptr V i k) = false;
  fo_inj : forall k k', (k < SLOTS)%nat -> (k' < SLOTS)%nat -> ptr V i k <> 0 -> ptr V i k = ptr V i k' -> k = k' }.

Definition owned (V : disk) (i : inode) (x : Z) : Prop := exists k, (k < SLOTS)%nat /\ ptr V i k = x /\ x <> 0.
Definition bitmap_block (W : world) (x : Z) : Prop := exists b, 0 <= b < sb_size (w_sb W) /\ x = bitmap_of W b.
(** The blocks an operation on the file [i] must leave alone. *)
Definition others (W : world) (V : disk) (i : inode) (x : Z) : Prop :=
  0 <= x < sb_size (w_sb W) /\ ~ bitmap_block W x /\ ~ owned V i x /\ is_free W V x = false.

(** The file keeps its blocks and may get new ones; nothing else changes. *)
Record extends (W : world) (V : disk) (i : inode) (V' : disk) (i' : inode) : Prop := {
  gr_disk : disk_ok W V';
  gr_file : file_ok W V' i';
  gr_inode : i' = set_iaddrs (iaddrs i') i;
  gr_ptr : forall k, (k < SLOTS)%nat -> ptr V i k <> 0 -> ptr V' i' k = ptr V i k;
  gr_fresh : forall k, (k < SLOTS)%nat -> ptr V' i' k <> 0 -> ptr V i k = ptr V' i' k \/ is_free W V (ptr V' i' k) = true;
  gr_frame : forall x, others W V i x -> V' x = V x;
  gr_used : forall x, 0 <= x < sb_size (w_sb W) -> is_free W V x = false -> is_free W V' x = false;
  gr_leak : forall x, 0 <= x < sb_size (w_sb W) -> is_free W V x = true -> is_free W V' x = false -> owned V' i' x }.
(** The new blocks are zeros, and the file keeps its bytes. *)
Record grows (W : world) (V : disk) (i : inode) (V' : disk) (i' : inode) : Prop := {
  gr_ext : extends W V i V' i';
  gr_byte : forall o, 0 <= o < MAXFILE * BSIZE -> fbyte V' i' o = fbyte V i o }.

Lemma set_iaddrs_id i : set_iaddrs (iaddrs i) i = i.
Proof. by destruct i. Qed.
Lemma set_iaddrs_twice a b i : set_iaddrs a (set_iaddrs b i) = set_iaddrs a i.
Proof. done. Qed.

Lemma slot_range bn : 0 <= bn < MAXFILE -> (slot bn < SLOTS)%nat /\ slot bn <> IND.
Proof.
  unfold slot, SLOTS, IND, MAXFILE, NINDIRECT, BSIZE, NDIRECT. intros Hb.
  change (512 / 4) with 128 in Hb. destruct (bn <? Z.of_nat 7) eqn:E; bsplit; lia.
Qed.

Lemma offset_block o : 0 <= o < MAXFILE * BSIZE -> 0 <= o / BSIZE < MAXFILE /\ (Z.to_nat (o mod BSIZE) < Z.to_nat BSIZE)%nat.
Proof.
  intros Ho. pose proof (Z.mod_pos_bound o BSIZE ltac:(done)). split; [|lia].
  split; [apply Z.div_pos; [lia|done]|apply Z.div_lt_upper_bound; [done|lia]].
Qed.

Section grows.
Context {W : world} (LY : layout W).

Lemma extends_refl V i : disk_ok W V -> file_ok W V i -> extends W V i V i.
Proof. intros D Fo. split; try done; [by rewrite set_iaddrs_id|auto|intros x _ E E'; by rewrite E in E']. Qed.

Lemma extends_others V i V' i' x : extends W V i V' i' -> others W V i x -> others W V' i' x.
Proof.
  intros G (Hx & Hb & Ho & Hf). split_and!; [apply Hx..|done| |by apply (gr_used _ _ _ _ _ G)].
  intros (k & Hk & E & Hx0). subst x. destruct (gr_fresh _ _ _ _ _ G k Hk Hx0) as [E|E]; [|by rewrite E in Hf].
  apply Ho. exists k. by rewrite E.
Qed.

Lemma extends_trans V i V1 i1 V2 i2 : extends W V i V1 i1 -> extends W V1 i1 V2 i2 -> extends W V i V2 i2.
Proof.
  intros G1 G2. split; try apply G2.
  - rewrite (gr_inode _ _ _ _ _ G2) at 1. rewrite (gr_inode _ _ _ _ _ G1). apply set_iaddrs_twice.
  - intros k Hk Hp. rewrite (gr_ptr _ _ _ _ _ G2); [by apply (gr_ptr _ _ _ _ _ G1)|done|]. by rewrite (gr_ptr _ _ _ _ _ G1).
  - intros k Hk Hp. destruct (gr_fresh _ _ _ _ _ G2 k Hk Hp) as [E|E].
    + rewrite <- E in *. by apply (gr_fresh _ _ _ _ _ G1).
    + right. destruct (is_free W V (ptr V2 i2 k)) eqn:Ef; [done|]. rewrite (gr_used _ _ _ _ _ G1) in E; [done| |done].
      destruct (fo_ptr _ _ _ (gr_file _ _ _ _ _ G2) k Hk Hp) as [Hd _]. pose proof (data_loggable LY _ Hd) as [? _]. destruct Hd. lia.
  - intros x Hx. rewrite (gr_frame _ _ _ _ _ G2); [by apply (gr_frame _ _ _ _ _ G1)|by eapply extends_others].
  - intros x Hx Hf. apply (gr_used _ _ _ _ _ G2); [done|]. by apply (gr_used _ _ _ _ _ G1).
  - intros x Hx Hf Hf2. destruct (is_free W V1 x) eqn:Ef; [by apply (gr_leak _ _ _ _ _ G2)|].
    destruct (gr_leak _ _ _ _ _ G1 x Hx Hf Ef) as (k & Hk & E & Hx0). exists k. split; [done|]. split; [|done].
    rewrite (gr_ptr _ _ _ _ _ G2); [done|done|]. by rewrite E.
Qed.

Lemma grows_refl V i : disk_ok W V -> file_ok W V i -> grows W V i V i.
Proof. intros D Fo. split; [by apply extends_refl|done]. Qed.
Lemma grows_trans V i V1 i1 V2 i2 : grows W V i V1 i1 -> grows W V1 i1 V2 i2 -> grows W V i V2 i2.
Proof. intros [G1 B1] [G2 B2]. split; [by eapply extends_trans|]. intros o Ho. by rewrite B2, B1. Qed.

(** One new block [x] in slot [k]. *)
Lemma grows_fill V i V' i' k x :
  file_ok W V i -> disk_ok W V' -> i' = set_iaddrs (iaddrs i') i -> length (iaddrs i') = 8%nat ->
  (k < SLOTS)%nat -> ptr V i k = 0 -> data_block W x -> is_free W V x = true ->
  (forall j, (j < SLOTS)%nat -> ptr V' i' j = if decide (j = k) then x else ptr V i j) ->
  (forall y, 0 <= y < sb_size (w_sb W) -> is_free W V' y = if decide (y = x) then false else is_free W V y) ->
  (forall y, 0 <= y < sb_size (w_sb W) -> ~ bitmap_block W y -> y <> x -> (y = ptr V i IND -> y = 0) -> V' y = V y) ->
  V' x = replicate (Z.to_nat BSIZE) 0 ->
  grows W V i V' i'.
Proof.
  intros Fo D Ei Hl Hk Hpk Hx Hfx Hptr Hfree Hframe Hzero.
  assert (forall b, data_block W b -> 0 < b < sb_size (w_sb W)) as Hpos.
  { intros b [? ?]. destruct LY as [_ _ _ ? _]. lia. }
  assert (forall b, data_block W b -> ~ bitmap_block W b) as Hnb.
  { intros b [? _] (y & Hy & ->). pose proof (bitmap_range LY y Hy). lia. }
  assert (forall j, (j < SLOTS)%nat -> ptr V i j <> x) as Hne.
  { intros j Hj E. assert (ptr V i j <> 0) as H0 by (pose proof (Hpos x Hx); lia).
    destruct (fo_ptr _ _ _ Fo j Hj H0) as [_ Hf]. by rewrite E, Hfx in Hf. }
  pose proof (Hpos x Hx) as Hx0.
  split; [split; [done| |done|..]|].
  - split; [done|rewrite Ei; apply Fo| |].
    + intros j Hj. rewrite Hptr by done. case_decide; intros Hp.
      * split; [done|]. by rewrite Hfree, decide_True by lia.
      * destruct (fo_ptr _ _ _ Fo j Hj Hp) as [Hd Hf]. split; [done|]. rewrite Hfree by (pose proof (Hpos _ Hd); lia). by rewrite decide_False by (by apply Hne).
    + intros j j' Hj Hj'. rewrite !Hptr by done. repeat case_decide; intros Hp E; try congruence.
      * symmetry in E. by apply Hne in E.
      * by apply Hne in E.
      * by apply (fo_inj _ _ _ Fo).
  - intros j Hj Hp. rewrite Hptr by done. case_decide; congruence.
  - intros j Hj. rewrite Hptr by done. case_decide; [right; congruence|by left].
  - intros y (Hy & Hyb & Hyo & Hyf). apply Hframe; [done|done|congruence|]. intros E. destruct (decide (y = 0)); [done|].
    exfalso. apply Hyo. exists IND. split; [unfold IND, SLOTS; lia|done].
  - intros y Hy Hf. rewrite Hfree by done. by case_decide.
  - intros y Hy Hf. rewrite Hfree by done. case_decide; [|congruence]. intros _. exists k. split; [done|].
    rewrite Hptr, decide_True by done. split; [done|lia].
  - intros o Ho. destruct (offset_block o Ho) as [Hb Hm]. destruct (slot_range _ Hb) as [Hs Hs7]. unfold fbyte.
    rewrite Hptr by done. set (t := slot (o / BSIZE)) in *. case_decide as Et.
    + subst k. rewrite Hpk, Hzero. replace (x =? 0) with false by lia. by rewrite lookup_total_replicate_2.
    + destruct (ptr V i t =? 0) eqn:E0; [done|]. bsplit. destruct (fo_ptr _ _ _ Fo t Hs E0) as [Hd Hf]. pose proof (Hpos _ Hd).
      rewrite Hframe; [done|lia|by apply Hnb|by apply Hne|]. intros E. exfalso. apply Hs7.
      apply (fo_inj _ _ _ Fo); [done|unfold IND, SLOTS; lia|done|done].
Qed.

Lemma data_pos x : data_block W x -> 0 < x < sb_size (w_sb W).
Proof. intros [? ?]. destruct LY as [_ _ _ ? _]. lia. Qed.
Lemma data_no_bitmap b : data_block W b -> ~ bitmap_block W b.
Proof. intros [? _] (y & Hy & ->). pose proof (bitmap_range LY y Hy). lia. Qed.

Lemma word_at_zeros n off : (off + 4 <= n)%nat -> word_at (replicate n 0) off = 0.
Proof. intros. unfold word_at, sub. by rewrite drop_replicate, take_replicate, Nat.min_l by lia. Qed.

Lemma alloc_other V x y : ~ bitmap_block W y -> y <> x -> 0 <= x < sb_size (w_sb W) -> alloc_block W x V y = V y.
Proof. intros Hy Hne Hx. unfold alloc_block. rewrite !disk_upd_ne; [done| |done]. intros ->. apply Hy. by exists x. Qed.

Lemma ind_data V i : file_ok W V i -> iaddrs i !!! IND <> 0 -> data_block W (iaddrs i !!! IND) /\ is_free W V (iaddrs i !!! IND) = false.
Proof. intros Fo. apply (fo_ptr _ _ _ Fo IND). unfold IND, SLOTS. lia. Qed.

Lemma grows_direct V i k x :
  file_ok W V i -> disk_ok W V -> (k <= IND)%nat -> ptr V i k = 0 -> data_block W x -> is_free W V x = true ->
  grows W V i (alloc_block W x V) (set_iaddrs (<[k := x]> (iaddrs i)) i).
Proof.
  intros Fo D Hk Hp Hx Hf. pose proof (data_pos x Hx) as Hx0. pose proof (fo_len _ _ _ Fo) as Hl. unfold IND in Hk.
  apply (grows_fill V i _ _ k x); try done.
  - by apply (alloc_ok LY).
  - cbn [iaddrs set_iaddrs]. by rewrite length_insert.
  - unfold SLOTS. lia.
  - intros j Hj. unfold ptr in *. cbn [iaddrs set_iaddrs]. rewrite (proj2 (Nat.leb_le k IND)) in Hp by (unfold IND; lia).
    destruct (Nat.leb_spec j IND).
    + case_decide as E; [subst j; apply list_lookup_total_insert_eq; lia|]. by apply list_lookup_total_insert_ne.
    + unfold IND in *. rewrite decide_False by lia. destruct (decide (k = 7%nat)) as [->|Hk7].
      * rewrite list_lookup_total_insert_eq by lia. rewrite Hp. replace (x =? 0) with false by lia. cbn [Z.eqb].
        rewrite alloc_new, word_at_zeros; [done|]. unfold SLOTS in Hj. change (Z.to_nat BSIZE) with 512%nat. lia.
      * rewrite list_lookup_total_insert_ne by done. destruct (_ =? 0) eqn:E0; [done|]. bsplit.
        destruct (ind_data V i Fo E0) as [Hd Hfi]. rewrite (alloc_data LY); [done|done| |lia]. intros E. unfold IND in *. congruence.
  - intros y Hy. by apply (alloc_free LY).
  - intros y Hy Hyb Hne _. apply alloc_other; [done|done|lia].
  - apply alloc_new.
Qed.

Lemma grows_indirect V i k x :
  let ind := iaddrs i !!! IND in
  let V1 := alloc_block W x V in
  file_ok W V i -> disk_ok W V -> (8 <= k < SLOTS)%nat -> ind <> 0 -> ptr V i k = 0 -> data_block W x -> is_free W V x = true ->
  grows W V i (disk_upd V1 ind (put_word (V1 ind) (4 * (k - 8)) x)) i.
Proof.
  intros ind V1 Fo D Hk Hi Hp Hx Hf. pose proof (data_pos x Hx) as Hx0. destruct (ind_data V i Fo Hi) as [Hd Hfi]. fold ind in Hd, Hfi.
  assert (ind <> x) as Hne by (intros E; congruence). pose proof (data_pos ind Hd) as Hi0.
  assert (V1 ind = V ind) as Ev by (apply (alloc_data LY); [done|done|lia]).
  assert (length (V ind) = 512%nat) as Hlen by (apply (dk_block _ _ D); lia).
  assert (is_block (put_word (V1 ind) (4 * (k - 8)) x)) as Hblk.
  { unfold is_block. rewrite Ev, length_put_word; [done|]. rewrite Hlen. unfold SLOTS in Hk. lia. }
  pose proof (alloc_ok LY V x D Hx) as D1. destruct LY as [_ _ _ _ Hmax].
  apply (grows_fill V i _ _ k x); try done.
  - apply (disk_ok_upd LY); [done|done|apply Hd].
  - by rewrite set_iaddrs_id.
  - apply Fo.
  - lia.
  - intros j Hj. unfold ptr. destruct (Nat.leb_spec j IND) as [Hj7|Hj7]; unfold IND in *; [rewrite decide_False by lia; done|].
    fold ind. replace (ind =? 0) with false by lia. rewrite disk_upd_eq, Ev. case_decide as E.
    + subst j. rewrite word_at_put by (unfold SLOTS in Hk; lia). apply u32_small. lia.
    + apply word_at_put_other; unfold SLOTS in *; lia.
  - intros y Hy. rewrite (is_free_data LY); [by apply (alloc_free LY)|done|apply Hd].
  - intros y Hy Hyb Hyx Hyi. rewrite disk_upd_ne; [apply alloc_other; [done|done|lia]|]. intros E. change (ptr V i IND) with ind in Hyi. specialize (Hyi E). lia.
  - rewrite disk_upd_ne by done. apply alloc_new.
Qed.
End grows.

(** ** [bmap] *)

(** At least [n] blocks are free. *)
Definition avail (W : world) (V : disk) (n : nat) : Prop :=
  exists L : list Z, NoDup L /\ (n <= length L)%nat /\ forall x, x ∈ L -> 0 <= x < sb_size (w_sb W) /\ is_free W V x = true.

Lemma avail_le W V n m : (m <= n)%nat -> avail W V n -> avail W V m.
Proof. intros Hm (L & ? & ? & ?). exists L. split_and!; [done|lia|done]. Qed.

Lemma avail_less W V V' x n :
  (forall y, 0 <= y < sb_size (w_sb W) -> is_free W V' y = if decide (y = x) then false else is_free W V y) ->
  avail W V (Datatypes.S n) -> avail W V' n.
Proof.
  intros Hf (L & Hnd & Hl & HL). destruct (decide (x ∈ L)) as [Hx|Hx].
  - apply elem_of_Permutation in Hx as [L' HP]. rewrite HP in Hnd. apply NoDup_cons in Hnd as [Hx Hnd]. rewrite HP in Hl. simpl in Hl.
    exists L'. split_and!; [done|lia|]. intros y Hy. destruct (HL y) as [Hr Hfy]; [rewrite HP; set_solver|].
    split; [done|]. rewrite Hf, decide_False by (done || set_solver). done.
  - exists L. split_and!; [done|lia|]. intros y Hy. destruct (HL y Hy) as [Hr Hfy]. split; [done|].
    rewrite Hf, decide_False by (done || set_solver). done.
Qed.

Lemma slot_direct bn : 0 <= bn < Z.of_nat NDIRECT -> slot bn = Z.to_nat bn /\ (Z.to_nat bn < IND)%nat.
Proof. intros. unfold slot, NDIRECT, IND in *. rewrite (proj2 (Z.ltb_lt _ _)) by lia. lia. Qed.
Lemma slot_indirect bn : Z.of_nat NDIRECT <= bn < MAXFILE ->
  slot bn = (8 + Z.to_nat (bn - Z.of_nat NDIRECT))%nat /\ (slot bn < SLOTS)%nat.
Proof.
  intros Hb. pose proof (slot_range bn). unfold slot, NDIRECT in *. rewrite (proj2 (Z.ltb_ge _ _)) in * by lia. split; [lia|apply H; lia].
Qed.

(** What an operation on the file [i'] has added to the log. *)
Definition logged (W : world) (i' : inode) (bs : list Z) (addr : Z) (bs' : list Z) : Prop :=
  (length bs' <= length bs + 5)%nat /\
  forall y, y ∈ bs' -> y ∈ bs \/ bitmap_block W y \/ (y = iaddrs i' !!! IND /\ y <> 0) \/ y = addr.

Section bmap.
Context {S : Type} `{!BlockCache S} {W : world} (LY : layout W).
Local Abbreviation F := (fs S).

Definition upd_file (f : F) (ip : nat) (i : inode) (l : log S) : F := mkFs (sb f) (<[ip := i]> (icache f)) l (users f).

Lemma txn_room (l : log S) V H bs : txn W l V H bs -> Z.of_nat (length bs) < w_nlog W <= Z.of_nat NBUF.
Proof.
  intros [(a & _ & _ & _ & I & _) _ Hn _]. pose proof (li_lt _ _ _ I). destruct (li_geo _ _ _ I) as [? G ? ?].
  unfold LOGSIZE, MAXOPBLOCKS, NBUF in *. lia.
Qed.

Lemma alter_set (f : F) ip i (g : inode -> inode) : icache f !! ip = Some i -> alter g ip (icache f) = <[ip := g i]> (icache f).
Proof.
  intros E. apply list_eq. intros j. destruct (decide (j = ip)) as [->|Hj].
  - rewrite list_lookup_alter_eq, list_lookup_insert_eq by (by eapply lookup_lt_Some). by rewrite E.
  - by rewrite list_lookup_alter_ne, list_lookup_insert_ne.
Qed.
Lemma I_lookup (f : F) ip i : icache f !! ip = Some i -> I f ip = i.
Proof. intros E. unfold I. by apply list_lookup_total_correct. Qed.

(** Allocating a block for slot [k] of the inode itself. *)
Lemma set_slot_run (f : F) ip i V bs k :
  icache f !! ip = Some i -> sb f = w_sb W -> txn W (flog f) V ∅ bs -> disk_ok W V -> file_ok W V i ->
  (k <= IND)%nat -> ptr V i k = 0 -> avail W V 1 -> Z.of_nat (length bs) + 1 < w_nlog W - 1 ->
  exists x l', (let* addr := balloc (idev i) in
      modify (updi ip (fun i => set_iaddrs (<[k := addr]> (iaddrs i)) i)) ;;; ret addr) f
      = Ret x (upd_file f ip (set_iaddrs (<[k := x]> (iaddrs i)) i) l') /\
    data_block W x /\ is_free W V x = true /\
    txn W l' (alloc_block W x V) ∅ (add_block x (add_block (bitmap_of W x) bs)).
Proof.
  intros Hi Hsb T D Fo Hk Hp (L & _ & HL & Hfree) Hlog. pose proof (txn_room _ _ _ _ T) as Hroom.
  destruct (balloc_run LY f V ∅ bs T Hsb D) as (x & l' & E & Hd & Hf & _ & T').
  - intros. apply lookup_empty.
  - intros. apply lookup_empty.
  - destruct L as [|y L]; [simpl in HL; lia|]. exists y. apply Hfree. set_solver.
  - rewrite map_size_empty. lia.
  - lia.
  - exists x, l'. split; [|done]. rewrite (fo_dev _ _ _ Fo), (bind_ret _ _ _ _ _ E), bind_modify.
    unfold ret, upd_file, updi, set_icache. cbn [icache set_flog sb users flog]. by rewrite (alter_set f ip i).
Qed.

(** The part of [bmap] that looks into the indirect block, at entry [e]. *)
Definition find_entry (dv addr : Z) (e : nat) : M F Z :=
  let* bp := fbread dv addr in
  let* d := fdata bp in
  let addr := word_at d (4 * e) in
  let* addr :=
    (if addr =? 0 then
       let* addr := balloc dv in
       let* d := fdata bp in
       fset bp (put_word d (4 * e) addr) ;;;
       flog_write bp ;;;
       ret addr
     else ret addr) in
  fbrelse bp ;;;
  ret addr.

Lemma find_entry_old (f : F) V bs ind e :
  txn W (flog f) V ∅ bs -> data_block W ind -> word_at (V ind) (4 * e) <> 0 ->
  exists l', find_entry ROOTDEV ind e f = Ret (word_at (V ind) (4 * e)) (set_flog l' f) /\ txn W l' V ∅ bs.
Proof.
  intros T Hd Hp. pose proof (txn_room _ _ _ _ T) as Hroom. unfold find_entry.
  destruct (fbread_run W f V ∅ bs ind T) as (bp & l1 & E1 & T1);
    [apply lookup_empty|apply (data_loggable LY _ Hd)|rewrite map_size_empty; lia|].
  rewrite (bind_ret _ _ _ _ _ E1). pose proof (lookup_insert_eq (∅ : gmap Z nat) ind bp) as Hi.
  rewrite (bind_ret _ _ _ _ _ (fdata_run W (set_flog l1 f) _ _ _ _ _ T1 Hi)). cbv zeta. rewrite (proj2 (Z.eqb_neq _ _)) by done.
  destruct (fbrelse_run W (set_flog l1 f) _ _ _ _ _ T1 Hi) as (l2 & E2 & T2); [apply (txn_clean W _ _ _ _ _ T), lookup_empty|].
  rewrite delete_insert_id in T2 by apply lookup_empty. exists l2. split; [|done].
  rewrite (bind_ret _ _ _ (word_at (V ind) (4 * e)) (set_flog l1 f)) by done. by rewrite (bind_ret _ _ _ _ _ E2).
Qed.

Lemma find_entry_new (f : F) V bs ind e :
  txn W (flog f) V ∅ bs -> sb f = w_sb W -> disk_ok W V -> data_block W ind -> is_free W V ind = false -> word_at (V ind) (4 * e) = 0 ->
  avail W V 1 -> Z.of_nat (length bs) + 2 < w_nlog W - 1 ->
  exists x l', let V1 := alloc_block W x V in
    find_entry ROOTDEV ind e f = Ret x (set_flog l' f) /\ data_block W x /\ is_free W V x = true /\
    txn W l' (disk_upd V1 ind (put_word (V1 ind) (4 * e) x)) ∅ (add_block ind (add_block x (add_block (bitmap_of W x) bs))).
Proof.
  intros T Hsb D Hd Hfi Hp (L & _ & HL & Hfree) Hlog. pose proof (txn_room _ _ _ _ T) as Hroom. unfold find_entry.
  destruct (fbread_run W f V ∅ bs ind T) as (bp & l1 & E1 & T1);
    [apply lookup_empty|apply (data_loggable LY _ Hd)|rewrite map_size_empty; lia|].
  rewrite (bind_ret _ _ _ _ _ E1). pose proof (lookup_insert_eq (∅ : gmap Z nat) ind bp) as Hi.
  rewrite (bind_ret _ _ _ _ _ (fdata_run W (set_flog l1 f) _ _ _ _ _ T1 Hi)). cbv zeta. rewrite Hp, Z.eqb_refl.
  assert (size (<[ind := bp]> (∅ : gmap Z nat)) = 1%nat) as Hsz by (by rewrite map_size_insert_None, map_size_empty by apply lookup_empty).
  destruct (balloc_run LY (set_flog l1 f) V _ bs T1 Hsb D) as (x & l2 & E2 & Hdx & Hfx & _ & T2).
  - intros y Hy. rewrite lookup_insert_ne; [apply lookup_empty|]. intros E. destruct (bitmap_range LY y Hy) as [[_ Hlt] _]. destruct Hd. lia.
  - intros y _ Hfy. rewrite lookup_insert_ne; [apply lookup_empty|congruence].
  - destruct L as [|y L]; [simpl in HL; lia|]. exists y. apply Hfree. set_solver.
  - rewrite Hsz. lia.
  - lia.
  - change (set_flog l2 (set_flog l1 f)) with (set_flog l2 f) in E2.
    set (V1 := alloc_block W x V) in *. set (bs1 := add_block x (add_block (bitmap_of W x) bs)) in *.
    assert (length bs1 <= length bs + 2)%nat as Hb1.
    { unfold bs1. pose proof (length_add_block x (add_block (bitmap_of W x) bs)). pose proof (length_add_block (bitmap_of W x) bs). lia. }
    destruct (fset_run W (set_flog l2 f) _ _ _ _ _ (put_word (V1 ind) (4 * e) x) T2 Hi) as (l3 & E3 & T3).
    destruct (flog_write_run W (set_flog l3 f) _ _ _ _ _ T3 Hi (data_loggable LY _ Hd)) as (l4 & E4 & T4); [lia|].
    destruct (fbrelse_run W (set_flog l4 f) _ _ _ _ _ T4 Hi) as (l5 & E5 & T5); [left; apply elem_of_add_block; by left|].
    rewrite delete_insert_id in T5 by apply lookup_empty. exists x, l5. split; [|done].
    rewrite !bind_assoc. rewrite (bind_ret _ _ _ _ _ E2). rewrite bind_assoc.
    rewrite (bind_ret _ _ _ _ _ (fdata_run W (set_flog l2 f) _ _ _ _ _ T2 Hi)). rewrite bind_assoc, (bind_ret _ _ _ _ _ E3).
    rewrite bind_assoc, (bind_ret _ _ _ _ _ E4). unfold bind at 1, ret at 1. by rewrite (bind_ret _ _ _ _ _ E5).
Qed.

(** What [bmap] does for block [bn]: the block is there afterwards. *)
Definition bmap_result (f : F) (ip : nat) (i : inode) (V : disk) (bs : list Z) (bn : Z) (o : outcome F Z) : Prop :=
  exists i' V' bs' l', o = Ret (ptr V' i' (slot bn)) (upd_file f ip i' l') /\ txn W l' V' ∅ bs' /\
    grows W V i V' i' /\ ptr V' i' (slot bn) <> 0 /\ logged W i' bs (ptr V' i' (slot bn)) bs' /\
    (ptr V i (slot bn) <> 0 -> V' = V /\ i' = i /\ bs' = bs) /\
    (forall n, avail W V (n + 2) -> avail W V' n).

Lemma logged_two i' bs x : 0 <= x < sb_size (w_sb W) -> logged W i' bs x (add_block x (add_block (bitmap_of W x) bs)).
Proof.
  intros Hx. pose proof (length_add_block x (add_block (bitmap_of W x) bs)). pose proof (length_add_block (bitmap_of W x) bs).
  split; [lia|]. intros y. rewrite !elem_of_add_block. intros [->|[->|Hy]]; [auto| |auto]. right. left. by exists x.
Qed.

Lemma bmap_direct (f : F) ip i V bs bn :
  icache f !! ip = Some i -> sb f = w_sb W -> txn W (flog f) V ∅ bs -> disk_ok W V -> file_ok W V i ->
  0 <= bn < Z.of_nat NDIRECT ->
  (ptr V i (slot bn) = 0 -> avail W V 2 /\ Z.of_nat (length bs) + 4 < w_nlog W - 1) ->
  bmap_result f ip i V bs bn (bmap ip bn f).
Proof.
  intros Hi Hsb T D Fo Hb Hnew. destruct (slot_direct bn Hb) as [Es Hk]. unfold bmap. rewrite bind_get, (I_lookup f ip i Hi).
  rewrite (proj2 (Z.ltb_lt _ _)) by lia. unfold bmap_result. rewrite Es in *. set (k := Z.to_nat bn) in *. cbv zeta.
  assert (forall V i, ptr V i k = iaddrs i !!! k) as Hptr by (intros; unfold ptr; by rewrite (proj2 (Nat.leb_le k IND)) by lia).
  rewrite Hptr in Hnew. destruct (iaddrs i !!! k =? 0) eqn:E0; bsplit.
  - destruct (Hnew E0) as [Hav Hlog].
    destruct (set_slot_run f ip i V bs k Hi Hsb T D Fo) as (x & l' & E & Hd & Hf & T'); [lia|by rewrite Hptr|by eapply avail_le; [|exact Hav]; lia|lia|].
    pose proof (data_pos LY x Hd). rewrite E. exists (set_iaddrs (<[k := x]> (iaddrs i)) i), (alloc_block W x V), (add_block x (add_block (bitmap_of W x) bs)), l'. rewrite !Hptr. cbn [iaddrs set_iaddrs].
    rewrite list_lookup_total_insert_eq by (rewrite (fo_len _ _ _ Fo); unfold IND in Hk; lia).
    split; [done|]. split; [exact T'|]. split_and!.
    + apply (grows_direct LY); [done|done|lia|by rewrite Hptr|done|done].
    + lia.
    + apply logged_two. lia.
    + done.
    + intros n Hn. apply (avail_less W V _ x); [intros y Hy; by apply (alloc_free LY)|]. eapply avail_le; [|exact Hn]. lia.
  - exists i, V, bs, (flog f). rewrite !Hptr. split_and!; try done.
    + unfold ret, upd_file. rewrite list_insert_id by done. by destruct f.
    + by apply grows_refl.
    + split; [lia|auto].
    + intros n. apply avail_le. lia.
Qed.

(** The indirect block is there, or made. *)
Lemma indirect_run (f : F) ip i V bs :
  icache f !! ip = Some i -> sb f = w_sb W -> txn W (flog f) V ∅ bs -> disk_ok W V -> file_ok W V i ->
  (iaddrs i !!! IND = 0 -> avail W V 2 /\ Z.of_nat (length bs) + 4 < w_nlog W - 1) ->
  exists i' V' bs' l', (if iaddrs i !!! IND =? 0 then
       let* addr := balloc (idev i) in
       modify (updi ip (fun i => set_iaddrs (<[NDIRECT := addr]> (iaddrs i)) i)) ;;;
       ret addr
     else ret (iaddrs i !!! IND)) f = Ret (iaddrs i' !!! IND) (upd_file f ip i' l') /\ txn W l' V' ∅ bs' /\
    grows W V i V' i' /\ iaddrs i' !!! IND <> 0 /\ (length bs' <= length bs + 2)%nat /\
    (forall y, y ∈ bs' -> y ∈ bs \/ bitmap_block W y \/ (y = iaddrs i' !!! IND /\ y <> 0)) /\
    (iaddrs i !!! IND <> 0 -> V' = V /\ i' = i /\ bs' = bs) /\
    (forall n, avail W V (Datatypes.S n) -> avail W V' n).
Proof.
  intros Hi Hsb T D Fo Hnew. destruct (iaddrs i !!! IND =? 0) eqn:E0; bsplit.
  - destruct (Hnew E0) as [Hav Hlog].
    destruct (set_slot_run f ip i V bs IND Hi Hsb T D Fo) as (x & l' & E & Hd & Hf & T'); [lia|done|by eapply avail_le; [|exact Hav]; lia|lia|].
    pose proof (data_pos LY x Hd). exists (set_iaddrs (<[IND := x]> (iaddrs i)) i), (alloc_block W x V), (add_block x (add_block (bitmap_of W x) bs)), l'.
    cbn [iaddrs set_iaddrs]. rewrite list_lookup_total_insert_eq by (rewrite (fo_len _ _ _ Fo); unfold IND; lia).
    split; [exact E|]. split; [exact T'|]. split_and!.
    + by apply (grows_direct LY).
    + lia.
    + pose proof (length_add_block x (add_block (bitmap_of W x) bs)). pose proof (length_add_block (bitmap_of W x) bs). lia.
    + intros y. rewrite !elem_of_add_block. intros [->|[->|Hy]]; [right; right; split; [done|lia]| |auto]. right. left. exists x. split; [lia|done].
    + done.
    + intros n Hn. apply (avail_less W V _ x); [intros y Hy; by apply (alloc_free LY)|done].
  - exists i, V, bs, (flog f). split_and!; try done.
    + unfold ret, upd_file. rewrite list_insert_id by done. by destruct f.
    + by apply grows_refl.
    + lia.
    + auto.
    + intros n. apply avail_le. lia.
Qed.

Lemma ptr_entry V i e : iaddrs i !!! IND <> 0 -> ptr V i (8 + e) = word_at (V (iaddrs i !!! IND)) (4 * e).
Proof.
  intros H0. unfold ptr. rewrite (proj2 (Nat.leb_gt _ _)) by (unfold IND; lia). rewrite (proj2 (Z.eqb_neq _ _)) by done. do 2 f_equal. lia.
Qed.
Lemma ptr_no_indirect V i e : iaddrs i !!! IND = 0 -> ptr V i (8 + e) = 0.
Proof. intros H0. unfold ptr. rewrite (proj2 (Nat.leb_gt _ _)) by (unfold IND; lia). by rewrite H0. Qed.

(** Entry [e] of the indirect block is there, or made. *)
Lemma entry_run (f : F) i V bs e :
  sb f = w_sb W -> txn W (flog f) V ∅ bs -> disk_ok W V -> file_ok W V i -> iaddrs i !!! IND <> 0 -> (8 + e < SLOTS)%nat ->
  (ptr V i (8 + e) = 0 -> avail W V 1 /\ Z.of_nat (length bs) + 2 < w_nlog W - 1) ->
  exists V' bs' l', find_entry ROOTDEV (iaddrs i !!! IND) e f = Ret (ptr V' i (8 + e)) (set_flog l' f) /\ txn W l' V' ∅ bs' /\
    grows W V i V' i /\ ptr V' i (8 + e) <> 0 /\ (length bs' <= length bs + 3)%nat /\
    (forall y, y ∈ bs' -> y ∈ bs \/ bitmap_block W y \/ (y = iaddrs i !!! IND /\ y <> 0) \/ y = ptr V' i (8 + e)) /\
    (ptr V i (8 + e) <> 0 -> V' = V /\ bs' = bs) /\ (forall n, avail W V (Datatypes.S n) -> avail W V' n).
Proof.
  intros Hsb T D Fo Hi He Hnew. destruct (ind_data V i Fo Hi) as [Hd Hf]. pose proof (ptr_entry V i e Hi) as Hp.
  destruct (decide (ptr V i (8 + e) = 0)) as [H0|H0].
  - destruct (Hnew H0) as [Hav Hlog].
    destruct (find_entry_new f V bs (iaddrs i !!! IND) e T Hsb D Hd Hf) as (x & l2 & E2 & Hdx & Hfx & T2); [by rewrite <- Hp|done|lia|].
    pose proof (data_pos LY x Hdx) as Hx. cbv zeta in E2.
    pose proof (grows_indirect LY V i (8 + e) x Fo D ltac:(lia) Hi H0 Hdx Hfx) as G. cbv zeta in G. replace (8 + e - 8)%nat with e in G by lia.
    set (V' := disk_upd _ _ _) in *.
    assert (ptr V' i (8 + e) = x) as Ex.
    { rewrite ptr_entry by done. unfold V'. rewrite disk_upd_eq, word_at_put; [apply u32_small; destruct LY; lia|].
      unfold SLOTS in He. rewrite (dk_block _ _ (alloc_ok LY _ _ D Hdx)) by (pose proof (data_pos LY _ Hd); lia).
      change (Z.to_nat BSIZE) with 512%nat. lia. }
    exists V', (add_block (iaddrs i !!! IND) (add_block x (add_block (bitmap_of W x) bs))), l2. rewrite Ex. split_and!; try done; try lia.
    + pose proof (length_add_block (iaddrs i !!! IND) (add_block x (add_block (bitmap_of W x) bs))).
      pose proof (length_add_block x (add_block (bitmap_of W x) bs)). pose proof (length_add_block (bitmap_of W x) bs). lia.
    + intros y. rewrite !elem_of_add_block. intros [->|[->|[->|Hy]]]; auto. right. left. exists x. split; [lia|done].
    + intros n Hn. apply (avail_less W V _ x); [|done]. intros y Hy. unfold V'. rewrite (is_free_data LY); [by apply (alloc_free LY)|done|apply Hd].
  - destruct (find_entry_old f V bs (iaddrs i !!! IND) e T Hd) as (l2 & E2 & T2); [by rewrite <- Hp|].
    exists V, bs, l2. rewrite E2, Hp in *. split_and!; try done; [by apply grows_refl|lia|auto|intros n; apply avail_le; lia].
Qed.

Lemma bmap_indirect (f : F) ip i V bs bn :
  icache f !! ip = Some i -> sb f = w_sb W -> txn W (flog f) V ∅ bs -> disk_ok W V -> file_ok W V i ->
  Z.of_nat NDIRECT <= bn < MAXFILE ->
  (ptr V i (slot bn) = 0 -> avail W V 2 /\ Z.of_nat (length bs) + 4 < w_nlog W - 1) ->
  bmap_result f ip i V bs bn (bmap ip bn f).
Proof.
  intros Hi Hsb T D Fo Hb Hnew. destruct (slot_indirect bn Hb) as [Es Hlt]. unfold bmap. rewrite bind_get, (I_lookup f ip i Hi).
  rewrite (proj2 (Z.ltb_ge bn _)) by lia. cbv zeta. rewrite (proj2 (Z.ltb_lt _ _)) by (unfold MAXFILE in Hb; lia).
  unfold bmap_result. set (e := Z.to_nat (bn - Z.of_nat NDIRECT)) in *. rewrite Es in *. change NDIRECT with IND at 1 2.
  destruct (indirect_run f ip i V bs Hi Hsb T D Fo) as (i1 & V1 & bs1 & l1 & E1 & T1 & G1 & Hi1 & Hl1 & Hb1 & Hsame & Hav1).
  { intros E0. apply Hnew. by apply ptr_no_indirect. }
  rewrite (bind_ret _ _ _ _ _ E1). set (f1 := upd_file f ip i1 l1) in *. rewrite (fo_dev _ _ _ Fo).
  match goal with |- context [bind (fbread ROOTDEV ?a) ?k] => change (bind (fbread ROOTDEV a) k) with (find_entry ROOTDEV a e) end.
  destruct (entry_run f1 i1 V1 bs1 e Hsb T1 (gr_disk _ _ _ _ _ (gr_ext _ _ _ _ _ G1)) (gr_file _ _ _ _ _ (gr_ext _ _ _ _ _ G1)) Hi1 Hlt)
    as (V2 & bs2 & l2 & E2 & T2 & G2 & Hp2 & Hl2 & Hb2 & Hsame2 & Hav2).
  { intros H0. destruct Hnew as [Hav Hlog].
    - destruct (decide (ptr V i (8 + e) = 0)) as [|Hn]; [done|]. by rewrite (gr_ptr _ _ _ _ _ (gr_ext _ _ _ _ _ G1)) in H0.
    - split; [by apply Hav1|lia]. }
  exists i1, V2, bs2, l2. split_and!; try done.
  - by eapply grows_trans.
  - split; [lia|]. intros y Hy. destruct (Hb2 y Hy) as [Hy1|?]; [|auto]. destruct (Hb1 y Hy1) as [?|[?|?]]; auto.
  - intros Hn. destruct Hsame as (-> & -> & ->); [intros E0; by apply Hn, ptr_no_indirect|]. by destruct (Hsame2 Hn) as [-> ->].
  - intros n Hn. apply Hav2, Hav1. by rewrite Nat.add_comm in Hn.
Qed.

Lemma bmap_run (f : F) ip i V bs bn :
  icache f !! ip = Some i -> sb f = w_sb W -> txn W (flog f) V ∅ bs -> disk_ok W V -> file_ok W V i -> 0 <= bn < MAXFILE ->
  (ptr V i (slot bn) = 0 -> avail W V 2 /\ Z.of_nat (length bs) + 4 < w_nlog W - 1) ->
  bmap_result f ip i V bs bn (bmap ip bn f).
Proof. intros. destruct (decide (bn < Z.of_nat NDIRECT)); [apply bmap_direct|apply bmap_indirect]; (done || lia). Qed.
End bmap.
