(* ===== verification/FsData.v ===== *)
(** * Reading and writing files

    The loops of [readi] and [writei] over the blocks of a file: a read returns
    the bytes of the file, a write replaces them and changes nothing else. *)

From stdpp Require Import gmap.
From S2P Require Import Prelude CString Block Bio Log LogCrash Users Fs FsTxn FsBlocks FsFile.
Open Scope Z_scope.

(** The turns of the loops: the blocks that [off .. off+left-1] touches. *)
Definition turns (off left : Z) : Z := if left <=? 0 then 0 else (off + left - 1) / BSIZE - off / BSIZE + 1.

Lemma chunk_bounds off left : 0 <= off -> 0 < left ->
  0 < file_chunk off left <= left /\ off mod BSIZE + file_chunk off left <= BSIZE.
Proof. intros. unfold file_chunk. pose proof (Z.mod_pos_bound off BSIZE ltac:(done)). lia. Qed.

Lemma turns_step off left : 0 <= off -> 0 < left ->
  turns (off + file_chunk off left) (left - file_chunk off left) = turns off left - 1.
Proof.
  intros Ho Hl. unfold turns, file_chunk, BSIZE. rewrite (proj2 (Z.leb_gt left 0)) by lia.
  pose proof (Z.mod_pos_bound off 512 ltac:(done)). pose proof (Z.div_mod off 512 ltac:(done)) as Ed.
  destruct (Z.leb_spec left (512 - off mod 512)).
  - rewrite Z.min_l by lia. replace (left - left <=? 0) with true by lia.
    replace ((off + left - 1) / 512) with (off / 512); [lia|]. apply Z.div_unique with (off mod 512 + left - 1); lia.
  - rewrite Z.min_r by lia. rewrite (proj2 (Z.leb_gt _ 0)) by lia.
    replace (off + (512 - off mod 512) + (left - (512 - off mod 512)) - 1) with (off + left - 1) by lia.
    replace ((off + (512 - off mod 512)) / 512) with (off / 512 + 1); [lia|]. apply Z.div_unique with 0; [left; done|lia].
Qed.

Lemma turns_chunks off left : 0 <= off -> 0 <= left -> turns off left <= Z.of_nat (chunks left).
Proof.
  intros. unfold turns, chunks. destruct (Z.leb_spec left 0); [lia|].
  pose proof (Z.div_mod off BSIZE ltac:(done)). pose proof (Z.mod_pos_bound off BSIZE ltac:(done)).
  pose proof (Z.div_mod left BSIZE ltac:(done)). pose proof (Z.mod_pos_bound left BSIZE ltac:(done)).
  assert ((off + left - 1) / BSIZE < off / BSIZE + left / BSIZE + 2).
  { apply Z.div_lt_upper_bound; [done|]. unfold BSIZE in *. lia. }
  pose proof (Z.div_pos left BSIZE ltac:(lia) ltac:(done)). lia.
Qed.

(** [0 <= j < m] bytes into the block of [off]. *)
Lemma same_block off m j : 0 <= off -> off mod BSIZE + m <= BSIZE -> 0 <= j < m ->
  (off + j) / BSIZE = off / BSIZE /\ (off + j) mod BSIZE = off mod BSIZE + j.
Proof.
  unfold BSIZE. intros Ho Hm Hj. pose proof (Z.mod_pos_bound off 512 ltac:(done)). pose proof (Z.div_mod off 512 ltac:(done)).
  assert ((off + j) / 512 = off / 512) as E by (symmetry; apply Z.div_unique with (off mod 512 + j); lia).
  split; [done|]. rewrite Z.mod_eq, E by done. lia.
Qed.

Section read.
Context {S : Type} `{!BlockCache S} {W : world} (LY : layout W).
Local Abbreviation F := (fs S).

Lemma sub_fbyte V i off m :
  disk_ok W V -> file_ok W V i -> 0 <= off -> 0 <= m -> off mod BSIZE + m <= BSIZE -> 0 <= off / BSIZE < MAXFILE ->
  ptr V i (slot (off / BSIZE)) <> 0 ->
  sub (V (ptr V i (slot (off / BSIZE)))) (Z.to_nat (off mod BSIZE)) (Z.to_nat m) = fbyte V i <$> seqZ off m.
Proof.
  intros D Fo Ho Hm Hmod Hb Hp. destruct (slot_range _ Hb) as [Hs _]. destruct (fo_ptr _ _ _ Fo _ Hs Hp) as [Hd _].
  pose proof (dk_block _ _ D (ptr V i (slot (off / BSIZE)))) as Hlen. pose proof (data_pos LY _ Hd). pose proof (Z.mod_pos_bound off BSIZE ltac:(done)).
  apply list_eq. intros j. rewrite sub_lookup, list_lookup_fmap. case_decide as Hj.
  - rewrite lookup_seqZ_lt by lia. simpl. unfold fbyte. destruct (same_block off m (Z.of_nat j)) as [-> ->]; [lia..|].
    rewrite (proj2 (Z.eqb_neq _ _)) by done. rewrite Z2Nat.inj_add, Nat2Z.id by lia.
    apply list_lookup_lookup_total_lt. rewrite Hlen by lia. lia.
  - rewrite lookup_seqZ_ge by lia. done.
Qed.

(** The bytes from [off] on have their blocks. *)
Definition solid (V : disk) (i : inode) (off left : Z) : Prop :=
  forall o, off <= o < off + left -> ptr V i (slot (o / BSIZE)) <> 0.

Lemma same_file (f : F) ip i l : icache f !! ip = Some i -> upd_file f ip i l = set_flog l f.
Proof. intros E. unfold upd_file, set_flog. by rewrite list_insert_id. Qed.

Lemma readi_loop_run fuel (f : F) ip i V bs off left :
  icache f !! ip = Some i -> sb f = w_sb W -> txn W (flog f) V ∅ bs -> disk_ok W V -> file_ok W V i ->
  0 <= off -> 0 <= left -> off + left <= MAXFILE * BSIZE -> solid V i off left -> turns off left <= Z.of_nat fuel ->
  exists l', readi_loop fuel ip off left f = Ret (fbyte V i <$> seqZ off left) (set_flog l' f) /\ txn W l' V ∅ bs.
Proof.
  revert f off left. induction fuel as [|fuel IH]; intros f off left Hi Hsb T D Fo Ho Hl Hmax Hsol Hfuel.
  all: assert (left = 0 \/ 0 < left) as [->|Hl0] by lia.
  1,3: exists (flog f); split; [|done]; rewrite (seqZ_nil off 0) by lia; simpl; by destruct f.
  { exfalso. unfold turns in Hfuel. rewrite (proj2 (Z.leb_gt left 0)) in Hfuel by lia.
    pose proof (Z.div_le_mono off (off + left - 1) BSIZE ltac:(done) ltac:(lia)). lia. }
  cbn [readi_loop]. rewrite (proj2 (Z.ltb_lt _ _)) by done. rewrite bind_get, (I_lookup f ip i Hi), (fo_dev _ _ _ Fo).
  destruct (chunk_bounds off left Ho Hl0) as [Hm Hmb]. set (m := file_chunk off left) in *.
  destruct (offset_block off) as [Hb _]; [lia|]. pose proof (Hsol off ltac:(lia)) as Hp.
  destruct (bmap_run LY f ip i V bs (off / BSIZE) Hi Hsb T D Fo Hb) as (i1 & V1 & bs1 & l1 & E1 & T1 & _ & _ & _ & Hsame & _); [done|].
  destruct (Hsame Hp) as (-> & -> & ->). rewrite (bind_ret _ _ _ _ _ E1), (same_file f ip i l1 Hi).
  destruct (slot_range _ Hb) as [Hs _]. destruct (fo_ptr _ _ _ Fo _ Hs Hp) as [Hd _]. pose proof (data_loggable LY _ Hd) as [Hr _].
  match goal with |- context [bind (fbread ROOTDEV ?a) _] => set (b := a) in * end. pose proof (txn_room _ _ _ _ T1) as Hroom.
  destruct (read_run W (set_flog l1 f) V ∅ bs b (fun d => let* rest := readi_loop fuel ip (off + m) (left - m) in
    ret (sub d (Z.to_nat (off mod BSIZE)) (Z.to_nat m) ++ rest)) T1) as (l2 & E2 & T2); [apply lookup_empty|lia|rewrite map_size_empty; lia|].
  rewrite E2. destruct (IH (set_flog l2 (set_flog l1 f)) (off + m) (left - m)) as (l3 & E3 & T3); try done; try lia.
  { intros o Ho'. apply Hsol. lia. }
  { unfold m. rewrite turns_step by lia. lia. }
  exists l3. rewrite (bind_ret _ _ _ _ _ E3). split; [|done]. unfold ret, b. rewrite (sub_fbyte V i) by (done || lia).
  rewrite <- fmap_app. replace left with (m + (left - m)) at 2 by lia. by rewrite seqZ_app by lia.
Qed.
End read.

(** ** Writing a block *)

Section write.
Context {W : world} (LY : layout W).

Lemma slot_inj a b : 0 <= a -> 0 <= b -> slot a = slot b -> a = b.
Proof. unfold slot, NDIRECT. intros. destruct (a <? Z.of_nat 7) eqn:?, (b <? Z.of_nat 7) eqn:?; bsplit; lia. Qed.

(** Writing to a block that the file has. *)
Lemma extends_write V i s d :
  disk_ok W V -> file_ok W V i -> is_block d -> (s < SLOTS)%nat -> s <> IND -> ptr V i s <> 0 ->
  extends W V i (disk_upd V (ptr V i s) d) i /\ forall k, ptr (disk_upd V (ptr V i s) d) i k = ptr V i k.
Proof.
  intros D Fo Hd Hs Hs7 Hp. destruct (fo_ptr _ _ _ Fo s Hs Hp) as [Hdat Hf]. set (b := ptr V i s) in *.
  assert (forall k, ptr (disk_upd V b d) i k = ptr V i k) as Hptr.
  { intros k. unfold ptr. destruct (k <=? IND)%nat; [done|]. destruct (_ =? 0) eqn:E0; [done|]. bsplit. rewrite disk_upd_ne; [done|].
    intros E. apply Hs7. symmetry. apply (fo_inj _ _ _ Fo); [unfold IND, SLOTS; lia|done|done|exact E]. }
  assert (forall x, 0 <= x < sb_size (w_sb W) -> is_free W (disk_upd V b d) x = is_free W V x) as Hfree.
  { intros x Hx. apply (is_free_data LY); [done|apply Hdat]. }
  split; [|done]. split.
  - apply (disk_ok_upd LY); [done|done|apply Hdat].
  - destruct Fo as [Hl Hdv Hpt Hin]. split; [done|done| |].
    + intros k Hk. rewrite Hptr. intros Hk0. destruct (Hpt k Hk Hk0) as [Hkd Hkf]. split; [done|]. rewrite Hfree; [done|].
      pose proof (data_pos LY _ Hkd). lia.
    + intros k k' Hk Hk'. rewrite !Hptr. auto.
  - by rewrite set_iaddrs_id.
  - intros k _ _. apply Hptr.
  - intros k _ _. left. by rewrite Hptr.
  - intros x (_ & _ & Ho & _). apply disk_upd_ne. intros ->. apply Ho. by exists s.
  - intros x Hx. by rewrite Hfree.
  - intros x Hx Ht. rewrite Hfree, Ht by done. done.
Qed.

Lemma fbyte_patch V i off ds :
  disk_ok W V -> file_ok W V i -> 0 <= off -> off mod BSIZE + Z.of_nat (length ds) <= BSIZE -> 0 <= off / BSIZE < MAXFILE ->
  ptr V i (slot (off / BSIZE)) <> 0 ->
  forall o, 0 <= o < MAXFILE * BSIZE ->
  let b := ptr V i (slot (off / BSIZE)) in
  fbyte (disk_upd V b (patch (V b) (Z.to_nat (off mod BSIZE)) ds)) i o =
    if decide (off <= o < off + Z.of_nat (length ds)) then ds !!! Z.to_nat (o - off) else fbyte V i o.
Proof.
  intros D Fo Ho Hmod Hb Hp o Hor b. destruct (slot_range _ Hb) as [Hs Hs7]. destruct (fo_ptr _ _ _ Fo _ Hs Hp) as [Hd _]. fold b in Hd, Hp.
  pose proof (data_pos LY _ Hd). pose proof (Z.mod_pos_bound off BSIZE ltac:(done)). pose proof (Z.mod_pos_bound o BSIZE ltac:(done)).
  assert (length (V b) = Z.to_nat BSIZE) as Hlen by (apply (dk_block _ _ D); lia).
  set (d := patch _ _ _). assert (length d = Z.to_nat BSIZE) as Hd' by (unfold d; rewrite length_patch; lia).
  destruct (extends_write V i _ d D Fo Hd' Hs Hs7 Hp) as [_ Hptr]. fold b in Hptr. unfold fbyte. rewrite Hptr.
  destruct (offset_block o Hor) as [Hob _]. destruct (slot_range _ Hob) as [Hos _].
  destruct (decide (o / BSIZE = off / BSIZE)) as [E|E].
  - rewrite E. fold b. rewrite (proj2 (Z.eqb_neq b 0)) by lia. rewrite disk_upd_eq. unfold d.
    pose proof (Z.div_mod o BSIZE ltac:(done)). pose proof (Z.div_mod off BSIZE ltac:(done)). rewrite E in *.
    rewrite !list_lookup_total_alt, lookup_patch by lia. case_decide; case_decide; try done; [|lia|lia]. do 2 f_equal. lia.
  - rewrite decide_False.
    2:{ intros Hr. apply E. replace o with (off + (o - off)) by lia. apply (same_block off (Z.of_nat (length ds))); lia. }
    destruct (_ =? 0) eqn:E0; [done|]. bsplit. rewrite disk_upd_ne; [done|]. intros Eb. apply E.
    apply slot_inj; [lia..|]. apply (fo_inj _ _ _ Fo); done.
Qed.
End write.

(** ** How much is logged *)

Definition nbitmap (W : world) : nat := Z.to_nat (sb_size (w_sb W) / BPB) + 1.

(** The logged blocks are bitmap blocks, the indirect block of [i], and in [U]. *)
Definition within (W : world) (i : inode) (U bs : list Z) : Prop :=
  forall y, y ∈ bs -> bitmap_block W y \/ (y = iaddrs i !!! IND /\ y <> 0) \/ y ∈ U.

Lemma within_length W i U bs : layout W -> NoDup bs -> within W i U bs -> (length bs <= nbitmap W + 1 + length U)%nat.
Proof.
  intros LY Hnd Hw. set (L := ((fun k => sb_bmapstart (w_sb W) + Z.of_nat k) <$> seq 0 (nbitmap W)) ++ [iaddrs i !!! IND] ++ U).
  assert (length L = nbitmap W + 1 + length U)%nat as <- by (unfold L; rewrite !length_app, length_fmap, length_seq; simpl; lia).
  apply submseteq_length, NoDup_submseteq; [done|]. intros y Hy. unfold L. rewrite !elem_of_app.
  destruct (Hw y Hy) as [(b & Hb & ->)|[[-> _]|HU]]; [left|right; left; set_solver|auto].
  apply list_elem_of_fmap. exists (Z.to_nat (b / BPB)). rewrite (bitmap_of_eq LY) by done.
  pose proof (Z.div_pos b BPB ltac:(lia) ltac:(done)). pose proof (Z.div_le_mono b (sb_size (w_sb W)) BPB ltac:(done) ltac:(lia)).
  split; [lia|]. apply elem_of_seq. unfold nbitmap. lia.
Qed.

Section writei.
Context {S : Type} `{!BlockCache S} {W : world} (LY : layout W).
Local Abbreviation F := (fs S).

(** The bytes of a file after [src] was written at [off]. *)
Definition overwritten (V : disk) (i : inode) (off : Z) (src : list Z) (V' : disk) (i' : inode) : Prop :=
  forall o, 0 <= o < MAXFILE * BSIZE ->
    fbyte V' i' o = if decide (off <= o < off + Z.of_nat (length src)) then src !!! Z.to_nat (o - off) else fbyte V i o.

Lemma upd_file_twice (f : F) ip i l i' l' : upd_file (upd_file f ip i l) ip i' l' = upd_file f ip i' l'.
Proof. unfold upd_file. simpl. by rewrite list_insert_insert_eq. Qed.
Lemma upd_file_lookup (f : F) ip i i' l : icache f !! ip = Some i -> icache (upd_file f ip i' l) !! ip = Some i'.
Proof. intros E. apply list_lookup_insert_eq. by eapply lookup_lt_Some. Qed.

Lemma within_logged i i' V V' U bs bs' addr :
  extends W V i V' i' -> within W i U bs ->
  (forall y, y ∈ bs' -> y ∈ bs \/ bitmap_block W y \/ (y = iaddrs i' !!! IND /\ y <> 0) \/ y = addr) -> within W i' (addr :: U) bs'.
Proof.
  intros G Hw Hl y Hy. destruct (Hl y Hy) as [Hb|[Hb|[Hb| ->]]]; [|by left|by right; left|right; right; set_solver].
  destruct (Hw y Hb) as [?|[[E H0]|HU]]; [by left| |right; right; set_solver]. right. left. split; [|done].
  rewrite E in *. symmetry. apply (gr_ptr _ _ _ _ _ G IND); [unfold IND, SLOTS; lia|exact H0].
Qed.

(** One turn of the loop. *)
Lemma write_turn {A} (f : F) ip i V bs U off ds (k : M F A) :
  icache f !! ip = Some i -> sb f = w_sb W -> txn W (flog f) V ∅ bs -> disk_ok W V -> file_ok W V i ->
  0 <= off < MAXFILE * BSIZE -> off mod BSIZE + Z.of_nat (length ds) <= BSIZE ->
  avail W V 2 -> within W i U bs -> Z.of_nat (nbitmap W + 1 + length U) + 6 < w_nlog W ->
  exists i' V' bs' l', (let* addr := bmap ip (off / BSIZE) in
      let* bp := fbread ROOTDEV addr in
      let* d := fdata bp in
      fset bp (patch d (Z.to_nat (off mod BSIZE)) ds) ;;; flog_write bp ;;; fbrelse bp ;;; k) f = k (upd_file f ip i' l') /\
    txn W l' V' ∅ bs' /\ extends W V i V' i' /\ overwritten V i off ds V' i' /\ ptr V' i' (slot (off / BSIZE)) <> 0 /\
    within W i' (ptr V' i' (slot (off / BSIZE)) :: U) bs' /\ (ptr V i (slot (off / BSIZE)) <> 0 -> i' = i) /\
    (forall n, avail W V (n + 2) -> avail W V' n).
Proof.
  intros Hi Hsb T D Fo Ho Hmod Hav Hw Hlog. destruct (offset_block off Ho) as [Hb _]. destruct (slot_range _ Hb) as [Hs Hs7].
  pose proof (within_length W i U bs LY (txn_nodup _ _ _ _ _ T) Hw) as Hlen.
  destruct (bmap_run LY f ip i V bs (off / BSIZE) Hi Hsb T D Fo Hb) as (i1 & V1 & bs1 & l1 & E1 & T1 & [G1 B1] & Hp & Hl1 & Hsame & Hav1); [intros; split; [done|lia]|].
  rewrite (bind_ret _ _ _ _ _ E1). set (b := ptr V1 i1 (slot (off / BSIZE))) in *.
  pose proof (gr_file _ _ _ _ _ G1) as Fo1. pose proof (gr_disk _ _ _ _ _ G1) as D1.
  destruct (fo_ptr _ _ _ Fo1 _ Hs Hp) as [Hd _]. fold b in Hd. pose proof (txn_room _ _ _ _ T1) as Hroom. destruct Hl1 as [Hl1 Hl1'].
  destruct (rewrite_run W (upd_file f ip i1 l1) V1 ∅ bs1 b (fun d => patch d (Z.to_nat (off mod BSIZE)) ds) k T1) as (l2 & E2 & T2);
    [apply lookup_empty|by apply (data_loggable LY)|rewrite map_size_empty; lia|lia|].
  assert (is_block (patch (V1 b) (Z.to_nat (off mod BSIZE)) ds)) as Hblk.
  { pose proof (Z.mod_pos_bound off BSIZE ltac:(done)). pose proof (data_pos LY _ Hd). pose proof (dk_block _ _ D1 b ltac:(lia)) as Hlb. unfold is_block in *.
    rewrite length_patch; [done|lia]. }
  destruct (extends_write LY V1 i1 _ _ D1 Fo1 Hblk Hs Hs7 Hp) as [G2 Hptr]. fold b in G2, Hptr.
  exists i1, (disk_upd V1 b (patch (V1 b) (Z.to_nat (off mod BSIZE)) ds)), (add_block b bs1), l2.
  rewrite E2, Hptr. fold b. split_and!; try done.
  - by eapply extends_trans.
  - intros o Hor. rewrite <- (B1 o Hor). apply (fbyte_patch LY); (done || lia).
  - apply (within_logged i i1 V V1 U bs (add_block b bs1) b G1 Hw). intros y [->|Hy]%elem_of_add_block; auto.
  - intros Hn. by destruct (Hsame Hn) as (_ & -> & _).
  - intros n Hn. destruct (Hav1 n Hn) as (L & ? & ? & HL). exists L. split_and!; try done. intros x Hx. destruct (HL x Hx) as [? ?].
    split; [done|]. rewrite (is_free_data LY); [done|done|apply Hd].
Qed.

Lemma overwritten_app V i V1 i1 V2 i2 off ds ds' :
  overwritten V i off ds V1 i1 -> overwritten V1 i1 (off + Z.of_nat (length ds)) ds' V2 i2 ->
  overwritten V i off (ds ++ ds') V2 i2.
Proof.
  intros H1 H2 o Ho. rewrite H2, H1 by done. rewrite length_app. repeat case_decide; try lia; try done.
  - rewrite lookup_total_app_r by lia. f_equal. lia.
  - by rewrite lookup_total_app_l by lia.
Qed.

Lemma writei_loop_run fuel (f : F) ip i V bs U src off left :
  icache f !! ip = Some i -> sb f = w_sb W -> txn W (flog f) V ∅ bs -> disk_ok W V -> file_ok W V i ->
  0 <= off -> left = Z.of_nat (length src) -> off + left <= MAXFILE * BSIZE -> turns off left <= Z.of_nat fuel ->
  avail W V (2 * Z.to_nat (turns off left)) -> within W i U bs ->
  Z.of_nat (nbitmap W + 1 + length U) + turns off left + 6 <= w_nlog W ->
  exists i' V' bs' U' l', writei_loop fuel ip src off left f = Ret () (upd_file f ip i' l') /\
    txn W l' V' ∅ bs' /\ extends W V i V' i' /\ overwritten V i off src V' i' /\ solid V' i' off left /\
    within W i' U' bs' /\ Z.of_nat (length U') <= Z.of_nat (length U) + turns off left /\ (solid V i off left -> i' = i).
Proof.
  revert f i V bs U src off left. induction fuel as [|fuel IH]; intros f i V bs U src off left Hi Hsb T D Fo Ho Hl Hmax Hfuel Hav Hw Hlog.
  all: assert (left = 0 \/ 0 < left) as [Hl0|Hl0] by lia.
  1,3: exists i, V, bs, U, (flog f); assert (src = []) as -> by (destruct src; [done|simpl in *; lia]); rewrite Hl0; split_and!;
    [simpl; rewrite same_file by done; by destruct f|done|by apply extends_refl|intros o _; rewrite decide_False; [done|simpl; lia]|intros o ?; lia|done|unfold turns; simpl; lia|done].
  { exfalso. unfold turns in Hfuel. rewrite (proj2 (Z.leb_gt left 0)) in Hfuel by lia.
    pose proof (Z.div_le_mono off (off + left - 1) BSIZE ltac:(done) ltac:(lia)). lia. }
  cbn [writei_loop]. rewrite (proj2 (Z.ltb_lt _ _)) by done. rewrite bind_get, (I_lookup f ip i Hi), (fo_dev _ _ _ Fo).
  destruct (chunk_bounds off left Ho Hl0) as [Hm Hmb]. pose proof (turns_step off left Ho Hl0) as Ht. set (m := file_chunk off left) in *.
  assert (1 <= turns off left) as Ht1.
  { unfold turns. rewrite (proj2 (Z.leb_gt left 0)) by lia. pose proof (Z.div_le_mono off (off + left - 1) BSIZE ltac:(done) ltac:(lia)). lia. }
  assert (length (take (Z.to_nat m) src) = Z.to_nat m) as Hlt by (rewrite length_take; lia).
  destruct (write_turn f ip i V bs U off (take (Z.to_nat m) src) (writei_loop fuel ip (drop (Z.to_nat m) src) (off + m) (left - m)) Hi Hsb T D Fo)
    as (i1 & V1 & bs1 & l1 & E1 & T1 & G1 & O1 & Hp1 & Hw1 & Hid1 & Hav1); [lia|lia|eapply avail_le; [|exact Hav]; lia|done|lia|].
  rewrite E1. set (f1 := upd_file f ip i1 l1) in *. set (U1 := ptr V1 i1 (slot (off / BSIZE)) :: U) in *.
  destruct (IH f1 i1 V1 bs1 U1 (drop (Z.to_nat m) src) (off + m) (left - m)) as (i2 & V2 & bs2 & U2 & l2 & E2 & T2 & G2 & O2 & S2 & Hw2 & HU2 & Hid2);
    try done; try lia; try apply G1.
  { by apply (upd_file_lookup f ip i). }
  { rewrite length_drop. lia. }
  { rewrite Ht. apply Hav1. eapply avail_le; [|exact Hav]. lia. }
  { rewrite Ht. unfold U1. simpl length. lia. }
  exists i2, V2, bs2, U2, l2. split; [rewrite E2; unfold f1; by rewrite upd_file_twice|]. split; [done|]. split; [by eapply extends_trans|].
  split. { rewrite <- (take_drop (Z.to_nat m) src). eapply overwritten_app; [exact O1|]. rewrite Hlt. by replace (off + Z.of_nat (Z.to_nat m)) with (off + m) by lia. }
  split; [|split; [done|split; [unfold U1 in HU2; simpl length in HU2; lia|]]].
  2:{ intros Hsol. pose proof (Hid1 (Hsol off ltac:(lia))) as ->. apply Hid2. intros o Hor. pose proof (Hsol o ltac:(lia)) as Hp.
      destruct (offset_block o) as [Hb _]; [lia|]. destruct (slot_range _ Hb) as [Hs _]. by rewrite (gr_ptr _ _ _ _ _ G1). }
  intros o Hor. destruct (decide (o < off + m)) as [Hlo|]; [|apply S2; lia].
  destruct (same_block off m (o - off)) as [Eo _]; [lia..|]. replace (off + (o - off)) with o in Eo by lia. rewrite Eo.
  destruct (offset_block off) as [Hb _]; [lia|]. destruct (slot_range _ Hb) as [Hs _]. rewrite (gr_ptr _ _ _ _ _ G2); done.
Qed.
End writei.
