(* ===== verification/FsWrite.v ===== *)
(** * Files as byte strings

    What a read and a write of fs.c do to a whole file: the inode in memory, its
    copy on the disk and its blocks represent a byte string; [writei] replaces a
    part of it and [readi] returns a part of it.  Other files are not touched. *)

From stdpp Require Import gmap.
From S2P Require Import Prelude CString Block Bio Log LogCrash Users Fs FsPath FsTxn FsBlocks FsFile FsData.
Open Scope Z_scope.

Definition inode_block (W : world) (i : inode) : Z := IBLOCK (inum i) (w_sb W).

(** The inode has been written to the disk. *)
Definition on_disk (W : world) (V : disk) (i : inode) : Prop :=
  same_dinode (get_dinode (V (inode_block W i)) (dinode_off (inum i)) i) i.

Record file_inv (W : world) (V : disk) (i : inode) : Prop := {
  fi_ok : file_ok W V i;
  fi_size : 0 <= isize i <= MAXFILE * BSIZE;
  fi_solid : solid V i 0 (isize i);
  fi_typed : inode_typed i;
  fi_inum : 0 <= inum i < sb_ninodes (w_sb W);
  fi_disk : on_disk W V i }.

Definition contents (V : disk) (i : inode) : list Z := fbyte V i <$> seqZ 0 (isize i).

Lemma length_file V i : length (contents V i) = Z.to_nat (isize i).
Proof. unfold contents. by rewrite length_fmap, length_seqZ. Qed.
Lemma lookup_contents V i k : (k < Z.to_nat (isize i))%nat -> contents V i !! k = Some (fbyte V i (Z.of_nat k)).
Proof. intros Hk. unfold contents. rewrite list_lookup_fmap, lookup_seqZ_lt by lia. done. Qed.

Lemma sub_contents V i off n : 0 <= off -> 0 <= n -> off + n <= isize i ->
  sub (contents V i) (Z.to_nat off) (Z.to_nat n) = fbyte V i <$> seqZ off n.
Proof.
  intros. apply list_eq. intros k. rewrite sub_lookup, list_lookup_fmap. case_decide.
  - rewrite lookup_contents, lookup_seqZ_lt by lia. simpl. do 2 f_equal. lia.
  - by rewrite lookup_seqZ_ge by lia.
Qed.

Section inode.
Context {S : Type} `{!BlockCache S} {W : world} (LY : layout W).
Local Abbreviation F := (fs S).

Lemma dinode_fits n : (dinode_off n + 64 <= Z.to_nat BSIZE)%nat.
Proof.
  unfold dinode_off, IPB, DINODE_SIZE, BSIZE. change (512 / 64) with 8. pose proof (Z.mod_pos_bound n 8 ltac:(done)). lia.
Qed.

Lemma iblock_range n : 0 <= n < sb_ninodes (w_sb W) ->
  IBLOCK n (w_sb W) = sb_inodestart (w_sb W) + n / IPB /\ loggable W (IBLOCK n (w_sb W)) /\
  0 <= IBLOCK n (w_sb W) < w_data W /\ ~ bitmap_block W (IBLOCK n (w_sb W)).
Proof.
  intros Hn. destruct LY as [? ? Hbm ? ?].
  pose proof (Z.div_pos n IPB ltac:(lia) ltac:(done)). pose proof (Z.div_le_mono n (sb_ninodes (w_sb W)) IPB ltac:(done) ltac:(lia)).
  pose proof (Z.div_pos (sb_size (w_sb W)) BPB ltac:(lia) ltac:(done)).
  assert (IBLOCK n (w_sb W) = sb_inodestart (w_sb W) + n / IPB) as E by (unfold IBLOCK; rewrite u32_small; lia).
  rewrite E. split; [done|]. split; [unfold loggable, home; lia|]. split; [lia|]. intros (b & Hb & Eb).
  rewrite (bitmap_of_eq LY) in Eb by done. pose proof (Z.div_pos b BPB ltac:(lia) ltac:(done)). lia.
Qed.

(** The inode block is not touched by operations on the contents of any file. *)
Lemma iblock_others V i n : disk_ok W V -> file_ok W V i -> 0 <= n < sb_ninodes (w_sb W) -> others W V i (IBLOCK n (w_sb W)).
Proof.
  intros D Fo Hn. destruct (iblock_range n Hn) as (_ & _ & Hr & Hb). split_and!; [lia|destruct LY; lia|done| |by apply D].
  intros (k & Hk & E & H0). rewrite <- E in H0. destruct (fo_ptr _ _ _ Fo k Hk H0) as [[Hd _] _]. lia.
Qed.

Lemma iupdate_run (f : F) ip i V bs :
  icache f !! ip = Some i -> sb f = w_sb W -> txn W (flog f) V ∅ bs -> idev i = ROOTDEV -> 0 <= inum i < sb_ninodes (w_sb W) ->
  Z.of_nat (length bs) < w_nlog W - 1 ->
  exists l', iupdate ip f = Ret () (set_flog l' f) /\
    txn W l' (disk_upd V (inode_block W i) (put_dinode (V (inode_block W i)) (dinode_off (inum i)) i)) ∅ (add_block (inode_block W i) bs).
Proof.
  intros Hi Hsb T Hdv Hn Hlog. unfold iupdate. rewrite bind_get, (I_lookup f ip i Hi), Hsb, Hdv. pose proof (txn_room _ _ _ _ T).
  apply (rewrite_end_run W f V ∅ bs _ (fun d => put_dinode d (dinode_off (inum i)) i) T);
    [apply lookup_empty|by apply iblock_range|rewrite map_size_empty; lia|done].
Qed.

(** Writing the inode block changes no file. *)
Lemma meta_write V b d : disk_ok W V -> is_block d -> 0 <= b < w_data W -> ~ bitmap_block W b ->
  disk_ok W (disk_upd V b d) /\
  (forall x, 0 <= x < sb_size (w_sb W) -> is_free W (disk_upd V b d) x = is_free W V x) /\
  (forall j, file_ok W V j -> file_ok W (disk_upd V b d) j /\ (forall k, ptr (disk_upd V b d) j k = ptr V j k) /\
    forall o, 0 <= o < MAXFILE * BSIZE -> fbyte (disk_upd V b d) j o = fbyte V j o).
Proof.
  intros D Hd Hb Hnb.
  assert (forall x, 0 <= x < sb_size (w_sb W) -> is_free W (disk_upd V b d) x = is_free W V x) as Hfree.
  { intros x Hx. unfold is_free. rewrite disk_upd_ne; [done|]. intros E. apply Hnb. by exists x. }
  split; [|split; [done|]].
  - split; [intros x Hx; unfold disk_upd; destruct (_ =? _); [done|by apply D]|].
    intros x Hx. rewrite Hfree by (destruct LY; lia). by apply D.
  - intros j Fo. assert (forall k, ptr (disk_upd V b d) j k = ptr V j k) as Hp.
    { intros k. unfold ptr. destruct (k <=? IND)%nat; [done|]. destruct (_ =? 0) eqn:E0; [done|]. bsplit. rewrite disk_upd_ne; [done|].
      destruct (ind_data V j Fo E0) as [[? _] _]. lia. }
    split; [|split; [done|]].
    + destruct Fo as [? ? Hpt Hin]. split; [done|done| |].
      * intros k Hk. rewrite Hp. intros H0. destruct (Hpt k Hk H0) as [Hkd Hkf]. split; [done|]. rewrite Hfree; [done|].
        pose proof (data_pos LY _ Hkd). lia.
      * intros k k' Hk Hk'. rewrite !Hp. auto.
    + intros o Ho. unfold fbyte. rewrite Hp. destruct (_ =? 0) eqn:E0; [done|]. bsplit. rewrite disk_upd_ne; [done|].
      destruct (offset_block o Ho) as [Hob _]. destruct (slot_range _ Hob) as [Hs _]. destruct (fo_ptr _ _ _ Fo _ Hs E0) as [[? _] _]. lia.
Qed.
End inode.

(** ** [readi] and [writei] *)

Section io.
Context {S : Type} `{!BlockCache S} {W : world} (LY : layout W) (devsw : Z -> dev_ops (S := S)).
Local Abbreviation F := (fs S).

Lemma readi_run (f : F) ip i V bs off n :
  icache f !! ip = Some i -> sb f = w_sb W -> txn W (flog f) V ∅ bs -> disk_ok W V -> file_inv W V i ->
  itype i <> T_DEV -> 0 <= off <= isize i -> 0 <= n -> off + n < 2 ^ 32 ->
  let m := Z.min n (isize i - off) in
  exists l', readi devsw ip off n f = Ret (m, sub (contents V i) (Z.to_nat off) (Z.to_nat m)) (set_flog l' f) /\ txn W l' V ∅ bs.
Proof.
  intros Hi Hsb T D [Fo Hs Hsol Hty Hin _] Hdev Ho Hn Hov m. unfold readi. rewrite bind_get, (I_lookup f ip i Hi). cbv zeta.
  rewrite (proj2 (Z.eqb_neq _ _)) by done. rewrite u32_small by lia.
  replace (isize i <? off) with false by lia. replace (off + n <? off) with false by lia. cbn [orb].
  assert ((if isize i <? off + n then isize i - off else n) = m) as -> by (unfold m; destruct (isize i <? off + n) eqn:?; bsplit; lia).
  destruct (readi_loop_run LY (chunks m) f ip i V bs off m Hi Hsb T D Fo) as (l' & E & T'); try lia.
  { intros o Hor. apply Hsol. lia. }
  { apply turns_chunks; lia. }
  exists l'. rewrite (bind_ret _ _ _ _ _ E), sub_contents by lia. done.
Qed.

Lemma extends_typed V i V' i' : inode_typed i -> extends W V i V' i' -> inode_typed i'.
Proof.
  intros [H1 H2 H3 _] G. rewrite (gr_inode _ _ _ _ _ G). pose proof (gr_file _ _ _ _ _ G) as Fo. pose proof (fo_len _ _ _ Fo) as Hl.
  split; [done..|]. split; [done|]. apply Forall_lookup. intros k a Hk. cbn [iaddrs set_iaddrs] in Hk. pose proof (lookup_lt_Some _ _ _ Hk).
  assert (ptr V' i' k = a) as Ep by (unfold ptr; rewrite (proj2 (Nat.leb_le k IND)) by (unfold IND; lia); by apply list_lookup_total_correct).
  unfold uint. destruct (decide (a = 0)) as [->|H0]; [lia|]. rewrite <- Ep in H0.
  destruct (fo_ptr _ _ _ Fo k) as [Hd _]; [unfold SLOTS; lia|done|]. rewrite Ep in Hd. pose proof (data_pos LY _ Hd). destruct LY. lia.
Qed.

(** The loop of [writei], from the point of view of the whole file; [i'] may still
    have to be given its new size. *)
Lemma extends_contents V i V' i' off src :
  file_inv W V i -> extends W V i V' i' -> overwritten V i off src V' i' -> solid V' i' off (Z.of_nat (length src)) ->
  0 <= off <= isize i -> off + Z.of_nat (length src) <= MAXFILE * BSIZE ->
  let size := Z.max (isize i) (off + Z.of_nat (length src)) in
  solid V' i' 0 size /\ fbyte V' i' <$> seqZ 0 size = patch (contents V i) (Z.to_nat off) src.
Proof.
  intros [Fo Hs Hsol _ _ _] G Ow Hsol' Ho Hmax size. split.
  - intros o Hor. destruct (decide (off <= o < off + Z.of_nat (length src))); [by apply Hsol'|].
    assert (o < isize i) as Hlt by lia. pose proof (Hsol o ltac:(lia)) as Hp. destruct (offset_block o) as [Hb _]; [lia|].
    destruct (slot_range _ Hb) as [Hsl _]. by rewrite (gr_ptr _ _ _ _ _ G).
  - apply list_eq. intros k. rewrite list_lookup_fmap. unfold patch. rewrite lookup_app, length_take, length_file.
    rewrite Nat.min_l by lia. destruct (decide (Z.of_nat k < size)) as [Hk|Hk].
    + rewrite lookup_seqZ_lt by lia. simpl. rewrite Ow by lia. case_decide as Hin.
      * rewrite lookup_take_ge by lia. rewrite lookup_app_l by lia. symmetry. rewrite (list_lookup_lookup_total_lt src) by lia. do 2 f_equal. lia.
      * destruct (decide (k < Z.to_nat off)%nat).
        -- rewrite lookup_take_lt, lookup_contents by lia. done.
        -- rewrite lookup_take_ge by lia. rewrite lookup_app_r, lookup_drop by lia. rewrite lookup_contents by lia. do 2 f_equal. lia.
    + rewrite lookup_seqZ_ge by lia. rewrite lookup_take_ge by lia. rewrite lookup_app_r by lia. rewrite lookup_drop.
      symmetry. apply lookup_ge_None. rewrite length_file. lia.
Qed.
End io.

(** An operation on the file [i]: the file is still well formed, and nothing that is
    not its own has changed. *)
Record updates (W : world) (V : disk) (i : inode) (V' : disk) (i' : inode) : Prop := {
  up_disk : disk_ok W V';
  up_inv : file_inv W V' i';
  up_inode : i' = set_isize (isize i') (set_iaddrs (iaddrs i') i);
  up_frame : forall x, others W V i x -> x <> inode_block W i -> V' x = V x;
  up_slot : forall n, 0 <= n < sb_ninodes (w_sb W) -> n <> inum i ->
    sub (V' (IBLOCK n (w_sb W))) (dinode_off n) 64 = sub (V (IBLOCK n (w_sb W))) (dinode_off n) 64;
  up_used : forall x, 0 <= x < sb_size (w_sb W) -> ~ owned V i x -> is_free W V x = false -> is_free W V' x = false;
  up_fresh : forall x, owned V' i' x -> owned V i x \/ is_free W V x = true }.

Section updates.
Context {S : Type} `{!BlockCache S} {W : world} (LY : layout W) (devsw : Z -> dev_ops (S := S)).
Local Abbreviation F := (fs S).

Lemma dinode_disjoint n m : 0 <= n -> 0 <= m -> n / IPB = m / IPB -> n <> m ->
  (dinode_off n + 64 <= dinode_off m \/ dinode_off m + 64 <= dinode_off n)%nat.
Proof.
  intros Hn Hm E Hne. unfold dinode_off, IPB, DINODE_SIZE, BSIZE in *. change (512 / 64) with 8 in *.
  pose proof (Z.mod_pos_bound n 8 ltac:(done)). pose proof (Z.mod_pos_bound m 8 ltac:(done)).
  pose proof (Z.div_mod n 8 ltac:(done)). pose proof (Z.div_mod m 8 ltac:(done)). lia.
Qed.

(** Writing back the inode after its file has grown. *)
Lemma updates_grown V i V1 i1 size :
  file_inv W V i -> disk_ok W V -> extends W V i V1 i1 -> solid V1 i1 0 size -> isize i <= size <= MAXFILE * BSIZE ->
  let i2 := set_isize size i1 in
  updates W V i (disk_upd V1 (inode_block W i2) (put_dinode (V1 (inode_block W i2)) (dinode_off (inum i2)) i2)) i2 /\
  forall o, 0 <= o < MAXFILE * BSIZE ->
    fbyte (disk_upd V1 (inode_block W i2) (put_dinode (V1 (inode_block W i2)) (dinode_off (inum i2)) i2)) i2 o = fbyte V1 i1 o.
Proof.
  intros [Fo Hs Hsol Hty Hin Hod] D G Hsol1 Hsize i2. pose proof (gr_inode _ _ _ _ _ G) as Ei.
  assert (inum i2 = inum i) as En by (unfold i2; rewrite Ei; done). assert (inode_block W i2 = inode_block W i) as Eb by (unfold inode_block; by rewrite En).
  rewrite Eb, En. destruct (iblock_range LY (inum i) Hin) as (Hib & Hlg & Hr & Hnb). fold (inode_block W i) in *.
  assert (inode_typed i2) as Hty2.
  { pose proof (extends_typed LY V i V1 i1 Hty G) as [? [? ?] ? ?]. split; [done| |done|done]. split; [|done].
    unfold uint, MAXFILE, NINDIRECT, NDIRECT, BSIZE in *. change (512 / 4) with 128 in *. simpl. lia. }
  assert (is_block (V1 (inode_block W i))) as Hblk by (apply (gr_disk _ _ _ _ _ G); destruct LY; lia).
  destruct (get_put_dinode (V1 (inode_block W i)) (dinode_off (inum i)) i2 i2 Hblk (dinode_fits _) Hty2) as (Hblk' & Hoth & Hsame).
  destruct (meta_write LY V1 (inode_block W i) _ (gr_disk _ _ _ _ _ G) Hblk' Hr Hnb) as (D2 & Hfree & Hfiles).
  destruct (Hfiles i1 (gr_file _ _ _ _ _ G)) as (Fo2 & Hptr & Hbyte). set (V2 := disk_upd _ _ _) in *.
  split; [|exact Hbyte]. split.
  - done.
  - split.
    + destruct Fo2. by split.
    + simpl. lia.
    + intros o Ho. change (ptr V2 i2 (slot (o / BSIZE))) with (ptr V2 i1 (slot (o / BSIZE))). rewrite Hptr. by apply Hsol1.
    + done.
    + by rewrite En.
    + unfold on_disk. rewrite Eb, En. unfold V2. by rewrite disk_upd_eq.
  - unfold i2. rewrite Ei. done.
  - intros x Hx Hne. unfold V2. rewrite disk_upd_ne by done. by apply (gr_frame _ _ _ _ _ G).
  - intros n Hn Hne. pose proof (iblock_others LY V i n D Fo Hn) as Hno. rewrite <- (gr_frame _ _ _ _ _ G _ Hno).
    destruct (decide (IBLOCK n (w_sb W) = inode_block W i)) as [E|E]; [|unfold V2; by rewrite disk_upd_ne].
    rewrite E. unfold V2. rewrite disk_upd_eq. apply Hoth. destruct (iblock_range LY n Hn) as (Hnb' & _). apply dinode_disjoint; [lia|lia|lia|done].
  - intros x Hx _ Hf. rewrite Hfree by done. by apply (gr_used _ _ _ _ _ G).
  - intros x (k & Hk & E & H0). change (ptr V2 i2 k) with (ptr V2 i1 k) in E. rewrite Hptr in E. subst x.
    destruct (gr_fresh _ _ _ _ _ G k Hk H0) as [Ef|Ef]; [left; exists k; by rewrite Ef|by right].
Qed.

(** A write inside the file leaves the inode as it is. *)
Lemma updates_inside V i V1 :
  file_inv W V i -> disk_ok W V -> extends W V i V1 i -> updates W V i V1 i.
Proof.
  intros [Fo Hs Hsol Hty Hin Hod] D G.
  assert (forall n, 0 <= n < sb_ninodes (w_sb W) -> V1 (IBLOCK n (w_sb W)) = V (IBLOCK n (w_sb W))) as Hib.
  { intros n Hn. apply (gr_frame _ _ _ _ _ G). by apply (iblock_others LY). }
  split.
  - apply G.
  - split; [apply G|done| |done|done|].
    + intros o Ho. pose proof (Hsol o Ho) as Hp. destruct (offset_block o) as [Hb _]; [lia|]. destruct (slot_range _ Hb) as [Hs' _].
      by rewrite (gr_ptr _ _ _ _ _ G).
    + unfold on_disk, inode_block. by rewrite Hib.
  - by destruct i.
  - intros x Hx _. by apply (gr_frame _ _ _ _ _ G).
  - intros n Hn _. by rewrite Hib.
  - intros x Hx _. by apply (gr_used _ _ _ _ _ G).
  - intros x (k & Hk & E & H0). subst x. destruct (gr_fresh _ _ _ _ _ G k Hk H0) as [Ef|Ef]; [left; exists k; by rewrite Ef|by right].
Qed.

Lemma max_file : MAXFILE * BSIZE < 2 ^ 31.
Proof. done. Qed.

Lemma writei_run (f : F) ip i V bs off src :
  let n := Z.of_nat (length src) in
  icache f !! ip = Some i -> sb f = w_sb W -> txn W (flog f) V ∅ bs -> disk_ok W V -> file_inv W V i ->
  itype i <> T_DEV -> 0 <= off <= isize i -> off + n <= MAXFILE * BSIZE -> avail W V (2 * Z.to_nat (turns off n)) ->
  Z.of_nat (length bs + nbitmap W) + turns off n + 7 <= w_nlog W ->
  exists i' V' bs' l', writei devsw ip src off n f = Ret n (upd_file f ip i' l') /\ txn W l' V' ∅ bs' /\ updates W V i V' i' /\
    isize i' = Z.max (isize i) (off + n) /\ contents V' i' = patch (contents V i) (Z.to_nat off) src /\
    Z.of_nat (length bs') <= Z.of_nat (length bs + nbitmap W) + turns off n + 2.
Proof.
  intros n Hi Hsb T D Inv Hdev Ho Hmax Hav Hlog. pose proof Inv as [Fo Hs Hsol Hty Hin Hod]. pose proof max_file.
  unfold writei. rewrite bind_get, (I_lookup f ip i Hi). cbv zeta. rewrite (proj2 (Z.eqb_neq _ _)) by done. rewrite u32_small by lia.
  replace (isize i <? off) with false by lia. replace (off + n <? off) with false by lia. cbn [orb]. rewrite (proj2 (Z.ltb_ge _ _)) by lia.
  destruct (writei_loop_run LY (chunks n) f ip i V bs bs src off n Hi Hsb T D Fo)
    as (i1 & V1 & bs1 & U1 & l1 & E1 & T1 & G1 & O1 & S1 & Hw1 & HU1 & Hid); try done; try lia.
  { apply turns_chunks; lia. }
  { intros y Hy. by right; right. }
  rewrite (bind_ret _ _ _ _ _ E1), bind_get, (I_lookup (upd_file f ip i1 l1) ip i1) by (by apply (upd_file_lookup f ip i)).
  assert (isize i1 = isize i) as Es by (rewrite (gr_inode _ _ _ _ _ G1); done). rewrite Es.
  pose proof (within_length W i1 U1 bs1 LY (txn_nodup _ _ _ _ _ T1) Hw1) as Hlen.
  destruct (extends_contents V i V1 i1 off src Inv G1 O1 S1) as [Hsol1 Hc]; [done|done|]. fold n in Hsol1, Hc.
  destruct ((0 <? n) && (isize i <? off + n)) eqn:Eg; bsplit; cbn [when].
  - rewrite Z.max_r in * by lia. set (i2 := set_isize (off + n) i1).
    assert (updi ip (set_isize (off + n)) (upd_file f ip i1 l1) = upd_file f ip i2 l1) as Eu.
    { unfold updi. rewrite (alter_set (upd_file f ip i1 l1) ip i1) by (by apply (upd_file_lookup f ip i)). apply (upd_file_twice f ip i1 l1 i2 l1). }
    rewrite bind_assoc, bind_modify, Eu. pose proof (extends_typed LY V i V1 i1 Hty G1).
    assert (inum i2 = inum i) as En by (unfold i2; rewrite (gr_inode _ _ _ _ _ G1); done).
    destruct (iupdate_run LY (upd_file f ip i2 l1) ip i2 V1 bs1) as (l2 & E2 & T2); [by apply (upd_file_lookup f ip i)|done|done|apply (gr_file _ _ _ _ _ G1)|by rewrite En|lia|].
    rewrite (bind_ret _ _ _ _ _ E2). destruct (updates_grown V i V1 i1 (off + n) Inv D G1 Hsol1) as [Hup Hby]; [lia|]. fold i2 in Hup, Hby.
    eexists i2, _, _, l2. split; [done|]. split; [exact T2|]. split; [exact Hup|]. split; [done|]. split.
    + rewrite <- Hc. unfold contents. apply list_fmap_ext. intros k o Hk. apply lookup_seqZ in Hk as [-> Hk]. apply Hby. simpl in Hk. lia.
    + pose proof (length_add_block (inode_block W i2) bs1). lia.
  - assert (i1 = i) as ->. { apply Hid. intros o Hor. apply Hsol. lia. }
    rewrite Z.max_l in * by lia. exists i, V1, bs1, l1. split; [done|]. split; [done|]. split; [by apply updates_inside|]. split; [done|].
    split; [done|lia].
Qed.
End updates.

(** ** Other files *)

Lemma sub_eq_lookup d d' off n : sub d off n = sub d' off n -> forall k, (off <= k < off + n)%nat -> d !! k = d' !! k.
Proof.
  intros E k Hk. pose proof (f_equal (fun l => l !! (k - off)%nat) E) as E'. cbv beta in E'. rewrite !sub_lookup, !decide_True in E' by lia.
  by replace (off + (k - off))%nat with k in E' by lia.
Qed.

Lemma get_dinode_ext d d' off i : sub d off 64 = sub d' off 64 -> get_dinode d off i = get_dinode d' off i.
Proof.
  intros E. pose proof (sub_eq_lookup d d' off 64 E) as Hk.
  assert (forall k n, (off <= k)%nat -> (k + n <= off + 64)%nat -> sub d k n = sub d' k n) as Hs.
  { intros k n Hk1 Hk2. apply list_eq. intros j. rewrite !sub_lookup. case_decide; [|done]. apply Hk. lia. }
  unfold get_dinode, short_at, half_at, word_at. rewrite !list_lookup_total_alt. rewrite !Hk by lia. rewrite !Hs by lia.
  f_equal. apply list_fmap_ext. intros k x [-> Hx]%lookup_seq. rewrite Hs by lia. done.
Qed.

Section others.
Context {W : world} (LY : layout W).

Definition disjoint_files (V : disk) (i j : inode) : Prop := inum j <> inum i /\ forall x, owned V j x -> ~ owned V i x.

Lemma owned_others V i j x : file_inv W V i -> file_inv W V j -> disjoint_files V i j -> owned V j x ->
  others W V i x /\ x <> inode_block W i.
Proof.
  intros Ii [Fo _ _ _ _ _] [_ Hdis] Hx. pose proof Hx as (k & Hk & E & H0). rewrite <- E in H0.
  destruct (fo_ptr _ _ _ Fo k Hk H0) as [Hd Hf]. rewrite E in Hd, Hf. pose proof (data_pos LY x Hd).
  split; [split_and!; [lia|lia|by apply (data_no_bitmap LY)|by apply Hdis|done]|].
  destruct (iblock_range LY (inum i) (fi_inum _ _ _ Ii)) as (_ & _ & Hr & _). destruct Hd. unfold inode_block. lia.
Qed.

Lemma updates_same V i V' i' j :
  file_inv W V i -> updates W V i V' i' -> file_inv W V j -> disjoint_files V i j ->
  (forall k, (k < SLOTS)%nat -> ptr V' j k = ptr V j k) /\ (forall o, 0 <= o < MAXFILE * BSIZE -> fbyte V' j o = fbyte V j o).
Proof.
  intros Ii U Ij Hdis.
  assert (forall x, owned V j x -> V' x = V x) as Hsame.
  { intros x Hx. destruct (owned_others V i j x Ii Ij Hdis Hx). by apply (up_frame _ _ _ _ _ U). }
  assert (forall k, (k < SLOTS)%nat -> ptr V' j k = ptr V j k) as Hp.
  { intros k Hk. unfold ptr. destruct (k <=? IND)%nat; [done|]. destruct (_ =? 0) eqn:E0; [done|]. bsplit. rewrite Hsame; [done|].
    exists IND. split; [unfold IND, SLOTS; lia|done]. }
  split; [done|]. intros o Ho. destruct (offset_block o Ho) as [Hb _]. destruct (slot_range _ Hb) as [Hsl _]. unfold fbyte. rewrite Hp by done.
  destruct (_ =? 0) eqn:E0; [done|]. bsplit. rewrite Hsame; [done|]. by exists (slot (o / BSIZE)).
Qed.

Lemma updates_others V i V' i' j :
  file_inv W V i -> updates W V i V' i' -> file_inv W V j -> disjoint_files V i j ->
  file_inv W V' j /\ contents V' j = contents V j /\ disjoint_files V' i' j.
Proof.
  intros Ii U Ij Hdis. destruct (updates_same V i V' i' j Ii U Ij Hdis) as [Hp Hby]. destruct Ij as [Fo Hs Hsol Hty Hin Hod].
  assert (forall x, owned V' j x <-> owned V j x) as Hown by (intros x; split; intros (k & Hk & E & H0); exists k; by rewrite Hp in *).
  split; [|split].
  - split; [|done| |done|done|].
    + destruct Fo as [? ? Hpt Hij]. split; [done|done| |].
      * intros k Hk. rewrite Hp by done. intros H0. destruct (Hpt k Hk H0) as [Hd Hf]. split; [done|]. apply (up_used _ _ _ _ _ U); [pose proof (data_pos LY _ Hd); lia| |done].
        apply (proj2 Hdis). by exists k.
      * intros k k' Hk Hk'. rewrite !Hp by done. auto.
    + intros o Ho. destruct (offset_block o) as [Hb _]; [lia|]. destruct (slot_range _ Hb) as [Hsl _]. rewrite Hp by done. by apply Hsol.
    + unfold on_disk, inode_block in *. rewrite (get_dinode_ext _ (V (IBLOCK (inum j) (w_sb W)))); [done|]. apply (up_slot _ _ _ _ _ U); [done|apply Hdis].
  - unfold contents. apply list_fmap_ext. intros k o Hk. apply lookup_seqZ in Hk as [-> Hk]. apply Hby. lia.
  - split; [rewrite (up_inode _ _ _ _ _ U); apply Hdis|]. intros x Hx Hx'. apply Hown in Hx.
    destruct (up_fresh _ _ _ _ _ U x Hx') as [Ho|Hf]; [by apply (proj2 Hdis x)|].
    destruct Hx as (k & Hk & E & H0). rewrite <- E in H0. destruct (fo_ptr _ _ _ Fo k Hk H0) as [_ Hf']. congruence.
Qed.
End others.

(** ** Writing and reading back *)

(** The inode [ip] is in the cache, and the file system is inside a transaction. *)
Record open_file {S} `{!BlockCache S} (W : world) (f : fs S) (ip : nat) (i : inode) (V : disk) (bs : list Z) : Prop := {
  of_inode : icache f !! ip = Some i;
  of_sb : sb f = w_sb W;
  of_txn : txn W (flog f) V ∅ bs;
  of_disk : disk_ok W V;
  of_inv : file_inv W V i }.

(** C18: what is written to a file is what is read.  In a transaction with room in
    the log and enough free blocks, [writei] of any bytes at any offset up to
    the end of the file succeeds; a [readi] of any range then returns the
    bytes of the old file with the new ones patched in.  The file is
    well formed again, its size, block pointers and disk inode included, and
    every other file keeps its contents and its inode.  No more than one block
    per block touched, the bitmap, the indirect block and the inode
    are logged. *)
Theorem writei_readi {S} `{!BlockCache S} W (devsw : Z -> dev_ops (S := S)) f ip i V bs off src off' n' :
  layout W -> open_file W f ip i V bs -> itype i <> T_DEV ->
  let n := Z.of_nat (length src) in
  let size := Z.max (isize i) (off + n) in
  let new := patch (contents V i) (Z.to_nat off) src in
  let m := Z.min n' (size - off') in
  0 <= off <= isize i -> off + n <= MAXFILE * BSIZE -> 0 <= off' <= size -> 0 <= n' -> off' + n' < 2 ^ 32 ->
  avail W V (2 * Z.to_nat (turns off n)) -> Z.of_nat (length bs + nbitmap W) + turns off n + 7 <= w_nlog W ->
  exists i' V' bs' f', (let* r := writei devsw ip src off n in let* q := readi devsw ip off' n' in ret (r, q)) f
      = Ret (n, (m, sub new (Z.to_nat off') (Z.to_nat m))) f' /\
    open_file W f' ip i' V' bs' /\ isize i' = size /\ contents V' i' = new /\
    (forall j, file_inv W V j -> disjoint_files V i j -> file_inv W V' j /\ contents V' j = contents V j) /\
    Z.of_nat (length bs') <= Z.of_nat (length bs + nbitmap W) + turns off n + 2.
Proof.
  intros LY [Hi Hsb T D Inv] Hdev n size new m Ho Hmax Ho' Hn' Hov Hav Hlog.
  destruct (writei_run LY devsw f ip i V bs off src Hi Hsb T D Inv Hdev Ho Hmax Hav Hlog) as (i1 & V1 & bs1 & l1 & E1 & T1 & U1 & Hs1 & Hc1 & Hl1).
  fold n size in Hs1. fold new in Hc1. rewrite (bind_ret _ _ _ _ _ E1). pose proof (up_inv _ _ _ _ _ U1) as Inv1.
  assert (icache (upd_file f ip i1 l1) !! ip = Some i1) as Hi1 by (by apply (upd_file_lookup f ip i)).
  destruct (readi_run LY devsw (upd_file f ip i1 l1) ip i1 V1 bs1 off' n' Hi1 Hsb T1 (up_disk _ _ _ _ _ U1) Inv1) as (l2 & E2 & T2);
    [rewrite (up_inode _ _ _ _ _ U1); done|by rewrite Hs1|done|done|].
  rewrite Hs1, Hc1 in E2. fold m in E2. rewrite (bind_ret _ _ _ _ _ E2). eexists i1, V1, bs1, _. split; [done|].
  split; [split; [exact Hi1|exact Hsb|exact T2|apply U1|exact Inv1]|]. split_and!; try done.
  intros j Ij Hd. destruct (updates_others LY V i V1 i1 j Inv U1 Ij Hd) as (? & ? & _). done.
Qed.

(** ** The disk that mkfs lays out *)

Definition demo_bitmap : block := replicate 7 255 ++ [7] ++ replicate 504 0.
(** An empty file, or an empty directory. *)
Definition demo_inode (dir : bool) : inode :=
  mkInode 1 9 1 (mkSleeplock 1 3) 1 (if dir then T_DIR else T_FILE) 0 0 1 0 54 ([114; 111; 111; 116] ++ replicate 12 0) (replicate 8 0).
Definition mkfs_disk (dir : bool) : disk :=
  disk_upd (disk_upd demo_disk 58 demo_bitmap) 33 (put_dinode (replicate 512 0) 64 (demo_inode dir)).
Definition mkfs_world (dir : bool) : world := mkWorld (mkSuperblock 1000 941 200 30 2 32 58) 2 30 1000 59 (mkfs_disk dir).
Definition mkfs_log (dir : bool) : log bcache := mkLog 2 30 1 0 0 (replicate (Z.to_nat LOGSIZE) 0) (boot_cache (mkfs_disk dir) 1000).
Abbreviation mkfs_fs dir := (mkFs (w_sb (mkfs_world dir)) [demo_inode dir] (mkfs_log dir) ∅).

Lemma mkfs_layout dir : layout (mkfs_world dir).
Proof. by split. Qed.

Lemma mkfs_block dir b : is_block (mkfs_disk dir b).
Proof. unfold mkfs_disk, disk_upd, demo_disk. destruct dir; repeat case_match; vm_compute; reflexivity. Qed.

Lemma mkfs_disk_ok dir : disk_ok (mkfs_world dir) (mkfs_disk dir).
Proof.
  split; [intros; apply mkfs_block|]. intros b Hb.
  assert (forallb (fun b => negb (is_free (mkfs_world dir) (mkfs_disk dir) b)) (seqZ 0 59) = true) as HA by (destruct dir; vm_compute; reflexivity).
  rewrite forallb_forall in HA. apply negb_true_iff, HA. apply list_elem_of_In, elem_of_seqZ. cbn [w_data mkfs_world] in Hb. lia.
Qed.

Lemma mkfs_txn dir : txn (S := bcache) (BlockCache0 := bio_cache 7) (mkfs_world dir) (mkfs_log dir) (mkfs_disk dir) ∅ [].
Proof.
  split; [|done|done|done]. exists (boot_acache (mkfs_disk dir) 1000). split; [apply (boot_cache_rep 7)|]. split_and!; try done.
  split; [apply demo_geometry|done|done|done|apply NoDup_nil_2|by intros b ?%elem_of_nil|done|done|].
  split; [destruct dir; vm_compute; reflexivity..|apply NoDup_nil_2|by intros b ?%elem_of_nil|simpl; lia|destruct dir; vm_compute; done].
Qed.

Lemma mkfs_ptr dir V k : ptr V (demo_inode dir) k = 0.
Proof. unfold ptr. destruct (Nat.leb_spec k IND) as [Hk|]; [|done]. unfold IND in Hk. do 8 (destruct k as [|k]; [done|]). lia. Qed.

Lemma mkfs_file dir : file_inv (mkfs_world dir) (mkfs_disk dir) (demo_inode dir).
Proof.
  split.
  - split; [done|done|intros k _; by rewrite mkfs_ptr|intros k k' _ _; by rewrite mkfs_ptr].
  - split; vm_compute; congruence.
  - intros o Ho. simpl in Ho. lia.
  - split; [by destruct dir; repeat split|by repeat split|done|split; [done|]]. apply Forall_replicate. by split.
  - by split.
  - destruct dir; vm_compute; repeat split; reflexivity.
Qed.

Lemma mkfs_open dir : open_file (BlockCache0 := bio_cache 7) (mkfs_world dir) (mkfs_fs dir) 0 (demo_inode dir) (mkfs_disk dir) [].
Proof. split; [done|done|apply mkfs_txn|apply mkfs_disk_ok|apply mkfs_file]. Qed.

Lemma mkfs_avail dir : avail (mkfs_world dir) (mkfs_disk dir) 20.
Proof.
  exists (seqZ 59 20). split; [apply NoDup_seqZ|]. split; [by rewrite length_seqZ|].
  assert (forallb (is_free (mkfs_world dir) (mkfs_disk dir)) (seqZ 59 20) = true) as HA by (destruct dir; vm_compute; reflexivity).
  rewrite forallb_forall in HA. intros x Hx. split; [apply elem_of_seqZ in Hx; simpl; lia|]. by apply HA, list_elem_of_In.
Qed.

Lemma writei_readi_witness :
  exists f', (let* r := writei (BlockCache0 := bio_cache 7) (fun _ => mkDev None None) 0 [1; 2; 3; 4] 0 4 in
    let* q := readi (BlockCache0 := bio_cache 7) (fun _ => mkDev None None) 0 1 2 in ret (r, q)) (mkfs_fs false) = Ret (4, (2, [2; 3])) f'.
Proof.
  destruct (writei_readi (BlockCache0 := bio_cache 7) (mkfs_world false) (fun _ => mkDev None None) (mkfs_fs false) 0 (demo_inode false) (mkfs_disk false) [] 0 [1; 2; 3; 4] 1 2
    (mkfs_layout false) (mkfs_open false)) as (i' & V' & bs' & f' & E & _).
  - discriminate.
  - split; reflexivity || discriminate.
  - vm_compute. discriminate.
  - split; discriminate.
  - discriminate.
  - reflexivity.
  - apply (avail_le _ _ 20); [vm_compute; lia|exact (mkfs_avail false)].
  - vm_compute. discriminate.
  - exists f'. exact E.
Defined.
