(* ===== verification/FsDir.v ===== *)
(** * Directories

    [dirlookup] and [dirlink] of fs.c over the contents of a directory: a
    directory is a map from names (the first 14 characters) to
    inode numbers, [dirlookup] looks a name up and [dirlink] adds one. *)

From stdpp Require Import gmap.
From S2P Require Import Prelude CString Block Bio Log LogCrash Users Fs FsPath FsTxn FsBlocks FsFile FsData FsWrite.
Open Scope Z_scope.

(** ** Names *)

Lemma until_nul_take n l : until_nul (take (Datatypes.S n) l) =
  if char_at l 0 =? 0 then [] else char_at l 0 :: until_nul (take n (drop 1 l)).
Proof. destruct l as [|c l]; [done|]. simpl. by rewrite drop_0. Qed.

Lemma char_at_drop l k : char_at (drop k l) 0 = char_at l k.
Proof. unfold char_at. by rewrite lookup_drop, Nat.add_0_r. Qed.

Lemma strncmp_at_eq n s t k : strncmp_at n s t k = 0 <-> until_nul (take n (drop k s)) = until_nul (take n (drop k t)).
Proof.
  revert k. induction n as [|n IH]; intros k; [done|]. cbn [strncmp_at]. cbv zeta. rewrite !until_nul_take, !drop_drop, !char_at_drop.
  unfold nz. destruct (char_at s k =? 0) eqn:Es, (char_at t k =? 0) eqn:Et; cbn [negb andb]; bsplit.
  - rewrite Es, Et. done.
  - split; [lia|done].
  - replace (char_at s k =? char_at t k) with false by lia. split; [lia|done].
  - destruct (char_at s k =? char_at t k) eqn:E; bsplit.
    + rewrite IH, E. split; [by intros ->|by intros [= ?]].
    + split; [lia|intros [= ? _]; lia].
Qed.

(** [namecmp] compares the first 14 characters. *)
Lemma namecmp_eq s t : namecmp s t = 0 <-> name_of s = name_of t.
Proof. unfold namecmp, name_of. rewrite strncmp_at_eq, !drop_0. done. Qed.

Lemma mk_dirent_name name n : name_of (de_name (mk_dirent name n)) = name_of name.
Proof.
  unfold de_name, mk_dirent. change 2%nat with (length (half_bytes n) + 0)%nat. rewrite sub_app_r. unfold sub. rewrite drop_0.
  unfold name_of. rewrite take_take, Nat.min_id. apply strncpy_l_string.
Qed.
Lemma mk_dirent_inum name n : 0 <= n < 2 ^ 16 -> de_inum (mk_dirent name n) = n.
Proof. intros. unfold de_inum, mk_dirent. rewrite half_at_cons. by apply Z.mod_small. Qed.
Lemma length_mk_dirent name n : length (mk_dirent name n) = 16%nat.
Proof. unfold mk_dirent. rewrite length_app, length_strncpy_l by done. done. Qed.

(** ** Entries *)

Definition dirent (C : list Z) (k : nat) : list Z := sub C (16 * k) 16.
Definition binds (name e : list Z) : bool := negb (de_inum e =? 0) && bool_decide (name_of name = name_of (de_name e)).

(** The first entry from [k] on, of [n], that binds [name]. *)
Fixpoint find_from (name C : list Z) (k n : nat) : option (nat * Z) :=
  match n with
  | O => None
  | Datatypes.S n' => if binds name (dirent C k) then Some (k, de_inum (dirent C k)) else find_from name C (Datatypes.S k) n'
  end.
(** What a directory with the contents [C] binds [name] to: the entry and the inode number. *)
Definition dir_find (name C : list Z) : option (nat * Z) := find_from name C 0 (length C / 16).

(** The first empty entry from [k] on, of [n]; the end if there is none. *)
Fixpoint empty_from (C : list Z) (k n : nat) : nat :=
  match n with
  | O => k
  | Datatypes.S n' => if de_inum (dirent C k) =? 0 then k else empty_from C (Datatypes.S k) n'
  end.

Lemma empty_from_spec C k n : let e := empty_from C k n in
  (k <= e <= k + n)%nat /\ ((e < k + n)%nat -> de_inum (dirent C e) = 0).
Proof.
  revert k. induction n as [|n IH]; intros k; cbn [empty_from]; [lia|]. destruct (_ =? 0) eqn:E; bsplit; [split; [lia|done]|].
  destruct (IH (Datatypes.S k)) as [? He]. split; [lia|]. intros. apply He. lia.
Qed.

Lemma find_from_ext name C C' k n :
  (forall j, (k <= j < k + n)%nat -> binds name (dirent C' j) = binds name (dirent C j) /\
     (binds name (dirent C j) = true -> de_inum (dirent C' j) = de_inum (dirent C j))) ->
  find_from name C' k n = find_from name C k n.
Proof.
  revert k. induction n as [|n IH]; intros k H; cbn [find_from]; [done|]. destruct (H k) as [-> Hi]; [lia|].
  destruct (binds name (dirent C k)); [by rewrite Hi|]. apply IH. intros j Hj. apply H. lia.
Qed.

Lemma find_from_app name C k n m :
  find_from name C k (n + m) = match find_from name C k n with Some r => Some r | None => find_from name C (k + n) m end.
Proof.
  revert k. induction n as [|n IH]; intros k; [by rewrite Nat.add_0_r|]. cbn [Nat.add find_from]. destruct (binds _ _); [done|].
  rewrite IH. by rewrite Nat.add_succ_r.
Qed.

Lemma find_from_none name C k n : find_from name C k n = None <-> forall j, (k <= j < k + n)%nat -> binds name (dirent C j) = false.
Proof.
  revert k. induction n as [|n IH]; intros k; cbn [find_from]; [split; [intros; lia|done]|]. destruct (binds _ _) eqn:E.
  - split; [done|]. intros H. rewrite H in E by lia. done.
  - rewrite IH. split; intros H j Hj; [destruct (decide (j = k)) as [->|]; [done|]|]; apply H; lia.
Qed.

(** Storing an entry of 16 bytes at [e]. *)
Lemma dirent_store C N e b : length C = (16 * N)%nat -> (e <= N)%nat -> length b = 16%nat ->
  let C' := patch C (16 * e) b in
  length C' = (16 * Nat.max N (e + 1))%nat /\ dirent C' e = b /\ forall j, j <> e -> (j < N)%nat -> dirent C' j = dirent C j.
Proof.
  intros Hl He Hb C'. unfold C', patch, dirent, sub. split_and!.
  - rewrite !length_app, length_take, length_drop. lia.
  - rewrite drop_app_length' by (rewrite length_take; lia). by apply take_app_length'.
  - intros j Hj HjN. apply list_eq. intros q. destruct (decide (q < 16)%nat); [|by rewrite !lookup_take_ge by lia].
    rewrite !lookup_take_lt, !lookup_drop by done. destruct (decide (j < e)%nat).
    + rewrite lookup_app_l by (rewrite length_take; lia). by rewrite lookup_take_lt by lia.
    + rewrite lookup_app_r by (rewrite length_take; lia). rewrite length_take, Nat.min_l by lia. rewrite lookup_app_r by lia.
      rewrite lookup_drop. f_equal. lia.
Qed.

(** An entry that binds nothing can be skipped. *)
Lemma find_from_skip name C e N : (e <= N)%nat -> ((e < N)%nat -> binds name (dirent C e) = false) ->
  find_from name C 0 N = match find_from name C 0 e with Some r => Some r | None => find_from name C (e + 1) (N - (e + 1)) end.
Proof.
  intros He He0. destruct (decide (e < N)%nat) as [HeN|HeN].
  - replace N with (e + (1 + (N - (e + 1))))%nat at 1 by lia. rewrite find_from_app. destruct (find_from name C 0 e); [done|].
    rewrite Nat.add_0_l. cbn [Nat.add find_from]. rewrite (He0 HeN). by rewrite Nat.add_1_r.
  - replace N with e by lia. destruct (find_from name C 0 e); [done|]. by replace (e - (e + 1))%nat with 0%nat by lia.
Qed.

Lemma dir_find_length name C N : length C = (16 * N)%nat -> dir_find name C = find_from name C 0 N.
Proof. intros Hl. unfold dir_find. rewrite Hl, (Nat.mul_comm 16), Nat.div_mul by done. done. Qed.

(** Storing the entry of [name] in an empty place, or at the end, adds the binding. *)
Lemma dir_find_add name n C N :
  length C = (16 * N)%nat -> 0 < n < 2 ^ 16 -> dir_find name C = None ->
  let e := empty_from C 0 N in
  let C' := patch C (16 * e) (mk_dirent name n) in
  length C' = (16 * Nat.max N (e + 1))%nat /\
  forall name', dir_find name' C' = if decide (name_of name' = name_of name) then Some (e, n) else dir_find name' C.
Proof.
  intros Hl Hn Hnone e C'. pose proof (empty_from_spec C 0 N) as [He He0]. fold e in He, He0. rewrite Nat.add_0_l in *.
  destruct (dirent_store C N e (mk_dirent name n) Hl) as (Hl' & Ee & Hoth); [lia|apply length_mk_dirent|]. fold C' in Hl', Ee, Hoth.
  split; [done|]. intros name'. rewrite (dir_find_length _ _ _ Hl'). rewrite (dir_find_length name' C N Hl). rewrite (dir_find_length name C N Hl) in Hnone.
  assert (binds name' (dirent C' e) = bool_decide (name_of name' = name_of name)) as Eb.
  { unfold binds. rewrite Ee, mk_dirent_inum, mk_dirent_name by lia. by replace (n =? 0) with false by lia. }
  assert (binds name' (dirent C e) = false \/ e = N) as He1.
  { destruct (decide (e < N)%nat) as [HeN|]; [left|right; lia]. unfold binds. by rewrite (He0 HeN). }
  rewrite (find_from_skip name' C e N) by (lia || (intros; destruct He1; [done|lia])).
  replace (Nat.max N (e + 1)) with (e + (1 + (N - (e + 1))))%nat by lia. rewrite find_from_app, Nat.add_0_l. cbn [Nat.add find_from].
  rewrite (find_from_ext name' C C' 0 e) by (intros j Hj; rewrite Hoth by lia; done). rewrite Eb, Ee, mk_dirent_inum by lia.
  case_decide as En.
  - rewrite bool_decide_true by done. rewrite (proj2 (find_from_none name' C 0 e)); [done|]. intros j Hj.
    pose proof (proj1 (find_from_none _ _ _ _) Hnone j ltac:(lia)) as Hb. unfold binds in *. by rewrite En.
  - rewrite bool_decide_false by done. rewrite <- Nat.add_1_r. rewrite (find_from_ext name' C C' (e + 1) (N - (e + 1))); [done|].
    intros j Hj. by rewrite Hoth by lia.
Qed.

(** ** [dirlookup] and [dirlink] *)

Section dir.
Context {S : Type} `{!BlockCache S} {W : world} (LY : layout W) (devsw : Z -> dev_ops (S := S)).
Local Abbreviation F := (fs S).

(** A directory of [N] entries. *)
Record open_dir (f : F) (dp : nat) (i : inode) (V : disk) (bs : list Z) (N : nat) : Prop := {
  od_file : open_file W f dp i V bs;
  od_type : itype i = T_DIR;
  od_size : isize i = 16 * Z.of_nat N }.

Lemma dir_length f dp i V bs N : open_dir f dp i V bs N -> length (contents V i) = (16 * N)%nat.
Proof. intros [_ _ Hs]. rewrite length_file, Hs. lia. Qed.

Lemma open_dir_log f dp i V bs N l : open_dir f dp i V bs N -> txn W l V ∅ bs -> open_dir (set_flog l f) dp i V bs N.
Proof. intros [[] ? ?] T. by split. Qed.

Lemma read_entry f dp i V bs N k : open_dir f dp i V bs N -> (k < N)%nat ->
  exists l', readi devsw dp (16 * Z.of_nat k) DIRENT_SIZE f = Ret (DIRENT_SIZE, dirent (contents V i) k) (set_flog l' f) /\
    open_dir (set_flog l' f) dp i V bs N.
Proof.
  intros O Hk. pose proof O as [[Hi Hsb T D Inv] Hty Hs]. pose proof (fi_size _ _ _ Inv) as Hmax. pose proof max_file.
  destruct (readi_run LY devsw f dp i V bs (16 * Z.of_nat k) DIRENT_SIZE Hi Hsb T D Inv) as (l' & E & T');
    [by rewrite Hty|lia|done|unfold DIRENT_SIZE; lia|].
  rewrite Z.min_l in E by (unfold DIRENT_SIZE; lia). exists l'. split; [|by apply open_dir_log].
  rewrite E. unfold dirent, DIRENT_SIZE. do 3 f_equal. lia.
Qed.

(** What the search returns: the inode of the entry found. *)
Definition found (r : option (nat * Z)) : M F (option (nat * Z)) :=
  match r with
  | Some (k, n) => let* ip := iget ROOTDEV n in ret (Some (ip, 16 * Z.of_nat k))
  | None => ret None
  end.

Lemma dirlookup_loop_run fuel f dp i V bs N name k :
  open_dir f dp i V bs N -> (k <= N)%nat -> (N - k <= fuel)%nat ->
  exists l', dirlookup_loop devsw fuel dp name (16 * Z.of_nat k) f = found (find_from name (contents V i) k (N - k)) (set_flog l' f) /\
    open_dir (set_flog l' f) dp i V bs N.
Proof.
  revert f k. induction fuel as [|fuel IH]; intros f k O Hk Hf; pose proof O as [[Hi _ _ _ Inv] _ Hs].
  { exists (flog f). replace (N - k)%nat with 0%nat by lia. by destruct f. }
  cbn [dirlookup_loop]. rewrite bind_get, (I_lookup f dp i Hi), Hs. destruct (decide (k = N)) as [->|Hne].
  { rewrite (proj2 (Z.ltb_ge _ _)) by lia. exists (flog f). rewrite Nat.sub_diag. by destruct f. }
  rewrite (proj2 (Z.ltb_lt _ _)) by lia. destruct (read_entry f dp i V bs N k O) as (l1 & E1 & O1); [lia|].
  rewrite (bind_ret _ _ _ _ _ E1). cbn [fst snd]. rewrite Z.eqb_refl. cbn [negb].
  replace (16 * Z.of_nat k + DIRENT_SIZE) with (16 * Z.of_nat (Datatypes.S k)) by (unfold DIRENT_SIZE; lia).
  destruct (IH (set_flog l1 f) (Datatypes.S k) O1) as (l2 & E2 & O2); [lia..|].
  replace (N - k)%nat with (Datatypes.S (N - Datatypes.S k)) by lia. cbn [find_from]. set (e := dirent (contents V i) k) in *.
  unfold binds. destruct (de_inum e =? 0) eqn:E0; cbn [negb andb]; [by exists l2|].
  destruct (namecmp name (de_name e) =? 0) eqn:En; bsplit.
  - apply namecmp_eq in En. rewrite bool_decide_true by done. exists l1. cbn [found]. by rewrite (fo_dev _ _ _ (fi_ok _ _ _ Inv)).
  - rewrite bool_decide_false by (intros ?%namecmp_eq; done). by exists l2.
Qed.

Lemma dirlookup_run f dp i V bs N name :
  open_dir f dp i V bs N ->
  exists l', dirlookup devsw dp name f = found (dir_find name (contents V i)) (set_flog l' f) /\ open_dir (set_flog l' f) dp i V bs N.
Proof.
  intros O. pose proof O as [[Hi _ _ _ Inv] Hty Hs]. unfold dirlookup. rewrite bind_get, (I_lookup f dp i Hi), Hty, Hs. cbn [negb Z.eqb].
  rewrite (dir_find_length _ _ N) by (by eapply dir_length). rewrite Z.eqb_refl. cbn [negb].
  destruct (dirlookup_loop_run (entries (16 * Z.of_nat N)) f dp i V bs N name 0 O) as (l' & E & O'); [lia| |by exists l'; rewrite Nat.sub_0_r in E].
  unfold entries, DIRENT_SIZE. rewrite (Z.mul_comm 16), Z.div_mul by done. lia.
Qed.

Lemma dirlink_scan_run fuel f dp i V bs N k :
  open_dir f dp i V bs N -> (k <= N)%nat -> (N - k < fuel)%nat ->
  exists l', dirlink_scan devsw fuel dp (16 * Z.of_nat k) f = Ret (Some (16 * Z.of_nat (empty_from (contents V i) k (N - k)))) (set_flog l' f) /\
    open_dir (set_flog l' f) dp i V bs N.
Proof.
  revert f k. induction fuel as [|fuel IH]; intros f k O Hk Hf; [lia|]. pose proof O as [[Hi _ _ _ Inv] _ Hs].
  cbn [dirlink_scan]. rewrite bind_get, (I_lookup f dp i Hi), Hs. destruct (decide (k = N)) as [->|Hne].
  { rewrite (proj2 (Z.ltb_ge _ _)) by lia. exists (flog f). rewrite Nat.sub_diag. by destruct f. }
  rewrite (proj2 (Z.ltb_lt _ _)) by lia. destruct (read_entry f dp i V bs N k O) as (l1 & E1 & O1); [lia|].
  rewrite (bind_ret _ _ _ _ _ E1). cbn [fst snd]. rewrite Z.eqb_refl. cbn [negb].
  replace (16 * Z.of_nat k + DIRENT_SIZE) with (16 * Z.of_nat (Datatypes.S k)) by (unfold DIRENT_SIZE; lia).
  replace (N - k)%nat with (Datatypes.S (N - Datatypes.S k)) by lia. cbn [empty_from].
  destruct (de_inum _ =? 0); [by exists l1|]. apply (IH (set_flog l1 f)); [done|lia..].
Qed.
End dir.

Lemma turns_entry k : 0 <= k -> turns (16 * k) 16 = 1.
Proof.
  intros Hk. unfold turns, BSIZE. change (16 <=? 0) with false. cbv iota. replace ((16 * k + 16 - 1) / 512) with (16 * k / 512); [lia|].
  pose proof (Z.div_mod (16 * k) 512 ltac:(done)). pose proof (Z.mod_pos_bound (16 * k) 512 ltac:(done)).
  apply Z.div_unique with ((16 * k) mod 512 + 15); lia.
Qed.

(** C19: directories are maps.  [dirlink] of a name that is not in the directory
    succeeds, in the first empty entry or at the end; the directory then binds
    the name to the inode number and every other name to what it was bound to
    before, where names are equal when their first 14 characters are.
    [dirlookup] of any name afterwards gets the inode that the directory binds
    it to, and finds nothing for a name it does not bind. *)
Theorem dirlink_dirlookup {S} `{!BlockCache S} W (devsw : Z -> dev_ops (S := S)) me f dp i V bs N name n :
  layout W -> open_dir (W := W) f dp i V bs N -> dir_find name (contents V i) = None -> 0 < n < 2 ^ 16 ->
  16 * Z.of_nat N + 16 <= MAXFILE * BSIZE -> avail W V 2 -> Z.of_nat (length bs + nbitmap W) + 8 <= w_nlog W ->
  let e := empty_from (contents V i) 0 N in
  exists i' V' bs' f' N', dirlink devsw me dp name n f = Ret 0 f' /\ open_dir (W := W) f' dp i' V' bs' N' /\
    forall name',
      let bound := if decide (name_of name' = name_of name) then Some (e, n) else dir_find name' (contents V i) in
      dir_find name' (contents V' i') = bound /\
      exists l', dirlookup devsw dp name' f' = found bound (set_flog l' f').
Proof.
  intros LY O Hnone Hn Hmax Hav Hlog e. pose proof (dir_length _ _ _ _ _ _ O) as Hlen. unfold dirlink.
  destruct (dirlookup_run LY devsw f dp i V bs N name O) as (l1 & E1 & O1). rewrite Hnone in E1.
  rewrite (bind_ret _ _ _ _ _ E1), bind_get. pose proof O1 as [[Hi _ _ _ _] Hty Hs]. rewrite (I_lookup _ dp i Hi), Hs.
  destruct (dirlink_scan_run LY devsw (entries (16 * Z.of_nat N)) (set_flog l1 f) dp i V bs N 0 O1) as (l2 & E2 & O2); [lia| |].
  { unfold entries, DIRENT_SIZE. rewrite (Z.mul_comm 16), Z.div_mul by done. lia. }
  rewrite Nat.sub_0_r in E2. rewrite (bind_ret _ _ _ _ _ E2). fold e.
  pose proof (empty_from_spec (contents V i) 0 N) as [He _]. fold e in He. pose proof O2 as [[Hi2 Hsb T D Inv] _ _].
  assert (Z.of_nat (length (mk_dirent name n)) = 16) as Hl16 by (by rewrite length_mk_dirent).
  destruct (writei_run LY devsw (set_flog l2 f) dp i V bs (16 * Z.of_nat e) (mk_dirent name n) Hi2 Hsb T D Inv)
    as (i' & V' & bs' & l3 & E3 & T3 & U & Hs3 & Hc & _); rewrite ?Hl16, ?turns_entry; try lia; try done.
  { by rewrite Hty. }
  rewrite Hl16 in E3, Hs3. change DIRENT_SIZE with 16. rewrite (bind_ret _ _ _ _ _ E3). cbn [Z.eqb Pos.eqb negb].
  destruct (dir_find_add name n (contents V i) N Hlen Hn Hnone) as [_ Hadd]. fold e in Hadd.
  replace (Z.to_nat (16 * Z.of_nat e)) with (16 * e)%nat in Hc by lia. rewrite <- Hc in Hadd.
  assert (open_dir (W := W) (upd_file (set_flog l2 f) dp i' l3) dp i' V' bs' (Nat.max N (e + 1))) as O3.
  { split; [split; [by apply (upd_file_lookup _ dp i)|done|done|apply U|apply U]|by rewrite (up_inode _ _ _ _ _ U)|]. rewrite Hs3, Hs. lia. }
  exists i', V', bs', (upd_file (set_flog l2 f) dp i' l3), (Nat.max N (e + 1)). split; [done|]. split; [done|].
  intros name'. cbv zeta. split; [apply Hadd|]. destruct (dirlookup_run LY devsw _ _ _ _ _ _ name' O3) as (l4 & E4 & _).
  exists l4. by rewrite E4, Hadd.
Qed.

Lemma dirlink_dirlookup_witness :
  exists f', dirlink (BlockCache0 := bio_cache 7) (fun _ => mkDev None None) 3 0 [97; 98] 12 (mkfs_fs true) = Ret 0 f' /\
    exists l', dirlookup (BlockCache0 := bio_cache 7) (fun _ => mkDev None None) 0 [97; 98] f' =
      found (Some (0%nat, 12)) (set_flog l' f').
Proof.
  destruct (dirlink_dirlookup (BlockCache0 := bio_cache 7) (mkfs_world true) (fun _ => mkDev None None) 3 (mkfs_fs true) 0 (demo_inode true) (mkfs_disk true) [] 0 [97; 98] 12
    (mkfs_layout true)) as (i' & V' & bs' & f' & N' & E & O & H).
  - split; [exact (mkfs_open true)|reflexivity|reflexivity].
  - reflexivity.
  - split; reflexivity.
  - vm_compute. discriminate.
  - apply (avail_le _ _ 20); [lia|exact (mkfs_avail true)].
  - vm_compute. discriminate.
  - exists f'. split; [exact E|]. destruct (H [97; 98]) as (_ & l' & El). exists l'. exact El.
Defined.
