(* ===== verification/FsTrunc.v ===== *)
(** * Truncating a file

    [itrunc] of fs.c gives all blocks of a file back: the direct ones, the ones
    the indirect block names and the indirect block itself, each once, and
    no block of another file. *)

From stdpp Require Import gmap.
From S2P Require Import Prelude CString Block Bio Log LogCrash Users Fs FsPath FsTxn FsBlocks FsFile FsData FsWrite.
Open Scope Z_scope.

(** The blocks in the slots [D] of the file [i] have been freed, and nothing else changed. *)
Record freed (W : world) (V : disk) (i : inode) (D : nat -> Prop) (V' : disk) : Prop := {
  fr_disk : disk_ok W V';
  fr_data : forall x, ~ bitmap_block W x -> V' x = V x;
  fr_free : forall x, 0 <= x < sb_size (w_sb W) ->
    is_free W V' x = true <-> is_free W V x = true \/ exists k, (k < SLOTS)%nat /\ D k /\ ptr V i k = x /\ x <> 0 }.

(** The logged blocks are bitmap blocks and those of [U]. *)
Definition bitmaps_and (W : world) (U bs : list Z) : Prop := forall y, y ∈ bs -> bitmap_block W y \/ y ∈ U.

Section trunc.
Context {S : Type} `{!BlockCache S} {W : world} (LY : layout W).
Local Abbreviation F := (fs S).

Lemma bitmaps_length U bs : NoDup bs -> bitmaps_and W U bs -> (length bs <= nbitmap W + 1 + length U)%nat.
Proof. intros Hnd Hb. apply (within_length W inhabitant U bs LY Hnd). intros y Hy. destruct (Hb y Hy); auto. Qed.

Lemma freed_ext V i (D D' : nat -> Prop) V' : (forall k, (k < SLOTS)%nat -> ptr V i k <> 0 -> D k <-> D' k) -> freed W V i D V' -> freed W V i D' V'.
Proof.
  intros HD [Hd Hv Hf]. split; [done..|]. intros x Hx. rewrite (Hf x Hx). apply or_iff_compat_l.
  split; intros (k & Hk & HDk & <- & H0); exists k; split_and!; try done; by apply HD.
Qed.

(** The next block to free is still in use. *)
Lemma freed_used V i D V' k : file_ok W V i -> freed W V i D V' -> (k < SLOTS)%nat -> ~ D k -> ptr V i k <> 0 -> is_free W V' (ptr V i k) = false.
Proof.
  intros Fo Fr Hk HD H0. destruct (fo_ptr _ _ _ Fo k Hk H0) as [Hd Hf]. pose proof (data_pos LY _ Hd).
  apply not_true_is_false. intros Ht. apply (fr_free _ _ _ _ _ Fr) in Ht as [Ht|(j & Hj & HDj & E & _)]; [congruence| |lia].
  apply HD. by rewrite (fo_inj _ _ _ Fo k j).
Qed.

Lemma freed_step V i (D : nat -> Prop) V' k :
  file_ok W V i -> freed W V i D V' -> (k < SLOTS)%nat -> ptr V i k <> 0 ->
  let b := ptr V i k in
  freed W V i (fun j => D j \/ j = k) (disk_upd V' (bitmap_of W b) (unmark b (V' (bitmap_of W b)))).
Proof.
  intros Fo Fr Hk H0 b. destruct (fo_ptr _ _ _ Fo k Hk H0) as [Hd Hf]. fold b in Hd, Hf, H0. pose proof (data_pos LY _ Hd). split.
  - by apply (disk_ok_unmark LY); [apply Fr|].
  - intros x Hx. rewrite disk_upd_ne; [by apply Fr|]. intros ->. apply Hx. exists b. split; [lia|done].
  - intros x Hx. rewrite (is_free_unmark LY); [|apply Fr|lia|done]. case_decide as E.
    + subst x. split; [|done]. intros _. right. exists k. split_and!; auto.
    + rewrite (fr_free _ _ _ _ _ Fr x Hx). split; (intros [?|(j & Hj & HD & Ej & Hx0)]; [by left|right; exists j; split_and!; try done]); [by left|].
      destruct HD as [?| ->]; [done|]. by rewrite <- Ej in E.
Qed.

(** [bfree] of the block in slot [k], if there is one. *)
Lemma free_slot (f : F) V i D V' H U bs k :
  txn W (flog f) V' H bs -> sb f = w_sb W -> file_ok W V i -> freed W V i D V' -> (k < SLOTS)%nat -> ~ D k ->
  (forall x, 0 <= x < sb_size (w_sb W) -> H !! bitmap_of W x = None) -> (size H <= 1)%nat ->
  bitmaps_and W U bs -> Z.of_nat (nbitmap W + length U) + 3 < w_nlog W ->
  exists l' V2 bs', when (nz (ptr V i k)) (bfree ROOTDEV (ptr V i k)) f = Ret () (set_flog l' f) /\
    txn W l' V2 H bs' /\ freed W V i (fun j => D j \/ j = k) V2 /\ bitmaps_and W U bs' /\ bs ⊆ bs'.
Proof.
  intros T Hsb Fo Fr Hk HD HH Hsz Hb Hlog. unfold nz. destruct (ptr V i k =? 0) eqn:E0; bsplit; cbn [negb when].
  - exists (flog f), V', bs. split; [by destruct f|]. split; [done|]. split; [|done]. apply (freed_ext V i D); [|done].
    intros j _ Hj. split; [auto|]. intros [?| ->]; [done|congruence].
  - destruct (fo_ptr _ _ _ Fo k Hk E0) as [Hd _]. pose proof (data_pos LY _ Hd).
    pose proof (bitmaps_length U bs (txn_nodup _ _ _ _ _ T) Hb). pose proof (txn_room _ _ _ _ T).
    destruct (bfree_run LY f V' H bs (ptr V i k) T Hsb Hd (freed_used V i D V' k Fo Fr Hk HD E0)) as (l' & E & T'); [apply HH; lia|lia..|].
    eexists l', _, _. split; [exact E|]. split; [exact T'|]. split; [by apply freed_step|].
    split; [|intros y Hy; apply elem_of_add_block; by right].
    intros y [->|Hy]%elem_of_add_block; [left; exists (ptr V i k); split; [lia|done]|by apply Hb].
Qed.

(** The inode with its first [k] block addresses cleared. *)
Definition cleared (k : nat) (i : inode) : inode := set_iaddrs (replicate k 0 ++ drop k (iaddrs i)) i.

Lemma cleared_addr k i : length (iaddrs i) = 8%nat -> (k < 8)%nat ->
  iaddrs (cleared k i) !!! k = iaddrs i !!! k /\ set_iaddrs (<[k := 0]> (iaddrs (cleared k i))) (cleared k i) = cleared (Datatypes.S k) i.
Proof.
  intros Hl Hk. unfold cleared. cbn [iaddrs set_iaddrs]. split.
  - rewrite lookup_total_app_r by (rewrite length_replicate; lia). rewrite length_replicate, Nat.sub_diag, lookup_total_drop. f_equal. lia.
  - rewrite set_iaddrs_twice. f_equal. rewrite insert_app_r_alt by (rewrite length_replicate; lia). rewrite length_replicate, Nat.sub_diag.
    destruct (drop k (iaddrs i)) as [|a l] eqn:E; [apply (f_equal length) in E; rewrite length_drop, Hl in E; simpl in E; lia|].
    replace (Datatypes.S k) with (k + 1)%nat by lia. rewrite <- drop_drop, E. simpl. rewrite drop_0, replicate_add. by rewrite <- app_assoc.
Qed.

Lemma cleared_same k i : length (iaddrs i) = 8%nat -> (k < 8)%nat -> iaddrs i !!! k = 0 -> cleared (Datatypes.S k) i = cleared k i.
Proof.
  intros Hl Hk H0. destruct (cleared_addr k i Hl Hk) as [Ea <-]. rewrite list_insert_id; [apply set_iaddrs_id|].
  rewrite <- H0, <- Ea. apply list_lookup_lookup_total_lt. unfold cleared. cbn [iaddrs set_iaddrs].
  rewrite length_app, length_replicate, length_drop. lia.
Qed.

Definition direct_body (ip k : nat) : M F () :=
  let* f := get in
  let a := iaddrs (I f ip) !!! k in
  when (nz a) (
    bfree (idev (I f ip)) a ;;;
    modify (updi ip (fun i => set_iaddrs (<[k := 0]> (iaddrs i)) i))).

Lemma direct_body_run (f : F) ip V i V' U bs k :
  icache f !! ip = Some (cleared k i) -> txn W (flog f) V' ∅ bs -> sb f = w_sb W -> file_ok W V i ->
  freed W V i (fun j => (j < k)%nat) V' -> (k < 7)%nat ->
  bitmaps_and W U bs -> Z.of_nat (nbitmap W + length U) + 3 < w_nlog W ->
  exists l' V2 bs', direct_body ip k f = Ret () (upd_file f ip (cleared (Datatypes.S k) i) l') /\
    txn W l' V2 ∅ bs' /\ freed W V i (fun j => (j < Datatypes.S k)%nat) V2 /\ bitmaps_and W U bs'.
Proof.
  intros Hi T Hsb Fo Fr Hk Hb Hlog. unfold direct_body. rewrite bind_get, (I_lookup f ip _ Hi).
  destruct (cleared_addr k i (fo_len _ _ _ Fo)) as [Ea Ec]; [lia|]. cbv zeta. rewrite Ea. change (idev (cleared k i)) with (idev i). rewrite (fo_dev _ _ _ Fo).
  assert (ptr V i k = iaddrs i !!! k) as Ep by (unfold ptr; by rewrite (proj2 (Nat.leb_le k IND)) by (unfold IND; lia)).
  destruct (free_slot f V i _ V' ∅ U bs k T Hsb Fo Fr) as (l' & V2 & bs' & E & T2 & Fr2 & Hb2 & _); try done; try (unfold SLOTS; lia).
  { rewrite map_size_empty. lia. }
  exists l', V2, bs'. split; [|split_and!; try done; (eapply freed_ext; [|exact Fr2]; intros; cbv beta; lia)].
  rewrite Ep in E. unfold nz in *. destruct (iaddrs i !!! k =? 0) eqn:E0; cbn [negb when] in *; bsplit.
  - rewrite E. unfold set_flog, upd_file. rewrite cleared_same, list_insert_id; [done|done|apply Fo|lia|done].
  - rewrite (bind_ret _ _ _ _ _ E). unfold modify, updi, set_icache, upd_file. cbn [icache set_flog sb flog users].
    rewrite (alter_set f ip _ _ Hi). by rewrite Ec.
Qed.

Lemma direct_run n (f : F) ip V i V' U bs k :
  icache f !! ip = Some (cleared k i) -> txn W (flog f) V' ∅ bs -> sb f = w_sb W -> file_ok W V i ->
  freed W V i (fun j => (j < k)%nat) V' -> (k + n = 7)%nat ->
  bitmaps_and W U bs -> Z.of_nat (nbitmap W + length U) + 3 < w_nlog W ->
  exists l' V2 bs', for_each (seq k n) (direct_body ip) f = Ret () (upd_file f ip (cleared 7 i) l') /\
    txn W l' V2 ∅ bs' /\ freed W V i (fun j => (j < 7)%nat) V2 /\ bitmaps_and W U bs'.
Proof.
  revert f V' bs k. induction n as [|n IH]; intros f V' bs k Hi T Hsb Fo Fr Hk Hb Hlog.
  - replace k with 7%nat in * by lia. exists (flog f), V', bs. split; [|done]. cbn [seq for_each]. rewrite same_file by done. by destruct f.
  - cbn [seq for_each]. destruct (direct_body_run f ip V i V' U bs k Hi T Hsb Fo Fr) as (l1 & V1 & bs1 & E1 & T1 & Fr1 & Hb1); [lia|done|done|].
    rewrite (bind_ret _ _ _ _ _ E1).
    destruct (IH (upd_file f ip (cleared (Datatypes.S k) i) l1) V1 bs1 (Datatypes.S k)) as (l2 & V2 & bs2 & E2 & H2); try done; [|lia|].
    { by apply (upd_file_lookup f ip (cleared k i)). }
    exists l2, V2, bs2. by rewrite E2, upd_file_twice.
Qed.

(** The entries of the indirect block, which is held in the buffer [bp]. *)
Lemma entries_run n (f : F) V i V' U bs bp e :
  let ind := iaddrs i !!! IND in
  txn W (flog f) V' (<[ind := bp]> ∅) bs -> sb f = w_sb W -> file_ok W V i -> ind <> 0 ->
  freed W V i (fun j => (j < 7 \/ 8 <= j < 8 + e)%nat) V' -> (e + n = 128)%nat ->
  bitmaps_and W U bs -> Z.of_nat (nbitmap W + length U) + 3 < w_nlog W ->
  exists l' V2 bs', for_each (seq e n) (fun j =>
       let* d := fdata bp in let a := word_at d (4 * j) in when (nz a) (bfree ROOTDEV a)) f = Ret () (set_flog l' f) /\
    txn W l' V2 (<[ind := bp]> ∅) bs' /\ freed W V i (fun j => (j <> 7)%nat) V2 /\ bitmaps_and W U bs' /\ bs ⊆ bs'.
Proof.
  intros ind. revert f V' bs e. induction n as [|n IH]; intros f V' bs e T Hsb Fo Hi Fr He Hb Hlog.
  - exists (flog f), V', bs. split; [by destruct f|]. split; [done|]. split; [|done]. eapply freed_ext; [|exact Fr]. unfold SLOTS. intros. cbv beta. lia.
  - cbn [seq for_each]. pose proof (lookup_insert_eq (∅ : gmap Z nat) ind bp) as Hbp. destruct (ind_data V i Fo Hi) as [Hd _]. fold ind in Hd.
    rewrite bind_assoc, (bind_ret _ _ _ _ _ (fdata_run W f _ _ _ _ _ T Hbp)). cbv zeta.
    rewrite (fr_data _ _ _ _ _ Fr ind) by (by apply (data_no_bitmap LY)). unfold ind at 1 2. rewrite <- (ptr_entry V i e) by done.
    destruct (free_slot f V i _ V' _ U bs (8 + e) T Hsb Fo Fr) as (l1 & V1 & bs1 & E1 & T1 & Fr1 & Hb1 & Hs1); try done; try (unfold SLOTS; lia).
    { intros x Hx. rewrite lookup_insert_ne; [apply lookup_empty|]. destruct (bitmap_range LY x Hx) as [[_ ?] _]. destruct Hd. lia. }
    { rewrite map_size_insert_None, map_size_empty by apply lookup_empty. lia. }
    rewrite (bind_ret _ _ _ _ _ E1).
    destruct (IH (set_flog l1 f) V1 bs1 (Datatypes.S e) T1) as (l2 & V2 & bs2 & E2 & T2 & Fr2 & Hb2 & Hs2); try done; [|lia|].
    { eapply freed_ext; [|exact Fr1]. intros. cbv beta. lia. }
    exists l2, V2, bs2. split_and!; try done. by etransitivity.
Qed.

Definition indirect_part (ip : nat) : M F () :=
  let* f := get in
  let a := iaddrs (I f ip) !!! NDIRECT in
  when (nz a) (
    let* bp := fbread (idev (I f ip)) a in
    for_each (seq 0 (Z.to_nat NINDIRECT)) (fun j =>
      let* d := fdata bp in
      let a := word_at d (4 * j) in
      when (nz a) (bfree (idev (I f ip)) a)) ;;;
    fbrelse bp ;;;
    bfree (idev (I f ip)) a ;;;
    modify (updi ip (fun i => set_iaddrs (<[NDIRECT := 0]> (iaddrs i)) i))).

Lemma indirect_part_run (f : F) ip V i V' U bs :
  icache f !! ip = Some (cleared 7 i) -> txn W (flog f) V' ∅ bs -> sb f = w_sb W -> file_ok W V i ->
  freed W V i (fun j => (j < 7)%nat) V' -> bitmaps_and W U bs -> Z.of_nat (nbitmap W + length U) + 3 < w_nlog W ->
  exists l' V2 bs', indirect_part ip f = Ret () (upd_file f ip (cleared 8 i) l') /\
    txn W l' V2 ∅ bs' /\ freed W V i (fun _ => True) V2 /\ bitmaps_and W U bs'.
Proof.
  intros Hi T Hsb Fo Fr Hb Hlog. unfold indirect_part. rewrite bind_get, (I_lookup f ip _ Hi).
  destruct (cleared_addr 7 i (fo_len _ _ _ Fo)) as [Ea Ec]; [lia|]. change NDIRECT with 7%nat. cbv zeta. rewrite Ea.
  change (idev (cleared 7 i)) with (idev i). rewrite (fo_dev _ _ _ Fo). change (iaddrs i !!! 7%nat) with (iaddrs i !!! IND).
  unfold nz at 1. destruct (iaddrs i !!! IND =? 0) eqn:E0; bsplit; cbn [negb when].
  - exists (flog f), V', bs. rewrite (cleared_same 7 i (fo_len _ _ _ Fo)) by (done || lia). rewrite same_file by done. split; [by destruct f|].
    split; [done|]. split; [|done]. eapply freed_ext; [|exact Fr]. intros k Hk Hp. split; [done|]. intros _. cbv beta.
    destruct (decide (k < 7)%nat) as [|Hk7]; [done|]. exfalso. apply Hp. destruct (decide (k = 7%nat)) as [->|]; [done|].
    replace k with (8 + (k - 8))%nat by lia. by apply ptr_no_indirect.
  - destruct (ind_data V i Fo E0) as [Hd _]. pose proof (data_loggable LY _ Hd) as Hl. pose proof (txn_room _ _ _ _ T).
    set (ind := iaddrs i !!! IND) in *.
    destruct (fbread_run W f V' ∅ bs ind T) as (bp & l1 & E1 & T1); [apply lookup_empty|apply Hl|rewrite map_size_empty; lia|].
    rewrite (bind_ret _ _ _ _ _ E1).
    destruct (entries_run 128 (set_flog l1 f) V i V' U bs bp 0 T1 Hsb Fo E0) as (l2 & V2 & bs2 & E2 & T2 & Fr2 & Hb2 & Hs2); try done.
    { eapply freed_ext; [|exact Fr]. intros. cbv beta. lia. }
    change (Z.to_nat NINDIRECT) with 128%nat. rewrite (bind_ret _ _ _ _ _ E2). pose proof (lookup_insert_eq (∅ : gmap Z nat) ind bp) as Hbp.
    destruct (fbrelse_run W (set_flog l2 f) _ _ _ _ _ T2 Hbp) as (l3 & E3 & T3).
    { destruct (txn_clean W _ _ _ _ ind T (lookup_empty _)) as [Hin|Hcl]; [left; by apply Hs2|right].
      rewrite (fr_data _ _ _ _ _ Fr2) by (by apply (data_no_bitmap LY)). rewrite <- Hcl. symmetry. apply Fr. by apply (data_no_bitmap LY). }
    change (set_flog l2 (set_flog l1 f)) with (set_flog l2 f). rewrite (bind_ret _ _ _ _ _ E3). rewrite delete_insert_id in T3 by apply lookup_empty.
    destruct (free_slot (set_flog l3 f) V i _ V2 ∅ U bs2 IND T3 Hsb Fo Fr2) as (l4 & V4 & bs4 & E4 & T4 & Fr4 & Hb4 & _); try done;
      [unfold IND, SLOTS; lia|unfold IND; lia|rewrite map_size_empty; lia|].
    change (ptr V i IND) with ind in E4. unfold nz in E4. rewrite (proj2 (Z.eqb_neq _ _)) in E4 by done. cbn [negb when] in E4.
    change (set_flog l3 (set_flog l2 f)) with (set_flog l3 f). rewrite (bind_ret _ _ _ _ _ E4). exists l4, V4, bs4. split.
    + unfold modify, updi, set_icache, upd_file. cbn [icache set_flog sb flog users]. rewrite (alter_set f ip _ _ Hi). by rewrite Ec.
    + split; [done|]. split; [|done]. eapply freed_ext; [|exact Fr4]. intros. cbv beta. unfold IND. lia.
Qed.

Lemma cleared_all i k : length (iaddrs i) = 8%nat -> iaddrs (cleared 8 i) !!! k = if decide (k < 8)%nat then 0 else inhabitant.
Proof.
  intros Hl. unfold cleared. cbn [iaddrs set_iaddrs]. rewrite drop_ge, app_nil_r by lia. case_decide; [by apply lookup_total_replicate_2|].
  rewrite list_lookup_total_alt, lookup_ge_None_2; [done|]. rewrite length_replicate. lia.
Qed.

(** The file without its blocks, after the inode has been written. *)
Lemma updates_truncated V i V1 :
  file_inv W V i -> disk_ok W V -> freed W V i (fun _ => True) V1 ->
  let i' := set_isize 0 (cleared 8 i) in
  updates W V i (disk_upd V1 (inode_block W i) (put_dinode (V1 (inode_block W i)) (dinode_off (inum i)) i')) i'.
Proof.
  intros [Fo Hs Hsol Hty Hin Hod] D Fr i'. destruct (iblock_range LY (inum i) Hin) as (Hib & Hlg & Hr & Hnb). fold (inode_block W i) in *.
  pose proof (fo_len _ _ _ Fo) as Hl. assert (iaddrs i' = replicate 8 0) as Ea.
  { unfold i', cleared. cbn [iaddrs set_iaddrs set_isize]. by rewrite drop_ge, app_nil_r by lia. }
  assert (inode_typed i') as Hty'.
  { destruct Hty as [? [_ ?] ? _]. split; [done|by split|done|]. rewrite Ea. split; [done|]. by apply Forall_replicate. }
  assert (is_block (V1 (inode_block W i))) as Hblk by (apply (fr_disk _ _ _ _ _ Fr); destruct LY; lia).
  destruct (get_put_dinode (V1 (inode_block W i)) (dinode_off (inum i)) i' i' Hblk (dinode_fits _) Hty') as (Hblk' & Hoth & Hsame).
  destruct (meta_write LY V1 (inode_block W i) _ (fr_disk _ _ _ _ _ Fr) Hblk' Hr Hnb) as (D2 & Hfree & _). set (V2 := disk_upd _ _ _) in *.
  assert (forall k, (k < SLOTS)%nat -> ptr V2 i' k = 0) as Hp0.
  { intros k Hk. unfold ptr. rewrite Ea. destruct (Nat.leb_spec k IND) as [Hk7|]; [|done]. apply lookup_total_replicate_2. unfold IND in Hk7. lia. }
  split.
  - done.
  - split; [|by split|intros o Ho; simpl in Ho; lia|done|done|].
    + split; [by rewrite Ea|apply Fo|intros k Hk; by rewrite Hp0|intros k k' Hk; by rewrite Hp0].
    + unfold on_disk. change (inode_block W i') with (inode_block W i). change (inum i') with (inum i). unfold V2. by rewrite disk_upd_eq.
  - done.
  - intros x (_ & Hx & _) Hne. unfold V2. rewrite disk_upd_ne by done. by apply (fr_data _ _ _ _ _ Fr).
  - intros n Hn Hne. destruct (iblock_range LY n Hn) as (Hnb' & _ & _ & Hnb2). rewrite <- (fr_data _ _ _ _ _ Fr _ Hnb2).
    destruct (decide (IBLOCK n (w_sb W) = inode_block W i)) as [E|E]; [|unfold V2; by rewrite disk_upd_ne].
    rewrite E. unfold V2. rewrite disk_upd_eq. apply Hoth. apply dinode_disjoint; [lia|lia|lia|done].
  - intros x Hx Ho Hf. rewrite Hfree by done. apply not_true_is_false. intros [Ht|(k & Hk & _ & E & H0)]%(fr_free _ _ _ _ _ Fr); [congruence| |done].
    apply Ho. by exists k.
  - intros x (k & Hk & E & H0). by rewrite Hp0 in E.
Qed.
End trunc.

(** C20: truncation frees exactly the blocks of the file.  [itrunc] of a well-formed
    file frees every block the file has, direct, indirect and the indirect
    block itself, without panicking for a double free, and no other
    block; the file is then an empty well-formed file, on the disk too, and
    every other file keeps its contents and its inode. *)
Theorem itrunc_frees {S} `{!BlockCache S} W (f : fs S) ip i V bs :
  layout W -> open_file W f ip i V bs -> Z.of_nat (nbitmap W + length bs) + 3 < w_nlog W ->
  exists i' V' bs' f', itrunc ip f = Ret () f' /\ open_file W f' ip i' V' bs' /\ isize i' = 0 /\ iaddrs i' = replicate 8 0 /\
    (forall x, 0 <= x < sb_size (w_sb W) -> is_free W V' x = true <-> is_free W V x = true \/ owned V i x) /\
    (forall j, file_inv W V j -> disjoint_files V i j -> file_inv W V' j /\ contents V' j = contents V j).
Proof.
  intros LY [Hi Hsb T D Inv] Hlog. pose proof Inv as [Fo Hs Hsol Hty Hin Hod].
  destruct (direct_run LY 7 f ip V i V bs bs 0) as (l1 & V1 & bs1 & E1 & T1 & Fr1 & Hb1); try done.
  { unfold cleared. simpl. by rewrite drop_0, set_iaddrs_id. }
  { split; [done..|]. intros x Hx. split; [auto|]. intros [?|(k & _ & Hk & _)]; [done|lia]. }
  { intros y Hy. by right. }
  set (f1 := upd_file f ip (cleared 7 i) l1) in *.
  destruct (indirect_part_run LY f1 ip V i V1 bs bs1) as (l2 & V2 & bs2 & E2 & T2 & Fr2 & Hb2); try done; [by apply (upd_file_lookup f ip i)|].
  set (i' := set_isize 0 (cleared 8 i)). set (f2 := upd_file f ip i' l2).
  assert (updi ip (set_isize 0) (upd_file f1 ip (cleared 8 i) l2) = f2) as Eu.
  { unfold updi. rewrite (alter_set _ ip (cleared 8 i)) by (by apply (upd_file_lookup f1 ip (cleared 7 i)), (upd_file_lookup f ip i)).
    unfold f2, f1, upd_file, set_icache. simpl. by rewrite !list_insert_insert_eq. }
  pose proof (bitmaps_length LY bs bs2 (txn_nodup _ _ _ _ _ T2) Hb2) as Hlen.
  destruct (iupdate_run LY f2 ip i' V2 bs2) as (l3 & E3 & T3); [by apply (upd_file_lookup f ip i)|done|done|apply Fo|done|lia|].
  pose proof (updates_truncated LY V i V2 Inv D Fr2) as Hup. cbv zeta in Hup. fold i' in Hup. change (inode_block W i') with (inode_block W i) in T3. change (inum i') with (inum i) in T3.
  eexists i', _, _, (set_flog l3 f2). split; [|split; [split; [by apply (upd_file_lookup f ip i)|exact Hsb|exact T3|apply Hup|apply Hup]|]].
  - change (itrunc ip) with (for_each (seq 0 7) (direct_body ip) ;;; indirect_part ip ;;; modify (updi ip (set_isize 0)) ;;; iupdate ip : M (fs S) ()).
    rewrite (bind_ret _ _ _ _ _ E1), (bind_ret _ _ _ _ _ E2), bind_modify, Eu. exact E3.
  - split; [done|]. split; [unfold i', cleared; cbn [iaddrs set_iaddrs set_isize]; by rewrite drop_ge, app_nil_r by (rewrite (fo_len _ _ _ Fo); lia)|].
    split; [|intros j Ij Hd; destruct (updates_others LY V i _ i' j Inv Hup Ij Hd) as (? & ? & _); done].
    intros x Hx. destruct (iblock_range LY (inum i) Hin) as (_ & _ & Hr & Hnb).
    unfold is_free at 1. rewrite disk_upd_ne by (intros E; apply Hnb; exists x; exact (conj Hx (eq_sym E))). fold (is_free W V2 x).
    rewrite (fr_free _ _ _ _ _ Fr2 x Hx). apply or_iff_compat_l. unfold owned. split; intros (k & Hk); exists k; tauto.
Qed.

(** A file of four bytes, then truncated. *)
Lemma itrunc_frees_witness :
  exists f f', writei (BlockCache0 := bio_cache 7) (fun _ => mkDev None None) 0 [1; 2; 3; 4] 0 4 (mkfs_fs false) = Ret 4 f /\
    itrunc (BlockCache0 := bio_cache 7) 0 f = Ret () f'.
Proof.
  pose proof (mkfs_open false) as [Hi Hsb T D Inv].
  destruct (writei_run (BlockCache0 := bio_cache 7) (mkfs_layout false) (fun _ => mkDev None None) (mkfs_fs false) 0 (demo_inode false) (mkfs_disk false) [] 0 [1; 2; 3; 4]
    Hi Hsb T D Inv) as (i' & V' & bs' & l' & E & T' & U & _ & _ & Hl).
  - discriminate.
  - split; reflexivity || discriminate.
  - vm_compute. discriminate.
  - apply (avail_le _ _ 20); [vm_compute; lia|exact (mkfs_avail false)].
  - vm_compute. discriminate.
  - destruct (itrunc_frees (BlockCache0 := bio_cache 7) (mkfs_world false) (upd_file (mkfs_fs false) 0 i' l') 0 i' V' bs' (mkfs_layout false))
      as (i2 & V2 & bs2 & f' & E' & _).
    + split; [reflexivity|reflexivity|exact T'|apply U|apply U].
    + assert (nbitmap (mkfs_world false) = 1%nat) as Hn by reflexivity. assert (w_nlog (mkfs_world false) = 30) as Hw by reflexivity.
      assert (turns 0 (Z.of_nat (length [1; 2; 3; 4])) = 1) as Ht by reflexivity. rewrite Hn, Hw. rewrite Hn, Ht in Hl. simpl in Hl. lia.
    + exists (upd_file (mkfs_fs false) 0 i' l'), f'. split; [exact E|exact E'].
Defined.
