(* ===== verification/Ring.v ===== *)
(** * Ring buffers

    The bytes between two counters of type uint that index an array modulo its
    size, as the pipes and the console use it.  The counters wrap around at 2^32,
    a multiple of the size. *)

From S2P Require Import Prelude.
Open Scope Z_scope.

(** The [n] bytes from counter [a] on. *)
Definition ring (size : Z) (b : list Z) (a : Z) (n : nat) : list Z :=
  (fun j => b !!! Z.to_nat (u32 (a + Z.of_nat j) mod size)) <$> seq 0 n.

Lemma length_ring size b a n : length (ring size b a n) = n.
Proof. unfold ring. by rewrite length_fmap, length_seq. Qed.

(** The counters [a] and [a + n], then [k] more. *)
Lemma ring_app size b a n k : ring size b a (n + k) = ring size b a n ++ ring size b (u32 (a + Z.of_nat n)) k.
Proof.
  unfold ring. rewrite seq_app, fmap_app. f_equal. simpl. rewrite <- (Nat.add_0_r n) at 1. rewrite <- fmap_add_seq, <- list_fmap_compose.
  apply list_fmap_ext. intros i j _. simpl. rewrite u32_add_l. do 4 f_equal. lia.
Qed.

Lemma ring_1 size b a : 0 <= a < 2 ^ 32 -> ring size b a 1 = [b !!! Z.to_nat (a mod size)].
Proof. intros Ha. unfold ring. simpl. by rewrite Z.add_0_r, u32_small. Qed.

Lemma ring_S size b a n : 0 <= a < 2 ^ 32 -> ring size b a (S n) = b !!! Z.to_nat (a mod size) :: ring size b (u32 (a + 1)) n.
Proof. intros Ha. rewrite <- (Nat.add_1_l n), (ring_app _ _ _ 1), ring_1 by done. done. Qed.

(** A uint counter from its difference to another. *)
Lemma u32_to a b : 0 <= b < 2 ^ 32 -> u32 (a + u32 (b - a)) = b.
Proof. intros Hb. rewrite u32_add_r. replace (a + (b - a)) with b by lia. by apply u32_small. Qed.

Section ring.
Context (size : Z).
Hypothesis size_pos : 0 < size.
Hypothesis size_divides : (size | 2 ^ 32).

Lemma u32_mod_size z : u32 z mod size = z mod size.
Proof.
  unfold u32. destruct size_divides as [k Hk]. rewrite Hk. rewrite (Z.mul_comm k), Z.rem_mul_r by lia.
  rewrite Z.mul_comm, Z.mod_add by lia. by rewrite Z.mod_mod by lia.
Qed.

(** Storing at a counter outside of the range leaves the range alone. *)
Lemma ring_put_outside b a n i x :
  (n <= Z.to_nat size)%nat -> Z.of_nat n <= i < size ->
  ring size (<[Z.to_nat (u32 (a + i) mod size) := x]> b) a n = ring size b a n.
Proof.
  intros Hn Hi. unfold ring. apply list_fmap_ext. intros k j [-> Hj]%lookup_seq. simpl.
  apply list_lookup_total_insert_ne. rewrite !u32_mod_size. intros E.
  apply Z2Nat.inj in E; [|by apply Z.mod_pos_bound..].
  pose proof (Z.div_mod (a + i) size ltac:(lia)). pose proof (Z.div_mod (a + Z.of_nat k) size ltac:(lia)).
  set (q := (a + i) / size) in *. set (q' := (a + Z.of_nat k) / size) in *.
  assert (i - Z.of_nat k = size * (q - q')) by lia. assert (q - q' <= 0 \/ 1 <= q - q') by lia. nia.
Qed.

(** Storing at the end extends the range. *)
Lemma ring_put b a n x :
  length b = Z.to_nat size -> Z.of_nat n < size ->
  ring size (<[Z.to_nat (u32 (a + Z.of_nat n) mod size) := x]> b) a (n + 1) = ring size b a n ++ [x].
Proof.
  intros Hl Hn. rewrite ring_app, ring_put_outside by lia. f_equal. rewrite ring_1 by apply u32_range. f_equal.
  apply list_lookup_total_insert_eq. rewrite Hl. pose proof (Z.mod_pos_bound (u32 (a + Z.of_nat n)) size size_pos). lia.
Qed.
End ring.
