(* ===== verification/Pipe.v ===== *)
(** * Pipes

    pipe.c: the ring buffer between the readers and the writers of a pipe.  A
    call of [pipewrite] or [piperead] runs in sections: from taking [p->lock] to
    the end of the call, or to [sleep], which gives the lock up until a [wakeup].
    The processes at a pipe are a transition system whose steps are such
    sections, in any order. *)

From stdpp Require Import relations.
From S2P Require Import Prelude Ring.
Open Scope Z_scope.

Definition PIPESIZE : Z := 512.

Record pipe := mkPipe { data : list Z; nread : Z; nwrite : Z; readopen : Z; writeopen : Z }.

(** [p->data[p->nwrite++ % PIPESIZE] = b] *)
Definition put_byte (b : Z) (p : pipe) : pipe :=
  mkPipe (<[Z.to_nat (nwrite p mod PIPESIZE) := b]> (data p)) (nread p) (u32 (nwrite p + 1)) (readopen p) (writeopen p).

(** [p->data[p->nread++ % PIPESIZE]] *)
Definition get_byte (p : pipe) : Z * pipe :=
  (data p !!! Z.to_nat (nread p mod PIPESIZE),
   mkPipe (data p) (u32 (nread p + 1)) (nwrite p) (readopen p) (writeopen p)).

(** What a section does besides changing the pipe: a [wakeup] of the readers
    (channel [&p->nread]) or of the writers ([&p->nwrite]). *)
Record wakes := mkWakes { readers : bool; writers : bool }.

(** How a section ends: the call returns, or it sleeps with work left. *)
Inductive ending (A : Type) := Returns (r : Z) | Sleeps (rest : A).
Arguments Returns {A} r. Arguments Sleeps {A} rest.

(** A section of [pipewrite(p, addr, n)] in which the bytes [rest] are left. *)
Fixpoint pipewrite (killed : bool) (n : Z) (rest : list Z) (p : pipe) : pipe * wakes * ending (list Z) :=
  match rest with
  | [] => (p, mkWakes true false, Returns n)
  | b :: rest' =>
      if nwrite p =? u32 (nread p + PIPESIZE) then
        if (readopen p =? 0) || killed then (p, mkWakes false false, Returns (-1))
        else (p, mkWakes true false, Sleeps rest)
      else pipewrite killed n rest' (put_byte b p)
  end.

(** The copy loop of [piperead], for at most [n] bytes. *)
Fixpoint piperead_copy (n : nat) (p : pipe) : pipe * list Z :=
  match n with
  | O => (p, [])
  | S n =>
      if nread p =? nwrite p then (p, [])
      else
        let '(b, p) := get_byte p in
        let '(p, bs) := piperead_copy n p in
        (p, b :: bs)
  end.

(** A section of [piperead(p, addr, n)]: also the bytes stored at [addr]. *)
Definition piperead (killed : bool) (n : Z) (p : pipe) : pipe * list Z * wakes * ending () :=
  if (nread p =? nwrite p) && nz (writeopen p) then
    if killed then (p, [], mkWakes false false, Returns (-1))
    else (p, [], mkWakes false false, Sleeps ())
  else
    let '(p, bs) := piperead_copy (Z.to_nat n) p in
    (p, bs, mkWakes false true, Returns (Z.of_nat (length bs))).

(** [pipeclose]; the last result says whether the pipe's page is freed. *)
Definition pipeclose (writable : bool) (p : pipe) : pipe * wakes * bool :=
  let '(p, w) :=
    if writable then (mkPipe (data p) (nread p) (nwrite p) (readopen p) 0, mkWakes true false)
    else (mkPipe (data p) (nread p) (nwrite p) 0 (writeopen p), mkWakes false true) in
  (p, w, (readopen p =? 0) && (writeopen p =? 0)).

(** The pipe [pipealloc] makes of a fresh page; [d] is what the page holds. *)
Definition new_pipe (d : list Z) : pipe := mkPipe d 0 0 1 1.

(** ** The ring buffer is a queue *)

Definition count (p : pipe) : Z := u32 (nwrite p - nread p).
Definition contents (p : pipe) : list Z :=
  ring PIPESIZE (data p) (nread p) (Z.to_nat (count p)).

Definition pinv (p : pipe) : Prop :=
  length (data p) = Z.to_nat PIPESIZE /\ 0 <= nread p < 2 ^ 32 /\ 0 <= nwrite p < 2 ^ 32 /\ count p <= PIPESIZE.

Lemma full_count p : pinv p -> (nwrite p =? u32 (nread p + PIPESIZE)) = (count p =? PIPESIZE).
Proof.
  intros (_ & Hr & Hw & Hc). apply eq_bool_prop_intro. rewrite !Is_true_true, !Z.eqb_eq. unfold count, u32, PIPESIZE in *.
  split; intros H.
  - rewrite H. rewrite Zminus_mod_idemp_l. replace (nread p + 512 - nread p) with 512 by lia. done.
  - rewrite <- H. rewrite Zplus_mod_idemp_r. replace (nread p + (nwrite p - nread p)) with (nwrite p) by lia. by rewrite Z.mod_small.
Qed.

Lemma empty_count p : pinv p -> (nread p =? nwrite p) = (count p =? 0).
Proof.
  intros (_ & Hr & Hw & Hc). apply eq_bool_prop_intro. rewrite !Is_true_true, !Z.eqb_eq. unfold count, u32, PIPESIZE in *.
  split; intros H; [rewrite H, Z.sub_diag; done|].
  pose proof (Z.div_mod (nwrite p - nread p) (2 ^ 32)). lia.
Qed.

Lemma count_range p : 0 <= count p < 2 ^ 32.
Proof. apply u32_range. Qed.

Lemma count_put b p : pinv p -> count p < PIPESIZE -> count (put_byte b p) = count p + 1.
Proof.
  intros (_ & Hr & Hw & _) Hc. pose proof (count_range p). unfold count in *. simpl.
  rewrite u32_sub_l. replace (nwrite p + 1 - nread p) with (nwrite p - nread p + 1) by lia.
  rewrite <- u32_add_l. apply u32_small. unfold PIPESIZE in *. lia.
Qed.

Lemma count_get p : pinv p -> 0 < count p -> count (get_byte p).2 = count p - 1.
Proof.
  intros (_ & Hr & Hw & _) Hc. pose proof (count_range p). unfold count in *. simpl.
  rewrite u32_sub_r. replace (nwrite p - (nread p + 1)) with (nwrite p - nread p - 1) by lia.
  rewrite <- u32_sub_l. apply u32_small. lia.
Qed.

Lemma pinv_put b p : pinv p -> count p < PIPESIZE -> pinv (put_byte b p).
Proof.
  intros Hp Hc. pose proof (count_put b p Hp Hc) as E. destruct Hp as (Hl & Hr & Hw & _).
  split_and!; simpl; [by rewrite length_insert|lia|lia|apply u32_range|apply u32_range|lia].
Qed.

Lemma pinv_get p : pinv p -> 0 < count p -> pinv (get_byte p).2.
Proof.
  intros Hp Hc. pose proof (count_get p Hp Hc) as E. simpl in E. destruct Hp as (Hl & Hr & Hw & Hle).
  split_and!; simpl; [done|apply u32_range|apply u32_range|lia|lia|lia].
Qed.

Lemma PIPESIZE_divides : (PIPESIZE | 2 ^ 32).
Proof. by exists (2 ^ 23). Qed.

(** Writing a byte appends it. *)
Lemma contents_put b p : pinv p -> count p < PIPESIZE -> contents (put_byte b p) = contents p ++ [b].
Proof.
  intros Hp Hc. pose proof (count_range p). unfold contents. rewrite count_put by done. pose proof Hp as (Hl & Hr & Hw & _).
  rewrite Z2Nat.inj_add by lia. rewrite <- (ring_put PIPESIZE ltac:(done) PIPESIZE_divides) by (done || (unfold PIPESIZE in *; lia)).
  simpl. rewrite Z2Nat.id by lia. unfold count. by rewrite u32_to.
Qed.

(** Reading a byte takes the first one. *)
Lemma contents_get p : pinv p -> 0 < count p -> contents p = (get_byte p).1 :: contents (get_byte p).2.
Proof.
  intros Hp Hc. unfold contents. rewrite count_get by done.
  replace (Z.to_nat (count p)) with (S (Z.to_nat (count p - 1))) by lia. rewrite ring_S by apply Hp. done.
Qed.

Lemma length_contents p : length (contents p) = Z.to_nat (count p).
Proof. apply length_ring. Qed.

(** What a section of [pipewrite] does. *)
Lemma pipewrite_run k n rest p :
  pinv p -> exists acc rest' p' w e, pipewrite k n rest p = (p', w, e) /\ rest = acc ++ rest' /\ pinv p' /\
    contents p' = contents p ++ acc /\ readopen p' = readopen p /\ writeopen p' = writeopen p /\
    ((e = Returns n /\ rest' = [] /\ w = mkWakes true false) \/
     (count p' = PIPESIZE /\
       ((e = Returns (-1) /\ (readopen p = 0 \/ k = true) /\ w = mkWakes false false) \/
        (e = Sleeps rest' /\ rest' <> [] /\ readopen p <> 0 /\ k = false /\ w = mkWakes true false)))).
Proof.
  revert p. induction rest as [|b rest IH]; intros p Hp; simpl.
  { exists [], [], p, (mkWakes true false), (Returns n). split_and!; try done; [by rewrite app_nil_r|]. by left. }
  rewrite full_count by done. destruct (count p =? PIPESIZE) eqn:Hf; bsplit.
  - destruct ((readopen p =? 0) || k) eqn:Hr.
    + exists [], (b :: rest), p, (mkWakes false false), (Returns (-1)). split_and!; try done; [by rewrite app_nil_r|]. right.
      split; [done|]. left. split_and!; try done. destruct k; [by right|left; lia].
    + bsplit. exists [], (b :: rest), p, (mkWakes true false), (Sleeps (b :: rest)). split_and!; try done; [by rewrite app_nil_r|].
      right. split; [done|]. right. split_and!; try done.
  - assert (count p < PIPESIZE) as Hc by (destruct Hp as (_ & _ & _ & ?); lia).
    destruct (IH (put_byte b p) (pinv_put b p Hp Hc)) as (acc & rest' & p' & w & e & E & -> & Hp' & Hcon & Hro & Hwo & Hcase).
    exists (b :: acc), rest', p', w, e. split_and!; try done. by rewrite Hcon, contents_put, <- app_assoc by done.
Qed.

Lemma piperead_copy_run n p :
  pinv p -> exists bs p', piperead_copy n p = (p', bs) /\ pinv p' /\ contents p = bs ++ contents p' /\
    readopen p' = readopen p /\ writeopen p' = writeopen p /\ length bs = (n `min` length (contents p))%nat.
Proof.
  revert p. induction n as [|n IH]; intros p Hp; cbn [piperead_copy].
  { exists [], p. done. }
  rewrite empty_count by done. pose proof (count_range p). destruct (count p =? 0) eqn:Hc; bsplit.
  - exists [], p. split_and!; try done. rewrite length_contents, Hc. done.
  - pose proof (contents_get p Hp ltac:(lia)) as Hg. pose proof (pinv_get p Hp ltac:(lia)) as Hpg.
    assert (readopen (get_byte p).2 = readopen p /\ writeopen (get_byte p).2 = writeopen p) as [Hro Hwo] by done.
    destruct (get_byte p) as [b p1]. simpl in *. destruct (IH p1 Hpg) as (bs & p2 & -> & Hp2 & Hcon & Hr2 & Hw2 & Hlen).
    exists (b :: bs), p2. split_and!; [done|done|by rewrite Hg, Hcon|congruence|congruence|]. rewrite Hg. simpl. by rewrite Hlen.
Qed.

(** ** The processes at a pipe *)

(** A process between calls, about to run a section, or asleep. *)
Inductive pstate :=
| Idle
| Writing (n : Z) (rest : list Z) | WriteAsleep (n : Z) (rest : list Z)
| Reading (n : Z) | ReadAsleep (n : Z).

(** [sent] and [got] record what the pipe has accepted and given out. *)
Record sys := mkSys { pp : pipe; ps : list pstate; sent : list Z; got : list Z }.

Definition wake1 (w : wakes) (st : pstate) : pstate :=
  match st with
  | ReadAsleep n => if readers w then Reading n else st
  | WriteAsleep n rest => if writers w then Writing n rest else st
  | _ => st
  end.

Definition after_write (n : Z) (e : ending (list Z)) : pstate :=
  match e with Returns _ => Idle | Sleeps rest => WriteAsleep n rest end.
Definition after_read (n : Z) (e : ending ()) : pstate :=
  match e with Returns _ => Idle | Sleeps _ => ReadAsleep n end.

Definition in_write (st : pstate) : bool :=
  match st with Writing _ _ | WriteAsleep _ _ => true | _ => false end.
Definition in_read (st : pstate) : bool :=
  match st with Reading _ | ReadAsleep _ => true | _ => false end.

(** [kills] allows sections of killed processes.  A process in a call has a
    reference to its end of the pipe, and [fileclose] calls [pipeclose] when the
    last reference goes: an end is used only while it is open, and closed only
    when no process is in a call at it. *)
Inductive step (kills : bool) : sys -> sys -> Prop :=
| step_call_write s i bs :
    ps s !! i = Some Idle -> writeopen (pp s) = 1 ->
    step kills s (mkSys (pp s) (<[i := Writing (Z.of_nat (length bs)) bs]> (ps s)) (sent s) (got s))
| step_call_read s i n :
    ps s !! i = Some Idle -> readopen (pp s) = 1 ->
    step kills s (mkSys (pp s) (<[i := Reading n]> (ps s)) (sent s) (got s))
| step_write s i n rest k p' w e :
    ps s !! i = Some (Writing n rest) -> (k = true -> kills = true) ->
    pipewrite k n rest (pp s) = (p', w, e) ->
    step kills s (mkSys p' (wake1 w <$> <[i := after_write n e]> (ps s))
      (sent s ++ take (Z.to_nat (u32 (nwrite p' - nwrite (pp s)))) rest) (got s))
| step_read s i n k p' bs w e :
    ps s !! i = Some (Reading n) -> (k = true -> kills = true) ->
    piperead k n (pp s) = (p', bs, w, e) ->
    step kills s (mkSys p' (wake1 w <$> <[i := after_read n e]> (ps s)) (sent s) (got s ++ bs))
| step_close s (wr : bool) p' w fr :
    (if wr then writeopen (pp s) else readopen (pp s)) = 1 ->
    Forall (fun st => (if wr then in_write st else in_read st) = false) (ps s) ->
    pipeclose wr (pp s) = (p', w, fr) ->
    step kills s (mkSys p' (wake1 w <$> ps s) (sent s) (got s)).

Definition start (d : list Z) (n : nat) : sys := mkSys (new_pipe d) (replicate n Idle) [] [].

(** What was accepted is what was given out and what is still in the buffer. *)
Definition fifo (s : sys) : Prop := pinv (pp s) /\ sent s = got s ++ contents (pp s).

Lemma pipewrite_taken k n rest p p' w e :
  pinv p -> pipewrite k n rest p = (p', w, e) ->
  contents p' = contents p ++ take (Z.to_nat (u32 (nwrite p' - nwrite p))) rest.
Proof.
  intros Hp E. destruct (pipewrite_run k n rest p Hp) as (acc & rest' & p1 & w1 & e1 & E1 & -> & Hp1 & Hc & _).
  rewrite E in E1. simplify_eq. rewrite Hc. f_equal. symmetry.
  assert (nread p1 = nread p) as Hn.
  { clear -E. revert p E. induction (acc ++ rest') as [|b l IH]; simpl; intros p E; [by simplify_eq|].
    destruct (_ =? _); [by destruct (_ || _); simplify_eq|]. apply IH in E. done. }
  assert (u32 (nwrite p1 - nwrite p) = Z.of_nat (length acc)) as ->.
  { pose proof (f_equal length Hc) as Hl. rewrite length_app, !length_contents in Hl. pose proof (count_range p1). pose proof (count_range p).
    destruct Hp1 as (_ & _ & _ & Hp1).
    replace (nwrite p1 - nwrite p) with ((nwrite p1 - nread p1) - (nwrite p - nread p)) by lia.
    rewrite <- u32_sub_l, <- u32_sub_r. fold (count p1) (count p). rewrite u32_small; unfold PIPESIZE in *; lia. }
  rewrite Nat2Z.id. apply take_app_length.
Qed.

Lemma piperead_run k n p :
  pinv p -> exists p' bs w e, piperead k n p = (p', bs, w, e) /\ pinv p' /\ contents p = bs ++ contents p' /\
    readopen p' = readopen p /\ writeopen p' = writeopen p /\
    ((p' = p /\ count p = 0 /\ writeopen p <> 0 /\ w = mkWakes false false /\ (k = true /\ e = Returns (-1) \/ k = false /\ e = Sleeps ())) \/
     (w = mkWakes false true /\ e = Returns (Z.of_nat (length bs)) /\ (count p <> 0 \/ writeopen p = 0) /\
       length bs = (Z.to_nat n `min` length (contents p))%nat)).
Proof.
  intros Hp. unfold piperead. rewrite empty_count by done. destruct ((count p =? 0) && nz (writeopen p)) eqn:E; unfold nz in *; bsplit.
  - destruct k; eexists p, [], _, _; (split; [done|]); split_and!; try done; left; split_and!; try done; auto.
  - destruct (piperead_copy_run (Z.to_nat n) p Hp) as (bs & p' & -> & Hp' & Hc & Hr & Hw & Hl).
    eexists p', bs, _, _. split; [done|]. split_and!; try done. right. split_and!; try done. destruct (count p =? 0) eqn:?; simpl in E; bsplit; auto.
Qed.

Lemma steps_inv kills (I : sys -> Prop) s s' :
  (forall s s', step kills s s' -> I s -> I s') -> rtc (step kills) s s' -> I s -> I s'.
Proof. intros HI Hr. induction Hr; eauto. Qed.

Lemma step_fifo kills s s' : step kills s s' -> fifo s -> fifo s'.
Proof.
  intros Hst [Hp Hf]. destruct Hst as [| |s i n rest k p' w e Hi Hk E|s i n k p' bs w e Hi Hk E|s wr p' w fr Ho Hg E]; simpl in *; [done..| | |].
  - destruct (pipewrite_run k n rest (pp s) Hp) as (? & ? & p1 & ? & ? & E1 & _ & Hp1 & _). pose proof E as E0. rewrite E in E1. simplify_eq.
    split; [done|]. simpl. by rewrite (pipewrite_taken k n rest (pp s) _ _ _ Hp E0), Hf, app_assoc.
  - destruct (piperead_run k n (pp s) Hp) as (p1 & bs1 & ? & ? & E1 & Hp1 & Hc & _). rewrite E in E1. simplify_eq.
    split; [done|]. simpl. by rewrite Hf, Hc, app_assoc.
  - unfold pipeclose in E. destruct wr; simplify_eq; done.
Qed.

(** C31: a pipe is a queue.  In every run of any number of readers and writers,
    with sections in any order, killed processes, and ends closed at any time,
    the bytes given to the readers followed by the bytes in the buffer are the
    bytes accepted from the writers, in order, and the buffer never has more than
    PIPESIZE of them; the counters may wrap around. *)
Theorem pipe_fifo kills d n s :
  length d = Z.to_nat PIPESIZE -> rtc (step kills) (start d n) s ->
  sent s = got s ++ contents (pp s) /\ (length (contents (pp s)) <= Z.to_nat PIPESIZE)%nat.
Proof.
  intros Hd Hr. assert (fifo s) as [(_ & _ & _ & Hc) Hf].
  { eapply (steps_inv kills fifo); [intros; by eapply step_fifo|exact Hr|done]. }
  split; [done|]. rewrite length_contents. unfold PIPESIZE in *. lia.
Qed.

(** Who sleeps has a reason to: a reader an empty pipe that may still be written,
    a writer a full pipe that may still be read. *)
Definition asleep_ok (p : pipe) (st : pstate) : Prop :=
  match st with
  | Idle => True
  | Writing _ _ => writeopen p = 1
  | Reading _ => readopen p = 1
  | ReadAsleep _ => readopen p = 1 /\ count p = 0 /\ writeopen p <> 0
  | WriteAsleep _ rest => writeopen p = 1 /\ count p = PIPESIZE /\ readopen p <> 0
  end.

Definition awake_inv (s : sys) : Prop := pinv (pp s) /\ Forall (asleep_ok (pp s)) (ps s).

Lemma Forall_wake (P Q : pstate -> Prop) w i st l :
  Forall P l -> Q (wake1 w st) -> (forall st, P st -> Q (wake1 w st)) -> Forall Q (wake1 w <$> <[i := st]> l).
Proof.
  intros Hl Hst HPQ. apply Forall_fmap. apply Forall_insert; [|done]. eapply Forall_impl; [done|]. done.
Qed.

Lemma step_awake s s' : step false s s' -> awake_inv s -> awake_inv s'.
Proof.
  intros Hst [Hp Hf]. destruct Hst as [s i bs Hi Hw|s i n Hi Hr|s i n rest k p' w e Hi Hk E|s i n k p' bs w e Hi Hk E|s wr p' w fr Ho Hg E]; simpl in *.
  - split; [done|]. simpl. by apply Forall_insert.
  - split; [done|]. simpl. by apply Forall_insert.
  - destruct k; [by specialize (Hk eq_refl)|]. pose proof (Forall_lookup_1 _ _ _ _ Hf Hi) as Hst. simpl in Hst.
    destruct (pipewrite_run false n rest (pp s) Hp) as (acc & rest' & p1 & ? & ? & E1 & _ & Hp1 & Hc & Hro & Hwo & Hcase).
    rewrite E in E1. simplify_eq. split; [done|]. simpl.
    pose proof (f_equal length Hc) as Hl. rewrite length_app, !length_contents in Hl. pose proof (count_range p1). pose proof (count_range (pp s)).
    assert (count (pp s) = PIPESIZE -> count p1 = PIPESIZE) as Hfull by (destruct Hp1 as (_ & _ & _ & ?); unfold PIPESIZE in *; lia).
    eapply Forall_wake; [exact Hf| |].
    + destruct Hcase as [(-> & _ & ->)|(Hc1 & [(-> & _ & ->)|(-> & _ & Hr0 & _ & ->)])]; simpl; [done|done|]. split_and!; congruence.
    + intros st Hst'. destruct Hcase as [(-> & _ & ->)|(Hc1 & [(-> & [Hr0|?] & ->)|(-> & _ & Hr0 & _ & ->)])]; [assert (1 <> 0) as Hr0 by lia| |done|];
        clear -Hst' Hro Hwo Hfull Hr0; destruct st; simpl in *; rewrite ?Hro, ?Hwo; intuition congruence.
  - destruct k; [by specialize (Hk eq_refl)|]. pose proof (Forall_lookup_1 _ _ _ _ Hf Hi) as Hst. simpl in Hst.
    destruct (piperead_run false n (pp s) Hp) as (p1 & bs1 & ? & ? & E1 & Hp1 & Hc & Hro & Hwo & Hcase).
    rewrite E in E1. simplify_eq. split; [done|]. simpl. eapply Forall_wake; [exact Hf| |].
    + destruct Hcase as [(-> & Hc0 & Hw0 & -> & [[? _]|[_ ->]])|(-> & -> & _ & _)]; [done|done|done].
    + intros st Hst'. destruct Hcase as [(-> & Hc0 & Hw0 & -> & _)|(-> & -> & Hne & _)]; [by destruct st|].
      clear -Hst' Hro Hwo Hne. destruct st; simpl in *; rewrite ?Hro, ?Hwo; intuition congruence.
  - unfold pipeclose in E. destruct wr; simplify_eq; (split; [done|]); simpl in *; apply Forall_fmap, Forall_forall; intros st Hin;
      rewrite Forall_forall in Hf, Hg; specialize (Hf st Hin); specialize (Hg st Hin); destruct st; simpl in *; naive_solver.
Qed.

(** C32: no wakeup is lost.  As long as no process at the pipe is killed, in every
    reachable state a sleeping reader sees an empty pipe whose write end is open
    and a sleeping writer a full pipe whose read end is open; so readers and
    writers never sleep at the same time, and a process that sleeps is woken by
    the section that makes its condition false. *)
Theorem pipe_no_lost_wakeup d n s :
  length d = Z.to_nat PIPESIZE -> rtc (step false) (start d n) s ->
  (forall i m, ps s !! i = Some (ReadAsleep m) -> contents (pp s) = [] /\ writeopen (pp s) <> 0) /\
  (forall i m rest, ps s !! i = Some (WriteAsleep m rest) ->
     length (contents (pp s)) = Z.to_nat PIPESIZE /\ readopen (pp s) <> 0).
Proof.
  intros Hd Hr. assert (awake_inv s) as [_ Hf].
  { eapply (steps_inv false awake_inv); [intros; by eapply step_awake|exact Hr|]. split; [done|]. by apply Forall_replicate. }
  split.
  - intros i m Hi. pose proof (Forall_lookup_1 _ _ _ _ Hf Hi) as (_ & Hc & Hw). split; [|done].
    apply nil_length_inv. by rewrite length_contents, Hc.
  - intros i m rest Hi. pose proof (Forall_lookup_1 _ _ _ _ Hf Hi) as (_ & Hc & Hw). split; [|done].
    by rewrite length_contents, Hc.
Qed.

(** ** Examples *)

(** The section process [i] runs next, as a function. *)
Definition run1 (k : bool) (i : nat) (s : sys) : sys :=
  match ps s !! i with
  | Some (Writing n rest) =>
      let '(p', w, e) := pipewrite k n rest (pp s) in
      mkSys p' (wake1 w <$> <[i := after_write n e]> (ps s))
        (sent s ++ take (Z.to_nat (u32 (nwrite p' - nwrite (pp s)))) rest) (got s)
  | Some (Reading n) =>
      let '(p', bs, w, e) := piperead k n (pp s) in
      mkSys p' (wake1 w <$> <[i := after_read n e]> (ps s)) (sent s) (got s ++ bs)
  | _ => s
  end.

Lemma run1_step kills k i s : (k = true -> kills = true) -> rtc (step kills) s (run1 k i s).
Proof.
  intros Hk. unfold run1. destruct (ps s !! i) as [[]|] eqn:Hi; try apply rtc_refl.
  - destruct (pipewrite k n rest (pp s)) as [[p' w] e] eqn:E. apply rtc_once. by eapply step_write.
  - destruct (piperead k n (pp s)) as [[[p' bs] w] e] eqn:E. apply rtc_once. by eapply step_read.
Qed.

Definition call_write (i : nat) (bs : list Z) (s : sys) : sys :=
  mkSys (pp s) (<[i := Writing (Z.of_nat (length bs)) bs]> (ps s)) (sent s) (got s).
Definition call_read (i : nat) (n : Z) (s : sys) : sys :=
  mkSys (pp s) (<[i := Reading n]> (ps s)) (sent s) (got s).

Definition demo_start : sys := start (replicate (Z.to_nat PIPESIZE) 0) 2.

(** A reader sleeps, a writer brings two bytes and wakes it, and it reads one. *)
Definition demo_asleep : sys := run1 false 0 (call_read 0 1 demo_start).
Definition demo_read : sys := run1 false 0 (run1 false 1 (call_write 1 [7; 8] demo_asleep)).

Lemma demo_asleep_path kills : rtc (step kills) demo_start demo_asleep.
Proof. eapply rtc_l; [by apply (step_call_read kills demo_start 0 1)|]. by apply (run1_step kills false 0). Qed.

Lemma demo_read_path kills : rtc (step kills) demo_start demo_read.
Proof.
  eapply rtc_trans; [apply demo_asleep_path|]. eapply rtc_l; [by apply (step_call_write kills demo_asleep 1 [7; 8])|].
  eapply rtc_trans; [by apply (run1_step kills false 1)|by apply (run1_step kills false 0)].
Qed.

Lemma pipe_fifo_witness :
  got demo_read = [7] /\ sent demo_read = got demo_read ++ contents (pp demo_read) /\
  (length (contents (pp demo_read)) <= Z.to_nat PIPESIZE)%nat.
Proof. split; [by vm_compute|]. by apply (pipe_fifo true (replicate (Z.to_nat PIPESIZE) 0) 2), demo_read_path. Defined.

Lemma pipe_no_lost_wakeup_witness :
  ps demo_asleep !! 0%nat = Some (ReadAsleep 1) /\
  (forall i m, ps demo_asleep !! i = Some (ReadAsleep m) -> contents (pp demo_asleep) = [] /\ writeopen (pp demo_asleep) <> 0) /\
  (forall i m rest, ps demo_asleep !! i = Some (WriteAsleep m rest) ->
     length (contents (pp demo_asleep)) = Z.to_nat PIPESIZE /\ readopen (pp demo_asleep) <> 0).
Proof. split; [by vm_compute|]. by apply (pipe_no_lost_wakeup (replicate (Z.to_nat PIPESIZE) 0) 2), demo_asleep_path. Defined.

(** A killed writer that fills the pipe returns without waking the reader that
    sleeps on it: the reader sleeps beside a full pipe. *)
Lemma killed_writer_loses_wakeup :
  exists s, rtc (step true) demo_start s /\ ps s !! 0%nat = Some (ReadAsleep 1) /\ count (pp s) = PIPESIZE.
Proof.
  exists (run1 true 1 (call_write 1 (replicate 513 7) demo_asleep)). split; [|by vm_compute].
  eapply rtc_trans; [apply demo_asleep_path|]. eapply rtc_l; [by apply (step_call_write true demo_asleep 1 (replicate 513 7))|].
  by apply (run1_step true true 1).
Qed.
