(* ===== verification/Syscall.v ===== *)
(** * System call arguments and dispatch

    syscall.c: the kernel runs in the address space of the process that made the
    call, so it reads arguments from the process's memory, after checking them
    against [p->sz]. *)

From S2P Require Import Prelude CString.
Open Scope Z_scope.

(** What the routines use of the current process: [sz] and [tf->esp]. *)
Record uproc := mkUproc { u_sz : Z; u_esp : Z }.

(** [None] is the result -1. *)
Definition fetchint (m : mem) (p : uproc) (addr : Z) : option Z :=
  if (u_sz p <=? addr) || (u_sz p <? u32 (addr + 4)) then None
  else Some (s32 (ldw m addr)).

(** The loop of [fetchstr] from [s] to the end of memory, [n] bytes ahead. *)
Fixpoint fetchstr_loop (n : nat) (m : mem) (s : Z) : option (list Z) :=
  match n with
  | O => None
  | S n => if ld m s =? 0 then Some [] else cons (ld m s) <$> fetchstr_loop n m (s + 1)
  end.

(** The string at [addr], whose length is the result of [fetchstr]. *)
Definition fetchstr (m : mem) (p : uproc) (addr : Z) : option (list Z) :=
  if u_sz p <=? addr then None
  else fetchstr_loop (Z.to_nat (u_sz p - addr)) m addr.

Definition argint (m : mem) (p : uproc) (n : Z) : option Z := fetchint m p (u32 (u_esp p + 4 + 4 * n)).

Definition argptr (m : mem) (p : uproc) (n size : Z) : option Z :=
  i ← argint m p n;
  if (size <? 0) || (u_sz p <=? u32 i) || (u_sz p <? u32 (u32 i + size)) then None
  else Some (u32 i).

(** The address of the string and the string. *)
Definition argstr (m : mem) (p : uproc) (n : Z) : option (Z * list Z) :=
  addr ← argint m p n;
  s ← fetchstr m p (u32 addr);
  Some (u32 addr, s).

(** [syscall], for a machine state with the saved %eax of the current process and
    a table of handlers; [None] is a hole in the table. *)
Section dispatch.
Context {St : Type} (get_eax : St -> Z) (set_eax : Z -> St -> St) (syscalls : list (option (M St Z))).

Definition syscall : M St () :=
  let* s := get in
  let num := s32 (get_eax s) in
  match (if (0 <? num) && (num <? Z.of_nat (length syscalls)) then syscalls !!! Z.to_nat num else None) with
  | Some handler => let* r := handler in modify (set_eax (u32 r))
  | None => modify (set_eax (u32 (-1)))
  end.
End dispatch.

Lemma fetchstr_loop_spec n m s str :
  fetchstr_loop n m s = Some str -> cstr m s str /\ (length str < n)%nat.
Proof.
  revert s str. induction n as [|n IH]; intros s str; simpl; [done|].
  destruct (ld m s =? 0) eqn:E; bsplit.
  - intros [= <-]. split; [by apply cstr_nil|simpl; lia].
  - intros (str' & Hs & ->)%fmap_Some. apply IH in Hs as [Hc Hl]. split; [|simpl; lia].
    apply cstr_cons. done.
Qed.

(** C33: the kernel stays inside the process's memory.  For a process below
    KERNBASE, an argument that [argint] accepts is a word inside the process;
    what [argptr] accepts is a buffer of [size] bytes inside it, without
    wrapping around, whatever the argument words are; and what [argstr] accepts
    is a NUL-terminated string whose NUL is inside it. *)
Theorem argument_bounds m p n size :
  0 <= u_sz p <= 2 ^ 31 -> size < 2 ^ 31 ->
  (forall v, argint m p n = Some v -> 0 <= u32 (u_esp p + 4 + 4 * n) /\ u32 (u_esp p + 4 + 4 * n) + 4 <= u_sz p) /\
  (forall a, argptr m p n size = Some a -> 0 <= size /\ 0 <= a /\ a < u_sz p /\ a + size <= u_sz p) /\
  (forall a s, argstr m p n = Some (a, s) -> 0 <= a /\ a + Z.of_nat (length s) < u_sz p /\ cstr m a s).
Proof.
  intros Hsz Hsize. split_and!.
  - intros v. unfold argint, fetchint. pose proof (u32_range (u_esp p + 4 + 4 * n)) as Hr. set (a := u32 _) in *.
    destruct (_ || _) eqn:E; [done|]. bsplit. intros _. rewrite u32_small in * by lia. lia.
  - intros a. unfold argptr. intros (i & _ & E)%bind_Some. destruct (_ || _) eqn:E2; [done|]. bsplit. simplify_eq.
    pose proof (u32_range i). rewrite (u32_small (u32 i + size)) in * by lia. lia.
  - intros a s. unfold argstr. intros (i & _ & (s' & E & [= <- <-])%bind_Some)%bind_Some. pose proof (u32_range i).
    unfold fetchstr in E. destruct (_ <=? _) eqn:E2; [done|]. bsplit. apply fetchstr_loop_spec in E as [Hc Hl].
    split; [lia|]. split; [lia|done].
Qed.

Definition demo_args : mem := write (stw (stw ∅ 104 200) 108 200) 200 [97; 98; 0].
Definition demo_proc : uproc := mkUproc 1000 100.

Lemma argument_bounds_witness :
  argptr demo_args demo_proc 1 16 = Some 200 /\ argstr demo_args demo_proc 0 = Some (200, [97; 98]) /\
  (forall v, argint demo_args demo_proc 1 = Some v -> 0 <= u32 (100 + 4 + 4 * 1) /\ u32 (100 + 4 + 4 * 1) + 4 <= 1000) /\
  (forall a, argptr demo_args demo_proc 1 16 = Some a -> 0 <= 16 /\ 0 <= a /\ a < 1000 /\ a + 16 <= 1000) /\
  (forall a s, argstr demo_args demo_proc 1 = Some (a, s) -> 0 <= a /\ a + Z.of_nat (length s) < 1000 /\ cstr demo_args a s).
Proof. split; [by vm_compute|]. split; [by vm_compute|]. apply (argument_bounds demo_args demo_proc 1 16); simpl; lia. Defined.
