(* ===== verification/Exec.v ===== *)
(** * Replacing the image of a process

    exec.c and [sys_exec] of sysfile.c.  [exec] calls every part of the kernel: the
    process table it runs on is that of proc.c, the file system and the page
    tables are behind the interfaces [KernelOps] and [ExecOps].  A null pointer is
    0; [None] in a helper is the [goto bad] of the source. *)

From S2P Require Import Prelude CString Users Spinlock Kalloc ProcData ProcTable Threads Syscall Block.
Open Scope Z_scope.

Definition MAXARG : Z := 32.
Definition SLASH : Z := 47.

(** elf.h *)
Definition ELF_MAGIC : Z := 0x464C457F.
Definition ELF_PROG_LOAD : Z := 1.
Definition ELF_SIZE : Z := 52.
Definition PH_SIZE : Z := 32.
Definition elf_magic (e : list Z) : Z := word_at e 0.
Definition elf_entry (e : list Z) : Z := word_at e 24.
Definition elf_phoff (e : list Z) : Z := word_at e 28.
Definition elf_phnum (e : list Z) : Z := half_at e 44.
Definition ph_type (p : list Z) : Z := word_at p 0.
Definition ph_off (p : list Z) : Z := word_at p 4.
Definition ph_vaddr (p : list Z) : Z := word_at p 8.
Definition ph_filesz (p : list Z) : Z := word_at p 16.
Definition ph_memsz (p : list Z) : Z := word_at p 20.

(** What [exec] uses besides: of fs.c [namei], [ilock], [iunlockput] and [readi] into
    a kernel buffer; [access], the result of [stati] and [checkmod] for the
    current user; of vm.c [loaduvm]. *)
Class ExecOps (K : Type) := {
  namei : list Z -> M K Z;
  ilock : Z -> M K ();
  iunlockput : Z -> M K ();
  access : Z -> M K Z;
  readi : Z -> Z -> Z -> M K (Z * list Z);
  loaduvm : Z -> Z -> Z -> Z -> Z -> M K Z }.

Section exec.
Context (PTLOCK : Z) {K : Type} `{!KernelOps K, !ExecOps K}.
Local Abbreviation KS := (kstate ptable K).

(** The [goto bad] of [exec]. *)
Definition bad (pgdir ip : Z) : M KS Z :=
  when (nz pgdir) (kcall (freevm pgdir)) ;;;
  when (nz ip) (kcall (iunlockput ip) ;;; kcall end_op) ;;;
  ret (-1).

(** The program headers: [n] are left, the next is at [off]. *)
Fixpoint load_loop (n : nat) (pgdir ip off sz : Z) : M KS (option Z) :=
  match n with
  | O => ret (Some sz)
  | S n' =>
      let* r := kcall (readi ip (u32 off) PH_SIZE) in
      let ph := r.2 in
      if negb (r.1 =? PH_SIZE) then ret None
      else if negb (ph_type ph =? ELF_PROG_LOAD) then load_loop n' pgdir ip (off + PH_SIZE) sz
      else if ph_memsz ph <? ph_filesz ph then ret None
      else if u32 (ph_vaddr ph + ph_memsz ph) <? ph_vaddr ph then ret None
      else
        let* sz := kcall (allocuvm pgdir sz (u32 (ph_vaddr ph + ph_memsz ph))) in
        if sz =? 0 then ret None
        else if nz (ph_vaddr ph mod PGSIZE) then ret None
        else
          let* r := kcall (loaduvm pgdir (ph_vaddr ph) ip (ph_off ph) (ph_filesz ph)) in
          if r <? 0 then ret None else load_loop n' pgdir ip (off + PH_SIZE) sz
  end.

(** [(sp - (strlen(s) + 1)) & ~3] *)
Definition push_addr (sp : Z) (s : list Z) : Z := Z.land (u32 (sp - (Z.of_nat (length s) + 1))) (Z.lnot 3).

(** The argument strings; [ustack] are the addresses pushed so far. *)
Fixpoint push_args (pgdir : Z) (argv : list (list Z)) (sp : Z) (ustack : list Z) : M KS (option (Z * list Z)) :=
  match argv with
  | [] => ret (Some (sp, ustack))
  | s :: argv' =>
      if MAXARG <=? Z.of_nat (length ustack) then ret None
      else
        let sp := push_addr sp s in
        let* r := kcall (copyout pgdir sp (s ++ [0])) in
        if r <? 0 then ret None else push_args pgdir argv' sp (ustack ++ [sp])
  end.

(** [ustack]: the fake return address, [argc], [argv] and its pointers. *)
Definition user_stack (sp : Z) (ptrs : list Z) : list Z :=
  let argc := Z.of_nat (length ptrs) in
  [0xffffffff; argc; u32 (sp - (argc + 1) * 4)] ++ ptrs ++ [0].

(** What follows the last slash. *)
Fixpoint last_elem (path last : list Z) : list Z :=
  match path with
  | [] => last
  | c :: path' => last_elem path' (if c =? SLASH then path' else last)
  end.

(** The user image has been built: [exec] from the saving of the name on. *)
Definition commit_image (cur : nat) (path : list Z) (pg sz entry sp : Z) : M KS Z :=
  modp (upd cur (set_name (copy_name (last_elem path path)))) ;;;
  let* t := getp in
  let oldpgdir := pgdir (P t cur) in
  modp (upd cur (set_pgdir pg)) ;;;
  modp (upd cur (set_sz sz)) ;;;
  modp (upd cur (fun p => set_tf (set_eip_esp entry (tf_esp (tf p)) (tf p)) p)) ;;;
  modp (upd cur (fun p => set_tf (set_eip_esp (tf_eip (tf p)) sp (tf p)) p)) ;;;
  let* t := getp in
  switchuvm (P t cur) ;;;
  kcall (freevm oldpgdir) ;;;
  ret 0.

(** The stack and the arguments, once the program is loaded up to [sz]. *)
Definition build_stack (cur : nat) (path : list Z) (argv : list (list Z)) (pg sz entry : Z) : M KS Z :=
  let sz := PGROUNDUP sz in
  let* sz := kcall (allocuvm pg sz (u32 (sz + 2 * PGSIZE))) in
  if sz =? 0 then bad pg 0
  else
    kcall (clearpteu pg (u32 (sz - 2 * PGSIZE))) ;;;
    let* r := push_args pg argv sz [] in
    match r with
    | None => bad pg 0
    | Some (sp, ptrs) =>
        let ustack := user_stack sp ptrs in
        let sp := u32 (sp - (3 + Z.of_nat (length ptrs) + 1) * 4) in
        let* r := kcall (copyout pg sp (concat (word_bytes <$> ustack))) in
        if r <? 0 then bad pg 0 else commit_image cur path pg sz entry sp
    end.

Definition exec (path : list Z) (argv : list (list Z)) : M KS Z :=
  let* cur := myproc in
  let* t := getp in
  (if negb (tid (P t cur) =? 0) then
     modp (upd cur (set_tid 0)) ;;;
     let* t := getp in
     match main (P t cur) with
     | None => panic "trap"
     | Some m => modp (upd cur (set_parent (parent (P t m)))) ;;; modp (upd cur (set_main None))
     end
   else ret ()) ;;;
  let* t := getp in
  kill_threads_except PTLOCK (pid (P t cur)) cur ;;;
  kcall begin_op ;;;
  let* ip := kcall (namei path) in
  if ip =? 0 then kcall end_op ;;; ret (-1)
  else
    kcall (ilock ip) ;;;
    let* t := getp in
    let* ok := (if 2 <? pid (P t cur) then let* m := kcall (access ip) in ret (nz (Z.land m X_OK)) else ret true) in
    if negb ok then bad 0 ip
    else
      let* r := kcall (readi ip 0 ELF_SIZE) in
      let elf := r.2 in
      if negb (r.1 =? ELF_SIZE) then bad 0 ip
      else if negb (elf_magic elf =? ELF_MAGIC) then bad 0 ip
      else
        let* pg := kcall setupkvm in
        if pg =? 0 then bad 0 ip
        else
          let* r := load_loop (Z.to_nat (elf_phnum elf)) pg ip (elf_phoff elf) 0 in
          match r with
          | None => bad pg ip
          | Some sz =>
              kcall (iunlockput ip) ;;;
              kcall end_op ;;;
              build_stack cur path argv pg sz (elf_entry elf)
          end.

(** The loop of [sys_exec] over the user's [argv] array, whose length [NELEM(argv)] is
    [MAXARG]: [n] elements are left. *)
Fixpoint exec_args (n : nat) (m : mem) (p : uproc) (uargv i : Z) : option (list (list Z)) :=
  match n with
  | O => None
  | S n' =>
      uarg ← fetchint m p (u32 (uargv + 4 * i));
      if u32 uarg =? 0 then Some []
      else
        s ← fetchstr m p (u32 uarg);
        rest ← exec_args n' m p uargv (i + 1);
        Some (s :: rest)
  end.

Definition sys_exec (m : mem) (p : uproc) : M KS Z :=
  match (path ← argstr m p 0; uargv ← argint m p 1; argv ← exec_args (Z.to_nat MAXARG) m p (u32 uargv) 0; Some (path.2, argv)) with
  | None => ret (-1)
  | Some (path, argv) => exec path argv
  end.
End exec.

(** ** The commit *)

Section commit.
Context (PTLOCK : Z) {K : Type} `{!KernelOps K, !ExecOps K}.
Local Abbreviation KS := (kstate ptable K).

Lemma lk_push_pop (s : KS) : unlocked PTLOCK (kl s) ->
  exists l, (lk pushcli ;;; lk popcli) s = Ret () (with_kl l s) /\ unlocked PTLOCK l.
Proof.
  intros [Hc Hl]. eexists. split; [unfold bind, lk, lift; rewrite pushcli_run; cbn [kl with_kl]; erewrite (popcli_pushcli (kl s)); try done|].
  - simpl. destruct Hc. lia.
  - split; [|done]. destruct Hc. split; simpl; auto.
Qed.

(** The assignments of the commit. *)
Definition committed (cur : nat) (pg n entry sp : Z) (t : ptable) : ptable :=
  upd cur (fun p => set_tf (set_eip_esp (tf_eip (tf p)) sp (tf p)) p)
    (upd cur (fun p => set_tf (set_eip_esp entry (tf_esp (tf p)) (tf p)) p) (upd cur (set_sz n) (upd cur (set_pgdir pg) t))).
Lemma committed_slot cur pg n entry sp t : (cur < length (procs t))%nat ->
  P (committed cur pg n entry sp t) cur = set_tf (set_eip_esp entry sp (tf (P t cur))) (set_sz n (set_pgdir pg (P t cur))).
Proof. intros Hl. unfold committed. rewrite !slot_upd_in by (by rewrite ?len_upd). by rewrite !decide_True. Qed.

Lemma exec_commit_run cur path pg n entry sp (s : KS) :
  unlocked PTLOCK (kl s) -> (cur < length (procs (pt s)))%nat -> kstack (P (pt s) cur) <> 0 -> pg <> 0 ->
  exists s', commit_image cur path pg n entry sp s = (kcall (freevm (pgdir (P (pt s) cur))) ;;; ret 0) s' /\
    unlocked PTLOCK (kl s') /\ kern s' = kern s /\
    P (pt s') cur = set_tf (set_eip_esp entry sp (tf (P (pt s) cur))) (set_sz n (set_pgdir pg
      (set_name (copy_name (last_elem path path)) (P (pt s) cur)))).
Proof.
  intros U Hl Hk Hpg. set (t1 := upd cur (set_name (copy_name (last_elem path path))) (pt s)).
  assert (P t1 cur = set_name (copy_name (last_elem path path)) (P (pt s) cur)) as E1 by (unfold t1; by rewrite slot_upd_in, decide_True by done).
  pose proof (committed_slot cur pg n entry sp t1 ltac:(unfold t1; by rewrite len_upd)) as E. set (t2 := committed cur pg n entry sp t1) in *.
  destruct (lk_push_pop (with_pt t2 s)) as (l & El & Ul); [done|].
  exists (with_kl l (with_pt t2 s)). split; [|cbn; by rewrite E, E1].
  change (commit_image cur path pg n entry sp s) with
    ((switchuvm (P t2 cur) ;;; kcall (freevm (pgdir (P t1 cur))) ;;; ret 0) (with_pt t2 s)).
  unfold switchuvm. rewrite E, E1. cbn [kstack pgdir set_tf set_sz set_pgdir set_name].
  replace (kstack _ =? 0) with false by lia. replace (pg =? 0) with false by lia. by rewrite (bind_ret _ _ _ _ _ El).
Qed.
End commit.

(** ** The protocol of [exec]

    [exec] runs here on a kernel that answers every call as it likes and records the
    calls: [ans] gives the result of a call from the calls so far, and [bytes]
    what a read copies out. *)

Inductive call :=
| CBegin | CEnd                       (* begin_op, end_op *)
| CIput                               (* iput *)
| CNamei (r : Z) | CIlock (ip : Z) | CPut (ip : Z) | CRead (ip : Z)
| CSetup (r : Z) | CUse (pg : Z) | CFreevm (pg : Z)
| COther.

(** What a process holds while it runs [exec]: whether it is in a transaction, its inode
    and whether that is locked, and a page table that is not yet in use. *)
Record held := mkHeld { in_op : bool; node : option (Z * bool); table : option Z }.
Definition idle : held := mkHeld false None None.

(** The rules: [None] breaks them. *)
Definition obeys (h : held) (c : call) : option held :=
  match c with
  | CBegin => if in_op h then None else Some (mkHeld true (node h) (table h))
  | CEnd => if in_op h && bool_decide (node h = None) then Some (mkHeld false None (table h)) else None
  | CIput => if in_op h then Some h else None
  | CNamei r => if in_op h && bool_decide (node h = None) then
                  Some (if r =? 0 then h else mkHeld true (Some (r, false)) (table h)) else None
  | CIlock ip => if bool_decide (node h = Some (ip, false)) then Some (mkHeld (in_op h) (Some (ip, true)) (table h)) else None
  | CPut ip => if in_op h && bool_decide (node h = Some (ip, true)) then Some (mkHeld (in_op h) None (table h)) else None
  | CRead ip => if bool_decide (node h = Some (ip, true)) then Some h else None
  | CSetup r => if bool_decide (table h = None) then Some (if r =? 0 then h else mkHeld (in_op h) (node h) (Some r)) else None
  | CUse pg => if bool_decide (table h = Some pg) then Some h else None
  | CFreevm pg => if bool_decide (table h = Some pg) then Some (mkHeld (in_op h) (node h) None) else None
  | COther => Some h
  end.
Definition holds (tr : list call) : option held := foldl (fun o c => h ← o; obeys h c) (Some idle) tr.

Section oracle.
Context (ans : list call -> Z) (bytes : list call -> list Z).

Definition ask (ev : Z -> call) : M (list call) Z := fun tr => Ret (ans tr) (tr ++ [ev (ans tr)]).
Definition tell (c : call) : M (list call) () := fun tr => Ret () (tr ++ [c]).

#[local] Instance oracle_ops : KernelOps (list call) := {
  kalloc := ask (fun _ => COther); kfree _ := tell COther;
  setupkvm := ask CSetup; inituvm _ := tell COther; copyuvm _ _ := ask (fun _ => COther); freevm pg := tell (CFreevm pg);
  allocuvm pg _ _ := ask (fun _ => CUse pg); deallocuvm pg _ _ := ask (fun _ => CUse pg);
  copyout pg _ _ := ask (fun _ => CUse pg); clearpteu pg _ := tell (CUse pg); ustore _ _ := tell COther;
  filedup _ := ask (fun _ => COther); fileclose _ := tell COther; idup _ := ask (fun _ => COther); iput _ := tell CIput;
  begin_op := tell CBegin; end_op := tell CEnd; namei_root := ask (fun _ => COther); fs_init := tell COther }.
#[local] Instance oracle_exec : ExecOps (list call) := {
  namei _ := ask CNamei; ilock ip := tell (CIlock ip); iunlockput ip := tell (CPut ip);
  access ip := ask (fun _ => CRead ip);
  readi ip _ _ := fun tr => Ret (ans tr, bytes tr) (tr ++ [CRead ip]);
  loaduvm pg _ _ _ _ := ask (fun _ => CUse pg) }.


(** ** The rules are kept *)

Section protocol.
Context (PTLOCK : Z).
Local Abbreviation KS := (kstate ptable (list call)).

(** The process holds [h], and the table is [t]; [ptable.lock] is free or taken. *)
Definition at_rest (h : held) (R : ptable -> Prop) (s : KS) : Prop := unlocked PTLOCK (kl s) /\ R (pt s) /\ holds (kern s) = Some h.
Definition in_table (h : held) (R : ptable -> Prop) (s : KS) : Prop := locked_by PTLOCK (kl s) /\ R (pt s) /\ holds (kern s) = Some h.

Lemma holds_snoc tr c h h' : holds tr = Some h -> obeys h c = Some h' -> holds (tr ++ [c]) = Some h'.
Proof. unfold holds. intros E E'. rewrite foldl_app. simpl. by rewrite E. Qed.

Lemma runs_acquire h R : runs (at_rest h R) (lk (acquire PTLOCK)) (fun _ => in_table h R).
Proof. intros s (U & HR & Hh). destruct (lk_acquire PTLOCK s U) as (l & E & Hl & _). exists (), (with_kl l s). by split_and!. Qed.
Lemma runs_release h R : runs (in_table h R) (lk (release PTLOCK)) (fun _ => at_rest h R).
Proof. intros s (U & HR & Hh). destruct (lk_release PTLOCK s U) as (l & E & Hl & _). exists (), (with_kl l s). by split_and!. Qed.

Lemma runs_getp {A} (B : KS -> Prop) (k : ptable -> M KS A) Q :
  (forall t, runs (fun s => B s /\ pt s = t) (k t) Q) -> runs B (bind getp k) Q.
Proof. intros Hk s Hs. unfold bind, getp, gets. by apply (Hk (pt s)). Qed.

Lemma runs_modp h (R R' : ptable -> Prop) f : (forall t, R t -> R' (f t)) -> runs (at_rest h R) (modp f) (fun _ => at_rest h R').
Proof. intros Hf s (U & HR & Hh). eexists _, _. split; [done|]. split_and!; try done. by apply Hf. Qed.
Lemma runs_modp_in h (R R' : ptable -> Prop) f : (forall t, R t -> R' (f t)) -> runs (in_table h R) (modp f) (fun _ => in_table h R').
Proof. intros Hf s (U & HR & Hh). eexists _, _. split; [done|]. split_and!; try done; try apply U. by apply Hf. Qed.

Lemma runs_tell h h' R c : obeys h c = Some h' -> runs (at_rest h R) (kcall (tell c)) (fun _ => at_rest h' R).
Proof. intros Ho s (U & HR & Hh). eexists _, _. split; [done|]. split_and!; try done. by eapply holds_snoc. Qed.
Lemma runs_tell_in h h' R c : obeys h c = Some h' -> runs (in_table h R) (kcall (tell c)) (fun _ => in_table h' R).
Proof. intros Ho s (U & HR & Hh). eexists _, _. split; [done|]. split_and!; try done; try apply U. by eapply holds_snoc. Qed.

Lemma runs_ask {A} h R ev (k : Z -> M KS A) Q :
  (forall r, exists h', obeys h (ev r) = Some h' /\ runs (at_rest h' R) (k r) Q) -> runs (at_rest h R) (bind (kcall (ask ev)) k) Q.
Proof.
  intros H s (U & HR & Hh). destruct (H (ans (kern s))) as (h' & Ho & Hk). unfold bind, kcall, lift, ask. apply Hk.
  split_and!; try done. by eapply holds_snoc.
Qed.

Lemma runs_readi {A} h R ip off n (k : Z * list Z -> M KS A) Q :
  (forall r, exists h', obeys h (CRead ip) = Some h' /\ runs (at_rest h' R) (k r) Q) -> runs (at_rest h R) (bind (kcall (readi ip off n)) k) Q.
Proof.
  intros H s (U & HR & Hh). destruct (H (ans (kern s), bytes (kern s))) as (h' & Ho & Hk). unfold bind, kcall, lift. simpl. apply Hk.
  split_and!; try done. by eapply holds_snoc.
Qed.

(** *** The other threads *)

(** The image of a process: what a failing [exec] must not touch. *)
Definition image (p : proc) : Z * Z * trapframe * Z * Z := (sz p, pgdir p, tf p, kstack p, pid p).
Definition same_image (cur : nat) (p : proc) (t : ptable) : Prop := (cur < length (procs t))%nat /\ image (P t cur) = image p.

Lemma image_upd cur p i f t : (i = cur -> forall q, image (f q) = image q) -> same_image cur p t -> same_image cur p (upd i f t).
Proof.
  intros Hf [Hl Hi]. split; [by rewrite len_upd|]. rewrite <- Hi. destruct (decide (i = cur)) as [->|Hne]; [|by rewrite slot_upd_ne].
  rewrite slot_upd_in, decide_True by done. by apply Hf.
Qed.

Lemma image_foldl {A} cur p (f : ptable -> A -> ptable) l t :
  (forall t x, same_image cur p t -> same_image cur p (f t x)) -> same_image cur p t -> same_image cur p (foldl f t l).
Proof. intros Hf. revert t. induction l as [|x l IH]; intros t Ht; simpl; auto. Qed.

Lemma image_wakeup1 cur p c t : same_image cur p t -> same_image cur p (wakeup1 c t).
Proof. apply image_foldl. intros t' i Ht. case_bool_decide; [|done]. by apply image_upd. Qed.
Lemma image_reparent cur p i t : same_image cur p t -> same_image cur p (reparent i t).
Proof.
  apply image_foldl. intros t' j Ht. case_bool_decide; [|done]. cbv zeta.
  assert (same_image cur p (upd j (set_parent (initproc t')) t')) as H1 by (by apply image_upd).
  case_bool_decide; [by apply image_wakeup1|done].
Qed.

Lemma runs_pre {A} (B B' : KS -> Prop) (c : M KS A) Q : (forall s, B s -> B' s) -> runs B' c Q -> runs B c Q.
Proof. intros HB H. eapply runs_weaken; [exact H|done|done]. Qed.

Lemma runs_seq {A} (B R : KS -> Prop) (c : M KS ()) (k : M KS A) Q : runs B c (fun _ => R) -> runs R k Q -> runs B (c ;;; k) Q.
Proof. intros Hc Hk. eapply runs_bind; [exact Hc|done]. Qed.
Lemma runs_look {A} (B : KS -> Prop) (k : ptable -> M KS A) Q : (forall t, runs B (k t) Q) -> runs B (bind getp k) Q.
Proof. intros Hk. apply runs_getp. intros t. eapply runs_pre; [|apply Hk]. tauto. Qed.

Section others.
Context (cur : nat) (p : proc) (i : nat) (Hne : i <> cur).
Local Abbreviation I := (same_image cur p).

Lemma runs_upd_in f : runs (in_table idle I) (modp (upd i f)) (fun _ => in_table idle I).
Proof. apply runs_modp_in. intros t Ht. by apply image_upd. Qed.

Lemma runs_close_files : runs (in_table idle I) (close_files i) (fun _ => in_table idle I).
Proof.
  apply runs_for_each. intros fd. apply runs_look. intros t. apply runs_when. intros _.
  eapply runs_seq; [by apply runs_tell_in|apply runs_upd_in].
Qed.

Lemma runs_put_cwd : runs (at_rest idle I) (put_cwd i) (fun _ => at_rest idle I).
Proof.
  eapply runs_seq; [by apply runs_tell|]. apply runs_look. intros t.
  do 2 (eapply runs_seq; [by apply runs_tell|]). apply runs_modp. intros t' Ht. by apply image_upd.
Qed.

Lemma runs_thread_clear : runs (in_table idle I) (thread_clear i) (fun _ => in_table idle I).
Proof.
  apply runs_look. intros t. eapply runs_seq; [by apply runs_tell_in|].
  repeat (eapply runs_seq; [apply runs_upd_in|]). apply runs_upd_in.
Qed.
End others.

Lemma runs_kill_threads pd cur p :
  runs (at_rest idle (same_image cur p)) (kill_threads_except PTLOCK pd cur) (fun _ => at_rest idle (same_image cur p)).
Proof.
  eapply runs_seq; [apply runs_acquire|]. eapply runs_seq; [|apply runs_release].
  apply runs_for_each. intros i. apply runs_look. intros t. apply runs_when. intros Hb. bsplit. assert (i <> cur) as Hne by lia.
  eapply runs_seq; [apply (runs_modp_in idle _ (same_image cur p)); intros; by apply image_reparent|].
  eapply runs_seq; [by apply runs_close_files|]. eapply runs_seq; [apply runs_release|].
  eapply runs_seq; [by apply runs_put_cwd|]. eapply runs_seq; [apply runs_acquire|]. by apply runs_thread_clear.
Qed.

(** *** The two endings *)

Section endings.
Context (cur : nat) (p : proc).
Local Abbreviation I := (same_image cur p).

(** The call failed: nothing is held, and the process has the image it had. *)
Definition failed (r : Z) (s : KS) : Prop := r = -1 /\ at_rest idle I s.

(** The call succeeded: the process has the table that was built, and the last
    call released the one it had. *)
Definition replaced (r : Z) (s : KS) : Prop :=
  r = 0 /\ unlocked PTLOCK (kl s) /\
  exists tr, kern s = tr ++ [CFreevm (pgdir p)] /\
    holds tr = Some (mkHeld false None (Some (pgdir (P (pt s) cur)))) /\
    pgdir (P (pt s) cur) <> 0 /\ kstack (P (pt s) cur) = kstack p /\ pid (P (pt s) cur) = pid p.
Definition ended (r : Z) (s : KS) : Prop := failed r s \/ replaced r s.

Lemma runs_fail B : (forall s, B s -> at_rest idle I s) -> runs B (ret (-1)) ended.
Proof. intros H. apply runs_ret. intros s Hs. left. split; [done|]. by apply H. Qed.

Lemma runs_bad_open ip tb : ip <> 0 -> tb <> Some 0 -> runs (at_rest (mkHeld true (Some (ip, true)) tb) I) (bad (default 0 tb) ip) ended.
Proof.
  intros Hip Htb. unfold bad. eapply (runs_seq _ (at_rest (mkHeld true (Some (ip, true)) None) I)).
  { destruct tb as [pg|]; cbn [default from_option id]; [|by apply runs_ret].
    replace (nz pg) with true by (unfold nz; destruct (Z.eqb_spec pg 0); [congruence|done]).
    apply runs_tell. cbn. by rewrite bool_decide_eq_true_2. }
  eapply runs_seq; [|by apply (runs_fail (at_rest idle I))]. replace (nz ip) with true by (unfold nz; lia).
  eapply runs_seq; [apply (runs_tell _ (mkHeld true None None))|by apply runs_tell]. cbn. by rewrite bool_decide_eq_true_2.
Qed.

Lemma runs_bad_closed pg : pg <> 0 -> runs (at_rest (mkHeld false None (Some pg)) I) (bad pg 0) ended.
Proof.
  intros Hpg. unfold bad. replace (nz pg) with true by (unfold nz; lia).
  eapply runs_seq; [apply (runs_tell _ idle); cbn; by rewrite bool_decide_eq_true_2|].
  by apply (runs_seq _ (at_rest idle I)); [apply runs_ret|apply runs_fail].
Qed.

Lemma runs_commit pg n path entry sp : pg <> 0 -> kstack p <> 0 ->
  runs (at_rest (mkHeld false None (Some pg)) I) (commit_image cur path pg n entry sp) ended.
Proof.
  intros Hpg Hk s (U & [Hl Hi] & Hh). injection Hi as E1 E2 E3 E4 E5.
  destruct (exec_commit_run PTLOCK cur path pg n entry sp s U) as (s2 & E & U2 & K2 & E6); [done|congruence|done|].
  rewrite E. exists 0, (with_kern (kern s ++ [CFreevm (pgdir p)]) s2). split.
  - unfold bind, kcall, lift. cbn. by rewrite K2, E2.
  - right. split; [done|]. split; [done|]. exists (kern s). cbn [kern pt with_kern]. rewrite E6. cbn. by rewrite E4, E5.
Qed.

(** *** The loops *)

Lemma runs_load h n pg ip off m : h = mkHeld true (Some (ip, true)) (Some pg) ->
  runs (at_rest h I) (load_loop n pg ip off m) (fun _ => at_rest h I).
Proof.
  intros Eh. assert (obeys h (CRead ip) = Some h) as Hr by (subst; cbn; by rewrite bool_decide_eq_true_2).
  assert (obeys h (CUse pg) = Some h) as Hu by (subst; cbn; by rewrite bool_decide_eq_true_2). clear Eh.
  revert off m. induction n as [|n IH]; intros off m; cbn [load_loop]; [by apply runs_ret|].
  apply runs_readi. intros r. exists h. split; [done|]. cbv zeta.
  destruct (negb _); [by apply runs_ret|]. destruct (negb _); [by apply IH|].
  destruct (_ <? _); [by apply runs_ret|]. destruct (_ <? _); [by apply runs_ret|].
  apply runs_ask. intros m'. exists h. split; [done|]. destruct (_ =? _); [by apply runs_ret|]. destruct (nz _); [by apply runs_ret|].
  apply runs_ask. intros r'. exists h. split; [done|]. destruct (_ <? _); [by apply runs_ret|]. apply IH.
Qed.

Lemma runs_push pg argv sp us : runs (at_rest (mkHeld false None (Some pg)) I) (push_args pg argv sp us) (fun _ => at_rest (mkHeld false None (Some pg)) I).
Proof.
  revert sp us. induction argv as [|a argv IH]; intros sp us; cbn [push_args]; [by apply runs_ret|].
  destruct (_ <=? _); [by apply runs_ret|]. apply runs_ask. intros r. eexists. split; [cbn; by rewrite bool_decide_eq_true_2|].
  destruct (_ <? _); [by apply runs_ret|]. apply IH.
Qed.

Lemma runs_build pg n path argv entry : pg <> 0 -> kstack p <> 0 ->
  runs (at_rest (mkHeld false None (Some pg)) I) (build_stack cur path argv pg n entry) ended.
Proof.
  intros Hpg Hk. set (h := mkHeld false None (Some pg)).
  assert (obeys h (CUse pg) = Some h) as Hu by (cbn; by rewrite bool_decide_eq_true_2).
  unfold build_stack. cbv zeta. apply runs_ask. intros m. exists h. split; [done|].
  destruct (m =? 0); [by apply runs_bad_closed|]. eapply runs_seq; [by apply runs_tell|].
  eapply runs_bind; [apply runs_push|intros [[sp ptrs]|]]; [|by apply runs_bad_closed].
  apply runs_ask. intros r. exists h. split; [done|]. destruct (r <? 0); [by apply runs_bad_closed|by apply runs_commit].
Qed.

(** *** The whole call *)

(** The calling thread becomes the main thread. *)
Lemma runs_become_main : (tid p <> 0 -> main p <> None) ->
  runs (fun s => at_rest idle I s /\ P (pt s) cur = p)
    (let* t := getp in
     if negb (tid (P t cur) =? 0) then
       modp (upd cur (set_tid 0)) ;;;
       let* t := getp in
       match main (P t cur) with
       | None => panic "trap"
       | Some m => modp (upd cur (set_parent (parent (P t m)))) ;;; modp (upd cur (set_main None))
       end
     else ret ()) (fun _ => at_rest idle I).
Proof.
  intros Hm s [Hs Hp]. unfold bind at 1, getp, gets. rewrite Hp. destruct (negb _) eqn:Et; [|by eexists _, _]. bsplit.
  pose proof Hs as (_ & [Hl _] & _). unfold bind at 1, modp at 1, modify. cbv beta iota. unfold bind at 1. cbn [pt with_pt].
  rewrite slot_upd_in, decide_True, Hp by done. cbn [main set_tid]. destruct (main p) as [m|] eqn:Em; [|by destruct Hm].
  refine (runs_seq (at_rest idle I) (at_rest idle I) _ _ _ _ _ _ _).
  - apply runs_modp. intros t Ht. by apply image_upd.
  - apply runs_modp. intros t Ht. by apply image_upd.
  - destruct Hs as (U & HI & Hh). split; [done|]. split; [by apply image_upd|done].
Qed.

Lemma runs_exec path argv : (tid p <> 0 -> main p <> None) -> kstack p <> 0 ->
  runs (fun s => at_rest idle I s /\ P (pt s) cur = p /\ cproc (pt s) = Some cur) (exec PTLOCK path argv) ended.
Proof.
  intros Hm Hk s (Hs & Hp & Hc). unfold exec. rewrite (bind_ret _ _ _ _ _ (myproc_run _ _ Hc)).
  rewrite <- bind_assoc. refine (runs_seq _ _ _ _ _ (runs_become_main Hm) _ s (conj Hs Hp)).
  apply runs_look. intros t0. eapply runs_seq; [apply runs_kill_threads|]. eapply runs_seq; [by apply runs_tell|].
  apply runs_ask. intros ip. eexists. split; [done|]. destruct (ip =? 0) eqn:Eip.
  { eapply runs_seq; [by apply (runs_tell _ idle)|by apply runs_fail]. }
  bsplit. set (h := mkHeld true (Some (ip, true)) None).
  assert (obeys h (CRead ip) = Some h) as Hr by (cbn; by rewrite bool_decide_eq_true_2).
  eapply (runs_seq _ (at_rest h I)); [apply runs_tell; cbn; by rewrite bool_decide_eq_true_2|].
  apply runs_look. intros t1. apply (runs_bind _ _ _ (fun _ => at_rest h I)).
  { destruct (2 <? _); [|by apply runs_ret]. apply runs_ask. intros m. exists h. split; [done|by apply runs_ret]. }
  intros ok. destruct (negb ok); [by apply (runs_bad_open ip None)|].
  apply runs_readi. intros r. exists h. split; [done|]. cbv zeta.
  destruct (negb _); [by apply (runs_bad_open ip None)|]. destruct (negb _); [by apply (runs_bad_open ip None)|].
  apply runs_ask. intros pg. eexists. split; [done|]. destruct (pg =? 0) eqn:Epg; [by apply (runs_bad_open ip None)|]. bsplit.
  eapply runs_bind; [by apply runs_load|intros [n|]]; [|apply (runs_bad_open ip (Some pg)); congruence].
  eapply (runs_seq _ (at_rest (mkHeld true None (Some pg)) I)); [apply runs_tell; cbn; by rewrite bool_decide_eq_true_2|].
  eapply runs_seq; [by apply runs_tell|by apply runs_build].
Qed.
End endings.

End protocol.
End oracle.

(** A thread runs [exec] on a program without segments. *)
Definition demo_exec : kstate ptable (list call) :=
  mkKstate (kl demo_in_thread) (pt demo_in_thread) [] false.
Definition demo_ans (tr : list call) : Z :=
  match last tr with
  | Some CBegin => 7 | Some (CIlock _) => ELF_SIZE | Some (CRead _) => 9 | Some CEnd => 2 * PGSIZE | _ => 0
  end.
Definition demo_bytes (tr : list call) : list Z := word_bytes ELF_MAGIC ++ replicate 48 0.

