(* ===== verification/ExecStack.v ===== *)
(** * The stack of a new program

    What [exec] leaves for [main(argc, argv)]: the strings, the array of pointers to
    them and the frame below it are found in the new image from the stack pointer
    the process is given. *)

From S2P Require Import Prelude CString Spinlock Kalloc ProcData ProcTable Threads Exec.
Open Scope Z_scope.

(** The bytes [bs] are in the memory [um] from address [a] on. *)
Definition bytes_at (um : Z -> Z) (a : Z) (bs : list Z) : Prop :=
  forall j x, bs !! j = Some x -> um (a + Z.of_nat j) = x.

Lemma bytes_at_keep um um' a bs :
  (forall x, a <= x < a + Z.of_nat (length bs) -> um' x = um x) -> bytes_at um a bs -> bytes_at um' a bs.
Proof. intros H Hb j x Hj. rewrite H; [by apply Hb|]. apply lookup_lt_Some in Hj. lia. Qed.

Lemma bytes_at_app um a bs bs' : bytes_at um a (bs ++ bs') -> bytes_at um a bs /\ bytes_at um (a + Z.of_nat (length bs)) bs'.
Proof.
  intros H. split; intros j x Hj; [apply H; by apply lookup_app_l_Some|].
  replace (a + Z.of_nat (length bs) + Z.of_nat j) with (a + Z.of_nat (length bs + j)) by lia.
  apply H. rewrite lookup_app_r by lia. by replace (length bs + j - length bs)%nat with j by lia.
Qed.

(** The words [ws], in little-endian order. *)
Definition words_at (um : Z -> Z) (a : Z) (ws : list Z) : Prop := bytes_at um a (concat (word_bytes <$> ws)).

Lemma words_at_lookup um a ws i w : words_at um a ws -> ws !! i = Some w -> bytes_at um (a + 4 * Z.of_nat i) (word_bytes w).
Proof.
  unfold words_at. revert a i. induction ws as [|v ws IH]; intros a i Hw; [done|].
  cbn [fmap list_fmap concat] in Hw. apply bytes_at_app in Hw as [H0 H1]. rewrite length_word_bytes in H1.
  destruct i as [|i]; cbn [lookup]; [intros [= <-]; by replace (a + 4 * Z.of_nat 0) with a by lia|].
  intros Hi. replace (a + 4 * Z.of_nat (S i)) with (a + Z.of_nat 4 + 4 * Z.of_nat i) by lia. by apply IH.
Qed.

Lemma push_addr_bounds sp s : Z.of_nat (length s) + 4 <= sp < 2 ^ 32 ->
  sp - (Z.of_nat (length s) + 4) <= push_addr sp s <= sp - (Z.of_nat (length s) + 1).
Proof.
  intros H. unfold push_addr. rewrite u32_small by lia. change 3 with (Z.ones 2).
  rewrite <- Z.ldiff_land, Z.ldiff_ones_r, Z.shiftl_mul_pow2, Z.shiftr_div_pow2 by lia.
  change (2 ^ 2) with 4. pose proof (Z.div_mod (sp - (Z.of_nat (length s) + 1)) 4). pose proof (Z.mod_pos_bound (sp - (Z.of_nat (length s) + 1)) 4). lia.
Qed.

(** The room the strings take, alignment included. *)
Definition room (argv : list (list Z)) : Z := foldr (fun s n => Z.of_nat (length s) + 4 + n) 0 argv.

Section stack.
Context {K : Type} {ops : KernelOps K} {eops : ExecOps K}.
Local Abbreviation KS := (kstate ptable K).
(** The user memory a page table maps. *)
Context (umem : K -> Z -> Z -> Z).

(** What the stack is built with: the two pages can be allocated, a [copyout] into
    the upper one, which ends at [hi], writes its bytes and no others, and freeing another
    page table leaves this memory alone. *)
Record image_memory (pg hi : Z) : Prop := {
  im_alloc n k : exists k', allocuvm pg n hi k = Ret hi k';
  im_clear va k : exists k', clearpteu pg va k = Ret () k';
  im_copy va bs k : hi - PGSIZE <= va -> va + Z.of_nat (length bs) <= hi ->
    exists k', copyout pg va bs k = Ret 0 k' /\ bytes_at (umem k' pg) va bs /\
      (forall a, ~ (va <= a < va + Z.of_nat (length bs)) -> umem k' pg a = umem k pg a);
  im_free pg' k : pg' <> pg -> exists k', freevm pg' k = Ret () k' /\ umem k' pg = umem k pg }.

Section build.
Context (pg hi : Z) (Hm : image_memory pg hi) (Hhi : hi < 2 ^ 32) (Hlo : PGSIZE <= hi).

Lemma room_nonneg argv : 0 <= room argv.
Proof. unfold room. induction argv as [|a argv IH]; simpl; lia. Qed.

(** Each string is where its pointer says, above the stack pointer that is left. *)
Lemma push_args_run argv sp us (s : KS) :
  hi - PGSIZE + room argv <= sp <= hi -> Z.of_nat (length us + length argv) <= MAXARG ->
  exists sp' ptrs s', push_args pg argv sp us s = Ret (Some (sp', us ++ ptrs)) s' /\
    pt s' = pt s /\ kl s' = kl s /\ sp - room argv <= sp' <= sp /\ length ptrs = length argv /\
    (forall a, sp <= a -> umem (kern s') pg a = umem (kern s) pg a) /\
    (forall i a, argv !! i = Some a -> exists q, ptrs !! i = Some q /\ sp' <= q /\ q + Z.of_nat (length a) + 1 <= sp /\
      bytes_at (umem (kern s') pg) q (a ++ [0])).
Proof.
  revert sp us s. induction argv as [|a argv IH]; intros sp us s Hsp Hn.
  { exists sp, [], s. rewrite app_nil_r. by split_and!; try (unfold room; simpl; lia). }
  pose proof (room_nonneg argv). change (room (a :: argv)) with (Z.of_nat (length a) + 4 + room argv) in *.
  cbn [push_args length] in *. replace (_ <=? _) with false by lia.
  destruct (push_addr_bounds sp a) as [B1 B2]; [lia|].
  destruct (im_copy _ _ Hm (push_addr sp a) (a ++ [0]) (kern s)) as (k & Ek & Hb & Hk); rewrite ?length_app in *; simpl; try lia.
  destruct (IH (push_addr sp a) (us ++ [push_addr sp a]) (with_kern k s)) as (sp' & ptrs & s' & E & Hpt & Hkl & B3 & Hl & Hs & Hq);
    [lia|rewrite length_app; simpl; lia|].
  exists sp', (push_addr sp a :: ptrs), s'. split.
  - cbv zeta. rewrite (bind_ret _ _ _ 0 (with_kern k s)) by (unfold kcall, lift; by rewrite Ek).
    simpl. rewrite E. by rewrite <- app_assoc.
  - split_and!; try done; try lia; [simpl; lia| |].
    + intros x Hx. rewrite Hs by lia. apply Hk. simpl. lia.
    + intros [|i] b; cbn [lookup list_lookup].
      * intros [= <-]. exists (push_addr sp a). split_and!; try done; try lia.
        eapply bytes_at_keep; [|exact Hb]. intros x Hx. apply Hs. lia.
      * intros Hi. destruct (Hq i b Hi) as (q & ? & ? & ? & ?). exists q. split_and!; try done; lia.
Qed.

(** The frame below the strings. *)
Lemma frame_at um sp ptrs : let argc := Z.of_nat (length ptrs) in let esp := sp - (argc + 4) * 4 in
  0 <= esp -> sp < 2 ^ 32 -> bytes_at um esp (concat (word_bytes <$> user_stack sp ptrs)) ->
  words_at um esp [0xffffffff; argc; esp + 12] /\ words_at um (esp + 12) (ptrs ++ [0]).
Proof.
  intros argc esp H0 H1 Hb. unfold user_stack in Hb. fold argc in Hb. cbv zeta in Hb. rewrite fmap_app, concat_app in Hb.
  replace (u32 (sp - (argc + 1) * 4)) with (esp + 12) in Hb by (rewrite u32_small; unfold esp, argc in *; lia).
  apply bytes_at_app in Hb. rewrite length_words in Hb. exact Hb.
Qed.
End build.

End stack.

(** ** One flat user memory *)

Definition flat_copy (va : Z) (bs : list Z) (k : Z -> Z) : Z -> Z :=
  fun a => if (va <=? a) && (a <? va + Z.of_nat (length bs)) then bs !!! Z.to_nat (a - va) else k a.
Definition flat_ops : KernelOps (Z -> Z) := {|
  kalloc k := Ret 0 k; kfree _ k := Ret () k; setupkvm k := Ret 9 k; inituvm _ k := Ret () k;
  copyuvm _ _ k := Ret 0 k; freevm _ k := Ret () k; allocuvm _ _ n k := Ret n k; deallocuvm _ _ n k := Ret n k;
  copyout _ va bs k := Ret 0 (flat_copy va bs k); clearpteu _ _ k := Ret () k; ustore _ _ k := Ret () k;
  filedup f k := Ret f k; fileclose _ k := Ret () k; idup i k := Ret i k; iput _ k := Ret () k;
  begin_op k := Ret () k; end_op k := Ret () k; namei_root k := Ret 1 k; fs_init k := Ret () k |}.
Definition flat_exec : ExecOps (Z -> Z) := {|
  namei _ k := Ret 1 k; ilock _ k := Ret () k; iunlockput _ k := Ret () k; access _ k := Ret 7 k;
  readi _ _ _ k := Ret (0, []) k; loaduvm _ _ _ _ _ k := Ret 0 k |}.

Lemma flat_image_memory pg hi : @image_memory _ flat_ops (fun k _ => k) pg hi.
Proof.
  split; cbn; intros; eauto. eexists. split; [done|]. unfold flat_copy. split.
  - intros j x Hj. pose proof (lookup_lt_Some _ _ _ Hj). replace (_ && _) with true by lia.
    replace (va + Z.of_nat j - va) with (Z.of_nat j) by lia. rewrite Nat2Z.id. by apply list_lookup_total_correct.
  - intros a Ha. by replace (_ && _) with false by lia.
Qed.

Definition demo_stack : kstate ptable (Z -> Z) := mkKstate (kl demo_in_thread) (pt demo_in_thread) (fun _ => 0) false.

