(* ===== verification/File.v ===== *)
(** * Open files

    file.c and the allocation and closing of pipes (pipe.c): the table of open
    files over the file system, the pipes and the page allocator, in the state of
    the process that makes the call.  A pointer to an open file is its index in
    [ftable]; a pipe is known by the address of its page.  [ftable.lock] is taken
    and released in pairs around the bookkeeping of each routine.  A call that
    goes to sleep is [Blocked].  Reads return the bytes they store at the
    caller's buffer and writes are given the bytes of the buffer. *)

From stdpp Require Import gmap.
From S2P Require Import Prelude CString Spinlock Kalloc Block Bio Log Users Fs Pipe Syscall.
Open Scope Z_scope.

Inductive fdtype := FD_NONE | FD_PIPE | FD_INODE.
#[export] Instance fdtype_eq_dec : EqDecision fdtype.
Proof. solve_decision. Defined.

(** file.h *)
Record file := mkFile {
  ftype : fdtype; fref : Z; readable : Z; writable : Z; fpipe : Z; fip : nat; foff : Z }.
#[export] Instance file_inhabited : Inhabited file := populate (mkFile FD_NONE 0 0 0 0 0 0).

Definition set_fref (v : Z) (f : file) : file :=
  mkFile (ftype f) v (readable f) (writable f) (fpipe f) (fip f) (foff f).
Definition set_foff (v : Z) (f : file) : file :=
  mkFile (ftype f) (fref f) (readable f) (writable f) (fpipe f) (fip f) v.

Definition NFILE : nat := 100.
Definition NOFILE : nat := 16.

(** The calling process: what the file system calls use of it. *)
Record sproc := mkSproc { s_pid : Z; s_killed : Z; s_cwd : nat; s_ofile : list (option nat); s_up : uproc }.

Record sst (S : Type) := mkSst { fsys : fs S; ftab : list file; pipes : gmap Z pipe; km : kmem; me : sproc }.
Arguments mkSst {S}. Arguments fsys {S}. Arguments ftab {S}. Arguments pipes {S}. Arguments km {S}. Arguments me {S}.

Section file.
Context {S : Type} `{!BlockCache S} (devsw : Z -> dev_ops (S := S)) (KMEM END : Z).
Local Abbreviation T := (sst S).

Definition set_fsys (v : fs S) (s : T) : T := mkSst v (ftab s) (pipes s) (km s) (me s).
Definition set_ftab (v : list file) (s : T) : T := mkSst (fsys s) v (pipes s) (km s) (me s).
Definition set_pipes (v : gmap Z pipe) (s : T) : T := mkSst (fsys s) (ftab s) v (km s) (me s).
Definition set_km (v : kmem) (s : T) : T := mkSst (fsys s) (ftab s) (pipes s) v (me s).
Definition set_me (v : sproc) (s : T) : T := mkSst (fsys s) (ftab s) (pipes s) (km s) v.

(** Calls into fs.c, log.c and kalloc.c. *)
Definition fsc {A} (c : M (fs S) A) : M T A := lift fsys set_fsys c.
Definition kmc {A} (c : M kmem A) : M T A := lift km set_km c.
Definition opened (s : T) (f : nat) : file := ftab s !!! f.
Definition updf (f : nat) (g : file -> file) (s : T) : T := set_ftab (alter g f (ftab s)) s.
Definition pid : M T Z := gets (fun s => s_pid (me s)).
Definition begin_op : M T () := fsc (fl Log.begin_op).
Definition end_op : M T () := fsc (fl Log.end_op).

Definition filealloc : M T (option nat) :=
  let* s := get in
  match list_find (fun f => fref f = 0) (ftab s) with
  | Some (f, _) => modify (updf f (set_fref 1)) ;;; ret (Some f)
  | None => ret None
  end.

Definition filedup (f : nat) : M T nat :=
  let* s := get in
  if fref (opened s f) <? 1 then panic "filedup"
  else modify (updf f (fun x => set_fref (fref x + 1) x)) ;;; ret f.

(** A section of [pipeclose] on the pipe at [a]. *)
Definition pipe_at (s : T) (a : Z) : pipe := default (new_pipe []) (pipes s !! a).

Definition pipe_close (a : Z) (wr : bool) : M T () :=
  let* s := get in
  let '(p, _, freed) := pipeclose wr (pipe_at s a) in
  if (freed : bool) then
    put (set_pipes (delete a (pipes s)) s) ;;;
    kmc (kfree KMEM END a)
  else put (set_pipes (<[a := p]> (pipes s)) s).

Definition fileclose (f : nat) : M T () :=
  let* s := get in
  if fref (opened s f) <? 1 then panic "fileclose"
  else
    modify (updf f (fun x => set_fref (fref x - 1) x)) ;;;
    let* s := get in
    if 0 <? fref (opened s f) then ret ()
    else
      let ff := opened s f in
      modify (updf f (fun x => mkFile FD_NONE 0 (readable x) (writable x) (fpipe x) (fip x) (foff x))) ;;;
      match ftype ff with
      | FD_PIPE => pipe_close (fpipe ff) (nz (writable ff))
      | FD_INODE =>
          begin_op ;;;
          let* p := pid in
          fsc (iput p (fip ff)) ;;;
          end_op
      | FD_NONE => ret ()
      end.

(** [pipealloc]: the two ends, or [None] for -1. *)
Definition pipealloc : M T (option (nat * nat)) :=
  let bad p f0 f1 :=
    when (nz p) (kmc (kfree KMEM END p)) ;;;
    match f0 with Some f => fileclose f | None => ret () end ;;;
    match f1 with Some f => fileclose f | None => ret () end ;;;
    ret None in
  let* f0 := filealloc in
  match f0 with
  | None => bad 0 None None
  | Some r =>
      let* f1 := filealloc in
      match f1 with
      | None => bad 0 (Some r) None
      | Some w =>
          let* p := kmc (kalloc KMEM) in
          if p =? 0 then bad 0 (Some r) (Some w)
          else
            modify (fun s => set_pipes (<[p := new_pipe (CString.read (ram (km s)) (p + 52) (Z.to_nat PIPESIZE))]> (pipes s)) s) ;;;
            modify (updf r (fun x => mkFile FD_PIPE (fref x) 1 0 p (fip x) (foff x))) ;;;
            modify (updf w (fun x => mkFile FD_PIPE (fref x) 0 1 p (fip x) (foff x))) ;;;
            ret (Some (r, w))
      end
  end.

(** [stati]: the fields of [struct stat] at [st], 40 bytes with two holes. *)
Definition stati (i : inode) (st : Z) (m : mem) : mem :=
  let m := stw m (st + 4) (idev i) in
  let m := stw m (st + 8) (inum i) in
  let m := write m st (half_bytes (itype i)) in
  let m := write m (st + 12) (half_bytes (inlink i)) in
  let m := stw m (st + 16) (isize i) in
  let m := stw m (st + 20) (iperm i) in
  write m (st + 24) (strncpy_l 16 (CString.read m (st + 24) 16) (iowner i)).

Definition filestat (f : nat) (st : Z) : M T Z :=
  let* s := get in
  let ff := opened s f in
  if bool_decide (ftype ff = FD_INODE) then
    let* p := pid in
    fsc (ilock p (fip ff)) ;;;
    fsc (modify (fun x => set_users (stati (I x (fip ff)) st (users x)) x)) ;;;
    fsc (iunlock p (fip ff)) ;;;
    ret 0
  else ret (-1).

Definition fileread (f : nat) (n : Z) : M T (Z * list Z) :=
  let* s := get in
  let ff := opened s f in
  if readable ff =? 0 then ret (-1, [])
  else
    match ftype ff with
    | FD_PIPE =>
        let '(p, bs, _, e) := piperead (nz (s_killed (me s))) n (pipe_at s (fpipe ff)) in
        put (set_pipes (<[fpipe ff := p]> (pipes s)) s) ;;;
        match e with Returns r => ret (r, bs) | Sleeps _ => sleeps end
    | FD_INODE =>
        let* p := pid in
        fsc (ilock p (fip ff)) ;;;
        let* r := fsc (readi devsw (fip ff) (foff ff) (u32 n)) in
        when (0 <? r.1) (modify (updf f (fun x => set_foff (u32 (foff x + r.1)) x))) ;;;
        fsc (iunlock p (fip ff)) ;;;
        ret r
    | FD_NONE => panic "fileread"
    end.

(** [((MAXOPBLOCKS-1-1-2) / 2) * 512] *)
Definition WRITE_MAX : Z := (10 - 1 - 1 - 2) / 2 * 512.

(** The loop of [filewrite]: [i] bytes are written, [src] is what is left.  Each
    turn but the last writes [WRITE_MAX] bytes. *)
Fixpoint filewrite_loop (fuel : nat) (f : nat) (src : list Z) (i n : Z) : M T Z :=
  match fuel with
  | O => ret i
  | Datatypes.S fuel =>
      if i <? n then
        let n1 := if WRITE_MAX <? n - i then WRITE_MAX else n - i in
        begin_op ;;;
        let* p := pid in
        let* s := get in
        let ip := fip (opened s f) in
        fsc (ilock p ip) ;;;
        let* r := fsc (writei devsw ip src (foff (opened s f)) n1) in
        when (0 <? r) (modify (updf f (fun x => set_foff (u32 (foff x + r)) x))) ;;;
        fsc (iunlock p ip) ;;;
        end_op ;;;
        if r <? 0 then ret i
        else if negb (r =? n1) then panic "short filewrite"
        else filewrite_loop fuel f (drop (Z.to_nat r) src) (i + r) n
      else ret i
  end.

Definition filewrite (f : nat) (src : list Z) (n : Z) : M T Z :=
  let* s := get in
  let ff := opened s f in
  if writable ff =? 0 then ret (-1)
  else
    match ftype ff with
    | FD_PIPE =>
        let '(p, _, e) := pipewrite (nz (s_killed (me s))) n src (pipe_at s (fpipe ff)) in
        put (set_pipes (<[fpipe ff := p]> (pipes s)) s) ;;;
        match e with Returns r => ret r | Sleeps _ => sleeps end
    | FD_INODE =>
        let* i := filewrite_loop (Z.to_nat (n / WRITE_MAX + 2)) f src 0 n in
        ret (if i =? n then n else -1)
    | FD_NONE => panic "filewrite"
    end.
End file.
