(* ===== verification/Sysfile.v ===== *)
(** * The file system calls

    sysfile.c: the handlers of the system calls on files, directories and user
    accounts, over the open files.  What the handlers print is left out.  The
    locals whose address is taken (names, [struct stat], buffers) live at given
    addresses of the kernel stack, next to the account table and the string
    literal "root", in the memory [users] that also holds the process's memory. *)

From stdpp Require Import gmap.
From S2P Require Import Prelude CString Spinlock Kalloc Block Bio Log Users Fs Pipe Syscall File.
Open Scope Z_scope.

(** fcntl.h *)
Definition O_RDONLY : Z := 0.
Definition O_WRONLY : Z := 1.
Definition O_RDWR : Z := 2.
Definition O_CREATE : Z := 0x200.

(** Where the account table, "root" and the locals are. *)
Record layout := mkLayout {
  l_ltable : Z; (* ltable *)
  l_root : Z; l_zeros : Z; (* the literals "root" and "0000" *)
  l_username : Z; (* username of checkmod *)
  l_owner : Z; (* st.owner *)
  l_buf : Z; (* buf of loadUsers and flushUsers *)
  l_curuser : Z; (* curUser of sys_chmod, dst of sys_whoami *)
  l_iowner : Z; (* ip->owner while create fills it in *)
  l_ftable : Z (* ftable.file *) }.

Section sysfile.
Context {S : Type} `{!BlockCache S} (devsw : Z -> dev_ops (S := S)) (KMEM END : Z) (L : layout).
Local Abbreviation T := (sst S).
Local Abbreviation fileclose := (fileclose KMEM END).
Local Abbreviation begin_op := (@File.begin_op S).
Local Abbreviation end_op := (@File.end_op S _).

Definition umem (s : T) : mem := users (fsys s).
Definition set_umem (m : mem) (s : T) : T := set_fsys (set_users m (fsys s)) s.
Definition the_caller : M T caller :=
  gets (fun s => mkCaller (s_pid (me s)) (s_cwd (me s)) (l_ltable L) (l_root L) (l_username L) (l_owner L)).
Definition inode_at (ip : nat) : M T inode := gets (fun s => I (fsys s) ip).
Definition set_inode (ip : nat) (g : inode -> inode) : M T () := fsc (modify (updi ip g)).
Definition set_ofile (fd : nat) (v : option nat) : M T () :=
  modify (fun s => set_me (mkSproc (s_pid (me s)) (s_killed (me s)) (s_cwd (me s)) (<[fd := v]> (s_ofile (me s))) (s_up (me s))) s).
Definition set_cwd (ip : nat) : M T () :=
  modify (fun s => set_me (mkSproc (s_pid (me s)) (s_killed (me s)) ip (s_ofile (me s)) (s_up (me s))) s).

(** The arguments (syscall.c) in the caller's memory. *)
Definition arg_int (n : Z) : M T (option Z) := gets (fun s => argint (umem s) (s_up (me s)) n).
Definition arg_ptr (n size : Z) : M T (option Z) := gets (fun s => argptr (umem s) (s_up (me s)) n size).
Definition arg_str (n : Z) : M T (option (Z * list Z)) := gets (fun s => argstr (umem s) (s_up (me s)) n).

(** ** Descriptors *)

Definition getfilebyfd (fd : Z) : M T (option nat) :=
  gets (fun s => if (fd <? 0) || (Z.of_nat NOFILE <=? fd) then None else s_ofile (me s) !!! Z.to_nat fd).

Definition argfd (n : Z) : M T (option (Z * nat)) :=
  let* a := arg_int n in
  match a with
  | None => ret None
  | Some fd =>
      let* f := getfilebyfd fd in
      ret (match f with Some f => Some (fd, f) | None => None end)
  end.

Definition fdalloc (f : nat) : M T Z :=
  let* s := get in
  match list_find (fun o => o = None) (s_ofile (me s)) with
  | Some (fd, _) => set_ofile fd (Some f) ;;; ret (Z.of_nat fd)
  | None => ret (-1)
  end.

Definition sys_dup : M T Z :=
  let* a := argfd 0 in
  match a with
  | None => ret (-1)
  | Some (_, f) =>
      let* fd := fdalloc f in
      if fd <? 0 then ret (-1) else filedup f ;;; ret fd
  end.

Definition sys_read : M T Z :=
  let* a := argfd 0 in
  let* n := arg_int 2 in
  match a, n with
  | Some (_, f), Some n =>
      let* p := arg_ptr 1 n in
      match p with
      | None => ret (-1)
      | Some p =>
          let* r := fileread devsw f n in
          modify (fun s => set_umem (write (umem s) p r.2) s) ;;;
          ret r.1
      end
  | _, _ => ret (-1)
  end.

Definition sys_write : M T Z :=
  let* a := argfd 0 in
  let* n := arg_int 2 in
  match a, n with
  | Some (_, f), Some n =>
      let* p := arg_ptr 1 n in
      match p with
      | None => ret (-1)
      | Some p =>
          let* s := get in
          filewrite devsw f (CString.read (umem s) p (Z.to_nat n)) n
      end
  | _, _ => ret (-1)
  end.

Definition sys_close : M T Z :=
  let* a := argfd 0 in
  match a with
  | None => ret (-1)
  | Some (fd, f) =>
      set_ofile (Z.to_nat fd) None ;;;
      fileclose f ;;;
      ret 0
  end.

Definition sys_fstat : M T Z :=
  let* a := argfd 0 in
  let* p := arg_ptr 1 40 in
  match a, p with
  | Some (_, f), Some st => filestat f st
  | _, _ => ret (-1)
  end.

(** ** Links and directories *)

Definition pidof : M T Z := pid.
Definition ilock_s (ip : nat) : M T () := let* p := pidof in fsc (ilock p ip).
Definition iunlock_s (ip : nat) : M T () := let* p := pidof in fsc (iunlock p ip).
Definition iput_s (ip : nat) : M T () := let* p := pidof in fsc (iput p ip).
Definition iunlockput_s (ip : nat) : M T () := let* p := pidof in fsc (iunlockput p ip).
Definition iupdate_s (ip : nat) : M T () := fsc (iupdate ip).
Definition dirlink_s (dp : nat) (name : list Z) (n : Z) : M T Z := let* p := pidof in fsc (dirlink devsw p dp name n).
Definition namei_s (path : list Z) : M T (option nat) := let* c := the_caller in fsc (namei devsw c path).
(** The parent directory and the last element, in an array of DIRSIZ bytes. *)
Definition nameiparent_s (path : list Z) : M T (option nat * list Z) :=
  let* c := the_caller in fsc (nameiparent devsw c path (replicate DIRSIZ 0)).
(** [stati] into a local, then [checkmod]. *)
Definition checkmod_s (ip : nat) : M T Z := let* c := the_caller in fsc (check_inode c ip).

Definition sys_link : M T Z :=
  let* old := arg_str 0 in
  let* new := arg_str 1 in
  match old, new with
  | Some (_, old), Some (_, new) =>
      begin_op ;;;
      let* o := namei_s old in
      match o with
      | None => end_op ;;; ret (-1)
      | Some ip =>
          ilock_s ip ;;;
          let* i := inode_at ip in
          if itype i =? T_DIR then iunlockput_s ip ;;; end_op ;;; ret (-1)
          else
            set_inode ip (fun i => set_inlink (s16 (inlink i + 1)) i) ;;;
            iupdate_s ip ;;;
            iunlock_s ip ;;;
            let bad :=
              ilock_s ip ;;;
              set_inode ip (fun i => set_inlink (s16 (inlink i - 1)) i) ;;;
              iupdate_s ip ;;;
              iunlockput_s ip ;;;
              end_op ;;;
              ret (-1) in
            let* r := nameiparent_s new in
            match r with
            | (None, _) => bad
            | (Some dp, name) =>
                ilock_s dp ;;;
                let* d := inode_at dp in
                let* i := inode_at ip in
                let* k := (if negb (idev d =? idev i) then ret (-1) else dirlink_s dp name (inum i)) in
                if k <? 0 then iunlockput_s dp ;;; bad
                else
                  iunlockput_s dp ;;;
                  iput_s ip ;;;
                  end_op ;;;
                  ret 0
            end
      end
  | _, _ => ret (-1)
  end.

(** One turn per entry from the third on, and one to find the end. *)
Fixpoint isdirempty_loop (fuel : nat) (dp : nat) (off : Z) : M T bool :=
  match fuel with
  | O => panic "isdirempty: fuel"
  | Datatypes.S fuel =>
      let* d := inode_at dp in
      if off <? isize d then
        let* r := fsc (readi devsw dp off DIRENT_SIZE) in
        if negb (r.1 =? DIRENT_SIZE) then panic "isdirempty: readi"
        else if nz (de_inum r.2) then ret false
        else isdirempty_loop fuel dp (off + DIRENT_SIZE)
      else ret true
  end.
Definition isdirempty (dp : nat) : M T bool :=
  let* d := inode_at dp in isdirempty_loop (entries (isize d)) dp (2 * DIRENT_SIZE).

Definition DOT : list Z := [46].
Definition DOTDOT : list Z := [46; 46].

Definition sys_unlink : M T Z :=
  let* a := arg_str 0 in
  match a with
  | None => ret (-1)
  | Some (_, path) =>
      begin_op ;;;
      let* r := nameiparent_s path in
      match r with
      | (None, _) => end_op ;;; ret (-1)
      | (Some dp, name) =>
          ilock_s dp ;;;
          let* c := checkmod_s dp in
          if negb (nz (Z.land c W_OK)) then iunlock_s dp ;;; end_op ;;; ret (-1)
          else
            let bad := iunlockput_s dp ;;; end_op ;;; ret (-1) in
            if (namecmp name DOT =? 0) || (namecmp name DOTDOT =? 0) then bad
            else
              let* o := fsc (dirlookup devsw dp name) in
              match o with
              | None => bad
              | Some (ip, off) =>
                  ilock_s ip ;;;
                  let* i := inode_at ip in
                  if inlink i <? 1 then panic "unlink: nlink < 1"
                  else
                    let* full := (if itype i =? T_DIR then let* e := isdirempty ip in ret (negb e) else ret false) in
                    if (full : bool) then iunlockput_s ip ;;; bad
                    else
                      let* w := fsc (writei devsw dp (replicate (Z.to_nat DIRENT_SIZE) 0) off DIRENT_SIZE) in
                      if negb (w =? DIRENT_SIZE) then panic "unlink: writei"
                      else
                        when (itype i =? T_DIR) (
                          set_inode dp (fun d => set_inlink (s16 (inlink d - 1)) d) ;;;
                          iupdate_s dp) ;;;
                        iunlockput_s dp ;;;
                        set_inode ip (fun i => set_inlink (s16 (inlink i - 1)) i) ;;;
                        iupdate_s ip ;;;
                        iunlockput_s ip ;;;
                        end_op ;;;
                        ret 0
              end
      end
  end.
(** ** Creating and opening files *)

Definition set_imajor (v : Z) (i : inode) : inode :=
  mkInode (idev i) (inum i) (iref i) (ilk i) (ivalid i) (itype i) v (iminor i) (inlink i) (isize i) (iperm i) (iowner i) (iaddrs i).
Definition set_iminor (v : Z) (i : inode) : inode :=
  mkInode (idev i) (inum i) (iref i) (ilk i) (ivalid i) (itype i) (imajor i) v (inlink i) (isize i) (iperm i) (iowner i) (iaddrs i).
Definition set_iperm (v : Z) (i : inode) : inode :=
  mkInode (idev i) (inum i) (iref i) (ilk i) (ivalid i) (itype i) (imajor i) (iminor i) (inlink i) (isize i) v (iowner i) (iaddrs i).
Definition set_iowner (v : list Z) (i : inode) : inode :=
  mkInode (idev i) (inum i) (iref i) (ilk i) (ivalid i) (itype i) (imajor i) (iminor i) (inlink i) (isize i) (iperm i) v (iaddrs i).

Definition user_count (s : T) : Z := lt_userCnt (l_ltable L) (umem s).
Definition DIR_PERM : Z := Z.lor (Z.lor (Z.lor (Z.lor MODE_RUSR MODE_WUSR) MODE_XUSR) MODE_ROTH) MODE_XOTH.
Definition FILE_PERM : Z := Z.lor (Z.lor MODE_RUSR MODE_WUSR) MODE_ROTH.

(** [whoami((char* )dst)]. *)
Definition whoami_s (dst : Z) : M T () :=
  let* s := get in
  match whoami (l_ltable L) (l_root L) (umem s) dst with
  | Some m => put (set_umem m s)
  | None => panic "whoami: unterminated name"
  end.
(** [whoami((char* )ip->owner)]: the array is at [l_iowner] for the call. *)
Definition whoami_owner (ip : nat) : M T () :=
  modify (fun s => set_umem (write (umem s) (l_iowner L) (take 16 (iowner (I (fsys s) ip)))) s) ;;;
  whoami_s (l_iowner L) ;;;
  let* s := get in
  set_inode ip (set_iowner (CString.read (umem s) (l_iowner L) 16)).

Definition create_new (dp : nat) (name : list Z) (type major minor : Z) : M T nat :=
  let* d := inode_at dp in
  let* ip := fsc (ialloc (idev d) type) in
  ilock_s ip ;;;
  set_inode ip (fun i => set_inlink 1 (set_iminor minor (set_imajor major i))) ;;;
  let* i := inode_at ip in
  when (itype i =? T_DIR) (set_inode ip (set_iperm DIR_PERM)) ;;;
  when (negb (itype i =? T_DIR) && (itype i =? T_FILE)) (set_inode ip (set_iperm FILE_PERM)) ;;;
  let* s := get in
  (if user_count s =? 0 then set_inode ip (fun i => set_iowner (patch (iowner i) 0 (ROOT ++ [0])) i)
   else whoami_owner ip) ;;;
  iupdate_s ip ;;;
  when (type =? T_DIR) (
    set_inode dp (fun d => set_inlink (s16 (inlink d + 1)) d) ;;;
    iupdate_s dp ;;;
    let* i := inode_at ip in
    let* a := dirlink_s ip DOT (inum i) in
    if a <? 0 then panic "create dots"
    else
      let* d := inode_at dp in
      let* b := dirlink_s ip DOTDOT (inum d) in
      if b <? 0 then panic "create dots" else ret ()) ;;;
  let* i := inode_at ip in
  let* c := dirlink_s dp name (inum i) in
  if c <? 0 then panic "create: dirlink"
  else iunlockput_s dp ;;; ret ip.

Definition create (path : list Z) (type major minor : Z) : M T (option nat) :=
  let* r := nameiparent_s path in
  match r with
  | (None, _) => ret None
  | (Some dp, name) =>
      ilock_s dp ;;;
      let* o := fsc (dirlookup devsw dp name) in
      match o with
      | Some (ip, _) =>
          iunlockput_s dp ;;;
          ilock_s ip ;;;
          let* i := inode_at ip in
          if (type =? T_FILE) && (itype i =? T_FILE) then
            let* s := get in
            if 0 <? user_count s then
              let* c := checkmod_s ip in
              if negb (nz (Z.land c W_OK)) then iunlock_s ip ;;; ret None else ret (Some ip)
            else ret (Some ip)
          else iunlockput_s ip ;;; ret None
      | None =>
          let* c := checkmod_s dp in
          if negb (nz (Z.land c W_OK)) then iunlock_s dp ;;; ret None
          else let* ip := create_new dp name type major minor in ret (Some ip)
      end
  end.

(** The inode [open] finds, locked; [None] is the return of -1. *)
Definition open_inode (path : list Z) (omode : Z) : M T (option nat) :=
  if nz (Z.land omode O_CREATE) then create path T_FILE 0 0
  else
    let* o := namei_s path in
    match o with
    | None => ret None
    | Some ip =>
        ilock_s ip ;;;
        let* i := inode_at ip in
        if (itype i =? T_DIR) && negb (omode =? O_RDONLY) then iunlockput_s ip ;;; ret None
        else ret (Some ip)
    end.

(** [(omode == O_RDONLY) | (omode & O_RDWR)] and [(omode & O_WRONLY) | (omode & O_RDWR)]. *)
Definition wants_read (omode : Z) : bool := nz (Z.lor (Z.b2z (omode =? O_RDONLY)) (Z.land omode O_RDWR)).
Definition wants_write (omode : Z) : bool := nz (Z.lor (Z.land omode O_WRONLY) (Z.land omode O_RDWR)).

Definition open (path : list Z) (omode : Z) : M T Z :=
  begin_op ;;;
  let* o := open_inode path omode in
  match o with
  | None => end_op ;;; ret (-1)
  | Some ip =>
      let* check := checkmod_s ip in
      if wants_read omode && negb (nz (Z.land check R_OK)) then iunlock_s ip ;;; end_op ;;; ret (-1)
      else if wants_write omode && negb (nz (Z.land check W_OK)) then iunlock_s ip ;;; end_op ;;; ret (-1)
      else
        let* fo := filealloc in
        match fo with
        | None => iunlockput_s ip ;;; end_op ;;; ret (-1)
        | Some f =>
            let* fd := fdalloc f in
            if fd <? 0 then fileclose f ;;; iunlockput_s ip ;;; end_op ;;; ret (-1)
            else
              iunlock_s ip ;;;
              end_op ;;;
              modify (updf f (fun x =>
                mkFile FD_INODE (fref x) (Z.b2z (negb (nz (Z.land omode O_WRONLY))))
                  (Z.b2z (nz (Z.land omode O_WRONLY) || nz (Z.land omode O_RDWR))) (fpipe x) ip 0)) ;;;
              ret fd
        end
  end.

Definition sys_open : M T Z :=
  let* path := arg_str 0 in
  let* omode := arg_int 1 in
  match path, omode with
  | Some (_, path), Some omode => open path omode
  | _, _ => ret (-1)
  end.

Definition mkdir (path : list Z) : M T Z :=
  begin_op ;;;
  let* o := create path T_DIR 0 0 in
  match o with
  | None => end_op ;;; ret (-1)
  | Some ip => iunlockput_s ip ;;; end_op ;;; ret 0
  end.

Definition sys_mkdir : M T Z :=
  let* path := arg_str 0 in
  match path with Some (_, path) => mkdir path | None => ret (-1) end.

Definition sys_mknod : M T Z :=
  begin_op ;;;
  let* path := arg_str 0 in
  let* major := arg_int 1 in
  let* minor := arg_int 2 in
  match path, major, minor with
  | Some (_, path), Some major, Some minor =>
      let* o := create path T_DEV (s16 major) (s16 minor) in
      match o with
      | None => end_op ;;; ret (-1)
      | Some ip => iunlockput_s ip ;;; end_op ;;; ret 0
      end
  | _, _, _ => end_op ;;; ret (-1)
  end.

Definition sys_chdir : M T Z :=
  begin_op ;;;
  let* path := arg_str 0 in
  let* o := match path with Some (_, path) => namei_s path | None => ret None end in
  match o with
  | None => end_op ;;; ret (-1)
  | Some ip =>
      ilock_s ip ;;;
      let* i := inode_at ip in
      if negb (itype i =? T_DIR) then iunlockput_s ip ;;; end_op ;;; ret (-1)
      else
        let* c := checkmod_s ip in
        if negb (nz (Z.land c X_OK)) then iunlock_s ip ;;; end_op ;;; ret (-1)
        else
          iunlock_s ip ;;;
          let* s := get in
          iput_s (s_cwd (me s)) ;;;
          end_op ;;;
          set_cwd ip ;;;
          ret 0
  end.

Definition sys_pipe : M T Z :=
  let* a := arg_ptr 0 8 in
  match a with
  | None => ret (-1)
  | Some fd =>
      let* p := pipealloc KMEM END in
      match p with
      | None => ret (-1)
      | Some (rf, wf) =>
          let* fd0 := fdalloc rf in
          if fd0 <? 0 then fileclose rf ;;; fileclose wf ;;; ret (-1)
          else
            let* fd1 := fdalloc wf in
            if fd1 <? 0 then set_ofile (Z.to_nat fd0) None ;;; fileclose rf ;;; fileclose wf ;;; ret (-1)
            else
              modify (fun s => set_umem (stw (stw (umem s) fd fd0) (fd + 4) fd1) s) ;;;
              ret 0
      end
  end.

(** ** User accounts *)

Definition set_lt (off v : Z) : M T () := modify (fun s => set_umem (stw (umem s) (l_ltable L + off) v) s).
Definition lt_get (off : Z) : M T Z := gets (fun s => s32 (ldw (umem s) (l_ltable L + off))).
(** ltable.fd and ltable.f *)
Definition set_lt_fd (fd : Z) : M T () := set_lt 0 fd.
Definition set_lt_f (f : option nat) : M T () :=
  set_lt 12 (match f with Some f => l_ftable L + 24 * Z.of_nat f | None => 0 end).

(** A routine on the account table, in the memory that holds it. *)
Definition on_users {A} (what : string) (c : mem -> option (A * mem)) : M T A :=
  let* s := get in
  match c (umem s) with
  | Some (a, m) => put (set_umem m s) ;;; ret a
  | None => panic what
  end.
(** The string at an address. *)
Definition string_at (a : Z) : M T (list Z) :=
  let* s := get in
  match strlen (umem s) a with
  | Some n => ret (CString.read (umem s) a (Z.to_nat n))
  | None => panic "unterminated string"
  end.

(** "/passwd" *)
Definition PASSWD : list Z := [47; 112; 97; 115; 115; 119; 100].

Definition loadUsers : M T () :=
  modify (fun s => set_umem (write (umem s) (l_buf L) (replicate (Z.to_nat PASSWD_BUF) 0)) s) ;;;
  let* fd := open PASSWD (Z.lor O_RDONLY O_CREATE) in
  set_lt_fd fd ;;;
  if fd <? 0 then panic "loadUsers 1"
  else
    let* o := getfilebyfd fd in
    match o with
    | None => panic "loadUsers 2"
    | Some f =>
        set_lt_f (Some f) ;;;
        let* r := fileread devsw f PASSWD_BUF in
        modify (fun s => set_umem (write (umem s) (l_buf L) r.2) s) ;;;
        modify (fun s => set_umem (loadUsers_parse (l_ltable L) (umem s) (l_buf L) r.1) s) ;;;
        if r.1 <? 0 then panic "loadUsers 3"
        else
          set_ofile (Z.to_nat fd) None ;;;
          fileclose f ;;;
          set_lt_fd 0 ;;;
          set_lt_f None
    end.

(** The loop of [flushUsers] from account [i], [n] more to go. *)
Fixpoint flushUsers_writes (n : nat) (f : nat) (i : Z) : M T () :=
  match n with
  | O => ret ()
  | Datatypes.S n =>
      let* k := on_users "flushUsers: unterminated name" (fun m => flushUsers_line (l_ltable L) m (l_buf L) i) in
      let* s := get in
      let* _ := filewrite devsw f (CString.read (umem s) (l_buf L) (Z.to_nat k)) k in
      flushUsers_writes n f (i + 1)
  end.

Definition flushUsers : M T Z :=
  modify (fun s => set_umem (write (umem s) (l_buf L) (replicate 33 0)) s) ;;;
  let* fd := open PASSWD O_WRONLY in
  set_lt_fd fd ;;;
  if fd <? 0 then ret (-1)
  else
    let* o := getfilebyfd fd in
    match o with
    | None => ret (-1)
    | Some f =>
        set_lt_f (Some f) ;;;
        begin_op ;;;
        let* s := get in
        let ip := fip (opened s f) in
        ilock_s ip ;;;
        let* c := fsc (cleari ip) in
        if c <? 0 then ret (-1)
        else
          iunlock_s ip ;;;
          end_op ;;;
          modify (updf f (set_foff 0)) ;;;
          let* s := get in
          flushUsers_writes (Z.to_nat (user_count s)) f 0 ;;;
          set_ofile (Z.to_nat fd) None ;;;
          fileclose f ;;;
          set_lt_fd 0 ;;;
          set_lt_f None ;;;
          ret 0
    end.

Definition deleteUser (username : Z) : M T Z :=
  let* r := on_users "deleteUser: unterminated name" (fun m => deleteUser_table (l_ltable L) m username) in
  if r <? 0 then ret (-1)
  else
    let* r := flushUsers in
    ret (if r <? 0 then -1 else 0).

Definition addUser (username password : Z) : M T Z :=
  let* r := on_users "addUser: unterminated name" (fun m => addUser_table (l_ltable L) m username password) in
  if r <? 0 then ret (-1)
  else
    let* r := flushUsers in
    if r <? 0 then ret (-1)
    else
      let* s := get in
      when (1 <? user_count s) (let* name := string_at username in let* _ := mkdir name in ret ()) ;;;
      let* name := string_at username in
      let* o := namei_s name in
      match o with
      | None => ret (-1)
      | Some ip =>
          begin_op ;;;
          ilock_s ip ;;;
          let* name := string_at username in
          set_inode ip (fun i => set_iowner (patch (iowner i) 0 (name ++ [0])) i) ;;;
          iupdate_s ip ;;;
          iunlock_s ip ;;;
          end_op ;;;
          ret 0
      end.

Definition sys_lbegin : M T Z :=
  loadUsers ;;;
  let* s := get in
  when (user_count s =? 0) (let* _ := addUser (l_root L) (l_zeros L) in ret ()) ;;;
  modify (fun s => set_umem (set_userIdx (l_ltable L) (umem s) (-1)) s) ;;;
  ret 0.

Definition sys_addUser : M T Z :=
  let* username := arg_str 0 in
  let* password := arg_str 1 in
  match username, password with
  | Some (u, _), Some (p, _) =>
      let* s := get in
      if negb (only_root (l_ltable L) (umem s)) then ret (-1) else addUser u p
  | _, _ => ret (-1)
  end.

Definition sys_deleteUser : M T Z :=
  let* username := arg_str 0 in
  match username with
  | Some (u, _) =>
      let* s := get in
      if negb (only_root (l_ltable L) (umem s)) then ret (-1) else deleteUser u
  | None => ret (-1)
  end.

Definition sys_login : M T Z :=
  let* username := arg_str 0 in
  let* password := arg_str 1 in
  match username, password with
  | Some (u, _), Some (p, _) =>
      on_users "sys_login: unterminated name" (fun m => Users.sys_login (l_ltable L) m u p)
  | _, _ => ret (-1)
  end.

Definition sys_whoami : M T Z := whoami_s (l_curuser L) ;;; ret 0.

(** [equals] of two strings in memory. *)
Definition equals_s (a b : Z) : M T bool :=
  let* s := get in
  match equals (umem s) a b with Some r => ret (nz r) | None => panic "equals: unterminated string" end.

Definition sys_chmod : M T Z :=
  begin_op ;;;
  let* path := arg_str 0 in
  let* mode := arg_int 1 in
  let* o := match path, mode with Some (_, path), Some _ => namei_s path | _, _ => ret None end in
  match o, mode with
  | Some ip, Some mode =>
      ilock_s ip ;;;
      let* i := inode_at ip in
      modify (fun s => set_umem (write (umem s) (l_owner L) (strncpy_l 16 (replicate 16 0) (iowner i))) s) ;;;
      whoami_s (l_curuser L) ;;;
      if itype i =? T_DEV then iunlock_s ip ;;; end_op ;;; ret (-1)
      else
        let* r := equals_s (l_root L) (l_curuser L) in
        let* w := (if r then ret true else equals_s (l_owner L) (l_curuser L)) in
        if negb w then iunlock_s ip ;;; end_op ;;; ret (-1)
        else
          set_inode ip (set_iperm (u32 mode)) ;;;
          iupdate_s ip ;;;
          iunlock_s ip ;;;
          end_op ;;;
          ret 0
  | _, _ => end_op ;;; ret (-1)
  end.
End sysfile.
