(* ===== verification/FsFrame.v ===== *)
(** * What the file system leaves alone

    [safe P c Q]: started where [P] holds, [c] ends in a state where [Q] holds
    unless it goes to sleep, and it never stops with one of the panics of the
    open file table and the page allocator.  [preserves P c] is the case of an
    invariant.  The routines of log.c and fs.c work on the disk, the log and the
    inode cache: they preserve any property of the rest of memory (where the
    account table and the stacks are) that [checkmod] and the devices preserve. *)

From stdpp Require Import gmap.
From S2P Require Import Prelude CString Block Bio Log Users Fs.
Open Scope Z_scope.

Definition FILE_PANICS : list string :=
  ["filedup"; "fileclose"; "fileread"; "filewrite"; "kfree"]%string.

Definition safe {St A} (P : St -> Prop) (c : M St A) (Q : A -> St -> Prop) : Prop := forall s, P s ->
  match c s with Ret a s' => Q a s' | Panic msg => msg ∉ FILE_PANICS | Blocked _ => True end.
Definition preserves {St A} (P : St -> Prop) (c : M St A) : Prop := safe P c (fun _ => P).
(** Code that has nothing to preserve. *)
Abbreviation quiet := (preserves (fun _ => True)).

Section rules.
Context {St : Type}.
Implicit Types (P : St -> Prop).

Lemma safe_bind {A B} P (c : M St A) (k : A -> M St B) R Q :
  safe P c R -> (forall a, safe (R a) (k a) Q) -> safe P (bind c k) Q.
Proof. intros Hc Hk s Hs. specialize (Hc s Hs). unfold bind. destruct (c s); [by apply Hk|done..]. Qed.
Lemma safe_post {A} P (c : M St A) (Q Q' : A -> St -> Prop) : safe P c Q -> (forall a s, Q a s -> Q' a s) -> safe P c Q'.
Proof. intros Hc HQ s Hs. specialize (Hc s Hs). destruct (c s); auto. Qed.
Lemma safe_panic {A} P msg Q : msg ∉ FILE_PANICS -> safe P (panic msg : M St A) Q.
Proof. intros H s _. exact H. Qed.

Lemma preserves_bind {A B} P (c : M St A) (k : A -> M St B) :
  preserves P c -> (forall a, preserves P (k a)) -> preserves P (bind c k).
Proof. intros Hc Hk. by eapply safe_bind. Qed.
Lemma preserves_panic {A} P msg : msg ∉ FILE_PANICS -> preserves P (panic msg : M St A).
Proof. apply safe_panic. Qed.
Lemma preserves_for_each {A} P (l : list A) (body : A -> M St ()) :
  (forall x, preserves P (body x)) -> preserves P (for_each l body).
Proof. intros H. induction l; [by intros s|]. by apply preserves_bind. Qed.
Lemma preserves_ret {A} P (a : A) : preserves P (ret a).
Proof. by intros s. Qed.
Lemma preserves_get P : preserves P get.
Proof. by intros s. Qed.
Lemma preserves_gets {A} P (f : St -> A) : preserves P (gets f).
Proof. by intros s. Qed.
Lemma preserves_sleeps {A} P : preserves P (sleeps : M St A).
Proof. by intros s. Qed.
Lemma preserves_modify P (f : St -> St) : (forall s, P s -> P (f s)) -> preserves P (modify f).
Proof. intros H s. apply H. Qed.
Lemma quiet_put (s : St) : quiet (put s).
Proof. by intros s'. Qed.
Lemma quiet_modify (f : St -> St) : quiet (modify f).
Proof. by intros s. Qed.
End rules.

(** Code on a part of the state that [P] does not look at. *)
Lemma preserves_lift {St T A} (P : T -> Prop) (part : T -> St) (set_part : St -> T -> T) (c : M St A) :
  (forall s t, P t -> P (set_part s t)) -> quiet c -> preserves P (lift part set_part c).
Proof. intros H Hc t Ht. specialize (Hc (part t) Logic.I). unfold lift. destruct (c _); [by apply H|done..]. Qed.

Create HintDb preserve.
#[export] Hint Resolve preserves_ret preserves_get preserves_gets preserves_sleeps quiet_put quiet_modify : preserve.
#[export] Hint Extern 2 (preserves _ (lift _ _ _)) => apply preserves_lift; [done|] : preserve.

(** A literal message is compared with the list by computation. *)
Ltac not_a_file_panic := apply (bool_decide_unpack _); vm_compute; exact Logic.I.

(** Follow the structure of a routine down to calls that are in the database. *)
Ltac preserve_step :=
  match goal with
  | |- preserves _ (bind _ _) => apply preserves_bind; [|intros ?]
  | |- preserves _ (panic _) => apply preserves_panic; not_a_file_panic
  | |- preserves _ (for_each _ _) => apply preserves_for_each; intros ?
  | |- preserves _ (when ?b _) => destruct b; unfold when
  | |- preserves _ (let _ := _ in _) => cbv zeta
  | |- preserves _ (if ?b then _ else _) => destruct b
  | |- preserves _ (match ?x with _ => _ end) => destruct x
  | |- preserves _ _ => solve [auto with preserve]
  end.
Ltac preserve := repeat preserve_step.

(** A block cache that does not call into the open file table. *)
Class QuietCache (S : Type) `{!BlockCache S} : Prop := {
  quiet_bread b : quiet (bc_bread b);
  quiet_getdata i : quiet (bc_getdata i);
  quiet_setdata i d : quiet (bc_setdata i d);
  quiet_blockno i : quiet (bc_blockno i);
  quiet_pin i : quiet (bc_pin i);
  quiet_bwrite i : quiet (bc_bwrite i);
  quiet_brelse i : quiet (bc_brelse i) }.
#[export] Hint Resolve quiet_bread quiet_getdata quiet_setdata quiet_blockno quiet_pin quiet_bwrite quiet_brelse : preserve.

Lemma quiet_iderw me i : quiet (iderw me i).
Proof. unfold iderw, holdingsleep. preserve. Qed.
#[export] Hint Resolve quiet_iderw : preserve.

#[export] Instance bio_quiet me : QuietCache bcache (BlockCache0 := bio_cache me).
Proof. split; intros; simpl; unfold bread, bget, acquiresleep, getdata, setdata, getblockno, pin, bwrite, brelse, releasesleep, holdingsleep; preserve. Qed.

Section log_frame.
Context {S : Type} `{!BlockCache S, !QuietCache S}.

Lemma quiet_lc {A} (c : M S A) : quiet c -> quiet (lc c).
Proof. by apply preserves_lift. Qed.
#[local] Hint Resolve quiet_lc : preserve.

Lemma quiet_write_head : quiet (write_head (S := S)).
Proof. unfold write_head. preserve. Qed.
Lemma quiet_install_trans : quiet (install_trans (S := S)).
Proof. unfold install_trans, install_block. preserve. Qed.
Lemma quiet_write_log : quiet (write_log (S := S)).
Proof. unfold write_log, log_block. preserve. Qed.
#[local] Hint Resolve quiet_write_head quiet_install_trans quiet_write_log : preserve.
Lemma quiet_begin_op : quiet (begin_op (S := S)).
Proof. unfold begin_op. preserve. Qed.
Lemma quiet_end_op : quiet (end_op (S := S)).
Proof. unfold end_op, commit. preserve. Qed.
Lemma quiet_log_write b : quiet (log_write (S := S) b).
Proof. unfold log_write. preserve. Qed.
End log_frame.
#[export] Hint Resolve quiet_lc quiet_begin_op quiet_end_op quiet_log_write : preserve.

(** ** The file system *)

Section fs_frame.
Context {S : Type} `{!BlockCache S, !QuietCache S} (U : mem -> Prop).
Local Abbreviation F := (fs S).

Definition on_mem (f : F) : Prop := U (users f).
Local Abbreviation keeps := (preserves on_mem).

Lemma keeps_fl {A} (c : M (log S) A) : quiet c -> keeps (fl c).
Proof. by apply preserves_lift. Qed.
Lemma keeps_updi ip g : keeps (modify (updi ip g)).
Proof. by intros f. Qed.
Lemma keeps_iacquire me ip : keeps (iacquire me ip).
Proof. intros f Hf. unfold iacquire. rewrite bind_get. by destruct (nz _). Qed.
#[local] Hint Resolve keeps_fl keeps_updi keeps_iacquire : preserve.

Lemma keeps_fbread dv b : keeps (fbread dv b).
Proof. unfold fbread. preserve. Qed.
Lemma keeps_fdata bp : keeps (fdata bp).
Proof. unfold fdata. preserve. Qed.
Lemma keeps_fset bp d : keeps (fset bp d).
Proof. unfold fset. preserve. Qed.
Lemma keeps_flog_write bp : keeps (flog_write bp).
Proof. unfold flog_write. preserve. Qed.
Lemma keeps_fbrelse bp : keeps (fbrelse bp).
Proof. unfold fbrelse. preserve. Qed.
#[local] Hint Resolve keeps_fbread keeps_fdata keeps_fset keeps_flog_write keeps_fbrelse : preserve.

Lemma keeps_balloc dv : keeps (balloc dv).
Proof.
  unfold balloc. apply preserves_bind; [preserve|intros f]. generalize (Z.to_nat (sb_size (sb f) / BPB) + 1)%nat 0. clear f.
  intros n. induction n as [|n IH]; intros b; cbn [balloc_loop]; unfold bzero; preserve.
Qed.
Lemma keeps_bfree dv b : keeps (bfree dv b).
Proof. unfold bfree. preserve. Qed.
Lemma keeps_iget dv n : keeps (iget dv n).
Proof. unfold iget. preserve. Qed.
#[local] Hint Resolve keeps_balloc keeps_bfree keeps_iget : preserve.
Lemma keeps_ialloc dv type : keeps (ialloc dv type).
Proof.
  unfold ialloc. apply preserves_bind; [preserve|intros f]. generalize (Z.to_nat (sb_ninodes (sb f))) 1. clear f.
  intros n. induction n as [|n IH]; intros b; cbn [ialloc_loop]; preserve.
Qed.
Lemma keeps_iupdate ip : keeps (iupdate ip).
Proof. unfold iupdate. preserve. Qed.
Lemma keeps_idup ip : keeps (idup ip).
Proof. unfold idup. preserve. Qed.
Lemma keeps_ilock me ip : keeps (ilock me ip).
Proof. unfold ilock. preserve. Qed.
Lemma keeps_iunlock me ip : keeps (iunlock me ip).
Proof. unfold iunlock, iholding, irelease. preserve. Qed.
Lemma keeps_bmap ip bn : keeps (bmap ip bn).
Proof. unfold bmap. preserve. Qed.
#[local] Hint Resolve keeps_ialloc keeps_iupdate keeps_idup keeps_ilock keeps_iunlock keeps_bmap : preserve.
Lemma keeps_iput me ip : keeps (iput me ip).
Proof. unfold iput, itrunc, irelease. preserve. Qed.
#[local] Hint Resolve keeps_iput : preserve.
Lemma keeps_iunlockput me ip : keeps (iunlockput me ip).
Proof. unfold iunlockput. preserve. Qed.
#[local] Hint Resolve keeps_iunlockput : preserve.

Lemma keeps_cleari ip : keeps (cleari ip).
Proof.
  unfold cleari. assert (forall n off left, keeps (cleari_loop n ip off left)) as Hl.
  { intros n. induction n as [|n IH]; intros off left; cbn [cleari_loop]; preserve. }
  preserve.
Qed.

Context (devsw : Z -> dev_ops (S := S)).
Hypothesis devices_keep : forall mj,
  (forall rd ip n, dev_read (devsw mj) = Some rd -> keeps (rd ip n)) /\
  (forall wr ip src n, dev_write (devsw mj) = Some wr -> keeps (wr ip src n)).

Lemma keeps_readi ip off n : keeps (readi devsw ip off n).
Proof.
  unfold readi. assert (forall n off left, keeps (readi_loop n ip off left)) as Hl.
  { clear off n. intros n. induction n as [|n IH]; intros off left; cbn [readi_loop]; preserve. }
  preserve_step; [preserve|]. cbv zeta. destruct (_ =? _); [|preserve]. destruct (_ || _); [preserve|].
  destruct (dev_read _) as [rd|] eqn:E; [|preserve]. by eapply devices_keep.
Qed.
Lemma keeps_writei ip src off n : keeps (writei devsw ip src off n).
Proof.
  unfold writei. assert (forall n src off left, keeps (writei_loop n ip src off left)) as Hl.
  { clear src off n. intros n. induction n as [|n IH]; intros src off left; cbn [writei_loop]; preserve. }
  preserve_step; [preserve|]. cbv zeta. destruct (_ =? _); [|preserve]. destruct (_ || _); [preserve|].
  destruct (dev_write _) as [wr|] eqn:E; [|preserve]. by eapply devices_keep.
Qed.
#[local] Hint Resolve keeps_readi keeps_writei : preserve.

Lemma keeps_dirlookup dp name : keeps (dirlookup devsw dp name).
Proof.
  unfold dirlookup. assert (forall n off, keeps (dirlookup_loop devsw n dp name off)) as Hl.
  { intros n. induction n as [|n IH]; intros off; cbn [dirlookup_loop]; preserve. }
  preserve.
Qed.
#[local] Hint Resolve keeps_dirlookup : preserve.
Lemma keeps_dirlink me dp name n : keeps (dirlink devsw me dp name n).
Proof.
  unfold dirlink. assert (forall n off, keeps (dirlink_scan devsw n dp off)) as Hl.
  { clear n. intros n. induction n as [|n IH]; intros off; cbn [dirlink_scan]; preserve. }
  preserve.
Qed.

Context (c : caller).
Hypothesis check_keeps : forall ip, keeps (check_inode c ip).

Lemma keeps_namex path parent name : keeps (namex devsw c path parent name).
Proof.
  unfold namex. assert (forall n ip path name, keeps (namex_loop devsw n c parent ip path name)) as Hl.
  { intros n. induction n as [|n IH]; intros ip p nm; cbn [namex_loop]; preserve. }
  preserve.
Qed.
Lemma keeps_namei path : keeps (namei devsw c path).
Proof. unfold namei. apply preserves_bind; [apply keeps_namex|]. intros. preserve. Qed.
End fs_frame.
