(* ===== verification/SysfileRefs.v ===== *)
(** * The open file table is consistent

    Every open file is counted by the descriptors that refer to it, free entries
    are free, and every pipe lives exactly as long as one of its ends is open.
    Each system call of sysfile.c preserves this, on success and on every error,
    and never runs into the panics that guard it. *)

From stdpp Require Import gmap.
From S2P Require Import Prelude CString Spinlock Kalloc Block Bio Log Users Fs FsFrame Pipe Syscall File Sysfile.
Open Scope Z_scope.

(** ** Counting descriptors *)

Definition fds (f : nat) (ofs : list (option nat)) : Z := Z.of_nat (length (filter (fun o => o = Some f) ofs)).

(** One for a descriptor of [f]. *)
Definition one (v : option nat) (f : nat) : Z := if decide (v = Some f) then 1 else 0.

Lemma fds_cons f o ofs : fds f (o :: ofs) = one o f + fds f ofs.
Proof. unfold fds, one. rewrite filter_cons. case_decide; simpl; lia. Qed.

Lemma fds_nonneg f ofs : 0 <= fds f ofs.
Proof. unfold fds. lia. Qed.

Lemma fds_insert f ofs fd old v :
  ofs !! fd = Some old ->
  fds f (<[fd := v]> ofs) = fds f ofs - one old f + one v f.
Proof.
  revert fd. induction ofs as [|o ofs IH]; intros [|fd] H; simpl in *; simplify_eq; rewrite ?fds_cons; [lia|].
  rewrite (IH fd H). lia.
Qed.

Lemma fds_elem f ofs : Some f ∈ ofs -> 1 <= fds f ofs.
Proof.
  induction ofs as [|o ofs IH]; [by intros ?%elem_of_nil|]. rewrite fds_cons. pose proof (fds_nonneg f ofs).
  unfold one. intros [<-|Ho]%elem_of_cons; [rewrite decide_True by done; lia|]. specialize (IH Ho). case_decide; lia.
Qed.

(** [o] with [d] more references to [f]. *)
Definition bump (f : nat) (d : Z) (o : nat -> Z) : nat -> Z := fun g => if decide (g = f) then o g + d else o g.

Lemma bump_same f d o : bump f d o f = o f + d.
Proof. unfold bump. by rewrite decide_True. Qed.
Lemma bump_other f d o g : g <> f -> bump f d o g = o g.
Proof. intros. unfold bump. by rewrite decide_False. Qed.

(** An end of a pipe. *)
Definition is_open (w : bool) (p : pipe) : Prop := (if w then writeopen p else readopen p) <> 0.

Section refs.
Context {S : Type} `{!BlockCache S} (KMEM END : Z).
Local Abbreviation T := (sst S).

(** The file [f] is the write or read end of the pipe at [a]. *)
Definition pipe_end (s : T) (a : Z) (w : bool) (f : nat) : Prop :=
  (f < NFILE)%nat /\ ftype (opened s f) = FD_PIPE /\ fpipe (opened s f) = a /\ nz (writable (opened s f)) = w.

(** Every end belongs to one file, every open side of a pipe has a file, and the
    pages of the pipes are not free. *)
Record pipes_ok (s : T) : Prop := {
  pk_end : forall a w f, pipe_end s a w f -> exists p, pipes s !! a = Some p /\ is_open w p;
  pk_uniq : forall a w f g, pipe_end s a w f -> pipe_end s a w g -> f = g;
  pk_owned : forall a p, pipes s !! a = Some p ->
    (forall w, is_open w p -> exists f, pipe_end s a w f) /\ exists w, is_open w p;
  pk_inv : forall a p, pipes s !! a = Some p -> pinv p;
  pk_pages : exists l, kinv KMEM END (km s) l /\ forall a p, pipes s !! a = Some p -> page END a /\ (a ∉ l) }.

(** [o f] references to [f] are held elsewhere: by other processes, or by the
    call that is under way.  The files of [U] are not set up yet. *)
Record files_ok (o : nat -> Z) (U : list nat) (ofs : list (option nat)) (s : T) : Prop := {
  fk_len : length (ftab s) = NFILE;
  fk_ofs : s_ofile (me s) = ofs;
  fk_fds : length ofs = NOFILE;
  fk_range : forall f, Some f ∈ ofs -> (f < NFILE)%nat;
  fk_ref : forall f, (f < NFILE)%nat -> fref (opened s f) = fds f ofs + o f;
  fk_free : forall f, (f < NFILE)%nat -> fref (opened s f) = 0 -> ftype (opened s f) = FD_NONE;
  fk_init : forall f, Some f ∈ ofs -> f ∈ U \/ ftype (opened s f) <> FD_NONE;
  fk_unset : forall f, f ∈ U -> ftype (opened s f) = FD_NONE;
  fk_pipes : pipes_ok s }.

(** ** Steps that keep the table *)

Lemma files_ext o o' U ofs s : (forall f, o f = o' f) -> files_ok o U ofs s -> files_ok o' U ofs s.
Proof. intros E []. split; try done. intros f Hf. rewrite <- E. by apply fk_ref0. Qed.

Lemma pipes_frame s s' :
  (forall a w g, pipe_end s' a w g <-> pipe_end s a w g) -> pipes s' = pipes s -> km s' = km s -> pipes_ok s -> pipes_ok s'.
Proof.
  intros Ep E1 E2 []. split; rewrite ?E1, ?E2; [setoid_rewrite Ep; done..| |done|done].
  setoid_rewrite Ep. done.
Qed.

Lemma files_frame o U ofs s s' :
  ftab s' = ftab s -> pipes s' = pipes s -> km s' = km s -> s_ofile (me s') = s_ofile (me s) ->
  files_ok o U ofs s -> files_ok o U ofs s'.
Proof.
  intros E1 E2 E3 E4 []. split; unfold opened in *; rewrite ?E1, ?E4; try done.
  apply (pipes_frame s); [|done..]. intros. unfold pipe_end, opened. by rewrite E1.
Qed.

(** A change of an open file that keeps what the invariant looks at. *)
Lemma opened_updf g f h (s : T) : (f < length (ftab s))%nat ->
  opened (updf f h s) g = if decide (g = f) then h (opened s f) else opened s g.
Proof.
  intros Hf. unfold opened, updf, set_ftab. simpl. rewrite list_lookup_total_alter.
  destruct (decide (g = f)) as [->|]; [by rewrite decide_True|]. by rewrite decide_False by intuition.
Qed.

Lemma length_updf f h (s : T) : length (ftab (updf f h s)) = length (ftab s).
Proof. apply length_alter. Qed.

Lemma files_updf o U ofs f h s :
  (f < NFILE)%nat -> (forall x, fref (h x) = fref x /\ ftype (h x) = ftype x /\ fpipe (h x) = fpipe x /\ writable (h x) = writable x) ->
  files_ok o U ofs s -> files_ok o U ofs (updf f h s).
Proof.
  intros Hf Hh Hs. pose proof (fk_len _ _ _ _ Hs) as Hl.
  assert (forall g, let x := opened (updf f h s) g in let y := opened s g in
    fref x = fref y /\ ftype x = ftype y /\ fpipe x = fpipe y /\ writable x = writable y) as E.
  { intros g. cbv zeta. rewrite opened_updf by lia. case_decide; [subst; apply Hh|done]. }
  assert (forall a w g, pipe_end (updf f h s) a w g <-> pipe_end s a w g) as Ep.
  { intros a w g. unfold pipe_end. by destruct (E g) as (_ & -> & -> & ->). }
  destruct Hs. split; try done.
  - by rewrite length_updf.
  - intros g Hg. destruct (E g) as (-> & _). auto.
  - intros g Hg. destruct (E g) as (-> & -> & _). auto.
  - intros g Hg. destruct (E g) as (_ & -> & _). auto.
  - intros g Hg. destruct (E g) as (_ & -> & _). auto.
  - by apply (pipes_frame s).
Qed.

(** A change of a pipe that keeps its ends. *)
Lemma files_pipe o U ofs a p p' s :
  pipes s !! a = Some p -> pinv p' -> readopen p' = readopen p -> writeopen p' = writeopen p ->
  files_ok o U ofs s -> files_ok o U ofs (set_pipes (<[a := p']> (pipes s)) s).
Proof.
  intros Hp Hi Hr Hw [???????? []]. assert (forall w, is_open w p' <-> is_open w p) as E by (intros []; unfold is_open; rewrite ?Hr, ?Hw; done).
  assert (forall b q, <[a := p']> (pipes s) !! b = Some q -> exists q', pipes s !! b = Some q' /\ (forall w, is_open w q <-> is_open w q') /\ pinv q) as Eq.
  { intros b q. rewrite lookup_insert. case_decide; [intros [= <-]; subst; eauto|]. intros Hq. exists q. split_and!; [done..|eauto]. }
  split; try done. split.
  - intros b w f Hf. destruct (pk_end0 b w f Hf) as (q & Hq & Ho). simpl. rewrite lookup_insert.
    case_decide; [|by eauto]. subst. exists p'. split; [done|]. apply E. by simplify_map_eq.
  - done.
  - intros b q Hq. destruct (Eq b q Hq) as (q' & Hq' & Ho & _). destruct (pk_owned0 b q' Hq') as (H1 & w & H2).
    split; [intros w' ?; by apply H1, Ho|]. exists w. by apply Ho.
  - intros b q Hq. by destruct (Eq b q Hq) as (? & ? & ? & ?).
  - destruct pk_pages0 as (l & Hl & Hps). exists l. split; [done|]. intros b q Hq. destruct (Eq b q Hq) as (q' & Hq' & _). eauto.
Qed.

(** Reference counts: [d] more references to [f], which then is in use. *)
Lemma files_bump o U ofs f d s :
  (f < NFILE)%nat -> 1 <= fds f ofs + o f + d -> files_ok o U ofs s ->
  files_ok (bump f d o) U ofs (updf f (fun x => set_fref (fref x + d) x) s).
Proof.
  intros Hf Hd Hs. pose proof (fk_len _ _ _ _ Hs) as Hl. set (s' := updf _ _ s).
  assert (forall g, ftype (opened s' g) = ftype (opened s g) /\ fpipe (opened s' g) = fpipe (opened s g) /\
    writable (opened s' g) = writable (opened s g)) as E.
  { intros g. unfold s'. rewrite opened_updf by lia. by case_decide; [subst|]. }
  assert (forall g, (g < NFILE)%nat -> fref (opened s' g) = fds g ofs + bump f d o g) as Er.
  { intros g Hg. unfold s', bump. rewrite opened_updf by lia. destruct Hs.
    case_decide; [subst; simpl; rewrite (fk_ref0 f) by done; lia|auto]. }
  assert (forall a w g, pipe_end s' a w g <-> pipe_end s a w g) as Ep.
  { intros a w g. unfold pipe_end. by destruct (E g) as (-> & -> & ->). }
  destruct Hs. split; try done.
  - unfold s'. by rewrite length_updf.
  - intros g Hg H0. destruct (E g) as (-> & _). apply fk_free0; [done|]. rewrite fk_ref0 by done. rewrite Er in H0 by done.
    unfold bump in H0. case_decide; [subst; lia|done].
  - intros g Hg. destruct (E g) as (-> & _). auto.
  - intros g Hg. destruct (E g) as (-> & _). auto.
  - by apply (pipes_frame s).
Qed.

(** Moving a reference into or out of the descriptor table. *)
Lemma files_set_ofile o U ofs fd old v s s' :
  ofs !! fd = Some old -> (forall f, v = Some f -> (f < NFILE)%nat /\ (f ∈ U \/ ftype (opened s f) <> FD_NONE)) ->
  set_ofile fd v s = Ret () s' -> files_ok o U ofs s ->
  files_ok (fun f => o f + one old f - one v f) U (<[fd := v]> ofs) s'.
Proof.
  intros Hfd Hv [= <-] []. subst ofs. split; try done.
  - by rewrite length_insert.
  - intros f [i Hi]%list_elem_of_lookup. rewrite list_lookup_insert in Hi. case_decide; simplify_eq; [by apply Hv|].
    apply fk_range0. by eapply list_elem_of_lookup_2.
  - intros f Hf. rewrite (fds_insert _ _ _ old) by done. etrans; [by apply fk_ref0|]. lia.
  - intros f [i Hi]%list_elem_of_lookup. rewrite list_lookup_insert in Hi. case_decide; simplify_eq; [by apply Hv|].
    apply fk_init0. by eapply list_elem_of_lookup_2.
  - by apply (pipes_frame s).
Qed.

Lemma safe_filedup o U ofs f :
  (f < NFILE)%nat -> 1 <= fds f ofs + o f ->
  safe (files_ok o U ofs) (filedup f) (fun _ => files_ok (bump f 1 o) U ofs).
Proof.
  intros Hf Hr s Hs. unfold filedup. rewrite bind_get, (fk_ref _ _ _ _ Hs) by done.
  replace (_ <? 1) with false by lia. simpl. apply files_bump; [done|lia|done].
Qed.

Lemma filealloc_run o U ofs s :
  files_ok o U ofs s -> filealloc s = Ret None s \/
  exists f s', filealloc s = Ret (Some f) s' /\ (f < NFILE)%nat /\ fds f ofs + o f = 0 /\ ftype (opened s f) = FD_NONE /\
    (forall g, ftype (opened s' g) = ftype (opened s g)) /\ files_ok (bump f 1 o) U ofs s'.
Proof.
  intros Hs. unfold filealloc. rewrite bind_get. destruct (list_find _ _) as [[f x]|] eqn:E; [|by left].
  apply list_find_Some in E as (Hx & H0 & _). assert (opened s f = x) as Ex by by apply list_lookup_total_correct.
  pose proof (fk_len _ _ _ _ Hs) as Hl. assert (f < NFILE)%nat as Hf by (apply lookup_lt_Some in Hx; lia).
  pose proof (fk_ref _ _ _ _ Hs f Hf) as Hr. rewrite Ex, H0 in Hr. right. eexists f, _. split_and!; [done..| | |].
  - apply (fk_free _ _ _ _ Hs); [done|congruence].
  - intros g. rewrite opened_updf by lia. by case_decide; [subst|].
  - pose proof (files_bump o U ofs f 1 s Hf ltac:(lia) Hs) as Hb.
    replace (updf f (set_fref 1) s) with (updf f (fun x => set_fref (fref x + 1) x) s); [done|].
    unfold updf. f_equal. apply list_alter_ext; [|done]. intros y Hy. simplify_eq. by rewrite H0.
Qed.

(** ** Closing *)

Definition freed (x : file) : file := mkFile FD_NONE 0 (readable x) (writable x) (fpipe x) (fip x) (foff x).

(** The last reference to [f] goes: [s'] has the entry freed, and the pipes
    brought up to date. *)
Lemma files_drop o U ofs f s s' :
  (f < NFILE)%nat -> fds f ofs = 0 -> o f = 1 -> ftab s' = alter freed f (ftab s) -> me s' = me s ->
  pipes_ok s' -> files_ok o U ofs s -> files_ok (bump f (-1) o) U ofs s'.
Proof.
  intros Hf Hd Ho Et Em Hp []. assert (forall g, opened s' g = if decide (g = f) then freed (opened s f) else opened s g) as E.
  { intros g. rewrite <- (opened_updf g f freed s) by lia. unfold opened. by rewrite Et. }
  assert (Some f ∉ ofs) as Hn by (intros ?%fds_elem; lia).
  split; try done.
  - by rewrite Et, length_alter.
  - by rewrite Em.
  - intros g Hg. rewrite E. unfold bump. case_decide; [subst; simpl; lia|auto].
  - intros g Hg. rewrite E. case_decide; auto.
  - intros g Hg. rewrite E. case_decide; [by subst|auto].
  - intros g Hg. rewrite E. case_decide; auto.
Qed.

Lemma pipe_end_freed s s' f a w g :
  length (ftab s) = NFILE -> ftab s' = alter freed f (ftab s) -> (f < NFILE)%nat ->
  pipe_end s' a w g <-> pipe_end s a w g /\ g <> f.
Proof.
  intros Hl Et Hf. assert (opened s' g = if decide (g = f) then freed (opened s f) else opened s g) as E.
  { rewrite <- (opened_updf g f freed s) by lia. unfold opened. by rewrite Et. }
  unfold pipe_end. rewrite E. case_decide; simpl; intuition congruence.
Qed.

(** The side [w] of the pipe at [a] closes: [q] is what is left of the pipe. *)
Lemma pipes_closed s s3 a w f p q :
  pipes_ok s -> pipe_end s a w f -> pipes s !! a = Some p ->
  (forall b v g, pipe_end s3 b v g <-> pipe_end s b v g /\ g <> f) ->
  (forall b, pipes s3 !! b = if decide (b = a) then q else pipes s !! b) ->
  match q with
  | Some p' => ~ is_open w p' /\ is_open (negb w) p' /\ is_open (negb w) p /\ pinv p'
  | None => ~ is_open (negb w) p
  end ->
  (exists l, kinv KMEM END (km s3) l /\ forall b p, pipes s3 !! b = Some p -> page END b /\ (b ∉ l)) -> pipes_ok s3.
Proof.
  intros [] Hf Hp Ee Ep Hq Hk. split; [..|done].
  - intros b v g [Hg Hne]%Ee. destruct (pk_end0 b v g Hg) as (r & Hr & Ho). rewrite Ep. case_decide; [|eauto].
    simplify_eq. destruct (decide (v = w)) as [->|Hv]; [by destruct Hne; eapply pk_uniq0|].
    replace v with (negb w) in * by by destruct v, w. destruct q as [p'|]; [|done]. exists p'. tauto.
  - intros b v g h [Hg _]%Ee [Hh _]%Ee. by eapply pk_uniq0.
  - intros b r. rewrite Ep. case_decide as Hb.
    + intros ->. subst b. destruct Hq as (H1 & H2 & H3 & _). split; [|by exists (negb w)].
      intros v Hv. assert (v = negb w) as -> by (by destruct v, w). destruct (pk_owned0 a p Hp) as [Hg _].
      destruct (Hg (negb w) H3) as [g Hg']. exists g. apply Ee. split; [done|]. intros ->.
      destruct Hf as (_ & _ & _ & Hw1), Hg' as (_ & _ & _ & Hw2). rewrite Hw1 in Hw2. by destruct w.
    + intros Hr. destruct (pk_owned0 b r Hr) as [Hg Hw]. split; [|done]. intros v Hv. destruct (Hg v Hv) as [g Hg'].
      exists g. apply Ee. split; [done|]. intros ->. apply Hb. destruct Hf as (_ & _ & <- & _), Hg' as (_ & _ & <- & _). done.
  - intros b r. rewrite Ep. case_decide; [|eauto]. intros ->. tauto.
Qed.

Hypothesis END_kernel : KERNBASE <= END.

(** [pipeclose] once the entry of [f], an end of the pipe at [a], is freed. *)
Lemma pipe_close_run s s2 a w f :
  length (ftab s) = NFILE -> pipes_ok s -> pipe_end s a w f ->
  ftab s2 = alter freed f (ftab s) -> pipes s2 = pipes s -> km s2 = km s ->
  exists s3, pipe_close KMEM END a w s2 = Ret () s3 /\ ftab s3 = ftab s2 /\ me s3 = me s2 /\ pipes_ok s3.
Proof.
  intros Hl Hok Hf Et Ep Ek. pose proof Hok as []. destruct (pk_end0 a w f Hf) as (p & Hp & Ho).
  unfold pipe_close. rewrite bind_get. unfold pipe_at. rewrite Ep, Hp. change (default (new_pipe []) (Some p)) with p.
  set (p' := if w then mkPipe (data p) (nread p) (nwrite p) (readopen p) 0 else mkPipe (data p) (nread p) (nwrite p) 0 (writeopen p)).
  assert (pipeclose w p = (p', if w then mkWakes true false else mkWakes false true, (readopen p' =? 0) && (writeopen p' =? 0))) as -> by by destruct w.
  assert (~ is_open w p' /\ (is_open (negb w) p' <-> is_open (negb w) p)) as [Hw Hv] by (unfold is_open, p'; destruct w; simpl; lia).
  assert ((readopen p' =? 0) && (writeopen p' =? 0) = negb (bool_decide (is_open (negb w) p'))) as ->.
  { unfold is_open in *. destruct w; simpl in *; case_bool_decide; simpl; lia. }
  assert (pinv p') as Hi by (specialize (pk_inv0 a p Hp); by destruct w).
  destruct pk_pages0 as (l & Hk & Hps). case_bool_decide as Hc; simpl.
  - eexists. split; [done|]. split_and!; [done..|]. apply (pipes_closed s _ a w f p (Some p')); try done.
    + intros b v g. by apply pipe_end_freed; [..|apply Hf].
    + intros b. simpl. rewrite lookup_insert. destruct (decide (a = b)), (decide (b = a)); congruence.
    + tauto.
    + simpl. rewrite Ek. exists l. split; [done|]. intros b r. rewrite lookup_insert. case_decide; [subst; eauto|eauto].
  - destruct (Hps a p Hp) as [Hpa Hla]. destruct (kfree_run KMEM END END_kernel (km s) l a Hk Hpa Hla) as (k' & E & Hk' & _).
    unfold bind, put, kmc, lift. simpl. rewrite Ek, E. eexists. split; [done|]. split_and!; [done..|].
    apply (pipes_closed s _ a w f p None); try done.
    + intros b v g. by apply pipe_end_freed; [..|apply Hf].
    + intros b. simpl. rewrite lookup_delete. destruct (decide (a = b)), (decide (b = a)); congruence.
    + tauto.
    + exists (a :: l). split; [done|]. intros b r. simpl. rewrite lookup_delete. case_decide; [done|]. intros Hr.
      destruct (Hps b r Hr). set_solver.
Qed.

(** ** Code that leaves the table as it is *)

Local Abbreviation still c := (forall o U ofs, preserves (files_ok o U ofs) c).
Definition anything (m : mem) : Prop := True.
Local Abbreviation keeps := (preserves (on_mem anything)).

Lemma still_modify (g : T -> T) :
  (forall s, ftab (g s) = ftab s /\ pipes (g s) = pipes s /\ km (g s) = km s /\ s_ofile (me (g s)) = s_ofile (me s)) -> still (modify g).
Proof. intros H o U ofs s Hs. destruct (H s) as (? & ? & ? & ?). simpl. by eapply files_frame. Qed.
Lemma still_fsc {A} (c : M (fs S) A) : keeps c -> still (fsc c).
Proof.
  intros Hc o U ofs s Hs. specialize (Hc (fsys s) Logic.I). unfold fsc, lift. destruct (c (fsys s)); [|done..].
  by apply (files_frame o U ofs s).
Qed.

Context `{!QuietCache S}.

Lemma still_begin_op : still (begin_op (S := S)).
Proof. apply still_fsc, keeps_fl, quiet_begin_op. Qed.
Lemma still_end_op : still (end_op (S := S)).
Proof. apply still_fsc, keeps_fl, quiet_end_op. Qed.

#[local] Hint Resolve still_fsc still_begin_op still_end_op : preserve.
#[local] Hint Resolve keeps_iput keeps_ilock keeps_iunlock keeps_iunlockput keeps_iupdate keeps_updi keeps_ialloc keeps_cleari : preserve.

Lemma safe_fileclose o U ofs f :
  (f < NFILE)%nat -> 1 <= o f ->
  safe (files_ok o U ofs) (fileclose KMEM END f) (fun _ => files_ok (bump f (-1) o) U ofs).
Proof.
  intros Hf Ho s Hs. pose proof (fk_len _ _ _ _ Hs) as Hl. pose proof (fk_ref _ _ _ _ Hs f Hf) as Hr. pose proof (fds_nonneg f ofs).
  unfold fileclose. rewrite bind_get. replace (fref (opened s f) <? 1) with false by lia. rewrite bind_modify, bind_get.
  rewrite opened_updf, decide_True by (done || lia). cbn [fref set_fref].
  destruct (0 <? fref (opened s f) - 1) eqn:E; bsplit; [apply (files_bump o U ofs f (-1) s); [done|lia|done]|].
  set (s2 := updf f freed (updf f (fun x => set_fref (fref x - 1) x) s)).
  assert (ftab s2 = alter freed f (ftab s)) as Et by (unfold s2; simpl; by rewrite alter_twice).
  assert (pipes s2 = pipes s /\ km s2 = km s /\ me s2 = me s) as (Ep & Ek & Em) by done.
  rewrite bind_modify. fold freed s2. cbn [ftype set_fref fpipe writable fip].
  assert (forall s3, ftab s3 = ftab s2 -> me s3 = me s2 -> pipes_ok s3 -> files_ok (bump f (-1) o) U ofs s3) as Hd.
  { intros. eapply (files_drop o U ofs f s); [done|lia|lia|congruence|congruence|done|done]. }
  assert (ftype (opened s f) <> FD_PIPE -> files_ok (bump f (-1) o) U ofs s2) as Hn.
  { intros Hn. apply Hd; [done..|]. apply (pipes_frame s); [|done..|apply Hs]. intros a w g. rewrite pipe_end_freed by done.
    split; [tauto|]. intros Hg. split; [done|]. intros ->. by destruct Hg as (_ & ? & _). }
  destruct (ftype (opened s f)) eqn:Ht; [by apply Hn| |].
  - destruct (pipe_close_run s s2 (fpipe (opened s f)) (nz (writable (opened s f))) f) as (s3 & E3 & Et3 & Em3 & Hp3); try done; [apply Hs|].
    rewrite E3. by apply Hd.
  - enough (still (begin_op;;; (let* p := pid in fsc (iput p (fip (opened s f)));;; end_op (S := S)))) as Hst by by apply Hst, Hn.
    intros o' U' ofs'. unfold pid. preserve.
Qed.

(** ** Descriptors and pipes *)

Lemma safe_fdalloc o U ofs f t :
  (f < NFILE)%nat -> f ∈ U \/ ftype (t !!! f) <> FD_NONE ->
  safe (fun s => files_ok o U ofs s /\ ftab s = t) (fdalloc f) (fun fd s =>
    (fd = -1 /\ files_ok o U ofs s /\ ftab s = t) \/
    exists i, fd = Z.of_nat i /\ ofs !! i = Some None /\ files_ok (bump f (-1) o) U (<[i := Some f]> ofs) s /\ ftab s = t).
Proof.
  intros Hf Hu s [Hs Ht]. unfold fdalloc. rewrite bind_get. pose proof (fk_ofs _ _ _ _ Hs) as ->.
  destruct (list_find _ _) as [[i x]|] eqn:E; [|by left]. apply list_find_Some in E as (Hi & -> & _). right.
  exists i. split; [done|]. split; [done|]. split; [|done].
  apply (files_ext (fun g => o g + one None g - one (Some f) g)).
  - intros g. unfold bump, one. rewrite (decide_False (P := None = _)) by done. repeat case_decide; simplify_eq; lia.
  - eapply files_set_ofile; [done| |done|done]. intros g [= <-]. split; [done|]. unfold opened. by rewrite Ht.
Qed.

(** A page for a pipe comes from the free list. *)
Lemma kalloc_files o U ofs s :
  files_ok o U ofs s -> exists p s', kmc (kalloc KMEM) s = Ret p s' /\ ftab s' = ftab s /\ files_ok o U ofs s' /\
    (p <> 0 -> exists l, kinv KMEM END (km s') l /\ page END p /\ (p ∉ l) /\ pipes s' !! p = None /\
      forall a q, pipes s' !! a = Some q -> page END a /\ (a ∉ l)).
Proof.
  intros Hs. destruct (fk_pipes _ _ _ _ Hs) as [H1 H2 H3 H4 (l & Hk & Hp)].
  destruct (kalloc_run KMEM END END_kernel (km s) l Hk) as (k' & E & Hk' & _).
  exists (hd 0 l), (set_km k' s). unfold kmc, lift. rewrite E. split_and!; [done..| |].
  - destruct Hs. split; try done. split; try done. exists (tail l). split; [done|]. intros a q Ha. destruct (Hp a q Ha).
    split; [done|]. destruct l; set_solver.
  - intros Hn. destruct l as [|p l]; [done|]. simpl in *. destruct Hk as (_ & Hd & Hpg & _). apply NoDup_cons in Hd as [Hd _].
    apply Forall_cons in Hpg as [Hpg _]. exists l. split_and!; try done.
    + destruct (pipes s !! p) eqn:Ep; [|done]. destruct (Hp _ _ Ep). set_solver.
    + intros a q Ha. destruct (Hp a q Ha). set_solver.
Qed.

Definition read_end (p : Z) (x : file) : file := mkFile FD_PIPE (fref x) 1 0 p (fip x) (foff x).
Definition write_end (p : Z) (x : file) : file := mkFile FD_PIPE (fref x) 0 1 p (fip x) (foff x).

(** Two free entries become the ends of a new pipe. *)
Lemma files_new_pipe o ofs s r w p d :
  files_ok o [] ofs s -> (r < NFILE)%nat -> (w < NFILE)%nat -> r <> w -> 0 < o r -> 0 < o w ->
  ftype (opened s r) = FD_NONE -> ftype (opened s w) = FD_NONE -> length d = Z.to_nat PIPESIZE ->
  (exists l, kinv KMEM END (km s) l /\ page END p /\ (p ∉ l) /\ pipes s !! p = None /\
    forall a q, pipes s !! a = Some q -> page END a /\ (a ∉ l)) ->
  files_ok o [] ofs (updf w (write_end p) (updf r (read_end p) (set_pipes (<[p := new_pipe d]> (pipes s)) s))).
Proof.
  intros Hs Hr Hw Hne Hor How Htr Htw Hd (l & Hk & Hpp & Hpl & Hpn & Hps). set (s' := updf w _ _).
  pose proof (fk_len _ _ _ _ Hs) as Hl.
  assert (forall g, opened s' g = if decide (g = w) then write_end p (opened s w) else if decide (g = r) then read_end p (opened s r) else opened s g) as E.
  { intros g. unfold s'. rewrite opened_updf by (rewrite length_updf; simpl; lia). rewrite !opened_updf by (simpl; lia).
    by repeat case_decide. }
  assert (forall a v g, pipe_end s' a v g <-> pipe_end s a v g \/ (a = p /\ g = if v then w else r)) as Ee.
  { intros a v g. unfold pipe_end. rewrite E. repeat case_decide; subst; destruct v; simpl; rewrite ?Htr, ?Htw; intuition (simplify_eq; done). }
  assert (forall b v g, pipe_end s b v g -> b <> p) as Hfresh.
  { intros b v g Hg ->. destruct (pk_end _ (fk_pipes _ _ _ _ Hs) _ _ _ Hg) as (q & Hq & _). congruence. }
  destruct Hs as [? ? ? ? Href Hfree Hinit _ [He Hu Ho Hi Hpg]]. split; try done.
  - unfold s'. by rewrite !length_updf.
  - intros g Hg. rewrite <- Href by done. rewrite E. repeat case_decide; by subst.
  - intros g Hg H0. pose proof (fds_nonneg g ofs) as Hnn. assert (fref (opened s g) = 0) as H0' by (rewrite <- H0, E; repeat case_decide; by subst).
    pose proof (Href g Hg) as Hrg. rewrite E. repeat case_decide; subst; try lia. auto.
  - intros g Hg. rewrite E. repeat case_decide; [by right..|]. auto.
  - by intros g ?%elem_of_nil.
  - split.
    + intros a v g [Hg|[-> _]]%Ee; simpl.
      * rewrite lookup_insert_ne by (symmetry; by eapply Hfresh). eauto.
      * rewrite lookup_insert_eq. eexists. split; [done|]. by destruct v.
    + intros a v g h [Hg|[-> ->]]%Ee [Hh|[Ha ->]]%Ee; [by eapply Hu| | |done]; exfalso; [subst|]; by eapply Hfresh.
    + intros a q. simpl. rewrite lookup_insert. case_decide as Ha.
      * intros [= <-]. subst a. split; [|by exists true]. intros v _. exists (if v then w else r). apply Ee. by right.
      * intros Hq. destruct (Ho a q Hq) as [Hv Hx]. split; [|done]. intros v Hvo. destruct (Hv v Hvo) as [g Hg]. exists g. apply Ee. by left.
    + intros a q. simpl. rewrite lookup_insert. case_decide; [|eauto]. intros [= <-]. by split_and!.
    + exists l. split; [done|]. intros a q. simpl. rewrite lookup_insert. case_decide; [by subst|eauto].
Qed.

Lemma bump_undo f d o : forall g, bump f (- d) (bump f d o) g = o g.
Proof. intros g. unfold bump. case_decide; lia. Qed.

Lemma nonneg_bump o f : (forall g, 0 <= o g) -> forall g, 0 <= bump f 1 o g.
Proof. intros H g. specialize (H g). unfold bump. case_decide; lia. Qed.

(** A reference the call has taken is given back. *)
Lemma close_taken o U ofs f s :
  (f < NFILE)%nat -> 0 <= o f -> files_ok (bump f 1 o) U ofs s ->
  match fileclose KMEM END f s with Ret _ s' => files_ok o U ofs s' | Panic msg => msg ∉ FILE_PANICS | Blocked _ => True end.
Proof.
  intros Hf Ho Hs. pose proof (safe_fileclose (bump f 1 o) U ofs f Hf ltac:(rewrite bump_same; lia) s Hs) as Hc.
  destruct (fileclose _ _ _ _); [|done..]. eapply files_ext; [|exact Hc]. apply bump_undo.
Qed.

Lemma safe_pipealloc o ofs :
  (forall f, 0 <= o f) ->
  safe (files_ok o [] ofs) (pipealloc KMEM END) (fun x s => match x with
    | None => files_ok o [] ofs s
    | Some (r, w) => (r < NFILE)%nat /\ (w < NFILE)%nat /\
        ftype (opened s r) = FD_PIPE /\ ftype (opened s w) = FD_PIPE /\ files_ok (bump w 1 (bump r 1 o)) [] ofs s
    end).
Proof.
  intros Ho s Hs. unfold pipealloc. cbv zeta.
  destruct (filealloc_run _ _ _ _ Hs) as [E1|(r & s1 & E1 & Hr & Hr0 & Htr & Hty1 & Hs1)]; rewrite (bind_ret _ _ _ _ _ E1); [done|].
  destruct (filealloc_run _ _ _ _ Hs1) as [E2|(w & s2 & E2 & Hw & Hw0 & Htw & Hty2 & Hs2)]; rewrite (bind_ret _ _ _ _ _ E2).
  { pose proof (close_taken o [] ofs r s1 Hr (Ho r) Hs1) as Hc. unfold bind, when, ret. simpl. by destruct (fileclose _ _ _ _). }
  pose proof (nonneg_bump o r Ho) as Ho1.
  destruct (kalloc_files _ _ _ _ Hs2) as (p & s3 & E3 & Et3 & Hs3 & Hp). rewrite (bind_ret _ _ _ _ _ E3).
  destruct (p =? 0) eqn:Hp0; bsplit.
  - unfold bind, when, ret. simpl.
    pose proof (safe_fileclose (bump w 1 (bump r 1 o)) [] ofs r Hr) as Hc. specialize (Hc ltac:(unfold bump; pose proof (Ho r); repeat case_decide; subst; lia) s3 Hs3).
    destruct (fileclose _ _ r s3) as [[] s4| |]; [|done..].
    assert (files_ok (bump w 1 o) [] ofs s4) as Hs4 by (eapply files_ext; [|exact Hc]; intros g; unfold bump; repeat case_decide; lia).
    pose proof (close_taken o [] ofs w s4 Hw (Ho w) Hs4) as Hc4. by destruct (fileclose _ _ w s4).
  - assert (r <> w) as Hne by (intros ->; rewrite bump_same in Hw0; pose proof (Ho w); pose proof (fds_nonneg w ofs); lia).
    pose proof (fk_len _ _ _ _ Hs3) as Hl. rewrite !bind_modify. cbv beta.
    match goal with |- context [new_pipe ?x] => assert (length x = Z.to_nat PIPESIZE) as Hd by apply length_read; generalize dependent x; intros d Hd end.
    cbn [ret]. split_and!; [done|done| | |].
    + rewrite opened_updf by (rewrite length_updf; simpl; lia). case_decide; [done|]. rewrite opened_updf by (simpl; lia). by rewrite decide_True.
    + rewrite opened_updf by (rewrite length_updf; simpl; lia). by rewrite decide_True.
    + apply files_new_pipe; try done.
      * unfold bump. pose proof (Ho r). repeat case_decide; lia.
      * rewrite bump_same. pose proof (Ho1 w). lia.
      * unfold opened. rewrite Et3. fold (opened s2 r). by rewrite Hty2, Hty1.
      * unfold opened. rewrite Et3. fold (opened s2 w). by rewrite Hty2.
      * by apply Hp.
Qed.

(** ** Reading and writing *)

Context (devsw : Z -> dev_ops (S := S)).
Hypothesis devices_keep : forall mj,
  (forall rd ip n, dev_read (devsw mj) = Some rd -> keeps (rd ip n)) /\
  (forall wr ip src n, dev_write (devsw mj) = Some wr -> keeps (wr ip src n)).

#[local] Hint Resolve keeps_readi keeps_writei keeps_dirlookup keeps_dirlink keeps_namex keeps_namei : preserve.

Lemma keeps_modify (g : fs S -> fs S) : keeps (modify g).
Proof. by intros f. Qed.
#[local] Hint Resolve keeps_modify : preserve.
Lemma keeps_check_inode c ip : keeps (check_inode (S := S) c ip).
Proof. unfold check_inode. preserve. Qed.
#[local] Hint Resolve keeps_check_inode : preserve.

Lemma still_foff f r : (f < NFILE)%nat -> still (modify (updf f (fun x => set_foff (u32 (foff x + r)) x))).
Proof. intros Hf o U ofs s Hs. by apply files_updf. Qed.
#[local] Hint Resolve still_foff : preserve.

Ltac still := intros; preserve.

(** The pipe of an open end. *)
Lemma pipe_of_end o U ofs s f :
  files_ok o U ofs s -> (f < NFILE)%nat -> ftype (opened s f) = FD_PIPE ->
  exists p, pipes s !! fpipe (opened s f) = Some p /\ pinv p.
Proof.
  intros Hs Hf Ht. destruct (fk_pipes _ _ _ _ Hs) as [He _ _ Hi _].
  destruct (He (fpipe (opened s f)) (nz (writable (opened s f))) f) as (p & Hp & _); [done|]. eauto.
Qed.

Lemma safe_fileread o ofs f n :
  Some f ∈ ofs -> safe (files_ok o [] ofs) (fileread devsw f n) (fun _ => files_ok o [] ofs).
Proof.
  intros Hin s Hs. pose proof (fk_range _ _ _ _ Hs f Hin) as Hf. unfold fileread. rewrite bind_get.
  destruct (readable (opened s f) =? 0); [done|]. destruct (ftype (opened s f)) eqn:Ht.
  - destruct (fk_init _ _ _ _ Hs f Hin) as [?%elem_of_nil|]; done.
  - destruct (pipe_of_end _ _ _ _ _ Hs Hf Ht) as (p & Hp & Hi). unfold pipe_at. rewrite Hp.
    change (default (new_pipe []) (Some p)) with p.
    destruct (piperead_run (nz (s_killed (me s))) n p Hi) as (p' & bs & w & e & -> & Hi' & _ & Hr & Hw & _).
    unfold bind, put. destruct e; [|done]. by eapply files_pipe.
  - match goal with |- match ?c s with _ => _ end => enough (still c) as Hst by by apply Hst end. unfold pid. still.
Qed.

Lemma safe_filewrite o ofs f src n :
  Some f ∈ ofs -> safe (files_ok o [] ofs) (filewrite devsw f src n) (fun _ => files_ok o [] ofs).
Proof.
  intros Hin s Hs. pose proof (fk_range _ _ _ _ Hs f Hin) as Hf. unfold filewrite. rewrite bind_get.
  destruct (writable (opened s f) =? 0); [done|]. destruct (ftype (opened s f)) eqn:Ht.
  - destruct (fk_init _ _ _ _ Hs f Hin) as [?%elem_of_nil|]; done.
  - destruct (pipe_of_end _ _ _ _ _ Hs Hf Ht) as (p & Hp & Hi). unfold pipe_at. rewrite Hp.
    change (default (new_pipe []) (Some p)) with p.
    destruct (pipewrite_run (nz (s_killed (me s))) n src p Hi) as (acc & rest & p' & w & e & -> & _ & Hi' & _ & Hr & Hw & _).
    unfold bind, put. destruct e; [|done]. by eapply files_pipe.
  - match goal with |- match ?c s with _ => _ end => enough (still c) as Hst by by apply Hst end.
    intros o' U' ofs'. apply preserves_bind; [|intros; still]. revert o' U' ofs'. generalize (Z.to_nat (n / WRITE_MAX + 2)) src 0.
    intros fuel. induction fuel as [|fuel IH]; intros src' i; cbn [filewrite_loop]; unfold pid; still.
Qed.

Lemma still_filestat f st : still (filestat f st).
Proof.
  unfold filestat. intros. preserve_step; [still|]. cbv zeta. destruct (bool_decide _); [|still]. unfold pid. still.
Qed.
#[local] Hint Resolve still_filestat : preserve.

(** ** The handlers *)

Context (L : layout).

Lemma still_umem g : still (modify (fun s : T => set_umem (g s) s)).
Proof. by apply still_modify. Qed.
#[local] Hint Resolve still_umem : preserve.

Lemma still_namei path : still (namei_s devsw L path).
Proof. unfold namei_s, the_caller. still. Qed.
Lemma still_nameiparent path : still (nameiparent_s devsw L path).
Proof. unfold nameiparent_s, the_caller, nameiparent. still. Qed.
Lemma still_checkmod ip : still (checkmod_s L ip).
Proof. unfold checkmod_s, the_caller. still. Qed.
#[local] Hint Resolve still_namei still_nameiparent still_checkmod : preserve.
Create HintDb syscalls.
#[local] Hint Unfold arg_int arg_ptr arg_str getfilebyfd pidof pid ilock_s iunlock_s iput_s iunlockput_s iupdate_s dirlink_s set_inode inode_at : syscalls.

Ltac handler := autounfold with syscalls; still.

Lemma still_on_users {A} what (c : mem -> option (A * mem)) : what ∉ FILE_PANICS -> still (on_users (S := S) what c).
Proof.
  intros Hw o U ofs s Hs. unfold on_users. rewrite bind_get. destruct (c (umem s)) as [[a m]|]; [|done].
  by apply (files_frame o U ofs s).
Qed.
Lemma still_whoami dst : still (whoami_s (S := S) L dst).
Proof.
  intros o U ofs s Hs. unfold whoami_s. rewrite bind_get. destruct (whoami _ _ _ _) as [m|]; [by apply (files_frame o U ofs s)|].
  not_a_file_panic.
Qed.
#[local] Hint Resolve still_whoami : preserve.
#[local] Hint Extern 2 (preserves _ (on_users _ _)) => apply still_on_users; not_a_file_panic : preserve.

Lemma still_create path type major minor : still (create devsw L path type major minor).
Proof.
  unfold create, create_new, whoami_owner. handler.
Qed.
#[local] Hint Resolve still_create : preserve.

Lemma still_sys_link : still (sys_link devsw L).
Proof. unfold sys_link. handler. Qed.
Lemma still_sys_unlink : still (sys_unlink devsw L).
Proof.
  assert (forall n dp off, still (isdirempty_loop devsw n dp off)) as Hl.
  { intros n. induction n as [|n IH]; intros dp off; cbn [isdirempty_loop]; handler. }
  unfold sys_unlink, isdirempty. handler.
Qed.
Lemma still_mkdir path : still (mkdir devsw L path).
Proof. unfold mkdir. handler. Qed.
#[local] Hint Resolve still_mkdir : preserve.
Lemma still_sys_mkdir : still (sys_mkdir devsw L).
Proof. unfold sys_mkdir. handler. Qed.
Lemma still_sys_mknod : still (sys_mknod devsw L).
Proof. unfold sys_mknod. handler. Qed.
Lemma still_set_cwd ip : still (set_cwd (S := S) ip).
Proof. by apply still_modify. Qed.
#[local] Hint Resolve still_set_cwd : preserve.
Lemma still_sys_chdir : still (sys_chdir devsw L).
Proof. unfold sys_chdir. handler. Qed.
Lemma still_sys_chmod : still (sys_chmod devsw L).
Proof. unfold sys_chmod, equals_s. handler. Qed.
Lemma still_sys_fstat : still (sys_fstat (S := S)).
Proof. unfold sys_fstat, argfd. handler. Qed.
Lemma still_sys_whoami : still (sys_whoami (S := S) L).
Proof. unfold sys_whoami. handler. Qed.
Lemma still_sys_login : still (sys_login (S := S) L).
Proof. unfold sys_login. handler. Qed.

(** Handlers that change the descriptors: what holds between two calls. *)
Definition ok (o : nat -> Z) (s : T) : Prop := exists ofs, files_ok o [] ofs s.
Definition good {A} (c : M T A) : Prop := forall o, (forall f, 0 <= o f) -> safe (ok o) c (fun _ => ok o).

Lemma good_still {A} (c : M T A) : still c -> good c.
Proof. intros H o _ s [ofs Hs]. specialize (H o [] ofs s Hs). destruct (c s); [by exists ofs|done..]. Qed.
Lemma good_bind {A B} (c : M T A) (k : A -> M T B) : good c -> (forall a, good (k a)) -> good (bind c k).
Proof. intros Hc Hk o Ho. eapply safe_bind; [by apply Hc|]. intros. by apply Hk. Qed.
Lemma good_files {A} (c : M T A) :
  (forall o ofs, (forall f, 0 <= o f) -> safe (files_ok o [] ofs) c (fun _ => ok o)) -> good c.
Proof. intros H o Ho s [ofs Hs]. by apply (H o ofs). Qed.

(** Start with code that leaves the table as it is. *)
Lemma safe_still {A B} o U ofs (c : M T A) (k : A -> M T B) Q :
  still c -> (forall a, safe (files_ok o U ofs) (k a) Q) -> safe (files_ok o U ofs) (bind c k) Q.
Proof. intros Hc Hk. eapply safe_bind; [apply Hc|done]. Qed.
Lemma safe_ok {A} o ofs (a : A) : safe (files_ok o [] ofs) (ret a) (fun _ => ok o).
Proof. intros s Hs. by exists ofs. Qed.

(** A descriptor that [getfilebyfd] or [argfd] finds is in the table. *)
Lemma safe_getfilebyfd {A} o U ofs fd (k : option nat -> M T A) Q :
  safe (files_ok o U ofs) (k None) Q ->
  (forall f, ofs !! Z.to_nat fd = Some (Some f) -> safe (files_ok o U ofs) (k (Some f)) Q) ->
  safe (files_ok o U ofs) (bind (getfilebyfd fd) k) Q.
Proof.
  intros Hn Hk s Hs. unfold getfilebyfd. rewrite bind_gets, (fk_ofs _ _ _ _ Hs).
  destruct (_ || _); [by apply Hn|]. rewrite list_lookup_total_alt.
  destruct (ofs !! Z.to_nat fd) as [[f|]|] eqn:E; simpl; [by apply Hk|by apply Hn..].
Qed.

Lemma safe_argfd {A} o U ofs n (k : option (Z * nat) -> M T A) Q :
  safe (files_ok o U ofs) (k None) Q ->
  (forall fd f, ofs !! Z.to_nat fd = Some (Some f) -> safe (files_ok o U ofs) (k (Some (fd, f))) Q) ->
  safe (files_ok o U ofs) (bind (argfd n) k) Q.
Proof.
  intros Hn Hk s Hs. unfold argfd, arg_int. rewrite bind_assoc, bind_gets. destruct (argint _ _ _) as [fd|]; [|by apply Hn].
  rewrite bind_assoc. apply (safe_getfilebyfd o U ofs); [done|exact (Hk fd)|done].
Qed.

(** [ofile[fd] = 0; fileclose(f)] *)
Lemma safe_release o ofs fd f :
  ofs !! fd = Some (Some f) -> 0 <= o f ->
  safe (files_ok o [] ofs) (set_ofile fd None ;;; fileclose KMEM END f) (fun _ => files_ok o [] (<[fd := None]> ofs)).
Proof.
  intros Hfd Ho s Hs. assert (f < NFILE)%nat as Hf by (eapply (fk_range _ _ _ _ Hs); by eapply list_elem_of_lookup_2).
  unfold bind. destruct (set_ofile fd None s) as [[] s1| |] eqn:E; [|done..].
  eapply (files_set_ofile o [] ofs fd (Some f) None s s1 Hfd) in Hs; [|done..].
  apply (close_taken o _ _ f); [done..|]. eapply files_ext; [|exact Hs].
  intros g. unfold bump, one. rewrite (decide_False (P := None = _)) by done. repeat case_decide; simplify_eq; lia.
Qed.

Lemma lookup_elem (ofs : list (option nat)) (fd f : nat) : ofs !! fd = Some (Some f) -> Some f ∈ ofs.
Proof. apply list_elem_of_lookup_2. Qed.
#[local] Hint Resolve lookup_elem : core.

Lemma good_sys_dup : good (sys_dup (S := S)).
Proof.
  apply good_files. intros o ofs Ho. unfold sys_dup. apply safe_argfd; [apply safe_ok|]. intros fd f Hr%lookup_elem s Hs.
  pose proof (fk_range _ _ _ _ Hs f Hr) as Hf. pose proof (fds_elem f ofs Hr) as Hd.
  pose proof (safe_fdalloc o [] ofs f (ftab s) Hf (fk_init _ _ _ _ Hs f Hr) s) as Ha.
  unfold bind at 1. specialize (Ha (conj Hs eq_refl)). destruct (fdalloc f s) as [z s1| |]; [|done..].
  destruct Ha as [(-> & Hs1 & _)|(i & -> & Hi & Hs1 & _)]; [by exists ofs|]. replace (_ <? 0) with false by lia.
  pose proof (safe_filedup (bump f (-1) o) [] (<[i := Some f]> ofs) f Hf) as Hdup.
  rewrite bump_same, (fds_insert _ _ _ None) in Hdup by done. unfold one in Hdup. rewrite decide_False, decide_True in Hdup by done.
  specialize (Hdup ltac:(pose proof (Ho f); lia) s1 Hs1). unfold bind, ret. destruct (filedup f s1); [|done..].
  eexists. eapply files_ext; [|exact Hdup]. apply (bump_undo f (-1)).
Qed.

Lemma good_sys_read : good (sys_read devsw).
Proof.
  apply good_files. intros o ofs Ho. unfold sys_read. apply safe_argfd.
  { apply safe_still; [handler|]. intros. apply safe_ok. }
  intros fd f Hr. apply safe_still; [handler|]. intros [n|]; [|apply safe_ok]. apply safe_still; [handler|].
  intros [p|]; [|apply safe_ok]. eapply safe_bind; [eauto using safe_fileread|]. intros r. apply safe_still; [handler|]. intros. apply safe_ok.
Qed.

Lemma good_sys_write : good (sys_write devsw).
Proof.
  apply good_files. intros o ofs Ho. unfold sys_write. apply safe_argfd.
  { apply safe_still; [handler|]. intros. apply safe_ok. }
  intros fd f Hr. apply safe_still; [handler|]. intros [n|]; [|apply safe_ok]. apply safe_still; [handler|].
  intros [p|]; [|apply safe_ok]. apply safe_still; [still|]. intros s0. eapply safe_post; [eauto using safe_filewrite|]. intros a s Hs. by exists ofs.
Qed.

Lemma good_sys_close : good (sys_close (S := S) KMEM END).
Proof.
  apply good_files. intros o ofs Ho. unfold sys_close. apply safe_argfd; [apply safe_ok|]. intros fd f Hr s Hs.
  rewrite <- bind_assoc. revert s Hs. eapply safe_bind; [by apply safe_release|]. intros a. apply safe_ok.
Qed.

(** An entry that [open] has taken and not set up yet. *)
Lemma files_unset o ofs f s :
  ftype (opened s f) = FD_NONE -> files_ok o [] ofs s -> files_ok o [f] ofs s.
Proof. intros Ht []. split; try done; [set_solver|]. by intros g ->%list_elem_of_singleton. Qed.
Lemma files_unused o ofs f s : Some f ∉ ofs -> files_ok o [f] ofs s -> files_ok o [] ofs s.
Proof. intros Hn []. split; try done; [|set_solver]. intros g Hg. destruct (fk_init0 g Hg) as [->%list_elem_of_singleton|]; [done|by right]. Qed.
Lemma files_setup o ofs f h s :
  (f < NFILE)%nat -> (forall x, fref (h x) = fref x /\ ftype (h x) = FD_INODE) -> 0 < fds f ofs + o f ->
  files_ok o [f] ofs s -> files_ok o [] ofs (updf f h s).
Proof.
  intros Hf Hh Hpos []. assert (forall g, opened (updf f h s) g = if decide (g = f) then h (opened s f) else opened s g) as E
    by (intros; apply opened_updf; lia).
  specialize (fk_unset0 f ltac:(set_solver)). split; try done.
  - by rewrite length_updf.
  - intros g Hg. rewrite E. case_decide; [subst|auto]. destruct (Hh (opened s f)) as [-> _]. auto.
  - intros g Hg. rewrite E. case_decide; [subst|auto]. destruct (Hh (opened s f)) as [-> _]. rewrite fk_ref0 by done. lia.
  - intros g Hg. rewrite E. right. case_decide; [subst; by rewrite (proj2 (Hh _))|].
    destruct (fk_init0 g Hg) as [->%list_elem_of_singleton|]; done.
  - set_solver.
  - apply (pipes_frame s); [|done..]. intros a w g. unfold pipe_end. rewrite E.
    case_decide; [subst; rewrite (proj2 (Hh _)), fk_unset0|done]. split; intros (_ & ? & _); done.
Qed.

Lemma good_open path omode : good (open devsw KMEM END L path omode).
Proof.
  apply good_files. intros o ofs Ho. unfold open. apply safe_still; [still|]. intros _.
  apply safe_still; [unfold open_inode; handler|]. intros [ip|]; [|apply safe_still; [still|]; intros; apply safe_ok].
  assert (safe (files_ok o [] ofs) (iunlock_s ip ;;; end_op ;;; ret (-1)) (fun _ => ok o)) as Hbad.
  { apply safe_still; [handler|]. intros _. apply safe_still; [still|]. intros _. apply safe_ok. }
  assert (forall z, still (iunlockput_s ip ;;; end_op ;;; ret (z : Z))) as Hput by (intros; handler).
  apply safe_still; [still|]. intros check. destruct (_ && _); [done|]. destruct (_ && _); [done|].
  intros s Hs. destruct (filealloc_run _ _ _ _ Hs) as [E|(f & s1 & E & Hf & Hf0 & Ht & Hty & Hs1)]; rewrite (bind_ret _ _ _ _ _ E).
  { by apply (good_still _ (Hput (-1))); [|exists ofs]. }
  pose proof (fds_nonneg f ofs) as Hd. assert (Some f ∉ ofs) as Hn by (intros ?%fds_elem; specialize (Ho f); lia).
  apply (files_unset _ _ f) in Hs1; [|by rewrite Hty].
  pose proof (safe_fdalloc (bump f 1 o) [f] ofs f (ftab s1) Hf ltac:(left; set_solver) s1 (conj Hs1 eq_refl)) as Ha.
  unfold bind at 1. destruct (fdalloc f s1) as [z s2| |]; [|done..].
  destruct Ha as [(-> & Hs2 & _)|(i & -> & Hi & Hs2 & _)].
  - pose proof (close_taken o [f] ofs f s2 Hf (Ho f) Hs2) as Hc. change (-1 <? 0) with true. cbv iota.
    unfold bind at 1. destruct (fileclose _ _ f s2) as [[] s3| |]; [|done..].
    apply (good_still _ (Hput (-1))); [done|]. exists ofs. by eapply files_unused.
  - replace (Z.of_nat i <? 0) with false by lia. apply (files_ext _ o) in Hs2; [|apply bump_undo]. revert s2 Hs2.
    apply safe_still; [handler|]. intros _. apply safe_still; [still|]. intros _ s3 Hs3. eexists.
    apply files_setup; [done|done| |exact Hs3]. rewrite (fds_insert _ _ _ None) by done. unfold one.
    rewrite decide_False, decide_True by done. specialize (Ho f). lia.
Qed.

Lemma good_sys_open : good (sys_open devsw KMEM END L).
Proof.
  unfold sys_open. apply good_bind; [apply good_still; handler|]. intros [[? path]|]; (apply good_bind; [apply good_still; handler|]); intros [omode|];
    first [apply good_open|apply good_still; handler].
Qed.

(** Both references [pipealloc] gave are returned. *)
Lemma safe_close_both o ofs r w :
  (forall f, 0 <= o f) -> (r < NFILE)%nat -> (w < NFILE)%nat ->
  safe (files_ok (bump w 1 (bump r 1 o)) [] ofs) (fileclose KMEM END r ;;; fileclose KMEM END w ;;; ret (-1)) (fun _ => ok o).
Proof.
  intros Ho Hr Hw. pose proof (Ho r). pose proof (Ho w).
  eapply safe_bind; [apply safe_fileclose; [done|unfold bump; repeat case_decide; subst; lia]|]. intros a.
  eapply safe_bind; [apply safe_fileclose; [done|unfold bump; repeat case_decide; subst; lia]|]. intros b.
  intros s Hs. exists ofs. eapply files_ext; [|exact Hs]. intros g. unfold bump. repeat case_decide; lia.
Qed.

Lemma good_sys_pipe : good (sys_pipe (S := S) KMEM END).
Proof.
  apply good_files. intros o ofs Ho. unfold sys_pipe. apply safe_still; [handler|]. intros [fd|]; [|apply safe_ok].
  eapply safe_bind; [by apply safe_pipealloc|]. intros [[r w]|]; [|apply safe_ok]. intros s (Hr & Hw & Htr & Htw & Hs).
  unfold opened in Htr, Htw. remember (ftab s) as t eqn:Et. symmetry in Et.
  pose proof (safe_fdalloc _ [] ofs r t Hr ltac:(right; by rewrite Htr) s (conj Hs Et)) as Ha.
  unfold bind at 1. destruct (fdalloc r s) as [z s1| |]; [|done..].
  destruct Ha as [(-> & Hs1 & _)|(i & -> & Hi & Hs1 & Et1)]; [by apply (safe_close_both o ofs r w)|].
  replace (Z.of_nat i <? 0) with false by lia.
  pose proof (safe_fdalloc _ [] _ w t Hw ltac:(right; by rewrite Htw) s1 (conj Hs1 Et1)) as Hb.
  unfold bind at 1. destruct (fdalloc w s1) as [z s2| |]; [|done..].
  destruct Hb as [(-> & Hs2 & _)|(j & -> & Hj & Hs2 & _)].
  - change (-1 <? 0) with true. cbv iota. rewrite Nat2Z.id. unfold bind at 1.
    destruct (set_ofile i None s2) as [[] s3| |] eqn:E3; [|done..].
    apply (safe_close_both o (<[i := None]> (<[i := Some r]> ofs)) r w); [done..|].
    eapply files_ext; [|eapply (files_set_ofile _ _ _ _ (Some r) None); [|done|exact E3|exact Hs2]].
    + intros g. unfold bump, one. rewrite (decide_False (P := None = _)) by done. repeat case_decide; simplify_eq; lia.
    + apply list_lookup_insert_eq. by eapply lookup_lt_Some.
  - replace (Z.of_nat j <? 0) with false by lia. apply (files_ext _ o) in Hs2.
    + rewrite bind_modify. eexists. eapply (files_frame o [] _ s2); [..|exact Hs2]; done.
    + intros g. unfold bump. repeat case_decide; lia.
Qed.

(** *** The accounts *)

Lemma still_set_lt off v : still (set_lt (S := S) L off v).
Proof. apply still_umem. Qed.
#[local] Hint Resolve still_set_lt : preserve.
#[local] Hint Unfold set_lt_fd set_lt_f string_at : syscalls.

(** The end of [loadUsers] and [flushUsers]. *)
Lemma safe_close_passwd {A} o ofs fd f (a : A) :
  ofs !! Z.to_nat fd = Some (Some f) -> 0 <= o f ->
  safe (files_ok o [] ofs) (set_ofile (Z.to_nat fd) None ;;; fileclose KMEM END f ;;; set_lt_fd L 0 ;;; set_lt_f L None ;;; ret a) (fun _ => ok o).
Proof.
  intros Hf Ho s Hs. rewrite <- bind_assoc. revert s Hs. eapply safe_bind; [by apply safe_release|]. intros ?.
  apply safe_still; [handler|]. intros ?. apply safe_still; [handler|]. intros ?. apply safe_ok.
Qed.

Lemma good_loadUsers : good (loadUsers devsw KMEM END L).
Proof.
  unfold loadUsers. apply good_bind; [apply good_still; handler|]. intros ?.
  apply good_bind; [apply good_open|]. intros fd. apply good_files. intros o ofs Ho.
  apply safe_still; [handler|]. intros ?. destruct (fd <? 0); [apply safe_panic; not_a_file_panic|].
  apply safe_getfilebyfd; [apply safe_panic; not_a_file_panic|]. intros f Hf. apply safe_still; [handler|]. intros ?.
  eapply safe_bind; [eauto using safe_fileread|]. intros r. apply safe_still; [handler|]. intros ?. apply safe_still; [handler|]. intros ?.
  destruct (r.1 <? 0); [apply safe_panic; not_a_file_panic|].
  pose proof (safe_close_passwd o ofs fd f () Hf (Ho f)) as H. intros s Hs. specialize (H s Hs). revert H.
  unfold set_lt_f, set_lt. unfold bind, modify, ret. by repeat case_match.
Qed.

Lemma safe_rewind o ofs f :
  Some f ∈ ofs -> safe (files_ok o [] ofs) (modify (updf f (set_foff 0))) (fun _ => files_ok o [] ofs).
Proof. intros Hf s Hs. apply files_updf; [by apply (fk_range _ _ _ _ Hs)|done|done]. Qed.

Lemma safe_flush_writes n f i o ofs :
  Some f ∈ ofs -> safe (files_ok o [] ofs) (flushUsers_writes devsw L n f i) (fun _ => files_ok o [] ofs).
Proof.
  intros Hf. revert i. induction n as [|n IH]; intros i; cbn [flushUsers_writes]; [by intros s|].
  apply safe_still; [still|]. intros k. apply safe_still; [still|]. intros s0.
  eapply safe_bind; [by apply safe_filewrite|]. intros r. apply IH.
Qed.

Lemma good_flushUsers : good (flushUsers devsw KMEM END L).
Proof.
  unfold flushUsers. apply good_bind; [apply good_still; handler|]. intros ?.
  apply good_bind; [apply good_open|]. intros fd. apply good_files. intros o ofs Ho.
  apply safe_still; [handler|]. intros ?. destruct (fd <? 0); [apply safe_ok|].
  apply safe_getfilebyfd; [apply safe_ok|]. intros f Hf. do 3 (apply safe_still; [handler|]; intros ?).
  do 2 (apply safe_still; [handler|]; intros ?). destruct (_ <? 0); [apply safe_ok|].
  do 2 (apply safe_still; [handler|]; intros ?). eapply safe_bind; [eauto using safe_rewind|].
  intros ?. apply safe_still; [still|]. intros s0. eapply safe_bind; [eauto using safe_flush_writes|]. intros ?.
  by apply safe_close_passwd.
Qed.

Lemma good_deleteUser u : good (deleteUser devsw KMEM END L u).
Proof.
  unfold deleteUser. apply good_bind; [apply good_still; still|]. intros r. destruct (r <? 0); [apply good_still; still|].
  apply good_bind; [apply good_flushUsers|]. intros. apply good_still. still.
Qed.

Lemma good_addUser u p : good (addUser devsw KMEM END L u p).
Proof.
  unfold addUser. apply good_bind; [apply good_still; still|]. intros r. destruct (r <? 0); [apply good_still; still|].
  apply good_bind; [apply good_flushUsers|]. intros r'. destruct (r' <? 0); [apply good_still; still|]. apply good_still. handler.
Qed.

Lemma good_sys_lbegin : good (sys_lbegin devsw KMEM END L).
Proof.
  unfold sys_lbegin. apply good_bind; [apply good_loadUsers|]. intros ?. apply good_bind; [apply good_still; still|]. intros s0.
  apply good_bind; [|intros; apply good_still; handler]. destruct (_ =? 0); unfold when; [|apply good_still; still].
  apply good_bind; [apply good_addUser|]. intros. apply good_still. still.
Qed.

Lemma good_sys_addUser : good (sys_addUser devsw KMEM END L).
Proof.
  unfold sys_addUser. do 2 (apply good_bind; [apply good_still; handler|]; intros ?). do 2 (case_match; [case_match|by apply good_still; handler]).
  apply good_bind; [apply good_still; still|]. intros. case_match; [apply good_still; still|]. apply good_addUser.
Qed.

Lemma good_sys_deleteUser : good (sys_deleteUser devsw KMEM END L).
Proof.
  unfold sys_deleteUser. apply good_bind; [apply good_still; handler|]. intros [[]|]; [|apply good_still; handler].
  apply good_bind; [apply good_still; still|]. intros. case_match; [apply good_still; still|]. apply good_deleteUser.
Qed.

(** The calls of sysfile.c. *)
Definition file_syscalls : list (M T Z) :=
  [sys_dup; sys_read devsw; sys_write devsw; sys_close KMEM END; sys_fstat; sys_link devsw L; sys_unlink devsw L;
   sys_open devsw KMEM END L; sys_mkdir devsw L; sys_mknod devsw L; sys_chdir devsw L; sys_pipe KMEM END;
   sys_lbegin devsw KMEM END L; sys_addUser devsw KMEM END L; sys_deleteUser devsw KMEM END L; sys_login L;
   sys_whoami L; sys_chmod devsw L].

Lemma file_syscalls_good : Forall good file_syscalls.
Proof.
  repeat apply Forall_cons_2; [..|apply Forall_nil_2];
    first [apply good_sys_dup|apply good_sys_read|apply good_sys_write|apply good_sys_close|apply good_sys_open|apply good_sys_pipe
      |apply good_sys_lbegin|apply good_sys_addUser|apply good_sys_deleteUser|apply good_still];
    first [apply still_sys_fstat|apply still_sys_link|apply still_sys_unlink|apply still_sys_mkdir|apply still_sys_mknod
      |apply still_sys_chdir|apply still_sys_login|apply still_sys_whoami|apply still_sys_chmod].
Qed.

(** C21: the open file table stays well formed.  Let the references to each open
    file be its descriptors in the calling process and [others], free entries be
    free, each pipe have exactly the ends that are open, each in one entry, and
    the pages of pipes not be on the free list.  Then every system call of
    sysfile.c, whether it succeeds or fails, leaves it so; and none runs into
    the panics of filedup, fileclose, fileread, filewrite or kfree. *)
Theorem open_files_invariant h others s :
  h ∈ file_syscalls -> (forall f, 0 <= others f) -> ok others s ->
  match h s with Ret _ s' => ok others s' | Panic msg => msg ∉ FILE_PANICS | Blocked _ => True end.
Proof. intros Hh Ho Hs. exact (proj1 (Forall_forall _ _) file_syscalls_good h Hh others Ho s Hs). Qed.
End refs.

(** A process with two descriptors for one open file. *)
Definition demo_devsw (mj : Z) : dev_ops (S := bcache) := mkDev None None.
Definition demo_layout : layout := mkLayout 5000 6000 6010 6100 6200 6300 7000 7100 8000.
Definition free_file : file := mkFile FD_NONE 0 0 0 0 0 0.
Definition demo_files : sst bcache :=
  mkSst (mkFs (mkSuperblock 1000 941 200 30 2 32 58) (replicate NINODE inhabitant)
          (mkLog 2 30 0 0 0 (replicate 30 0) (boot_cache (fun _ => []) 0)) ∅)
    (mkFile FD_INODE 2 1 1 0 0 0 :: replicate 99 free_file) ∅
    (mkKmem ∅ (mkLockst 1 (mkCpu 0 false false) ∅ ∅ 0) 1 0)
    (mkSproc 3 0 0 (Some 0%nat :: Some 0%nat :: replicate 14 None) (mkUproc 1000 100)).

Lemma demo_files_ok : ok 1 KERNBASE (fun _ => 0) demo_files.
Proof.
  exists (Some 0%nat :: Some 0%nat :: replicate 14 None).
  assert (forall f, opened demo_files (Datatypes.S f) = free_file) as Hfree.
  { intros f. unfold opened, demo_files. cbn [ftab]. change ((replicate 99 free_file) !!! f = free_file).
    rewrite list_lookup_total_alt. destruct (_ !! f) eqn:E; [|done]. by apply lookup_replicate in E as [-> _]. }
  split; try done.
  - intros f. rewrite !elem_of_cons, elem_of_replicate. intros [[= ->]|[[= ->]|[? _]]]; [unfold NFILE; lia..|done].
  - intros [|f] Hf; [done|]. rewrite Hfree. done.
  - intros [|f] Hf; [done|]. by rewrite Hfree.
  - intros f. rewrite !elem_of_cons, elem_of_replicate. intros [[= ->]|[[= ->]|[? _]]]; [by right..|done].
  - by intros f ?%elem_of_nil.
  - assert (forall a w f, ~ pipe_end demo_files a w f) as Hno.
    { intros a w [|f] (_ & Ht & _); [done|]. by rewrite Hfree in Ht. }
    split; try done; [by intros a w f Hf; destruct (Hno a w f)|by intros a w f g Hf; destruct (Hno a w f)|]. exists []. split; [|done].
    split_and!; [done|constructor|constructor|]. unfold unlocked, cpu_ok. simpl. repeat split; lia || done.
Qed.

Lemma open_files_invariant_witness :
  returns (sys_dup demo_files) = true /\
  match sys_dup demo_files with Ret _ s' => ok 1 KERNBASE (fun _ => 0) s' | Panic msg => msg ∉ FILE_PANICS | Blocked _ => True end.
Proof.
  split; [vm_compute; done|].
  apply (open_files_invariant (BlockCache0 := bio_cache 3) 1 KERNBASE (Z.le_refl _) demo_devsw ltac:(done) demo_layout sys_dup (fun _ => 0) demo_files).
  - by left.
  - done.
  - apply demo_files_ok.
Defined.
