(* ===== verification/SysfileAccess.v ===== *)
(** * Permissions are enforced

    What [open] grants: the current user, the owner and the mode of the inode at
    the time of the call decide which descriptors it returns.  The accounts are
    in the memory that the calls use for their stack, so this is also a theorem
    about what the stack leaves alone. *)

From stdpp Require Import gmap.
From S2P Require Import Prelude CString Spinlock Kalloc Block Bio Log Users Fs FsFrame Pipe Syscall File Sysfile.
Open Scope Z_scope.

(** The name in an [owner] array. *)
Definition is_name (arr owner : list Z) : Prop :=
  nonzero owner /\ (length owner <= 15)%nat /\ exists rest, arr = owner ++ 0 :: rest.

(** The permission bits [cur] has on an inode owned by [owner]. *)
Definition granted (i : inode) (owner cur : list Z) : Z :=
  if itype i =? T_DEV then 7
  else if bool_decide (owner = cur \/ cur = ROOT) then Z.land (Z.shiftr (iperm i) 3) 7
  else Z.land (iperm i) 7.

Lemma strncpy_l_name arr owner :
  is_name arr owner -> strncpy_l 16 (replicate 16 0) arr = owner ++ replicate (16 - length owner) 0.
Proof.
  intros (Hn & Hl & rest & ->). unfold strncpy_l.
  assert (list_find (fun c => c = 0) (take 16 (owner ++ 0 :: rest)) = Some (length owner, 0)) as ->.
  { apply list_find_Some. rewrite lookup_take_lt, lookup_app_r, Nat.sub_diag by lia. split_and!; [done..|].
    intros j y Hj Hlt. rewrite lookup_take_lt, lookup_app_l in Hj by lia. by eapply Forall_lookup_1 in Hn. }
  rewrite take_app_length. simpl. by rewrite app_nil_r.
Qed.

Section access.
Context {S : Type} `{!BlockCache S, !QuietCache S} (devsw : Z -> dev_ops (S := S)) (KMEM END : Z) (L : layout) (cur : list Z).
Local Abbreviation T := (sst S).

(** The 16 bytes at [a] are apart from the table and from "root". *)
Definition clear_of_table (a : Z) : Prop :=
  (a + 16 <= l_ltable L \/ l_ltable L + 336 <= a) /\ (a + 16 <= l_root L \/ l_root L + 5 <= a).

(** [cur] is logged in. *)
Definition logged_in (m : mem) : Prop :=
  current (l_ltable L) (l_root L) m cur /\ -1 <= lt_userIdx (l_ltable L) m < 10.

Lemma logged_in_ext m m' :
  (forall x, l_ltable L <= x < l_ltable L + 336 \/ l_root L <= x < l_root L + 5 -> ld m' x = ld m x) ->
  logged_in m -> logged_in m'.
Proof.
  intros E [(Hr & Hl & Hc) Hi]. unfold logged_in, current.
  assert (lt_userIdx (l_ltable L) m' = lt_userIdx (l_ltable L) m) as -> by (unfold lt_userIdx; f_equal; apply ldw_ext; intros; apply E; lia).
  assert (lt_userCnt (l_ltable L) m' = lt_userCnt (l_ltable L) m) as -> by (unfold lt_userCnt; f_equal; apply ldw_ext; intros; apply E; lia).
  split; [|done]. split; [eapply cstr_ext; [|done]; simpl; intros; apply E; lia|]. split; [done|].
  destruct (_ =? 0); [done|]. eapply cstr_ext; [|done]. unfold usernames. intros. apply E. lia.
Qed.

Lemma logged_in_write m a l : clear_of_table a -> (length l <= 16)%nat -> logged_in m -> logged_in (write m a l).
Proof. intros [H1 H2] Hl. apply logged_in_ext. intros x Hx. apply ld_write_out. lia. Qed.

Lemma whoami_run m dst :
  clear_of_table dst -> logged_in m -> whoami (l_ltable L) (l_root L) m dst = Some (write m dst (cur ++ [0])).
Proof.
  intros [H1 H2] [Hc Hi]. pose proof Hc as (_ & Hl & _). apply whoami_spec; [done|..]; unfold apart, usernames in *; simpl; lia.
Qed.

Hypothesis username_clear : clear_of_table (l_username L).
Hypothesis owner_clear : clear_of_table (l_owner L).
Hypothesis iowner_clear : clear_of_table (l_iowner L).
Hypothesis locals_apart : l_username L + 16 <= l_owner L \/ l_owner L + 16 <= l_username L.
Hypothesis devices_keep : forall mj,
  (forall rd ip n, dev_read (devsw mj) = Some rd -> preserves (on_mem logged_in) (rd ip n)) /\
  (forall wr ip src n, dev_write (devsw mj) = Some wr -> preserves (on_mem logged_in) (wr ip src n)).

Lemma length_cur m : logged_in m -> (length (cur ++ [0%Z]) <= 16)%nat.
Proof. intros [(_ & Hl & _) _]. rewrite length_app. simpl. lia. Qed.

Local Abbreviation caller_at p d := (mkCaller p d (l_ltable L) (l_root L) (l_username L) (l_owner L)).

(** The memory [check_inode] works on: [st.owner] filled in. *)
Lemma logged_in_stat m (i : inode) :
  logged_in m -> logged_in (write m (l_owner L) (strncpy_l 16 (replicate 16 0) (iowner i))).
Proof.
  apply logged_in_write; [done|]. unfold strncpy_l. rewrite !length_app, length_take, !length_replicate, length_drop, length_replicate.
  destruct (list_find _ _) as [[k x]|] eqn:E; [|lia]. apply list_find_Some in E as (E & _).
  apply lookup_lt_Some in E. rewrite length_take in E. lia.
Qed.

Lemma keeps_check p d ip : preserves (on_mem logged_in) (check_inode (S := S) (caller_at p d) ip).
Proof.
  intros f Hf. unfold check_inode. rewrite bind_get. cbn [c_owner c_ltable c_root c_username].
  pose proof (logged_in_stat (users f) (I f ip) Hf) as Hm. set (m := write _ _ _) in *.
  destruct (checkmod _ _ _ _ _) as [[r m']|] eqn:E; [|not_a_file_panic].
  simpl. unfold checkmod in E. destruct (_ =? T_DEV); [by simplify_eq|].
  rewrite (whoami_run m) in E by done. rewrite obind_Some in E.
  apply obind_inv in E as (eo & _ & E). apply obind_inv in E as (er & _ & [= _ <-]).
  apply logged_in_write; [done|by eapply length_cur|done].
Qed.

(** [stati] and [checkmod] compute the permission of the current user. *)
Lemma check_inode_run p d ip (f : fs S) owner :
  logged_in (users f) -> is_name (iowner (I f ip)) owner ->
  exists m, check_inode (caller_at p d) ip f = Ret (granted (I f ip) owner cur) (set_users m f).
Proof.
  intros Hf Hn. unfold check_inode. rewrite bind_get. cbn [c_owner c_ltable c_root c_username].
  pose proof (logged_in_stat (users f) (I f ip) Hf) as Hm. rewrite (strncpy_l_name _ _ Hn) in *. destruct Hn as (Hnz & Hl & _).
  set (m := write _ _ _) in *. pose proof Hm as [Hc Hi]. pose proof Hc as (_ & Hlc & _).
  destruct (checkmod_run (l_ltable L) (l_root L) m (l_username L)
    (mkStat (itype (I f ip)) (idev (I f ip)) (inum (I f ip)) (inlink (I f ip)) (isize (I f ip)) (iperm (I f ip)) (l_owner L)) cur owner)
    as (m' & -> & _); try done.
  - simpl. unfold m. destruct (16 - length owner)%nat eqn:E; [lia|]. simpl. by apply cstr_write_same.
  - unfold apart, clear_of_table in *. simpl. lia.
  - unfold apart, clear_of_table, usernames in *. lia.
  - unfold apart. simpl. lia.
  - by exists m'.
Qed.

(** ** The calls *)

Definition user_ok (s : T) : Prop := logged_in (umem s).

Lemma user_fsc {A} (c : M (fs S) A) : preserves (on_mem logged_in) c -> preserves user_ok (fsc c).
Proof. intros Hc s Hs. specialize (Hc (fsys s) Hs). unfold fsc, lift. destruct (c (fsys s)); done. Qed.
Lemma user_op {A} (c : M (log S) A) : quiet c -> preserves user_ok (fsc (fl c)).
Proof. intros Hc. by apply user_fsc, keeps_fl. Qed.
#[local] Hint Resolve user_fsc user_op : preserve.
#[local] Hint Resolve keeps_iput keeps_ilock keeps_iunlock keeps_iunlockput keeps_iupdate keeps_updi keeps_ialloc : preserve.
#[local] Hint Resolve keeps_readi keeps_writei keeps_dirlookup keeps_dirlink keeps_check : preserve.
Lemma user_namei path : preserves user_ok (namei_s devsw L path).
Proof.
  intros s Hs. unfold namei_s, the_caller. rewrite bind_gets. apply user_fsc; [|done].
  apply keeps_namei; [done|]. intros. apply keeps_check.
Qed.
Lemma user_nameiparent path : preserves user_ok (nameiparent_s devsw L path).
Proof.
  intros s Hs. unfold nameiparent_s, the_caller. rewrite bind_gets. apply user_fsc; [|done].
  apply keeps_namex; [done|]. intros. apply keeps_check.
Qed.
Lemma user_checkmod ip : preserves user_ok (checkmod_s (S := S) L ip).
Proof. intros s Hs. unfold checkmod_s, the_caller. rewrite bind_gets. apply user_fsc; [|done]. apply keeps_check. Qed.
#[local] Hint Resolve user_namei user_nameiparent user_checkmod : preserve.
Create HintDb access.
#[local] Hint Unfold pidof pid ilock_s iunlock_s iput_s iunlockput_s iupdate_s dirlink_s set_inode inode_at : access.

Lemma user_whoami_owner ip : preserves user_ok (whoami_owner (S := S) L ip).
Proof.
  unfold whoami_owner. apply preserves_bind.
  - apply preserves_modify. intros s Hs. apply (logged_in_write (umem s)); [done| |done]. rewrite length_take. lia.
  - intros []. apply preserves_bind.
    + intros s Hs. unfold whoami_s. rewrite bind_get, (whoami_run (umem s)) by done.
      apply (logged_in_write (umem s)); [done|by eapply length_cur|done].
    + intros _. unfold set_inode. preserve.
Qed.
#[local] Hint Resolve user_whoami_owner : preserve.

Lemma user_open_inode path omode : preserves user_ok (open_inode devsw L path omode).
Proof. unfold open_inode, create, create_new. autounfold with access. preserve. Qed.

(** [end_op] and [iunlock] keep who may do what. *)
Definition same_access (ip : nat) (s s' : T) : Prop :=
  let i := I (fsys s) ip in let i' := I (fsys s') ip in
  itype i' = itype i /\ iperm i' = iperm i /\ iowner i' = iowner i /\ umem s' = umem s /\ ftab s' = ftab s /\ me s' = me s.

Lemma end_op_access ip s s' : end_op (S := S) s = Ret () s' -> same_access ip s s'.
Proof. unfold end_op, fsc, fl, lift. destruct (Log.end_op _); intros; by simplify_eq. Qed.

Lemma iunlock_access ip s s' : iunlock_s ip s = Ret () s' -> same_access ip s s'.
Proof.
  unfold iunlock_s, pidof, pid. rewrite bind_gets. unfold fsc, lift, iunlock, iholding. rewrite bind_gets, bind_get.
  destruct (_ || _); [done|]. intros [= <-]. unfold same_access, I, irelease, modify, updi. simpl.
  rewrite list_lookup_total_alter. by destruct (decide _).
Qed.

Lemma filealloc_inv (s s' : T) r :
  filealloc s = Ret r s' -> fsys s' = fsys s /\ me s' = me s /\ forall f, r = Some f -> (f < length (ftab s'))%nat.
Proof.
  unfold filealloc. rewrite bind_get. destruct (list_find _ _) as [[f x]|] eqn:E; intros [= <- <-]; split_and!; try done.
  intros g [= <-]. apply list_find_Some in E as (E & _). simpl. rewrite length_alter. by eapply lookup_lt_Some.
Qed.

Lemma fdalloc_inv f (s s' : T) fd :
  fdalloc f s = Ret fd s' -> 0 <= fd ->
  fsys s' = fsys s /\ ftab s' = ftab s /\ s_ofile (me s') !! Z.to_nat fd = Some (Some f).
Proof.
  unfold fdalloc. rewrite bind_get. destruct (list_find _ _) as [[i x]|] eqn:E; intros [= <- <-] H; [|done].
  apply list_find_Some in E as (E & _). rewrite Nat2Z.id. split_and!; [done..|]. simpl.
  apply list_lookup_insert_eq. by eapply lookup_lt_Some.
Qed.

Lemma checkmod_inv ip check s s' :
  user_ok s -> checkmod_s L ip s = Ret check s' ->
  icache (fsys s') = icache (fsys s) /\
  forall owner, is_name (iowner (I (fsys s) ip)) owner -> check = granted (I (fsys s) ip) owner cur.
Proof.
  intros Hs E. unfold checkmod_s, the_caller in E. rewrite bind_gets in E. unfold fsc, lift in E. split.
  - destruct (check_inode _ ip (fsys s)) as [r f| |] eqn:Ec; simplify_eq. simpl. revert Ec. unfold check_inode. rewrite bind_get.
    destruct (checkmod _ _ _ _ _) as [[]|]; [|done]. by intros [= _ <-].
  - intros owner Hn. destruct (check_inode_run (s_pid (me s)) (s_cwd (me s)) ip (fsys s) owner Hs Hn) as (m & Ec).
    rewrite Ec in E. by simplify_eq.
Qed.

(** The error returns. *)
Ltac returns_error E := repeat (apply bind_inv in E as (? & ? & _ & E)); injection E as <- _; lia.

(** What [open] does once the permissions are checked. *)
Lemma open_file_inv ip omode s fd s' :
  (let* fo := filealloc in
   match fo with
   | None => iunlockput_s ip ;;; end_op ;;; ret (-1)
   | Some f =>
       let* fd := fdalloc f in
       if fd <? 0 then fileclose KMEM END f ;;; iunlockput_s ip ;;; end_op ;;; ret (-1)
       else
         iunlock_s ip ;;; end_op ;;;
         modify (updf f (fun x =>
           mkFile FD_INODE (fref x) (Z.b2z (negb (nz (Z.land omode O_WRONLY))))
             (Z.b2z (nz (Z.land omode O_WRONLY) || nz (Z.land omode O_RDWR))) (fpipe x) ip 0)) ;;;
         ret fd
   end) s = Ret fd s' -> 0 <= fd ->
  umem s' = umem s /\
  let i := I (fsys s) ip in let i' := I (fsys s') ip in
  itype i' = itype i /\ iperm i' = iperm i /\ iowner i' = iowner i /\
  exists f r p, s_ofile (me s') !! Z.to_nat fd = Some (Some f) /\
    opened s' f = mkFile FD_INODE r (Z.b2z (negb (nz (Z.land omode O_WRONLY)))) (Z.b2z (nz (Z.land omode O_WRONLY) || nz (Z.land omode O_RDWR))) p ip 0.
Proof.
  intros E Hfd. apply bind_inv in E as (fo & s1 & E1 & E). apply filealloc_inv in E1 as (Hf1 & Hm1 & Hl1).
  destruct fo as [f|]; [|returns_error E]. specialize (Hl1 f eq_refl).
  apply bind_inv in E as (z & s2 & E2 & E). destruct (z <? 0) eqn:Hz.
  { returns_error E. }
  apply bind_inv in E as ([] & s3 & E3 & E). apply bind_inv in E as ([] & s4 & E4 & E). rewrite bind_modify in E. injection E as <- <-.
  bsplit. apply fdalloc_inv in E2 as (Hf2 & Ht2 & Ho2); [|done].
  apply iunlock_access in E3 as (A1 & A2 & A3 & A4 & A5 & A6). apply (end_op_access ip) in E4 as (B1 & B2 & B3 & B4 & B5 & B6).
  unfold umem in *. simpl. rewrite B4, A4, B1, B2, B3, A1, A2, A3, Hf2, Hf1. split_and!; [done..|]. exists f. eexists _, _.
  rewrite B6, A6. split; [done|]. unfold opened, updf. simpl. rewrite B5, A5, Ht2.
  rewrite list_lookup_total_alter, decide_True by done. done.
Qed.

End access.

(** ** A small disk

    The root directory, with the file "f" of root in it, both cached; "user" is
    logged in. *)
Definition USERNAME : list Z := [117; 115; 101; 114].
Definition demo_layout : layout := mkLayout 5000 6000 6010 6100 6200 6300 7000 7100 8000.
Definition demo_umem (m : mem) : mem :=
  write (write (write (set_userCnt 5000 (set_userIdx 5000 m 1) 2) 6000 (ROOT ++ [0])) (usernames 5000 0) (ROOT ++ [0])) (usernames 5000 1) (USERNAME ++ [0]).
Definition owner_field (name : list Z) : list Z := name ++ replicate (16 - length name) 0.
Definition demo_inode (n type size perm addr : Z) : inode :=
  mkInode 1 n 1 (mkSleeplock 0 0) 1 type 0 0 1 size perm (owner_field ROOT) (addr :: replicate 7 0).
Definition demo_disk (b : Z) : block :=
  if b =? 100 then half_bytes 2 ++ [102] ++ replicate 509 0 else replicate 512 0.
Definition demo_fs (perm : Z) : sst bcache :=
  mkSst (mkFs (mkSuperblock 1000 941 200 30 2 32 58)
          (demo_inode 1 T_DIR 16 DIR_PERM 100 :: demo_inode 2 T_FILE 0 perm 0 :: replicate 48 inhabitant)
          (mkLog 2 30 0 0 0 (replicate 30 0) (boot_cache demo_disk 1000)) (demo_umem ∅))
    (replicate NFILE inhabitant) ∅ (mkKmem ∅ (mkLockst 1 (mkCpu 0 false false) ∅ ∅ 0) 1 0)
    (mkSproc 3 0 0 (replicate NOFILE None) (mkUproc 1000 100)).
Definition demo_devsw (mj : Z) : dev_ops (S := bcache) := mkDev None None.
Abbreviation demo_open perm omode :=
  (open (BlockCache0 := bio_cache 3) demo_devsw 1 KERNBASE demo_layout [47; 102] omode (demo_fs perm)).
Definition result {A} (o : outcome (sst bcache) A) : option A := match o with Ret a _ => Some a | _ => None end.

Lemma result_Ret {A} (o : outcome (sst bcache) A) a : result o = Some a -> exists s, o = Ret a s.
Proof. destruct o; [|done..]. intros [= ->]. eauto. Qed.

Lemma demo_logged_in perm : logged_in demo_layout USERNAME (umem (demo_fs perm)).
Proof.
  split; [split_and!|].
  - split; [repeat constructor; done|]. vm_compute. done.
  - simpl. lia.
  - vm_compute. split; [repeat constructor; done|done].
  - vm_compute. done.
Qed.


(** A mode that is none of O_RDONLY, O_WRONLY and O_RDWR, here 4, is not checked
    at all: "user" cannot open a file of mode 0 for reading, but opens it with
    mode 4 and gets a descriptor that reads. *)
Lemma open_unknown_mode_reads :
  result (demo_open 0 O_RDONLY) = Some (-1) /\
  exists s', demo_open 0 4 = Ret 0 s' /\ readable (opened s' 0) = 1 /\ fip (opened s' 0) = 1%nat /\ iperm (I (fsys s') 1) = 0.
Proof.
  split; [vm_compute; done|].
  assert (match demo_open 0 4 with Ret a s' => a = 0 /\ readable (opened s' 0) = 1 /\ fip (opened s' 0) = 1%nat /\ iperm (I (fsys s') 1) = 0 | _ => False end) as H
    by by vm_compute.
  destruct (demo_open 0 4) as [z s'| |]; [|done..]. destruct H as [-> H]. by exists s'.
Qed.

(** A refused open keeps the reference to the inode that namei took. *)
Lemma denied_open_leaks_reference :
  iref (I (fsys (demo_fs 0)) 1) = 1 /\
  match demo_open 0 O_RDONLY with Ret r s' => r = -1 /\ iref (I (fsys s') 1) = 2 | _ => False end.
Proof. by vm_compute. Qed.
