(* ===== verification/Filters.v ===== *)
(** * The text filters grep and wc

    grep.c and wc.c.  A C string is the list of its bytes before the NUL, so a
    pointer into it is a suffix of the list and [*p] of the empty suffix is the
    NUL.  What read() hands out is an argument: it gets the file that is left and
    the number of bytes asked for, and gives the bytes read and the rest. *)

From S2P Require Import Prelude.
Open Scope Z_scope.

(** The first byte of a string. *)
Definition peek (s : list Z) : Z := match s with [] => 0 | c :: _ => c end.

Module Grep.

Definition NL : Z := 10.
Definition STAR : Z := 42.
Definition DOT : Z := 46.
Definition DOLLAR : Z := 36.
Definition CARET : Z := 94.

(** [matchstar], given [matchhere] on the rest of the pattern. *)
Fixpoint matchstar (matchhere_re : list Z -> bool) (c : Z) (text : list Z) : bool :=
  if matchhere_re text then true
  else match text with
       | [] => false
       | t :: text' => if (t =? c) || (c =? DOT) then matchstar matchhere_re c text' else false
       end.

Fixpoint matchhere (re text : list Z) {struct re} : bool :=
  match re with
  | [] => true
  | c :: re1 =>
      let rest :=
        if (c =? DOLLAR) && (peek re1 =? 0) then peek text =? 0
        else match text with
             | [] => false
             | t :: text' => if (c =? DOT) || (c =? t) then matchhere re1 text' else false
             end in
      match re1 with
      | d :: re2 => if d =? STAR then matchstar (matchhere re2) c text else rest
      | [] => rest
      end
  end.

(** The loop of [match] over the suffixes of the text. *)
Fixpoint match_from (re text : list Z) : bool :=
  if matchhere re text then true
  else match text with [] => false | _ :: text' => match_from re text' end.

Definition match_ (re text : list Z) : bool :=
  match re with
  | c :: re' => if c =? CARET then matchhere re' text else match_from re text
  | [] => match_from re text
  end.

(** [strchr(p, '\n')]: the bytes before the newline and those after it. *)
Fixpoint split_nl (p : list Z) : option (list Z * list Z) :=
  match p with
  | [] => None
  | c :: p' =>
      if c =? 0 then None
      else if c =? NL then Some ([], p')
      else match split_nl p' with Some (l, r) => Some (c :: l, r) | None => None end
  end.

(** The inner loop of [grep], at most one turn per byte: what it prints, and
    the bytes from [p] on that are left. *)
Fixpoint print_lines (fuel : nat) (pattern p : list Z) : list Z * list Z :=
  match fuel with
  | O => ([], p)
  | S fuel =>
      match split_nl p with
      | None => ([], p)
      | Some (line, rest) =>
          let out := if match_ pattern line then line ++ [NL] else [] in
          let r := print_lines fuel pattern rest in
          (out ++ r.1, r.2)
      end
  end.

Section grep.
Context {file : Type} (read : file -> nat -> list Z * file).

Definition BUF : nat := 1024.

(** The loop of [grep]: [buf] holds the [m] bytes kept from the last turn.  The
    result is the output, or [None] when the turns run out. *)
Fixpoint grep (fuel : nat) (pattern buf : list Z) (fd : file) : option (list Z) :=
  match fuel with
  | O => None
  | S fuel =>
      let r := read fd (BUF - length buf - 1) in
      if (0 <? length r.1)%nat then
        let b := buf ++ r.1 in
        let pr := print_lines (length b) pattern b in
        let kept := if (length pr.2 =? length b)%nat then [] else pr.2 in
        match grep fuel pattern kept r.2 with
        | Some out => Some (pr.1 ++ out)
        | None => None
        end
      else Some []
  end.
End grep.

(** ** Regular expressions *)

Inductive atom := Any | Chr (c : Z).
Inductive item := One (a : atom) | Star (a : atom).

Definition in_atom (a : atom) (t : Z) : Prop := match a with Any => True | Chr c => t = c end.

(** The strings a list of items stands for. *)
Inductive lang : list item -> list Z -> Prop :=
| lang_nil : lang [] []
| lang_one a r t s : in_atom a t -> lang r s -> lang (One a :: r) (t :: s)
| lang_star_stop a r s : lang r s -> lang (Star a :: r) s
| lang_star_more a r t s : in_atom a t -> lang (Star a :: r) s -> lang (Star a :: r) (t :: s).

(** A pattern: anchored at the start, items, anchored at the end. *)
Record regexp := mkRegexp { at_start : bool; items : list item; at_end : bool }.

Definition atom_of (c : Z) : atom := if c =? DOT then Any else Chr c.
Fixpoint parse_items (re : list Z) : list item * bool :=
  match re with
  | [] => ([], false)
  | c :: re1 =>
      let plain :=
        if (c =? DOLLAR) && bool_decide (re1 = []) then ([], true)
        else let r := parse_items re1 in (One (atom_of c) :: r.1, r.2) in
      match re1 with
      | d :: re2 => if d =? STAR then let r := parse_items re2 in (Star (atom_of c) :: r.1, r.2) else plain
      | [] => plain
      end
  end.
Definition parse (re : list Z) : regexp :=
  match re with
  | c :: re' => if c =? CARET then let r := parse_items re' in mkRegexp true r.1 r.2
                else let r := parse_items re in mkRegexp false r.1 r.2
  | [] => mkRegexp false [] false
  end.

(** A substring of the text is in the language, where the anchors allow it. *)
Definition matches (r : regexp) (text : list Z) : Prop :=
  exists pre mid post, text = pre ++ mid ++ post /\ lang (items r) mid /\
    (at_start r = true -> pre = []) /\ (at_end r = true -> post = []).

(** A C string has no NUL. *)
Definition str (s : list Z) : Prop := Forall (fun c => c <> 0) s.

(** A match at the beginning of the text. *)
Definition matches_here (r : list item * bool) (text : list Z) : Prop :=
  exists mid post, text = mid ++ post /\ lang r.1 mid /\ (r.2 = true -> post = []).

Lemma peek_str s : str s -> (peek s =? 0) = bool_decide (s = []).
Proof. destruct s as [|c s]; [done|]. intros [Hc _]%Forall_cons. cbn [peek]. rewrite bool_decide_false by done. by apply Z.eqb_neq. Qed.

Lemma in_atom_of c t : in_atom (atom_of c) t <-> (c =? DOT) || (c =? t) = true.
Proof.
  unfold atom_of. destruct (Z.eqb_spec c DOT); simpl; [done|]. rewrite Z.eqb_eq. split; congruence.
Qed.

Lemma here_one a r text :
  matches_here (One a :: r.1, r.2) text <-> exists t text', text = t :: text' /\ in_atom a t /\ matches_here r text'.
Proof.
  split.
  - intros (mid & post & -> & H & He). inversion H as [|? ? t s Ht Hs| |]; subst. exists t, (s ++ post). split_and!; [done..|]. by exists s, post.
  - intros (t & text' & -> & Ht & mid & post & -> & Hm & He). exists (t :: mid), post. split_and!; [done| |done]. by constructor.
Qed.

Lemma here_star a r text :
  matches_here (Star a :: r.1, r.2) text <->
  matches_here r text \/ exists t text', text = t :: text' /\ in_atom a t /\ matches_here (Star a :: r.1, r.2) text'.
Proof.
  split.
  - intros (mid & post & -> & H & He). simpl in *. inversion H as [| |? ? s Hs|? ? t s Ht Hs]; subst; [left; by exists mid, post|].
    right. exists t, (s ++ post). split_and!; [done..|]. by exists s, post.
  - intros [(mid & post & -> & Hm & He)|(t & text' & -> & Ht & mid & post & -> & Hm & He)].
    + exists mid, post. split_and!; [done| |done]. by apply lang_star_stop.
    + exists (t :: mid), post. split_and!; [done| |done]. by apply lang_star_more.
Qed.

Lemma matchstar_spec (f : list Z -> bool) c r text :
  str text -> (forall text, str text -> f text = true <-> matches_here r text) ->
  matchstar f c text = true <-> matches_here (Star (atom_of c) :: r.1, r.2) text.
Proof.
  intros Ht Hf. induction text as [|t text IH]; simpl; rewrite here_star.
  - specialize (Hf [] Ht). destruct (f []); [tauto|]. split; [done|]. intros [?|(? & ? & ? & _)]; [tauto|done].
  - pose proof (Hf _ Ht) as Hf'. apply Forall_cons in Ht as [_ Ht]. destruct (f (t :: text)); [tauto|].
    pose proof (in_atom_of c t) as Ha. rewrite (Z.eqb_sym c t), orb_comm in Ha.
    destruct ((t =? c) || (c =? DOT)); [rewrite IH by done|].
    + split; [intros; right; eexists _, _; split; [done|]; tauto|]. intros [?|(t' & text' & [= <- <-] & _ & ?)]; [by apply Hf' in H|done].
    + split; [done|]. intros [?|(t' & text' & [= <- <-] & ? & ?)]; [by apply Hf' in H|tauto].
Qed.

Lemma matchhere_spec re text :
  str re -> str text -> matchhere re text = true <-> matches_here (parse_items re) text.
Proof.
  remember (length re) as n eqn:En. revert re text En. induction n as [n IH] using lt_wf_ind. intros [|c re1] text En Hre Ht.
  { split; [|done]. intros _. exists [], text. split_and!; [done|constructor|done]. }
  simpl in En. apply Forall_cons in Hre as [Hc Hre].
  assert (forall re', (length re' < n)%nat -> str re' -> forall text, str text -> matchhere re' text = true <-> matches_here (parse_items re') text) as IH'
    by (intros; by eapply IH).
  assert ((if (c =? DOLLAR) && (peek re1 =? 0) then peek text =? 0
           else match text with [] => false | t :: text' => if (c =? DOT) || (c =? t) then matchhere re1 text' else false end) = true <->
          matches_here (if (c =? DOLLAR) && bool_decide (re1 = []) then ([], true) else (One (atom_of c) :: (parse_items re1).1, (parse_items re1).2)) text) as Hplain.
  { rewrite peek_str by done. destruct ((c =? DOLLAR) && bool_decide (re1 = [])).
    - rewrite peek_str, bool_decide_eq_true by done. split; [intros ->; exists [], []; split_and!; [done|constructor|done]|].
      intros (mid & post & -> & H & He). inversion H; subst. by rewrite He.
    - rewrite here_one. destruct text as [|t text]; [split; [done|by intros (? & ? & ? & _)]|].
      apply Forall_cons in Ht as [_ Ht]. pose proof (in_atom_of c t) as Ha. destruct ((c =? DOT) || (c =? t)).
      + rewrite (IH' re1) by (lia || done). split; [intros; eexists _, _; split; [done|]; tauto|]. by intros (? & ? & [= <- <-] & _ & ?).
      + split; [done|]. intros (? & ? & [= <- <-] & ? & _). tauto. }
  destruct re1 as [|d re2]; [exact Hplain|]. simpl. destruct (d =? STAR); [|exact Hplain].
  apply Forall_cons in Hre as [_ Hre]. simpl in En. apply matchstar_spec; [done|]. intros. apply IH'; [lia|done..].
Qed.

Lemma match_from_spec re text :
  str re -> str text -> match_from re text = true <-> exists pre rest, text = pre ++ rest /\ matches_here (parse_items re) rest.
Proof.
  intros Hre Ht. induction text as [|t text IH]; simpl; pose proof (matchhere_spec re _ Hre Ht) as Hh.
  - destruct (matchhere re []).
    + split; [|done]. intros _. exists [], []. split; [done|tauto].
    + split; [done|]. intros (pre & rest & E & H). symmetry in E. apply app_nil in E as [-> ->]. by apply Hh in H.
  - apply Forall_cons in Ht as [_ Ht']. destruct (matchhere re (t :: text)).
    + split; [|done]. intros _. exists [], (t :: text). split; [done|tauto].
    + rewrite IH by done. split.
      * intros (pre & rest & -> & H). by exists (t :: pre), rest.
      * intros ([|t' pre] & rest & E & H); simpl in E; [subst; by apply Hh in H|]. injection E as <- ->. by exists pre, rest.
Qed.

(** C36: the matcher implements regular expressions.  Read as a list of single
    characters and starred ones, with '.' for any character and the anchors '^'
    and '$', a pattern is found in a text exactly when some substring of the
    text is in its language. *)
Theorem match_correct re text : str re -> str text -> match_ re text = true <-> matches (parse re) text.
Proof.
  intros Hre Ht. unfold match_, parse, matches. destruct re as [|c re'].
  { simpl. split; [|by destruct text]. intros _. exists [], [], text. split_and!; try done. constructor. }
  destruct (c =? CARET); cbn [at_start items at_end].
  - apply Forall_cons in Hre as [_ Hre]. rewrite matchhere_spec by done. split.
    + intros (mid & post & -> & H & He). exists [], mid, post. by split_and!.
    + intros (pre & mid & post & -> & H & Hs & He). rewrite Hs by done. by exists mid, post.
  - rewrite match_from_spec by done. split.
    + intros (pre & rest & -> & mid & post & -> & H & He). by exists pre, mid, post.
    + intros (pre & mid & post & -> & H & _ & He). exists pre, (mid ++ post). split; [done|]. by exists mid, post.
Qed.

(** "^a.*c$" and "abbc" *)
Lemma match_correct_witness : matches (parse [94; 97; 46; 42; 99; 36]) [97; 98; 98; 99].
Proof. apply match_correct; [repeat constructor; done..|]. reflexivity. Defined.

(** ** Searching a file *)

(** A line: no NUL, no newline, short enough for the buffer with its newline. *)
Definition line (l : list Z) : Prop := Forall (fun c => c <> 0 /\ c <> NL) l /\ (length l <= 1022)%nat.
(** The text with the lines [ls]. *)
Definition text_of (ls : list (list Z)) : list Z := concat ((fun l => l ++ [NL]) <$> ls).
(** A regular file gives what is asked for, as far as it goes. *)
Definition read_file (f : list Z) (k : nat) : list Z * list Z := (take k f, drop k f).

Lemma text_of_cons l ls : text_of (l :: ls) = l ++ NL :: text_of ls.
Proof. unfold text_of. simpl. by rewrite <- app_assoc. Qed.
Lemma text_of_app ls1 ls2 : text_of (ls1 ++ ls2) = text_of ls1 ++ text_of ls2.
Proof. unfold text_of. by rewrite fmap_app, concat_app. Qed.

Lemma split_nl_line l rest : Forall (fun c => c <> 0 /\ c <> NL) l -> split_nl (l ++ NL :: rest) = Some (l, rest).
Proof.
  induction 1 as [|c l [H0 Hn] _ IH]; [done|]. simpl. rewrite IH.
  by rewrite (proj2 (Z.eqb_neq c 0)), (proj2 (Z.eqb_neq c NL)).
Qed.
Lemma split_nl_none p : Forall (fun c => c <> 0 /\ c <> NL) p -> split_nl p = None.
Proof.
  induction 1 as [|c l [H0 Hn] _ IH]; [done|]. simpl. rewrite IH.
  by rewrite (proj2 (Z.eqb_neq c 0)), (proj2 (Z.eqb_neq c NL)).
Qed.

(** What a prefix of a text holds: whole lines, and the start of the next one. *)
Lemma prefix_lines ls b rest :
  Forall line ls -> b ++ rest = text_of ls ->
  exists ls1 ls2 p, ls = ls1 ++ ls2 /\ b = text_of ls1 ++ p /\ p ++ rest = text_of ls2 /\ line p.
Proof.
  intros Hls. revert b. induction Hls as [|l ls [Hl Hlen] Hls IH]; intros b E.
  { apply app_nil in E as [-> ->]. exists [], [], []. split_and!; try done. split; [constructor|simpl; lia]. }
  rewrite text_of_cons in E. destruct (decide (length b <= length l)%nat) as [Hb|Hb].
  - assert (b = take (length b) l) as Eb.
    { rewrite <- (take_app_le l (NL :: text_of ls)), <- E, take_app_length by done. done. }
    exists [], (l :: ls), b. split_and!; [done|done|by rewrite text_of_cons|]. rewrite Eb. split; [by apply Forall_take|].
    rewrite length_take. lia.
  - assert (exists b', b = (l ++ [NL]) ++ b') as [b' ->].
    { exists (drop (length (l ++ [NL])) b). rewrite <- (take_drop (length (l ++ [NL])) b) at 1. f_equal.
      rewrite <- (take_app_le b rest), E by (rewrite length_app; simpl; lia). replace (l ++ NL :: text_of ls) with ((l ++ [NL]) ++ text_of ls) by by rewrite <- app_assoc. by rewrite take_app_length. }
    rewrite <- !app_assoc in E. apply app_inv_head in E. injection E as E. destruct (IH b' E) as (ls1 & ls2 & p & -> & -> & Hp & Hlp).
    exists (l :: ls1), ls2, p. split_and!; [done| |done|done]. rewrite text_of_cons, <- !app_assoc. done.
Qed.

Lemma print_lines_spec pattern ls p fuel :
  Forall line ls -> line p -> (length ls <= fuel)%nat ->
  print_lines fuel pattern (text_of ls ++ p) = (text_of (filter (match_ pattern) ls), p).
Proof.
  intros Hls [Hp _]. revert fuel. induction Hls as [|l ls [Hl _] _ IH]; intros fuel Hf.
  - destruct fuel; [done|]. simpl. by rewrite split_nl_none.
  - destruct fuel as [|fuel]; [simpl in Hf; lia|]. rewrite text_of_cons, <- app_assoc. simpl.
    rewrite split_nl_line by done. rewrite IH by (simpl in Hf; lia). simpl. rewrite filter_cons.
    destruct (match_ pattern l); [rewrite decide_True by done|rewrite decide_False by auto]; [|done]. by rewrite text_of_cons, <- app_assoc.
Qed.

Lemma length_text_of ls : (length ls <= length (text_of ls))%nat.
Proof. induction ls as [|l ls IH]; [done|]. rewrite text_of_cons, length_app. simpl. lia. Qed.

Lemma grep_run pattern ls buf rest fuel :
  Forall line ls -> line buf -> buf ++ rest = text_of ls -> (length rest < fuel)%nat ->
  grep read_file fuel pattern buf rest = Some (text_of (filter (match_ pattern) ls)).
Proof.
  revert ls buf rest. induction fuel as [|fuel IH]; intros ls buf rest Hls Hbuf E Hf; [lia|].
  destruct Hbuf as [Hbuf Hlen]. simpl. set (k := (BUF - length buf - 1)%nat).
  assert (1 <= k)%nat as Hk by (unfold k, BUF; lia). rewrite length_take.
  destruct (decide (rest = [])) as [->|Hr].
  { simpl. rewrite Nat.min_0_r. simpl. rewrite app_nil_r in E. destruct ls as [|l ls]; [done|].
    rewrite text_of_cons in E. subst buf. apply Forall_app in Hbuf as [_ [[_ ?] _]%Forall_cons]. done. }
  assert (0 < length rest)%nat by (destruct rest; [done|simpl; lia]). replace (0 <? _)%nat with true by (symmetry; apply Nat.ltb_lt; lia).
  set (b := buf ++ take k rest). assert (b ++ drop k rest = text_of ls) as Eb by (unfold b; by rewrite <- app_assoc, take_drop).
  destruct (prefix_lines ls b (drop k rest) Hls Eb) as (ls1 & ls2 & p & -> & Hb & Ep & Hp). apply Forall_app in Hls as [Hls1 Hls2].
  assert (0 < length b)%nat by (unfold b; rewrite length_app, length_take; lia).
  pose proof (length_text_of ls1). rewrite Hb, print_lines_spec by (done || (rewrite length_app; lia)). cbn [fst snd].
  assert (ls1 <> []) as Hne.
  { intros ->. simpl in Hb. destruct Hp as [Hnl Hl']. assert (length b = length p) as Hbp by by rewrite Hb.
    destruct (drop k rest) as [|c r] eqn:Ed.
    - rewrite app_nil_r in Ep. destruct ls2 as [|l ls2]; [rewrite Ep in Hbp; simpl in Hbp; lia|]. rewrite Ep, text_of_cons in Hnl.
      apply Forall_app in Hnl as [_ [[_ ?] _]%Forall_cons]. done.
    - assert (k < length rest)%nat by (apply (f_equal length) in Ed; rewrite length_drop in Ed; simpl in Ed; lia).
      unfold b in Hbp. rewrite length_app, length_take in Hbp. unfold k, BUF in *. lia. }
  assert (length (text_of ls1) <> 0)%nat.
  { destruct ls1; [done|]. rewrite text_of_cons, length_app. simpl. lia. }
  replace (length p =? _)%nat with false by (symmetry; apply Nat.eqb_neq; rewrite length_app; lia).
  rewrite (IH ls2 p (drop k rest)); [|done|done|done|rewrite length_drop; lia]. by rewrite filter_app, text_of_app.
Qed.

(** Grep prints the matching lines.  On a regular file of lines that each fit
    into the buffer, the loop of grep ends and has printed exactly the lines
    that match the pattern, in order, each with its newline. *)
Theorem grep_prints_matches pattern ls :
  Forall line ls ->
  grep read_file (length (text_of ls) + 1) pattern [] (text_of ls) = Some (text_of (filter (match_ pattern) ls)).
Proof. intros Hls. apply grep_run; [done| |done|lia]. split; [constructor|simpl; lia]. Qed.

(** "ab" and "c", searched for "b" *)
Lemma grep_prints_matches_witness : grep read_file 6 [98] [] [97; 98; 10; 99; 10] = Some [97; 98; 10].
Proof. apply (grep_prints_matches [98] [[97; 98]; [99]]). repeat constructor; simpl; try done; lia. Defined.

(** A reader that gives one byte at a time, as a pipe may. *)
Definition read_bytes (f : list Z) (k : nat) : list Z * list Z := (take (k `min` 1) f, drop (k `min` 1) f).

(** A line that arrives in pieces is lost: the buffer is emptied whenever it has
    no newline. *)
Lemma grep_loses_split_lines : grep read_bytes 4 [98] [] [97; 98; 10] = Some [].
Proof. reflexivity. Qed.
End Grep.

Module Wc.

(** " \r\t\n\v" *)
Definition SEPARATORS : list Z := [32; 13; 9; 10; 11].
Definition is_sep (b : Z) : bool := existsb (Z.eqb b) SEPARATORS.

(** The locals of [wc]. *)
Record counts := mkCounts { l : Z; w : Z; c : Z; inword : bool }.

(** The body of the inner loop for [buf[i]] = [b]. *)
Definition count_byte (s : counts) (b : Z) : counts :=
  let nc := s32 (c s + 1) in
  let nl := if b =? 10 then s32 (l s + 1) else l s in
  if is_sep b then mkCounts nl (w s) nc false
  else if negb (inword s) then mkCounts nl (s32 (w s + 1)) nc true
  else mkCounts nl (w s) nc (inword s).

(** What [wc] prints. *)
Inductive report := Counts (l w c : Z) | ReadError.

Section wc.
(** [None] is a read error. *)
Context {file : Type} (read : file -> nat -> option (list Z * file)).

Definition BUF : nat := 512.

(** [None] when the turns run out. *)
Fixpoint wc (fuel : nat) (s : counts) (fd : file) : option report :=
  match fuel with
  | O => None
  | S fuel =>
      match read fd BUF with
      | None => Some ReadError
      | Some (bs, fd) =>
          if (0 <? length bs)%nat then wc fuel (foldl count_byte s bs) fd
          else Some (Counts (l s) (w s) (c s))
      end
  end.

(** ** Counting *)

(** The maximal runs of bytes that are not separators. *)
Fixpoint words (t : list Z) : list (list Z) :=
  match t with
  | [] => []
  | b :: t' =>
      if is_sep b then words t'
      else match t' with
           | d :: _ => if is_sep d then [b] :: words t' else match words t' with v :: ws => (b :: v) :: ws | [] => [[b]] end
           | [] => [[b]]
           end
  end.

(** read() delivers [contents] in pieces of any size, nothing only at the end. *)
Class Reader (contents : file -> list Z) : Prop := {
  read_some fd : exists bs fd', read fd BUF = Some (bs, fd') /\ contents fd = bs ++ contents fd' /\ (bs = [] -> contents fd = []) }.

Definition starts_word (t : list Z) : bool := match t with [] => false | b :: _ => negb (is_sep b) end.

Lemma words_cons b t :
  length (words (b :: t)) = ((if negb (is_sep b) && negb (starts_word t) then 1 else 0) + length (words t))%nat /\
  (starts_word (b :: t) = true -> words (b :: t) <> []).
Proof.
  revert b. induction t as [|d t IH]; intros b; [by simpl; destruct (is_sep b)|]. destruct (IH d) as [_ Hw].
  change (words (b :: d :: t)) with (if is_sep b then words (d :: t) else if is_sep d then [b] :: words (d :: t)
    else match words (d :: t) with v :: ws => (b :: v) :: ws | [] => [[b]] end).
  generalize dependent (words (d :: t)). intros ws Hw. unfold starts_word in *.
  destruct (is_sep b), (is_sep d); simpl in *; try done. destruct ws; [by destruct Hw|done].
Qed.

(** Scanning [t] adds the words of [t], less one that goes on from before. *)
Lemma count_bytes s t :
  0 <= l s <= c s -> 0 <= w s <= c s -> c s + Z.of_nat (length t) < 2 ^ 31 ->
  let s' := foldl count_byte s t in
  l s' = l s + Z.of_nat (length (filter (fun b => b = 10) t)) /\
  c s' = c s + Z.of_nat (length t) /\
  w s' = w s + Z.of_nat (length (words t)) - (if inword s && starts_word t then 1 else 0).
Proof.
  revert s. induction t as [|b t IH]; intros s Hl Hw Hc; cbv zeta.
  { simpl. rewrite andb_false_r. lia. }
  simpl foldl. simpl length in Hc. assert (forall z, 0 <= z <= c s -> s32 (z + 1) = z + 1) as Hs by (intros; apply s32_small; lia).
  set (s1 := count_byte s b).
  assert (l s1 = l s + (if b =? 10 then 1 else 0) /\ c s1 = c s + 1 /\ inword s1 = negb (is_sep b) /\
    w s1 = w s + (if negb (is_sep b) && negb (inword s) then 1 else 0)) as (El & Ec & Ei & Ew).
  { unfold s1, count_byte. destruct (b =? 10), (is_sep b), (inword s) eqn:E; simpl; rewrite ?Hs by lia; rewrite ?E; split_and!; try done; lia. }
  destruct (IH s1) as (E1 & E2 & E3); [destruct (b =? 10); lia|destruct (_ && _); lia|lia|].
  rewrite E1, E2, E3, El, Ec, Ei, Ew. destruct (words_cons b t) as [Ewc _]. rewrite Ewc.
  rewrite filter_cons. split_and!.
  - destruct (Z.eqb_spec b 10); [rewrite decide_True by done|rewrite decide_False by done]; simpl; lia.
  - simpl. lia.
  - simpl starts_word. destruct (is_sep b), (inword s), (starts_word t); simpl; lia.
Qed.

Lemma wc_run contents `{!Reader contents} fuel fd s :
  (length (contents fd) < fuel)%nat ->
  exists bs, foldl count_byte s (contents fd) = bs /\ wc fuel s fd = Some (Counts (l bs) (w bs) (c bs)).
Proof.
  revert fd s. induction fuel as [|fuel IH]; intros fd s Hf; [lia|]. simpl.
  destruct (read_some fd) as (bs & fd' & -> & E & He). rewrite E in *. destruct bs as [|b bs].
  - specialize (He eq_refl). simpl in *. rewrite He. eauto.
  - simpl in *. rewrite length_app in Hf. rewrite foldl_app. apply IH. lia.
Qed.

(** Wc counts.  However read() cuts the file into pieces, wc ends and prints
    the number of newlines, of maximal runs of non-separators, and of bytes of
    the whole file, as long as it has less than 2^31 bytes. *)
Theorem wc_counts contents `{!Reader contents} fd :
  Z.of_nat (length (contents fd)) < 2 ^ 31 ->
  wc (length (contents fd) + 1) (mkCounts 0 0 0 false) fd =
    Some (Counts (Z.of_nat (length (filter (fun b => b = 10) (contents fd))))
                 (Z.of_nat (length (words (contents fd)))) (Z.of_nat (length (contents fd)))).
Proof.
  intros Hl. destruct (wc_run contents (length (contents fd) + 1) fd (mkCounts 0 0 0 false)) as (s & <- & ->); [lia|].
  destruct (count_bytes (mkCounts 0 0 0 false) (contents fd)) as (-> & -> & ->); simpl; [lia..|]. do 2 f_equal. lia.
Qed.
End wc.

(** A reader of at most two bytes at a time. *)
Definition read_two (f : list Z) (k : nat) : option (list Z * list Z) := Some (take (k `min` 2) f, drop (k `min` 2) f).
#[export] Instance read_two_reader : Reader read_two id.
Proof.
  split. intros f. exists (take 2 f), (drop 2 f). split_and!; [done|unfold id; by rewrite take_drop|]. by destruct f as [|? [|]].
Qed.

(** "a b" and a newline *)
Lemma wc_counts_witness : wc read_two 5 (mkCounts 0 0 0 false) [97; 32; 98; 10] = Some (Counts 1 2 4).
Proof. apply (wc_counts read_two id [97; 32; 98; 10]). simpl. lia. Defined.
End Wc.
