(* ===== verification/Printf.v ===== *)
(** * Formatted output

    printf.c (user programs) and cprintf of console.c (the kernel): the bytes
    they write.  The arguments are the words on the stack after the format, and
    [m] is the memory that %s reads. *)

From S2P Require Import Prelude CString.
Open Scope Z_scope.

Definition PERCENT : Z := 37.
Definition MINUS : Z := 45.
(** "(null)" *)
Definition NULLSTR : list Z := [40; 110; 117; 108; 108; 41].
(** "0123456789ABCDEF" of printf.c and "0123456789abcdef" of console.c *)
Definition UPPER : list Z := [48; 49; 50; 51; 52; 53; 54; 55; 56; 57; 65; 66; 67; 68; 69; 70].
Definition LOWER : list Z := [48; 49; 50; 51; 52; 53; 54; 55; 56; 57; 97; 98; 99; 100; 101; 102].

Section print.
Context (digits : list Z).

(** The do loop of [printint], in the order of [buf]; a [uint] has at most 32
    digits in any base. *)
Fixpoint digit_loop (fuel : nat) (x base : Z) : list Z :=
  match fuel with
  | O => []
  | S fuel => digits !!! Z.to_nat (x mod base) :: (if x / base =? 0 then [] else digit_loop fuel (x / base) base)
  end.

(** What [printint] prints: [buf] from its end. *)
Definition printint (xx base : Z) (sgn : bool) : list Z :=
  let neg := sgn && (xx <? 0) in
  let x := if neg then u32 (- xx) else u32 xx in
  let buf := digit_loop 32 x base ++ (if neg then [MINUS] else []) in
  reverse buf.

Context (m : mem) (arg : nat -> Z).

(** The loop that prints the string at [s]. *)
Definition print_string (s : Z) : option (list Z) :=
  if s =? 0 then Some NULLSTR
  else n ← strlen m s; Some (CString.read m s (Z.to_nat n)).

(** [printf] from a place in the format on, with [state] and [ap]; [None] is a
    string without an end. *)
Fixpoint printf_loop (fmt : list Z) (state : bool) (ap : nat) : option (list Z) :=
  match fmt with
  | [] => Some []
  | c :: fmt =>
      if negb state then
        if c =? PERCENT then printf_loop fmt true ap
        else out ← printf_loop fmt false ap; Some (c :: out)
      else if c =? 100 then
        out ← printf_loop fmt false (ap + 1); Some (printint (s32 (arg ap)) 10 true ++ out)
      else if (c =? 120) || (c =? 112) then
        out ← printf_loop fmt false (ap + 1); Some (printint (s32 (arg ap)) 16 false ++ out)
      else if c =? 115 then
        s ← print_string (arg ap); out ← printf_loop fmt false (ap + 1); Some (s ++ out)
      else if c =? 99 then
        out ← printf_loop fmt false (ap + 1); Some (u8 (arg ap) :: out)
      else if c =? PERCENT then
        out ← printf_loop fmt false ap; Some (c :: out)
      else
        out ← printf_loop fmt false ap; Some (PERCENT :: c :: out)
  end.
Definition printf (fmt : list Z) : option (list Z) := printf_loop fmt false 0.

(** The loop of [cprintf]; it handles a directive in one turn. *)
Fixpoint cprintf_loop (fmt : list Z) (ap : nat) : option (list Z) :=
  match fmt with
  | [] => Some []
  | c :: fmt =>
      if negb (c =? PERCENT) then out ← cprintf_loop fmt ap; Some (c :: out)
      else
        match fmt with
        | [] => Some []
        | c :: fmt =>
            if c =? 100 then
              out ← cprintf_loop fmt (ap + 1); Some (printint (s32 (arg ap)) 10 true ++ out)
            else if (c =? 120) || (c =? 112) then
              out ← cprintf_loop fmt (ap + 1); Some (printint (s32 (arg ap)) 16 false ++ out)
            else if c =? 115 then
              s ← print_string (arg ap); out ← cprintf_loop fmt (ap + 1); Some (s ++ out)
            else if c =? PERCENT then
              out ← cprintf_loop fmt ap; Some (PERCENT :: out)
            else
              out ← cprintf_loop fmt ap; Some (PERCENT :: c :: out)
        end
  end.
Definition cprintf (fmt : list Z) : option (list Z) := cprintf_loop fmt 0.
End print.

(** ** Numbers and their digits *)

(** The value of digits, most significant first. *)
Definition value (base : Z) (ds : list Z) : Z := foldl (fun v d => v * base + d) 0 ds.

(** [ds] is how [x] is written in [base]. *)
Record numeral (base x : Z) (ds : list Z) : Prop := {
  num_digits : Forall (fun d => 0 <= d < base) ds;
  num_value : value base ds = x;
  num_nonempty : ds <> [];
  num_leading : head ds = Some 0 -> ds = [0] }.

(** The digits in the order of [buf]. *)
Fixpoint digs (fuel : nat) (x base : Z) : list Z :=
  match fuel with
  | O => []
  | S fuel => x mod base :: (if x / base =? 0 then [] else digs fuel (x / base) base)
  end.

Lemma digit_loop_digs digits fuel x base : digit_loop digits fuel x base = (fun d => digits !!! Z.to_nat d) <$> digs fuel x base.
Proof. revert x. induction fuel as [|fuel IH]; intros x; [done|]. simpl. f_equal. destruct (_ =? 0); [done|apply IH]. Qed.

Lemma value_snoc base ds d : value base (ds ++ [d]) = value base ds * base + d.
Proof. unfold value. by rewrite foldl_app. Qed.

Lemma digs_spec fuel x base :
  1 < base -> 0 <= x < base ^ Z.of_nat fuel -> (0 < fuel)%nat -> numeral base x (reverse (digs fuel x base)).
Proof.
  intros Hb. revert x. induction fuel as [|fuel IH]; intros x Hx Hf; [lia|]. simpl.
  pose proof (Z.mod_pos_bound x base ltac:(lia)) as Hm. pose proof (Z.div_mod x base ltac:(lia)) as Hd.
  destruct (Z.eqb_spec (x / base) 0) as [H0|H0].
  { split; [by apply Forall_singleton|unfold value; simpl; lia|done|]. simpl. by intros [= ->]. }
  assert (0 <= x / base) as Hp by (apply Z.div_pos; lia).
  assert (x / base < base ^ Z.of_nat fuel) as Hlt by (apply Z.div_lt_upper_bound; [lia|]; rewrite Nat2Z.inj_succ, Z.pow_succ_r in Hx; lia).
  destruct fuel as [|fuel]; [simpl in *; lia|]. destruct (IH (x / base)) as [H1 H2 H3 H4]; [lia|lia|].
  set (r := digs (S fuel) (x / base) base) in *. rewrite reverse_cons. split.
  - apply Forall_app. split; [done|by apply Forall_singleton].
  - rewrite value_snoc, H2. lia.
  - by destruct (reverse r).
  - destruct (reverse r) as [|d ds]; [done|]. intros [= ->]. specialize (H4 eq_refl). injection H4 as ->. unfold value in H2. simpl in H2. lia.
Qed.

Lemma length_digs fuel x base k :
  1 < base -> 0 <= x < base ^ Z.of_nat k -> (0 < k)%nat -> (length (digs fuel x base) <= k)%nat.
Proof.
  intros Hb. revert x k. induction fuel as [|fuel IH]; intros x k Hx Hk; simpl; [lia|]. destruct (Z.eqb_spec (x / base) 0); [simpl; lia|].
  destruct k as [|k]; [lia|]. assert (x / base < base ^ Z.of_nat k) by (apply Z.div_lt_upper_bound; [lia|]; rewrite Nat2Z.inj_succ, Z.pow_succ_r in Hx; lia).
  assert (0 <= x / base) by (apply Z.div_pos; lia). destruct k as [|k]; [simpl in *; lia|]. specialize (IH (x / base) (S k)). simpl. lia.
Qed.

Lemma printint_run digits xx base sgn :
  base = 10 \/ base = 16 -> - 2 ^ 31 <= xx < 2 ^ 31 ->
  exists ds, printint digits xx base sgn = (if sgn && (xx <? 0) then [MINUS] else []) ++ ((fun d => digits !!! Z.to_nat d) <$> ds) /\
    numeral base (if sgn && (xx <? 0) then - xx else u32 xx) ds /\ (length ds <= 10)%nat.
Proof.
  intros Hb Hx. set (x := if sgn && (xx <? 0) then - xx else u32 xx).
  assert (0 <= x < 2 ^ 32) as Hr by (unfold x; destruct (sgn && (xx <? 0)) eqn:E; [bsplit; lia|apply u32_range]).
  exists (reverse (digs 32 x base)). unfold printint. rewrite digit_loop_digs, reverse_app, fmap_reverse.
  assert ((if sgn && (xx <? 0) then u32 (- xx) else u32 xx) = x) as ->.
  { unfold x. destruct (sgn && (xx <? 0)) eqn:E; [|done]. bsplit. rewrite u32_small; lia. }
  split; [by destruct (_ && _)|]. split; [apply digs_spec; [lia| |lia]|].
  - split; [lia|]. transitivity (2 ^ 32); [lia|]. apply Z.pow_lt_mono_l; lia.
  - rewrite length_reverse. apply length_digs; [lia| |lia]. split; [lia|].
    assert (10 ^ 10 <= base ^ Z.of_nat 10) by (apply Z.pow_le_mono_l; lia). lia.
Qed.

(** Printed numbers.  printint prints a minus sign exactly for negative
    numbers printed as signed, then the digits of the absolute value (or of the
    unsigned value) without leading zeros; at most eleven characters, so they
    fit into its buffer of 16. *)
Theorem printint_correct digits xx base sgn :
  base = 10 \/ base = 16 -> - 2 ^ 31 <= xx < 2 ^ 31 ->
  (length (printint digits xx base sgn) <= 11)%nat /\
  exists ds, printint digits xx base sgn = (if sgn && (xx <? 0) then [MINUS] else []) ++ ((fun d => digits !!! Z.to_nat d) <$> ds) /\
    numeral base (if sgn && (xx <? 0) then - xx else u32 xx) ds.
Proof.
  intros Hb Hx. destruct (printint_run digits xx base sgn Hb Hx) as (ds & E & Hn & Hl). split; [|by exists ds].
  rewrite E, length_app, length_fmap. destruct (_ && _); simpl; lia.
Qed.

(** The least int, in decimal. *)
Lemma printint_correct_witness :
  (length (printint UPPER (- 2 ^ 31) 10 true) <= 11)%nat /\
  exists ds, printint UPPER (- 2 ^ 31) 10 true = [MINUS] ++ ((fun d => UPPER !!! Z.to_nat d) <$> ds) /\ numeral 10 (2 ^ 31) ds.
Proof. apply (printint_correct UPPER (- 2 ^ 31) 10 true); lia. Defined.

(** ** Reading numbers back *)

Lemma value_from base v ds : foldl (fun v d => v * base + d) v ds = v * base ^ Z.of_nat (length ds) + value base ds.
Proof.
  unfold value. revert v. induction ds as [|d ds IH]; intros v; simpl foldl; simpl length; [rewrite Z.pow_0_r; simpl; lia|].
  rewrite (IH (v * base + d)), (IH (0 * base + d)), Nat2Z.inj_succ, Z.pow_succ_r by lia. lia.
Qed.

Lemma value_nonneg base ds : 0 <= base -> Forall (fun d => 0 <= d < base) ds -> 0 <= value base ds.
Proof.
  intros Hb. induction ds as [|d ds IH] using rev_ind; [done|]. rewrite value_snoc. intros [H1 [H2 _]%Forall_cons]%Forall_app.
  specialize (IH H1). nia.
Qed.

Lemma atoi_digits m a ds v fuel :
  cstr m a ((fun d => 48 + d) <$> ds) -> Forall (fun d => 0 <= d < 10) ds -> (length ds < fuel)%nat ->
  0 <= v -> v * 10 ^ Z.of_nat (length ds) + value 10 ds < 2 ^ 31 ->
  atoi_loop fuel m a v = Some (v * 10 ^ Z.of_nat (length ds) + value 10 ds).
Proof.
  revert a v fuel. induction ds as [|d ds IH]; intros a v fuel Hc Hd Hf Hv Hlt; (destruct fuel as [|fuel]; [simpl in Hf; lia|]); simpl in Hc.
  - apply cstr_nil in Hc. simpl. rewrite Hc. simpl. unfold value. simpl. do 2 f_equal. lia.
  - apply cstr_cons in Hc as (_ & Hl & Hc). apply Forall_cons in Hd as [Hd Hds]. cbn [atoi_loop]. rewrite Hl.
    replace (48 <=? 48 + d) with true by lia. replace (48 + d <=? 57) with true by lia. cbn [andb].
    assert (v * 10 ^ Z.of_nat (length (d :: ds)) + value 10 (d :: ds) = (v * 10 + d) * 10 ^ Z.of_nat (length ds) + value 10 ds) as E.
    { unfold value at 1. simpl foldl. rewrite (value_from 10 d). simpl length. rewrite Nat2Z.inj_succ, Z.pow_succ_r by lia. lia. }
    rewrite E in *. pose proof (value_nonneg 10 ds ltac:(lia) Hds). assert (1 <= 10 ^ Z.of_nat (length ds)) by lia.
    replace (s32 (v * 10 + (48 + d) - 48)) with (v * 10 + d) by (rewrite s32_small; nia).
    apply IH; [done|done|simpl in Hf; lia|lia|done].
Qed.

(** Atoi reads back what printf prints.  The decimal digits that printf and
    cprintf print for a number that is not negative give that number again. *)
Theorem printint_atoi digits m a n :
  digits = UPPER \/ digits = LOWER -> 0 <= n < 2 ^ 31 -> cstr m a (printint digits n 10 true) -> atoi m a = Some n.
Proof.
  intros Hd Hn Hc. destruct (printint_run digits n 10 true) as (ds & E & [H1 H2 _ _] & Hl); [lia..|].
  rewrite (proj2 (Z.ltb_ge n 0)) in * by lia. simpl in *. rewrite u32_small in H2 by lia. rewrite E in Hc.
  assert ((fun d => digits !!! Z.to_nat d) <$> ds = (fun d => 48 + d) <$> ds) as Ed.
  { apply list_fmap_ext. intros i d Hi. eapply Forall_lookup_1 in H1; [|exact Hi].
    assert (d = 0 \/ d = 1 \/ d = 2 \/ d = 3 \/ d = 4 \/ d = 5 \/ d = 6 \/ d = 7 \/ d = 8 \/ d = 9) as Hcases by lia.
    by destruct Hd as [-> | ->]; destruct_or! Hcases; subst d. }
  rewrite Ed in Hc. unfold atoi. rewrite (atoi_digits m a ds 0); [by rewrite H2|done|done|pose proof STRFUEL_val; lia|lia|lia].
Qed.

Lemma printint_atoi_witness : atoi (write ∅ 100 [49; 50; 48; 0]) 100 = Some 120.
Proof.
  apply (printint_atoi UPPER); [by left|lia|]. split; [vm_compute; repeat constructor; done|]. vm_compute. done.
Defined.

(** ** The two implementations *)

(** No %c directive. *)
Fixpoint no_char (fmt : list Z) : bool :=
  match fmt with
  | [] => true
  | c :: fmt =>
      if c =? PERCENT then match fmt with [] => true | d :: fmt => negb (d =? 99) && no_char fmt end
      else no_char fmt
  end.

(** Printf and cprintf are the same function on formats without %c. *)
Theorem cprintf_is_printf digits m arg fmt : no_char fmt = true -> cprintf digits m arg fmt = printf digits m arg fmt.
Proof.
  unfold cprintf, printf. generalize 0%nat as ap. remember (length fmt) as n eqn:En. revert fmt En.
  induction n as [n IH] using lt_wf_ind. intros [|c fmt] En ap Hc; [done|]. simpl in *.
  assert (forall f, (length f < n)%nat -> no_char f = true -> forall ap, cprintf_loop digits m arg f ap = printf_loop digits m arg f false ap) as IH'
    by (intros; by eapply IH).
  destruct (c =? PERCENT); simpl; [|rewrite IH' by (lia || done); done]. destruct fmt as [|d fmt]; [done|]. simpl in *.
  apply andb_prop in Hc as [Hd Hc]. apply negb_true_iff in Hd. rewrite Hd, !IH' by (lia || done).
  destruct (d =? PERCENT) eqn:Ep; [apply Z.eqb_eq in Ep as ->|]; done.
Qed.

Lemma cprintf_is_printf_witness : cprintf LOWER ∅ (fun _ => 255) [37; 120; 37; 37] = printf LOWER ∅ (fun _ => 255) [37; 120; 37; 37].
Proof. apply cprintf_is_printf. reflexivity. Defined.
