(* ===== verification/Console.v ===== *)
(** * The console

    console.c: the screen, the echo on the serial line and the line discipline of
    the input.  The screen is the array [crt] of cells and the cursor register of
    the CRT controller; [uart] is what was sent to the serial port, and [wakeups] counts the
    calls [wakeup(&input.r)].  The lock
    [cons.lock] is taken and released in pairs.  A read runs in sections like
    those of a pipe: up to its return or up to [sleep]. *)

From S2P Require Import Prelude CString Ring Pipe.
Open Scope Z_scope.

Definition BACKSPACE : Z := 0x100.
Definition INPUT_BUF : Z := 128.
Definition NEWLINE : Z := 10.
(** [C('D')] and the like *)
Definition CTRL_D : Z := 4.
Definition CTRL_H : Z := 8.
Definition CTRL_P : Z := 16.
Definition CTRL_U : Z := 21.
Definition DEL : Z := 127.

Record console := mkConsole {
  panicked : bool; visible : bool;
  crt : list Z; cursor : Z; has_uart : bool; uart : list Z;
  ibuf : list Z; ir : Z; iw : Z; ie : Z; wakeups : nat }.

Definition set_visible (v : bool) (s : console) : console :=
  mkConsole (panicked s) v (crt s) (cursor s) (has_uart s) (uart s) (ibuf s) (ir s) (iw s) (ie s) (wakeups s).
Definition set_screen (t : list Z) (p : Z) (s : console) : console :=
  mkConsole (panicked s) (visible s) t p (has_uart s) (uart s) (ibuf s) (ir s) (iw s) (ie s) (wakeups s).
Definition set_uart (u : list Z) (s : console) : console :=
  mkConsole (panicked s) (visible s) (crt s) (cursor s) (has_uart s) u (ibuf s) (ir s) (iw s) (ie s) (wakeups s).
Definition set_input (b : list Z) (r w e : Z) (s : console) : console :=
  mkConsole (panicked s) (visible s) (crt s) (cursor s) (has_uart s) (uart s) b r w e (wakeups s).

(** [wakeup(&input.r)] *)
Definition wake_readers : M console () :=
  modify (fun s => mkConsole (panicked s) (visible s) (crt s) (cursor s) (has_uart s) (uart s) (ibuf s) (ir s) (iw s) (ie s) (S (wakeups s))).

Definition sys_conswtch : M console Z := modify (fun s => set_visible (negb (visible s)) s) ;;; ret 0.

(** ** Output *)

(** [memmove(crt, crt+80, sizeof(crt[0])*23*80)] and
    [memset(crt+pos, 0, sizeof(crt[0])*(24*80 - pos))] *)
Definition scroll_rows (t : list Z) : list Z := take (23 * 80) (drop 80 t) ++ drop (23 * 80) t.
Definition clear_from (pos : Z) (t : list Z) : list Z :=
  take (Z.to_nat pos) t ++ replicate (Z.to_nat (24 * 80 - pos)) 0 ++ drop (Z.to_nat (Z.max pos (24 * 80))) t.

Definition cell (c : Z) : Z := Z.lor (Z.land c 0xff) 0x0700.

Definition cgaputc (c : Z) : M console () :=
  let* s := get in
  let pos := cursor s in
  let '(t, pos) :=
    if c =? NEWLINE then (crt s, pos + 80 - pos mod 80)
    else if c =? BACKSPACE then (crt s, if 0 <? pos then pos - 1 else pos)
    else (<[Z.to_nat pos := cell c]> (crt s), pos + 1) in
  if (pos <? 0) || (25 * 80 <? pos) then panic "pos under/overflow"
  else
    let '(t, pos) := if 24 <=? pos / 80 then (clear_from (pos - 80) (scroll_rows t), pos - 80) else (t, pos) in
    put (set_screen (<[Z.to_nat pos := cell 32]> t) pos s).

(** Waiting for the transmitter to be ready only takes time. *)
Definition uartputc (c : Z) : M console () := modify (fun s => if has_uart s then set_uart (uart s ++ [u8 c]) s else s).

(** A console that has panicked spins for ever. *)
Definition consputc (c : Z) : M console () :=
  let* s := get in
  if panicked s then sleeps
  else
    let c' := if (c =? BACKSPACE) || visible s || (c =? NEWLINE) then c else 42 in
    (if c =? BACKSPACE then uartputc 8 ;;; uartputc 32 ;;; uartputc 8 else uartputc c') ;;;
    cgaputc c'.

Definition consolewrite (buf : list Z) : M console Z :=
  for_each buf (fun b => consputc (Z.land b 0xff)) ;;; ret (Z.of_nat (length buf)).

(** ** Input *)

(** The loop of ^U; [n] is the number of bytes that can be killed. *)
Fixpoint kill_line (n : nat) : M console () :=
  match n with
  | O => ret ()
  | S n =>
      let* s := get in
      if negb (ie s =? iw s) && negb (ibuf s !!! Z.to_nat (u32 (ie s - 1) mod INPUT_BUF) =? NEWLINE) then
        put (set_input (ibuf s) (ir s) (iw s) (u32 (ie s - 1)) s) ;;;
        consputc BACKSPACE ;;;
        kill_line n
      else ret ()
  end.

(** The body of the loop of [consoleintr]; the process listing of ^P is left out. *)
Definition intr_char (c : Z) : M console () :=
  let* s := get in
  if c =? CTRL_P then ret ()
  else if c =? CTRL_U then kill_line (Z.to_nat (u32 (ie s - iw s)))
  else if (c =? CTRL_H) || (c =? DEL) then
    when (negb (ie s =? iw s)) (
      put (set_input (ibuf s) (ir s) (iw s) (u32 (ie s - 1)) s) ;;;
      consputc BACKSPACE)
  else
    when (negb (c =? 0) && (u32 (ie s - ir s) <? INPUT_BUF)) (
      let c := if c =? 13 then NEWLINE else c in
      put (set_input (<[Z.to_nat (ie s mod INPUT_BUF) := u8 c]> (ibuf s)) (ir s) (iw s) (u32 (ie s + 1)) s) ;;;
      consputc c ;;;
      let* s := get in
      when ((c =? NEWLINE) || (c =? CTRL_D) || (ie s =? u32 (ir s + INPUT_BUF))) (
        put (set_input (ibuf s) (ir s) (ie s) (ie s) s) ;;;
        wake_readers)).

(** [getc] gives the characters [cs], then a negative number. *)
Definition consoleintr (cs : list Z) : M console () := for_each cs intr_char.

(** A section of [consoleread] with [n] of [target] bytes to go: the bytes it
    stores, and how it ends.  One turn per byte. *)
Fixpoint consoleread (killed : bool) (target : Z) (n : nat) (s : console) : console * list Z * ending nat :=
  match n with
  | O => (s, [], Returns target)
  | S n' =>
      if ir s =? iw s then
        if killed then (s, [], Returns (-1)) else (s, [], Sleeps n)
      else
        let c := ibuf s !!! Z.to_nat (ir s mod INPUT_BUF) in
        let s' := set_input (ibuf s) (u32 (ir s + 1)) (iw s) (ie s) s in
        if c =? CTRL_D then
          (if Z.of_nat n <? target then s else s', [], Returns (target - Z.of_nat n))
        else if c =? NEWLINE then (s', [c], Returns (target - Z.of_nat n'))
        else
          let '(s', bs, e) := consoleread killed target n' s' in (s', c :: bs, e)
  end.

(** ** The screen *)

Definition SCREEN : Z := 24 * 80.
Definition screen_ok (s : console) : Prop :=
  panicked s = false /\ 0 <= cursor s < SCREEN /\ SCREEN <= Z.of_nat (length (crt s)).

(** The cells with [c] put in, and where the cursor goes, before scrolling. *)
Definition typed (c : Z) (s : console) : list Z * Z :=
  let pos := cursor s in
  if c =? NEWLINE then (crt s, (pos / 80 + 1) * 80)
  else if c =? BACKSPACE then (crt s, Z.max 0 (pos - 1))
  else (<[Z.to_nat pos := cell c]> (crt s), pos + 1).

Lemma lookup_scroll t k : (1920 <= length t)%nat -> (k < 1840)%nat -> scroll_rows t !! k = t !! (k + 80)%nat.
Proof.
  intros Hl Hk. unfold scroll_rows. rewrite lookup_app_l by (rewrite length_take, length_drop; lia).
  rewrite lookup_take_lt, lookup_drop by lia. f_equal. lia.
Qed.
Lemma lookup_scroll_out t k : (1920 <= length t)%nat -> (1840 <= k)%nat -> scroll_rows t !! k = t !! k.
Proof.
  intros Hl Hk. unfold scroll_rows. rewrite lookup_app_r by (rewrite length_take, length_drop; lia).
  rewrite length_take, length_drop, lookup_drop. f_equal. lia.
Qed.
Lemma length_scroll t : (1920 <= length t)%nat -> length (scroll_rows t) = length t.
Proof. intros. unfold scroll_rows. rewrite length_app, length_take, !length_drop. lia. Qed.

Lemma lookup_clear t k : (1920 <= length t)%nat ->
  clear_from 1840 t !! k = if decide (1840 <= k < 1920)%nat then Some 0 else t !! k.
Proof.
  intros Hl. unfold clear_from. change (Z.to_nat 1840) with 1840%nat. change (Z.to_nat (24 * 80 - 1840)) with 80%nat.
  change (Z.to_nat (Z.max 1840 (24 * 80))) with 1920%nat. case_decide.
  - rewrite lookup_app_r by (rewrite length_take; lia). rewrite length_take. rewrite lookup_app_l by (rewrite length_replicate; lia).
    apply lookup_replicate_2. lia.
  - destruct (decide (k < 1840)%nat); [rewrite lookup_app_l by (rewrite length_take; lia); by apply lookup_take_lt|].
    rewrite lookup_app_r by (rewrite length_take; lia). rewrite length_take, lookup_app_r, length_replicate by (rewrite length_replicate; lia).
    rewrite lookup_drop. f_equal. lia.
Qed.
Lemma length_clear t : (1920 <= length t)%nat -> length (clear_from 1840 t) = length t.
Proof.
  intros. unfold clear_from. rewrite !length_app, length_take, length_replicate, length_drop.
  change (Z.to_nat 1840) with 1840%nat. change (Z.to_nat (24 * 80 - 1840)) with 80%nat. change (Z.to_nat (Z.max 1840 (24 * 80))) with 1920%nat. lia.
Qed.

Lemma typed_range c s : screen_ok s -> 0 <= (typed c s).2 <= SCREEN /\ length (typed c s).1 = length (crt s) /\
  (24 <=? (typed c s).2 / 80) = bool_decide ((typed c s).2 = SCREEN).
Proof.
  intros (_ & Hc & Hl). unfold SCREEN in *. assert (0 <= (typed c s).2 <= 24 * 80) as Hr.
  { unfold typed. pose proof (Z.div_mod (cursor s) 80). pose proof (Z.mod_pos_bound (cursor s) 80).
    destruct (_ =? _); [simpl; lia|]. destruct (_ =? _); simpl; lia. }
  split; [done|]. split.
  - unfold typed. destruct (_ =? _); [done|]. destruct (_ =? _); [done|]. simpl. by rewrite length_insert.
  - pose proof (Z.div_mod (typed c s).2 80). pose proof (Z.mod_pos_bound (typed c s).2 80). case_bool_decide; lia.
Qed.

Lemma cgaputc_run c s : screen_ok s ->
  exists t pos, cgaputc c s = Ret () (set_screen t pos s) /\ 0 <= pos < SCREEN /\ length t = length (crt s) /\
    t !! Z.to_nat pos = Some (cell 32) /\
    if bool_decide ((typed c s).2 = SCREEN) then
      (pos = 1840 /\ (forall k, (k < 1840)%nat -> t !! k = (typed c s).1 !! (k + 80)%nat) /\
       (forall k, (1840 < k < 1920)%nat -> t !! k = Some 0) /\ forall k, (1920 <= k)%nat -> t !! k = (typed c s).1 !! k)
    else (pos = (typed c s).2 /\ forall k, k <> Z.to_nat pos -> t !! k = (typed c s).1 !! k).
Proof.
  intros Hs. pose proof (typed_range c s Hs) as (Hr & Hlen & H24). pose proof Hs as (_ & Hc & Hl). unfold cgaputc. rewrite bind_get.
  assert ((if c =? NEWLINE then (crt s, cursor s + 80 - cursor s mod 80)
     else if c =? BACKSPACE then (crt s, if 0 <? cursor s then cursor s - 1 else cursor s)
     else (<[Z.to_nat (cursor s) := cell c]> (crt s), cursor s + 1)) = typed c s) as ->.
  { unfold typed. pose proof (Z.div_mod (cursor s) 80 ltac:(lia)).
    destruct (c =? NEWLINE); [f_equal; lia|]. destruct (c =? BACKSPACE); [f_equal; destruct (0 <? cursor s) eqn:?; bsplit; lia|done]. }
  destruct (typed c s) as [t pos]. cbn [fst snd] in *. unfold SCREEN in *.
  replace (pos <? 0) with false by lia. replace (25 * 80 <? pos) with false by lia. cbn [orb]. rewrite H24. case_bool_decide as Hp.
  - subst pos. change (24 * 80 - 80) with 1840. unfold put. eexists _, _. split; [done|].
    assert (1920 <= length t)%nat by lia. assert (1920 <= length (scroll_rows t))%nat by (rewrite length_scroll; lia).
    change (Z.to_nat 1840) with 1840%nat. split_and!; [lia|lia| | | | | |].
    + rewrite length_insert, length_clear, length_scroll; lia.
    + apply list_lookup_insert_eq. rewrite length_clear; lia.
    + done.
    + intros k Hk. rewrite list_lookup_insert_ne, lookup_clear, decide_False by lia. by apply lookup_scroll.
    + intros k Hk. rewrite list_lookup_insert_ne, lookup_clear, decide_True by lia. done.
    + intros k Hk. rewrite list_lookup_insert_ne, lookup_clear, decide_False by lia. by apply lookup_scroll_out; [|lia].
  - unfold put. eexists _, _. split; [done|]. split_and!; [lia|lia| | |done|].
    + by rewrite length_insert.
    + apply list_lookup_insert_eq. lia.
    + intros k Hk. by rewrite list_lookup_insert_ne.
Qed.

(** The screen.  A character put on the screen, a newline or a backspace
    moves the cursor within the 24 lines, never beyond; when it would leave the
    last line, the lines move up by one and the last one is cleared.  No cell
    after the 24 lines is changed, the cursor cell is blank, and the position
    check of cgaputc never panics. *)
Theorem cgaputc_screen c s : screen_ok s ->
  exists s', cgaputc c s = Ret () s' /\ screen_ok s' /\ crt s' !! Z.to_nat (cursor s') = Some (cell 32) /\
    (forall k, (1920 <= k)%nat -> crt s' !! k = crt s !! k) /\
    if bool_decide ((typed c s).2 = SCREEN) then
      (cursor s' = 1840 /\ (forall k, (k < 1840)%nat -> crt s' !! k = (typed c s).1 !! (k + 80)%nat) /\
       forall k, (1840 < k < 1920)%nat -> crt s' !! k = Some 0)
    else (cursor s' = (typed c s).2 /\ forall k, k <> Z.to_nat (cursor s') -> crt s' !! k = (typed c s).1 !! k).
Proof.
  intros Hs. pose proof Hs as (Hpa & Hcu & Hl). destruct (cgaputc_run c s Hs) as (t & pos & E & Hp & Hlen & Hcur & Hrest).
  exists (set_screen t pos s). split; [done|]. split; [split_and!; simpl; [done|lia|lia|lia]|]. split; [done|].
  assert (forall k, (1920 <= k)%nat -> (typed c s).1 !! k = crt s !! k) as Ht.
  { intros k Hk. unfold typed. destruct (_ =? _); [done|]. destruct (_ =? _); [done|]. simpl.
    rewrite list_lookup_insert_ne; [done|]. unfold SCREEN in *. lia. }
  simpl. case_bool_decide as Hb.
  - destruct Hrest as (-> & H1 & H2 & H3). split; [intros k Hk; by rewrite H3, Ht|done].
  - destruct Hrest as (-> & H1). split; [|done]. intros k Hk. rewrite H1, Ht by (unfold SCREEN in *; lia). done.
Qed.

Abbreviation boot_console :=
  (mkConsole false true (replicate 2000 0) 1919 true [] (replicate 128 0) 0 0 0 0).

(** A character in the last cell scrolls the screen. *)
Lemma cgaputc_screen_witness :
  screen_ok boot_console /\ exists s', cgaputc 65 boot_console = Ret () s' /\ cursor s' = 1840 /\ crt s' !! 1839%nat = Some (cell 65).
Proof.
  assert (screen_ok boot_console) as Hs by (split_and!; [done|cbn [cursor]; unfold SCREEN; lia..|cbn [crt]; rewrite length_replicate; unfold SCREEN; lia]).
  split; [exact Hs|]. destruct (cgaputc_screen 65 _ Hs) as (s' & E & _ & _ & _ & H). exists s'. split; [exact E|].
  rewrite bool_decide_true in H by reflexivity. destruct H as (Hc & Hk & _). split; [exact Hc|]. rewrite Hk by lia. vm_compute. reflexivity.
Defined.

(** ** Lines *)

Definition same_input (s s' : console) : Prop :=
  ibuf s' = ibuf s /\ ir s' = ir s /\ iw s' = iw s /\ ie s' = ie s /\ wakeups s' = wakeups s.

Lemma consputc_run c s : screen_ok s -> exists s', consputc c s = Ret () s' /\ screen_ok s' /\ same_input s s'.
Proof.
  intros Hs. pose proof Hs as (Hpa & _ & _). unfold consputc. rewrite bind_get, Hpa.
  cbv zeta. match goal with |- context [cgaputc ?x] => generalize x; intros c' end.
  assert (exists u, (if c =? BACKSPACE then uartputc 8 ;;; uartputc 32 ;;; uartputc 8 else uartputc c') s = Ret () (set_uart u s)) as (u & Eu).
  { assert (set_uart (uart s) s = s) as Es by by destruct s. unfold uartputc, modify, bind.
    destruct (c =? BACKSPACE), (has_uart s) eqn:E; cbn [has_uart set_uart]; rewrite ?E; cbn [has_uart set_uart]; rewrite ?E; try by eexists.
    all: exists (uart s); by rewrite Es. }
  rewrite (bind_ret _ _ _ _ _ Eu). assert (screen_ok (set_uart u s)) as Hs' by done.
  destruct (cgaputc_run c' _ Hs') as (t & pos & -> & Hp & Hl & _). eexists. split; [done|]. split; [|done].
  destruct Hs as (_ & _ & ?). split_and!; simpl in *; [done|lia|lia|lia].
Qed.

(** The line discipline: what can be read, the line being edited, and how often the
    readers have been told. *)
Record lines := mkLines { committed : list Z; editing : list Z; told : nat }.

Definition key (c : Z) (a : lines) : lines :=
  let '(mkLines Q L w) := a in
  if c =? CTRL_P then a
  else if c =? CTRL_U then mkLines Q [] w
  else if (c =? CTRL_H) || (c =? DEL) then mkLines Q (take (length L - 1) L) w
  else if negb (c =? 0) && (Z.of_nat (length Q + length L) <? INPUT_BUF) then
    let c := if c =? 13 then NEWLINE else c in
    if (c =? NEWLINE) || (c =? CTRL_D) || (Z.of_nat (length Q + length L + 1) =? INPUT_BUF)
    then mkLines (Q ++ L ++ [c]) [] (S w) else mkLines Q (L ++ [c]) w
  else a.

Record input_rep (s : console) (a : lines) : Prop := {
  in_len : length (ibuf s) = 128%nat;
  in_r : 0 <= ir s < 2 ^ 32;
  in_w : iw s = u32 (ir s + Z.of_nat (length (committed a)));
  in_e : ie s = u32 (ir s + Z.of_nat (length (committed a) + length (editing a)));
  in_max : (length (committed a) + length (editing a) <= 128)%nat;
  in_data : ring INPUT_BUF (ibuf s) (ir s) (length (committed a) + length (editing a)) = committed a ++ editing a;
  in_line : Forall (fun c => c <> NEWLINE) (editing a);
  in_told : wakeups s = told a }.

Lemma u32_dist a n m : u32 (u32 (a + n) - u32 (a + m)) = u32 (n - m).
Proof. rewrite u32_sub_l, u32_sub_r. f_equal. lia. Qed.

Lemma u32_eq_small a n m : 0 <= n < 2 ^ 32 -> 0 <= m < 2 ^ 32 -> (u32 (a + n) =? u32 (a + m)) = (n =? m).
Proof.
  intros Hn Hm. destruct (Z.eqb_spec n m) as [->|Hne]; [apply Z.eqb_refl|]. apply Z.eqb_neq. intros E. apply Hne.
  assert (u32 (u32 (a + n) - a) = u32 (u32 (a + m) - a)) as E' by by rewrite E.
  rewrite !u32_sub_l in E'. replace (a + n - a) with n in E' by lia. replace (a + m - a) with m in E' by lia.
  by rewrite !u32_small in E'.
Qed.

Lemma rep_frame s s' a : same_input s s' -> input_rep s a -> input_rep s' a.
Proof. intros (E1 & E2 & E3 & E4 & E5) []. split; rewrite ?E1, ?E2, ?E3, ?E4, ?E5; done. Qed.

Lemma INPUT_divides : (INPUT_BUF | 2 ^ 32).
Proof. by exists (2 ^ 25). Qed.

(** Dropping the last byte of the line. *)
Lemma rep_erase s Q L w c :
  input_rep s (mkLines Q (L ++ [c]) w) -> input_rep (set_input (ibuf s) (ir s) (iw s) (u32 (ie s - 1)) s) (mkLines Q L w).
Proof.
  intros []; cbn [committed editing told] in *. rewrite length_app in *. simpl length in *. split; cbn [committed editing told wakeups ibuf ir iw ie set_input].
  - done.
  - done.
  - done.
  - rewrite in_e0, u32_sub_l. f_equal. lia.
  - lia.
  - rewrite Nat.add_assoc, ring_app, app_assoc in in_data0. apply app_inj_1 in in_data0 as [E _]; [done|].
    by rewrite length_ring, length_app.
  - by apply Forall_app in in_line0 as [? _].
  - done.
Qed.

(** The last byte of the line, where the kill loop looks. *)
Lemma rep_last s Q L w c :
  input_rep s (mkLines Q (L ++ [c]) w) -> ibuf s !!! Z.to_nat (u32 (ie s - 1) mod INPUT_BUF) = c.
Proof.
  intros []; cbn [committed editing] in *. rewrite length_app in *. simpl length in *.
  rewrite Nat.add_assoc, ring_app, app_assoc in in_data0. apply app_inj_2 in in_data0 as [_ E]; [|by rewrite length_ring].
  rewrite ring_1 in E by apply u32_range. injection E as <-. do 3 f_equal. rewrite in_e0, u32_sub_l. f_equal. lia.
Qed.

(** Appending a byte to the line, and committing the line. *)
Lemma rep_put s Q L w c :
  input_rep s (mkLines Q L w) -> (length Q + length L < 128)%nat ->
  let b := <[Z.to_nat (ie s mod INPUT_BUF) := c]> (ibuf s) in
  length b = 128%nat /\ ring INPUT_BUF b (ir s) (length Q + length L + 1) = Q ++ L ++ [c] /\
  u32 (ie s + 1) = u32 (ir s + Z.of_nat (length Q + length L + 1)).
Proof.
  intros [] Hlt; cbn [committed editing] in *. cbv zeta. split_and!.
  - by rewrite length_insert.
  - rewrite app_assoc, <- in_data0, in_e0. apply (ring_put INPUT_BUF ltac:(done) INPUT_divides); [done|unfold INPUT_BUF; lia].
  - rewrite in_e0, u32_add_l. f_equal. lia.
Qed.

(** What the tests on the counters say. *)
Lemma rep_tests s Q L w :
  input_rep s (mkLines Q L w) ->
  (ie s =? iw s) = bool_decide (L = []) /\ u32 (ie s - iw s) = Z.of_nat (length L) /\
  u32 (ie s - ir s) = Z.of_nat (length Q + length L).
Proof.
  intros [_ Hr Hw He Hm _ _ _]; cbn [committed editing] in *. rewrite Hw, He. split_and!.
  - rewrite u32_eq_small by lia. destruct L; simpl length; case_bool_decide; (done || lia).
  - rewrite u32_dist, u32_small; lia.
  - rewrite u32_sub_l. replace (_ + _ - _) with (Z.of_nat (length Q + length L)) by lia. apply u32_small. lia.
Qed.

Lemma kill_line_run n s Q L w :
  screen_ok s -> input_rep s (mkLines Q L w) -> (length L <= n)%nat ->
  exists s', kill_line n s = Ret () s' /\ screen_ok s' /\ input_rep s' (mkLines Q [] w).
Proof.
  revert s L. induction n as [|n IH]; intros s L Hs Hr Hn.
  { destruct L; [|simpl in Hn; lia]. by exists s. }
  cbn [kill_line]. rewrite bind_get. destruct (rep_tests _ _ _ _ Hr) as (-> & _ & _). destruct L as [|c L _] using rev_ind; [by exists s|].
  rewrite (rep_last _ _ _ _ _ Hr). pose proof (rep_erase _ _ _ _ _ Hr) as Hr1. rewrite length_app in Hn. simpl in Hn.
  assert (c <> NEWLINE) as Hc by (destruct Hr; simpl in *; by apply Forall_app in in_line0 as [_ [? _]%Forall_cons]).
  rewrite (bool_decide_false (L ++ [c] = [])) by (by destruct L).
  rewrite (proj2 (Z.eqb_neq c NEWLINE)) by done. cbn [negb andb]. unfold put at 1. unfold bind at 1.
  destruct (consputc_run BACKSPACE (set_input (ibuf s) (ir s) (iw s) (u32 (ie s - 1)) s)) as (s2 & E2 & Hs2 & Hi2); [done|].
  rewrite (bind_ret _ _ _ _ _ E2). apply (IH s2 L); [done| |lia]. by eapply rep_frame.
Qed.

Lemma erase_run s Q L w :
  screen_ok s -> input_rep s (mkLines Q L w) ->
  exists s', when (negb (ie s =? iw s)) (put (set_input (ibuf s) (ir s) (iw s) (u32 (ie s - 1)) s) ;;; consputc BACKSPACE) s = Ret () s' /\
    screen_ok s' /\ input_rep s' (mkLines Q (take (length L - 1) L) w).
Proof.
  intros Hs Hr. destruct (rep_tests _ _ _ _ Hr) as (-> & _ & _). destruct L as [|c L _] using rev_ind; [by exists s|].
  rewrite bool_decide_false by (by destruct L). cbn [negb when]. unfold bind, put.
  destruct (consputc_run BACKSPACE (set_input (ibuf s) (ir s) (iw s) (u32 (ie s - 1)) s)) as (s2 & E2 & Hs2 & Hi2); [done|].
  exists s2. split; [exact E2|]. split; [done|]. rewrite length_app. simpl length. replace (length L + 1 - 1)%nat with (length L) by lia.
  rewrite take_app_length. eapply rep_frame; [exact Hi2|]. by eapply rep_erase.
Qed.

Lemma type_run c s Q L w :
  0 <= c < 256 -> screen_ok s -> input_rep s (mkLines Q L w) -> (length Q + length L < 128)%nat ->
  exists s', (put (set_input (<[Z.to_nat (ie s mod INPUT_BUF) := u8 c]> (ibuf s)) (ir s) (iw s) (u32 (ie s + 1)) s) ;;;
      consputc c ;;;
      let* s := get in
      when ((c =? NEWLINE) || (c =? CTRL_D) || (ie s =? u32 (ir s + INPUT_BUF))) (put (set_input (ibuf s) (ir s) (ie s) (ie s) s) ;;; wake_readers)) s = Ret () s' /\
    screen_ok s' /\
    input_rep s' (if (c =? NEWLINE) || (c =? CTRL_D) || (Z.of_nat (length Q + length L + 1) =? INPUT_BUF)
                  then mkLines (Q ++ L ++ [c]) [] (S w) else mkLines Q (L ++ [c]) w).
Proof.
  intros Hc Hs Hr Hlt. assert (u8 c = c) as -> by (apply Z.mod_small; lia).
  destruct (rep_put s Q L w c Hr Hlt) as (Hb & Hd & He). set (s1 := set_input _ _ _ _ s). unfold bind at 1, put at 1.
  destruct (consputc_run c s1) as (s2 & E2 & Hs2 & H1 & H2 & H3 & H4 & H5); [done|]. rewrite (bind_ret _ _ _ _ _ E2), bind_get.
  destruct Hr as [_ Hir Hw _ _ _ Hnl Ht]. cbn [committed editing] in *. rewrite H4, H2. unfold s1. cbn [ie ir set_input].
  rewrite He, u32_eq_small by (unfold INPUT_BUF; lia). destruct ((c =? NEWLINE) || (c =? CTRL_D) || _) eqn:Ec; cbn [when].
  - unfold put, wake_readers, modify, bind. eexists. split; [done|]. split; [done|].
    assert (length Q + length L + 1 = length (Q ++ L ++ [c]))%nat as El by (rewrite !length_app; simpl; lia).
    split; cbn [ibuf ir iw ie set_input committed editing]; rewrite ?Nat.add_0_r, ?app_nil_r, ?H1, ?H2, ?H4; unfold s1; cbn [ibuf ir ie set_input];
      rewrite <- ?El; [done|done|done|done|lia|done|by apply Forall_nil|].
    cbn [wakeups set_input told] in *. by rewrite H5, <- Ht.
  - exists s2. split; [done|]. split; [done|]. bsplit.
    assert (length Q + length (L ++ [c]) = length Q + length L + 1)%nat as El by (rewrite length_app; simpl; lia).
    split; cbn [committed editing]; rewrite ?H1, ?H2, ?H3, ?H4; unfold s1; cbn [ibuf ir iw ie set_input]; rewrite ?El; [done|done|done|done|lia|done| |].
    + apply Forall_app. split; [done|]. by apply Forall_singleton.
    + by rewrite H5.
Qed.

Lemma intr_char_run c s a :
  0 <= c < 256 -> screen_ok s -> input_rep s a ->
  exists s', intr_char c s = Ret () s' /\ screen_ok s' /\ input_rep s' (key c a).
Proof.
  intros Hc Hs Hr. destruct a as [Q L w]. unfold intr_char, key. rewrite bind_get. destruct (rep_tests _ _ _ _ Hr) as (_ & Ew & Er).
  destruct (c =? CTRL_P); [by exists s|]. destruct (c =? CTRL_U); [apply (kill_line_run _ s Q L w); [done|done|lia]|].
  destruct ((c =? CTRL_H) || (c =? DEL)); [by apply erase_run|]. rewrite Er.
  destruct (negb (c =? 0) && (Z.of_nat (length Q + length L) <? INPUT_BUF)) eqn:E; [|by exists s]. unfold INPUT_BUF in E at 1. bsplit.
  cbn [when]. cbv zeta. apply type_run; [destruct (c =? 13); unfold NEWLINE; lia|done|done|lia].
Qed.

Lemma consoleintr_run cs s a :
  Forall (fun c => 0 <= c < 256) cs -> screen_ok s -> input_rep s a ->
  exists s', consoleintr cs s = Ret () s' /\ screen_ok s' /\ input_rep s' (foldl (fun a c => key c a) a cs).
Proof.
  unfold consoleintr. intros Hcs. revert s a. induction Hcs as [|c cs Hc _ IH]; intros s a Hs Hr; [by exists s|].
  destruct (intr_char_run c s a Hc Hs Hr) as (s1 & E1 & Hs1 & Hr1). simpl. rewrite (bind_ret _ _ _ _ _ E1). by apply IH.
Qed.

(** ** Reading *)

(** A byte that neither ends a line nor is the end of the file. *)
Definition plain (c : Z) : Prop := c <> NEWLINE /\ c <> CTRL_D.

(** What a section of a read with [n] of [target] bytes to go does with the readable
    bytes: the bytes it stores, the bytes left, and how it ends. *)
Inductive read_result (killed : bool) (target : Z) (n : nat) : list Z -> list Z -> list Z -> ending nat -> Prop :=
| read_full l Q : Forall plain l -> length l = n -> read_result killed target n (l ++ Q) l Q (Returns target)
| read_line l Q : Forall plain l -> (length l < n)%nat ->
    read_result killed target n (l ++ NEWLINE :: Q) (l ++ [NEWLINE]) Q (Returns (target - Z.of_nat n + Z.of_nat (length l) + 1))
| read_eof l Q : Forall plain l -> (length l < n)%nat ->
    read_result killed target n (l ++ CTRL_D :: Q) l
      (if Z.of_nat (n - length l) <? target then CTRL_D :: Q else Q) (Returns (target - Z.of_nat n + Z.of_nat (length l)))
| read_wait l : Forall plain l -> (length l < n)%nat -> killed = false ->
    read_result killed target n l l [] (Sleeps (n - length l)%nat)
| read_killed l : Forall plain l -> (length l < n)%nat -> killed = true ->
    read_result killed target n l l [] (Returns (-1)).

Lemma read_result_cons killed target n c Q bs Q' e : plain c ->
  read_result killed target n Q bs Q' e -> read_result killed target (S n) (c :: Q) (c :: bs) Q' e.
Proof.
  intros Hc [l Q0 Hl Hn|l Q0 Hl Hn|l Q0 Hl Hn|l Hl Hn Hk|l Hl Hn Hk].
  - apply (read_full _ _ _ (c :: l)); [by constructor|simpl; lia].
  - pose proof (read_line killed target (S n) (c :: l) Q0) as H. simpl in H. replace (target - Z.of_nat n + Z.of_nat (length l) + 1)
      with (target - Z.of_nat (S n) + Z.of_nat (S (length l)) + 1) by lia. apply H; [by constructor|lia].
  - pose proof (read_eof killed target (S n) (c :: l) Q0) as H. simpl in H. replace (target - Z.of_nat n + Z.of_nat (length l))
      with (target - Z.of_nat (S n) + Z.of_nat (S (length l))) by lia. apply H; [by constructor|lia].
  - apply (read_wait _ _ (S n) (c :: l)); [by constructor|simpl; lia|done].
  - apply (read_killed _ _ (S n) (c :: l)); [by constructor|simpl; lia|done].
Qed.

(** The byte at the read index, and the console after it is taken. *)
Lemma rep_take s c Q L w :
  input_rep s (mkLines (c :: Q) L w) ->
  (ir s =? iw s) = false /\ ibuf s !!! Z.to_nat (ir s mod INPUT_BUF) = c /\
  input_rep (set_input (ibuf s) (u32 (ir s + 1)) (iw s) (ie s) s) (mkLines Q L w).
Proof.
  intros []; cbn [committed editing] in *. simpl length in *. rewrite <- (Nat.add_1_l (length Q)) in *. split_and!.
  - rewrite in_w0, <- (u32_small (ir s)) at 1 by lia. rewrite <- (Z.add_0_r (ir s)) at 1. rewrite u32_eq_small; lia.
  - rewrite <- Nat.add_assoc, ring_app in in_data0. rewrite ring_1 in in_data0 by done. by injection in_data0.
  - rewrite <- Nat.add_assoc, ring_app in in_data0. rewrite ring_1 in in_data0 by done. injection in_data0 as _ Hd.
    split; cbn [committed editing told ibuf ir iw ie wakeups set_input]; rewrite ?u32_add_l; try done.
    + apply u32_range.
    + rewrite in_w0. f_equal. lia.
    + rewrite in_e0. f_equal. lia.
    + lia.
Qed.

Lemma consoleread_run killed target n s Q L w :
  input_rep s (mkLines Q L w) ->
  exists s' bs Q' e, consoleread killed target n s = (s', bs, e) /\ input_rep s' (mkLines Q' L w) /\
    crt s' = crt s /\ cursor s' = cursor s /\ panicked s' = panicked s /\ read_result killed target n Q bs Q' e.
Proof.
  revert s Q. induction n as [|n IH]; intros s Q Hr.
  { eexists _, _, Q, _. split; [done|]. do 4 (split; [done|]). by apply (read_full _ _ _ []). }
  cbn [consoleread]. destruct Q as [|c Q].
  - assert ((ir s =? iw s) = true) as ->.
    { destruct Hr as [_ ? Hw _ _ _ _ _]. cbn [committed] in Hw. rewrite Hw. simpl. rewrite Z.add_0_r, u32_small by lia. lia. }
    destruct killed; eexists _, _, [], _; (split; [done|]; do 4 (split; [done|])); [apply (read_killed _ _ _ [])|apply (read_wait _ _ (S n) [])];
      simpl; (done || lia).
  - destruct (rep_take _ _ _ _ _ Hr) as (-> & -> & Hr'). cbv zeta. destruct (c =? CTRL_D) eqn:Ed; [bsplit; subst c|destruct (c =? NEWLINE) eqn:En; bsplit].
    + eexists _, _, (if Z.of_nat (S n) <? target then CTRL_D :: Q else Q), _. split; [done|].
      split; [by destruct (_ <? _)|]. do 3 (split; [by destruct (_ <? _)|]).
      replace (target - Z.of_nat (S n)) with (target - Z.of_nat (S n) + Z.of_nat (@length Z [])) by (simpl; lia).
      apply (read_eof killed target (S n) [] Q); simpl; [done|lia].
    + subst c. eexists _, _, Q, _. split; [done|]. do 4 (split; [done|]).
      replace (target - Z.of_nat n) with (target - Z.of_nat (S n) + Z.of_nat (@length Z []) + 1) by (simpl; lia).
      apply (read_line killed target (S n) [] Q); simpl; [done|lia].
    + destruct (IH _ _ Hr') as (s' & bs & Q' & e & -> & ? & ? & ? & ? & ?). eexists _, _, Q', _. split; [done|]. do 4 (split; [done|]).
      by apply read_result_cons.
Qed.

(** C35: the console's line discipline.  The circular buffer and its three
    counters, which wrap around at 2^32, behave as two queues: the committed bytes
    and the line being edited.  Any run of keyboard characters acts on them as
    [key] says (erase and kill touch only the line being edited, a full buffer or
    a newline or ^D commits it, and every commit wakes the readers) and
    the echo never panics.  A read takes committed bytes
    only, in order, up to a newline, a ^D or its length: it sleeps exactly when
    these run out, and it leaves a ^D behind unless it has read nothing. *)
Theorem console_line_discipline s Q L w :
  screen_ok s -> input_rep s (mkLines Q L w) ->
  (forall cs, Forall (fun c => 0 <= c < 256) cs ->
     exists s', consoleintr cs s = Ret () s' /\ screen_ok s' /\ input_rep s' (foldl (fun a c => key c a) (mkLines Q L w) cs)) /\
  (forall killed target n,
     exists s' bs Q' e, consoleread killed target n s = (s', bs, e) /\ screen_ok s' /\ input_rep s' (mkLines Q' L w) /\
       read_result killed target n Q bs Q' e).
Proof.
  intros Hs Hr. split; [intros cs Hcs; by apply consoleintr_run|]. intros killed target n.
  destruct (consoleread_run killed target n s Q L w Hr) as (s' & bs & Q' & e & E & Hr' & E1 & E2 & E3 & He).
  exists s', bs, Q', e. split_and!; [done| |done|done]. destruct Hs as (? & ? & ?). unfold screen_ok. by rewrite E1, E2, E3.
Qed.

(** Typing "ax", backspace, "b", newline makes "ab" a line. *)
Lemma console_line_discipline_witness :
  screen_ok boot_console /\ input_rep boot_console (mkLines [] [] 0) /\
  exists s', consoleintr [97; 120; 8; 98; 13] boot_console = Ret () s' /\ input_rep s' (mkLines [97; 98; 10] [] 1).
Proof.
  assert (screen_ok boot_console) as Hs by (split_and!; [done|cbn [cursor]; unfold SCREEN; lia..|cbn [crt]; rewrite length_replicate; unfold SCREEN; lia]).
  assert (input_rep boot_console (mkLines [] [] 0)) as Hr by (split; cbn [ibuf ir iw ie wakeups committed editing told]; simpl; try done; lia).
  split; [exact Hs|]. split; [exact Hr|]. destruct (console_line_discipline _ _ _ _ Hs Hr) as [H _].
  destruct (H [97; 120; 8; 98; 13]) as (s' & E & _ & Hr'); [repeat (constructor; [lia|]); constructor|].
  exists s'. split; [exact E|exact Hr'].
Defined.
