(* ===== verification/Umalloc.v ===== *)
(** * The allocator of the user library

    umalloc.c: the allocator of Kernighan and Ritchie, over a memory of 32-bit words and the
    [sbrk] of the kernel.  The free blocks form a ring through their headers, in
    the order of their addresses; the static header [base], of size 0, is always on
    it.  A header takes 8 bytes, [s.ptr] and then [s.size]; sizes count headers. *)

From stdpp Require Import gmap sorting.
From S2P Require Import Prelude.
Open Scope Z_scope.

Record uheap := mkHeap { word : Z -> Z; freep : Z; brk : Z }.
Definition set_word (a v : Z) (s : uheap) : uheap := mkHeap (fun x => if x =? a then v else word s x) (freep s) (brk s).
Definition set_freep (p : Z) (s : uheap) : uheap := mkHeap (word s) p (brk s).

Definition s_ptr (s : uheap) (p : Z) : Z := word s p.
Definition s_size (s : uheap) (p : Z) : Z := word s (p + 4).
Definition set_ptr (p v : Z) : uheap -> uheap := set_word p v.
Definition set_size (p v : Z) : uheap -> uheap := set_word (p + 4) v.

(** [sizeof(Header)], and [p + n] for a header pointer. *)
Definition HSIZE : Z := 8.
Definition hdr (p n : Z) : Z := u32 (p + HSIZE * n).

Section umalloc.
(** The address of [base], and the system call. *)
Context (BASE : Z) (sbrk : Z -> M uheap Z).

(** The search of [free] for the place of [bp]. *)
Fixpoint free_loop (fuel : nat) (bp p : Z) : M uheap Z :=
  match fuel with
  | O => sleeps
  | S fuel' =>
      let* s := get in
      if (p <? bp) && (bp <? s_ptr s p) then ret p
      else if (s_ptr s p <=? p) && ((p <? bp) || (bp <? s_ptr s p)) then ret p
      else free_loop fuel' bp (s_ptr s p)
  end.

(** [free] once the place is found: the block goes in after [p]. *)
Definition free_at (bp p : Z) : M uheap () :=
  let* s := get in
  (if hdr bp (s_size s bp) =? s_ptr s p then
     modify (set_size bp (u32 (s_size s bp + s_size s (s_ptr s p)))) ;;;
     let* s := get in
     modify (set_ptr bp (s_ptr s (s_ptr s p)))
   else modify (set_ptr bp (s_ptr s p))) ;;;
  let* s := get in
  (if hdr p (s_size s p) =? bp then
     modify (set_size p (u32 (s_size s p + s_size s bp))) ;;;
     let* s := get in
     modify (set_ptr p (s_ptr s bp))
   else modify (set_ptr p bp)) ;;;
  modify (set_freep p).

Definition free (fuel : nat) (ap : Z) : M uheap () :=
  let bp := hdr ap (-1) in
  let* s := get in
  let* p := free_loop fuel bp (freep s) in
  free_at bp p.

Definition morecore (fuel : nat) (nu : Z) : M uheap Z :=
  let nu := if nu <? 4096 then 4096 else nu in
  let* p := sbrk (s32 (nu * HSIZE)) in
  if p =? 0xffffffff then ret 0
  else
    modify (set_size p nu) ;;;
    free fuel (hdr p 1) ;;;
    gets freep.

(** The loop of [malloc]. *)
Fixpoint malloc_loop (fuel : nat) (nunits prevp p : Z) : M uheap Z :=
  match fuel with
  | O => sleeps
  | S fuel' =>
      let* s := get in
      if nunits <=? s_size s p then
        let* p := (if s_size s p =? nunits then modify (set_ptr prevp (s_ptr s p)) ;;; ret p
                   else
                     modify (set_size p (u32 (s_size s p - nunits))) ;;;
                     let* s := get in
                     let p := hdr p (s_size s p) in
                     modify (set_size p nunits) ;;;
                     ret p) in
        modify (set_freep prevp) ;;;
        ret (hdr p 1)
      else
        let next p := (let* s := get in malloc_loop fuel' nunits p (s_ptr s p)) in
        if p =? freep s then
          let* p := morecore fuel' nunits in
          if p =? 0 then ret 0 else next p
        else next p
  end.

Definition malloc (fuel : nat) (nbytes : Z) : M uheap Z :=
  let nunits := u32 (u32 (nbytes + HSIZE - 1) / HSIZE + 1) in
  let* s := get in
  (if freep s =? 0 then
     modify (set_freep BASE) ;;;
     modify (set_ptr BASE BASE) ;;;
     modify (set_size BASE 0)
   else ret ()) ;;;
  let* s := get in
  malloc_loop fuel nunits (freep s) (s_ptr s (freep s)).
End umalloc.

(** ** The ring *)

(** A block: the address of its header and its size.  [base] has size 0, but its header
    takes room too. *)
Abbreviation block := (Z * Z)%type.
Definition ext (b : block) : Z := b.1 + HSIZE * Z.max 1 b.2.
Definition before (b c : block) : Prop := ext b < c.1.
Definition apart (b c : block) : Prop := ext b <= c.1 \/ ext c <= b.1.

(** The headers of [l] are linked in order, and the last one points to [q]. *)
Fixpoint links (s : uheap) (l : list block) (q : Z) : Prop :=
  match l with
  | [] => True
  | b :: l' => s_size s b.1 = b.2 /\ s_ptr s b.1 = match l' with [] => q | c :: _ => c.1 end /\ links s l' q
  end.

Lemma links_app s l1 l2 q : links s (l1 ++ l2) q <-> links s l1 (match l2 with [] => q | c :: _ => c.1 end) /\ links s l2 q.
Proof.
  induction l1 as [|b l1 IH]; simpl; [tauto|]. rewrite IH. destruct l1 as [|c l1]; simpl; [|tauto].
  destruct l2; tauto.
Qed.

Lemma links_frame s s' l q :
  (forall b, b ∈ l -> s_size s' b.1 = s_size s b.1 /\ s_ptr s' b.1 = s_ptr s b.1) -> links s l q -> links s' l q.
Proof.
  induction l as [|b l IH]; [done|]. intros H (H1 & H2 & H3). destruct (H b) as [E1 E2]; [by left|].
  simpl. rewrite E1, E2. split_and!; try done. apply IH; [|done]. intros c Hc. apply H. by right.
Qed.

Lemma sorted_split l1 b l2 : StronglySorted before (l1 ++ b :: l2) <->
  StronglySorted before l1 /\ StronglySorted before l2 /\ (forall c, c ∈ l1 -> before c b) /\ (forall c, c ∈ l2 -> before b c) /\
  (forall c d, c ∈ l1 -> d ∈ l2 -> before c d).
Proof.
  rewrite StronglySorted_app, StronglySorted_cons, Forall_forall. set_solver.
Qed.

Lemma sorted_shrink l1 a n m l2 : m <= n -> StronglySorted before (l1 ++ (a, n) :: l2) -> StronglySorted before (l1 ++ (a, m) :: l2).
Proof.
  rewrite !sorted_split. intros Hm (S1 & S2 & H1 & H2 & H3). split_and!; try done.
  intros c Hc. specialize (H2 c Hc). unfold before, ext, HSIZE in *. simpl in *. lia.
Qed.

Section heap.
Context (BASE : Z) (sbrk : Z -> M uheap Z).

(** The free blocks [L], [base] first, and the live blocks [al], tile a part of the memory
    below the break. *)
Record heap_ok (s : uheap) (L al : list block) : Prop := {
  ok_base : 0 < BASE /\ head L = Some (BASE, 0);
  ok_links : links s L BASE;
  ok_sorted : StronglySorted before L;
  ok_freep : exists n, (freep s, n) ∈ L;
  ok_free b : b ∈ tail L -> 0 < b.2;
  ok_live b : b ∈ al -> 0 < b.2 /\ s_size s b.1 = b.2 /\ BASE + HSIZE < b.1;
  ok_top b : b ∈ L ++ al -> ext b <= brk s;
  ok_apart b c : b ∈ al -> c ∈ L -> apart b c;
  ok_live_apart b c : b ∈ al -> c ∈ al -> b.1 <> c.1 -> apart b c;
  ok_nodup : NoDup al.*1;
  ok_brk : BASE + HSIZE < brk s < 2 ^ 31 }.

(** *** Freeing a block

    [free] joins the block [bp] with the one after it and with the one before it, where
    they touch. *)
Definition join_right (bp n : Z) (L2 : list block) : Z * list block :=
  match L2 with
  | (q, qn) :: L2' => if bp + HSIZE * n =? q then (n + qn, L2') else (n, L2)
  | [] => (n, [])
  end.
Definition join_left (p pn bp : Z) (r : Z * list block) : list block :=
  if p + HSIZE * pn =? bp then (p, pn + r.1) :: r.2 else (p, pn) :: (bp, r.1) :: r.2.

Lemma join_left_hd p pn bp r q : match join_left p pn bp r with [] => q | c :: _ => c.1 end = p.
Proof. unfold join_left. by destruct (_ =? bp). Qed.

(** What the two steps leave alone. *)
Definition only (p : Z) (s s' : uheap) : Prop :=
  freep s' = freep s /\ brk s' = brk s /\ forall x, x < p \/ p + HSIZE <= x -> word s' x = word s x.

Lemma word_set s a v x : word (set_word a v s) x = if x =? a then v else word s x.
Proof. done. Qed.
Ltac words := unfold s_size, s_ptr, set_size, set_ptr, HSIZE in *; rewrite ?word_set; rewrite ?Z.eqb_refl;
  repeat match goal with |- context [?x =? ?a] => replace (x =? a) with false by lia end.

Lemma only_headers p s s' l q : only p s s' -> (forall b, b ∈ l -> b.1 + HSIZE <= p \/ p + HSIZE <= b.1) -> links s l q -> links s' l q.
Proof.
  intros (_ & _ & Ho) Hl. apply links_frame. intros b Hb. unfold s_size, s_ptr. specialize (Hl b Hb). unfold HSIZE in *.
  split; apply Ho; lia.
Qed.

Lemma join_right_run s p bp n L2 :
  p + HSIZE <= bp -> 0 < n -> bp + HSIZE * n < 2 ^ 31 -> BASE < bp -> links s L2 BASE -> s_ptr s p = match L2 with [] => BASE | c :: _ => c.1 end ->
  s_size s bp = n -> (forall c, c ∈ L2 -> bp + HSIZE * n <= c.1 /\ 0 < c.2 /\ ext c < 2 ^ 31) -> StronglySorted before L2 -> 0 < BASE ->
  exists s1, (if hdr bp (s_size s bp) =? s_ptr s p then
       modify (set_size bp (u32 (s_size s bp + s_size s (s_ptr s p)))) ;;;
       let* s := get in modify (set_ptr bp (s_ptr s (s_ptr s p)))
     else modify (set_ptr bp (s_ptr s p))) s = Ret () s1 /\
    only bp s s1 /\ links s1 ((bp, (join_right bp n L2).1) :: (join_right bp n L2).2) BASE.
Proof.
  intros Hp Hn Hb HB Hl Hptr Hs Hc HS H0. unfold hdr. rewrite Hs, Hptr, u32_small by (unfold HSIZE in *; lia).
  assert (forall v s', s_ptr (set_ptr bp v s') bp = v /\ s_size (set_ptr bp v s') bp = s_size s' bp) as Hset by (intros; split; by words).
  assert (forall v, only bp s (set_ptr bp v s)) as Honly by (intros; split_and!; try done; intros; by words).
  destruct L2 as [|[q qn] L2]; cbn [join_right].
  - replace (_ =? BASE) with false by (unfold HSIZE; lia). eexists. split; [done|]. split; [done|]. destruct (Hset BASE s) as [E1 E2].
    cbn [links fst snd]. by rewrite E1, E2.
  - destruct (Hc (q, qn)) as (Hq & Hqn & He); [by left|]. cbn [fst snd] in *. destruct Hl as (Hq1 & Hq2 & Hl). cbn [fst snd] in *.
    apply StronglySorted_cons in HS as [Hbe HS]. rewrite Forall_forall in Hbe.
    destruct (bp + HSIZE * n =? q) eqn:E; bsplit; cbn [fst snd].
    + set (s' := set_size bp (u32 (n + s_size s q)) s). assert (only bp s s') as O1 by (split_and!; try done; intros; unfold s'; by words).
      assert (s_ptr s' p = q) as P1 by (unfold s'; words; exact Hptr). set (v := match L2 with [] => BASE | c :: _ => c.1 end) in *.
      assert (s_ptr s' q = v) as P2 by (unfold s'; words; exact Hq2).
      exists (set_ptr bp v s'). split; [unfold bind, modify, get; cbv beta iota; fold s'; by rewrite P1, P2|].
      assert (only bp s (set_ptr bp v s')) as O2 by (destruct O1 as (? & ? & O1); split_and!; try done; intros; words; apply O1; unfold HSIZE; lia).
      split; [done|]. destruct (Hset v s') as [E1 E2]. cbn [links fst snd]. rewrite E1, E2. split_and!; [|done|].
      * unfold s'. words. rewrite Hq1. apply u32_small. unfold ext, HSIZE in *. simpl in *. lia.
      * eapply only_headers; [exact O2| |exact Hl]. intros c Hcc. right. specialize (Hbe c Hcc). unfold before, ext, HSIZE in *. simpl in *. lia.
    + eexists. split; [done|]. split; [done|]. destruct (Hset q s) as [E1 E2].
      split; [cbn [fst snd]; by rewrite E2|]. split; [exact E1|].
      eapply (only_headers bp s); [done| |by split_and!]. intros c Hcc. right. destruct (Hc c Hcc). unfold HSIZE in *. lia.
Qed.

Lemma join_left_run s p pn bp n L2 :
  p + HSIZE <= bp -> 0 <= pn -> p + HSIZE * pn <= bp -> 0 < n -> 0 < p -> ext (bp, n) < 2 ^ 31 ->
  s_size s p = pn -> links s ((bp, n) :: L2) BASE -> (forall c, c ∈ L2 -> bp < c.1) ->
  exists s1, (if hdr p (s_size s p) =? bp then
       modify (set_size p (u32 (s_size s p + s_size s bp))) ;;;
       let* s := get in modify (set_ptr p (s_ptr s bp))
     else modify (set_ptr p bp)) s = Ret () s1 /\
    only p s s1 /\ links s1 (join_left p pn bp (n, L2)) BASE.
Proof.
  intros Hp Hpn He Hn H0 Hb Hs Hl Hc. unfold ext, HSIZE in *. simpl in Hb.
  assert (forall b, b ∈ (bp, n) :: L2 -> b.1 + HSIZE <= p \/ p + HSIZE <= b.1) as Hsep.
  { intros b Hbl. right. apply elem_of_cons in Hbl as [->|Hbl]; [done|]. specialize (Hc b Hbl). unfold HSIZE. lia. }
  unfold hdr. rewrite Hs, u32_small by (unfold HSIZE; lia). unfold join_left. cbn [fst snd]. unfold HSIZE at 1 2.
  destruct (p + 8 * pn =? bp) eqn:E; bsplit.
  - pose proof Hl as (E1 & E2 & _). cbn [fst snd] in *. rewrite E1.
    set (s' := set_size p (u32 (pn + n)) s). set (v := match L2 with [] => BASE | c :: _ => c.1 end) in *.
    assert (s_ptr s' bp = v) as P1 by (unfold s'; words; exact E2).
    exists (set_ptr p v s'). split; [unfold bind, modify, get; cbv beta iota; fold s'; by rewrite P1|].
    assert (only p s (set_ptr p v s')) as O by (split_and!; try done; intros; unfold s'; by words).
    split; [done|]. cbn [links fst snd]. split_and!.
    + unfold s'. words. apply u32_small. lia.
    + by words.
    + eapply only_headers in Hl; [|exact O|exact Hsep]. by destruct Hl as (_ & _ & ?).
  - exists (set_ptr p bp s). split; [done|]. assert (only p s (set_ptr p bp s)) as O by (split_and!; try done; intros; by words).
    split; [done|]. split; [cbn [fst snd]; words; exact Hs|]. split; [cbn [fst snd]; by words|]. by eapply only_headers in Hl.
Qed.

(** *** Walking round the ring *)

(** The index after [i], and the steps from [i] to [j]. *)
Definition nxt (len i : nat) : nat := if (S i <? len)%nat then S i else 0%nat.
Definition steps (len i j : nat) : nat := if (i <=? j)%nat then (j - i)%nat else (len - i + j)%nat.

Lemma steps_nxt len i j k : (i < len)%nat -> (j < len)%nat -> steps len i j = S k -> steps len (nxt len i) j = k.
Proof. unfold steps, nxt. intros Hi Hj. destruct (Nat.ltb_spec (S i) len), (Nat.leb_spec i j); case_match eqn:E; rewrite ?Nat.leb_le, ?Nat.leb_gt in E; lia. Qed.
Lemma steps_0 len i j : (i < len)%nat -> (j < len)%nat -> steps len i j = 0%nat -> i = j.
Proof. unfold steps. intros Hi Hj. destruct (Nat.leb_spec i j); lia. Qed.
Lemma steps_lt len i j : (i < len)%nat -> (j < len)%nat -> (steps len i j < len)%nat.
Proof. unfold steps. intros Hi Hj. destruct (Nat.leb_spec i j); lia. Qed.

Lemma steps_round len i : (i < len)%nat -> steps len (nxt len i) i = (len - 1)%nat.
Proof. unfold steps, nxt. intros Hi. destruct (Nat.ltb_spec (S i) len); case_match eqn:E; rewrite ?Nat.leb_le, ?Nat.leb_gt in E; lia. Qed.

Lemma links_at s L q i b : links s L q -> L !! i = Some b ->
  s_size s b.1 = b.2 /\ s_ptr s b.1 = match L !! S i with Some c => c.1 | None => q end.
Proof.
  revert i. induction L as [|a L IH]; intros i Hl; [done|]. destruct Hl as (H1 & H2 & H3).
  destruct i as [|i]; cbn [lookup list_lookup]; [|by apply IH]. intros [= <-]. split; [done|]. rewrite H2. by destruct L.
Qed.

Lemma links_nxt s L i b : links s L BASE -> head L = Some (BASE, 0) -> L !! i = Some b ->
  exists c, L !! nxt (length L) i = Some c /\ s_ptr s b.1 = c.1.
Proof.
  intros Hl Hh Hi. destruct (links_at _ _ _ _ _ Hl Hi) as [_ Hp]. unfold nxt. destruct (Nat.ltb_spec (S i) (length L)) as [E|E].
  - destruct (lookup_lt_is_Some_2 L (S i) E) as [c Hc]. rewrite Hc in Hp. by exists c.
  - rewrite lookup_ge_None_2 in Hp by lia. exists (BASE, 0). split; [|done]. by destruct L.
Qed.

Lemma sorted_lookup L i j b c : StronglySorted before L -> (i < j)%nat -> L !! i = Some b -> L !! j = Some c -> before b c.
Proof.
  intros HS Hij Hi Hj. apply list_elem_of_split_length in Hi as (l1 & l2 & -> & ->). apply sorted_split in HS as (_ & _ & _ & H & _).
  apply H. rewrite lookup_app_r, lookup_cons_ne_0 in Hj by lia. by eapply list_elem_of_lookup_2.
Qed.

Lemma sorted_inj L i j b c : StronglySorted before L -> L !! i = Some b -> L !! j = Some c -> b.1 = c.1 -> i = j.
Proof.
  intros HS Hi Hj E. destruct (lt_eq_lt_dec i j) as [[Hlt|?]|Hlt]; [|done|];
    [pose proof (sorted_lookup _ i j _ _ HS Hlt Hi Hj) as H|pose proof (sorted_lookup _ j i _ _ HS Hlt Hj Hi) as H];
    unfold before, ext, HSIZE in H; lia.
Qed.

(** The place of an address on the ring: after the last header below it. *)
Lemma place L bp b0 : StronglySorted before L -> head L = Some b0 -> b0.1 < bp -> (forall c, c ∈ L -> c.1 <> bp) ->
  exists L1 b L2, L = L1 ++ b :: L2 /\ b.1 < bp /\ forall c, c ∈ L2 -> bp < c.1.
Proof.
  revert b0. induction L as [|b L IH]; intros b0 HS Hh H0 Hne; [done|]. injection Hh as ->.
  apply StronglySorted_cons in HS as [Hb HS]. rewrite Forall_forall in Hb. destruct L as [|c L].
  { exists [], b0, []. split_and!; try done. intros c Hc. by apply not_elem_of_nil in Hc. }
  destruct (decide (c.1 < bp)).
  - destruct (IH c) as (L1 & b & L2 & E & H1 & H2); try done; [intros; apply Hne; by right|].
    exists (b0 :: L1), b, L2. rewrite E. by split_and!.
  - exists [], b0, (c :: L). split_and!; try done. assert (c.1 <> bp) by (apply Hne; set_solver).
    intros d Hd. apply elem_of_cons in Hd as [->|Hd]; [lia|]. apply StronglySorted_cons in HS as [Hc _].
    rewrite Forall_forall in Hc. specialize (Hc d Hd). unfold before, ext, HSIZE in Hc. lia.
Qed.

Lemma free_walk s L bp L1 b L2 f : links s L BASE -> head L = Some (BASE, 0) -> StronglySorted before L ->
  L = L1 ++ b :: L2 -> b.1 < bp -> (forall c, c ∈ L2 -> bp < c.1) -> BASE < bp ->
  forall k i a, steps (length L) i (length L1) = k -> L !! i = Some a -> free_loop (S k + f) bp a.1 s = Ret b.1 s.
Proof.
  intros Hl Hh HS EL Hb HL2 HB. assert (length L1 < length L)%nat as Hj by (rewrite EL, length_app; simpl; lia).
  assert (L !! length L1 = Some b) as Hbj by (rewrite EL; by rewrite list_lookup_middle).
  assert (L !! 0%nat = Some (BASE, 0)) as H00 by (by destruct L).
  assert (forall i c, (length L1 < i)%nat -> L !! i = Some c -> bp < c.1) as Hafter.
  { intros i c Hi Hc. apply HL2. rewrite EL, lookup_app_r, lookup_cons_ne_0 in Hc by lia. by eapply list_elem_of_lookup_2. }
  induction k as [|k IH]; intros i a Hk Ha; pose proof (lookup_lt_Some _ _ _ Ha) as Hi;
    destruct (links_nxt _ _ _ _ Hl Hh Ha) as (c & Hc & Ec); cbn [Nat.add free_loop]; unfold bind, get; rewrite Ec.
  - apply steps_0 in Hk; [|done..]. subst i. assert (a = b) as -> by congruence. replace (b.1 <? bp) with true by lia. cbn [andb orb].
    unfold nxt in Hc. destruct (Nat.ltb_spec (S (length L1)) (length L)) as [E|E].
    + apply Hafter in Hc; [|lia]. by replace (bp <? c.1) with true by lia.
    + assert (c = (BASE, 0)) as -> by congruence. cbn [fst]. replace (bp <? BASE) with false by lia.
      replace (BASE <=? b.1) with true; [done|]. destruct (decide (length L1 = 0%nat)) as [E0|E0].
      * rewrite E0 in Hbj. assert (b = (BASE, 0)) as -> by congruence. simpl. lia.
      * pose proof (sorted_lookup _ 0 (length L1) _ _ HS ltac:(lia) H00 Hbj) as Hx. unfold before, ext, HSIZE in Hx. simpl in Hx. lia.
  - pose proof (steps_nxt _ _ _ _ Hi Hj Hk) as Hn. specialize (IH _ _ Hn Hc).
    assert ((a.1 <? bp) && (bp <? c.1) = false /\ (c.1 <=? a.1) && ((a.1 <? bp) || (bp <? c.1)) = false) as [-> ->]; [|exact IH].
    destruct (decide (i < length L1)%nat) as [Hlt|Hge].
    + unfold nxt in Hc. destruct (Nat.ltb_spec (S i) (length L)) as [E|E]; [|lia].
      pose proof (sorted_lookup _ i (S i) _ _ HS ltac:(lia) Ha Hc) as Hx. unfold before, ext, HSIZE in Hx.
      assert (c.1 <= b.1); [|split; lia]. destruct (decide (S i = length L1)) as [E1|E1]; [rewrite E1 in Hc; simplify_eq; lia|].
      pose proof (sorted_lookup _ (S i) (length L1) _ _ HS ltac:(lia) Hc Hbj) as Hy. unfold before, ext, HSIZE in Hy. lia.
    + assert (i <> length L1) as Hne by (intros ->; unfold steps in Hk; rewrite Nat.leb_refl in Hk; lia).
      pose proof (Hafter i a ltac:(lia) Ha). unfold nxt in Hc. destruct (Nat.ltb_spec (S i) (length L)) as [E|E].
      * pose proof (sorted_lookup _ i (S i) _ _ HS ltac:(lia) Ha Hc) as Hx. unfold before, ext, HSIZE in Hx. split; lia.
      * assert (c = (BASE, 0)) as -> by congruence. cbn [fst]. split; lia.
Qed.

(** *** The blocks after a [free] *)

Definition covers (b : block) (x : Z) : Prop := b.1 <= x < ext b.
Lemma apart_covers b c : apart b c <-> forall x, ~ (covers b x /\ covers c x).
Proof.
  unfold apart, covers, ext, HSIZE. split; [lia|]. intros H.
  specialize (H (Z.max b.1 c.1)). lia.
Qed.

Lemma join_right_facts bp n L2 : 0 < n -> StronglySorted before L2 -> (forall c, c ∈ L2 -> bp + HSIZE * n <= c.1 /\ 0 < c.2) ->
  let r := join_right bp n L2 in
  n <= r.1 /\ StronglySorted before r.2 /\ (forall c, c ∈ r.2 -> c ∈ L2 /\ before (bp, r.1) c) /\
  (forall x, covers (bp, r.1) x -> covers (bp, n) x \/ exists c, c ∈ L2 /\ covers c x) /\ (length r.2 <= length L2)%nat.
Proof.
  intros Hn HS Hc. destruct L2 as [|[q qn] L2]; cbn [join_right].
  { cbn. split_and!; [lia|done|intros c Hcc; by apply not_elem_of_nil in Hcc|tauto|done]. }
  destruct (Hc (q, qn)) as [Hq Hqn]; [by left|]. cbn [fst snd] in *. pose proof HS as [Hb HS2]%StronglySorted_cons. rewrite Forall_forall in Hb.
  destruct (bp + HSIZE * n =? q) eqn:E; bsplit; cbn [fst snd length].
  - split_and!; [lia|done| | |lia].
    + intros c Hcc. split; [by right|]. specialize (Hb c Hcc). unfold before, ext, HSIZE in *. simpl in *. lia.
    + intros x Hx. unfold covers, ext, HSIZE in *. simpl in *. destruct (decide (x < q)); [left; lia|]. right. exists (q, qn). split; [by left|]. simpl. lia.
  - split_and!; [lia|done| |tauto|lia]. intros c Hcc. split; [done|]. unfold before, ext, HSIZE in *. simpl.
    apply elem_of_cons in Hcc as [->|Hcc]; simpl; [lia|]. specialize (Hb c Hcc). simpl in Hb. lia.
Qed.

Lemma join_left_facts L1 p pn bp n L2 : 0 < n -> 0 <= pn -> ext (p, pn) <= bp -> (pn = 0 -> ext (p, pn) < bp) ->
  StronglySorted before (L1 ++ (p, pn) :: L2) -> (forall c, c ∈ L2 -> before (bp, n) c) ->
  let l := join_left p pn bp (n, L2) in
  StronglySorted before (L1 ++ l) /\ (exists m, (p, m) ∈ l) /\ (exists b, b ∈ l /\ n <= b.2) /\
  (forall b, b ∈ l -> b ∈ L2 \/ (b.1 = p /\ pn <= b.2) \/ b.1 = bp /\ 0 < b.2) /\
  (forall b x, b ∈ l -> covers b x -> covers (p, pn) x \/ covers (bp, n) x \/ exists c, c ∈ L2 /\ covers c x) /\
  (length l <= 2 + length L2)%nat /\ (pn = 0 -> l = (p, 0) :: (bp, n) :: L2).
Proof.
  intros Hn Hpn He He0 HS Hc. apply sorted_split in HS as (S1 & S2 & H1 & H2 & H3). unfold join_left. cbn [fst snd].
  destruct (p + HSIZE * pn =? bp) eqn:E; bsplit; cbv zeta; unfold ext, HSIZE in *; cbn [fst snd] in *.
  - assert (0 < pn) by lia. split_and!; [|by eexists; left|eexists; split; [by left|simpl; lia]| | |simpl; lia|lia].
    + apply sorted_split. split_and!; try done. intros c Hcc. specialize (Hc c Hcc). unfold before, ext, HSIZE in *. simpl in *. lia.
    + intros b Hb. apply elem_of_cons in Hb as [->|Hb]; [right; left; simpl; lia|by left].
    + intros b x Hb Hx. apply elem_of_cons in Hb as [->|Hb]; [|right; right; by exists b].
      unfold covers, ext, HSIZE in *. simpl in *. lia.
  - split_and!; [|by eexists; left|eexists; split; [by right; left|simpl; lia]| | |simpl; lia|by intros ->].
    + apply sorted_split. assert (before (p, pn) (bp, n)) as Hpb by (unfold before, ext, HSIZE; simpl; lia).
      split_and!; [done|by apply StronglySorted_cons; split; [apply Forall_forall|]|done| |].
      * intros c Hcc. apply elem_of_cons in Hcc as [->|Hcc]; auto.
      * intros c d Hcc Hd. apply elem_of_cons in Hd as [->|Hd]; [|by auto].
        specialize (H1 c Hcc). unfold before, ext, HSIZE in *. simpl in *. lia.
    + intros b Hb. apply elem_of_cons in Hb as [->|Hb]; [right; left; simpl; lia|].
      apply elem_of_cons in Hb as [->|Hb]; [right; right; simpl; lia|by left].
    + intros b x Hb Hx. apply elem_of_cons in Hb as [->|Hb]; [by left|]. apply elem_of_cons in Hb as [->|Hb]; [by right; left|].
      right; right; by exists b.
Qed.

(** The words of the blocks [al] are the same. *)
Definition kept (al : list block) (s s' : uheap) : Prop := forall b x, b ∈ al -> covers b x -> word s' x = word s x.

Lemma ok_live_cons s L b al : heap_ok s L (b :: al) -> forall c, c ∈ al -> apart c b.
Proof.
  intros [_ _ _ _ _ _ _ _ B9 B10 _] c Hc. apply NoDup_cons in B10 as [B10 _]. apply B9; [by right|by left|].
  intros E. apply B10. rewrite <- E. by apply list_elem_of_fmap_2.
Qed.

(** A new ring whose blocks cover no more than the old one and [b] did. *)
Lemma heap_ok_free s s' L L' b al :
  heap_ok s L (b :: al) -> head L' = Some (BASE, 0) -> links s' L' BASE -> StronglySorted before L' ->
  (exists n, (freep s', n) ∈ L') -> (forall c, c ∈ tail L' -> 0 < c.2) -> brk s' = brk s -> kept al s s' ->
  (forall c x, c ∈ L' -> covers c x -> exists d, d ∈ b :: L /\ covers d x) -> heap_ok s' L' al.
Proof.
  intros Hok H1 H2 H3 H4 H5 H6 H7 H8. pose proof Hok as [B1 B2 B3 B4 B5 B6 B7 B8 B9 B10 B11]. apply NoDup_cons in B10 as [B10 B10'].
  assert (forall c d, c ∈ al -> d ∈ L' -> apart c d) as HA.
  { intros c d Hc Hd. apply apart_covers. intros x [X1 X2]. destruct (H8 d x Hd X2) as (e & He & X3).
    apply elem_of_cons in He as [->|He].
    - exact (proj1 (apart_covers c b) (ok_live_cons _ _ _ _ Hok c Hc) x (conj X1 X3)).
    - assert (apart c e) as Ha; [|exact (proj1 (apart_covers c e) Ha x (conj X1 X3))]. apply B8; [by right|done]. }
  split; try done; [tauto| | | |by rewrite H6].
  - intros c Hc. destruct (B6 c) as (X1 & X2 & X3); [by right|]. split_and!; try done. unfold s_size in *.
    rewrite (H7 c); [done|done|]. unfold covers, ext, HSIZE. lia.
  - intros c Hc. rewrite H6. apply elem_of_app in Hc as [Hc|Hc]; [|apply B7; set_solver].
    destruct (H8 c (ext c - 1)) as (d & Hd & X); [done|unfold covers, ext, HSIZE; lia|].
    assert (ext d <= brk s) by (apply B7; set_solver). unfold covers in X. lia.
  - intros c d Hc Hd. apply B9; by right.
Qed.

(** The two places where [free] writes: around a block that is about to go back. *)
Lemma free_place s L al bp n : heap_ok s L ((bp, n) :: al) ->
  exists L1 p pn L2, L = L1 ++ (p, pn) :: L2 /\ p < bp /\ ext (p, pn) <= bp /\ (pn = 0 -> ext (p, pn) < bp) /\ 0 <= pn /\ 0 < p /\
    (forall c, c ∈ L2 -> bp + HSIZE * n <= c.1 /\ 0 < c.2 /\ ext c < 2 ^ 31).
Proof.
  intros [[B0 B1] B2 B3 [fn B4] B5 B6 B7 B8 B9 B10 B11]. destruct (B6 (bp, n)) as (Hn & Hs & HB); [by left|]. cbn [fst snd] in *.
  assert (forall c, c ∈ L -> apart (bp, n) c) as Ha by (intros; apply B8; [by left|done]).
  destruct (place L bp (BASE, 0)) as (L1 & [p pn] & L2 & EL & Hp & HL2); try done; [unfold HSIZE in *; simpl; lia| |].
  { intros c Hc E. specialize (Ha c Hc). unfold apart, ext, HSIZE in *. simpl in *. lia. }
  assert ((p, pn) = (BASE, 0) \/ (0 < pn /\ before (BASE, 0) (p, pn))) as Hcase.
  { destruct L1 as [|x L1]; [left; rewrite EL in B1; by injection B1 as -> ->|]. right.
    rewrite EL in B1, B3, B5. injection B1 as ->. split; [apply (B5 (p, pn)); set_solver|].
    apply StronglySorted_cons in B3 as [HF _]. rewrite Forall_forall in HF. apply HF. set_solver. }
  assert (apart (bp, n) (p, pn)) as Hpa by (apply Ha; set_solver). cbn [fst] in Hp.
  exists L1, p, pn, L2. unfold apart, before, ext, HSIZE in *. cbn [fst snd] in *. split_and!; [done|done|lia| |destruct Hcase; simplify_eq; lia..|].
  { intros ->. destruct Hcase as [[= -> ]|?]; simpl; lia. }
  intros c Hc. specialize (HL2 c Hc). assert (c ∈ tail L) as Ht by (rewrite EL; destruct L1; set_solver).
  assert (c ∈ L) as HcL by set_solver. specialize (Ha c HcL). specialize (B5 c Ht). specialize (B7 c (proj2 (elem_of_app _ _ _) (or_introl HcL))). simpl in *. lia.
Qed.

Lemma joined_positive L1 p pn bp n L2 L2' : let l := join_left p pn bp (n, L2') in
  head (L1 ++ (p, pn) :: L2) = Some (BASE, 0) -> (forall b, b ∈ tail (L1 ++ (p, pn) :: L2) -> 0 < b.2) -> 0 < n ->
  (pn = 0 -> l = (p, 0) :: (bp, n) :: L2') -> (forall b, b ∈ l -> b ∈ L2' \/ (b.1 = p /\ pn <= b.2) \/ b.1 = bp /\ 0 < b.2) ->
  (forall c, c ∈ L2' -> 0 < c.2) -> forall c, c ∈ tail (L1 ++ l) -> 0 < c.2.
Proof.
  intros l B1 B5 Hn F7 F4 H2 c Hc. destruct L1 as [|x L1].
  - injection B1 as -> ->. rewrite F7 in Hc by done. simpl in Hc. apply elem_of_cons in Hc as [->|Hc]; [done|by apply H2].
  - simpl in B5, Hc. assert (0 < pn) by (apply (B5 (p, pn)); apply elem_of_app; right; by left).
    apply elem_of_app in Hc as [Hc|Hc]; [apply B5, elem_of_app; by left|].
    destruct (F4 c Hc) as [X|[X|X]]; [by apply H2|lia..].
Qed.

Lemma free_at_run s L al bp n L1 p pn L2 : heap_ok s L ((bp, n) :: al) -> L = L1 ++ (p, pn) :: L2 ->
  ext (p, pn) <= bp -> (pn = 0 -> ext (p, pn) < bp) -> 0 <= pn -> 0 < p ->
  (forall c, c ∈ L2 -> bp + HSIZE * n <= c.1 /\ 0 < c.2 /\ ext c < 2 ^ 31) ->
  exists s' L', free_at bp p s = Ret () s' /\ heap_ok s' L' al /\ kept al s s' /\ brk s' = brk s /\
    (length L' <= S (length L))%nat /\ exists b, b ∈ L' /\ n <= b.2.
Proof.
  intros Hok EL He He0 Hpn Hp0 HL2. pose proof Hok as [[B0 B1] B2 B3 _ B5 B6 B7 B8 _ _ B11].
  destruct (B6 (bp, n)) as (Hn & Hs & HB); [by left|]. cbn [fst snd] in *.
  assert (ext (bp, n) <= brk s) as Htop by (apply B7; set_solver). unfold ext, HSIZE in Htop. cbn [fst snd] in Htop.
  pose proof B2 as BL. rewrite EL in BL. apply links_app in BL as [BL1 (Eps & Epp & BL2)]. cbn [fst snd] in *.
  pose proof B3 as BS. rewrite EL in BS. pose proof BS as (S1 & S2 & H1 & H2 & H3)%sorted_split.
  assert (p + HSIZE <= bp) as Hpb by (unfold ext, HSIZE in *; simpl in *; lia).
  destruct (join_right_facts bp n L2) as (R1 & R2 & R3 & R4 & R5); [done|done|intros c Hc; destruct (HL2 c Hc); tauto|].
  destruct (join_right_run s p bp n L2) as (s1 & E1 & O1 & K1); try done; [unfold HSIZE in *; lia|unfold HSIZE in *; lia|].
  unfold free_at. rewrite bind_get, (bind_ret _ _ _ _ _ E1), bind_get. destruct (join_right bp n L2) as [n' L2']. cbn [fst snd] in *.
  assert (s_size s1 p = pn) as Es1 by (rewrite <- Eps; apply O1; unfold HSIZE in *; lia).
  assert (StronglySorted before (L1 ++ (p, pn) :: L2')) as S3 by (apply sorted_split; split_and!; try done; intros; naive_solver).
  assert (ext (bp, n') < 2 ^ 31) as Htop'.
  { destruct (R4 (ext (bp, n') - 1)) as [X|(c & Hc & X)]; [unfold covers, ext, HSIZE; simpl; lia|unfold covers, ext, HSIZE in *; simpl in *; lia|].
    destruct (HL2 c Hc) as (_ & _ & ?). unfold covers in X. lia. }
  destruct (join_left_facts L1 p pn bp n' L2') as (F1 & F2 & (fb & F3 & F3') & F4 & F5 & F6 & F7); try done; [lia|naive_solver|].
  destruct (join_left_run s1 p pn bp n' L2') as (s2 & E2 & O2 & K2); try done; try (unfold ext, HSIZE in *; simpl in *; lia).
  { intros c Hc. destruct (R3 c Hc) as [Hc2 _]. destruct (HL2 c Hc2). unfold HSIZE in *. lia. }
  rewrite (bind_ret _ _ _ _ _ E2). exists (set_freep p s2), (L1 ++ join_left p pn bp (n', L2')).
  split; [done|]. set (s' := set_freep p s2).
  assert (kept al s s') as HK.
  { intros b x Hb X. assert (apart b (p, pn)) as A1 by (apply B8; [by right|rewrite EL; set_solver]).
    pose proof (ok_live_cons _ _ _ _ Hok b Hb) as A2. destruct O1 as (_ & _ & O1), O2 as (_ & _ & O2).
    change (word s' x) with (word s2 x). unfold apart, covers, ext, HSIZE in *. simpl in *. rewrite O2, O1 by lia. done. }
  assert (brk s' = brk s) as Hbrk by (destruct O1 as (_ & X & _), O2 as (_ & Y & _); simpl; congruence).
  split_and!; try done; [|rewrite EL, !length_app; simpl in *; lia|exists fb; split; [set_solver|lia]].
  apply (heap_ok_free s s' L _ (bp, n)); try done.
  - destruct L1 as [|x L1]; [|by rewrite EL in B1]. rewrite EL in B1. injection B1 as -> ->. by rewrite F7.
  - apply (links_frame s2); [done|]. apply links_app. split; [|exact K2]. rewrite join_left_hd.
    apply (only_headers p s1); [done| |apply (only_headers bp s); [done| |done]]; intros c Hc; specialize (H1 c Hc);
      unfold before, ext, HSIZE in *; simpl in *; lia.
  - destruct F2 as [m Hm]. exists m. simpl. set_solver.
  - rewrite EL in B1, B5. intros c Hc. eapply (joined_positive L1 p pn bp n' L2 L2'); try done; [lia|].
    intros d Hd. destruct (R3 d Hd) as [Hd2 _]. by apply HL2.
  - intros c x Hc X. apply elem_of_app in Hc as [Hc|Hc]; [exists c; split; [rewrite EL; set_solver|done]|].
    destruct (F5 c x Hc X) as [Y|[Y|(d & Hd & Y)]].
    + exists (p, pn). split; [rewrite EL; set_solver|done].
    + destruct (R4 x Y) as [Z|(d & Hd & Z)]; [exists (bp, n); split; [by left|done]|]. exists d. split; [rewrite EL; set_solver|done].
    + exists d. destruct (R3 d Hd). split; [rewrite EL; set_solver|done].
Qed.

Lemma free_run s L al bp n fuel : heap_ok s L ((bp, n) :: al) -> (length L <= fuel)%nat ->
  exists s' L', free fuel (hdr bp 1) s = Ret () s' /\ heap_ok s' L' al /\ kept al s s' /\ brk s' = brk s /\
    (length L' <= S (length L))%nat /\ exists b, b ∈ L' /\ n <= b.2.
Proof.
  intros Hok Hf. destruct (free_place _ _ _ _ _ Hok) as (L1 & p & pn & L2 & EL & Hp & He & He0 & Hpn & Hp0 & HL2).
  pose proof Hok as [[B0 B1] B2 B3 [fn B4] B5 B6 B7 B8 B9 B10 B11].
  destruct (B6 (bp, n)) as (Hn & Hs & HB); [by left|]. cbn [fst snd] in *.
  assert (ext (bp, n) <= brk s) as Htop by (apply B7; set_solver). unfold ext, HSIZE in Htop. cbn [fst snd] in Htop.
  assert (hdr (hdr bp 1) (-1) = bp) as Ebp by (unfold hdr, HSIZE in *; rewrite (u32_small (bp + 8 * 1)), u32_small by lia; lia).
  unfold free. cbv zeta. rewrite Ebp, bind_get.
  apply list_elem_of_lookup_1 in B4 as [i Hi].
  assert (free_loop fuel bp (freep s) s = Ret p s) as EF; [|rewrite (bind_ret _ _ _ _ _ EF); by eapply free_at_run].
  pose proof (steps_lt (length L) i (length L1)) as Hk. pose proof (lookup_lt_Some _ _ _ Hi).
  replace fuel with (S (steps (length L) i (length L1)) + (fuel - S (steps (length L) i (length L1))))%nat
    by (assert (length L1 < length L)%nat by (rewrite EL, length_app; simpl; lia); lia).
  eapply (free_walk s L bp L1 (p, pn) L2) with (a := (freep s, fn)); try done; [intros c Hc; destruct (HL2 c Hc); unfold HSIZE in *; lia|unfold HSIZE in *; lia].
Qed.

Lemma heap_freep s L al : heap_ok s L al -> freep s <> 0.
Proof.
  intros [[B0 B1] _ B3 [fn B4] _ _ _ _ _ _ _]. destruct L as [|x L]; [done|]. injection B1 as ->.
  apply elem_of_cons in B4 as [E4|B4]; [injection E4; lia|]. apply StronglySorted_cons in B3 as [HF _]. rewrite Forall_forall in HF.
  specialize (HF _ B4). unfold before, ext, HSIZE in HF. simpl in HF. lia.
Qed.

(** *** Taking a block *)

(** The block [b] that becomes live, and the new ring, cover disjoint parts of the
    old ring. *)
Lemma heap_ok_take s s' L L' b al :
  heap_ok s L al -> head L' = Some (BASE, 0) -> links s' L' BASE -> StronglySorted before L' ->
  (exists n, (freep s', n) ∈ L') -> (forall c, c ∈ tail L' -> 0 < c.2) -> brk s' = brk s -> kept al s s' ->
  0 < b.2 -> s_size s' b.1 = b.2 -> BASE + HSIZE < b.1 -> (forall c, c ∈ L' -> apart b c) ->
  (forall c x, c ∈ b :: L' -> covers c x -> exists d, d ∈ L /\ covers d x) -> heap_ok s' L' (b :: al).
Proof.
  intros Hok H1 H2 H3 H4 H5 H6 H7 N1 N2 N3 N4 H8. pose proof Hok as [B1 B2 B3 B4 B5 B6 B7 B8 B9 B10 B11].
  assert (forall c d, c ∈ al -> d ∈ b :: L' -> apart c d) as HA.
  { intros c d Hc Hd. apply apart_covers. intros x [X1 X2]. destruct (H8 d x Hd X2) as (e & He & X3).
    exact (proj1 (apart_covers c e) (B8 c e Hc He) x (conj X1 X3)). }
  assert (forall c, c ∈ al -> apart c b) as HAb by (intros; apply HA; [done|by left]).
  split; try done; [tauto| | | | | |by rewrite H6].
  - intros c Hc. apply elem_of_cons in Hc as [->|Hc]; [done|]. destruct (B6 c Hc) as (X1 & X2 & X3). split_and!; try done. unfold s_size in *.
    rewrite (H7 c); [done|done|]. unfold covers, ext, HSIZE. lia.
  - intros c Hc. rewrite H6. assert (c ∈ b :: L' \/ c ∈ al) as [Hc'|Hc'] by set_solver; [|apply B7; set_solver].
    destruct (H8 c (ext c - 1)) as (d & Hd & X); [done|unfold covers, ext, HSIZE; lia|].
    assert (ext d <= brk s) by (apply B7; set_solver). unfold covers in X. lia.
  - intros c d Hc Hd. apply elem_of_cons in Hc as [->|Hc]; [by apply N4|]. apply HA; [done|by right].
  - intros c d Hc Hd Hne. apply elem_of_cons in Hc as [->|Hc], Hd as [->|Hd]; [done| |by apply HAb|by apply B9].
    specialize (HAb d Hd). unfold apart in *. tauto.
  - apply NoDup_cons. split; [|done]. intros Hin. apply list_elem_of_fmap in Hin as (c & E & Hc). specialize (HAb c Hc).
    unfold apart, ext, HSIZE in HAb. lia.
Qed.

(** What [malloc] has done when it returns the block [q] of [n] headers. *)
Definition taken (al : list block) (n : Z) (s : uheap) (len : nat) (q : Z) (s' : uheap) : Prop :=
  exists L', heap_ok s' L' ((q, n) :: al) /\ kept al s s' /\ (length L' <= len)%nat.

(** A free block with its neighbours. *)
Lemma ring_split s L al L1 v vn p pn L2 : heap_ok s L al -> L = L1 ++ (v, vn) :: (p, pn) :: L2 ->
  links s L1 v /\ s_size s v = vn /\ s_ptr s v = p /\ s_size s p = pn /\ s_ptr s p = match L2 with [] => BASE | c :: _ => c.1 end /\
  links s L2 BASE /\ 0 < pn /\ before (v, vn) (p, pn) /\ (forall c, c ∈ L1 -> before c (v, vn)) /\ (forall c, c ∈ L2 -> before (p, pn) c) /\
  BASE + HSIZE < p /\ 0 < v /\ ext (p, pn) < 2 ^ 31 /\ (forall c, c ∈ al -> apart c (v, vn) /\ apart c (p, pn)).
Proof.
  intros Hok EL. pose proof Hok as [[B0 B1] B2 B3 _ B5 _ B7 B8 _ _ B11].
  assert (forall c, c = (v, vn) \/ c = (p, pn) -> c ∈ L) as Hin by (intros c [-> | ->]; rewrite EL; set_solver).
  assert (ext (p, pn) <= brk s) as Htop by (apply B7, elem_of_app; left; auto).
  assert (forall c, c ∈ al -> apart c (v, vn) /\ apart c (p, pn)) as Hal by (intros c Hc; split; apply B8; auto).
  rewrite EL in B1, B2, B3, B5. apply links_app in B2 as [BL1 (Evs & Evp & Eps & Epp & BL2)]. cbn [fst snd] in *.
  apply sorted_split in B3 as (S1 & S2 & H1 & H2 & H3). apply StronglySorted_cons in S2 as [HF _]. rewrite Forall_forall in HF.
  assert (before (v, vn) (p, pn)) as Hvp by (apply H2; by left).
  assert (0 < pn) as Hpn by (apply (B5 (p, pn)); destruct L1; set_solver).
  assert (BASE <= v) as Hv.
  { destruct L1 as [|x L1]; injection B1 as ->; [lia|]. specialize (H1 (BASE, 0) ltac:(by left)). unfold before, ext, HSIZE in H1. simpl in H1. lia. }
  split_and!; try done; unfold before, ext, HSIZE in *; simpl in *; lia.
Qed.

Lemma take_exact s L al L1 v vn p pn L2 : heap_ok s L al -> L = L1 ++ (v, vn) :: (p, pn) :: L2 ->
  taken al pn s (length L) p (set_freep v (set_ptr v (s_ptr s p) s)).
Proof.
  intros Hok EL. destruct (ring_split _ _ _ _ _ _ _ _ _ Hok EL) as (BL1 & Evs & Evp & Eps & Epp & BL2 & Hpn & Hvp & H1 & H2 & HB & Hv & Htop & Hal).
  pose proof Hok as [[B0 B1] _ B3 _ B5 _ _ _ _ _ _]. set (s1 := set_ptr v (s_ptr s p) s).
  assert (only v s s1) as O by (split_and!; try done; intros; unfold s1; by words).
  assert (forall c, c ∈ L1 ++ (v, vn) :: L2 -> c ∈ L /\ apart (p, pn) c) as Hsub.
  { intros c Hc. split; [rewrite EL; set_solver|]. unfold apart, before, ext, HSIZE in *. simpl in *.
    assert (c ∈ L1 \/ c = (v, vn) \/ c ∈ L2) as [X|[->|X]] by set_solver; [specialize (H1 c X)|simpl|specialize (H2 c X)]; lia. }
  assert (kept al s (set_freep v s1)) as HK.
  { intros b x Hb X. destruct (Hal b Hb) as [A1 A2]. apply O. unfold apart, covers, ext, HSIZE in *. simpl in *. lia. }
  exists (L1 ++ (v, vn) :: L2). split_and!; [|done|rewrite EL, !length_app; simpl; lia].
  apply (heap_ok_take s _ L); try done.
  - destruct L1; rewrite EL in B1; exact B1.
  - apply (links_frame s1); [done|]. apply links_app. unfold before, ext, HSIZE in *. simpl in *. split; [|split_and!].
    + eapply only_headers; [exact O| |done]. intros c Hc. specialize (H1 c Hc). unfold HSIZE. lia.
    + unfold s1. words. exact Evs.
    + unfold s1. words. exact Epp.
    + eapply only_headers; [exact O| |done]. intros c Hc. specialize (H2 c Hc). unfold HSIZE. lia.
  - rewrite EL in B3. apply sorted_split in B3 as (S1 & S2 & X1 & X2 & X3). apply StronglySorted_cons in S2 as [_ S2].
    apply sorted_split. split_and!; try done; intros; [apply X2|apply X3]; set_solver.
  - exists vn. set_solver.
  - intros c Hc. apply B5. rewrite EL. destruct L1; set_solver.
  - unfold s1. unfold before, ext in Hvp. simpl in *. words. exact Eps.
  - intros c Hc. by apply Hsub.
  - intros c x Hc X. exists c. split; [|done]. apply elem_of_cons in Hc as [->|Hc]; [rewrite EL; set_solver|by apply Hsub].
Qed.

Lemma take_tail s L al L1 v vn p pn L2 n : heap_ok s L al -> L = L1 ++ (v, vn) :: (p, pn) :: L2 -> 0 < n < pn ->
  let q := p + HSIZE * (pn - n) in
  taken al n s (length L) q (set_freep v (set_size q n (set_size p (pn - n) s))).
Proof.
  intros Hok EL Hn q. destruct (ring_split _ _ _ _ _ _ _ _ _ Hok EL) as (BL1 & Evs & Evp & Eps & Epp & BL2 & Hpn & Hvp & H1 & H2 & HB & Hv & Htop & Hal).
  pose proof Hok as [[B0 B1] _ B3 _ B5 _ _ _ _ _ _]. set (s1 := set_size q n (set_size p (pn - n) s)).
  assert (forall x, x <> p + 4 -> x <> q + 4 -> word s1 x = word s x) as O by (intros; unfold s1; by words).
  assert (p + HSIZE <= q /\ q + HSIZE * n = ext (p, pn)) as [Hq1 Hq2] by (unfold q, ext, HSIZE; simpl; lia).
  set (L' := L1 ++ (v, vn) :: (p, pn - n) :: L2).
  assert (forall c, c ∈ L' -> apart (q, n) c /\ (c = (p, pn - n) \/ c ∈ L)) as Hsub.
  { intros c Hc. assert (c ∈ L1 \/ c = (v, vn) \/ c = (p, pn - n) \/ c ∈ L2) as Hc4 by set_solver. split.
    - unfold apart, before, ext, HSIZE in *. simpl in *.
      destruct Hc4 as [X|[->|[->|X]]]; simpl; [specialize (H1 c X)| | |specialize (H2 c X)]; lia.
    - destruct Hc4 as [X|[->|[->|X]]]; [right|right|by left|right]; rewrite EL; set_solver. }
  assert (kept al s (set_freep v s1)) as HK.
  { intros b x Hb X. destruct (Hal b Hb) as [A1 A2]. apply O; unfold apart, covers, ext, HSIZE in *; simpl in *; lia. }
  assert (forall l, (forall c, c ∈ l -> c.1 <= v \/ ext (p, pn) <= c.1) -> forall t, links s l t -> links s1 l t) as HL.
  { intros l Hl t. apply links_frame. intros c Hc. specialize (Hl c Hc). unfold s_size, s_ptr, before, ext, HSIZE in *. simpl in *. split; apply O; lia. }
  exists L'. split_and!; [|done|unfold L'; rewrite EL, !length_app; simpl; lia].
  apply (heap_ok_take s _ L); try done.
  - unfold L'. destruct L1; rewrite EL in B1; exact B1.
  - apply (links_frame s1); [done|]. apply links_app. split.
    + apply HL; [|done]. intros c Hc. specialize (H1 c Hc). unfold before, ext, HSIZE in *. simpl in *. lia.
    + unfold before, ext in Hvp. simpl in Hvp. cbn [links fst snd]. split_and!; [unfold s1; words; exact Evs|unfold s1; words; exact Evp|unfold s1; by words|unfold s1; words; exact Epp|].
      apply HL; [|done]. intros c Hc. specialize (H2 c Hc). unfold before in H2. lia.
  - rewrite EL in B3. unfold L'. rewrite cons_middle, app_assoc in *. eapply sorted_shrink; [|exact B3]. lia.
  - exists vn. set_solver.
  - intros c Hc. destruct (decide (c = (p, pn - n))) as [->|Hne]; [simpl; lia|]. apply B5. rewrite EL. unfold L' in Hc. destruct L1; set_solver.
  - simpl. lia.
  - unfold s1. simpl. by words.
  - unfold HSIZE in *. simpl. lia.
  - intros c Hc. by apply Hsub.
  - intros c x Hc X. apply elem_of_cons in Hc as [->|Hc].
    { exists (p, pn). split; [rewrite EL; set_solver|]. unfold covers, ext, HSIZE in *. simpl in *. lia. }
    destruct (Hsub c Hc) as [_ [->|Hc']]; [|by exists c]. exists (p, pn). split; [rewrite EL; set_solver|].
    unfold covers, ext, HSIZE in *. simpl in *. lia.
Qed.

(** *** The search of [malloc] *)

Lemma at_0 L i b : head L = Some (BASE, 0) -> L !! i = Some b -> 0 < b.2 -> i <> 0%nat.
Proof. intros Hh Hi Hb ->. destruct L; simpl in *; simplify_eq. done. Qed.

Lemma fit_run s L al h i v p n f : heap_ok s L al -> L !! h = Some v -> nxt (length L) h = i -> L !! i = Some p -> 0 < n <= p.2 ->
  exists q s', malloc_loop sbrk (S f) n v.1 p.1 s = Ret (hdr q 1) s' /\ taken al n s (length L) q s'.
Proof.
  intros Hok Hh Hn Hi Hp. pose proof Hok as [[B0 B1] B2 _ _ _ _ B7 _ _ _ B11].
  pose proof (at_0 L i p B1 Hi ltac:(lia)) as H0.
  assert (i = S h) as -> by (unfold nxt in Hn; destruct (Nat.ltb_spec (S h) (length L)); lia).
  destruct (links_at _ _ _ _ _ B2 Hi) as [Eps _].
  assert (ext p < 2 ^ 31) as Htop by (assert (ext p <= brk s) by (apply B7, elem_of_app; left; by eapply list_elem_of_lookup_2); lia).
  apply list_elem_of_split_length in Hh as (L1 & L2 & EL & El). rewrite EL, lookup_app_r, lookup_cons_ne_0 in Hi by lia.
  replace (pred (S h - length L1)) with 0%nat in Hi by lia. destruct L2 as [|p' L2]; [done|]. injection Hi as ->.
  destruct v as [v vn], p as [p pn]. cbn [fst snd] in *. unfold ext, HSIZE in Htop. simpl in Htop.
  assert (0 <= p) as Hp0 by (destruct (ring_split _ _ _ _ _ _ _ _ _ Hok EL) as (_ & _ & _ & _ & _ & _ & _ & _ & _ & _ & ? & _); unfold HSIZE in *; lia).
  cbn [malloc_loop]. rewrite bind_get, Eps. replace (n <=? pn) with true by lia. destruct (pn =? n) eqn:E; bsplit.
  - rewrite E in EL. eexists p, _. split; [done|]. exact (take_exact s L al L1 v vn p n L2 Hok EL).
  - pose proof (take_tail s L al L1 v vn p pn L2 n Hok EL ltac:(lia)) as HT. cbv zeta in HT. eexists _, _. split; [|exact HT].
    set (s1 := set_size p (pn - n) s). rewrite u32_small by lia.
    assert (s_size s1 p = pn - n) as E1 by (unfold s1; by words).
    unfold bind, modify, get. cbv beta iota. fold s1. rewrite E1. unfold hdr at 1 2. rewrite u32_small by (unfold HSIZE; lia). done.
Qed.

(** From the header [p] at index [i] the loop finds a block, or comes to [freep] having
    seen only smaller ones. *)
Lemma scan s L al n fi fb f : heap_ok s L al -> 0 < n -> L !! fi = Some fb -> freep s = fb.1 ->
  forall k h i v p, L !! h = Some v -> nxt (length L) h = i -> L !! i = Some p -> steps (length L) i fi = k ->
  (exists q s', malloc_loop sbrk (S k + f) n v.1 p.1 s = Ret (hdr q 1) s' /\ taken al n s (length L) q s') \/
  ((forall j b, L !! j = Some b -> (steps (length L) i j <= k)%nat -> b.2 < n) /\
   exists v', malloc_loop sbrk (S k + f) n v.1 p.1 s = malloc_loop sbrk (S f) n v' (freep s) s).
Proof.
  intros Hok Hn Hfi Hfp. pose proof Hok as [[B0 B1] B2 B3 _ _ _ _ _ _ _ _].
  pose proof (lookup_lt_Some _ _ _ Hfi) as Hlf.
  induction k as [|k IH]; intros h i v p Hh Hnx Hi Hk; pose proof (lookup_lt_Some _ _ _ Hi) as Hli;
    (destruct (decide (n <= p.2)) as [Hfit|Hno]; [left; eapply fit_run; eauto|]).
  - right. apply steps_0 in Hk as Ei; [|done..]. subst fi. assert (p = fb) as -> by congruence. split.
    + intros j b Hj Hs. assert (i = j) as <- by (apply (steps_0 (length L)); [done|by eapply lookup_lt_Some|lia]). simplify_eq. lia.
    + exists v.1. by rewrite Hfp.
  - pose proof (steps_nxt _ _ _ _ Hli Hlf Hk) as Hk'. destruct (links_nxt _ _ _ _ B2 B1 Hi) as (c & Hc & Ec).
    destruct (links_at _ _ _ _ _ B2 Hi) as [Eps _].
    assert (malloc_loop sbrk (S (S k) + f) n v.1 p.1 s = malloc_loop sbrk (S k + f) n p.1 c.1 s) as E.
    { cbn [malloc_loop Nat.add]. rewrite bind_get, Eps. replace (n <=? p.2) with false by lia.
      replace (p.1 =? freep s) with false; [unfold bind, get; by rewrite Ec|]. symmetry. apply Z.eqb_neq. rewrite Hfp. intros Ep.
      assert (i = fi) as -> by (eapply (sorted_inj L); eauto). unfold steps in Hk. rewrite Nat.leb_refl in Hk. lia. }
    rewrite E. destruct (IH i _ p c Hi eq_refl Hc Hk') as [X|(X1 & X2)]; [by left|right]. split; [|done].
    intros j b Hj Hs. destruct (steps (length L) i j) as [|k'] eqn:Es.
    + apply steps_0 in Es; [|done|by eapply lookup_lt_Some]. subst j. simplify_eq. lia.
    + apply (X1 j b Hj). rewrite (steps_nxt _ _ _ _ Hli (lookup_lt_Some _ _ _ Hj) Es). lia.
Qed.

(** *** More memory *)

(** What the kernel promises: -1 and nothing has changed, or the break moves up and the memory
    below is as it was. *)
Definition sbrk_ok : Prop := forall n s, 0 < n < 2 ^ 31 ->
  sbrk n s = Ret 0xffffffff s \/
  brk s + n < 2 ^ 31 /\ exists s', sbrk n s = Ret (brk s) s' /\ brk s' = brk s + n /\ freep s' = freep s /\
    forall x, x < brk s -> word s' x = word s x.
Context (Hsbrk : sbrk_ok).

(** The new memory as one live block. *)
Lemma heap_ok_grow s s1 L al nu : heap_ok s L al -> 0 < nu -> brk s1 = brk s + HSIZE * nu -> brk s1 < 2 ^ 31 -> freep s1 = freep s ->
  (forall x, x < brk s -> word s1 x = word s x) ->
  heap_ok (set_size (brk s) nu s1) L ((brk s, nu) :: al) /\ kept al s (set_size (brk s) nu s1).
Proof.
  intros [[B0 B1] B2 B3 [fn B4] B5 B6 B7 B8 B9 B10 B11] Hnu E1 E2 E3 Hw. set (s2 := set_size (brk s) nu s1).
  assert (forall b, b ∈ L -> b ∈ L ++ al) as IL by (intros; apply elem_of_app; by left).
  assert (forall b, b ∈ al -> b ∈ L ++ al) as IA by (intros; apply elem_of_app; by right).
  assert (forall x, x < brk s -> word s2 x = word s x) as Hw2 by (intros; unfold s2; words; by apply Hw).
  assert (forall b, b ∈ L ++ al -> forall x, covers b x -> word s2 x = word s x) as Hk.
  { intros b Hb x X. apply Hw2. specialize (B7 b Hb). unfold covers in X. lia. }
  assert (forall b, b ∈ L ++ al -> apart (brk s, nu) b) as Ha by (intros b Hb; right; by apply B7).
  split; [split|]; try done.
  - eapply links_frame; [|exact B2]. intros b Hb. split; apply (Hk b); auto; unfold covers, ext, HSIZE; lia.
  - exists fn. simpl. by rewrite E3.
  - intros b Hb. apply elem_of_cons in Hb as [->|Hb]; [simpl; split_and!; [lia|unfold s2; by words|lia]|].
    destruct (B6 b Hb) as (X1 & X2 & X3). split_and!; try done. rewrite <- X2. apply (Hk b); auto. unfold covers, ext, HSIZE; lia.
  - intros b Hb. simpl. rewrite E1. apply elem_of_app in Hb as [Hb|[->|Hb]%elem_of_cons].
    + specialize (B7 b (IL b Hb)). unfold HSIZE. lia.
    + unfold ext, HSIZE. simpl. lia.
    + specialize (B7 b (IA b Hb)). unfold HSIZE. lia.
  - intros b c Hb Hc. apply elem_of_cons in Hb as [->|Hb]; [by apply Ha, IL|by apply B8].
  - intros b c Hb Hc Hne. apply elem_of_cons in Hb as [->|Hb], Hc as [->|Hc]; [done|by apply Ha, IA| |by apply B9].
    specialize (Ha b (IA b Hb)). unfold apart in *. tauto.
  - apply NoDup_cons. split; [|done]. intros Hin. apply list_elem_of_fmap in Hin as (c & E & Hc). cbn [fst] in E.
    specialize (B7 c (IA c Hc)). unfold ext, HSIZE in B7. lia.
  - simpl. unfold HSIZE in *. lia.
  - intros b x Hb. apply (Hk b). by apply IA.
Qed.

Lemma morecore_run s L al n f : heap_ok s L al -> 0 < n -> HSIZE * n < 2 ^ 31 -> (length L <= f)%nat ->
  morecore sbrk f n s = Ret 0 s \/
  exists s' L', morecore sbrk f n s = Ret (freep s') s' /\ heap_ok s' L' al /\ kept al s s' /\ freep s' <> 0 /\
    (length L' <= S (length L))%nat /\ exists b, b ∈ L' /\ n <= b.2.
Proof.
  intros Hok Hn Hb Hf. unfold morecore. set (nu := if n <? 4096 then 4096 else n). cbv zeta.
  assert (n <= nu /\ 0 < nu * HSIZE < 2 ^ 31) as [Hnu Hnb] by (unfold nu, HSIZE in *; destruct (n <? 4096) eqn:E; bsplit; lia).
  replace (s32 (nu * HSIZE)) with (nu * HSIZE) by (symmetry; apply s32_small; lia).
  destruct (Hsbrk (nu * HSIZE) s Hnb) as [E|(Hlt & s1 & E & E1 & E2 & E3)]; rewrite (bind_ret _ _ _ _ _ E); [by left|].
  pose proof Hok as [_ _ _ _ _ _ _ _ _ _ [_ Hbrk]]. replace (brk s =? 0xffffffff) with false by lia. right.
  destruct (heap_ok_grow s s1 L al nu Hok) as [Hok2 HK2]; try done; [lia|unfold HSIZE in *; lia|unfold HSIZE in *; lia|].
  destruct (free_run _ _ _ _ _ f Hok2 Hf) as (s' & L' & EF & Hok' & HK' & _ & Hlen & b & Hb1 & Hb2).
  exists s', L'. rewrite bind_modify, (bind_ret _ _ _ _ _ EF). split_and!; try done; [| |exists b; split; [done|lia]].
  - intros c x Hc X. rewrite (HK' c) by done. by apply (HK2 c).
  - by eapply heap_freep.
Qed.

(** *** The whole calls *)

(** [malloc] returned [r]: null, or the memory of a new live block of [n] headers. *)
Definition allocated (al : list block) (n : Z) (s : uheap) (len : nat) (r : Z) (s' : uheap) : Prop :=
  (r = 0 /\ exists L', heap_ok s' L' al /\ kept al s s' /\ (length L' <= len)%nat) \/
  exists q, r = hdr q 1 /\ taken al n s len q s'.

(** One round, from [freep]. *)
Lemma round s L al n f : heap_ok s L al -> 0 < n -> (length L <= f)%nat ->
  (exists q s', malloc_loop sbrk f n (freep s) (s_ptr s (freep s)) s = Ret (hdr q 1) s' /\ taken al n s (length L) q s') \/
  ((forall b, b ∈ L -> b.2 < n) /\ s_size s (freep s) < n /\
   exists v', malloc_loop sbrk f n (freep s) (s_ptr s (freep s)) s = malloc_loop sbrk (S (f - length L)) n v' (freep s) s).
Proof.
  intros Hok Hn Hf. pose proof Hok as [[B0 B1] B2 _ [fn B4] _ _ _ _ _ _ _]. apply list_elem_of_lookup_1 in B4 as [fi Hfi].
  destruct (links_nxt _ _ _ _ B2 B1 Hfi) as (p & Hp & Ep). cbn [fst] in Ep. destruct (links_at _ _ _ _ _ B2 Hfi) as [Es _]. cbn [fst snd] in Es.
  pose proof (lookup_lt_Some _ _ _ Hfi) as Hl. pose proof (steps_round (length L) fi Hl) as Hk.
  destruct (scan s L al n fi _ (f - length L) Hok Hn Hfi eq_refl _ fi _ _ p Hfi eq_refl Hp Hk) as [H|(H1 & H2)];
    replace (S (length L - 1) + (f - length L))%nat with f in * by lia; cbn [fst] in *; rewrite Ep; [by left|right].
  assert (forall j b, L !! j = Some b -> b.2 < n) as H3.
  { intros j b Hj. apply (H1 j b Hj). pose proof (steps_lt (length L) _ j (lookup_lt_Some _ _ _ Hp) (lookup_lt_Some _ _ _ Hj)). lia. }
  split_and!; [|rewrite Es; exact (H3 fi _ Hfi)|done]. intros b Hb. apply list_elem_of_lookup_1 in Hb as [j Hj]. eauto.
Qed.

Lemma malloc_loop_run s L al n f : heap_ok s L al -> 0 < n -> HSIZE * n < 2 ^ 31 -> (2 * length L + 2 <= f)%nat ->
  exists r s', malloc_loop sbrk f n (freep s) (s_ptr s (freep s)) s = Ret r s' /\ allocated al n s (S (length L)) r s'.
Proof.
  intros Hok Hn Hb Hf. destruct (round s L al n f Hok Hn) as [(q & s' & E & L' & H1 & H2 & H3)|(_ & Hs & v' & E)]; [lia| |]; rewrite E.
  { eexists _, _. split; [done|]. right. exists q. split; [done|]. exists L'. split_and!; try done. lia. }
  cbn [malloc_loop]. rewrite bind_get. replace (n <=? _) with false by lia. rewrite Z.eqb_refl.
  destruct (morecore_run s L al n (f - length L) Hok Hn Hb) as [EM|(s1 & L1 & EM & Hok1 & HK1 & H0 & Hl & b & Hb1 & Hb2)]; [lia| |];
    rewrite (bind_ret _ _ _ _ _ EM).
  { eexists _, _. split; [done|]. left. split; [done|]. exists L. split_and!; try done. lia. }
  replace (freep s1 =? 0) with false by lia. rewrite bind_get.
  destruct (round s1 L1 al n (f - length L) Hok1 Hn) as [(q & s' & E1 & L' & H1 & H2 & H3)|(H1 & _)]; [lia| |]; [|specialize (H1 b Hb1); lia].
  rewrite E1. eexists _, _. split; [done|]. right. exists q. split; [done|]. exists L'. split_and!; try done; [|lia].
  intros c x Hc X. rewrite (H2 c) by done. by apply (HK1 c).
Qed.

(** Nothing has been allocated yet, or the heap is set up. *)
Definition heap_inv (s : uheap) (L al : list block) : Prop :=
  heap_ok s L al \/ (freep s = 0 /\ al = [] /\ 0 < BASE /\ BASE + HSIZE < brk s < 2 ^ 31).

Definition units (nbytes : Z) : Z := (nbytes + HSIZE - 1) / HSIZE + 1.
Lemma units_ok nbytes : 0 <= nbytes <= 2 ^ 31 - 16 ->
  0 < units nbytes /\ HSIZE * units nbytes < 2 ^ 31 /\ nbytes <= HSIZE * (units nbytes - 1) /\
  u32 (u32 (nbytes + HSIZE - 1) / HSIZE + 1) = units nbytes.
Proof.
  intros H. unfold units, HSIZE. rewrite (u32_small (nbytes + 8 - 1)) by lia.
  pose proof (Z.div_mod (nbytes + 8 - 1) 8). pose proof (Z.mod_pos_bound (nbytes + 8 - 1) 8). rewrite u32_small by lia. lia.
Qed.

Lemma heap_ok_start s : freep s = 0 -> 0 < BASE -> BASE + HSIZE < brk s < 2 ^ 31 ->
  heap_ok (set_size BASE 0 (set_ptr BASE BASE (set_freep BASE s))) [(BASE, 0)] [].
Proof.
  intros H1 H2 H3. split; try done; try (by intros ? ?%not_elem_of_nil); try (by intros ? ? ?%not_elem_of_nil).
  - cbn [links fst snd]. split_and!; [by words|by words|done].
  - repeat constructor.
  - exists 0. by left.
  - intros b Hb. apply elem_of_cons in Hb as [->|Hb]; [|by apply not_elem_of_nil in Hb]. unfold ext, HSIZE in *. simpl in *. lia.
  - constructor.
Qed.

Lemma malloc_run s L al nbytes f : heap_inv s L al -> 0 <= nbytes <= 2 ^ 31 - 16 -> (2 * length L + 4 <= f)%nat ->
  exists r s', malloc BASE sbrk f nbytes s = Ret r s' /\ allocated al (units nbytes) s (2 + length L) r s'.
Proof.
  intros Hinv Hb Hf. destruct (units_ok nbytes Hb) as (U1 & U2 & _ & U3). unfold malloc. cbv zeta. rewrite U3, bind_get.
  destruct Hinv as [Hok|(E & -> & H0 & H1)].
  - replace (freep s =? 0) with false.
    + rewrite (bind_ret _ _ _ () s) by done. rewrite bind_get.
      destruct (malloc_loop_run s L al (units nbytes) f Hok U1 U2) as (r & s' & E & [(-> & L' & ? & ? & ?)|(q & -> & L' & ? & ? & ?)]); [lia| |];
        eexists _, _; (split; [exact E|]); [left; split; [done|]; exists L'|right; exists q; split; [done|]; exists L']; split_and!; try done; lia.
    + symmetry. apply Z.eqb_neq. by eapply heap_freep.
  - rewrite E. cbn [Z.eqb]. set (s1 := set_size BASE 0 (set_ptr BASE BASE (set_freep BASE s))).
    rewrite (bind_ret _ _ _ () s1) by done. rewrite bind_get.
    destruct (malloc_loop_run s1 _ [] (units nbytes) f (heap_ok_start s E H0 H1) U1 U2) as (r & s' & Er & [(-> & L' & ? & ? & Hl)|(q & -> & L' & ? & ? & Hl)]);
      [simpl; lia| |]; eexists _, _; (split; [exact Er|]); simpl in Hl;
      [left; split; [done|]; exists L'|right; exists q; split; [done|]; exists L']; split_and!; try done; try lia; intros ? ? ?%not_elem_of_nil; done.
Qed.

(** ** A program that allocates

    A script of calls and stores.  For each live allocation the client knows its address, its
    size and the words it has stored there. *)
Inductive uop :=
| UMalloc (nbytes : Z)
| UFree (i : nat)                    (* of the [i]-th live allocation *)
| UStore (i : nat) (k v : Z).        (* the word [k] of it *)
Abbreviation alloc := (Z * Z * gmap Z Z)%type.

Fixpoint run_client (fuel : nat) (ops : list uop) (live : list alloc) : M uheap (list alloc) :=
  match ops with
  | [] => ret live
  | UMalloc n :: ops' =>
      let* r := malloc BASE sbrk fuel n in
      run_client fuel ops' (if r =? 0 then live else (r, n, ∅) :: live)
  | UFree i :: ops' =>
      match live !! i with
      | None => run_client fuel ops' live
      | Some (a, _, _) => free fuel a ;;; run_client fuel ops' (delete i live)
      end
  | UStore i k v :: ops' =>
      match live !! i with
      | Some (a, n, c) =>
          if (0 <=? k) && (4 * k + 4 <=? n) then
            modify (set_word (a + 4 * k) v) ;;; run_client fuel ops' (<[i := (a, n, <[k := v]> c)]> live)
          else run_client fuel ops' live
      | None => run_client fuel ops' live
      end
  end.

(** The block behind an allocation, and that its words are in memory. *)
Definition blk (x : alloc) : block := (x.1.1 - HSIZE, units x.1.2).
Definition stored (s : uheap) (x : alloc) : Prop :=
  0 <= x.1.2 <= 2 ^ 31 - 16 /\ forall k v, x.2 !! k = Some v -> 0 <= k /\ 4 * k + 4 <= x.1.2 /\ word s (x.1.1 + 4 * k) = v.

Lemma heap_ok_perm s L al al' : al ≡ₚ al' -> heap_ok s L al -> heap_ok s L al'.
Proof.
  intros HP [B1 B2 B3 B4 B5 B6 B7 B8 B9 B10 B11]. split; try done.
  - intros b Hb. apply B6. by rewrite HP.
  - intros b Hb. apply B7. by rewrite HP.
  - intros b c Hb. apply B8. by rewrite HP.
  - intros b c Hb Hc. apply B9; by rewrite HP.
  - by rewrite <- HP.
Qed.

Lemma heap_ok_store s L al b x v : heap_ok s L al -> b ∈ al -> b.1 + HSIZE <= x < ext b -> heap_ok (set_word x v s) L al.
Proof.
  intros [B1 B2 B3 B4 B5 B6 B7 B8 B9 B10 B11] Hb Hx.
  assert (forall y, y <> x -> word (set_word x v s) y = word s y) as Hw by (intros; by words).
  split; try done.
  - eapply links_frame; [|exact B2]. intros c Hc. specialize (B8 b c Hb Hc).
    unfold s_size, s_ptr, apart, ext, HSIZE in *. split; apply Hw; lia.
  - intros c Hc. destruct (B6 c Hc) as (X1 & X2 & X3). split_and!; try done. rewrite <- X2. apply Hw.
    destruct (decide (b.1 = c.1)) as [E|E]; [|specialize (B9 b c Hb Hc E)]; unfold apart, ext, HSIZE in *; lia.
Qed.

(** A stored word lies in its block, behind the header. *)
Lemma stored_covers s x k v : stored s x -> x.2 !! k = Some v ->
  (blk x).1 + HSIZE <= x.1.1 + 4 * k < ext (blk x) /\ covers (blk x) (x.1.1 + 4 * k).
Proof.
  intros [Hn Hc] Hk. destruct (Hc k v Hk) as (H1 & H2 & _). destruct (units_ok _ Hn) as (U1 & _ & U2 & _).
  unfold covers, blk, ext, HSIZE in *. simpl in *. lia.
Qed.

Lemma stored_kept s s' x al : kept al s s' -> blk x ∈ al -> stored s x -> stored s' x.
Proof.
  intros HK Hx [Hn Hc]. split; [done|]. intros k v Hk. destruct (Hc k v Hk) as (H1 & H2 & H3). split_and!; try done.
  rewrite <- H3. apply (HK (blk x)); [done|]. by eapply stored_covers.
Qed.

Definition client_ok (s : uheap) (live : list alloc) (m : nat) : Prop :=
  exists L, heap_inv s L (blk <$> live) /\ (length L <= m)%nat /\ forall x, x ∈ live -> stored s x.

Lemma client_malloc s live m n f : client_ok s live m -> 0 <= n <= 2 ^ 31 - 16 -> (2 * m + 4 <= f)%nat ->
  exists r s', malloc BASE sbrk f n s = Ret r s' /\ client_ok s' (if r =? 0 then live else (r, n, ∅) :: live) (2 + m).
Proof.
  intros (L & Hinv & Hm & Hst) Hn Hf. destruct (malloc_run s L _ n f Hinv Hn) as (r & s' & E & Ha); [lia|].
  exists r, s'. split; [done|]. destruct Ha as [(-> & L' & Hok & HK & Hl)|(q & -> & L' & Hok & HK & Hl)]; exists L'.
  - split; [by left|]. split; [lia|]. intros x Hx. eapply stored_kept; [done| |by apply Hst]. by apply list_elem_of_fmap_2.
  - pose proof Hok as [[B0 _] _ _ _ _ B6 B7 _ _ _ B11]. destruct (B6 (q, units n)) as (H1 & _ & H2); [by left|].
    specialize (B7 (q, units n) ltac:(apply elem_of_app; right; by left)). unfold ext, HSIZE in *. cbn [fst snd] in *.
    assert (hdr q 1 = q + 8) as -> by (unfold hdr, HSIZE; rewrite u32_small; lia).
    replace (q + 8 =? 0) with false by lia. split; [|split; [lia|]].
    + left. cbn [fmap list_fmap]. unfold blk at 1. cbn [fst snd]. by replace (q + 8 - HSIZE) with q by (unfold HSIZE; lia).
    + intros x Hx. apply elem_of_cons in Hx as [->|Hx]; [split; [done|]; intros k v; cbn [snd]; by rewrite lookup_empty|].
      eapply stored_kept; [done| |by apply Hst]. by apply list_elem_of_fmap_2.
Qed.

Lemma client_free s live m i a n c f : client_ok s live m -> live !! i = Some (a, n, c) -> (2 * m + 4 <= f)%nat ->
  exists s', free f a s = Ret () s' /\ client_ok s' (delete i live) (1 + m).
Proof.
  intros (L & Hinv & Hm & Hst) Hi Hf. pose proof (delete_Permutation _ _ _ Hi) as HP.
  destruct Hinv as [Hok|(_ & E & _)]; [|by rewrite (fmap_nil_inv _ _ E) in Hi].
  assert (heap_ok s L ((a - HSIZE, units n) :: (blk <$> delete i live))) as Hok2 by (eapply heap_ok_perm; [|exact Hok]; by rewrite HP at 1).
  pose proof Hok2 as [[B0 _] _ _ _ _ B6 B7 _ _ _ B11]. destruct (B6 (a - HSIZE, units n)) as (H1 & _ & H2); [by left|].
  specialize (B7 (a - HSIZE, units n) ltac:(apply elem_of_app; right; by left)). unfold ext in B7. cbn [fst snd] in *.
  destruct (free_run _ _ _ _ _ f Hok2) as (s' & L' & E & Hok' & HK & _ & Hl & _); [lia|].
  exists s'. split.
  - rewrite <- E. unfold hdr, HSIZE in *. f_equal. rewrite u32_small; lia.
  - exists L'. split; [by left|]. split; [lia|]. intros x Hx. eapply stored_kept; [done|by apply list_elem_of_fmap_2|].
    apply Hst. rewrite HP. by right.
Qed.

Lemma blk_inj s L live i j x y : heap_ok s L (blk <$> live) -> live !! i = Some x -> live !! j = Some y -> i <> j ->
  blk x ∈ blk <$> live /\ blk y ∈ blk <$> live /\ apart (blk x) (blk y).
Proof.
  intros [_ _ _ _ _ _ _ _ B9 B10 _] Hi Hj Hne.
  assert (blk x ∈ blk <$> live) as H1 by (by apply list_elem_of_fmap_2; eapply list_elem_of_lookup_2).
  assert (blk y ∈ blk <$> live) as H2 by (by apply list_elem_of_fmap_2; eapply list_elem_of_lookup_2).
  split_and!; try done. apply B9; try done. intros E. apply Hne. eapply NoDup_lookup; [exact B10| |].
  - by rewrite !list_lookup_fmap, Hi.
  - by rewrite !list_lookup_fmap, Hj, E.
Qed.

Lemma client_store s live m i a n c k v : client_ok s live m -> live !! i = Some (a, n, c) -> 0 <= k -> 4 * k + 4 <= n ->
  client_ok (set_word (a + 4 * k) v s) (<[i := (a, n, <[k := v]> c)]> live) m.
Proof.
  intros (L & Hinv & Hm & Hst) Hi H0 H1. destruct Hinv as [Hok|(_ & E & _)]; [|by rewrite (fmap_nil_inv _ _ E) in Hi].
  pose proof (lookup_lt_Some _ _ _ Hi) as Hli. pose proof (Hst _ (list_elem_of_lookup_2 _ _ _ Hi)) as [Hn Hc]. cbn [fst snd] in *.
  assert (blk <$> <[i := (a, n, <[k := v]> c)]> live = blk <$> live) as EB.
  { rewrite list_fmap_insert. apply list_insert_id. by rewrite list_lookup_fmap, Hi. }
  destruct (units_ok n Hn) as (U1 & _ & U2 & _).
  exists L. rewrite EB. split_and!; [left|done|].
  - eapply (heap_ok_store _ _ _ (blk (a, n, c))); [done|by apply list_elem_of_fmap_2; eapply list_elem_of_lookup_2|].
    unfold blk, ext, HSIZE in *. simpl. lia.
  - intros x Hx. apply list_elem_of_lookup_1 in Hx as [j Hj]. destruct (decide (i = j)) as [<-|Hne].
    + rewrite list_lookup_insert_eq in Hj by done. injection Hj as <-. split; [done|]. cbn [fst snd]. intros k' v' Hk.
      rewrite word_set. destruct (decide (k = k')) as [<-|Hk'].
      * rewrite lookup_insert_eq in Hk. injection Hk as ->. by rewrite Z.eqb_refl.
      * rewrite lookup_insert_ne in Hk by done. destruct (Hc k' v' Hk) as (? & ? & ?). by replace (_ =? _) with false by lia.
    + rewrite list_lookup_insert_ne in Hj by done. pose proof (Hst _ (list_elem_of_lookup_2 _ _ _ Hj)) as Hx.
      split; [apply Hx|]. intros k' v' Hk. pose proof (stored_covers _ _ _ _ Hx Hk) as [_ Hcov]. destruct Hx as [_ Hx].
      destruct (Hx k' v' Hk) as (? & ? & Hw). split_and!; try done. rewrite word_set, <- Hw. replace (_ =? _) with false; [done|].
      destruct (blk_inj _ _ _ _ _ _ _ Hok Hi Hj Hne) as (_ & _ & Ha).
      unfold apart, covers, blk, ext, HSIZE in *. cbn [fst snd] in *. lia.
Qed.

Definition sizes_ok (op : uop) : bool := match op with UMalloc n => (0 <=? n) && (n <=? 2 ^ 31 - 16) | _ => true end.

Lemma client_run ops live s m f : client_ok s live m -> forallb sizes_ok ops = true -> (2 * (m + 2 * length ops) + 4 <= f)%nat ->
  exists live' s' m', run_client f ops live s = Ret live' s' /\ client_ok s' live' m'.
Proof.
  revert live s m. induction ops as [|op ops IH]; intros live s m Hok Hs Hf; [by exists live, s, m|].
  cbn [forallb length] in *. apply andb_true_iff in Hs as [Hs1 Hs2]. destruct op as [n|i|i k v]; cbn [run_client sizes_ok] in *.
  - bsplit. destruct (client_malloc s live m n f Hok) as (r & s1 & E & Hok1); [lia|lia|]. rewrite (bind_ret _ _ _ _ _ E).
    eapply IH; [done|done|lia].
  - destruct (live !! i) as [[[a n] c]|] eqn:Hi; [|eapply IH; [done|done|lia]].
    destruct (client_free s live m i a n c f Hok Hi) as (s1 & E & Hok1); [lia|]. rewrite (bind_ret _ _ _ _ _ E). eapply IH; [done|done|lia].
  - destruct (live !! i) as [[[a n] c]|] eqn:Hi; [|eapply IH; [done|done|lia]].
    destruct ((0 <=? k) && (4 * k + 4 <=? n)) eqn:E; [|eapply IH; [done|done|lia]]. bsplit.
    rewrite bind_modify. eapply IH; [by apply client_store|done|lia].
Qed.

(** C25: [malloc] and [free] serve any program: each call returns (4 * calls + 6 turns
    of their loops are enough), the memory of two live allocations
    never overlaps and lies between [base] and the break, and each allocation holds the
    words last stored in it, whatever was allocated and freed in between. *)
Theorem malloc_free_safe ops s : 0 < BASE -> BASE + HSIZE < brk s < 2 ^ 31 -> freep s = 0 -> forallb sizes_ok ops = true ->
  forall fuel, (4 * length ops + 6 <= fuel)%nat -> exists live s', run_client fuel ops [] s = Ret live s' /\
    (forall i a n c, live !! i = Some (a, n, c) -> BASE < a /\ a + n <= brk s' /\ forall k v, c !! k = Some v -> word s' (a + 4 * k) = v) /\
    (forall i j a n c b m d, i <> j -> live !! i = Some (a, n, c) -> live !! j = Some (b, m, d) -> a + n <= b \/ b + m <= a).
Proof.
  intros H0 H1 H2 Hs fuel Hf. destruct (client_run ops [] s 0 fuel) as (live & s' & m & E & L & Hinv & _ & Hst); [|done|lia|].
  { exists []. split; [by right|]. split; [done|]. intros x Hx. by apply not_elem_of_nil in Hx. }
  exists live, s'. split; [done|]. split.
  - intros i a n c Hi. destruct Hinv as [Hok|(_ & X & _)]; [|by rewrite (fmap_nil_inv _ _ X) in Hi].
    destruct (Hst _ (list_elem_of_lookup_2 _ _ _ Hi)) as [Hn Hc]. destruct (units_ok n Hn) as (U1 & _ & U2 & _). cbn [fst snd] in *.
    assert (blk (a, n, c) ∈ blk <$> live) as Hb by (by apply list_elem_of_fmap_2; eapply list_elem_of_lookup_2).
    pose proof (ok_live _ _ _ Hok _ Hb) as (_ & _ & X1). pose proof (ok_top _ _ _ Hok (blk (a, n, c)) ltac:(apply elem_of_app; by right)) as X2.
    unfold blk, ext, HSIZE in *. cbn [fst snd] in *. split_and!; [lia|lia|]. intros k v Hk. by apply Hc.
  - intros i j a n c b m' d Hne Hi Hj. destruct Hinv as [Hok|(_ & X & _)]; [|by rewrite (fmap_nil_inv _ _ X) in Hi].
    destruct (blk_inj _ _ _ _ _ _ _ Hok Hi Hj Hne) as (_ & _ & Ha).
    destruct (Hst _ (list_elem_of_lookup_2 _ _ _ Hi)) as [Hn _], (Hst _ (list_elem_of_lookup_2 _ _ _ Hj)) as [Hm _]. cbn [fst snd] in *.
    destruct (units_ok n Hn) as (U1 & _ & U2 & _), (units_ok m' Hm) as (V1 & _ & V2 & _).
    unfold apart, blk, ext, HSIZE in *. cbn [fst snd] in *. lia.
Qed.
End heap.

(** ** A concrete heap *)

Definition flat_sbrk (n : Z) : M uheap Z := fun s =>
  if (0 <=? n) && (brk s + n <? 2 ^ 31) then Ret (brk s) (mkHeap (word s) (freep s) (brk s + n)) else Ret 0xffffffff s.

Lemma flat_sbrk_ok : sbrk_ok flat_sbrk.
Proof.
  intros n s Hn. unfold flat_sbrk. destruct (_ && _) eqn:E; [right|by left]. bsplit. split; [done|]. by eexists.
Qed.

Definition demo_heap : uheap := mkHeap (fun _ => 0) 0 0x4000.
Definition demo_script : list uop :=
  [UMalloc 100; UMalloc 20; UStore 1 3 77; UMalloc 5000; UFree 1; UMalloc 40000; UStore 1 9 5; UFree 2; UFree 0; UMalloc 8].

Lemma malloc_free_safe_witness :
  exists live s', run_client 0x3000 flat_sbrk 46 demo_script [] demo_heap = Ret live s' /\ length live = 2%nat /\
    (forall i j a n c b m d, i <> j -> live !! i = Some (a, n, c) -> live !! j = Some (b, m, d) -> a + n <= b \/ b + m <= a).
Proof.
  destruct (malloc_free_safe 0x3000 flat_sbrk flat_sbrk_ok demo_script demo_heap ltac:(lia) ltac:(unfold HSIZE; simpl; lia) eq_refl
    ltac:(vm_compute; reflexivity) 46 ltac:(vm_compute; lia)) as (live & s' & E & _ & H).
  exists live, s'. split; [exact E|]. split; [|exact H].
  assert (match run_client 0x3000 flat_sbrk 46 demo_script [] demo_heap with Ret l _ => length l | _ => 0%nat end = 2%nat) as El by (vm_compute; reflexivity).
  rewrite E in El. exact El.
Defined.

(** The size is rounded up modulo 2^32: [malloc] of the largest size succeeds, with a
    block that has no room at all. *)
Lemma malloc_overflow :
  exists r s', malloc 0x3000 flat_sbrk 10 0xffffffff demo_heap = Ret r s' /\ r <> 0 /\ s_size s' (r - HSIZE) = 1.
Proof. eexists _, _. split; [vm_compute; reflexivity|]. split; [discriminate|vm_compute; reflexivity]. Qed.
