(* ===== verification/Shell.v ===== *)
(** * The parser of the shell

    sh.c: the lexer [gettoken] and [peek], the recursive-descent parser [parsecmd] and
    [nulterminate], over the bytes of the line.  A pointer into the line is an
    index, the state of the parser is [*ps], and [panic] of the shell, which
    prints a message and exits, is the panic of the monad. *)

From S2P Require Import Prelude.
Open Scope Z_scope.

Definition MAXARGS : nat := 10.
Definition O_RDONLY : Z := 0.
Definition O_WRONLY : Z := 1.
Definition O_CREATE : Z := 0x200.

Definition whitespace : list Z := [32; 9; 13; 10; 11].
Definition symbols : list Z := [60; 124; 62; 38; 59; 40; 41].  (* <|>&;() *)
Definition strchr (l : list Z) (c : Z) : bool := existsb (Z.eqb c) l.

(** The parsed command; [A] are the strings.  In the parser a string of the line is the pair of
    its first and last position, as in [argv] and [eargv] or [file] and [efile]. *)
Inductive cmd (A : Type) :=
| execcmd (argv : list A)
| redircmd (c : cmd A) (file : A) (mode fd : Z)
| pipecmd (left right : cmd A)
| listcmd (left right : cmd A)
| backcmd (c : cmd A).
Arguments execcmd {A}. Arguments redircmd {A}. Arguments pipecmd {A}. Arguments listcmd {A}. Arguments backcmd {A}.
Abbreviation span := (nat * nat)%type.

(** Redirections around a command, the last one outermost. *)
Abbreviation redir A := (A * Z * Z)%type.
Definition wrap {A} (c : cmd A) (rs : list (redir A)) : cmd A := foldl (fun c r => redircmd c r.1.1 r.1.2 r.2) c rs.

Section parser.
Context (buf : list Z).
Local Abbreviation es := (length buf).
Local Abbreviation P := (M nat).

(** [*s]; the line ends with a NUL. *)
Definition ch (s : nat) : Z := default 0 (buf !! s).

(** [while(s < es && p( *s)) s++], with [n] steps left to [es]. *)
Fixpoint skip (n : nat) (p : Z -> bool) (s : nat) : nat :=
  match n with
  | O => s
  | S n' => if (s <? es)%nat && p (ch s) then skip n' p (S s) else s
  end.
Definition skip_ws (s : nat) : nat := skip (es - s) (strchr whitespace) s.
Definition word_char (c : Z) : bool := negb (strchr whitespace c) && negb (strchr symbols c).

(** The token at [s]: its kind and its end. *)
Definition token (s : nat) : Z * nat :=
  let c := ch s in
  if c =? 0 then (c, s)
  else if strchr [124; 40; 41; 59; 38; 60] c then (c, S s)
  else if c =? 62 then if ch (S s) =? 62 then (43, S (S s)) else (c, S s)
  else (97, skip (es - s) word_char s).

Definition gettoken : P (Z * span) :=
  let* s := get in
  let q := skip_ws s in
  let '(tok, eq) := token q in
  put (skip_ws eq) ;;;
  ret (tok, (q, eq)).

Definition peek (toks : list Z) : P bool :=
  let* s := get in
  let s := skip_ws s in
  put s ;;;
  ret (negb (ch s =? 0) && strchr toks (ch s)).

(** [parseredirs], as the redirections it puts around its command. *)
Fixpoint parseredirs (fuel : nat) : P (list (redir span)) :=
  match fuel with
  | O => sleeps
  | S fuel' =>
      let* b := peek [60; 62] in
      if b then
        let* t := gettoken in
        let* f := gettoken in
        if negb (f.1 =? 97) then panic "missing file for redirection"
        else
          let* rs := parseredirs fuel' in
          ret (if t.1 =? 60 then (f.2, O_RDONLY, 0) :: rs
               else if t.1 =? 62 then (f.2, Z.lor O_WRONLY O_CREATE, 1) :: rs
               else if t.1 =? 43 then (f.2, Z.lor O_WRONLY O_CREATE, 1) :: rs
               else rs)
      else ret []
  end.

(** The loop of [parseexec] over the arguments; the node of the command is filled in
    place, below the redirections that are already around it. *)
Fixpoint parseargs (fuel : nat) (argv : list span) (rs : list (redir span)) : P (list span * list (redir span)) :=
  match fuel with
  | O => sleeps
  | S fuel' =>
      let* b := peek [124; 41; 38; 59] in
      if b then ret (argv, rs)
      else
        let* t := gettoken in
        if t.1 =? 0 then ret (argv, rs)
        else if negb (t.1 =? 97) then panic "syntax"
        else
          let argv := argv ++ [t.2] in
          if (MAXARGS <=? length argv)%nat then panic "too many args"
          else
            let* rs' := parseredirs fuel' in
            parseargs fuel' argv (rs ++ rs')
  end.

(** The [&]s of [parseline]. *)
Fixpoint parsebacks (fuel : nat) (c : cmd span) : P (cmd span) :=
  match fuel with
  | O => sleeps
  | S fuel' =>
      let* b := peek [38] in
      if b then gettoken ;;; parsebacks fuel' (backcmd c) else ret c
  end.

Fixpoint parseline (fuel : nat) : P (cmd span) :=
  match fuel with
  | O => sleeps
  | S fuel' =>
      let* c := parsepipe fuel' in
      let* c := parsebacks fuel' c in
      let* b := peek [59] in
      if b then gettoken ;;; let* c' := parseline fuel' in ret (listcmd c c') else ret c
  end
with parsepipe (fuel : nat) : P (cmd span) :=
  match fuel with
  | O => sleeps
  | S fuel' =>
      let* c := parseexec fuel' in
      let* b := peek [124] in
      if b then gettoken ;;; let* c' := parsepipe fuel' in ret (pipecmd c c') else ret c
  end
with parseexec (fuel : nat) : P (cmd span) :=
  match fuel with
  | O => sleeps
  | S fuel' =>
      let* b := peek [40] in
      if b then parseblock fuel'
      else
        let* rs := parseredirs fuel' in
        let* r := parseargs fuel' [] rs in
        ret (wrap (execcmd r.1) r.2)
  end
with parseblock (fuel : nat) : P (cmd span) :=
  match fuel with
  | O => sleeps
  | S fuel' =>
      let* b := peek [40] in
      if negb b then panic "parseblock"
      else
        gettoken ;;;
        let* c := parseline fuel' in
        let* b := peek [41] in
        if negb b then panic "syntax - missing )"
        else
          gettoken ;;;
          let* rs := parseredirs fuel' in
          ret (wrap c rs)
  end.

(** The stores of [nulterminate], in the line and its NUL. *)
Fixpoint nulterminate (c : cmd span) (b : list Z) : list Z :=
  match c with
  | execcmd argv => foldl (fun b a => <[a.2 := 0]> b) b argv
  | redircmd c f _ _ => <[f.2 := 0]> (nulterminate c b)
  | pipecmd l r => nulterminate r (nulterminate l b)
  | listcmd l r => nulterminate r (nulterminate l b)
  | backcmd c => nulterminate c b
  end.

(** The command and the line the strings are in. *)
Definition parsecmd (fuel : nat) : P (cmd span * list Z) :=
  let* c := parseline fuel in
  peek [] ;;;
  let* s := get in
  if negb (s =? es)%nat then panic "syntax"
  else ret (c, nulterminate c (buf ++ [0])).
End parser.

(** ** Every line is parsed or refused *)

Section lexer.
Context (buf : list Z).
Local Abbreviation es := (length buf).
Local Abbreviation ch := (ch buf).

Lemma skip_facts n p s : (es - s <= n)%nat -> let e := skip buf n p s in
  (s <= e)%nat /\ (s <= es -> e <= es)%nat /\ (forall i, (s <= i < e)%nat -> p (ch i) = true) /\ ((e < es)%nat -> p (ch e) = false).
Proof.
  revert s. induction n as [|n IH]; intros s Hn; cbn [skip]; [split_and!; lia|].
  destruct (Nat.ltb_spec s es) as [Hl|Hl]; cbn [andb]; [|split_and!; lia]. destruct (p (ch s)) eqn:E.
  - destruct (IH (S s)) as (H1 & H2 & H3 & H4); [lia|]. split_and!; try done; try lia.
    intros i Hi. destruct (decide (i = s)) as [->|]; [done|apply H3; lia].
  - split_and!; lia || done.
Qed.

Lemma ch_0 s : (es <= s)%nat -> ch s = 0.
Proof. intros H. unfold Shell.ch. by rewrite lookup_ge_None_2. Qed.
Lemma ch_lt s : ch s <> 0 -> (s < es)%nat.
Proof. intros H. destruct (decide (s < es)%nat); [done|]. by rewrite ch_0 in H by lia. Qed.

Lemma skip_ws_facts s : (s <= es)%nat -> (s <= skip_ws buf s <= es)%nat /\ strchr whitespace (ch (skip_ws buf s)) = false.
Proof.
  intros Hs. destruct (skip_facts (es - s) (strchr whitespace) s) as (H1 & H2 & H3 & H4); [done|]. unfold skip_ws.
  split; [lia|]. destruct (decide (skip buf (es - s) (strchr whitespace) s < es)%nat); [by apply H4|]. by rewrite ch_0 by lia.
Qed.
Lemma skip_ws_id s : strchr whitespace (ch s) = false -> skip_ws buf s = s.
Proof. intros H. unfold skip_ws. destruct (es - s)%nat; [done|]. cbn [skip]. by rewrite H, andb_false_r. Qed.

(** A maximal run of word characters. *)
Definition word_span (a : span) : Prop :=
  (a.1 < a.2 <= es)%nat /\ (forall i, (a.1 <= i < a.2)%nat -> word_char (ch i) = true) /\ ((a.2 < es)%nat -> word_char (ch a.2) = false).

Lemma strchr_cons c d l : strchr (d :: l) c = (c =? d) || strchr l c.
Proof. done. Qed.
Lemma strchr_nil c : strchr [] c = false.
Proof. done. Qed.

Lemma token_facts q : (q <= es)%nat -> strchr whitespace (ch q) = false -> let t := token buf q in
  (t.1 = 0 <-> ch q = 0) /\ (q <= t.2 <= es)%nat /\ (ch q <> 0 -> (q < t.2)%nat) /\ (t.1 = 97 -> word_span (q, t.2)).
Proof.
  intros Hq Hw. unfold token. destruct (Z.eqb_spec (ch q) 0) as [E0|E0]; [rewrite E0; simpl; split_and!; try done; lia|].
  pose proof (ch_lt _ E0) as Hl. destruct (strchr [124; 40; 41; 59; 38; 60] (ch q)) eqn:E1.
  { rewrite !strchr_cons, strchr_nil, !orb_true_iff, !Z.eqb_eq in E1. cbn [fst snd]. split_and!; lia. }
  destruct (Z.eqb_spec (ch q) 62) as [E2|E2].
  { destruct (Z.eqb_spec (ch (S q)) 62) as [E3|E3]; cbn [fst snd]; [|split_and!; lia].
    assert (ch (S q) <> 0) as H0 by lia. apply ch_lt in H0. split_and!; lia. }
  cbn [fst snd]. destruct (skip_facts (es - q) word_char q) as (H1 & H2 & H3 & H4); [done|].
  assert (word_char (ch q) = true) as Hc.
  { unfold word_char, symbols. rewrite Hw. rewrite !strchr_cons, strchr_nil, !orb_false_iff, !Z.eqb_neq in E1.
    rewrite !strchr_cons, strchr_nil. repeat rewrite (proj2 (Z.eqb_neq _ _)) by lia. done. }
  assert (q < skip buf (es - q) word_char q)%nat as Hadv.
  { destruct (decide (skip buf (es - q) word_char q = q)) as [E|E]; [rewrite E in H4; rewrite H4 in Hc by lia; done|lia]. }
  split_and!; try lia. intros _. split_and!; cbn [fst snd]; [lia..|done|done].
Qed.

(** *** The lexer moves on *)

(** At most [n] characters are left. *)
Definition upto (n s : nat) : Prop := (s <= es <= s + n)%nat.
Local Abbreviation ends P c Q := (triple P c Q (fun _ => False)).

(** A character of [toks] is next. *)
Definition next_in (toks : list Z) (s : nat) : Prop := ch s <> 0 /\ strchr toks (ch s) = true /\ strchr whitespace (ch s) = false.

Lemma ends_peek n toks : ends (upto n) (peek buf toks) (fun b s => upto n s /\ (b = true -> next_in toks s)).
Proof.
  intros s [H1 H2]. unfold peek, bind, get, put. cbn. destruct (skip_ws_facts s H1) as [H3 H4]. split; [unfold upto; lia|].
  intros [E1 E2]%andb_true_iff. split_and!; try done. apply negb_true_iff, Z.eqb_neq in E1. done.
Qed.

Lemma ends_gettoken n : ends (upto n) (gettoken buf)
  (fun t s => upto n s /\ (t.1 <> 0 -> (0 < n)%nat /\ upto (n - 1) s) /\ (t.1 = 97 -> word_span t.2)).
Proof.
  intros s [H1 H2]. unfold gettoken, bind, get, put. destruct (skip_ws_facts s H1) as [H3 H4].
  destruct (token_facts (skip_ws buf s)) as (T1 & T2 & T3 & T4); [lia|done|]. destruct (token buf (skip_ws buf s)) as [tok e]. cbn [fst snd] in *.
  destruct (skip_ws_facts e) as [H5 _]; [lia|]. unfold upto, ret. split_and!; [lia..| |done].
  intros Ht. assert (ch (skip_ws buf s) <> 0) as H0 by tauto. specialize (T3 H0). lia.
Qed.

(** After [peek] the token is there. *)
Lemma ends_take n toks : ends (fun s => upto n s /\ next_in toks s) (gettoken buf) (fun _ s => (0 < n)%nat /\ upto (n - 1) s).
Proof.
  intros s [Hu (E1 & E2 & E3)]. pose proof (ends_gettoken n s Hu) as H. destruct (gettoken buf s) as [t s'| |] eqn:E; [|done..].
  destruct H as (_ & H & _). apply H. unfold gettoken, bind, get, put in E. rewrite (skip_ws_id s E3) in E.
  destruct (token_facts s) as [T _]; [by destruct Hu|done|]. destruct (token buf s) as [tok e]. injection E as <- _. cbn [fst] in *. tauto.
Qed.

Lemma ends_when_peek {A} n toks (c1 c2 : M nat A) Q :
  ends (fun s => upto n s /\ next_in toks s) c1 Q -> ends (upto n) c2 Q ->
  ends (upto n) (let* b := peek buf toks in if b then c1 else c2) Q.
Proof.
  intros H1 H2. eapply triple_bind; [apply ends_peek|]. intros [|]; [|intros s [Hs _]; by apply H2].
  intros s [Hs Hb]. apply H1. auto.
Qed.

(** *** The parser ends

    Each function needs only a bounded number of turns per character that is left, and the strings of
    its result are words. *)

Definition redirs_ok (rs : list (redir span)) : Prop := forall r, r ∈ rs -> word_span r.1.1.
Fixpoint words_ok (c : cmd span) : Prop :=
  match c with
  | execcmd argv => forall a, a ∈ argv -> word_span a
  | redircmd c f _ _ => words_ok c /\ word_span f
  | pipecmd l r => words_ok l /\ words_ok r
  | listcmd l r => words_ok l /\ words_ok r
  | backcmd c => words_ok c
  end.

Lemma wrap_ok c rs : words_ok c -> redirs_ok rs -> words_ok (wrap c rs).
Proof.
  revert c. induction rs as [|r rs IH]; intros c Hc Hr; [done|]. apply IH; [|intros x Hx; apply Hr; by right].
  split; [done|]. apply Hr. by left.
Qed.

Lemma upto_weaken n m s : upto n s -> (n <= m)%nat -> upto m s.
Proof. unfold upto. lia. Qed.

(** What is left to do from a state with fewer characters left. *)
Lemma ends_from {A} n m (c : M nat A) (R : A -> Prop) s : ends (upto m) c (fun a s => upto m s /\ R a) -> (m <= n)%nat -> upto m s ->
  match c s with Ret a s' => upto n s' /\ R a | Panic _ => True | Blocked _ => False end.
Proof. intros Hc Hm Hs. specialize (Hc s Hs). destruct (c s); [|done..]. destruct Hc. split; [by eapply upto_weaken|done]. Qed.

Lemma ends_parseredirs f n : (n < f)%nat -> ends (upto n) (parseredirs buf f) (fun rs s => upto n s /\ redirs_ok rs).
Proof.
  revert n. induction f as [|f IH]; intros n Hn; [lia|]. cbn [parseredirs]. apply ends_when_peek.
  2: { apply triple_ret. intros s Hs. split; [done|]. intros r Hr. by apply not_elem_of_nil in Hr. }
  eapply triple_bind; [apply ends_take|]. intros t s [H0 Hs]. revert s Hs.
  eapply (triple_bind (upto (n - 1))); [apply ends_gettoken|]. intros x s (Hs & Hx & Hw). destruct (Z.eqb_spec x.1 97) as [E|E]; cbn [negb]; [|done].
  specialize (Hw E). destruct Hx as [_ Hx]; [lia|]. revert s Hs Hx. intros s Hs Hx.
  refine (triple_bind (upto (n - 1 - 1)) _ _ _ _ _ (IH (n - 1 - 1)%nat ltac:(lia)) _ s Hx).
  intros rs s' [Hs' Hrs]. split; [eapply upto_weaken; [exact Hs'|lia]|].
  assert (forall r, redirs_ok ((x.2, r, 0) :: rs) /\ redirs_ok ((x.2, r, 1) :: rs)) as H3.
  { intros r. split; intros y Hy; (apply elem_of_cons in Hy as [->|Hy]; [done|by apply Hrs]). }
  repeat case_match; try done; apply H3.
Qed.

Lemma ends_parseargs f n argv rs : (n < f)%nat -> (forall a, a ∈ argv -> word_span a) -> redirs_ok rs ->
  ends (upto n) (parseargs buf f argv rs) (fun r s => upto n s /\ (forall a, a ∈ r.1 -> word_span a) /\ redirs_ok r.2).
Proof.
  revert n argv rs. induction f as [|f IH]; intros n argv rs Hn Ha Hr; [lia|]. cbn [parseargs]. apply ends_when_peek.
  { by apply triple_ret; intros s [Hs _]. }
  eapply triple_bind; [apply ends_gettoken|]. intros t s (Hs & Ht & Hw).
  destruct (Z.eqb_spec t.1 0) as [E0|E0]; [done|]. destruct (Z.eqb_spec t.1 97) as [E|E]; cbn [negb]; [|done].
  destruct (Ht E0) as [H0 Hs1]. destruct (_ <=? _)%nat; [done|].
  refine (triple_bind (upto (n - 1)) _ _ _ _ _ (ends_parseredirs f (n - 1) ltac:(lia)) _ s Hs1). intros rs' s' [Hs' Hr'].
  apply (ends_from n (n - 1)); [apply IH; [lia| |]|lia|done].
  - intros a Hin. apply elem_of_app in Hin as [Hin|Hin]; [by apply Ha|]. apply list_elem_of_singleton in Hin as ->. by apply Hw.
  - intros x Hin. apply elem_of_app in Hin as [Hin|Hin]; auto.
Qed.

Lemma ends_parsebacks f n c : (n < f)%nat -> words_ok c -> ends (upto n) (parsebacks buf f c) (fun c s => upto n s /\ words_ok c).
Proof.
  revert n c. induction f as [|f IH]; intros n c Hn Hc; [lia|]. cbn [parsebacks]. apply ends_when_peek; [|by apply triple_ret].
  eapply triple_bind; [apply ends_take|]. intros _ s [H0 Hs].
  apply (ends_from n (n - 1)); [apply IH; [lia|done]|lia|done].
Qed.

Definition parses (n f : nat) (c : nat -> M nat (cmd span)) : Prop := ends (upto n) (c f) (fun c s => upto n s /\ words_ok c).

Lemma ends_parser f n :
  ((4 * n + 4 <= f)%nat -> parses n f (parseline buf)) /\ ((4 * n + 3 <= f)%nat -> parses n f (parsepipe buf)) /\
  ((4 * n + 2 <= f)%nat -> parses n f (parseexec buf)) /\ ((4 * n + 1 <= f)%nat -> parses n f (parseblock buf)).
Proof.
  revert n. induction f as [|f IH]; intros n; [lia|]. split_and!; intros Hn; unfold parses.
  - cbn [parseline]. eapply triple_bind; [apply (IH n); lia|]. intros c s [Hs Hc]. revert s Hs.
    eapply (triple_bind (upto n)); [apply ends_parsebacks; [lia|done]|]. intros c' s [Hs Hc']. revert s Hs. apply ends_when_peek; [|by apply triple_ret].
    eapply triple_bind; [apply ends_take|]. intros _ s [H0 Hs]. revert s Hs.
    eapply (triple_bind (upto (n - 1))); [apply (IH (n - 1)%nat); lia|]. intros c2 s [Hs Hc2]. split; [eapply upto_weaken; [done|lia]|by split].
  - cbn [parsepipe]. eapply triple_bind; [apply (IH n); lia|]. intros c s [Hs Hc]. revert s Hs. apply ends_when_peek; [|by apply triple_ret].
    eapply triple_bind; [apply ends_take|]. intros _ s [H0 Hs]. revert s Hs.
    eapply (triple_bind (upto (n - 1))); [apply (IH (n - 1)%nat); lia|]. intros c2 s [Hs Hc2]. split; [eapply upto_weaken; [done|lia]|by split].
  - cbn [parseexec]. apply ends_when_peek; [intros s [Hs _]; revert s Hs; apply (IH n); lia|].
    eapply triple_bind; [apply ends_parseredirs; lia|]. intros rs s [Hs Hrs]. revert s Hs.
    eapply (triple_bind (upto n)); [apply ends_parseargs; [lia| |done]; intros a Ha; by apply not_elem_of_nil in Ha|].
    intros r s (Hs & Ha & Hr). split; [done|]. by apply wrap_ok.
  - cbn [parseblock]. eapply triple_bind; [apply ends_peek|]. intros [|] s [Hs Hb]; [|done]. specialize (Hb eq_refl). cbn [negb].
    refine (triple_bind _ _ _ _ _ _ (ends_take n [40]) _ s (conj Hs Hb)). clear s Hs Hb. intros _ s [H0 Hs]. revert s Hs.
    eapply (triple_bind (upto (n - 1))); [apply (IH (n - 1)%nat); lia|]. intros c s [Hs Hc]. revert s Hs.
    eapply (triple_bind (upto (n - 1))); [apply ends_peek|]. intros [|] s [Hs Hb]; [|done]. specialize (Hb eq_refl). cbn [negb].
    refine (triple_bind _ _ _ _ _ _ (ends_take (n - 1) [41]) _ s (conj Hs Hb)). clear s Hs Hb. intros _ s [H1 Hs]. revert s Hs.
    eapply (triple_bind (upto (n - 1 - 1))); [apply ends_parseredirs; lia|]. intros rs s [Hs Hrs].
    split; [eapply upto_weaken; [done|lia]|by apply wrap_ok].
Qed.

(** ** The strings of a command *)

(** The strings, in the order [nulterminate] ends them. *)
Fixpoint strings {A} (c : cmd A) : list A :=
  match c with
  | execcmd argv => argv
  | redircmd c f _ _ => strings c ++ [f]
  | pipecmd l r => strings l ++ strings r
  | listcmd l r => strings l ++ strings r
  | backcmd c => strings c
  end.
Fixpoint cmd_map {A B} (f : A -> B) (c : cmd A) : cmd B :=
  match c with
  | execcmd argv => execcmd (f <$> argv)
  | redircmd c x m fd => redircmd (cmd_map f c) (f x) m fd
  | pipecmd l r => pipecmd (cmd_map f l) (cmd_map f r)
  | listcmd l r => listcmd (cmd_map f l) (cmd_map f r)
  | backcmd c => backcmd (cmd_map f c)
  end.

Lemma cmd_map_ext {A B} (f g : A -> B) c : (forall x, x ∈ strings c -> f x = g x) -> cmd_map f c = cmd_map g c.
Proof.
  induction c as [argv|c IH x m fd|l IHl r IHr|l IHl r IHr|c IH]; cbn [cmd_map strings]; intros H; f_equal; auto.
  - apply list_fmap_ext. intros k x Hk. apply H. by eapply list_elem_of_lookup_2.
  - apply IH. intros y Hy. apply H. set_solver.
  - apply H. set_solver.
  - apply IHl. set_solver.
  - apply IHr. set_solver.
  - apply IHl. set_solver.
  - apply IHr. set_solver.
Qed.

Lemma words_ok_strings c : words_ok c -> forall a, a ∈ strings c -> word_span a.
Proof.
  induction c as [argv|c IH x m fd|l IHl r IHr|l IHl r IHr|c IH]; cbn [words_ok strings]; intros H a Ha; auto.
  all: destruct H as [H1 H2]; apply elem_of_app in Ha as [Ha|Ha]; auto.
  by apply list_elem_of_singleton in Ha as ->.
Qed.

(** The C string at [q] of the bytes [b], and the text of a token. *)
Fixpoint cstring (l : list Z) : list Z :=
  match l with
  | [] => []
  | c :: l' => if c =? 0 then [] else c :: cstring l'
  end.
Definition cstr (b : list Z) (q : nat) : list Z := cstring (drop q b).
Definition text (a : span) : list Z := take (a.2 - a.1) (drop a.1 buf).

Definition end_at (b : list Z) (a : span) : list Z := <[a.2 := 0]> b.
Lemma nulterminate_strings c b : nulterminate c b = foldl end_at b (strings c).
Proof.
  revert b. induction c as [argv|c IH x m fd|l IHl r IHr|l IHl r IHr|c IH]; intros b; cbn [nulterminate strings]; try done.
  - rewrite foldl_app, IH. done.
  - by rewrite foldl_app, IHr, IHl.
  - by rewrite foldl_app, IHr, IHl.
Qed.

Lemma end_at_lookup l b i : foldl end_at b l !! i = if decide (i ∈ l.*2 /\ (i < length b)%nat) then Some 0 else b !! i.
Proof.
  revert b. induction l as [|a l IH]; intros b; cbn [foldl fmap list_fmap].
  - rewrite decide_False; [done|]. intros [H _]. by apply not_elem_of_nil in H.
  - rewrite IH. unfold end_at. rewrite length_insert. destruct (decide (i = a.2)) as [->|Hne].
    + destruct (decide (a.2 < length b)%nat) as [Hl|Hl].
      * rewrite list_lookup_insert_eq by done. repeat case_decide; try done; exfalso; set_solver.
      * rewrite !decide_False by lia. rewrite list_insert_ge by lia. done.
    + rewrite list_lookup_insert_ne by done. repeat case_decide; try done; exfalso; set_solver.
Qed.

Lemma length_ended l b : length (foldl end_at b l) = length b.
Proof. revert b. induction l as [|a l IH]; intros b; [done|]. cbn [foldl]. rewrite IH. apply length_insert. Qed.

Lemma cstring_app w r : Forall (fun c => c <> 0) w -> cstring (w ++ 0 :: r) = w.
Proof. induction 1 as [|c w Hc _ IH]; [done|]. cbn [cstring app]. replace (c =? 0) with false by lia. by rewrite IH. Qed.

(** [nulterminate] makes a C string of each token, and cuts no other one short. *)
Lemma strings_ended c a : Forall (fun x => x <> 0) buf -> words_ok c -> a ∈ strings c ->
  cstr (nulterminate c (buf ++ [0])) a.1 = text a.
Proof.
  intros Hb Hc Ha. pose proof (words_ok_strings c Hc) as Hw. destruct (Hw a Ha) as ([H1 H2] & H3 & H4).
  set (b := nulterminate c (buf ++ [0])).
  assert (forall i, b !! i = if decide (i ∈ (strings c).*2 /\ (i < S es)%nat) then Some 0 else (buf ++ [0]) !! i) as Hbi.
  { intros i. unfold b. rewrite nulterminate_strings, end_at_lookup, length_app. cbn [length]. by rewrite Nat.add_1_r. }
  assert (Forall (fun x => x <> 0) (text a)) as Ht by (by apply Forall_take, Forall_drop).
  assert (length (text a) = a.2 - a.1)%nat as Hl by (unfold text; rewrite length_take, length_drop; lia).
  unfold cstr. rewrite <- (cstring_app (text a) (drop (S a.2) b) Ht) at 1. f_equal. apply list_eq. intros i. rewrite lookup_drop, Hbi.
  destruct (decide (i < a.2 - a.1)%nat) as [Hi|Hi]; [|destruct (decide (i = a.2 - a.1)%nat) as [->|Hne]].
  - rewrite decide_False; [rewrite !lookup_app_l by lia; unfold text; by rewrite lookup_take_lt, lookup_drop by lia|].
    intros [Hin _]. apply list_elem_of_fmap in Hin as (d & Ed & Hd). destruct (Hw d Hd) as ([_ Hd1] & _ & Hd2).
    assert (word_char (ch (a.1 + i)) = true) as Hx by (apply H3; lia). rewrite Ed, Hd2 in Hx; [done|]. rewrite <- Ed. lia.
  - rewrite decide_True by (split; [apply list_elem_of_fmap; exists a; split; [lia|done]|lia]).
    rewrite lookup_app_r by lia. by replace (a.2 - a.1 - length (text a))%nat with 0%nat by lia.
  - rewrite <- Hbi, lookup_app_r by lia. rewrite Hl. destruct (i - (a.2 - a.1))%nat as [|k] eqn:Ek; [lia|].
    change ((0 :: drop (S a.2) b) !! S k) with (drop (S a.2) b !! k). rewrite lookup_drop. f_equal. lia.
Qed.

Lemma parsecmd_ends fuel : (4 * es + 4 <= fuel)%nat ->
  match parsecmd buf fuel 0%nat with
  | Ret r _ => words_ok r.1 /\ r.2 = nulterminate r.1 (buf ++ [0])
  | Panic _ => True
  | Blocked _ => False
  end.
Proof.
  intros Hf. unfold parsecmd.
  refine (triple_bind (upto es) _ _ (fun c s => upto es s /\ words_ok c) (fun r _ => words_ok r.1 /\ r.2 = nulterminate r.1 (buf ++ [0]))
    (fun _ => False) (proj1 (ends_parser fuel es) Hf) _ 0%nat _); [|unfold upto; lia].
  intros c s [Hs Hc]. revert s Hs. eapply (triple_bind (upto es)); [apply ends_peek|]. intros b s _. unfold bind, get. destruct (negb _); [done|by split].
Qed.
End lexer.

(** The shell answers every line: [parsecmd] returns a command or panics with a
    message (four steps for each character and four more are enough), and each string
    of the command is, in the line that [nulterminate] has cut up, the C string of its
    token: not empty, no blank and no symbol in it. *)
Theorem parsecmd_total buf : Forall (fun c => c <> 0) buf -> forall fuel, (4 * length buf + 4 <= fuel)%nat ->
  (exists msg, parsecmd buf fuel 0%nat = Panic msg) \/
  exists c b s, parsecmd buf fuel 0%nat = Ret (c, b) s /\ length b = S (length buf) /\
    forall a, a ∈ strings c -> cstr b a.1 = text buf a /\ text buf a <> [] /\ Forall (fun x => word_char x = true) (text buf a).
Proof.
  intros Hb fuel Hf. pose proof (parsecmd_ends buf fuel Hf) as H. destruct (parsecmd buf fuel 0%nat) as [[c b] s|msg|]; [right|left; by exists msg|done].
  destruct H as [Hc Eb]. cbn [fst snd] in *. exists c, b, s. split; [done|]. split.
  - subst b. by rewrite nulterminate_strings, length_ended, length_app, Nat.add_1_r.
  - intros a Ha. subst b. split; [by apply strings_ended|]. destruct (words_ok_strings _ _ Hc a Ha) as ([H1 H2] & H3 & _). unfold text. split.
    + intros E. apply (f_equal length) in E. rewrite length_take, length_drop in E. simpl in E. lia.
    + apply Forall_lookup. intros i x Hi. apply lookup_take_Some in Hi as [Hi Hl]. rewrite lookup_drop in Hi.
      specialize (H3 (a.1 + i)%nat ltac:(lia)). unfold ch in H3. by rewrite Hi in H3.
Qed.

Lemma parsecmd_total_witness :
  Forall (fun c => c <> 0) [97; 32; 62; 98; 59; 99] /\
  ((exists msg, parsecmd [97; 32; 62; 98; 59; 99] 28 0%nat = Panic msg) \/
   exists c b s, parsecmd [97; 32; 62; 98; 59; 99] 28 0%nat = Ret (c, b) s /\ length b = 7%nat /\
    forall a, a ∈ strings c -> cstr b a.1 = text [97; 32; 62; 98; 59; 99] a /\ text [97; 32; 62; 98; 59; 99] a <> [] /\
      Forall (fun x => word_char x = true) (text [97; 32; 62; 98; 59; 99] a)).
Proof.
  assert (Forall (fun c => c <> 0) [97; 32; 62; 98; 59; 99]) as H by (repeat constructor; discriminate).
  split; [exact H|]. apply (parsecmd_total _ H 28). simpl. lia.
Defined.
