(* ===== verification/ShellPrint.v ===== *)
(** * Commands written out and parsed again

    The grammar of sh.c as a printer from commands to tokens and from tokens to a line:
    parsing a printed command gives the command back, so the parser implements the
    precedences of the operators. *)

From S2P Require Import Prelude Shell.
Open Scope Z_scope.

(** ** Tokens *)

Inductive tok := TWord (w : list Z) | TSym (k : Z).
Definition kind (t : tok) : Z := match t with TWord _ => 97 | TSym k => k end.
Definition tok_text (t : tok) : list Z := match t with TWord w => w | TSym k => [k] end.
Definition starts (toks : list Z) (t : tok) : bool := match t with TWord _ => false | TSym k => strchr toks k end.

Definition valid_word (w : list Z) : Prop := w <> [] /\ forall c, c ∈ w -> word_char c = true /\ c <> 0.
(** The symbols but [>>], which means the same as [>]. *)
Definition valid_tok (t : tok) : Prop := match t with TWord w => valid_word w | TSym k => strchr symbols k = true end.

Section tokens.
Context (buf : list Z).
Local Abbreviation es := (length buf).
Local Abbreviation ch := (ch buf).

(** The tokens [ts] are what is left of the line from [s] on. *)
Fixpoint at_toks (s : nat) (ts : list tok) : Prop :=
  (s <= es)%nat /\
  match ts with
  | [] => skip_ws buf s = es
  | t :: ts' => let q := skip_ws buf s in
      ch q <> 0 /\ strchr symbols (ch q) = starts symbols t /\ (forall l, starts l t = starts symbols t && strchr l (ch q)) /\
      token buf q = (kind t, (q + length (tok_text t))%nat) /\ text buf (q, (q + length (tok_text t))%nat) = tok_text t /\
      at_toks (q + length (tok_text t)) ts'
  end.

Lemma at_toks_le s ts : at_toks s ts -> (s <= es)%nat.
Proof. by destruct ts; intros []. Qed.

Lemma skip_ws_twice s : (s <= es)%nat -> skip_ws buf (skip_ws buf s) = skip_ws buf s.
Proof. intros Hs. apply skip_ws_id. by apply skip_ws_facts. Qed.

Lemma at_toks_skip s ts : at_toks s ts -> at_toks (skip_ws buf s) ts.
Proof.
  intros H. pose proof (at_toks_le _ _ H) as Hs. destruct (skip_ws_facts buf s Hs) as [[_ Hq] _].
  destruct ts as [|t ts]; destruct H as [_ H]; (split; [done|]); rewrite skip_ws_twice by done; exact H.
Qed.

Lemma gettoken_run s t ts : at_toks s (t :: ts) ->
  exists a s', gettoken buf s = Ret (kind t, a) s' /\ text buf a = tok_text t /\ at_toks s' ts.
Proof.
  intros (Hs & H0 & H1 & H2 & H3 & H4 & H5). unfold gettoken, bind, get, put. rewrite H3.
  eexists _, _. split; [done|]. split; [exact H4|]. by apply at_toks_skip.
Qed.

Lemma gettoken_end s : at_toks s [] -> exists a s', gettoken buf s = Ret (0, a) s' /\ at_toks s' [].
Proof.
  intros H. pose proof (at_toks_skip _ _ H) as H'. destruct H as [Hs H]. unfold gettoken, bind, get, put. unfold token. rewrite H, ch_0 by done.
  eexists _, (skip_ws buf es). split; [done|]. apply at_toks_skip. by rewrite <- H at 1.
Qed.

Lemma peek_run s ts toks : (forall c, strchr toks c = true -> strchr symbols c = true) -> at_toks s ts ->
  exists s', peek buf toks s = Ret (match ts with t :: _ => starts toks t | [] => false end) s' /\ at_toks s' ts.
Proof.
  intros Ht H. pose proof (at_toks_skip _ _ H) as H'. unfold peek, bind, get, put. eexists. split; [|exact H'].
  unfold ret. f_equal. destruct ts as [|t ts].
  - destruct H as [_ ->]. by rewrite ch_0.
  - destruct H as (_ & H0 & H1 & H2 & _). rewrite H2, <- H1. replace (ch (skip_ws buf s) =? 0) with false by lia. cbn [negb andb].
    destruct (strchr toks (ch (skip_ws buf s))) eqn:E; [by rewrite (Ht _ E)|by rewrite andb_false_r].
Qed.
End tokens.

(** ** Writing tokens *)

Definition render (ts : list tok) : list Z := concat ((fun t => tok_text t ++ [32]) <$> ts).

Lemma skip_exact buf p q e : (q <= e <= length buf)%nat -> (forall i, (q <= i < e)%nat -> p (ch buf i) = true) ->
  ((e < length buf)%nat -> p (ch buf e) = false) -> skip buf (length buf - q) p q = e.
Proof.
  intros He Hp Hn. destruct (skip_facts buf (length buf - q) p q) as (H1 & H2 & H3 & H4); [done|].
  set (x := skip buf (length buf - q) p q) in *. destruct (lt_eq_lt_dec x e) as [[Hlt|]|Hgt]; [|done|].
  - specialize (Hp x ltac:(lia)). rewrite H4 in Hp by lia. done.
  - specialize (H3 e ltac:(lia)). rewrite Hn in H3 by lia. done.
Qed.

Lemma skip_ws_space buf s : (s < length buf)%nat -> strchr whitespace (ch buf s) = true -> skip_ws buf s = skip_ws buf (S s).
Proof.
  intros Hs Hw. unfold skip_ws. destruct (length buf - s)%nat as [|n] eqn:E; [lia|]. cbn [skip]. rewrite Hw.
  replace (s <? length buf)%nat with true by (symmetry; apply Nat.ltb_lt; lia). by replace (length buf - S s)%nat with n by lia.
Qed.

Lemma at_toks_space buf s ts : (s < length buf)%nat -> strchr whitespace (ch buf s) = true -> at_toks buf (S s) ts -> at_toks buf s ts.
Proof.
  intros Hs Hw H. destruct ts; destruct H as [H1 H2]; (split; [lia|]); rewrite (skip_ws_space buf s Hs Hw); exact H2.
Qed.

Lemma ch_app pre l i : ch (pre ++ l) (length pre + i) = default 0 (l !! i).
Proof. unfold ch. by rewrite lookup_app_r, Nat.add_comm, Nat.add_sub by lia. Qed.

Lemma symbol_facts k : strchr symbols k = true ->
  k <> 0 /\ strchr whitespace k = false /\ (strchr [124; 40; 41; 59; 38; 60] k = true \/ k = 62 /\ strchr [124; 40; 41; 59; 38; 60] k = false).
Proof.
  unfold symbols. intros H. rewrite !strchr_cons, strchr_nil, !orb_true_iff, !Z.eqb_eq in H.
  repeat destruct H as [-> |H]; try done; (split; [done|]; split; [reflexivity|]); first [left; reflexivity|right; split; reflexivity].
Qed.

Lemma word_facts c : word_char c = true -> strchr symbols c = false /\ strchr whitespace c = false.
Proof. unfold word_char. intros [H1 H2]%andb_true_iff. by rewrite negb_true_iff in H1, H2. Qed.

(** A token followed by a blank. *)
Lemma tok_start buf q t : valid_tok t -> (forall i, (i < length (tok_text t))%nat -> ch buf (q + i) = tok_text t !!! i) ->
  ch buf (q + length (tok_text t)) = 32 -> (q + length (tok_text t) < length buf)%nat ->
  strchr whitespace (ch buf q) = false /\ ch buf q <> 0 /\ strchr symbols (ch buf q) = starts symbols t /\
  (forall l, starts l t = starts symbols t && strchr l (ch buf q)) /\ token buf q = (kind t, (q + length (tok_text t))%nat).
Proof.
  intros Ht Hch Hsp Hl. destruct t as [w|k]; cbn [tok_text valid_tok starts kind] in *.
  - destruct Ht as [Hne Hw]. assert (forall i, (i < length w)%nat -> word_char (ch buf (q + i)) = true /\ ch buf (q + i) <> 0) as Hall.
    { intros i Hi. rewrite Hch by done. apply Hw. by apply list_elem_of_lookup_total_2. }
    assert (0 < length w)%nat as H0 by (destruct w; [done|simpl; lia]). destruct (Hall 0%nat H0) as [W0 C0]. rewrite Nat.add_0_r in W0, C0.
    destruct (word_facts _ W0) as [S1 S2]. split_and!; try done. unfold token. replace (ch buf q =? 0) with false by lia.
    unfold symbols in S1. rewrite !strchr_cons, strchr_nil, !orb_false_iff in S1. destruct S1 as (X1 & X2 & X3 & X4 & X5 & X6 & X7 & _).
    rewrite !strchr_cons, strchr_nil, X1, X2, X3, X4, X5, X6, X7. cbn [orb]. f_equal. apply skip_exact; [lia| |by rewrite Hsp].
    intros i Hi. replace i with (q + (i - q))%nat by lia. apply Hall. lia.
  - specialize (Hch 0%nat ltac:(simpl; lia)). rewrite Nat.add_0_r in Hch. cbn in Hch. rewrite Hch. cbn [length] in *. rewrite Nat.add_1_r in *.
    destruct (symbol_facts k Ht) as (H1 & H2 & H3). rewrite Ht. split_and!; try done. unfold token. rewrite Hch. replace (k =? 0) with false by lia.
    destruct H3 as [-> |[-> ->]]; [done|]. by rewrite Hsp.
Qed.

Lemma render_toks pre ts : Forall valid_tok ts -> at_toks (pre ++ render ts) (length pre) ts.
Proof.
  intros Hv. revert pre. induction Hv as [|t ts Ht Hts IH]; intros pre.
  { unfold render. cbn. rewrite app_nil_r. split; [done|]. apply skip_ws_id. by rewrite ch_0. }
  set (buf := pre ++ render (t :: ts)). specialize (IH (pre ++ tok_text t ++ [32])).
  assert (buf = (pre ++ tok_text t ++ [32]) ++ render ts) as EB by (unfold buf, render; cbn [fmap list_fmap concat]; by rewrite !app_assoc).
  rewrite <- EB in IH. rewrite !length_app in IH. cbn [length] in IH.
  assert (forall i, (i < length (tok_text t))%nat -> ch buf (length pre + i) = tok_text t !!! i) as Hch.
  { intros i Hi. unfold buf. rewrite ch_app. unfold render. cbn [fmap list_fmap concat]. rewrite <- app_assoc, lookup_app_l by done.
    by rewrite (list_lookup_lookup_total_lt _ _ Hi). }
  assert (ch buf (length pre + length (tok_text t)) = 32) as Hsp.
  { unfold buf. rewrite ch_app. unfold render. cbn [fmap list_fmap concat]. rewrite <- app_assoc. cbn [app]. by rewrite list_lookup_middle. }
  assert (length pre + length (tok_text t) < length buf)%nat as Hlb by (rewrite EB, !length_app; simpl; lia).
  assert (text buf (length pre, (length pre + length (tok_text t))%nat) = tok_text t) as Htx.
  { unfold text. cbn [fst snd]. replace (length pre + length (tok_text t) - length pre)%nat with (length (tok_text t)) by lia.
    unfold buf, render. rewrite drop_app_length. cbn [fmap list_fmap concat]. by rewrite <- app_assoc, take_app_length. }
  assert (at_toks buf (length pre + length (tok_text t)) ts) as Hrest.
  { apply at_toks_space; [done|by rewrite Hsp|]. by replace (S _) with (length pre + (length (tok_text t) + 1))%nat by lia. }
  destruct (tok_start buf (length pre) t Ht Hch Hsp Hlb) as (H1 & H2 & H3 & H4 & H5).
  split; [lia|]. cbv zeta. rewrite (skip_ws_id buf _ H1). by split_and!.
Qed.

(** ** Writing commands *)

Definition redir_toks (r : redir (list Z)) : list tok := [TSym (if r.2 =? 0 then 60 else 62); TWord r.1.1].
Definition paren (b : bool) (ts : list tok) : list tok := if b then [TSym 40] ++ ts ++ [TSym 41] else ts.

(** The tokens of a command where the grammar wants, by [lvl]: 0 a simple command or a block, 1 a
    pipeline, 2 what may be put in the background, 3 a whole line. *)
Fixpoint toks (lvl : nat) (c : cmd (list Z)) : list tok :=
  match c with
  | execcmd argv => TWord <$> argv
  | redircmd c f m fd => toks 0 c ++ redir_toks (f, m, fd)
  | pipecmd l r => paren (lvl <? 1)%nat (toks 0 l ++ [TSym 124] ++ toks 1 r)
  | backcmd c => paren (lvl <? 2)%nat (toks 2 c ++ [TSym 38])
  | listcmd l r => paren (lvl <? 3)%nat (toks 2 l ++ [TSym 59] ++ toks 3 r)
  end.
Definition print (c : cmd (list Z)) : list Z := render (toks 3 c).

Definition valid_redir (r : redir (list Z)) : Prop :=
  valid_word r.1.1 /\ ((r.1.2, r.2) = (O_RDONLY, 0) \/ (r.1.2, r.2) = (Z.lor O_WRONLY O_CREATE, 1)).
(** The commands the shell can express. *)
Fixpoint valid (c : cmd (list Z)) : Prop :=
  match c with
  | execcmd argv => Forall valid_word argv /\ (length argv < MAXARGS)%nat
  | redircmd c f m fd => valid c /\ valid_redir (f, m, fd)
  | pipecmd l r => valid l /\ valid r
  | backcmd c => valid c
  | listcmd l r => valid l /\ valid r
  end.

(** What may come after a command. *)
Definition follow (l : list Z) (ts : list tok) : Prop :=
  match ts with [] => True | t :: _ => starts l t = true end.
Definition redir_map {A B} (f : A -> B) (r : redir A) : redir B := (f r.1.1, r.1.2, r.2).

Lemma wrap_map {A B} (f : A -> B) c rs : cmd_map f (wrap c rs) = wrap (cmd_map f c) (redir_map f <$> rs).
Proof. revert c. induction rs as [|r rs IH]; intros c; [done|]. unfold wrap in *. cbn [foldl fmap list_fmap]. by rewrite IH. Qed.

Lemma symbols_all : (forall c, strchr [60; 62] c = true -> strchr symbols c = true) /\
  (forall c, strchr [124; 41; 38; 59] c = true -> strchr symbols c = true) /\
  (forall c, strchr [40] c = true -> strchr symbols c = true) /\ (forall c, strchr [41] c = true -> strchr symbols c = true) /\
  (forall c, strchr [124] c = true -> strchr symbols c = true) /\ (forall c, strchr [38] c = true -> strchr symbols c = true) /\
  (forall c, strchr [59] c = true -> strchr symbols c = true) /\ (forall c, strchr [] c = true -> strchr symbols c = true).
Proof.
  split_and!; intros c Hc; rewrite ?strchr_cons, strchr_nil, ?orb_true_iff, ?Z.eqb_eq in Hc;
    repeat destruct Hc as [-> |Hc]; done.
Qed.

Section roundtrip.
Context (buf : list Z).
Local Abbreviation at_toks := (at_toks buf).
Local Abbreviation txt := (text buf).

Lemma parseredirs_run rs rest f s : Forall valid_redir rs -> at_toks s (concat (redir_toks <$> rs) ++ rest) ->
  match rest with [] => True | t :: _ => starts [60; 62] t = false end -> (length rs < f)%nat ->
  exists rs' s', parseredirs buf f s = Ret rs' s' /\ redir_map txt <$> rs' = rs /\ at_toks s' rest.
Proof.
  intros Hv. revert f s. induction Hv as [|r rs Hr Hrs IH]; intros f s H Hrest Hf; (destruct f as [|f]; [lia|]); cbn [parseredirs].
  - destruct (peek_run buf s rest [60; 62]) as (s' & E & Hs'); [apply symbols_all|done|].
    rewrite (bind_ret _ _ _ _ _ E). exists [], s'. destruct rest as [|t rest]; [done|]. by rewrite Hrest.
  - cbn [fmap list_fmap concat redir_toks app] in H.
    destruct (peek_run buf s _ [60; 62] ltac:(apply symbols_all) H) as (s1 & E1 & H1).
    rewrite (bind_ret _ _ _ _ _ E1). clear H.
    assert (starts [60; 62] (TSym (if r.2 =? 0 then 60 else 62)) = true) as -> by (by destruct (r.2 =? 0)).
    destruct (gettoken_run _ _ _ _ H1) as (a & s2 & E2 & _ & H2). rewrite (bind_ret _ _ _ _ _ E2).
    destruct (gettoken_run _ _ _ _ H2) as (b & s3 & E3 & T3 & H3). rewrite (bind_ret _ _ _ _ _ E3). cbn [fst snd kind negb Z.eqb Pos.eqb].
    destruct (IH f s3 H3 Hrest) as (rs' & s' & E & Hrs' & Hs'); [simpl in Hf; lia|]. rewrite (bind_ret _ _ _ _ _ E).
    eexists _, s'. split; [done|]. split; [|done].
    destruct r as [[w m] fd], Hr as [_ [[= -> ->]|[= -> ->]]]; cbn [fst snd tok_text] in T3; by rewrite <- Hrs', <- T3.
Qed.

(** [peek] decides by the next token. *)
Lemma peek_bind {A} s ts l (k : bool -> M nat A) : at_toks s ts -> (forall c, strchr l c = true -> strchr symbols c = true) ->
  exists s', (let* b := peek buf l in k b) s = k (match ts with t :: _ => starts l t | [] => false end) s' /\ at_toks s' ts.
Proof. intros H Hl. destruct (peek_run buf s ts l Hl H) as (s' & E & H'). exists s'. by rewrite (bind_ret _ _ _ _ _ E). Qed.

(** Step over a [peek] at tokens that [H] describes. *)
Local Ltac peek_step H s' H' :=
  let E := fresh "E" in
  match goal with |- context [bind (peek _ ?l) ?k] =>
    destruct (peek_bind _ _ l k H ltac:(apply symbols_all)) as (s' & E & H'); rewrite E; clear E H end.

Lemma parseargs_end rest argv rs0 f s : at_toks s rest -> follow [124; 41; 38; 59] rest -> (0 < f)%nat ->
  exists s', parseargs buf f argv rs0 s = Ret (argv, rs0) s' /\ at_toks s' rest.
Proof.
  intros H Hfol Hf. destruct f as [|f]; [lia|]. cbn [parseargs]. peek_step H s1 H1.
  destruct rest as [|t rest]; [|cbn [follow] in Hfol; rewrite Hfol; by exists s1].
  destruct (gettoken_end _ _ H1) as (a & s2 & E2 & H2). rewrite (bind_ret _ _ _ _ _ E2). by exists s2.
Qed.

Lemma parseargs_run ws rs rest argv rs0 f s : Forall valid_redir rs -> (ws = [] -> rs = []) ->
  at_toks s ((TWord <$> ws) ++ concat (redir_toks <$> rs) ++ rest) -> follow [124; 41; 38; 59] rest ->
  (length argv + length ws < MAXARGS)%nat -> (length ws + length rs < f)%nat ->
  exists r s', parseargs buf f argv rs0 s = Ret r s' /\ txt <$> r.1 = (txt <$> argv) ++ ws /\
    redir_map txt <$> r.2 = (redir_map txt <$> rs0) ++ rs /\ at_toks s' rest.
Proof.
  intros Hv. revert argv rs0 f s. induction ws as [|w ws IH]; intros argv rs0 f s H0 H Hfol Hlen Hf.
  { rewrite H0 in * by done. destruct (parseargs_end rest argv rs0 f s H Hfol) as (s1 & E1 & H1); [lia|]. 
    exists (argv, rs0), s1. by rewrite !app_nil_r. }
  destruct f as [|f]; [lia|]. cbn [parseargs].
  cbn [fmap list_fmap app] in H. peek_step H s1 H1. cbn [starts]. destruct (gettoken_run _ _ _ _ H1) as (a & s2 & E2 & T2 & H2). rewrite (bind_ret _ _ _ _ _ E2).
  cbn [kind fst snd Z.eqb Pos.eqb negb]. rewrite length_app. cbn [length]. simpl length in Hlen, Hf.
  replace (MAXARGS <=? length argv + 1)%nat with false by (symmetry; apply Nat.leb_gt; lia).
  destruct ws as [|w' ws].
  - cbn [fmap list_fmap app] in H2. destruct (parseredirs_run rs rest f s2 Hv H2) as (rs' & s3 & E3 & M3 & H3); [|simpl in Hf; lia|].
    { destruct rest as [|[|k] rest]; try done. cbn [follow starts] in *. rewrite !strchr_cons, strchr_nil, !orb_true_iff, !Z.eqb_eq in Hfol. 
      repeat destruct Hfol as [-> |Hfol]; done. }
    rewrite (bind_ret _ _ _ _ _ E3).
    destruct (parseargs_end rest (argv ++ [a]) (rs0 ++ rs') f s3 H3 Hfol) as (s4 & E4 & H4); [lia|]. rewrite E4.
    exists (argv ++ [a], rs0 ++ rs'), s4. cbn [fst snd]. rewrite !fmap_app, M3. cbn [fmap list_fmap]. by rewrite T2.
  - destruct (parseredirs_run [] _ f s2 (Forall_nil_2 _) H2) as (rs' & s3 & E3 & M3 & H3); [done|simpl; lia|].
    rewrite (bind_ret _ _ _ _ _ E3). apply fmap_nil_inv in M3 as ->. rewrite app_nil_r.
    destruct (IH (argv ++ [a]) rs0 f s3 ltac:(done) H3 Hfol) as (r & s4 & E4 & M4 & M5 & H4); [rewrite length_app; simpl in *; lia|simpl in *; lia|].
    exists r, s4. rewrite E4, M4, M5. split_and!; try done. rewrite fmap_app, <- app_assoc. cbn [fmap list_fmap app]. by rewrite T2.
Qed.

(** *** What each function of the parser does with the tokens of a command *)

Definition rtoks (rs : list (redir (list Z))) : list tok := concat (redir_toks <$> rs).

Lemma length_rtoks rs : length (rtoks rs) = (2 * length rs)%nat.
Proof. induction rs as [|r rs IH]; [done|]. unfold rtoks in *. cbn [fmap list_fmap concat]. rewrite length_app, IH. simpl. lia. Qed.

Definition execs (c : cmd (list Z)) : Prop := forall rs rest f s, Forall valid_redir rs ->
  at_toks s (toks 0 c ++ rtoks rs ++ rest) -> follow [124; 41; 38; 59] rest -> (4 * length (toks 0 c ++ rtoks rs ++ rest) + 2 <= f)%nat ->
  exists t s', parseexec buf f s = Ret t s' /\ cmd_map txt t = wrap c rs /\ at_toks s' rest.
Definition pipes (c : cmd (list Z)) : Prop := forall rest f s,
  at_toks s (toks 1 c ++ rest) -> follow [41; 38; 59] rest -> (4 * length (toks 1 c ++ rest) + 3 <= f)%nat ->
  exists t s', parsepipe buf f s = Ret t s' /\ cmd_map txt t = c /\ at_toks s' rest.
Definition backs (c : cmd (list Z)) : Prop := forall rest f g s,
  at_toks s (toks 2 c ++ rest) -> follow [41; 38; 59] rest -> (4 * length (toks 2 c ++ rest) + 3 <= f)%nat -> (length (toks 2 c ++ rest) < g)%nat ->
  exists t s' g', (let* x := parsepipe buf f in parsebacks buf g x) s = parsebacks buf g' t s' /\ (length rest < g')%nat /\
    cmd_map txt t = c /\ at_toks s' rest.
Definition lines (c : cmd (list Z)) : Prop := forall rest f s,
  at_toks s (toks 3 c ++ rest) -> follow [41] rest -> (4 * length (toks 3 c ++ rest) + 4 <= f)%nat ->
  exists t s', parseline buf f s = Ret t s' /\ cmd_map txt t = c /\ at_toks s' rest.

Lemma follow_weaken l l' ts : follow l ts -> (forall k, strchr l k = true -> strchr l' k = true) -> follow l' ts.
Proof. intros H Hl. destruct ts as [|[w|k] ts]; [done|done|]. cbn [follow starts] in *. auto. Qed.
Lemma follow_not l l' ts : follow l ts -> (forall k, strchr l k = true -> strchr l' k = false) ->
  match ts with [] => false | t :: _ => starts l' t end = false.
Proof. intros H Hl. destruct ts as [|[w|k] ts]; [done|done|]. cbn [follow starts] in *. auto. Qed.

(** Facts about small sets of characters, by trying their elements. *)
Local Ltac chars := let k := fresh "k" in let H := fresh "H" in
  intros k H; rewrite ?strchr_cons, ?strchr_nil, ?orb_true_iff, ?Z.eqb_eq in H; repeat destruct H as [-> |H]; done.

Lemma execs_exec ws : valid (execcmd ws) -> execs (execcmd ws).
Proof.
  intros [Hv Hl] rs rest f s Hrs H Hfol Hf. destruct f as [|f]; [lia|]. cbn [toks parseexec] in *.
  rewrite !length_app, length_fmap, length_rtoks in Hf. peek_step H s1 H1.
  replace (match (TWord <$> ws) ++ rtoks rs ++ rest with [] => false | t :: _ => starts [40] t end) with false.
  2: { destruct ws; [|done]. destruct rs as [|r rs]; [|by cbn; destruct (r.2 =? 0)]. symmetry. apply (follow_not [124; 41; 38; 59]); [done|chars]. }
  destruct ws as [|w ws].
  - destruct (parseredirs_run rs rest f s1 Hrs H1) as (rs' & s2 & E2 & M2 & H2); [|lia|].
    { pose proof (follow_not _ [60; 62] _ Hfol ltac:(chars)) as Hn. by destruct rest. }
    rewrite (bind_ret _ _ _ _ _ E2). destruct (parseargs_end rest [] rs' f s2 H2 Hfol) as (s3 & E3 & H3); [lia|].
    rewrite (bind_ret _ _ _ _ _ E3). eexists _, _. split; [done|]. split; [|done]. rewrite wrap_map. cbn [fst snd cmd_map]. by rewrite M2.
  - destruct (parseredirs_run [] _ f s1 (Forall_nil_2 _) H1) as (rs' & s2 & E2 & M2 & H2); [done|simpl; lia|].
    rewrite (bind_ret _ _ _ _ _ E2). apply fmap_nil_inv in M2 as ->.
    destruct (parseargs_run (w :: ws) rs rest [] [] f s2 Hrs ltac:(done) H2 Hfol Hl) as (r & s3 & E3 & M3 & M4 & H3); [simpl in *; lia|].
    rewrite (bind_ret _ _ _ _ _ E3). eexists _, _. split; [done|]. split; [|done]. rewrite wrap_map. cbn [cmd_map]. by rewrite M3, M4.
Qed.

Lemma execs_redir c f m fd : execs c -> valid_redir (f, m, fd) -> execs (redircmd c f m fd).
Proof.
  intros Hc Hr rs rest n s Hrs H Hfol Hn. apply (Hc ((f, m, fd) :: rs) rest n s); [by constructor| |done|].
  - unfold rtoks. cbn [fmap list_fmap concat toks] in *. by rewrite <- !app_assoc in *.
  - unfold rtoks. cbn [fmap list_fmap concat toks] in *. by rewrite <- !app_assoc in *.
Qed.

(** A command that needs parentheses. *)
Lemma execs_block c : lines c -> toks 0 c = [TSym 40] ++ toks 3 c ++ [TSym 41] -> execs c.
Proof.
  intros Hc Et rs rest f s Hrs H Hfol Hf. rewrite Et, <- !app_assoc in *. cbn [app] in *.
  destruct f as [|[|f]]; [lia..|]. cbn [parseexec]. peek_step H s1 H1. cbn [starts strchr existsb Z.eqb Pos.eqb orb parseblock].
  peek_step H1 s2 H2. cbn [starts strchr existsb Z.eqb Pos.eqb orb negb].
  destruct (gettoken_run _ _ _ _ H2) as (a & s3 & E3 & _ & H3). rewrite (bind_ret _ _ _ _ _ E3).
  destruct (Hc _ f s3 H3) as (t & s4 & E4 & M4 & H4); [done|cbn [length] in Hf; lia|]. rewrite (bind_ret _ _ _ _ _ E4).
  peek_step H4 s5 H5. cbn [starts strchr existsb Z.eqb Pos.eqb orb negb].
  destruct (gettoken_run _ _ _ _ H5) as (b & s6 & E6 & _ & H6). rewrite (bind_ret _ _ _ _ _ E6).
  destruct (parseredirs_run rs rest f s6 Hrs H6) as (rs' & s7 & E7 & M7 & H7).
  { pose proof (follow_not _ [60; 62] _ Hfol ltac:(chars)) as Hn. by destruct rest. }
  { cbn [length] in Hf. rewrite length_app in Hf. cbn [length] in Hf. rewrite length_app, length_rtoks in Hf. lia. }
  rewrite (bind_ret _ _ _ _ _ E7). eexists _, _. split; [done|]. split; [|done]. by rewrite wrap_map, M4, M7.
Qed.

(** A pipeline of one command, a command not in the background, a line of one command. *)
Lemma pipes_one c : execs c -> toks 1 c = toks 0 c -> pipes c.
Proof.
  intros Hc Et rest f s H Hfol Hf. rewrite Et in *. destruct f as [|f]; [lia|]. cbn [parsepipe].
  destruct (Hc [] rest f s (Forall_nil_2 _) H) as (t & s1 & E1 & M1 & H1); [eapply follow_weaken; [done|chars]|unfold rtoks; simpl; lia|].
  rewrite (bind_ret _ _ _ _ _ E1). peek_step H1 s2 H2. rewrite (follow_not _ [124] _ Hfol ltac:(chars)). by exists t, s2.
Qed.

Lemma pipes_pipe l r : execs l -> pipes r -> pipes (pipecmd l r).
Proof.
  intros Hl Hr rest f s H Hfol Hf. cbn [toks Nat.ltb Nat.leb paren] in *. rewrite <- !app_assoc in *. destruct f as [|f]; [lia|]. cbn [parsepipe].
  destruct (Hl [] _ f s (Forall_nil_2 _) H) as (t & s1 & E1 & M1 & H1); [done|unfold rtoks; cbn [fmap list_fmap concat app] in *; lia|].
  rewrite (bind_ret _ _ _ _ _ E1). peek_step H1 s2 H2. cbn [app starts strchr existsb Z.eqb Pos.eqb orb].
  destruct (gettoken_run _ _ _ _ H2) as (a & s3 & E3 & _ & H3). rewrite (bind_ret _ _ _ _ _ E3).
  destruct (Hr rest f s3 H3 Hfol) as (t' & s4 & E4 & M4 & H4); [rewrite length_app in Hf; cbn [app length] in Hf; lia|].
  rewrite (bind_ret _ _ _ _ _ E4). eexists _, _. split; [done|]. split; [|done]. cbn [cmd_map]. by rewrite M1, M4.
Qed.

Lemma backs_one c : pipes c -> toks 2 c = toks 1 c -> backs c.
Proof.
  intros Hc Et rest f g s H Hfol Hf Hg. rewrite Et in *. destruct (Hc rest f s H Hfol Hf) as (t & s1 & E1 & M1 & H1).
  exists t, s1, g. rewrite (bind_ret _ _ _ _ _ E1). split_and!; try done. rewrite length_app in Hg. lia.
Qed.

Lemma backs_back c : backs c -> backs (backcmd c).
Proof.
  intros Hc rest f g s H Hfol Hf Hg. cbn [toks Nat.ltb Nat.leb paren] in *. rewrite <- !app_assoc in *.
  destruct (Hc _ f g s H) as (t & s1 & g' & E1 & Hg' & M1 & H1); [done|done|done|]. rewrite E1.
  destruct g' as [|g']; [lia|]. cbn [parsebacks]. peek_step H1 s2 H2. cbn [app starts strchr existsb Z.eqb Pos.eqb orb].
  destruct (gettoken_run _ _ _ _ H2) as (a & s3 & E3 & _ & H3). rewrite (bind_ret _ _ _ _ _ E3).
  exists (backcmd t), s3, g'. cbn [app length] in Hg'. split_and!; try done; [lia|]. cbn [cmd_map]. by rewrite M1.
Qed.

(** The start of a line: a command with its [&]s. *)
Lemma line_start c rest f s : backs c -> at_toks s (toks 2 c ++ rest) -> follow [41; 59] rest -> (4 * length (toks 2 c ++ rest) + 3 <= f)%nat ->
  exists t s', (let* x := parsepipe buf f in parsebacks buf f x) s = Ret t s' /\ cmd_map txt t = c /\ at_toks s' rest.
Proof.
  intros Hc H Hfol Hf. destruct (Hc rest f f s H) as (t & s1 & g & E1 & Hg & M1 & H1); [eapply follow_weaken; [done|chars]|done|lia|].
  rewrite E1. destruct g as [|g]; [lia|]. cbn [parsebacks]. peek_step H1 s2 H2. rewrite (follow_not _ [38] _ Hfol ltac:(chars)). by exists t, s2.
Qed.

Lemma lines_one c : backs c -> toks 3 c = toks 2 c -> lines c.
Proof.
  intros Hc Et rest f s H Hfol Hf. rewrite Et in *. destruct f as [|f]; [lia|]. cbn [parseline].
  destruct (line_start c rest f s Hc H) as (t & s1 & E1 & M1 & H1); [eapply follow_weaken; [done|chars]|lia|].
  rewrite <- bind_assoc, (bind_ret _ _ _ _ _ E1). peek_step H1 s2 H2. rewrite (follow_not _ [59] _ Hfol ltac:(chars)). by exists t, s2.
Qed.

Lemma lines_list l r : backs l -> lines r -> lines (listcmd l r).
Proof.
  intros Hl Hr rest f s H Hfol Hf. cbn [toks Nat.ltb Nat.leb paren] in *. rewrite <- !app_assoc in *. destruct f as [|f]; [lia|]. cbn [parseline].
  destruct (line_start l _ f s Hl H) as (t & s1 & E1 & M1 & H1); [done|lia|].
  rewrite <- bind_assoc, (bind_ret _ _ _ _ _ E1). peek_step H1 s2 H2. cbn [app starts strchr existsb Z.eqb Pos.eqb orb].
  destruct (gettoken_run _ _ _ _ H2) as (a & s3 & E3 & _ & H3). rewrite (bind_ret _ _ _ _ _ E3).
  destruct (Hr rest f s3 H3 Hfol) as (t' & s4 & E4 & M4 & H4); [rewrite length_app in Hf; cbn [app length] in Hf; lia|].
  rewrite (bind_ret _ _ _ _ _ E4). eexists _, _. split; [done|]. split; [|done]. cbn [cmd_map]. by rewrite M1, M4.
Qed.

Lemma all_levels c : valid c -> execs c /\ pipes c /\ backs c /\ lines c.
Proof.
  induction c as [argv|c IH f m fd|l IHl r IHr|l IHl r IHr|c IH]; cbn [valid]; intros Hv.
  - pose proof (execs_exec argv Hv) as H0. pose proof (pipes_one _ H0 eq_refl) as H1. pose proof (backs_one _ H1 eq_refl) as H2.
    by pose proof (lines_one _ H2 eq_refl).
  - destruct Hv as [Hc Hr]. destruct (IH Hc) as (X & _). pose proof (execs_redir c f m fd X Hr) as H0.
    pose proof (pipes_one _ H0 eq_refl) as H1. pose proof (backs_one _ H1 eq_refl) as H2. by pose proof (lines_one _ H2 eq_refl).
  - destruct Hv as [Hl Hr]. destruct (IHl Hl) as (X & _), (IHr Hr) as (_ & Y & _). pose proof (pipes_pipe l r X Y) as H1.
    pose proof (backs_one _ H1 eq_refl) as H2. pose proof (lines_one _ H2 eq_refl) as H3. by pose proof (execs_block _ H3 eq_refl).
  - destruct Hv as [Hl Hr]. destruct (IHl Hl) as (_ & _ & X & _), (IHr Hr) as (_ & _ & _ & Y). pose proof (lines_list l r X Y) as H3.
    pose proof (execs_block _ H3 eq_refl) as H0. pose proof (pipes_one _ H0 eq_refl) as H1. by pose proof (backs_one _ H1 eq_refl).
  - destruct (IH Hv) as (_ & _ & X & _). pose proof (backs_back c X) as H2. pose proof (lines_one _ H2 eq_refl) as H3.
    pose proof (execs_block _ H3 eq_refl) as H0. by pose proof (pipes_one _ H0 eq_refl).
Qed.
End roundtrip.

Lemma paren_valid b ts : Forall valid_tok ts -> Forall valid_tok (paren b ts).
Proof. intros H. destruct b; [|done]. cbn [paren]. rewrite !Forall_app. by repeat constructor. Qed.

Lemma toks_valid c : valid c -> forall lvl, Forall valid_tok (toks lvl c).
Proof.
  induction c as [argv|c IH f m fd|l IHl r IHr|l IHl r IHr|c IH]; cbn [valid toks]; intros Hv lvl.
  - destruct Hv as [Hv _]. by apply Forall_fmap.
  - destruct Hv as [Hc Hr]. apply Forall_app. split; [by apply IH|]. destruct Hr as [Hw _]. cbn [fst snd] in *.
    apply Forall_cons_2; [cbn; by destruct (fd =? 0)|]. by apply Forall_singleton.
  - destruct Hv. apply paren_valid. rewrite !Forall_app. repeat constructor; auto.
  - destruct Hv. apply paren_valid. rewrite !Forall_app. repeat constructor; auto.
  - apply paren_valid. rewrite Forall_app. repeat constructor; auto.
Qed.

Lemma render_facts ts : Forall valid_tok ts -> Forall (fun c => c <> 0) (render ts) /\ (length ts <= length (render ts))%nat.
Proof.
  induction 1 as [|t ts Ht _ [IH1 IH2]]; [done|]. unfold render in *. cbn [fmap list_fmap concat length]. rewrite !Forall_app, !length_app.
  simpl length. split; [|lia]. split_and!; [|by repeat constructor|done]. destruct t as [w|k]; cbn [tok_text valid_tok] in *.
  - apply Forall_forall. intros c Hc. by apply Ht.
  - repeat constructor. by apply symbol_facts.
Qed.

(** C23: parsing a printed command gives the command back: the tree has its operators with
    their precedences, and its strings, in the line as [nulterminate] leaves it, are
    the words.  [valid] bounds the arguments by MAXARGS and wants words without
    blanks and symbols. *)
Theorem parse_print c : valid c -> forall fuel, (4 * length (print c) + 4 <= fuel)%nat ->
  exists t b s, parsecmd (print c) fuel 0%nat = Ret (t, b) s /\ cmd_map (fun a => cstr b a.1) t = c.
Proof.
  intros Hv fuel Hf. pose proof (toks_valid c Hv 3) as Ht. destruct (render_facts _ Ht) as [Hnz Hlen]. fold (print c) in *.
  pose proof (render_toks [] _ Ht) as H. cbn [app length] in H. fold (print c) in H.
  destruct (all_levels (print c) c Hv) as (_ & _ & _ & HL).
  rewrite <- (app_nil_r (toks 3 c)) in H. destruct (HL [] fuel 0%nat H) as (t & s1 & E1 & M1 & H1); [done|rewrite app_nil_r; lia|].
  pose proof (parsecmd_ends (print c) fuel Hf) as HP. unfold parsecmd in *. rewrite (bind_ret _ _ _ _ _ E1) in HP |- *.
  destruct (peek_run (print c) s1 [] [] ltac:(done) H1) as (s2 & E2 & H2). rewrite (bind_ret _ _ _ _ _ E2) in HP |- *.
  assert (s2 = length (print c)) as ->.
  { unfold peek, bind, get, put in E2. destruct H1 as [_ H1]. injection E2 as _ <-. exact H1. }
  unfold bind, get in HP |- *. rewrite Nat.eqb_refl in HP |- *. cbn [negb] in *. destruct HP as [Hw _]. cbn [fst] in Hw.
  eexists _, _, _. split; [done|]. etransitivity; [|exact M1]. apply cmd_map_ext. intros a Ha. by apply strings_ended.
Qed.

(** [(a|b;c) > d &] *)
Definition demo_cmd : cmd (list Z) := backcmd (redircmd (listcmd (pipecmd (execcmd [[97]]) (execcmd [[98]])) (execcmd [[99]])) [100] 0x201 1).

Lemma parse_print_witness :
  valid demo_cmd /\ exists t b s, parsecmd (print demo_cmd) 84 0%nat = Ret (t, b) s /\ cmd_map (fun a => cstr b a.1) t = demo_cmd.
Proof.
  assert (forall k, word_char k = true -> k <> 0 -> valid_word [k]) as Hw.
  { intros k H1 H2. split; [discriminate|]. intros c Hc. apply list_elem_of_singleton in Hc as ->. split; assumption. }
  assert (forall k, word_char k = true -> k <> 0 -> valid (execcmd [[k]])) as He.
  { intros k H1 H2. split; [|simpl; unfold MAXARGS; lia]. constructor; [apply Hw; assumption|constructor]. }
  assert (valid demo_cmd) as Hv.
  { split; [|split; [apply Hw; [reflexivity|discriminate]|right; reflexivity]].
    split; [split|]; apply He; solve [reflexivity|discriminate]. }
  split; [exact Hv|]. apply (parse_print demo_cmd Hv 84). vm_compute. lia.
Defined.
