(* ===== verification/ShellRun.v ===== *)
(** * The shell runs a command

    [runcmd] of sh.c, on the descriptor tables of the processes it forks; the built-in
    commands of [main]; and [pwd].  [panic] of the shell ends only the process that calls it. *)

From S2P Require Import Prelude Shell.
Open Scope Z_scope.

(** ** Descriptors *)

(** An open file: one the shell was started with, an opened path or an end of a pipe. *)
Inductive obj := OInherited (n : nat) | OFile (path : list Z) (mode : Z) | OPipeR (id : list nat) | OPipeW (id : list nat).
Abbreviation fds := (list (option obj)).

(** The lowest free descriptor; [close], [dup] and [pipe] of the kernel. *)
Fixpoint lowest (t : fds) : option nat :=
  match t with
  | [] => None
  | None :: _ => Some 0%nat
  | Some _ :: t' => S <$> lowest t'
  end.
Definition sys_close (fd : nat) (t : fds) : fds := <[fd := None]> t.
Definition sys_dup (fd : nat) (t : fds) : fds :=
  match t !! fd, lowest t with
  | Some (Some o), Some k => <[k := Some o]> t
  | _, _ => t
  end.
Definition sys_pipe (n : list nat) (t : fds) : option (nat * nat * fds) :=
  p0 ← lowest t;
  let t := <[p0 := Some (OPipeR n)]> t in
  p1 ← lowest t;
  Some (p0, p1, <[p1 := Some (OPipeW n)]> t).

(** ** Processes

    What a process of the shell does from a [runcmd] on, up to its [exit].  A forked child
    runs beside its parent, so the actions form a tree and not a sequence. *)
Inductive action :=
| Exec (argv : list (list Z)) (t : fds)    (* the process becomes the program *)
| Fork (child : list action)
| Wait (t : fds)                           (* for a child, with these descriptors *)
| Say (msg : string) (arg : list Z).       (* printf on descriptor 2 *)

Section run.
(** Which calls succeed: the [k]-th fork of a node of the command, an [open], an [exec].
    A node is named by its path from the root. *)
Context (fork_ok : list nat -> nat -> bool) (openable : list Z -> Z -> bool) (can_exec : list (list Z) -> bool).

Definition sys_open (path : list Z) (mode : Z) (t : fds) : option fds :=
  if openable path mode then k ← lowest t; Some (<[k := Some (OFile path mode)]> t) else None.

(** [if(fork1() == 0) child; k] *)
Definition fork1 (id : list nat) (n : nat) (child k : list action) : list action :=
  if fork_ok id n then Fork child :: k else [Say "fork" []].

Fixpoint runcmd (id : list nat) (c : cmd (list Z)) (t : fds) : list action :=
  match c with
  | execcmd [] => []
  | execcmd ((name :: _) as argv) => if can_exec argv then [Exec argv t] else [Say "exec %s failed" name]
  | redircmd c file mode fd =>
      match sys_open file mode (sys_close (Z.to_nat fd) t) with
      | None => [Say "open %s failed" file]
      | Some t => runcmd (0%nat :: id) c t
      end
  | listcmd l r => fork1 id 0 (runcmd (0%nat :: id) l t) (Wait t :: runcmd (1%nat :: id) r t)
  | pipecmd l r =>
      match sys_pipe id t with
      | None => [Say "pipe" []]
      | Some (p0, p1, t) =>
          fork1 id 0 (runcmd (0%nat :: id) l (sys_close p1 (sys_close p0 (sys_dup p1 (sys_close 1 t)))))
            (fork1 id 1 (runcmd (1%nat :: id) r (sys_close p1 (sys_close p0 (sys_dup p0 (sys_close 0 t)))))
              (let t := sys_close p1 (sys_close p0 t) in [Wait t; Wait t]))
      end
  | backcmd c => fork1 id 0 (runcmd (0%nat :: id) c t) []
  end.
End run.

(** ** What a command means

    Each program with the descriptors it is to have: only the two sides of a pipe have
    an end of it, one each. *)
Fixpoint meaning (id : list nat) (c : cmd (list Z)) (t : fds) : list action :=
  match c with
  | execcmd [] => []
  | execcmd argv => [Exec argv t]
  | redircmd c file mode fd => meaning (0%nat :: id) c (<[Z.to_nat fd := Some (OFile file mode)]> t)
  | pipecmd l r =>
      [Fork (meaning (0%nat :: id) l (<[1%nat := Some (OPipeW id)]> t));
       Fork (meaning (1%nat :: id) r (<[0%nat := Some (OPipeR id)]> t)); Wait t; Wait t]
  | listcmd l r => Fork (meaning (0%nat :: id) l t) :: Wait t :: meaning (1%nat :: id) r t
  | backcmd c => [Fork (meaning (0%nat :: id) c t)]
  end.

(** Standard input and output are open, and a pipe still fits in. *)
Definition is_open (t : fds) (k : nat) : Prop := exists o, t !! k = Some (Some o).
Definition is_free (t : fds) (k : nat) : Prop := t !! k = Some None.
Definition std (t : fds) : Prop := is_open t 0 /\ is_open t 1 /\ exists p q, p <> q /\ is_free t p /\ is_free t q.

Lemma lowest_Some t k : lowest t = Some k <-> is_free t k /\ forall j, (j < k)%nat -> is_open t j.
Proof.
  revert k. induction t as [|[o|] t IH]; intros k; cbn [lowest].
  - split; [done|]. by intros [[=] _].
  - unfold is_open, is_free in *. destruct k as [|k]; cbn [lookup list_lookup].
    + split; [by destruct (lowest t)|]. by intros [[=] _].
    + rewrite fmap_Some. split.
      * intros (x & Hx & [= ->]). apply IH in Hx as [H1 H2]. split; [done|]. intros [|j] Hj; [by exists o|]. apply H2. lia.
      * intros [H1 H2]. exists k. split; [|done]. apply IH. split; [done|]. intros j Hj. apply (H2 (S j)). lia.
  - unfold is_open, is_free in *. split; [intros [= <-]; split; [done|lia]|]. intros [H1 H2]. destruct k as [|k]; [done|].
    destruct (H2 0%nat) as [o Ho]; [lia|]. done.
Qed.

Lemma lowest_exists t k : is_free t k -> exists j, lowest t = Some j.
Proof.
  unfold is_free. revert k. induction t as [|[o|] t IH]; intros k Hk; cbn [lowest]; [done| |by exists 0%nat].
  destruct k as [|k]; [done|]. destruct (IH k Hk) as [j ->]. by exists (S j).
Qed.

Lemma std_insert t k o : std t -> (k < 2)%nat -> std (<[k := Some o]> t).
Proof.
  intros ([a H0] & [b H1] & p & q & Hpq & Hp & Hq) Hk. unfold std, is_open, is_free in *.
  assert (p <> 0 /\ p <> 1 /\ q <> 0 /\ q <> 1)%nat as (? & ? & ? & ?) by (split_and!; intros ->; congruence).
  pose proof (lookup_lt_Some _ _ _ H0). pose proof (lookup_lt_Some _ _ _ H1).
  split_and!; [| |exists p, q; by rewrite !list_lookup_insert_ne by lia].
  - destruct k; [by exists o; rewrite list_lookup_insert_eq|]. exists a. by rewrite list_lookup_insert_ne by lia.
  - destruct (decide (k = 1%nat)) as [->|]; [by exists o; rewrite list_lookup_insert_eq|]. exists b. by rewrite list_lookup_insert_ne by lia.
Qed.

(** Closing 0 or 1 and opening something gets that descriptor again. *)
Lemma lowest_closed t k : is_open t 0 -> is_open t 1 -> (k < 2)%nat -> lowest (sys_close k t) = Some k.
Proof.
  intros [a H0] [b H1] Hk. pose proof (lookup_lt_Some _ _ _ H0). pose proof (lookup_lt_Some _ _ _ H1).
  unfold sys_close. apply lowest_Some. unfold is_free, is_open. split; [apply list_lookup_insert_eq; lia|].
  intros j Hj. exists a. rewrite list_lookup_insert_ne by lia. by replace j with 0%nat by lia.
Qed.

Lemma open_redir openable t k path mode : std t -> (k < 2)%nat -> openable path mode = true ->
  sys_open openable path mode (sys_close k t) = Some (<[k := Some (OFile path mode)]> t).
Proof.
  intros Ht Hk Ho. unfold sys_open. destruct Ht as (H0 & H1 & _). rewrite Ho, (lowest_closed t k H0 H1 Hk). simpl. unfold sys_close. by rewrite list_insert_insert_eq.
Qed.

(** The descriptors of [pipe], and what the children make of them. *)
Lemma pipe_plumbing t n : std t -> exists p0 p1 t', sys_pipe n t = Some (p0, p1, t') /\
  sys_close p1 (sys_close p0 (sys_dup p1 (sys_close 1 t'))) = <[1%nat := Some (OPipeW n)]> t /\
  sys_close p1 (sys_close p0 (sys_dup p0 (sys_close 0 t'))) = <[0%nat := Some (OPipeR n)]> t /\
  sys_close p1 (sys_close p0 t') = t.
Proof.
  intros Ht. pose proof Ht as ([a H0] & [b H1] & p & q & Hpq & Hp & Hq).
  destruct (lowest_exists t p Hp) as [p0 E0]. pose proof E0 as [F0 _]%lowest_Some. unfold is_free in *.
  set (t1 := <[p0 := Some (OPipeR n)]> t).
  assert (exists p1, lowest t1 = Some p1) as [p1 E1].
  { destruct (decide (p = p0)) as [->|]; [apply (lowest_exists _ q)|apply (lowest_exists _ p)]; unfold is_free, t1; by rewrite list_lookup_insert_ne. }
  pose proof E1 as [F1 _]%lowest_Some. unfold is_free, t1 in F1.
  pose proof (lookup_lt_Some _ _ _ F0) as L0.
  assert (p0 <> p1) as Hne by (intros ->; by rewrite list_lookup_insert_eq in F1). rewrite list_lookup_insert_ne in F1 by done.
  pose proof (lookup_lt_Some _ _ _ F1) as L1.
  assert (p0 <> 0 /\ p0 <> 1 /\ p1 <> 0 /\ p1 <> 1)%nat as (? & ? & ? & ?) by (split_and!; intros ->; congruence).
  set (t' := <[p1 := Some (OPipeW n)]> t1). exists p0, p1, t'. split; [unfold sys_pipe; rewrite E0; simpl; fold t1; by rewrite E1|].
  assert (is_open t' 0 /\ is_open t' 1) as [O0 O1] by (unfold is_open, t', t1; rewrite !list_lookup_insert_ne by done; eauto).
  unfold sys_dup. rewrite !(lowest_closed t') by (done || lia).
  assert (sys_close 1 t' !! p1 = Some (Some (OPipeW n)) /\ sys_close 0 t' !! p0 = Some (Some (OPipeR n))) as [-> ->].
  { unfold sys_close, t', t1. rewrite !list_lookup_insert, !length_insert. repeat case_decide; try done; lia. }
  unfold sys_close, t', t1. split_and!; apply list_eq; intros i; rewrite !list_lookup_insert, !length_insert;
    repeat case_decide; destruct_and?; simplify_eq; try congruence; lia.
Qed.

(** ** The theorem *)

(** The redirections are of descriptors 0 and 1, as the parser makes them. *)
Fixpoint std_redirs (c : cmd (list Z)) : bool :=
  match c with
  | execcmd _ => true
  | redircmd c _ _ fd => (0 <=? fd) && (fd <=? 1) && std_redirs c
  | pipecmd l r | listcmd l r => std_redirs l && std_redirs r
  | backcmd c => std_redirs c
  end.

(** C24: when no call fails, [runcmd] runs every program of the command with exactly the
    descriptors it should have: a redirection replaces the descriptor it names, each side
    of a pipe has one end of it in place of its output or input, and nobody
    else, the waiting shell included, keeps an end open. *)
Theorem runcmd_meaning fork_ok openable can_exec c id t :
  (forall id n, fork_ok id n = true) -> (forall path mode, openable path mode = true) -> (forall argv, can_exec argv = true) ->
  std t -> std_redirs c = true -> runcmd fork_ok openable can_exec id c t = meaning id c t.
Proof.
  intros Hf Ho He. revert id t. induction c as [[|a argv]|c IH f m fd|l IHl r IHr|l IHl r IHr|c IH]; intros id t Ht Hc; cbn [std_redirs runcmd meaning] in *.
  - done.
  - by rewrite He.
  - bsplit. rewrite (open_redir openable t (Z.to_nat fd)) by (done || lia || apply Ho). apply IH; [|done]. apply std_insert; [done|lia].
  - bsplit. destruct (pipe_plumbing t id Ht) as (p0 & p1 & t' & -> & -> & -> & ->). unfold fork1. rewrite !Hf.
    rewrite IHl, IHr; try done; apply std_insert; (done || lia).
  - bsplit. unfold fork1. by rewrite Hf, IHl, IHr.
  - unfold fork1. by rewrite Hf, IH.
Qed.

(** [a < f | b > g ; c &] *)
Definition demo_pipeline : cmd (list Z) :=
  listcmd (pipecmd (redircmd (execcmd [[97]]) [102] 0 0) (redircmd (execcmd [[98]]) [103] 0x201 1)) (backcmd (execcmd [[99]])).
Definition demo_fds : fds := [Some (OInherited 0); Some (OInherited 1); Some (OInherited 2)] ++ replicate 13 None.

Lemma runcmd_meaning_witness :
  runcmd (fun _ _ => true) (fun _ _ => true) (fun _ => true) [] demo_pipeline demo_fds = meaning [] demo_pipeline demo_fds /\
  length (meaning [] demo_pipeline demo_fds) = 3%nat.
Proof.
  split; [|reflexivity]. apply runcmd_meaning; try reflexivity. unfold std, is_open, is_free.
  split; [eexists; reflexivity|]. split; [eexists; reflexivity|]. exists 3%nat, 4%nat. split; [discriminate|]. split; reflexivity.
Defined.

(** ** The main loop *)

(** [gets(buf, max)] of ulib.c on the bytes that are still to be read: the line and the rest. *)
Fixpoint gets_loop (n : nat) (input : list Z) : list Z * list Z :=
  match n, input with
  | S n', c :: input' =>
      if (c =? 10) || (c =? 13) then ([c], input')
      else let r := gets_loop n' input' in (c :: r.1, r.2)
  | _, _ => ([], input)
  end.
Definition gets (max : nat) (input : list Z) : list Z * list Z := gets_loop (max - 1) input.

Inductive builtin := Cd (path : list Z) | Logout | Whoami | Other (line : list Z).
Definition starts_with (w buf : list Z) : bool := bool_decide (take (length w) buf = w).

(** The tests of [main] on a line, as a C string. *)
Definition builtin_of (buf : list Z) : builtin :=
  if starts_with [99; 100; 32] buf then Cd (drop 3 (take (length buf - 1) buf))
  else if starts_with [108; 111; 103; 111; 117; 116] buf then Logout
  else if starts_with [119; 104; 111; 97; 109; 105] buf then Whoami
  else Other buf.

(** What the shell does with its input, up to its [exit]; the prompts are left out. *)
Fixpoint main (fuel : nat) (input : list Z) : option (list builtin) :=
  match fuel with
  | O => None
  | S fuel' =>
      let r := gets 100 input in
      let buf := cstring r.1 in
      match buf with
      | [] => Some []
      | _ =>
          match builtin_of buf with
          | Logout => Some [Logout]
          | b => rest ← main fuel' r.2; Some (b :: rest)
          end
      end
  end.

Lemma gets_line l rest n : Forall (fun c => c <> 10 /\ c <> 13) l -> (length l < n)%nat -> gets_loop n (l ++ 10 :: rest) = (l ++ [10], rest).
Proof.
  intros Hl. revert n. induction Hl as [|c l [H1 H2] _ IH]; intros n Hn; (destruct n as [|n]; [simpl in Hn; lia|]); cbn [gets_loop app].
  - done.
  - replace ((c =? 10) || (c =? 13)) with false by lia. rewrite IH by (simpl in Hn; lia). done.
Qed.

Lemma gets_rest n input : (length (gets_loop n input).2 <= length input)%nat /\ ((gets_loop n input).1 <> [] -> (length (gets_loop n input).2 < length input)%nat).
Proof.
  revert input. induction n as [|n IH]; intros [|c input]; cbn [gets_loop]; try (split; [done|intros H; by destruct H]).
  destruct (_ || _); cbn [fst snd length]; [split; lia|]. destruct (IH input). split; lia.
Qed.

(** The shell reads a finite input to its end. *)
Lemma main_terminates fuel input : (length input < fuel)%nat -> is_Some (main fuel input).
Proof.
  revert input. induction fuel as [|fuel IH]; intros input Hf; [lia|]. cbn [main]. unfold gets. destruct (gets_rest 99 input) as [_ Hr].
  change (100 - 1)%nat with 99%nat. destruct (cstring (gets_loop 99 input).1) as [|x buf] eqn:E; [done|].
  assert ((gets_loop 99 input).1 <> []) as Hne by (intros H; by rewrite H in E). specialize (Hr Hne).
  destruct (IH (gets_loop 99 input).2) as [rest ->]; [lia|]. by destruct (builtin_of _).
Qed.

(** Lines of at most 98 characters are handled one by one, up to a [logout]. *)
Fixpoint session (lines : list (list Z)) : list builtin :=
  match lines with
  | [] => []
  | l :: lines' => match builtin_of (l ++ [10]) with Logout => [Logout] | b => b :: session lines' end
  end.
Definition short_line (l : list Z) : Prop := (length l <= 98)%nat /\ Forall (fun c => c <> 0 /\ c <> 10 /\ c <> 13) l.

Lemma main_session lines fuel : Forall short_line lines -> (length lines < fuel)%nat ->
  main fuel (concat ((fun l => l ++ [10]) <$> lines)) = Some (session lines).
Proof.
  intros Hl. revert fuel. induction Hl as [|l lines [H1 H2] _ IH]; intros fuel Hf; (destruct fuel as [|fuel]; [simpl in Hf; lia|]); [done|].
  cbn [main fmap list_fmap concat session]. unfold gets. rewrite <- app_assoc. cbn [app].
  rewrite gets_line; [|eapply Forall_impl; [exact H2|naive_solver]|lia]. cbn [fst snd].
  replace (cstring (l ++ [10])) with (l ++ [10]).
  2: { clear -H2. induction H2 as [|c l [Hc _] _ IH]; [done|]. cbn [app cstring]. replace (c =? 0) with false by lia. by rewrite <- IH. }
  rewrite IH by (simpl in Hf; lia). destruct (l ++ [10]) as [|x y] eqn:E; [by destruct l|]. by destruct (builtin_of (x :: y)).
Qed.

(** ** The working directory

    [pwd] on a file system where [inum] is the inode number of a path and [readdir] lists
    the entries of a directory. *)
Definition DOT : Z := 46.
Definition SLASH : Z := 47.

Section pwd.
Context (inum : list Z -> Z) (readdir : list Z -> list (Z * list Z)).

(** [dirent_by_inum]: the first entry with the number, else the last one; [de] is the uninitialised local. *)
Fixpoint dirent_by_inum (l : list (Z * list Z)) (n : Z) (de : Z * list Z) : Z * list Z :=
  match l with
  | [] => de
  | d :: l' => if d.1 =? n then d else dirent_by_inum l' n d
  end.

(** The loop; [left] rows of [res] are left, and a further [strcpy] would be past its end. *)
Fixpoint pwd_loop (left : nat) (cur parent : list Z) (res : list (list Z)) : option (list (list Z)) :=
  if inum cur =? inum parent then Some res
  else
    match left with
    | O => None
    | S left' =>
        let d := dirent_by_inum (readdir parent) (inum cur) (0, []) in
        pwd_loop left' parent ([DOT; DOT; SLASH] ++ parent) (res ++ [d.2])
    end.

Definition pwd : option (list Z) :=
  res ← pwd_loop 64 [DOT] [DOT; DOT] [];
  let res := match res with [] => [[]] | _ => res end in
  Some (concat ((fun r => SLASH :: r) <$> reverse res)).

(** A tree of directories below [root]: [child d n x] says that [d] has the entry [n], the directory [x]. *)
Context (root : Z).
Inductive dir_path : list (list Z) -> list Z -> Prop :=
| path_nil : dir_path [] [root]
| path_cons n names d ds x : dir_path names (d :: ds) -> x <> d -> dir_path (n :: names) (x :: d :: ds).

Definition ups (k : nat) : list Z := Nat.iter k (fun p => [DOT; DOT; SLASH] ++ p) [DOT; DOT].

(** [names] is the path of the working directory, innermost name first, and [ds] are the directories
    on it, ending in the root, whose parent is itself. *)
Record at_dir (names : list (list Z)) (ds : list Z) : Prop := {
  at_path : dir_path names ds;
  at_dot d : head ds = Some d -> inum [DOT] = d;
  at_up k : (k < length ds)%nat -> inum (ups k) = default root (ds !! S k);
  at_entry k n d : names !! k = Some n -> ds !! k = Some d -> dirent_by_inum (readdir (ups k)) d (0, []) = (d, n) }.

Lemma dir_path_length names ds : dir_path names ds -> length ds = S (length names) /\
  last ds = Some root /\ forall k d e, ds !! k = Some d -> ds !! S k = Some e -> d <> e.
Proof.
  induction 1 as [|n names d ds x H (IH1 & IH2 & IH3) Hne]; [split_and!; try done; by intros [|k] d e|].
  split_and!; [simpl in *; lia| |].
  - by rewrite last_cons, IH2.
  - intros [|k] y z; cbn; [by intros [= ->] [= ->]|]. intros Hy Hz. apply (IH3 k); done.
Qed.

(** From the [k]-th directory up the loop adds the other names. *)
Lemma pwd_loop_run names ds : at_dir names ds -> forall m k cur left res, (k + m = length names)%nat -> (m <= left)%nat ->
  inum cur = default root (ds !! k) -> pwd_loop left cur (ups k) res = Some (res ++ drop k names).
Proof.
  intros [Hp Hd Hu He]. destruct (dir_path_length _ _ Hp) as (Hlen & Hlast & Hne). induction m as [|m IH]; intros k cur left res Hk Hl Hc.
  - assert (k = length names) as -> by lia. rewrite drop_all, app_nil_r.
    assert (inum cur = inum (ups (length names))) as E.
    { rewrite Hu, Hc by lia. rewrite last_lookup, Hlen in Hlast. cbn in Hlast. rewrite Hlast. rewrite lookup_ge_None_2 by lia. done. }
    destruct left; cbn [pwd_loop]; by rewrite E, Z.eqb_refl.
  - destruct left as [|left]; [lia|]. cbn [pwd_loop].
    destruct (lookup_lt_is_Some_2 names k) as [n Hn]; [lia|]. destruct (lookup_lt_is_Some_2 ds k) as [d Hdk]; [lia|].
    destruct (lookup_lt_is_Some_2 ds (S k)) as [e Hek]; [lia|]. rewrite Hdk in Hc. cbn in Hc. rewrite Hu, Hek, Hc by lia. cbn [default from_option id].
    replace (d =? e) with false by (symmetry; apply Z.eqb_neq; by eapply Hne). rewrite (He k n d Hn Hdk). cbn [snd].
    change ([DOT; DOT; SLASH] ++ ups k) with (ups (S k)).
    rewrite IH; [|lia..|by rewrite Hu by lia]. rewrite <- app_assoc. cbn [app]. by rewrite (drop_S _ _ _ Hn).
Qed.

(** The shell prints the names from the root down, for a directory at most 64 levels deep; the row of a
    deeper one would be past the end of the array. *)
Lemma pwd_correct names ds : at_dir names ds -> (length names <= 64)%nat -> names <> [] ->
  pwd = Some (concat ((fun r => SLASH :: r) <$> reverse names)).
Proof.
  intros H Hl Hne. unfold pwd. rewrite (pwd_loop_run names ds H (length names) 0); [|done..|].
  - cbn. by destruct names.
  - destruct H as [Hp Hd _ _]. destruct ds as [|d ds]; [by inversion Hp|]. cbn. by apply Hd.
Qed.
End pwd.
