(* ===== verification/Ide.v ===== *)
(** * The IDE driver

    ide.c: the queue of buffers that wait for the disk, [iderw] that appends to it and
    the interrupt handler [ideintr] that takes the first one off.  Each runs as a whole
    under [idelock], [iderw] up to its [sleep]: [Blocked] is the sleep on the buffer,
    and [iderw_wait] what the woken process does.  The disk is behind its ports. *)

From S2P Require Import Prelude.
Open Scope Z_scope.

Definition FSSIZE : Z := 1000.
Definition BSIZE : Z := 512.
Definition SECTOR_SIZE : Z := 512.
Definition B_VALID : Z := 2.
Definition B_DIRTY : Z := 4.
Definition IDE_BSY : Z := 0x80.
Definition IDE_DRDY : Z := 0x40.
Definition IDE_DF : Z := 0x20.
Definition IDE_ERR : Z := 0x01.
Definition IDE_CMD_READ : Z := 0x20.
Definition IDE_CMD_WRITE : Z := 0x30.
Definition IDE_CMD_RDMUL : Z := 0xc4.
Definition IDE_CMD_WRMUL : Z := 0xc5.

(** The fields of [struct buf] the driver uses; [owner] is the process in its sleep lock. *)
Record dbuf := mkDbuf { flags : Z; dev : Z; blockno : Z; owner : Z; data : list Z }.
#[export] Instance dbuf_inhabited : Inhabited dbuf := populate (mkDbuf 0 0 0 0 []).
Definition set_flags (f : Z) (b : dbuf) : dbuf := mkDbuf f (dev b) (blockno b) (owner b) (data b).
Definition set_data (d : list Z) (b : dbuf) : dbuf := mkDbuf (flags b) (dev b) (blockno b) (owner b) d.

(** The ports of the controller, and what it does with what is sent there. *)
Class IdePorts (D : Type) := {
  outb : Z -> Z -> D -> D;
  outsl : Z -> list Z -> D -> D;
  inb : Z -> D -> Z * D;
  insl : Z -> D -> list Z * D }.

(** [idequeue], the [qnext] of the buffers, the buffers, [havedisk1], the wakeups so far and the controller. *)
Record ide (D : Type) := mkIde {
  idequeue : option nat; qnext : list (option nat); bufs : list dbuf; havedisk1 : bool; woken : list nat; ctl : D }.
Arguments mkIde {D}. Arguments idequeue {D}. Arguments qnext {D}. Arguments bufs {D}.
Arguments havedisk1 {D}. Arguments woken {D}. Arguments ctl {D}.

Section ide.
Context {D : Type} `{!IdePorts D}.
Local Abbreviation IM := (M (ide D)).

Definition set_queue (q : option nat) (s : ide D) : ide D := mkIde q (qnext s) (bufs s) (havedisk1 s) (woken s) (ctl s).
Definition set_qnext (i : nat) (n : option nat) (s : ide D) : ide D :=
  mkIde (idequeue s) (<[i := n]> (qnext s)) (bufs s) (havedisk1 s) (woken s) (ctl s).
Definition updb (i : nat) (f : dbuf -> dbuf) (s : ide D) : ide D :=
  mkIde (idequeue s) (qnext s) (alter f i (bufs s)) (havedisk1 s) (woken s) (ctl s).
Definition set_ctl (d : D) (s : ide D) : ide D := mkIde (idequeue s) (qnext s) (bufs s) (havedisk1 s) (woken s) d.
Definition wakeup (i : nat) (s : ide D) : ide D :=
  mkIde (idequeue s) (qnext s) (bufs s) (havedisk1 s) (woken s ++ [i]) (ctl s).
Definition B (s : ide D) (i : nat) : dbuf := bufs s !!! i.

Definition do_outb (port v : Z) : IM () := modify (fun s => set_ctl (outb port v (ctl s)) s).
Definition do_outsl (port : Z) (bs : list Z) : IM () := modify (fun s => set_ctl (outsl port bs (ctl s)) s).
Definition do_inb (port : Z) : IM Z := fun s => let r := inb port (ctl s) in Ret r.1 (set_ctl r.2 s).
Definition do_insl (port : Z) : IM (list Z) := fun s => let r := insl port (ctl s) in Ret r.1 (set_ctl r.2 s).

Fixpoint idewait (fuel : nat) (checkerr : bool) : IM Z :=
  match fuel with
  | O => sleeps
  | S fuel' =>
      let* r := do_inb 0x1f7 in
      if negb (Z.land r (Z.lor IDE_BSY IDE_DRDY) =? IDE_DRDY) then idewait fuel' checkerr
      else if checkerr && nz (Z.land r (Z.lor IDE_DF IDE_ERR)) then ret (-1)
      else ret 0
  end.

Definition idestart (fuel : nat) (b : option nat) : IM () :=
  match b with
  | None => panic "idestart"
  | Some i =>
      let* s := get in
      let b := B s i in
      if FSSIZE <=? blockno b then panic "incorrect blockno"
      else
        let sector_per_block := BSIZE / SECTOR_SIZE in
        let sector := s32 (blockno b * sector_per_block) in
        let read_cmd := if sector_per_block =? 1 then IDE_CMD_READ else IDE_CMD_RDMUL in
        let write_cmd := if sector_per_block =? 1 then IDE_CMD_WRITE else IDE_CMD_WRMUL in
        if 7 <? sector_per_block then panic "idestart"
        else
          idewait fuel false ;;;
          do_outb 0x3f6 0 ;;;
          do_outb 0x1f2 sector_per_block ;;;
          do_outb 0x1f3 (Z.land sector 0xff) ;;;
          do_outb 0x1f4 (Z.land (Z.shiftr sector 8) 0xff) ;;;
          do_outb 0x1f5 (Z.land (Z.shiftr sector 16) 0xff) ;;;
          do_outb 0x1f6 (Z.lor 0xe0 (Z.lor (Z.shiftl (Z.land (dev b) 1) 4) (Z.land (Z.shiftr sector 24) 0x0f))) ;;;
          if nz (Z.land (flags b) B_DIRTY) then
            do_outb 0x1f7 write_cmd ;;;
            do_outsl 0x1f0 (data b)
          else do_outb 0x1f7 read_cmd
  end.

Definition ideintr (fuel : nat) : IM () :=
  let* s := get in
  match idequeue s with
  | None => ret ()
  | Some b =>
      modify (set_queue (qnext s !!! b)) ;;;
      (if nz (Z.land (flags (B s b)) B_DIRTY) then ret ()
       else
         let* r := idewait fuel true in
         if 0 <=? r then let* d := do_insl 0x1f0 in modify (updb b (set_data d)) else ret ()) ;;;
      modify (updb b (fun x => set_flags (Z.lor (flags x) B_VALID) x)) ;;;
      modify (updb b (fun x => set_flags (Z.land (flags x) (Z.lnot B_DIRTY)) x)) ;;;
      modify (wakeup b) ;;;
      let* s := get in
      match idequeue s with None => ret () | Some n => idestart fuel (Some n) end
  end.

(** [for(pp=&idequeue; *pp; pp=&( *pp)->qnext)]: [None] is [&idequeue], [Some i] the [qnext] of [i]. *)
Fixpoint last_link (fuel : nat) (pp : option nat) (s : ide D) : option (option nat) :=
  match fuel with
  | O => None
  | S fuel' =>
      match (match pp with None => idequeue s | Some i => qnext s !!! i end) with
      | None => Some pp
      | Some b => last_link fuel' (Some b) s
      end
  end.
Definition set_link (pp v : option nat) : ide D -> ide D :=
  match pp with None => set_queue v | Some i => set_qnext i v end.

(** The loop at the end of [iderw]. *)
Definition iderw_wait (i : nat) : IM () :=
  let* s := get in
  if negb (Z.land (flags (B s i)) (Z.lor B_VALID B_DIRTY) =? B_VALID) then sleeps else ret ().

Definition iderw (fuel : nat) (me : Z) (i : nat) : IM () :=
  let* s := get in
  if negb (owner (B s i) =? me) then panic "iderw: buf not locked"
  else if Z.land (flags (B s i)) (Z.lor B_VALID B_DIRTY) =? B_VALID then panic "iderw: nothing to do"
  else if negb (dev (B s i) =? 0) && negb (havedisk1 s) then panic "iderw: ide disk 1 not present"
  else
    modify (set_qnext i None) ;;;
    let* s := get in
    match last_link fuel None s with
    | None => sleeps
    | Some pp =>
        modify (set_link pp (Some i)) ;;;
        let* s := get in
        (if bool_decide (idequeue s = Some i) then idestart fuel (Some i) else ret ()) ;;;
        iderw_wait i
    end.

Fixpoint probe_disk1 (n : nat) : IM () :=
  match n with
  | O => ret ()
  | S n' =>
      let* r := do_inb 0x1f7 in
      if nz r then modify (fun s => mkIde (idequeue s) (qnext s) (bufs s) true (woken s) (ctl s))
      else probe_disk1 n'
  end.

(** [enable] is ioapicenable(IRQ_IDE, ncpu - 1). *)
Definition ideinit (fuel : nat) (enable : D -> D) : IM () :=
  modify (fun s => set_ctl (enable (ctl s)) s) ;;;
  idewait fuel false ;;;
  do_outb 0x1f6 (Z.lor 0xe0 (Z.shiftl 1 4)) ;;;
  probe_disk1 1000 ;;;
  do_outb 0x1f6 (Z.lor 0xe0 (Z.shiftl 0 4)).

(** The answer of poll [k] of the status register. *)
Definition status (d : D) (k : nat) : Z := (inb 0x1f7 (Nat.iter k (fun d => (inb 0x1f7 d).2) d)).1.

(** The second disk is there when one of the polls gives a status. *)
Lemma probe_disk1_finds n s : exists d b, probe_disk1 n s = Ret () (mkIde (idequeue s) (qnext s) (bufs s) b (woken s) d) /\
  (b = true <-> havedisk1 s = true \/ exists k, (k < n)%nat /\ status (ctl s) k <> 0).
Proof.
  revert s. induction n as [|n IH]; intros s; cbn [probe_disk1].
  { exists (ctl s), (havedisk1 s). split; [by destruct s|]. split; [by left|]. intros [?|(k & Hk & _)]; [done|lia]. }
  unfold bind at 1, do_inb, nz. destruct (Z.eqb_spec (inb 0x1f7 (ctl s)).1 0) as [E|E]; cbn [negb].
  - destruct (IH (set_ctl (inb 0x1f7 (ctl s)).2 s)) as (d & b & Ep & Hb). exists d, b. split; [done|]. rewrite Hb. cbn [set_ctl havedisk1 ctl].
    assert (forall k, status (inb 0x1f7 (ctl s)).2 k = status (ctl s) (S k)) as Hs.
    { intros k. unfold status. by rewrite Nat.iter_succ_r. }
    split; intros [?|(k & Hk & Hn)]; try (by left); right.
    + exists (S k). split; [lia|]. by rewrite <- Hs.
    + destruct k as [|k]; [done|]. exists k. split; [lia|]. by rewrite Hs.
  - eexists _, true. split; [reflexivity|]. split; [|done]. intros _. right. exists 0%nat. split; [lia|done].
Qed.
End ide.

(** ** The contract

    Requests are served in the order they came in, one at a time, each with the effect of a
    disk that answers at once. *)
Record adisk := mkAdisk { a_queue : list nat; a_bufs : list dbuf; a_disk : Z -> Z -> list Z }.

Definition drive (b : dbuf) : Z := Z.land (dev b) 1.
Definition dirty (b : dbuf) : bool := nz (Z.land (flags b) B_DIRTY).
Definition finished (b : dbuf) : bool := Z.land (flags b) (Z.lor B_VALID B_DIRTY) =? B_VALID.
Definition write_block (b : dbuf) (d : Z -> Z -> list Z) : Z -> Z -> list Z :=
  fun dr n => if (dr =? drive b) && (n =? blockno b) then data b else d dr n.

(** The request of [b] served: the block is on the disk, or its contents in the buffer. *)
Definition serve_disk (b : dbuf) (d : Z -> Z -> list Z) : Z -> Z -> list Z := if dirty b then write_block b d else d.
Definition serve_buf (b : dbuf) (d : Z -> Z -> list Z) : dbuf :=
  set_flags (Z.land (Z.lor (flags b) B_VALID) (Z.lnot B_DIRTY)) (if dirty b then b else set_data (d (drive b) (blockno b)) b).

(** What happens at the driver: a process asks for a buffer it holds, the disk interrupts, the holder of a buffer
    that is not queued changes it. *)
Inductive op := Submit (me : Z) (i : nat) | Intr | Touch (i : nat) (b : dbuf).

Section contract.
Context (disk1 : bool).

Definition a_enabled (o : op) (a : adisk) : bool :=
  match o with
  | Submit me i =>
      let b := a_bufs a !!! i in
      bool_decide (i < length (a_bufs a))%nat && bool_decide (i ∉ a_queue a) && (owner b =? me) && negb (finished b) &&
      ((dev b =? 0) || disk1) && (0 <=? blockno b) && (blockno b <? FSSIZE)
  | Intr => true
  | Touch i _ => bool_decide (i ∉ a_queue a)
  end.
Definition a_step (o : op) (a : adisk) : adisk :=
  match o with
  | Submit _ i => mkAdisk (a_queue a ++ [i]) (a_bufs a) (a_disk a)
  | Intr =>
      match a_queue a with
      | [] => a
      | h :: q =>
          let b := a_bufs a !!! h in
          mkAdisk q (<[h := serve_buf b (a_disk a)]> (a_bufs a)) (serve_disk b (a_disk a))
      end
  | Touch i b => mkAdisk (a_queue a) (<[i := b]> (a_bufs a)) (a_disk a)
  end.
End contract.

Lemma finished_serve b d : finished (serve_buf b d) = true.
Proof.
  unfold finished, serve_buf, B_VALID, B_DIRTY. cbn [flags set_flags]. apply Z.eqb_eq, Z.bits_inj'. intros n Hn.
  rewrite !Z.land_spec, !Z.lor_spec, Z.lnot_spec by done.
  destruct (decide (n = 1)) as [->|H1]; [cbn; by rewrite orb_true_r|]. destruct (decide (n = 2)) as [->|H2]; [cbn; by rewrite andb_false_r|].
  assert (Z.testbit 2 n = false /\ Z.testbit 4 n = false) as [-> ->]; [|by rewrite !andb_false_r].
  destruct (decide (n = 0)) as [->|]; [done|]. split; apply Z.bits_above_log2; try done; [change (Z.log2 2) with 1|change (Z.log2 4) with 2]; lia.
Qed.

(** ** The driver meets it *)

Section refine.
Context {D : Type} `{!IdePorts D}.
Local Abbreviation S := (ide D).
(** Of the controller: the blocks on its two disks, the block a read command is for, and for how many polls
    it stays busy. *)
Context (contents : D -> Z -> Z -> list Z) (pending : D -> option (Z * Z)) (delay : D -> nat) (bound : nat).

(** The registers and then the command. *)
Definition program (dr sector cmd : Z) (d : D) : D :=
  outb 0x1f7 cmd (outb 0x1f6 (Z.lor 0xe0 (Z.lor (Z.shiftl dr 4) (Z.land (Z.shiftr sector 24) 0x0f)))
    (outb 0x1f5 (Z.land (Z.shiftr sector 16) 0xff) (outb 0x1f4 (Z.land (Z.shiftr sector 8) 0xff)
    (outb 0x1f3 (Z.land sector 0xff) (outb 0x1f2 1 (outb 0x3f6 0 d)))))).
Definition undisturbed (d d' : D) : Prop := (forall dr n, contents d' dr n = contents d dr n) /\ pending d' = pending d.

(** How an ATA disk without faults answers to single-sector commands. *)
Record controller_ok : Prop := {
  ct_bound d : (delay d <= bound)%nat;
  ct_poll d : undisturbed d (inb 0x1f7 d).2 /\
    match delay d with
    | O => Z.land (inb 0x1f7 d).1 (Z.lor IDE_BSY IDE_DRDY) = IDE_DRDY
    | Datatypes.S k => delay (inb 0x1f7 d).2 = k
    end;
  ct_error d : Z.land (inb 0x1f7 d).1 (Z.lor IDE_DF IDE_ERR) = 0;
  ct_read dr n d : 0 <= dr <= 1 -> 0 <= n < 2 ^ 28 ->
    (forall dr' n', contents (program dr n IDE_CMD_READ d) dr' n' = contents d dr' n') /\
    pending (program dr n IDE_CMD_READ d) = Some (dr, n);
  ct_data dr n d : pending d = Some (dr, n) -> (insl 0x1f0 d).1 = contents d dr n /\
    forall dr' n', contents (insl 0x1f0 d).2 dr' n' = contents d dr' n';
  ct_write dr n bs d : 0 <= dr <= 1 -> 0 <= n < 2 ^ 28 ->
    forall dr' n', contents (outsl 0x1f0 bs (program dr n IDE_CMD_WRITE d)) dr' n' =
      if (dr' =? dr) && (n' =? n) then bs else contents d dr' n' }.
Context (Hct : controller_ok).

(** The buffers [q] are linked from [p] on. *)
Fixpoint chain (nx : list (option nat)) (p : option nat) (q : list nat) : Prop :=
  match q with
  | [] => p = None
  | i :: q' => p = Some i /\ chain nx (nx !!! i) q'
  end.

(** The first request of the queue is under way. *)
Definition active (a : adisk) (d : D) : Prop :=
  match a_queue a with
  | [] => forall dr n, contents d dr n = a_disk a dr n
  | h :: _ =>
      let b := a_bufs a !!! h in
      (forall dr n, contents d dr n = serve_disk b (a_disk a) dr n) /\ (dirty b = false -> pending d = Some (drive b, blockno b))
  end.

Record rep (s : S) (a : adisk) : Prop := {
  r_chain : chain (qnext s) (idequeue s) (a_queue a);
  r_bufs : bufs s = a_bufs a;
  r_len : length (qnext s) = length (bufs s);
  r_nodup : NoDup (a_queue a);
  r_queued i : i ∈ a_queue a -> (i < length (bufs s))%nat /\ 0 <= blockno (a_bufs a !!! i) < FSSIZE /\ finished (a_bufs a !!! i) = false;
  r_active : active a (ctl s) }.

Lemma idewait_run fuel err (s : S) : (bound < fuel)%nat ->
  exists d, idewait fuel err s = Ret 0 (set_ctl d s) /\ undisturbed (ctl s) d.
Proof.
  intros Hf. assert (delay (ctl s) < fuel)%nat as Hd by (pose proof (ct_bound Hct (ctl s)); lia). clear Hf. revert s Hd.
  induction fuel as [|fuel IH]; intros s Hd; [lia|]. cbn [idewait]. unfold bind at 1, do_inb.
  destruct (ct_poll Hct (ctl s)) as [Hu Hp]. destruct (negb _) eqn:E.
  - destruct (delay (ctl s)) as [|k]; [rewrite Hp in E; done|].
    destruct (IH (set_ctl (inb 0x1f7 (ctl s)).2 s)) as (d & Ed & Hd1 & Hd2); [cbn; lia|]. exists d. rewrite Ed. split; [done|].
    destruct Hu as [Hu1 Hu2]. cbn in Hd1, Hd2. split; [intros; by rewrite Hd1|by rewrite Hd2].
  - rewrite (ct_error Hct), andb_false_r. by eexists.
Qed.

Lemma drive_range b : 0 <= drive b <= 1.
Proof. unfold drive. rewrite (Z.land_ones _ 1) by lia. change (2 ^ 1) with 2. pose proof (Z.mod_pos_bound (dev b) 2). lia. Qed.

(** Starting a request brings it under way. *)
Lemma idestart_run fuel (s : S) i : (bound < fuel)%nat -> let b := B s i in 0 <= blockno b < FSSIZE ->
  exists d, idestart fuel (Some i) s = Ret () (set_ctl d s) /\
    (forall dr n, contents d dr n = serve_disk b (contents (ctl s)) dr n) /\ (dirty b = false -> pending d = Some (drive b, blockno b)).
Proof.
  intros Hf b Hb. unfold idestart. rewrite bind_get. fold b. cbv zeta. unfold FSSIZE in *. replace (1000 <=? blockno b) with false by lia.
  change (BSIZE / SECTOR_SIZE) with 1. rewrite Z.mul_1_r, (s32_small (blockno b)) by lia. cbn [Z.eqb Pos.eqb Z.ltb Z.compare Pos.compare Pos.compare_cont].
  destruct (idewait_run fuel false s Hf) as (d & E & Hu1 & Hu2). rewrite (bind_ret _ _ _ _ _ E). pose proof (drive_range b) as Hdr.
  unfold do_outb, do_outsl. rewrite !bind_modify. fold (drive b). unfold serve_disk. fold (dirty b). destruct (dirty b) eqn:Ed.
  - rewrite bind_modify. eexists (outsl 0x1f0 (data b) (program (drive b) (blockno b) IDE_CMD_WRITE d)). split; [done|]. split; [|done].
    intros dr n. rewrite (ct_write Hct) by lia. unfold write_block. by rewrite Hu1.
  - exists (program (drive b) (blockno b) IDE_CMD_READ d). split; [done|]. destruct (ct_read Hct (drive b) (blockno b) d) as [H1 H2]; [lia..|].
    split; [intros; by rewrite H1, Hu1|done].
Qed.

(** *** The linked list *)

Lemma chain_out nx p q i v : i ∉ q -> chain nx p q -> chain (<[i := v]> nx) p q.
Proof.
  revert p. induction q as [|j q IH]; intros p Hi; [done|]. intros [-> H]. apply not_elem_of_cons in Hi as [Hne Hi].
  split; [done|]. rewrite list_lookup_total_insert_ne by done. by apply IH.
Qed.

Lemma chain_append nx p q i : chain nx p q -> NoDup q -> i ∉ q -> (forall j, j ∈ q -> (j < length nx)%nat) -> nx !!! i = None ->
  match last q with
  | None => chain nx (Some i) [i]
  | Some x => chain (<[x := Some i]> nx) p (q ++ [i])
  end.
Proof.
  revert p. induction q as [|j q IH]; intros p H Hn Hi Hl Hnil; [done|]. destruct H as [-> H]. apply NoDup_cons in Hn as [Hj Hn].
  apply not_elem_of_cons in Hi as [Hne Hi]. rewrite last_cons. destruct (last q) as [x|] eqn:E.
  - assert (x ∈ q) as Hx by (by apply last_Some_elem_of). split; [done|]. rewrite list_lookup_total_insert_ne by (intros ->; done).
    specialize (IH _ H Hn Hi). apply IH; [|done]. intros k Hk. apply Hl. by right.
  - apply last_None in E as ->. cbn. split; [done|]. rewrite list_lookup_total_insert_eq by (apply Hl; by left).
    split; [done|]. by rewrite list_lookup_total_insert_ne.
Qed.

Lemma last_link_run (s : S) q fuel pp : chain (qnext s) (match pp with None => idequeue s | Some i => qnext s !!! i end) q -> (length q < fuel)%nat ->
  last_link fuel pp s = Some (match last q with Some x => Some x | None => pp end).
Proof.
  revert fuel pp. induction q as [|j q IH]; intros fuel pp H Hf; (destruct fuel as [|fuel]; [simpl in Hf; lia|]); cbn [last_link].
  - cbn in H. by rewrite H.
  - destruct H as [-> H]. rewrite (IH fuel (Some j)); [|done|simpl in Hf; lia]. rewrite last_cons. by destruct (last q).
Qed.

(** *** The operations *)

Lemma alter_insert {A} `{!Inhabited A} (f : A -> A) i (l : list A) : alter f i l = <[i := f (l !!! i)]> l.
Proof.
  destruct (decide (i < length l)%nat) as [Hi|Hi].
  - apply list_eq. intros j. rewrite list_lookup_alter, list_lookup_insert. destruct (decide (i = j)) as [<-|Hne].
    + rewrite decide_True by done. by rewrite (list_lookup_lookup_total_lt _ _ Hi).
    + by rewrite decide_False by tauto.
  - rewrite list_insert_ge by lia. apply list_eq. intros j. rewrite list_lookup_alter. case_decide as E; [|done]. subst j.
    by rewrite lookup_ge_None_2 by lia.
Qed.

(** The handler up to the wakeup: the first request is served. *)
Definition served (s : S) (b : nat) (d : list Z) (c : D) : S :=
  mkIde (qnext s !!! b) (qnext s) (<[b := set_flags (Z.land (Z.lor (flags (B s b)) B_VALID) (Z.lnot B_DIRTY)) (set_data d (B s b))]> (bufs s))
    (havedisk1 s) (woken s ++ [b]) c.

Lemma intr_serve (s : S) h fuel : idequeue s = Some h -> (h < length (bufs s))%nat -> (bound < fuel)%nat ->
  (dirty (B s h) = false -> pending (ctl s) = Some (drive (B s h), blockno (B s h))) ->
  exists c, ideintr fuel s = (match qnext s !!! h with None => ret () | Some n => idestart fuel (Some n) end)
      (served s h (if dirty (B s h) then data (B s h) else contents (ctl s) (drive (B s h)) (blockno (B s h))) c) /\
    forall dr n, contents c dr n = contents (ctl s) dr n.
Proof.
  intros Eq Hh Hf Hp. unfold ideintr. rewrite bind_get, Eq, bind_modify. fold (dirty (B s h)). destruct (dirty (B s h)) eqn:Ed.
  - exists (ctl s). split; [|done]. rewrite (bind_ret _ _ _ () (set_queue (qnext s !!! h) s)) by done. rewrite !bind_modify, bind_get.
    unfold served, updb, set_queue, wakeup. cbn [idequeue bufs qnext havedisk1 woken ctl]. rewrite alter_twice, alter_insert.
    fold (B s h). by destruct (B s h).
  - specialize (Hp eq_refl). set (s1 := set_queue (qnext s !!! h) s).
    destruct (idewait_run fuel true s1 Hf) as (c & E & Hu1 & Hu2). cbn [ctl s1 set_queue] in Hu1, Hu2.
    destruct (ct_data Hct (drive (B s h)) (blockno (B s h)) c) as [H1 H2]; [congruence|].
    exists (insl 0x1f0 c).2. split; [|intros; by rewrite H2, Hu1].
    rewrite (bind_ret _ _ _ () (updb h (set_data (insl 0x1f0 c).1) (set_ctl (insl 0x1f0 c).2 s1))) by (by rewrite (bind_ret _ _ _ _ _ E)).
    rewrite !bind_modify, bind_get. unfold served, updb, s1, set_queue, wakeup, set_ctl. cbn [idequeue bufs qnext havedisk1 woken ctl].
    rewrite !alter_twice, alter_insert. fold (B s h). rewrite H1, Hu1. by destruct (B s h).
Qed.

Lemma intr_run (s : S) a fuel : rep s a -> (bound < fuel)%nat ->
  exists s', ideintr fuel s = Ret () s' /\ rep s' (a_step Intr a) /\
    woken s' = woken s ++ (match a_queue a with h :: _ => [h] | [] => [] end) /\ havedisk1 s' = havedisk1 s.
Proof.
  intros [R1 R2 R3 R4 R5 R6] Hf. unfold a_step. destruct (a_queue a) as [|h q] eqn:Eq.
  { cbn in R1. unfold ideintr. rewrite bind_get, R1. exists s. rewrite app_nil_r. split_and!; try done. split; try done; by rewrite Eq. }
  destruct R1 as [R0 R1]. apply NoDup_cons in R4 as [R4 R4']. unfold active in R6. rewrite Eq in R6. destruct R6 as [R6 R7].
  destruct (R5 h) as (Hh & Hhb & Hhf); [by left|]. assert (B s h = a_bufs a !!! h) as EB by (unfold B; by rewrite R2). rewrite <- EB in *.
  destruct (intr_serve s h fuel R0 Hh Hf R7) as (c & E & Hc). rewrite E. set (d := if dirty (B s h) then _ else _) in *.
  assert (set_flags (Z.land (Z.lor (flags (B s h)) B_VALID) (Z.lnot B_DIRTY)) (set_data d (B s h)) = serve_buf (B s h) (a_disk a)) as Ebuf.
  { unfold serve_buf, d. destruct (dirty (B s h)) eqn:Ed; [by destruct (B s h)|]. rewrite R6. unfold serve_disk. by rewrite Ed. }
  assert (forall i, i ∈ q -> B (served s h d c) i = a_bufs a !!! i) as Hq.
  { intros i Hi. unfold B, served. cbn [bufs]. rewrite list_lookup_total_insert_ne by (intros ->; done). by rewrite R2. }
  assert (forall c', active (mkAdisk q (<[h:=serve_buf (B s h) (a_disk a)]> (a_bufs a)) (serve_disk (B s h) (a_disk a))) c' ->
    rep (set_ctl c' (served s h d c)) (mkAdisk q (<[h:=serve_buf (B s h) (a_disk a)]> (a_bufs a)) (serve_disk (B s h) (a_disk a)))) as Hrep.
  { intros c' Hc'. split; cbn [a_queue a_bufs a_disk qnext idequeue bufs set_ctl served ctl]; try done.
    - by rewrite Ebuf, R2.
    - by rewrite length_insert.
    - intros i Hi. rewrite length_insert, list_lookup_total_insert_ne by (intros ->; done). apply R5. by right. }
  destruct q as [|n q].
  - cbn in R1. rewrite R1. exists (served s h d c). split_and!; try done. change (served s h d c) with (set_ctl c (served s h d c)).
    apply Hrep. intros dr n. cbn. by rewrite Hc, R6.
  - destruct R1 as [R1 _]. rewrite R1. destruct (R5 n) as (_ & Hnb & _); [right; by left|].
    destruct (idestart_run fuel (served s h d c) n Hf) as (c' & E' & Hc1 & Hc2); [rewrite Hq by (by left); done|].
    rewrite Hq in Hc1, Hc2 by (by left). exists (set_ctl c' (served s h d c)). split_and!; try done.
    apply Hrep. unfold active. cbn [a_queue a_bufs a_disk]. rewrite list_lookup_total_insert_ne by (intros ->; apply R4; by left).
    split; [|done]. intros dr k. rewrite Hc1. unfold serve_disk. cbn [ctl served]. destruct (dirty (a_bufs a !!! n)); [unfold write_block|]; by rewrite Hc, R6.
Qed.

(** The list with [i] at its end. *)
Lemma enqueue_run (s : S) a fuel i : rep s a -> (i < length (bufs s))%nat -> i ∉ a_queue a -> (length (a_queue a) < fuel)%nat ->
  let s1 := set_qnext i None s in
  exists pp, last_link fuel None s1 = Some pp /\ let s2 := set_link pp (Some i) s1 in
    chain (qnext s2) (idequeue s2) (a_queue a ++ [i]) /\ bufs s2 = bufs s /\ length (qnext s2) = length (qnext s) /\ ctl s2 = ctl s /\
    woken s2 = woken s /\ havedisk1 s2 = havedisk1 s /\ idequeue s2 = Some (default i (head (a_queue a))).
Proof.
  intros [R1 R2 R3 R4 R5 R6] Hi Hq Hf s1. assert (chain (qnext s1) (idequeue s1) (a_queue a)) as H1 by (by apply chain_out).
  eexists. split; [by apply (last_link_run s1 (a_queue a))|].
  pose proof (chain_append (qnext s1) (idequeue s1) (a_queue a) i H1 R4 Hq) as H2.
  assert (qnext s1 !!! i = None) as Hnil by (cbn; rewrite list_lookup_total_insert_eq; [done|lia]).
  assert (forall j, j ∈ a_queue a -> (j < length (qnext s1))%nat) as Hl by (intros j Hj; cbn; rewrite length_insert, R3; by apply R5).
  specialize (H2 Hl Hnil). destruct (last (a_queue a)) as [x|] eqn:E.
  - cbn. split_and!; try done; [by rewrite !length_insert|]. destruct (a_queue a) as [|h q]; [done|]. cbn. by destruct R1 as [-> _].
  - apply last_None in E. rewrite E in *. cbn. split_and!; try done. by rewrite length_insert.
Qed.

Lemma submit_run (s : S) a fuel me i : rep s a -> (bound < fuel)%nat -> (length (a_queue a) < fuel)%nat ->
  a_enabled (havedisk1 s) (Submit me i) a = true ->
  exists s', iderw fuel me i s = Blocked s' /\ rep s' (a_step (Submit me i) a) /\ woken s' = woken s /\ havedisk1 s' = havedisk1 s.
Proof.
  intros R Hb Hf He. pose proof R as [R1 R2 R3 R4 R5 R6]. cbn [a_enabled] in He. rewrite !andb_true_iff, orb_true_iff in He.
  destruct He as ((((((H1 & H2) & H3) & H4) & H5) & H6) & H7). apply bool_decide_eq_true in H1, H2. rewrite <- R2 in H1.
  assert (B s i = a_bufs a !!! i) as EB by (unfold B; by rewrite R2). rewrite <- EB in *.
  apply negb_true_iff in H4. apply Z.leb_le in H6. apply Z.ltb_lt in H7.
  unfold iderw. rewrite bind_get, H3. cbn [negb]. unfold finished in H4. rewrite H4.
  replace (negb (dev (B s i) =? 0) && negb (havedisk1 s)) with false by (destruct H5 as [-> | ->]; [done|by rewrite andb_false_r]).
  rewrite bind_modify, bind_get. destruct (enqueue_run s a fuel i R H1 H2 Hf) as (pp & -> & C1 & C2 & C3 & C4 & C5 & C6 & C7).
  rewrite bind_modify, bind_get. set (s2 := set_link pp (Some i) (set_qnext i None s)) in *. rewrite C7.
  assert (B s2 i = B s i) as EB2 by (unfold B; by rewrite C2).
  assert (forall c, active (a_step (Submit me i) a) c -> rep (set_ctl c s2) (a_step (Submit me i) a)) as Hrep.
  { intros c Hc. split; cbn [a_step a_queue a_bufs a_disk set_ctl qnext idequeue bufs ctl]; rewrite ?C2; try done; [congruence| |].
    - apply NoDup_app. split_and!; [done| |apply NoDup_singleton]. intros x Hx Hxi. by apply list_elem_of_singleton in Hxi as ->.
    - intros j Hj. apply elem_of_app in Hj as [Hj|Hj]; [by apply R5|]. apply list_elem_of_singleton in Hj as ->.
      rewrite <- EB. split_and!; try done; lia. }
  unfold active in R6, Hrep. cbn [a_step a_queue a_bufs a_disk] in *. destruct (a_queue a) as [|h q] eqn:Eq; cbn [head app default from_option id] in *.
  - rewrite bool_decide_eq_true_2 by done. destruct (idestart_run fuel s2 i Hb) as (c & E & Hc1 & Hc2); [rewrite EB2; lia|].
    rewrite (bind_ret _ _ _ _ _ E). exists (set_ctl c s2). split; [|split_and!; [|done|done]].
    + unfold iderw_wait. rewrite bind_get. change (B (set_ctl c s2) i) with (B s2 i). by rewrite EB2, H4.
    + apply Hrep. rewrite <- EB, <- EB2. split; [|done]. intros dr n. rewrite Hc1, C4. unfold serve_disk.
      destruct (dirty (B s2 i)); [unfold write_block|]; by rewrite R6.
  - rewrite bool_decide_eq_false_2 by (intros [= ->]; apply H2; by left). rewrite (bind_ret _ _ _ () s2) by done.
    exists s2. split; [unfold iderw_wait; rewrite bind_get, EB2, H4; done|]. split_and!; [|done|done].
    assert (s2 = set_ctl (ctl s) s2) as -> by (rewrite <- C4; by destruct s2). by apply Hrep.
Qed.

Lemma touch_run (s : S) a i b : rep s a -> i ∉ a_queue a -> rep (updb i (fun _ => b) s) (a_step (Touch i b) a).
Proof.
  intros [R1 R2 R3 R4 R5 R6] Hi.
  assert (forall j, j ∈ a_queue a -> <[i := b]> (a_bufs a) !!! j = a_bufs a !!! j) as Hj.
  { intros j Hj. apply list_lookup_total_insert_ne. intros ->. done. }
  split; cbn [a_step a_queue a_bufs a_disk updb qnext idequeue bufs ctl]; try done.
  - by rewrite alter_insert, R2.
  - by rewrite length_alter.
  - intros j Hq. rewrite length_alter, (Hj j Hq). by apply R5.
  - unfold active in *. cbn [a_queue a_bufs a_disk]. destruct (a_queue a) as [|h q]; [done|]. rewrite Hj; [done|by left].
Qed.

(** ** Runs of the driver *)

(** An operation; a process that asks for the disk is left asleep. *)
Definition step (fuel : nat) (o : op) (s : S) : option S :=
  match o with
  | Submit me i => match iderw fuel me i s with Blocked s' => Some s' | _ => None end
  | Intr => match ideintr fuel s with Ret _ s' => Some s' | _ => None end
  | Touch i b => Some (updb i (fun _ => b) s)
  end.
Fixpoint run (fuel : nat) (ops : list op) (s : S) : option S :=
  match ops with [] => Some s | o :: ops' => s' ← step fuel o s; run fuel ops' s' end.

(** The run is one the contract allows, and what it comes to. *)
Fixpoint a_run (disk1 : bool) (ops : list op) (a : adisk) : option adisk :=
  match ops with
  | [] => Some a
  | o :: ops' => if a_enabled disk1 o a then a_run disk1 ops' (a_step o a) else None
  end.

Lemma step_run (s : S) a fuel o : rep s a -> (bound < fuel)%nat -> (length (a_queue a) < fuel)%nat ->
  a_enabled (havedisk1 s) o a = true -> exists s', step fuel o s = Some s' /\ rep s' (a_step o a) /\ havedisk1 s' = havedisk1 s /\
    woken s' = woken s ++ (match o, a_queue a with Intr, h :: _ => [h] | _, _ => [] end).
Proof.
  intros R Hb Hf He. destruct o as [me i| |i b]; cbn [step].
  - destruct (submit_run s a fuel me i R Hb Hf He) as (s' & -> & R' & Hw & Hd). exists s'. by rewrite app_nil_r.
  - destruct (intr_run s a fuel R Hb) as (s' & -> & R' & Hw & Hd). by exists s'.
  - eexists. split; [done|]. rewrite app_nil_r. split; [|done]. apply touch_run; [done|]. cbn in He. by apply bool_decide_eq_true in He.
Qed.

Lemma a_step_length o a : (length (a_queue (a_step o a)) <= Datatypes.S (length (a_queue a)))%nat.
Proof. destruct o; cbn; [rewrite length_app; simpl; lia|destruct (a_queue a) eqn:E; rewrite ?E; simpl; lia|lia]. Qed.

(** The buffers asked for, in order. *)
Definition submitted (ops : list op) : list nat := omap (fun o => match o with Submit _ i => Some i | _ => None end) ops.

Lemma run_rep ops s a a' fuel : rep s a -> (bound < fuel)%nat -> (length (a_queue a) + length ops < fuel)%nat ->
  a_run (havedisk1 s) ops a = Some a' ->
  exists s', run fuel ops s = Some s' /\ rep s' a' /\ woken s' ++ a_queue a' = woken s ++ a_queue a ++ submitted ops.
Proof.
  revert s a. induction ops as [|o ops IH]; intros s a R Hb Hf Ha; cbn [run a_run length] in *.
  - injection Ha as <-. exists s. by rewrite app_nil_r.
  - destruct (a_enabled _ o a) eqn:He; [|done]. destruct (step_run s a fuel o R Hb ltac:(lia) He) as (s1 & -> & R1 & Hd & Hw). cbn.
    rewrite <- Hd in Ha. pose proof (a_step_length o a). destruct (IH s1 _ R1 Hb ltac:(lia) Ha) as (s' & E & R' & Hw'). exists s'.
    split_and!; try done. rewrite Hw', Hw. destruct o; cbn; rewrite ?app_nil_r, <- ?app_assoc; try done.
    destruct (a_queue a) as [|h q] eqn:Eq; rewrite ?Eq; cbn; done.
Qed.

End refine.

(** ** A controller *)

(** It is busy for one poll after each command. *)
Record toy := mkToy { t_disk : Z -> Z -> list Z; t_reg : Z -> Z; t_busy : bool }.
Definition t_drive (d : toy) : Z := Z.land (Z.shiftr (t_reg d 0x1f6) 4) 1.
Definition t_sector (d : toy) : Z :=
  t_reg d 0x1f3 + 2 ^ 8 * t_reg d 0x1f4 + 2 ^ 16 * t_reg d 0x1f5 + 2 ^ 24 * Z.land (t_reg d 0x1f6) 0x0f.
Definition t_pending (d : toy) : option (Z * Z) := if t_reg d 0x1f7 =? IDE_CMD_READ then Some (t_drive d, t_sector d) else None.
#[export] Instance toy_ports : IdePorts toy := {
  outb p v d := mkToy (t_disk d) (fun q => if q =? p then v else t_reg d q) (if p =? 0x1f7 then true else t_busy d);
  outsl _ bs d := mkToy (fun dr n => if (dr =? t_drive d) && (n =? t_sector d) then bs else t_disk d dr n) (t_reg d) (t_busy d);
  inb _ d := (if t_busy d then IDE_BSY else IDE_DRDY, mkToy (t_disk d) (t_reg d) false);
  insl _ d := (t_disk d (t_drive d) (t_sector d), d) }.

(** The fields of the drive register. *)
Lemma drive_register dr x : 0 <= dr <= 1 -> 0 <= x < 16 ->
  Z.land (Z.shiftr (Z.lor 0xe0 (Z.lor (Z.shiftl dr 4) x)) 4) 1 = dr /\ Z.land (Z.lor 0xe0 (Z.lor (Z.shiftl dr 4) x)) 0x0f = x.
Proof.
  intros Hd Hx. set (f := fun dr x => (Z.land (Z.shiftr (Z.lor 0xe0 (Z.lor (Z.shiftl dr 4) x)) 4) 1 =? dr) && (Z.land (Z.lor 0xe0 (Z.lor (Z.shiftl dr 4) x)) 0x0f =? x)).
  assert (f dr x = true) as H; [|unfold f in H; bsplit; done].
  assert (forallb (fun i => forallb (fun j => f (Z.of_nat i) (Z.of_nat j)) (seq 0 16)) (seq 0 2) = true) as H by (vm_compute; reflexivity).
  rewrite forallb_forall in H. specialize (H (Z.to_nat dr) ltac:(apply in_seq; lia)). rewrite forallb_forall in H.
  specialize (H (Z.to_nat x) ltac:(apply in_seq; lia)). by rewrite !Z2Nat.id in H by lia.
Qed.

Lemma sector_bytes n : 0 <= n < 2 ^ 28 ->
  Z.land n 0xff + 2 ^ 8 * Z.land (Z.shiftr n 8) 0xff + 2 ^ 16 * Z.land (Z.shiftr n 16) 0xff + 2 ^ 24 * Z.land (Z.shiftr n 24) 0x0f = n /\
  0 <= Z.land (Z.shiftr n 24) 0x0f < 16.
Proof.
  intros Hn. change 0xff with (Z.ones 8). change 0x0f with (Z.ones 4). rewrite !Z.land_ones, !Z.shiftr_div_pow2 by lia.
  split; [|apply Z.mod_pos_bound; lia]. change (2 ^ 8) with 256. change (2 ^ 16) with 65536. change (2 ^ 24) with 16777216. change (2 ^ 4) with 16.
  pose proof (Z.div_mod n 256). pose proof (Z.div_mod (n / 256) 256). pose proof (Z.div_mod (n / 65536) 256). pose proof (Z.div_mod (n / 16777216) 16).
  rewrite Z.div_div in * by lia. change (256 * 256) with 65536 in *. change (65536 * 256) with 16777216 in *. change (16777216 * 16) with 268435456 in *.
  rewrite (Z.div_small n 268435456) in * by lia. lia.
Qed.

Lemma toy_program dr n cmd (d : toy) : 0 <= dr <= 1 -> 0 <= n < 2 ^ 28 ->
  t_drive (program dr n cmd d) = dr /\ t_sector (program dr n cmd d) = n /\ t_reg (program dr n cmd d) 0x1f7 = cmd /\ t_disk (program dr n cmd d) = t_disk d.
Proof.
  intros Hd Hn. destruct (sector_bytes n Hn) as [Hs Hx]. destruct (drive_register dr _ Hd Hx) as [H1 H2].
  unfold t_drive, t_sector, program. cbn [t_reg outb toy_ports Z.eqb Pos.eqb t_disk]. rewrite H1, H2. done.
Qed.

Lemma toy_ok : controller_ok t_disk t_pending (fun d => if t_busy d then 1%nat else 0%nat) 1.
Proof.
  split.
  - intros d. destruct (t_busy d); lia.
  - intros d. split; [done|]. cbn. by destruct (t_busy d).
  - intros d. cbn. by destruct (t_busy d).
  - intros dr n d Hd Hn. destruct (toy_program dr n IDE_CMD_READ d Hd Hn) as (E1 & E2 & E3 & E4). unfold t_pending. by rewrite E1, E2, E3, E4.
  - intros dr n d. unfold t_pending. destruct (_ =? _); [|done]. by intros [= <- <-].
  - intros dr n bs d Hd Hn dr' n'. destruct (toy_program dr n IDE_CMD_WRITE d Hd Hn) as (E1 & E2 & _ & E4). cbn [outsl toy_ports t_disk]. by rewrite E1, E2, E4.
Qed.

(** Two writes to one block and a read of it are queued; the read sees the second. *)
Definition demo_ide : ide toy :=
  mkIde None [None; None; None] [mkDbuf B_DIRTY 1 5 7 [1]; mkDbuf B_DIRTY 1 5 8 [2]; mkDbuf 0 1 5 9 []] true [] (mkToy (fun _ _ => [0]) (fun _ => 0) false).
Definition demo_ops : list op := [Submit 7 0; Submit 8 1; Intr; Submit 9 2; Intr; Intr].


(** A read that fails is not noticed: the buffer is marked valid with the bytes it had. *)
Definition broken_ports : IdePorts toy := {|
  outb := @outb toy toy_ports; outsl := @outsl toy toy_ports; insl := @insl toy toy_ports;
  inb := fun _ d => (Z.lor IDE_DRDY IDE_ERR, mkToy (t_disk d) (t_reg d) false) |}.
Lemma ideintr_hides_read_error :
  exists s', @ideintr toy broken_ports 3 (mkIde (Some 0%nat) [None] [mkDbuf 0 1 5 7 [42]] true [] (mkToy (fun _ _ => [0]) (fun _ => 0) false)) = Ret () s' /\
    finished (bufs s' !!! 0%nat) = true /\ data (bufs s' !!! 0%nat) = [42].
Proof. eexists. split; [vm_compute; reflexivity|]. split; reflexivity. Qed.
