(* ===== verification/Mkfs.v ===== *)
(** * Building the file system image

    mkfs.c, the host program that writes the disk the kernel boots from: the
    sectors of the image, inodes as 64-byte records, [iappend], the bitmap and
    [main].  The host's files are the fields of a class; [exit(1)] and a failing
    assertion end the run ([Panic]).  This file follows one call of [iappend] on
    the disk as fs.c will see it, with the bitmap already written. *)

From stdpp Require Import gmap.
From S2P Require Import Prelude CString Ide Block Bio Log LogCrash Users Fs FsPath FsTxn FsBlocks FsFile FsData FsWrite FsDir.
Open Scope Z_scope.

Definition NINODES : Z := 200.
Definition nbitmap : Z := FSSIZE / (BSIZE * 8) + 1.
Definition ninodeblocks : Z := NINODES / IPB + 1.
Definition nlog : Z := LOGSIZE.

(** The host: can the image be created, can a sector be written, and what the
    successive [read]s of a file return, if it can be opened. *)
Class Host := {
  host_create : list Z -> bool;
  host_write : Z -> bool;
  host_open : list Z -> option (list (list Z)) }.

(** The image as a sparse file of [nsec] sectors, and the globals. *)
Record mkfs := mkMkfs { img : disk; nsec : Z; msb : superblock; freeinode : Z; freeblock : Z }.

Definition zeroes : block := replicate (Z.to_nat BSIZE) 0.
Definition set_freeinode (v : Z) (s : mkfs) : mkfs := mkMkfs (img s) (nsec s) (msb s) v (freeblock s).
Definition set_freeblock (v : Z) (s : mkfs) : mkfs := mkMkfs (img s) (nsec s) (msb s) (freeinode s) v.
Definition set_msb (v : superblock) (s : mkfs) : mkfs := mkMkfs (img s) (nsec s) v (freeinode s) (freeblock s).
Definition write_img (sec : Z) (b : block) (s : mkfs) : mkfs :=
  mkMkfs (disk_upd (img s) sec b) (Z.max (nsec s) (sec + 1)) (msb s) (freeinode s) (freeblock s).

(** The globals as [main] finds them, with an empty image. *)
Definition mkfs_boot : mkfs := mkMkfs (fun _ => zeroes) 0 (mkSuperblock 0 0 0 0 0 0 0) 1 0.

(** The value whose bytes in memory, on a little-endian host, are those of [x] in
    Intel order. *)
Definition xshort (x : Z) : Z := half_at (half_bytes x) 0.
Definition xint (x : Z) : Z := bytes_word (word_bytes x).

(** A [struct dinode] in memory. *)
Definition din_size (din : list Z) : Z := word_at din 8.
Definition set_din_size (din : list Z) (v : Z) : list Z := put_word din 8 v.
Definition din_addr (din : list Z) (k : nat) : Z := word_at din (32 + 4 * k).
Definition set_din_addr (din : list Z) (k : nat) (v : Z) : list Z := put_word din (32 + 4 * k) v.

Definition MKFS_PERM : Z := Z.lor (Z.lor (Z.lor (Z.lor MODE_RUSR MODE_WUSR) MODE_XUSR) MODE_ROTH) MODE_XOTH.
Definition ROOT_NAME : list Z := [114; 111; 111; 116].

(** The bitmap block with the first [used] bits set. *)
Definition used_bits (used : Z) : block :=
  foldl (fun buf i => <[Z.to_nat (i / 8) := Z.lor (buf !!! Z.to_nat (i / 8)) (Z.shiftl 1 (i mod 8))]> buf) zeroes (seqZ 0 used).

Section mkfs.
Context `{!Host}.

(** The sector at which [lseek(fsfd, sec * BSIZE, 0)] leaves the file. *)
Definition sector (sec : Z) : Z := u32 (sec * BSIZE) / BSIZE.

Definition wsect (sec : Z) (buf : block) : M mkfs () :=
  if host_write (sector sec) then modify (write_img (sector sec) buf) else panic "write".

Definition rsect (sec : Z) : M mkfs block :=
  let* s := get in
  if sector sec <? nsec s then ret (img s (sector sec)) else panic "read".

Definition winode (inum : Z) (ip : list Z) : M mkfs () :=
  let* s := get in
  let bn := IBLOCK inum (msb s) in
  let* buf := rsect bn in
  wsect bn (patch buf (dinode_off inum) ip).

Definition rinode (inum : Z) : M mkfs (list Z) :=
  let* s := get in
  let bn := IBLOCK inum (msb s) in
  let* buf := rsect bn in
  ret (sub buf (dinode_off inum) (Z.to_nat DINODE_SIZE)).

(** The record that [ialloc] builds. *)
Definition new_dinode (type : Z) : list Z :=
  let din := replicate (Z.to_nat DINODE_SIZE) 0 in
  let din := put_half din 0 (xshort type) in
  let din := put_half din 6 (xshort 1) in
  let din := set_din_size din (xint 0) in
  let din :=
    if type =? T_FILE then put_word din 12 (xint MKFS_PERM)
    else if type =? T_DIR then put_word din 12 (xint MKFS_PERM)
    else din in
  patch din 16 (ROOT_NAME ++ [0]).

Definition ialloc (type : Z) : M mkfs Z :=
  let* inum := gets freeinode in
  modify (set_freeinode (u32 (inum + 1))) ;;;
  winode inum (new_dinode type) ;;;
  ret inum.

Definition balloc (used : Z) : M mkfs () :=
  if used <? BSIZE * 8 then
    let* s := get in wsect (sb_bmapstart (msb s)) (used_bits used)
  else panic "assert".

(** [freeblock++] *)
Definition next_block : M mkfs Z :=
  let* x := gets freeblock in
  modify (set_freeblock (u32 (x + 1))) ;;;
  ret x.

(** [if(xint(din.addrs[k]) == 0) din.addrs[k] = xint(freeblock++)] *)
Definition fill_addr (din : list Z) (k : nat) : M mkfs (list Z) :=
  if xint (din_addr din k) =? 0 then
    let* b := next_block in ret (set_din_addr din k (xint b))
  else ret din.

(** The block of the turn: the first half of the body of the loop of [iappend]. *)
Definition iappend_block (din : list Z) (fbn : Z) : M mkfs (Z * list Z) :=
  if fbn <? Z.of_nat NDIRECT then
    let* din := fill_addr din (Z.to_nat fbn) in
    ret (xint (din_addr din (Z.to_nat fbn)), din)
  else
    let* din := fill_addr din NDIRECT in
    let* indirect := rsect (xint (din_addr din NDIRECT)) in
    let e := (4 * (Z.to_nat fbn - NDIRECT))%nat in
    let* indirect :=
      (if word_at indirect e =? 0 then
         let* b := next_block in
         let indirect := put_word indirect e (xint b) in
         wsect (xint (din_addr din NDIRECT)) indirect ;;;
         ret indirect
       else ret indirect) in
    ret (xint (word_at indirect e), din).

Fixpoint iappend_loop (fuel : nat) (p : list Z) (off n : Z) (din : list Z) : M mkfs (Z * list Z) :=
  match fuel with
  | O => ret (off, din)
  | Datatypes.S fuel' =>
      if 0 <? n then
        let fbn := off / BSIZE in
        if fbn <? MAXFILE then
          let* r := iappend_block din fbn in
          let '(x, din) := r in
          let n1 := Z.min (u32 n) (u32 ((fbn + 1) * BSIZE - off)) in
          let* buf := rsect x in
          wsect x (patch buf (Z.to_nat (off - fbn * BSIZE)) (take (Z.to_nat n1) p)) ;;;
          iappend_loop fuel' (drop (Z.to_nat n1) p) (u32 (off + n1)) (n - n1) din
        else panic "assert"
      else ret (off, din)
  end.

Definition iappend (inum : Z) (p : list Z) (n : Z) : M mkfs () :=
  let* din := rinode inum in
  let off := xint (din_size din) in
  let* r := iappend_loop (Z.to_nat n) p off n din in
  let '(off, din) := r in
  winode inum (set_din_size din (xint off)).

(** A [struct dirent] with the name stored by [strcpy] or [strncpy]. *)
Definition new_dirent (inum : Z) (name : list Z) : list Z :=
  patch (put_half (replicate (Z.to_nat DIRENT_SIZE) 0) 0 (xshort inum)) 2 name.

(** [while((cc = read(fd, buf, sizeof(buf))) > 0) iappend(inum, buf, cc)] *)
Fixpoint copy_file (inum : Z) (reads : list (list Z)) : M mkfs () :=
  match reads with
  | [] => ret ()
  | buf :: reads' =>
      let cc := Z.of_nat (length buf) in
      if 0 <? cc then iappend inum buf cc ;;; copy_file inum reads' else ret ()
  end.

(** The name in the file system: without a leading [_]. *)
Definition image_name (arg : list Z) : list Z := match arg with 95 :: arg' => arg' | _ => arg end.

(** The body of the loop of [main] over the arguments. *)
Definition add_file (rootino : Z) (arg : list Z) : M mkfs () :=
  if bool_decide (47 ∈ arg) then panic "assert" else
  match host_open arg with
  | None => panic "open"
  | Some reads =>
      let name := image_name arg in
      let* inum := ialloc T_FILE in
      iappend rootino (new_dirent inum (strncpy_l DIRSIZ (replicate DIRSIZ 0) name)) DIRENT_SIZE ;;;
      copy_file inum reads
  end.

(** [main] rounds the size of the root directory up to the next block. *)
Definition fix_root (rootino : Z) : M mkfs () :=
  let* din := rinode rootino in
  let off := xint (din_size din) in
  let off := u32 ((off / BSIZE + 1) * BSIZE) in
  winode rootino (set_din_size din (xint off)).

Definition sb_bytes (s : superblock) : list Z :=
  concat (word_bytes <$> [sb_size s; sb_nblocks s; sb_ninodes s; sb_nlog s; sb_logstart s; sb_inodestart s; sb_bmapstart s]).

Definition main (argv : list (list Z)) : M mkfs () :=
  if (length argv <? 2)%nat then panic "usage" else
  if negb ((BSIZE mod DINODE_SIZE =? 0) && (BSIZE mod DIRENT_SIZE =? 0)) then panic "assert" else
  if negb (host_create (argv !!! 1%nat)) then panic "open" else
  let nmeta := 2 + nlog + ninodeblocks + nbitmap in
  let nblocks := FSSIZE - nmeta in
  modify (set_msb (mkSuperblock (xint FSSIZE) (xint nblocks) (xint NINODES) (xint nlog) (xint 2) (xint (2 + nlog)) (xint (2 + nlog + ninodeblocks)))) ;;;
  modify (set_freeblock nmeta) ;;;
  for_each (seqZ 0 FSSIZE) (fun i => wsect i zeroes) ;;;
  let* s := get in
  wsect 1 (patch zeroes 0 (sb_bytes (msb s))) ;;;
  let* rootino := ialloc T_DIR in
  if negb (rootino =? ROOTINO) then panic "assert" else
  iappend rootino (new_dirent rootino [46; 0]) DIRENT_SIZE ;;;
  iappend rootino (new_dirent rootino [46; 46; 0]) DIRENT_SIZE ;;;
  for_each (drop 2 argv) (add_file rootino) ;;;
  fix_root rootino ;;;
  let* s := get in
  balloc (freeblock s).
End mkfs.

(** ** Disks up to pointwise equality *)

Definition deq (V V' : disk) : Prop := forall x, V x = V' x.

#[export] Instance deq_equiv : Equivalence deq.
Proof. split; [done|intros ?? E x; by rewrite E|intros ??? E E' x; by rewrite E]. Qed.
#[export] Instance disk_upd_deq : Proper (deq ==> eq ==> eq ==> deq) disk_upd.
Proof. intros V V' E ?? -> ?? -> x. unfold disk_upd. by rewrite E. Qed.
#[export] Instance ptr_deq : Proper (deq ==> eq ==> eq ==> eq) ptr.
Proof. intros V V' E ?? -> ?? ->. unfold ptr. by rewrite E. Qed.
#[export] Instance fbyte_deq : Proper (deq ==> eq ==> eq ==> eq) fbyte.
Proof. intros V V' E i ? <- o ? <-. unfold fbyte. rewrite (ptr_deq V V' E i i eq_refl _ _ eq_refl). by rewrite E. Qed.
#[export] Instance is_free_deq W : Proper (deq ==> eq ==> eq) (is_free W).
Proof. intros V V' E ?? ->. unfold is_free. by rewrite E. Qed.
#[export] Instance owned_deq : Proper (deq ==> eq ==> eq ==> iff) owned.
Proof. intros V V' E ?? -> ?? ->. unfold owned. by setoid_rewrite E. Qed.
#[export] Instance disk_ok_deq W : Proper (deq ==> iff) (disk_ok W).
Proof.
  assert (forall V V', deq V V' -> disk_ok W V -> disk_ok W V') as H; [|intros ?? E; split; apply H; [done|by symmetry]].
  intros V V' E [Hb Hm]. split; intros b Hr; [rewrite <- E; by apply Hb|]. rewrite <- (is_free_deq W V V' E b b eq_refl). by apply Hm.
Qed.
#[export] Instance file_ok_deq W : Proper (deq ==> eq ==> iff) (file_ok W).
Proof.
  assert (forall V V' i, deq V V' -> file_ok W V i -> file_ok W V' i) as H; [|intros ?? E ?? ->; split; apply H; [done|by symmetry]].
  intros V V' i E [Hl Hd Hp Hi]. pose proof (fun k => ptr_deq V V' E i i eq_refl k k eq_refl) as Ep. split; [done|done| |].
  - intros k Hk. rewrite <- Ep, <- (is_free_deq W V V' E _ _ eq_refl). by apply Hp.
  - intros k k' Hk Hk'. rewrite <- !Ep. by apply Hi.
Qed.
#[export] Instance extends_deq W V i : Proper (deq ==> eq ==> iff) (extends W V i).
Proof.
  assert (forall V1 V2 i', deq V1 V2 -> extends W V i V1 i' -> extends W V i V2 i') as H; [|intros ?? E ?? ->; split; apply H; [done|by symmetry]].
  intros V1 V2 i' E [D Fo Ei Hp Hf Hfr Hu Hl]. pose proof (fun k => ptr_deq V1 V2 E i' i' eq_refl k k eq_refl) as Ep. split.
  - by rewrite <- E.
  - by rewrite <- E.
  - done.
  - intros k. rewrite <- Ep. auto.
  - intros k. rewrite <- Ep. auto.
  - intros x Hx. rewrite <- E. auto.
  - intros x. rewrite <- (is_free_deq W V1 V2 E x x eq_refl). auto.
  - intros x. rewrite <- (is_free_deq W V1 V2 E x x eq_refl), <- (owned_deq V1 V2 E i' i' eq_refl x x eq_refl). auto.
Qed.
#[export] Instance grows_deq W V i : Proper (deq ==> eq ==> iff) (grows W V i).
Proof.
  assert (forall V1 V2 i', deq V1 V2 -> grows W V i V1 i' -> grows W V i V2 i') as H; [|intros ?? E ?? ->; split; apply H; [done|by symmetry]].
  intros V1 V2 i' E [G Hb]. split; [by rewrite <- E|]. intros o Ho. rewrite <- (fbyte_deq V1 V2 E i' i' eq_refl o o eq_refl). auto.
Qed.

(** ** Inodes as 64-byte records *)

Definition root_owner : list Z := ROOT_NAME ++ replicate 12 0.
Definition enc (i : inode) : list Z := enc_dinode i root_owner.

Lemma xint_small x : 0 <= x < 2 ^ 32 -> xint x = x.
Proof. intros. unfold xint. rewrite bytes_word_bytes. by apply u32_small. Qed.

Lemma length_enc_root i : inode_typed i -> length (enc i) = 64%nat.
Proof. intros T. by apply length_enc. Qed.

Lemma enc_set_size i v : set_din_size (enc i) v = enc (set_isize v i).
Proof. reflexivity. Qed.

Lemma enc_addr i k : inode_typed i -> (k < 8)%nat -> din_addr (enc i) k = iaddrs i !!! k.
Proof.
  intros [_ _ _ [Hl Hu]] Hk. unfold din_addr, word_at, enc. replace (32 + 4 * k)%nat with (16 + (length root_owner + 4 * k))%nat by (simpl; lia).
  rewrite enc_tail, sub_app_r. apply words_at; [done|lia].
Qed.

Lemma enc_set_addr i k v : inode_typed i -> (k < 8)%nat -> set_din_addr (enc i) k v = enc (set_iaddrs (<[k := v]> (iaddrs i)) i).
Proof.
  intros [_ _ _ [Hl _]] Hk. destruct i as [? ? ? ? ? ? ? ? ? ? ? ? l]. cbn [iaddrs] in Hl.
  do 8 (destruct l as [|? l]; [done|]). destruct l; [|done]. do 8 (destruct k as [|k]; [reflexivity|]). lia.
Qed.

Lemma enc_size i : inode_typed i -> din_size (enc i) = isize i.
Proof. intros [_ [Hs _] _ _]. change (bytes_word (word_bytes (isize i)) = isize i). by apply enc_uint. Qed.

(** ** The disk with its bitmap *)

Definition MKFS_SB : superblock := mkSuperblock 1000 941 200 30 2 32 58.
Definition mkfs_image_world (d : disk) : world := mkWorld MKFS_SB 2 30 1000 59 d.

Lemma image_layout d : layout (mkfs_image_world d).
Proof. by split. Qed.

Lemma used_bits_succ n : 0 <= n < BPB -> used_bits (n + 1) = mark n (used_bits n).
Proof.
  intros Hn. unfold used_bits. replace (n + 1) with (Z.of_nat (Datatypes.S (Z.to_nat n))) by lia.
  rewrite seqZ_S, foldl_app. replace (0 + Z.of_nat (Z.to_nat n)) with n by lia. rewrite Z2Nat.id by lia. cbn [foldl].
  set (d := foldl _ _ _). unfold mark, bit_mask. rewrite (Z.mod_small n BPB) by lia.
  apply list_eq. intros k. destruct (decide (k = Z.to_nat (n / 8))) as [->|Hk].
  - rewrite list_lookup_alter_eq. destruct (d !! Z.to_nat (n / 8)) as [x|] eqn:E.
    + rewrite list_lookup_insert_eq by (by eapply lookup_lt_Some). simpl. by rewrite (list_lookup_total_correct _ _ _ E).
    + rewrite list_insert_ge by (by apply lookup_ge_None). by rewrite E.
  - by rewrite list_lookup_alter_ne, list_lookup_insert_ne.
Qed.

Lemma length_used_bits n : length (used_bits n) = Z.to_nat BSIZE.
Proof.
  unfold used_bits. assert (forall l d, length d = Z.to_nat BSIZE ->
    length (foldl (fun buf i => <[Z.to_nat (i / 8) := Z.lor (buf !!! Z.to_nat (i / 8)) (Z.shiftl 1 (i mod 8))]> buf) d l) = Z.to_nat BSIZE) as H.
  { induction l as [|x l IH]; intros d Hd; [done|]. cbn [foldl]. apply IH. by rewrite length_insert. }
  apply H. apply length_replicate.
Qed.

Lemma bit_free_used n b : 0 <= n <= BPB -> 0 <= b < BPB -> bit_free (used_bits n) b = (n <=? b).
Proof.
  intros [Hn Hn'] Hb. rewrite <- (Z.mod_small b BPB) at 1 by lia. revert Hn'. pattern n. apply natlike_ind; [..|done].
  - intros _. rewrite Z.mod_small, (proj2 (Z.leb_le 0 b)) by lia. rewrite bit_free_testbit. change (used_bits 0) with zeroes. unfold zeroes.
    rewrite list_lookup_total_alt. destruct (_ !! _) as [x|] eqn:E; [|].
    + apply lookup_replicate in E as [-> _]. simpl. by rewrite Z.bits_0.
    + apply lookup_replicate_None in E. pose proof (BPB_bytes b) as Hby. rewrite Z.mod_small in Hby by lia. lia.
  - intros m Hm IH Hm'. rewrite <- Z.add_1_r in *. rewrite used_bits_succ by lia. rewrite bit_free_mark by (apply length_used_bits).
    rewrite IH by lia. rewrite !Z.mod_small by lia. case_decide; lia.
Qed.

(** ** The blocks of a file of a given size *)

(** The slots in use, and how many blocks that is. *)
Definition need (k : nat) (size : Z) : Prop := if (k <=? IND)%nat then 512 * Z.of_nat k < size else 512 * (Z.of_nat k - 1) < size.
Definition tight (V : disk) (i : inode) (size : Z) : Prop := forall k, (k < SLOTS)%nat -> ptr V i k <> 0 <-> need k size.
Definition nblk (size : Z) : Z := let b := (size + 511) / 512 in b + (if 7 <? b then 1 else 0).

Lemma need_step k off n : 0 <= off -> 0 < n -> off mod BSIZE + n <= BSIZE ->
  need k (off + n) <-> need k off \/ slot (off / BSIZE) = k \/ (IND = k /\ 7 <= off / BSIZE).
Proof.
  unfold need, slot, IND, BSIZE. intros Ho Hn Hm. pose proof (Z.div_mod off 512 ltac:(done)). pose proof (Z.mod_pos_bound off 512 ltac:(done)).
  set (q := off / 512) in *. set (r := off mod 512) in *. change (Z.of_nat NDIRECT) with 7.
  destruct (Nat.leb_spec k 7), (Z.ltb_spec q 7); lia.
Qed.

Lemma nblk_step off n : 0 <= off -> 0 < n -> off mod BSIZE + n <= BSIZE ->
  nblk (off + n) = nblk off + (if off mod BSIZE =? 0 then if off / BSIZE =? 7 then 2 else 1 else 0).
Proof.
  unfold nblk, BSIZE. intros Ho Hn Hm. pose proof (Z.div_mod off 512 ltac:(done)). pose proof (Z.mod_pos_bound off 512 ltac:(done)).
  assert ((off + n + 511) / 512 = off / 512 + 1) as -> by (symmetry; apply Z.div_unique with (off mod 512 + n - 1); lia).
  assert ((off + 511) / 512 = off / 512 + (if off mod 512 =? 0 then 0 else 1)) as ->.
  { destruct (Z.eqb_spec (off mod 512) 0); symmetry; [apply Z.div_unique with 511; lia|apply Z.div_unique with (off mod 512 - 1); lia]. }
  cbv zeta. destruct (Z.eqb_spec (off mod 512) 0), (Z.eqb_spec (off / 512) 7), (Z.ltb_spec 7 (off / 512 + 1));
    repeat match goal with |- context [7 <? ?x] => destruct (Z.ltb_spec 7 x) end; lia.
Qed.

Lemma need_slot off : 0 <= off -> need (slot (off / BSIZE)) off <-> off mod BSIZE <> 0.
Proof.
  unfold need, slot, IND, BSIZE. intros Ho. pose proof (Z.div_mod off 512 ltac:(done)). pose proof (Z.mod_pos_bound off 512 ltac:(done)).
  change (Z.of_nat NDIRECT) with 7. destruct (Z.ltb_spec (off / 512) 7); [rewrite (proj2 (Nat.leb_le _ _)) by lia|rewrite (proj2 (Nat.leb_gt _ _)) by lia]; lia.
Qed.

Lemma need_ind off : 0 <= off -> 7 <= off / BSIZE -> need IND off <-> ~ (off mod BSIZE = 0 /\ off / BSIZE = 7).
Proof.
  unfold need, IND, BSIZE. intros Ho. pose proof (Z.div_mod off 512 ltac:(done)). pose proof (Z.mod_pos_bound off 512 ltac:(done)). cbn [Nat.leb]. lia.
Qed.

Lemma nblk_mono a b : a <= b -> nblk a <= nblk b.
Proof.
  intros H. unfold nblk. pose proof (Z.div_le_mono (a + 511) (b + 511) 512 ltac:(done) ltac:(lia)).
  destruct (Z.ltb_spec 7 ((a + 511) / 512)), (Z.ltb_spec 7 ((b + 511) / 512)); lia.
Qed.

Section image.
Context `{!Host} (Hwrite : forall b, 0 <= b < FSSIZE -> host_write b = true) (d0 : disk).
Local Abbreviation W := (mkfs_image_world d0).
Local Abbreviation LY := (image_layout d0).

(** What the kernel would see if the bitmap were written now. *)
Definition ghost (s : mkfs) : disk := disk_upd (img s) 58 (used_bits (freeblock s)).

Record base (s : mkfs) : Prop := {
  bs_sb : msb s = MKFS_SB;
  bs_nsec : nsec s = FSSIZE;
  bs_hi : 59 <= freeblock s <= FSSIZE;
  bs_len : forall x, 0 <= x < FSSIZE -> is_block (img s x);
  bs_zero : forall x, freeblock s <= x -> img s x = zeroes }.

Lemma image_data b : data_block W b -> 59 <= b < FSSIZE.
Proof. done. Qed.

Lemma image_bitmap b : 0 <= b < FSSIZE -> bitmap_of W b = 58.
Proof. intros. rewrite (bitmap_of_eq LY) by done. unfold FSSIZE, BPB, BSIZE in *. cbn. rewrite Z.div_small; lia. Qed.

Lemma image_free s b : base s -> 0 <= b < FSSIZE -> is_free W (ghost s) b = (freeblock s <=? b).
Proof.
  intros [_ _ Hhi _ _] Hb. unfold is_free. rewrite image_bitmap by done. unfold ghost. rewrite disk_upd_eq.
  unfold FSSIZE in *. rewrite Z.mod_small by (unfold BPB, BSIZE; lia). apply bit_free_used; unfold BPB, BSIZE; lia.
Qed.

Lemma image_ok s : base s -> disk_ok W (ghost s).
Proof.
  intros Bs. pose proof Bs as [_ _ Hhi Hl _]. split; cbn; intros b Hb.
  - unfold ghost, disk_upd. destruct (b =? 58); [apply length_used_bits|by apply Hl].
  - rewrite image_free by (done || (unfold FSSIZE; lia)). lia.
Qed.

Lemma sector_small b : 0 <= b < FSSIZE -> sector b = b.
Proof. unfold FSSIZE, sector, BSIZE. intros. rewrite u32_small by lia. by apply Z.div_mul. Qed.

Lemma rsect_run s b : base s -> 0 <= b < FSSIZE -> rsect b s = Ret (img s b) s.
Proof.
  intros [_ Hn _ _ _] Hb. unfold rsect. rewrite bind_get, sector_small, Hn by done. by rewrite (proj2 (Z.ltb_lt _ _)) by lia.
Qed.
Lemma wsect_run s b d : 0 <= b < FSSIZE -> wsect b d s = Ret () (write_img b d s).
Proof. intros Hb. unfold wsect. rewrite sector_small, Hwrite by done. done. Qed.

(** Writing a block below the free ones. *)
Lemma base_write s b d : base s -> is_block d -> 0 <= b < freeblock s -> base (write_img b d s).
Proof.
  intros [Hs Hn Hhi Hl Hz] Hd Hb. split; cbn; [done| |done|..].
  - unfold FSSIZE in *. lia.
  - intros x Hx. unfold disk_upd. destruct (x =? b); [done|by apply Hl].
  - intros x Hx. rewrite disk_upd_ne by lia. by apply Hz.
Qed.
Lemma ghost_write s b d : b <> 58 -> deq (ghost (write_img b d s)) (disk_upd (ghost s) b d).
Proof. intros Hb x. unfold ghost. cbn. unfold disk_upd. destruct (x =? 58) eqn:E, (x =? b) eqn:E'; bsplit; first [done|lia]. Qed.
Lemma ghost_img s b : b <> 58 -> ghost s b = img s b.
Proof. intros Hb. unfold ghost. by rewrite disk_upd_ne. Qed.

(** [freeblock++] is an allocation. *)
Lemma next_block_run s : base s -> freeblock s < FSSIZE ->
  let s' := set_freeblock (freeblock s + 1) s in
  next_block s = Ret (freeblock s) s' /\ base s' /\ deq (ghost s') (alloc_block W (freeblock s) (ghost s)) /\ data_block W (freeblock s) /\ is_free W (ghost s) (freeblock s) = true.
Proof.
  intros Bs Hlt s'. pose proof Bs as [Hs Hn Hhi Hl Hz]. unfold FSSIZE in *. split_and!.
  - unfold next_block. rewrite bind_gets, bind_modify, u32_small by lia. done.
  - split; cbn; unfold FSSIZE; try done; [lia|]. intros x Hx. apply Hz. lia.
  - intros x. unfold alloc_block. rewrite image_bitmap by (unfold FSSIZE; lia). unfold s', ghost, disk_upd. cbn.
    destruct (x =? freeblock s) eqn:E; bsplit.
    + subst x. rewrite (proj2 (Z.eqb_neq _ _)) by lia. apply Hz. lia.
    + destruct (x =? 58); [|done]. rewrite used_bits_succ by (unfold BPB, BSIZE; lia). done.
  - unfold data_block. cbn. lia.
  - rewrite image_free by (done || (unfold FSSIZE; lia)). lia.
Qed.

(** From [s] to [s'] the file [i] got [c] new blocks, in slots that satisfy [K]. *)
Record grown (s : mkfs) (i : inode) (s' : mkfs) (i' : inode) (K : nat -> Prop) (c : Z) : Prop := {
  gn_base : base s';
  gn_grows : grows W (ghost s) i (ghost s') i';
  gn_ino : freeinode s' = freeinode s;
  gn_hi : freeblock s' = freeblock s + c;
  gn_only : forall k, (k < SLOTS)%nat -> ptr (ghost s') i' k <> 0 -> ptr (ghost s) i k <> 0 \/ K k }.

Lemma grown_none s i K : base s -> file_ok W (ghost s) i -> grown s i s i K 0.
Proof. intros Bs Fo. split; [done|apply grows_refl; [by apply image_ok|done]|done|lia|auto]. Qed.

Lemma grown_trans s i s1 i1 s2 i2 (K K' : nat -> Prop) c c' :
  grown s i s1 i1 K c -> grown s1 i1 s2 i2 K' c' -> grown s i s2 i2 (fun k => K k \/ K' k) (c + c').
Proof.
  intros [B1 G1 I1 H1 O1] [B2 G2 I2 H2 O2]. split; [done|by eapply (grows_trans LY)|congruence|lia|].
  intros k Hk Hp. destruct (O2 k Hk Hp) as [Hp1|]; [|auto]. destruct (O1 k Hk Hp1); auto.
Qed.

Lemma grown_typed s i s' i' K c : grown s i s' i' K c -> inode_typed i -> inode_typed i'.
Proof. intros Gn T. eapply (extends_typed LY); [done|apply (gn_grows _ _ _ _ _ _ Gn)]. Qed.
Lemma grown_file s i s' i' K c : grown s i s' i' K c -> file_ok W (ghost s') i'.
Proof. intros Gn. apply (gn_grows _ _ _ _ _ _ Gn). Qed.

(** One new block goes to one slot. *)
Lemma fresh_only s i s' i' k :
  base s -> base s' -> grows W (ghost s) i (ghost s') i' -> freeblock s' = freeblock s + 1 -> (k < SLOTS)%nat ->
  ptr (ghost s') i' k = freeblock s ->
  forall j, (j < SLOTS)%nat -> ptr (ghost s') i' j <> 0 -> ptr (ghost s) i j <> 0 \/ k = j.
Proof.
  intros Bs Bs' [[_ Fo _ _ Hf _ _ _] _] Hhi Hk Ek j Hj Hp. destruct (Hf j Hj Hp) as [->|Hfr]; [by left|right].
  destruct (fo_ptr _ _ _ Fo j Hj Hp) as [Hd Hf']. pose proof (image_data _ Hd) as Hpos. unfold FSSIZE in Hpos.
  rewrite image_free in Hfr, Hf' by (done || (unfold FSSIZE; lia)). pose proof (bs_hi _ Bs).
  apply (fo_inj _ _ _ Fo); [done|done|lia|]. rewrite Ek. bsplit. lia.
Qed.

Lemma fill_addr_run s i k :
  base s -> inode_typed i -> file_ok W (ghost s) i -> (k <= IND)%nat -> (ptr (ghost s) i k = 0 -> freeblock s < FSSIZE) ->
  exists s' i', fill_addr (enc i) k s = Ret (enc i') s' /\
    grown s i s' i' (eq k) (if ptr (ghost s) i k =? 0 then 1 else 0) /\ ptr (ghost s') i' k <> 0.
Proof.
  intros Bs T Fo Hk Hroom. assert (k < 8)%nat as Hk8 by (unfold IND in Hk; lia).
  assert (forall V j, ptr V j k = iaddrs j !!! k) as Ep by (intros V j; unfold ptr; by rewrite (proj2 (Nat.leb_le k IND)) by done).
  unfold fill_addr. rewrite enc_addr, xint_small by (done || (apply Forall_lookup_total_1; [apply T|destruct T as [_ _ _ [-> _]]; lia])).
  rewrite Ep in *. destruct (_ =? 0) eqn:E; bsplit.
  - destruct (next_block_run s Bs (Hroom E)) as (Hrun & Bs' & Hde & Hdat & Hfree). pose proof (image_data _ Hdat) as Hpos. unfold FSSIZE in Hpos.
    rewrite (bind_ret _ _ _ _ _ Hrun), xint_small by lia. rewrite enc_set_addr by done. eexists _, _. split; [done|].
    pose proof (grows_direct LY (ghost s) i k _ Fo (image_ok _ Bs) Hk ltac:(by rewrite Ep) Hdat Hfree) as G. rewrite <- Hde in G.
    destruct T as [_ _ _ [Hl _]]. assert (iaddrs (set_iaddrs (<[k:=freeblock s]> (iaddrs i)) i) !!! k = freeblock s) as Ek
      by (apply list_lookup_total_insert_eq; lia).
    split; [|rewrite Ep, Ek; lia]. split; [done..|]. apply fresh_only; [done..|unfold SLOTS; lia|by rewrite Ep].
  - exists s, i. split; [done|]. split; [by apply grown_none|by rewrite Ep].
Qed.

(** The second half of the case of an indirect block. *)
Lemma fill_entry_run s i k :
  let ind := iaddrs i !!! IND in
  base s -> file_ok W (ghost s) i -> (8 <= k < SLOTS)%nat -> ind <> 0 -> (ptr (ghost s) i k = 0 -> freeblock s < FSSIZE) ->
  exists s' d, rsect ind s = Ret (img s ind) s /\
    (if word_at (img s ind) (4 * (k - 8)) =? 0 then
       let* b := next_block in
       let indirect := put_word (img s ind) (4 * (k - 8)) (xint b) in
       wsect ind indirect ;;;
       ret indirect
     else ret (img s ind)) s = Ret d s' /\
    grown s i s' i (eq k) (if ptr (ghost s) i k =? 0 then 1 else 0) /\ word_at d (4 * (k - 8)) = ptr (ghost s') i k /\ ptr (ghost s') i k <> 0.
Proof.
  intros ind Bs Fo Hk Hi Hroom. destruct (ind_data _ _ Fo Hi) as [Hdi _]. fold ind in Hdi. pose proof (image_data _ Hdi) as Hpi. unfold FSSIZE in Hpi.
  assert (forall V, ptr V i k = word_at (V ind) (4 * (k - 8))) as Ep.
  { intros V. unfold ptr. rewrite (proj2 (Nat.leb_gt k IND)) by (unfold IND; lia). fold ind. by rewrite (proj2 (Z.eqb_neq ind 0)). }
  assert (ind <> 58) as Hn58 by lia.
  rewrite Ep, ghost_img in * by done. destruct (_ =? 0) eqn:E; bsplit.
  - destruct (next_block_run s Bs (Hroom E)) as (Hrun & Bs' & Hde & Hdat & Hfree). pose proof (image_data _ Hdat) as Hpos. unfold FSSIZE in Hpos.
    pose proof (grows_indirect LY (ghost s) i k _ Fo (image_ok _ Bs) Hk Hi ltac:(by rewrite Ep, ghost_img) Hdat Hfree) as G. fold ind in G.
    set (s1 := set_freeblock (freeblock s + 1) s) in *. assert (alloc_block W (freeblock s) (ghost s) ind = img s ind) as Ei by (rewrite <- Hde; by apply (ghost_img s1)).
    rewrite Ei in G. set (d := put_word (img s ind) (4 * (k - 8)) (freeblock s)) in *.
    assert (length (img s ind) = 512%nat) as Hli by (apply (bs_len _ Bs); unfold FSSIZE; lia).
    assert (4 * (k - 8) + 4 <= length (img s ind))%nat as Hfit by (unfold SLOTS in Hk; lia).
    assert (is_block d) as Hd by (unfold is_block, d; by rewrite length_put_word).
    assert (ind < freeblock s) as Hlt.
    { destruct (ind_data _ _ Fo Hi) as [_ Hf]. fold ind in Hf. rewrite image_free in Hf by (done || (unfold FSSIZE; lia)). lia. }
    assert (deq (ghost (write_img ind d s1)) (disk_upd (alloc_block W (freeblock s) (ghost s)) ind d)) as Hde' by (by rewrite ghost_write, Hde).
    rewrite <- Hde' in G. assert (word_at d (4 * (k - 8)) = freeblock s) as Ew by (unfold d; rewrite word_at_put by done; apply u32_small; lia).
    assert (ptr (ghost (write_img ind d s1)) i k = freeblock s) as Ek by (rewrite Ep, Hde', disk_upd_eq; done).
    exists (write_img ind d s1), d. split; [apply rsect_run; [done|unfold FSSIZE; lia]|].
    rewrite (bind_ret _ _ _ _ _ Hrun). cbv zeta. rewrite xint_small by lia. fold d. rewrite (bind_ret _ _ _ _ _ (wsect_run s1 ind d ltac:(unfold FSSIZE; lia))).
    split; [done|]. rewrite Ek. split; [|split; [done|lia]].
    assert (base (write_img ind d s1)) as Bs2 by (apply base_write; [done|done|change (freeblock s1) with (freeblock s + 1); lia]).
    split; [done|done|done|done|]. apply fresh_only; [done..|lia|done].
  - exists s, (img s ind). split; [apply rsect_run; [done|unfold FSSIZE; lia]|]. split; [done|]. split; [by apply grown_none|]. rewrite Ep, ghost_img by done. done.
Qed.

Lemma tight_step s i s' i' c off n :
  grown s i s' i' (fun k => (IND = k /\ 7 <= off / BSIZE) \/ slot (off / BSIZE) = k) c ->
  0 <= off -> 0 < n -> off mod BSIZE + n <= BSIZE ->
  ptr (ghost s') i' (slot (off / BSIZE)) <> 0 -> (7 <= off / BSIZE -> ptr (ghost s') i' IND <> 0) ->
  tight (ghost s) i off -> tight (ghost s') i' (off + n).
Proof.
  intros [_ [G _] _ _ Ho] H0 Hn Hm Hs Hi Ht k Hk. rewrite need_step by done. split.
  - intros Hp. destruct (Ho k Hk Hp) as [Hp'|[?|?]]; [left; by apply Ht|tauto|tauto].
  - intros [Hnd|[<-|[<- ?]]]; [|done|auto]. apply Ht in Hnd; [|done]. by rewrite (gr_ptr _ _ _ _ _ G).
Qed.

Lemma grown_weaken s i s' i' (K K' : nat -> Prop) c c' : grown s i s' i' K c -> (forall k, K k -> K' k) -> c' = c -> grown s i s' i' K' c'.
Proof. intros [? ? ? ? Ho] HK ->. split; [done..|]. intros k Hk Hp. destruct (Ho k Hk Hp); auto. Qed.

Definition cost (off : Z) : Z := if off mod BSIZE =? 0 then if off / BSIZE =? 7 then 2 else 1 else 0.

(** What a turn at [off] needs, and what [iappend_block] does then. *)
Record ready (s : mkfs) (i : inode) (off : Z) : Prop := {
  rd_base : base s;
  rd_typed : inode_typed i;
  rd_file : file_ok W (ghost s) i;
  rd_tight : tight (ghost s) i off;
  rd_off : 0 <= off < MAXFILE * BSIZE;
  rd_room : freeblock s + cost off <= FSSIZE }.

Definition block_result (s : mkfs) (i : inode) (off : Z) : Prop :=
  let b := off / BSIZE in
  exists s' i', iappend_block (enc i) b s = Ret (ptr (ghost s') i' (slot b), enc i') s' /\
    grown s i s' i' (fun k => (IND = k /\ 7 <= b) \/ slot b = k) (cost off) /\
    ptr (ghost s') i' (slot b) <> 0 /\ (7 <= b -> ptr (ghost s') i' IND <> 0).

Lemma direct_block_run s i off : ready s i off -> off / BSIZE < 7 -> block_result s i off.
Proof.
  intros [Bs T Fo Ht Ho Hroom] Hd. unfold block_result. set (b := off / BSIZE) in *.
  destruct (offset_block off Ho) as [Hb _]. fold b in Hb. destruct (slot_range b Hb) as [Hs Hs7].
  pose proof (iff_trans (Ht _ Hs) (need_slot off ltac:(lia))) as Hns.
  unfold iappend_block. change (Z.of_nat NDIRECT) with 7. rewrite (proj2 (Z.ltb_lt b 7)) by done.
  assert (slot b = Z.to_nat b) as Es by (unfold slot; by rewrite (proj2 (Z.ltb_lt b (Z.of_nat NDIRECT))) by (change (Z.of_nat NDIRECT) with 7; lia)).
  assert (cost off = if ptr (ghost s) i (slot b) =? 0 then 1 else 0) as Ec.
  { unfold cost. fold b. replace (b =? 7) with false by lia. destruct (Z.eqb_spec (off mod BSIZE) 0), (Z.eqb_spec (ptr (ghost s) i (slot b)) 0); (done || tauto). }
  rewrite Es in *. destruct (fill_addr_run s i (Z.to_nat b) Bs T Fo) as (s' & i' & E & Gn & Hp).
  { unfold IND. lia. }
  { intros E0. rewrite Ec, E0 in Hroom. cbn in Hroom. lia. }
  pose proof (grown_typed _ _ _ _ _ _ Gn T) as T'. rewrite (bind_ret _ _ _ _ _ E), enc_addr by (done || lia).
  assert (iaddrs i' !!! Z.to_nat b = ptr (ghost s') i' (Z.to_nat b)) as -> by (unfold ptr; by rewrite (proj2 (Nat.leb_le _ _)) by (unfold IND; lia)).
  destruct (fo_ptr _ _ _ (grown_file _ _ _ _ _ _ Gn) _ Hs Hp) as [Hdat%image_data _]. unfold FSSIZE in Hdat.
  exists s', i'. split; [by rewrite xint_small by lia|]. split; [|split; [done|lia]].
  eapply grown_weaken; [exact Gn|auto|done].
Qed.

Lemma indirect_block_run s i off : ready s i off -> 7 <= off / BSIZE -> block_result s i off.
Proof.
  intros [Bs T Fo Ht Ho Hroom] Hd. unfold block_result. set (b := off / BSIZE) in *.
  destruct (offset_block off Ho) as [Hb _]. fold b in Hb. destruct (slot_range b Hb) as [Hs Hs7].
  pose proof (iff_trans (Ht _ Hs) (need_slot off ltac:(lia))) as Hns.
  unfold iappend_block. change (Z.of_nat NDIRECT) with 7. rewrite (proj2 (Z.ltb_ge b 7)) by done.
  assert (slot b = Datatypes.S (Z.to_nat b)) as Es.
  { unfold slot. rewrite (proj2 (Z.ltb_ge b (Z.of_nat NDIRECT))) by (change (Z.of_nat NDIRECT) with 7; lia). lia. }
  pose proof (iff_trans (Ht IND ltac:(unfold IND, SLOTS; lia)) (need_ind off ltac:(lia) Hd)) as Hni. fold b in Hni.
  assert (cost off = (if ptr (ghost s) i IND =? 0 then 1 else 0) + (if ptr (ghost s) i (slot b) =? 0 then 1 else 0)) as Ec.
  { unfold cost. fold b. destruct (Z.eqb_spec (off mod BSIZE) 0), (Z.eqb_spec b 7), (Z.eqb_spec (ptr (ghost s) i (slot b)) 0), (Z.eqb_spec (ptr (ghost s) i IND) 0);
      (done || (exfalso; tauto)). }
  destruct (fill_addr_run s i IND Bs T Fo) as (s1 & i1 & E1 & Gn1 & Hp1); [done| |].
  { intros E0. rewrite Ec, E0 in Hroom. cbn in Hroom. destruct (_ =? 0) in Hroom; lia. }
  pose proof (grown_typed _ _ _ _ _ _ Gn1 T) as T1. pose proof (grown_file _ _ _ _ _ _ Gn1) as Fo1.
  destruct (fo_ptr _ _ _ Fo1 IND ltac:(unfold IND, SLOTS; lia) Hp1) as [Hdat%image_data _]. change (ptr (ghost s1) i1 IND) with (iaddrs i1 !!! IND) in *.
  unfold FSSIZE in Hdat. change NDIRECT with IND. rewrite (bind_ret _ _ _ _ _ E1), enc_addr by (done || (unfold IND; lia)). rewrite xint_small by lia.
  assert (ptr (ghost s1) i1 (slot b) = ptr (ghost s) i (slot b)) as Esl.
  { destruct (decide (ptr (ghost s1) i1 (slot b) = 0)) as [E0|E0].
    - destruct (decide (ptr (ghost s) i (slot b) = 0)); [congruence|]. apply (gr_ptr _ _ _ _ _ (gr_ext _ _ _ _ _ (gn_grows _ _ _ _ _ _ Gn1))); done.
    - apply (gr_ptr _ _ _ _ _ (gr_ext _ _ _ _ _ (gn_grows _ _ _ _ _ _ Gn1))); [done|]. destruct (gn_only _ _ _ _ _ _ Gn1 _ Hs E0); congruence. }
  destruct (fill_entry_run s1 i1 (slot b) (gn_base _ _ _ _ _ _ Gn1) Fo1) as (s2 & d & E2 & E3 & Gn2 & Ew & Hp2); [lia|done| |].
  { rewrite Esl. intros E0. rewrite Ec, E0 in Hroom. rewrite (gn_hi _ _ _ _ _ _ Gn1). cbn [Z.eqb] in Hroom. lia. }
  destruct (fo_ptr _ _ _ (grown_file _ _ _ _ _ _ Gn2) _ Hs Hp2) as [Hdat2%image_data _]. unfold FSSIZE in Hdat2.
  rewrite (bind_ret _ _ _ _ _ E2). replace (4 * (Z.to_nat b - IND))%nat with (4 * (slot b - 8))%nat by (unfold IND; lia). cbv zeta.
  rewrite (bind_ret _ _ _ _ _ E3), Ew, xint_small by lia. exists s2, i1. split; [done|]. split; [|split; [done|intros _; exact Hp1]].
  eapply grown_weaken; [by eapply grown_trans| |by rewrite Ec, Esl]. intros k [<-|<-]; auto.
Qed.

(** The bytes [p] have been appended at [off]. *)
Record appended (s : mkfs) (i : inode) (off : Z) (p : list Z) (s' : mkfs) (i' : inode) : Prop := {
  ap_base : base s';
  ap_ext : extends W (ghost s) i (ghost s') i';
  ap_bytes : overwritten (ghost s) i off p (ghost s') i';
  ap_tight : tight (ghost s') i' (off + Z.of_nat (length p));
  ap_ino : freeinode s' = freeinode s;
  ap_hi : freeblock s' = freeblock s + nblk (off + Z.of_nat (length p)) - nblk off }.

Lemma appended_nil s i off : base s -> file_ok W (ghost s) i -> tight (ghost s) i off -> appended s i off [] s i.
Proof.
  intros Bs Fo Ht. split; [done|apply extends_refl; [by apply image_ok|done]| |by rewrite Z.add_0_r|done|rewrite Z.add_0_r; lia].
  intros o _. rewrite decide_False; [done|cbn; lia].
Qed.

Lemma appended_app s i s1 i1 s2 i2 off p p' :
  appended s i off p s1 i1 -> appended s1 i1 (off + Z.of_nat (length p)) p' s2 i2 -> appended s i off (p ++ p') s2 i2.
Proof.
  intros [_ G1 O1 _ I1 H1] [B2 G2 O2 T2 I2 H2]. rewrite <- Z.add_assoc, <- Nat2Z.inj_add, <- length_app in *. split; [done| | |done|congruence|lia].
  - by eapply (extends_trans LY).
  - by eapply overwritten_app.
Qed.

Lemma turn_run s i off ds :
  ready s i off -> 0 < Z.of_nat (length ds) -> off mod BSIZE + Z.of_nat (length ds) <= BSIZE ->
  exists x s1 s2 i', iappend_block (enc i) (off / BSIZE) s = Ret (x, enc i') s1 /\ 0 <= x < FSSIZE /\ base s1 /\
    write_img x (patch (img s1 x) (Z.to_nat (off mod BSIZE)) ds) s1 = s2 /\ appended s i off ds s2 i'.
Proof.
  intros R Hn Hm. pose proof (rd_off _ _ _ R) as Ho. destruct (offset_block off Ho) as [Hb _]. destruct (slot_range _ Hb) as [Hs Hs7].
  assert (block_result s i off) as (s1 & i1 & E1 & Gn & Hp & Hi).
  { destruct (Z.lt_ge_cases (off / BSIZE) 7); [by apply direct_block_run|by apply indirect_block_run]. }
  set (x := ptr (ghost s1) i1 (slot (off / BSIZE))) in *. pose proof (grown_file _ _ _ _ _ _ Gn) as Fo1. pose proof (gn_base _ _ _ _ _ _ Gn) as B1.
  destruct (fo_ptr _ _ _ Fo1 _ Hs Hp) as [Hdat%image_data Hfree]. fold x in Hdat, Hfree. assert (x <> 58) as Hx by lia.
  assert (x < freeblock s1) as Hlt by (rewrite image_free in Hfree by (done || lia); lia).
  set (d := patch (img s1 x) (Z.to_nat (off mod BSIZE)) ds). pose proof (Z.mod_pos_bound off BSIZE ltac:(done)).
  assert (is_block d) as Hd.
  { pose proof (bs_len _ B1 x ltac:(lia)) as Hl. unfold is_block, d in *. rewrite length_patch; lia. }
  exists x, s1, (write_img x d s1), i1. split; [done|]. split; [lia|]. split; [done|]. split; [done|].
  destruct (extends_write LY (ghost s1) i1 _ d (image_ok _ B1) Fo1 Hd Hs Hs7 Hp) as [G2 Hptr]. fold x in G2, Hptr.
  pose proof (ghost_write s1 x d Hx) as Hde. split.
  - apply base_write; [done|done|lia].
  - rewrite Hde. eapply (extends_trans LY); [apply (gn_grows _ _ _ _ _ _ Gn)|done].
  - intros o Hor. rewrite (fbyte_deq _ _ Hde i1 i1 eq_refl o o eq_refl), <- (gr_byte _ _ _ _ _ (gn_grows _ _ _ _ _ _ Gn) o Hor).
    unfold d. rewrite <- (ghost_img s1 x Hx). apply (fbyte_patch LY); (done || (by apply image_ok) || lia).
  - intros k Hk. rewrite (ptr_deq _ _ Hde i1 i1 eq_refl k k eq_refl), Hptr. eapply tight_step; try done; [lia|apply R].
  - apply (gn_ino _ _ _ _ _ _ Gn).
  - rewrite nblk_step by (done || lia). cbn. rewrite (gn_hi _ _ _ _ _ _ Gn). unfold cost. lia.
Qed.

(** The loop of [iappend]: a turn per block; [length p] turns are enough. *)
Lemma iappend_loop_run fuel s i p off :
  let n := Z.of_nat (length p) in
  base s -> inode_typed i -> file_ok W (ghost s) i -> tight (ghost s) i off -> 0 <= off -> off + n <= MAXFILE * BSIZE ->
  freeblock s + nblk (off + n) - nblk off <= FSSIZE -> (length p <= fuel)%nat ->
  exists s' i', iappend_loop fuel p off n (enc i) s = Ret (off + n, enc i') s' /\ appended s i off p s' i'.
Proof.
  revert s i p off. induction fuel as [|fuel IH]; intros s i p off n Bs T Fo Ht Ho Hmax Hroom Hf.
  { destruct p; [|cbn in Hf; lia]. exists s, i. unfold n. rewrite Z.add_0_r. split; [done|by apply appended_nil]. }
  cbn [iappend_loop]. destruct (Z.ltb_spec 0 n) as [Hn|Hn].
  2:{ assert (p = []) as -> by (destruct p; [done|cbn in *; lia]). exists s, i. unfold n. rewrite Z.add_0_r. split; [done|by apply appended_nil]. }
  destruct (offset_block off) as [Hb _]; [lia|]. rewrite (proj2 (Z.ltb_lt _ _)) by lia.
  destruct (chunk_bounds off n Ho Hn) as [Hm Hmb]. pose proof max_file. pose proof (Z.div_mod off BSIZE ltac:(done)) as Ed. pose proof (Z.mod_pos_bound off BSIZE ltac:(done)).
  replace (off - off / BSIZE * BSIZE) with (off mod BSIZE) by lia.
  assert (Z.min (u32 n) (u32 ((off / BSIZE + 1) * BSIZE - off)) = file_chunk off n) as ->.
  { rewrite !u32_small by (unfold BSIZE in *; lia). unfold file_chunk. f_equal. lia. }
  set (m := file_chunk off n) in *. assert (length (take (Z.to_nat m) p) = Z.to_nat m) as Hlt by (rewrite length_take; lia).
  assert (ready s i off) as R.
  { split; try done; [lia|]. pose proof (nblk_step off m Ho ltac:(lia) Hmb) as Es. pose proof (nblk_mono (off + m) (off + n) ltac:(lia)).
    fold (cost off) in Es. lia. }
  destruct (turn_run s i off (take (Z.to_nat m) p) R) as (x & s1 & s2 & i2 & E1 & Hx & B1 & E2 & Ap); [lia|lia|].
  rewrite (bind_ret _ _ _ _ _ E1), (bind_ret _ _ _ _ _ (rsect_run s1 x B1 Hx)), (bind_ret _ _ _ _ _ (wsect_run s1 x _ Hx)), E2, u32_small by lia.
  pose proof Ap as [B2 G2 _ T2 _ H2]. rewrite Hlt, Z2Nat.id in T2, H2 by lia.
  assert (off + m + Z.of_nat (length (drop (Z.to_nat m) p)) = off + n) as Hsum by (rewrite length_drop; lia).
  replace (n - m) with (Z.of_nat (length (drop (Z.to_nat m) p))) by lia.
  destruct (IH s2 i2 (drop (Z.to_nat m) p) (off + m)) as (s3 & i3 & E3 & Ap3); try done; [by eapply (extends_typed LY)|apply G2|lia|lia|rewrite Hsum; lia|lia|].
  exists s3, i3. rewrite E3, Hsum. split; [done|].
  rewrite <- (take_drop (Z.to_nat m) p). eapply appended_app; [exact Ap|]. by rewrite Hlt, Z2Nat.id by lia.
Qed.
End image.
