(* ===== verification/MkfsImage.v ===== *)
(** * The image that mkfs.c writes

    The run of [main] of mkfs.c: every [ialloc] and [iappend] keeps an image of
    well-formed, disjoint files, and the finished image is a file system on which
    the theorems about fs.c apply: its superblock, log, bitmap, inodes and root
    directory are consistent, and each file has the contents of the host's. *)

From stdpp Require Import gmap.
From S2P Require Import Prelude CString Ide Block Bio Log LogCrash Users Fs FsPath FsTxn FsBlocks FsFile FsData FsWrite FsDir Mkfs.
Open Scope Z_scope.

#[export] Instance contents_deq : Proper (deq ==> eq ==> eq) contents.
Proof. intros V V' E i ? <-. unfold contents. apply list_fmap_ext. intros _ o _. by rewrite E. Qed.
#[export] Instance file_inv_deq W : Proper (deq ==> eq ==> iff) (file_inv W).
Proof.
  assert (forall V V' i, deq V V' -> file_inv W V i -> file_inv W V' i) as H; [|intros ?? E ?? ->; split; apply H; [done|by symmetry]].
  intros V V' i E [Fo Hs Hsol Hty Hn Hd]. split; [by rewrite <- E|done| |done|done|].
  - intros o Ho. rewrite <- (ptr_deq V V' E i i eq_refl _ _ eq_refl). by apply Hsol.
  - unfold on_disk in *. by rewrite <- E.
Qed.
#[export] Instance updates_deq W V i : Proper (deq ==> eq ==> iff) (updates W V i).
Proof.
  assert (forall V1 V2 i', deq V1 V2 -> updates W V i V1 i' -> updates W V i V2 i') as H; [|intros ?? E ?? ->; split; apply H; [done|by symmetry]].
  intros V1 V2 i' E [D Inv Ei Hf Hs Hu Hfr]. split; [by rewrite <- E|by rewrite <- E|done|..].
  - intros x. rewrite <- E. auto.
  - intros n. rewrite <- E. auto.
  - intros x. rewrite <- (is_free_deq W V1 V2 E x x eq_refl). auto.
  - intros x. rewrite <- (owned_deq V1 V2 E i' i' eq_refl x x eq_refl). auto.
Qed.
#[export] Instance disjoint_files_deq : Proper (deq ==> eq ==> eq ==> iff) disjoint_files.
Proof. intros V V' E i ? <- j ? <-. unfold disjoint_files. by setoid_rewrite E. Qed.

(** ** A finished image

    What a run over the arguments [args], whose files have the contents [files],
    promises the kernel about the disk [V]: [root] and [Fs] are the inodes. *)

Definition dslot (V : disk) (n : Z) : list Z := sub (V (IBLOCK n MKFS_SB)) (dinode_off n) 64.

(** The blocks the files take. *)
Definition space (L : list (list Z)) : Z := foldr (fun C n => nblk (Z.of_nat (length C)) + n) 0 L.

(** The entries of the files [args], with inode numbers from [n] on, and those of the root directory. *)
Fixpoint entries (n : Z) (args : list (list Z)) : list Z :=
  match args with
  | [] => []
  | arg :: args' => mk_dirent (image_name arg) n ++ entries (n + 1) args'
  end.
Definition root_entries (args : list (list Z)) : list Z := mk_dirent [46] ROOTINO ++ mk_dirent [46; 46] ROOTINO ++ entries 2 args.
Definition root_names (args : list (list Z)) : list (list Z) := [46] :: [46; 46] :: (image_name <$> args).
Definition round_up (n : Z) : Z := (n / BSIZE + 1) * BSIZE.

Record fs_image (W : world) (V : disk) (args files : list (list Z)) (root : inode) (Fs : list inode) : Prop := {
  ci_disk : disk_ok W V;
  ci_sb : sb_of (V 1) = MKFS_SB;
  ci_log : disk_log 2 30 FSSIZE V [] /\ forall x, 2 <= x < 32 -> V x = zeroes;
  ci_free : forall b, 0 <= b < FSSIZE -> is_free W V b = (59 + nblk (16 * (2 + Z.of_nat (length args))) + space files <=? b);
  ci_root : inum root = ROOTINO /\ itype root = T_DIR /\ iperm root = MKFS_PERM /\ inlink root = 1 /\ isize root = round_up (16 * (2 + Z.of_nat (length args)));
  ci_root_inv : file_inv W V root <-> (16 * (2 + Z.of_nat (length args))) mod BSIZE <> 0;
  ci_root_data : exists m, contents V root = root_entries args ++ replicate m 0;
  ci_files : length Fs = length files /\ forall k i f, Fs !! k = Some i -> files !! k = Some f ->
    file_inv W V i /\ contents V i = f /\ inum i = Z.of_nat k + 2 /\ itype i = T_FILE /\ iperm i = MKFS_PERM /\ inlink i = 1 /\ iowner i = root_owner;
  ci_lookup : NoDup (name_of <$> root_names args) -> forall k arg, args !! k = Some arg ->
    dir_find (image_name arg) (contents V root) = Some ((k + 2)%nat, Z.of_nat k + 2);
  ci_disj : forall k k' i j, k <> k' -> (root :: Fs) !! k = Some i -> (root :: Fs) !! k' = Some j -> disjoint_files V i j;
  ci_unused : forall n, Z.of_nat (length args) + 2 <= n < NINODES -> dslot V n = replicate 64 0 }.

Section image.
Context `{!Host} (Hwrite : forall b, 0 <= b < FSSIZE -> host_write b = true) (d0 : disk).
Local Abbreviation W := (mkfs_image_world d0).
Local Abbreviation LY := (image_layout d0).

(** ** One file *)

(** A file of the image: fs.c finds it well formed, its record is the one [iappend]
    reads, its blocks are those its size needs, and the rest of them is zero. *)
Record stored (s : mkfs) (i : inode) : Prop := {
  st_inv : file_inv W (ghost s) i;
  st_owner : iowner i = root_owner;
  st_slot : dslot (img s) (inum i) = enc i;
  st_tight : tight (ghost s) i (isize i);
  st_tail : forall o, isize i <= o < MAXFILE * BSIZE -> fbyte (ghost s) i o = 0 }.

Lemma iblock_image n : 0 <= n < NINODES -> 32 <= IBLOCK n MKFS_SB < 58.
Proof.
  unfold NINODES, IBLOCK, IPB, BSIZE, DINODE_SIZE. change (512 / 64) with 8. change (sb_inodestart MKFS_SB) with 32. intros Hn.
  pose proof (Z.div_pos n 8 ltac:(lia) ltac:(done)). pose proof (Z.div_lt_upper_bound n 8 26 ltac:(done) ltac:(lia)). rewrite u32_small; lia.
Qed.

Lemma rinode_run s n : base s -> 0 <= n < NINODES -> rinode n s = Ret (dslot (img s) n) s.
Proof.
  intros Bs Hn. pose proof (iblock_image n Hn). unfold rinode. rewrite bind_get, (bs_sb _ Bs). cbv zeta.
  rewrite (bind_ret _ _ _ _ _ (rsect_run s (IBLOCK n MKFS_SB) Bs ltac:(unfold FSSIZE; lia))). done.
Qed.

Lemma winode_run s n d : base s -> 0 <= n < NINODES -> length d = 64%nat ->
  let s' := write_img (IBLOCK n MKFS_SB) (patch (img s (IBLOCK n MKFS_SB)) (dinode_off n) d) s in
  winode n d s = Ret () s' /\ base s' /\ dslot (img s') n = d /\
  is_block (patch (img s (IBLOCK n MKFS_SB)) (dinode_off n) d) /\
  forall m, 0 <= m < NINODES -> m <> n -> dslot (img s') m = dslot (img s) m.
Proof.
  intros Bs Hn Hd s'. pose proof (iblock_image n Hn). unfold winode. rewrite bind_get, (bs_sb _ Bs). cbv zeta.
  rewrite (bind_ret _ _ _ _ _ (rsect_run s (IBLOCK n MKFS_SB) Bs ltac:(unfold FSSIZE; lia))), (wsect_run Hwrite) by (unfold FSSIZE; lia).
  pose proof (bs_len _ Bs (IBLOCK n MKFS_SB) ltac:(unfold FSSIZE; lia)) as Hl. pose proof (dinode_fits n).
  assert (is_block (patch (img s (IBLOCK n MKFS_SB)) (dinode_off n) d)) as Hb by (unfold is_block in *; rewrite length_patch; lia).
  split; [done|]. split; [apply base_write; [done|done|pose proof (bs_hi _ Bs); lia]|]. unfold dslot, s'. cbn [img write_img]. unfold is_block in *. split; [|split; [done|]].
  - rewrite disk_upd_eq, <- Hd. apply sub_patch_same. lia.
  - intros m Hmr Hmn. unfold disk_upd. destruct (Z.eqb_spec (IBLOCK m MKFS_SB) (IBLOCK n MKFS_SB)) as [E|]; [|done].
    destruct (iblock_range LY n Hn) as (En & _), (iblock_range LY m Hmr) as (Em & _). cbn [w_sb mkfs_image_world] in En, Em.
    rewrite E. apply sub_patch_other; [lia|]. rewrite Hd. apply dinode_disjoint; [lia|lia|lia|done].
Qed.

Lemma sub_sub d off n k m : (k + m <= n)%nat -> sub (sub d off n) k m = sub d (off + k) m.
Proof.
  intros Hkm. apply list_eq. intros j. rewrite !sub_lookup. case_decide; [|done]. rewrite decide_True by lia. f_equal. lia.
Qed.

Lemma tight_solid V i size : tight V i size -> size <= MAXFILE * BSIZE -> solid V i 0 size.
Proof.
  intros Ht Hm o Ho. destruct (offset_block o) as [Hb _]; [lia|]. destruct (slot_range _ Hb) as [Hs _]. apply Ht; [done|].
  replace size with (o + (size - o)) by lia. destruct (decide (o mod BSIZE + (size - o) <= BSIZE)) as [Hle|Hgt].
  - apply need_step; [lia..|auto].
  - pose proof (Z.mod_pos_bound o BSIZE ltac:(done)). assert (need (slot (o / BSIZE)) (o + 1)) as Hn by (apply need_step; [lia..|auto]).
    unfold need in *. destruct (_ <=? _)%nat; lia.
Qed.

(** Writing the record of an inode that keeps its owner is what [iupdate] does. *)
Lemma put_enc s i i2 : base s -> 0 <= inum i < NINODES -> inode_typed i2 -> iowner i2 = root_owner ->
  strncpy_l 15 (sub (img s (IBLOCK (inum i) MKFS_SB)) (dinode_off (inum i) + 16) 16) root_owner = root_owner ->
  put_dinode (img s (IBLOCK (inum i) MKFS_SB)) (dinode_off (inum i)) i2 = patch (img s (IBLOCK (inum i) MKFS_SB)) (dinode_off (inum i)) (enc i2).
Proof.
  intros Bs Hn T Ho Hs. pose proof (iblock_image _ Hn). pose proof (bs_len _ Bs (IBLOCK (inum i) MKFS_SB) ltac:(unfold FSSIZE; lia)) as Hl.
  pose proof (dinode_fits (inum i)). unfold is_block in Hl. rewrite put_dinode_enc by (done || lia). by rewrite Ho, Hs.
Qed.

(** The last step of [iappend]: the record is written back with its new size. *)
Lemma writeback_run s i p s1 i1 :
  let i2 := set_isize (isize i + Z.of_nat (length p)) i1 in
  base s -> stored s i -> appended d0 s i (isize i) p s1 i1 -> isize i + Z.of_nat (length p) <= MAXFILE * BSIZE ->
  exists s2, winode (inum i) (enc i2) s1 = Ret () s2 /\ base s2 /\ dslot (img s2) (inum i) = enc i2 /\ iowner i2 = root_owner /\
    freeinode s2 = freeinode s1 /\ freeblock s2 = freeblock s1 /\
    is_block (put_dinode (ghost s1 (inode_block W i2)) (dinode_off (inum i2)) i2) /\
    deq (ghost s2) (disk_upd (ghost s1) (inode_block W i2) (put_dinode (ghost s1 (inode_block W i2)) (dinode_off (inum i2)) i2)).
Proof.
  intros i2 Bs [Inv Ow Hsl Hti Hta] [B1 G1 _ _ _ _] Hmax. pose proof Inv as [Fo Hs _ Hty Hin _]. change (sb_ninodes _) with NINODES in Hin. pose proof max_file.
  pose proof (gr_inode _ _ _ _ _ G1) as Ei. assert (inum i1 = inum i) as En by (by rewrite Ei). assert (iowner i2 = root_owner) as Ow2 by (unfold i2; cbn; by rewrite Ei).
  assert (inode_typed i2) as Hty2.
  { pose proof (extends_typed LY _ _ _ _ Hty G1) as [? [? ?] ? ?]. split; [done|split; [unfold uint; cbn; lia|done]|done|done]. }
  pose proof (iblock_image _ Hin) as Hib. assert (dslot (img s1) (inum i) = enc i) as Hsl1.
  { rewrite <- Hsl. unfold dslot. rewrite <- !(ghost_img _ (IBLOCK _ _)) by lia. f_equal. apply (gr_frame _ _ _ _ _ G1), (iblock_others LY); (done || by apply image_ok). }
  destruct (winode_run s1 (inum i) (enc i2) B1 Hin (length_enc_root _ Hty2)) as (E2 & B2 & Hsl2 & Hblk & _).
  change (inode_block W i2) with (IBLOCK (inum i1) MKFS_SB). change (inum i2) with (inum i1). rewrite En, ghost_img by lia.
  rewrite put_enc; [|done..|rewrite <- (sub_sub _ _ 64) by lia; fold (dslot (img s1) (inum i)); by rewrite Hsl1].
  eexists. split_and!; [exact E2|done|done|done|done|done|done|]. apply ghost_write. lia.
Qed.

(** [iappend] on a file of the image. *)
Lemma iappend_run s i p :
  let n := Z.of_nat (length p) in
  base s -> stored s i -> isize i + n <= MAXFILE * BSIZE -> freeblock s + nblk (isize i + n) - nblk (isize i) <= FSSIZE ->
  exists s' i', iappend (inum i) p n s = Ret () s' /\ base s' /\ stored s' i' /\ updates W (ghost s) i (ghost s') i' /\
    isize i' = isize i + n /\ contents (ghost s') i' = contents (ghost s) i ++ p /\
    freeinode s' = freeinode s /\ freeblock s' = freeblock s + nblk (isize i + n) - nblk (isize i).
Proof.
  intros n Bs St Hmax Hroom. pose proof St as [Inv Ow Hsl Hti Hta]. pose proof Inv as [Fo Hs Hsol Hty Hin Hod]. change (sb_ninodes _) with NINODES in Hin. pose proof max_file.
  unfold iappend. rewrite (bind_ret _ _ _ _ _ (rinode_run s _ Bs Hin)), Hsl, enc_size, xint_small by (done || lia). cbv zeta.
  destruct (iappend_loop_run Hwrite d0 (Z.to_nat n) s i p (isize i)) as (s1 & i1 & E1 & Ap); try done; [lia|lia|]. fold n in E1.
  rewrite (bind_ret _ _ _ _ _ E1), xint_small, enc_set_size by lia.
  destruct (writeback_run s i p s1 i1 Bs St Ap Hmax) as (s2 & E2 & B2 & Hsl2 & Ow2 & I2 & H2 & Hblk & Hde). fold n in E2, Hsl2, Ow2, Hblk, Hde.
  set (i2 := set_isize (isize i + n) i1) in *. destruct Ap as [B1 G1 O1 T1 I1 H1]. fold n in T1, H1.
  pose proof (tight_solid _ _ _ T1 Hmax) as Hsol1.
  destruct (updates_grown LY (ghost s) i (ghost s1) i1 (isize i + n) Inv (image_ok d0 s Bs) G1 Hsol1) as [Hup Hby]; [lia|]. fold i2 in Hup, Hby.
  destruct (extends_contents (ghost s) i (ghost s1) i1 (isize i) p Inv G1 O1) as [_ Hc]; [intros o ?; apply Hsol1; lia|lia|done|]. fold n in Hc. rewrite Z.max_r in Hc by lia.
  assert (inum i2 = inum i) as En by (unfold i2; cbn; by rewrite (gr_inode _ _ _ _ _ G1)).
  assert (forall o, 0 <= o < MAXFILE * BSIZE -> fbyte (ghost s2) i2 o = fbyte (ghost s1) i1 o) as Hby2.
  { intros o Ho. rewrite (fbyte_deq _ _ Hde i2 i2 eq_refl o o eq_refl). by apply Hby. }
  destruct (iblock_range LY (inum i) Hin) as (_ & _ & Hr & Hnb). rewrite <- En in Hr, Hnb.
  destruct (meta_write LY (ghost s1) _ _ (image_ok d0 s1 B1) Hblk Hr Hnb) as (_ & _ & Hfiles). specialize (Hfiles i1 (gr_file _ _ _ _ _ G1)).
  rewrite <- Hde in Hup. exists s2, i2. split; [done|]. split; [done|]. split_and!; [|done|done| |congruence|lia].
  - split; [apply Hup|done|by rewrite En| |].
    + intros k Hk. rewrite (ptr_deq _ _ Hde i2 i2 eq_refl k k eq_refl). change (ptr ?V i2 k) with (ptr V i1 k). rewrite (proj1 (proj2 Hfiles)). by apply T1.
    + intros o Ho. rewrite Hby2, O1 by (cbn in Ho; lia). cbn in Ho. rewrite decide_False by (fold n; lia). apply Hta. lia.
  - transitivity (patch (contents (ghost s) i) (Z.to_nat (isize i)) p).
    + rewrite <- Hc. unfold contents. apply list_fmap_ext. intros k o Hk. apply lookup_seqZ in Hk as [-> Hk]. apply Hby2. cbn in Hk. lia.
    + unfold patch. rewrite <- length_file with (V := ghost s), take_ge, drop_ge by lia. by rewrite app_nil_r.
Qed.

(** ** The whole image *)

(** The inodes [1], [2], ... hold the files [L]; everything else is empty. *)
Record image (s : mkfs) (L : list (inode * list Z)) : Prop := {
  im_base : base s;
  im_ino : freeinode s = 1 + Z.of_nat (length L);
  im_max : Z.of_nat (length L) < NINODES;
  im_hi : freeblock s = 59 + space L.*2;
  im_sb : img s 1 = patch zeroes 0 (sb_bytes MKFS_SB);
  im_log : forall x, 2 <= x < 32 -> img s x = zeroes;
  im_file : forall k i C, L !! k = Some (i, C) -> stored s i /\ inum i = Z.of_nat k + 1 /\ contents (ghost s) i = C;
  im_disj : forall k k' i j C C', k <> k' -> L !! k = Some (i, C) -> L !! k' = Some (j, C') -> disjoint_files (ghost s) i j;
  im_rest : forall n, freeinode s <= n < NINODES -> dslot (img s) n = replicate 64 0 }.

Lemma image_size s L k i C : image s L -> L !! k = Some (i, C) -> isize i = Z.of_nat (length C).
Proof.
  intros I Hk. destruct (im_file _ _ I k i C Hk) as ([Inv _ _ _ _] & _ & <-). rewrite length_file. pose proof (fi_size _ _ _ Inv). lia.
Qed.

Lemma space_insert L k C C' : L !! k = Some C -> space (<[k := C']> L) = space L - nblk (Z.of_nat (length C)) + nblk (Z.of_nat (length C')).
Proof.
  unfold space. revert k. induction L as [|x L IH]; intros [|k] Hk; [done..| |].
  - injection Hk as ->. change (<[0%nat := C']> (C :: L)) with (C' :: L). cbn [foldr]. lia.
  - change (<[Datatypes.S k := C']> (x :: L)) with (x :: <[k := C']> L). cbn [foldr]. rewrite (IH k Hk). lia.
Qed.

(** What [iappend] to [i] leaves alone. *)
Section step.
Context (s s' : mkfs) (i i' : inode) (Bs : base s) (St : stored s i) (Up : updates W (ghost s) i (ghost s') i').

Lemma step_low x : 0 <= x < 32 -> img s' x = img s x.
Proof.
  intros Hx. rewrite <- !(ghost_img _ x) by lia. pose proof (fi_inum _ _ _ (st_inv _ _ St)) as Hn. apply (up_frame _ _ _ _ _ Up).
  - split_and!; [lia|unfold FSSIZE; cbn; lia|intros (b & Hb & Eb); rewrite image_bitmap in Eb by done; lia| |].
    + intros (q & Hq & Eq & H0). rewrite <- Eq in H0. destruct (fo_ptr _ _ _ (fi_ok _ _ _ (st_inv _ _ St)) q Hq H0) as [Hdat%image_data _]. lia.
    + rewrite image_free by (done || (unfold FSSIZE; lia)). pose proof (bs_hi _ Bs). lia.
  - change (inode_block W i) with (IBLOCK (inum i) MKFS_SB). pose proof (iblock_image (inum i) Hn). lia.
Qed.

Lemma step_slot n : 0 <= n < NINODES -> n <> inum i -> dslot (img s') n = dslot (img s) n.
Proof.
  intros Hn Hne. pose proof (iblock_image n Hn). unfold dslot. rewrite <- !(ghost_img _ (IBLOCK n MKFS_SB)) by lia. by apply (up_slot _ _ _ _ _ Up).
Qed.

Lemma step_other j : stored s j -> disjoint_files (ghost s) i j ->
  stored s' j /\ contents (ghost s') j = contents (ghost s) j /\ disjoint_files (ghost s') i' j.
Proof.
  intros Sj Hd. pose proof Sj as [Inv Ow Hsl Hti Hta]. pose proof (st_inv _ _ St) as Ii.
  destruct (updates_same LY _ _ _ _ _ Ii Up Inv Hd) as [Hp Hby]. destruct (updates_others LY _ _ _ _ _ Ii Up Inv Hd) as (Inv' & Hc & Hd').
  split; [|done]. split; [done|done| | |].
  - rewrite step_slot; [done|apply Inv|apply Hd].
  - intros k Hk. rewrite Hp by done. by apply Hti.
  - intros o Ho. rewrite Hby; [by apply Hta|]. pose proof (fi_size _ _ _ Inv). lia.
Qed.

Lemma step_pair j j' : stored s j -> stored s j' -> disjoint_files (ghost s) i j -> disjoint_files (ghost s) i j' ->
  disjoint_files (ghost s) j j' -> disjoint_files (ghost s') j j'.
Proof.
  intros Sj Sj' Hj Hj' [Hne Hd]. split; [done|]. intros x (k & Hk & E & H0) (k' & Hk' & E' & _).
  rewrite (proj1 (updates_same LY _ _ _ _ _ (st_inv _ _ St) Up (st_inv _ _ Sj') Hj')) in E by done.
  rewrite (proj1 (updates_same LY _ _ _ _ _ (st_inv _ _ St) Up (st_inv _ _ Sj) Hj)) in E' by done.
  apply (Hd x); [by exists k|by exists k'].
Qed.
End step.

Lemma disjoint_sym V i j : disjoint_files V i j -> disjoint_files V j i.
Proof. intros [? Hd]. split; [done|]. intros x Hi Hj. by apply (Hd x). Qed.

Lemma image_append s L k i C p :
  let n := Z.of_nat (length p) in
  let c := Z.of_nat (length C) in
  image s L -> L !! k = Some (i, C) -> c + n <= MAXFILE * BSIZE -> freeblock s + nblk (c + n) - nblk c <= FSSIZE ->
  exists s' i', iappend (Z.of_nat k + 1) p n s = Ret () s' /\ image s' (<[k := (i', C ++ p)]> L) /\
    i' = set_isize (isize i') (set_iaddrs (iaddrs i') i).
Proof.
  intros n c I Hk Hmax Hroom. pose proof (image_size _ _ _ _ _ I Hk) as Hsz. pose proof I as [Bs Hino Hlen Hhi Hsb Hlog Hf Hd Hr].
  destruct (Hf k i C Hk) as (St & Hn & Hc). rewrite <- Hn. fold c in Hsz. rewrite <- Hsz in Hmax, Hroom.
  destruct (iappend_run s i p Bs St Hmax Hroom) as (s' & i' & E & B' & St' & Up & Hs' & Hc' & I' & H').
  pose proof (up_inode _ _ _ _ _ Up) as Ei. exists s', i'. split; [done|]. split; [|done]. pose proof (lookup_lt_Some _ _ _ Hk) as Hkl.
  assert (inum i' = inum i) as En by (by rewrite Ei).
  split; [done|by rewrite length_insert, I'|by rewrite length_insert| | | | | |].
  - rewrite list_fmap_insert, (space_insert _ k C) by (by rewrite list_lookup_fmap, Hk). cbn [snd]. rewrite length_app, Nat2Z.inj_add. fold c. rewrite <- Hsz. lia.
  - by rewrite (step_low s s' i i').
  - intros x Hx. rewrite (step_low s s' i i') by (done || lia). by apply Hlog.
  - intros k' j C' Hk'. destruct (decide (k' = k)) as [->|Hne].
    + rewrite list_lookup_insert_eq in Hk' by done. injection Hk' as <- <-. split; [done|]. split; [by rewrite En|by rewrite Hc', Hc].
    + rewrite list_lookup_insert_ne in Hk' by done. destruct (Hf _ _ _ Hk') as (Sj & Hnj & Hcj).
      destruct (step_other s s' i i' St Up j Sj) as (? & Hcj' & _); [by apply (Hd k k' i j C C')|]. split; [done|]. by rewrite Hcj'.
  - intros k1 k2 j1 j2 C1 C2 Hne Hk1 Hk2. clear Ei.
    destruct (decide (k1 = k)) as [->|Hn1]; [|destruct (decide (k2 = k)) as [->|Hn2]].
    + rewrite list_lookup_insert_eq in Hk1 by done. rewrite list_lookup_insert_ne in Hk2 by done. injection Hk1 as <- <-.
      apply (step_other s s' i i' St Up j2); [by eapply Hf|by apply (Hd k k2 i j2 C C2)].
    + rewrite list_lookup_insert_eq in Hk2 by done. rewrite list_lookup_insert_ne in Hk1 by done. injection Hk2 as <- <-.
      apply disjoint_sym, (step_other s s' i i' St Up j1); [by eapply Hf|by apply (Hd k k1 i j1 C C1)].
    + rewrite !list_lookup_insert_ne in Hk1, Hk2 by done.
      apply (step_pair s s' i i' St Up); [by eapply Hf..|by apply (Hd k k1 i j1 C C1)|by apply (Hd k k2 i j2 C C2)|by apply (Hd k1 k2 j1 j2 C1 C2)].
  - intros m Hm. rewrite (step_slot s s' i i'); [apply Hr; lia|done|lia|lia].
Qed.

(** Writing the record of another inode. *)
Lemma stored_meta s n d j : base s -> 0 <= n < NINODES -> length d = 64%nat -> stored s j -> inum j <> n ->
  let s' := write_img (IBLOCK n MKFS_SB) (patch (img s (IBLOCK n MKFS_SB)) (dinode_off n) d) s in
  stored s' j /\ contents (ghost s') j = contents (ghost s) j /\ forall k, ptr (ghost s') j k = ptr (ghost s) j k.
Proof.
  intros Bs Hn Hd [Inv Ow Hsl Hti Hta] Hne s'. destruct (winode_run s n d Bs Hn Hd) as (_ & _ & _ & Hblk & Hoth). fold s' in Hoth.
  pose proof Inv as [Fo Hs Hsol Hty Hin Hod]. destruct (iblock_range LY n Hn) as (_ & _ & Hr & Hnb). pose proof (iblock_image n Hn) as Hib.
  destruct (meta_write LY (ghost s) _ _ (image_ok d0 s Bs) Hblk Hr Hnb) as (_ & _ & Hfiles). destruct (Hfiles j Fo) as (Fo' & Hp & Hby).
  assert (deq (ghost s') (disk_upd (ghost s) (IBLOCK n MKFS_SB) (patch (img s (IBLOCK n MKFS_SB)) (dinode_off n) d))) as Hde by (apply ghost_write; lia).
  change (w_sb W) with MKFS_SB in *. rewrite <- Hde in Fo'. assert (forall k, ptr (ghost s') j k = ptr (ghost s) j k) as Hp' by (intros k; by rewrite Hde).
  assert (forall o, 0 <= o < MAXFILE * BSIZE -> fbyte (ghost s') j o = fbyte (ghost s) j o) as Hby' by (intros o Ho; rewrite Hde; auto).
  assert (dslot (img s') (inum j) = dslot (img s) (inum j)) as Eds by (by apply Hoth). split; [split|split; [|done]].
  - split; [done|done| |done|done|].
    + intros o Ho. rewrite Hp'. by apply Hsol.
    + unfold on_disk in *. change (inode_block W j) with (IBLOCK (inum j) MKFS_SB) in *. pose proof (iblock_image _ Hin). rewrite ghost_img in * by lia.
      by rewrite (get_dinode_ext _ (img s (IBLOCK (inum j) MKFS_SB))).
  - done.
  - by rewrite Eds.
  - intros k Hk. rewrite Hp'. by apply Hti.
  - intros o Ho. rewrite Hby'; [by apply Hta|lia].
  - unfold contents. apply list_fmap_ext. intros k o Hk. apply lookup_seqZ in Hk as [-> Hk]. apply Hby'. lia.
Qed.

(** The inode that [ialloc] writes. *)
Definition new_inode (type n : Z) : inode :=
  mkInode ROOTDEV n 0 (mkSleeplock 0 0) 0 type 0 0 1 0 MKFS_PERM root_owner (replicate 8 0).

Lemma new_inode_ptr V type n k : ptr V (new_inode type n) k = 0.
Proof. unfold ptr. destruct (Nat.leb_spec k IND) as [Hk|]; [|done]. apply lookup_total_replicate_2. unfold IND in Hk. lia. Qed.

Lemma new_inode_typed type n : type = T_FILE \/ type = T_DIR -> inode_typed (new_inode type n).
Proof.
  intros Ht. split; [|by vm_compute|done|split; [done|]].
  - unfold short. cbn. destruct Ht as [-> | ->]; unfold T_FILE, T_DIR; lia.
  - apply Forall_replicate. unfold uint. lia.
Qed.

Lemma enc_on_disk s i : base s -> 0 <= inum i < NINODES -> inode_typed i -> iowner i = root_owner ->
  strncpy_l 15 (sub (dslot (img s) (inum i)) 16 16) root_owner = root_owner ->
  on_disk W (ghost (write_img (IBLOCK (inum i) MKFS_SB) (patch (img s (IBLOCK (inum i) MKFS_SB)) (dinode_off (inum i)) (enc i)) s)) i.
Proof.
  intros Bs Hn T Ho Hs. pose proof (iblock_image _ Hn) as Hib. unfold on_disk. change (inode_block W i) with (IBLOCK (inum i) MKFS_SB).
  rewrite ghost_img by lia. cbn [img write_img]. rewrite disk_upd_eq. rewrite <- (put_enc s i i); [|done..|].
  - apply get_put_dinode; [apply (bs_len _ Bs); unfold FSSIZE; lia|apply dinode_fits|done].
  - unfold dslot in Hs. by rewrite sub_sub in Hs by lia.
Qed.

Lemma new_inode_stored s type n : base s -> 0 <= n < NINODES -> type = T_FILE \/ type = T_DIR -> dslot (img s) n = replicate 64 0 ->
  let i := new_inode type n in
  let s' := write_img (IBLOCK n MKFS_SB) (patch (img s (IBLOCK n MKFS_SB)) (dinode_off n) (enc i)) s in
  stored s' i /\ contents (ghost s') i = [].
Proof.
  intros Bs Hn Ht Hz i s'. pose proof (new_inode_typed type n Ht) as T. fold i in T. pose proof (iblock_image n Hn) as Hib.
  destruct (winode_run s n (enc i) Bs Hn (length_enc_root i T)) as (_ & B' & Hsl & Hblk & _). fold s' in B', Hsl. split; [|done].
  pose proof (fun V k => new_inode_ptr V type n k) as Hp0. fold i in Hp0. split; [split| | | |].
  - split; [done|done|intros k _ H0; by rewrite Hp0 in H0|intros k k' _ _ H0; by rewrite Hp0 in H0].
  - split; [done|by apply Z.mul_nonneg_nonneg].
  - intros o Ho. cbn in Ho. lia.
  - done.
  - done.
  - apply (enc_on_disk s i); [done|done|done|done|]. change (inum i) with n. by rewrite Hz.
  - done.
  - done.
  - intros k Hk. rewrite Hp0. unfold need. cbn [isize i new_inode]. destruct (Nat.leb_spec k IND); unfold IND in *; lia.
  - intros o _. unfold fbyte. by rewrite Hp0.
Qed.

Lemma new_dinode_enc type n : type = T_FILE \/ type = T_DIR -> new_dinode type = enc (new_inode type n).
Proof. intros [-> | ->]; reflexivity. Qed.

Lemma space_app L L' : space (L ++ L') = space L + space L'.
Proof. unfold space. induction L as [|C L IH]; cbn [foldr app]; lia. Qed.

Lemma image_ialloc s L type : image s L -> Z.of_nat (length L) + 1 < NINODES -> type = T_FILE \/ type = T_DIR ->
  let n := Z.of_nat (length L) + 1 in
  exists s', ialloc type s = Ret n s' /\ image s' (L ++ [(new_inode type n, [])]).
Proof.
  intros I Hlen Ht n. pose proof I as [Bs Hino _ Hhi Hsb Hlog Hf Hd Hr]. unfold NINODES in Hlen.
  unfold ialloc. rewrite bind_gets, bind_modify, u32_small by lia. rewrite (new_dinode_enc type n Ht).
  set (s1 := set_freeinode (freeinode s + 1) s). assert (base s1) as B1 by (by destruct Bs).
  pose proof (new_inode_typed type n Ht) as T. replace (freeinode s) with n by lia.
  destruct (winode_run s1 n (enc (new_inode type n)) B1 ltac:(unfold NINODES; lia) (length_enc_root _ T)) as (E & B2 & Hsl & Hblk & Hoth).
  set (s2 := write_img _ _ _) in *. rewrite (bind_ret _ _ _ _ _ E). exists s2. split; [done|].
  assert (forall k j C, L !! k = Some (j, C) -> inum j = Z.of_nat k + 1 /\ inum j <> n /\ stored s2 j /\ contents (ghost s2) j = C /\ forall q, ptr (ghost s2) j q = ptr (ghost s) j q) as Hold.
  { intros k j C Hk. destruct (Hf k j C Hk) as (Sj & Hnj & Hc). pose proof (lookup_lt_Some _ _ _ Hk). assert (inum j <> n) as Hne by lia. assert (stored s1 j) as S1 by (by destruct Sj).
    destruct (stored_meta s1 n (enc (new_inode type n)) j B1 ltac:(unfold NINODES; lia) (length_enc_root _ T) S1 Hne) as (? & Hc2 & ?).
    split_and!; try done. by rewrite <- Hc. }
  destruct (new_inode_stored s1 type n B1 ltac:(unfold NINODES; lia) Ht) as [Snew Cnew]; [apply (Hr n); unfold NINODES; lia|]. fold s2 in Snew, Cnew.
  assert (forall x, 0 <= x < 32 -> img s2 x = img s x) as Hlow.
  { intros x Hx. unfold s2. cbn [img write_img]. pose proof (iblock_image n ltac:(unfold NINODES; lia)). by rewrite disk_upd_ne by lia. }
  split; [done|rewrite length_app; cbn; lia|rewrite length_app; unfold NINODES; cbn; lia| |by rewrite Hlow| | | |].
  - rewrite fmap_app, space_app. change (freeblock s2) with (freeblock s). change (space ([(new_inode type n, [])].*2)) with 0. lia.
  - intros x Hx. rewrite Hlow by lia. by apply Hlog.
  - intros k j C [Hk|[Hk Hj]]%lookup_app_Some; [by destruct (Hold k j C Hk) as (? & ? & ? & ? & ?)|].
    apply list_lookup_singleton_Some in Hj as [Hj [= <- <-]]. split; [done|]. split; [cbn; lia|done].
  - assert (forall k j C, L !! k = Some (j, C) -> disjoint_files (ghost s2) j (new_inode type n)) as Hnew.
    { intros k j C Hk. destruct (Hold k j C Hk) as (_ & Hne & _). split; [cbn; congruence|]. intros x (q & _ & E0 & Hx0). by rewrite new_inode_ptr in E0. }
    intros k k' i j C C' Hne [Hk|[Hk Hj]]%lookup_app_Some [Hk'|[Hk' Hj']]%lookup_app_Some;
      try (apply list_lookup_singleton_Some in Hj as [Hj [= <- <-]]); try (apply list_lookup_singleton_Some in Hj' as [Hj' [= <- <-]]).
    + destruct (Hd k k' i j C C' Hne Hk Hk') as [? Hdis]. split; [done|]. destruct (Hold k i C Hk) as (_ & _ & _ & _ & Hp).
      destruct (Hold k' j C' Hk') as (_ & _ & _ & _ & Hp'). intros x (q & Hq & E1 & Hx0) (q' & Hq' & E2 & _). rewrite Hp' in E1. rewrite Hp in E2.
      apply (Hdis x); [by exists q|by exists q'].
    + by eapply Hnew.
    + apply disjoint_sym. by eapply Hnew.
    + lia.
  - intros m Hm. change (freeinode s2) with (freeinode s + 1) in Hm. rewrite Hoth by lia. apply Hr. lia.
Qed.

(** ** The files *)

(** [iappend] changes the size and the blocks of an inode only. *)
Definition keeps (i i' : inode) : Prop := i' = set_isize (isize i') (set_iaddrs (iaddrs i') i).

Lemma keeps_trans i i' i'' : keeps i i' -> keeps i' i'' -> keeps i i''.
Proof. unfold keeps. intros -> ->. done. Qed.

Lemma space_hi s L k i C : image s L -> L !! k = Some (i, C) -> forall C',
  space (<[k := C']> L.*2) = freeblock s - 59 - nblk (Z.of_nat (length C)) + nblk (Z.of_nat (length C')).
Proof. intros I Hk C'. rewrite (space_insert _ k C) by (by rewrite list_lookup_fmap, Hk). rewrite (im_hi _ _ I). lia. Qed.

Lemma copy_file_run reads s L k i C :
  let c := Z.of_nat (length C) in
  let n := Z.of_nat (length (concat reads)) in
  image s L -> L !! k = Some (i, C) -> Forall (fun b => b <> []) reads ->
  c + n <= MAXFILE * BSIZE -> freeblock s + nblk (c + n) - nblk c <= FSSIZE ->
  exists s' i', copy_file (Z.of_nat k + 1) reads s = Ret () s' /\ image s' (<[k := (i', C ++ concat reads)]> L) /\ keeps i i'.
Proof.
  revert s L i C. induction reads as [|b reads IH]; intros s L i C c n I Hk Hne Hmax Hroom.
  { exists s, i. split; [done|]. cbn [concat]. rewrite app_nil_r, list_insert_id by done. split; [done|]. by destruct i. }
  apply Forall_cons in Hne as [Hb Hne]. assert (n = Z.of_nat (length b) + Z.of_nat (length (concat reads))) as En by (unfold n; cbn [concat]; rewrite length_app; lia).
  cbn [copy_file]. rewrite (proj2 (Z.ltb_lt _ _)) by (destruct b; [done|cbn; lia]).
  pose proof (nblk_mono (c + Z.of_nat (length b)) (c + n) ltac:(lia)).
  destruct (image_append s L k i C b I Hk) as (s1 & i1 & E1 & I1 & K1); [lia|fold c; lia|]. rewrite (bind_ret _ _ _ _ _ E1).
  pose proof (lookup_lt_Some _ _ _ Hk). pose proof (im_hi _ _ I1) as Hhi. rewrite list_fmap_insert in Hhi. cbn [snd] in Hhi.
  rewrite (space_hi _ _ _ _ _ I Hk), length_app, Nat2Z.inj_add in Hhi. fold c in Hhi.
  destruct (IH s1 (<[k:=(i1, C ++ b)]> L) i1 (C ++ b)) as (s2 & i2 & E2 & I2 & K2); try done.
  - by apply list_lookup_insert_eq.
  - rewrite length_app. lia.
  - rewrite length_app, Nat2Z.inj_add. fold c. rewrite <- Z.add_assoc, <- En. lia.
  - exists s2, i2. rewrite list_insert_insert_eq, <- app_assoc in I2. split; [done|]. split; [done|]. by eapply keeps_trans.
Qed.

Lemma new_dirent_mk n name : 0 <= n < 2 ^ 16 -> new_dirent n (strncpy_l DIRSIZ (replicate DIRSIZ 0) name) = mk_dirent name n.
Proof.
  intros Hn. assert (xshort n = n) as E.
  { unfold xshort. rewrite <- (app_nil_r (half_bytes n)), half_at_cons. by apply Z.mod_small. }
  unfold new_dirent, mk_dirent. rewrite E. unfold patch. rewrite drop_ge; [by rewrite app_nil_r|]. rewrite length_strncpy_l by done. apply (Nat.le_refl 16).
Qed.

(** The host has the file [arg], with the contents [f]. *)
Definition host_file (arg f : list Z) : Prop :=
  (47 ∉ arg) /\ Z.of_nat (length f) <= MAXFILE * BSIZE /\
  exists reads, host_open arg = Some reads /\ Forall (fun b => b <> []) reads /\ concat reads = f.

Lemma add_file_run s root D Fs arg f :
  let n := Z.of_nat (length Fs) + 2 in
  image s ((root, D) :: Fs) -> host_file arg f -> n < NINODES -> Z.of_nat (length D) + 16 <= MAXFILE * BSIZE ->
  59 + nblk (Z.of_nat (length D) + 16) + space Fs.*2 + nblk (Z.of_nat (length f)) <= FSSIZE ->
  exists s' root' i, add_file ROOTINO arg s = Ret () s' /\
    image s' ((root', D ++ mk_dirent (image_name arg) n) :: Fs ++ [(i, f)]) /\ keeps root root' /\ keeps (new_inode T_FILE n) i.
Proof.
  intros n I (Hsl & Hfm & reads & Ho & Hne & Hc) Hn Hdm Hroom. unfold add_file. rewrite bool_decide_false, Ho by done. cbv zeta.
  unfold NINODES in Hn. assert (0 <= nblk (Z.of_nat (length f))) as Hf0 by (apply (nblk_mono 0); lia).
  destruct (image_ialloc s _ T_FILE I) as (s1 & E1 & I1); [unfold NINODES; cbn [length]; lia|by left|].
  replace (Z.of_nat (length ((root, D) :: Fs)) + 1) with n in E1, I1 by (cbn [length]; lia).
  rewrite (bind_ret _ _ _ _ _ E1), new_dirent_mk by lia. pose proof (im_hi _ _ I1) as H1.
  rewrite fmap_app, space_app in H1. change (space [(new_inode T_FILE n, [])].*2) with 0 in H1. change (space ((root, D) :: Fs).*2) with (nblk (Z.of_nat (length D)) + space Fs.*2) in H1.
  destruct (image_append s1 _ 0 root D (mk_dirent (image_name arg) n) I1) as (s2 & root2 & E2 & I2 & K2); [done|rewrite length_mk_dirent; change (Z.of_nat 16) with 16; lia..|].
  change (Z.of_nat 0 + 1) with ROOTINO in E2. rewrite length_mk_dirent in E2. change (Z.of_nat 16) with DIRENT_SIZE in E2.
  rewrite (bind_ret _ _ _ _ _ E2). change (<[0%nat:=?x]> (((root, D) :: Fs) ++ ?l)) with (x :: Fs ++ l) in I2. pose proof (im_hi _ _ I2) as H2.
  set (D' := D ++ mk_dirent (image_name arg) n) in *. assert (length D' = length D + 16)%nat as HD' by (unfold D'; by rewrite length_app, length_mk_dirent).
  assert (space ((root2, D') :: Fs ++ [(new_inode T_FILE n, [])]).*2 = nblk (Z.of_nat (length D')) + space Fs.*2) as Esp.
  { rewrite fmap_cons, fmap_app. cbn [space foldr]. fold (space (Fs.*2 ++ [(new_inode T_FILE n, [])].*2)). rewrite space_app. change (space [(new_inode T_FILE n, [])].*2) with 0. cbn [snd]. lia. }
  destruct (copy_file_run reads s2 _ (Datatypes.S (length Fs)) (new_inode T_FILE n) [] I2) as (s3 & i3 & E3 & I3 & K3); [|done| | |].
  - rewrite lookup_cons_ne_0 by done. by rewrite lookup_app_r, Nat.sub_diag by done.
  - rewrite Hc. cbn. lia.
  - rewrite Hc. cbn [length]. rewrite H2, Esp, HD', Nat2Z.inj_add. change (Z.of_nat 16) with 16. change (Z.of_nat 0) with 0. change (nblk 0) with 0. rewrite Z.add_0_l. lia.
  - exists s3, root2, i3. replace n with (Z.of_nat (Datatypes.S (length Fs)) + 1) at 1 by lia. split; [done|]. rewrite Hc in I3.
    change (<[Datatypes.S ?k := ?x]> (?a :: ?l)) with (a :: <[k := x]> l) in I3. rewrite insert_app_r_alt, Nat.sub_diag in I3 by done. done.
Qed.

Lemma space_nonneg L : 0 <= space L.
Proof. unfold space. induction L as [|C L IH]; cbn [foldr]; [done|]. pose proof (nblk_mono 0 (Z.of_nat (length C)) ltac:(lia)). change (nblk 0) with 0 in *. lia. Qed.

Lemma add_files_run args files s root D Fs :
  let n := Z.of_nat (length Fs) + 2 in
  let m := Z.of_nat (length args) in
  image s ((root, D) :: Fs) -> Forall2 host_file args files -> n + m <= NINODES -> Z.of_nat (length D) + 16 * m <= MAXFILE * BSIZE ->
  59 + nblk (Z.of_nat (length D) + 16 * m) + space Fs.*2 + space files <= FSSIZE ->
  exists s' root' Gs, for_each args (add_file ROOTINO) s = Ret () s' /\ image s' ((root', D ++ entries n args) :: Fs ++ Gs) /\
    keeps root root' /\ Gs.*2 = files /\ forall k i f, Gs !! k = Some (i, f) -> keeps (new_inode T_FILE (n + Z.of_nat k)) i.
Proof.
  intros n m I Hf. revert s root D Fs n m I. induction Hf as [|arg f args files Ha Hf IH]; intros s root D Fs n m I Hn Hm Hroom.
  { exists s, root, []. cbn [entries]. rewrite !app_nil_r. split; [done|]. split; [done|]. split; [by destruct root|]. done. }
  assert (m = Z.of_nat (length args) + 1) as Em by (unfold m; cbn [length]; lia). change (space (f :: files)) with (nblk (Z.of_nat (length f)) + space files) in Hroom.
  pose proof (nblk_mono (Z.of_nat (length D) + 16) (Z.of_nat (length D) + 16 * m) ltac:(lia)). pose proof (space_nonneg files).
  destruct (add_file_run s root D Fs arg f I Ha) as (s1 & root1 & i1 & E1 & I1 & K1 & Ki); [fold n; lia|lia|lia|]. fold n in I1, Ki.
  set (D1 := D ++ mk_dirent (image_name arg) n) in *. assert (length D1 = length D + 16)%nat as HD1 by (unfold D1; by rewrite length_app, length_mk_dirent).
  destruct (IH s1 root1 D1 (Fs ++ [(i1, f)]) I1) as (s2 & root2 & Gs & E2 & I2 & K2 & Hg & Hk).
  - rewrite length_app. cbn [length]. lia.
  - rewrite HD1. lia.
  - rewrite HD1, fmap_app, space_app. change (space [(i1, f)].*2) with (nblk (Z.of_nat (length f)) + 0).
    replace (Z.of_nat (length D + 16) + 16 * Z.of_nat (length args)) with (Z.of_nat (length D) + 16 * m) by lia. lia.
  - replace (Z.of_nat (length (Fs ++ [(i1, f)])) + 2) with (n + 1) in * by (rewrite length_app; cbn [length]; lia).
    exists s2, root2, ((i1, f) :: Gs). cbn [for_each entries]. rewrite (bind_ret _ _ _ _ _ E1). split; [done|].
    unfold D1 in I2. rewrite <- !app_assoc in I2. split; [done|]. split; [by eapply keeps_trans|]. split; [cbn; by rewrite Hg|].
    intros [|k] i g Hk'; [injection Hk' as <- <-; by rewrite Z.add_0_r|]. replace (n + Z.of_nat (Datatypes.S k)) with (n + 1 + Z.of_nat k) by lia. by eapply Hk.
Qed.

(** ** [main] *)

Lemma zero_loop_run l s : Forall (fun b => 0 <= b < FSSIZE) l -> (forall x, img s x = zeroes) ->
  exists s', for_each l (fun i => wsect i zeroes) s = Ret () s' /\ (forall x, img s' x = zeroes) /\
    nsec s' = foldl (fun n i => Z.max n (i + 1)) (nsec s) l /\ msb s' = msb s /\ freeinode s' = freeinode s /\ freeblock s' = freeblock s.
Proof.
  intros Hl. revert s. induction Hl as [|b l Hb Hl IH]; intros s Hz; [by exists s|]. cbn [for_each foldl].
  rewrite (bind_ret _ _ _ _ _ (wsect_run Hwrite s b zeroes Hb)). destruct (IH (write_img b zeroes s)) as (s' & E & Hz' & Hn & Hr); [|by exists s'].
  intros x. cbn [img write_img]. unfold disk_upd. by destruct (x =? b).
Qed.

Lemma image_zero s : (forall x, img s x = zeroes) -> nsec s = FSSIZE -> msb s = MKFS_SB -> freeinode s = 1 -> freeblock s = 59 ->
  image (write_img 1 (patch zeroes 0 (sb_bytes MKFS_SB)) s) [].
Proof.
  intros Hz Hn Hs Hi Hb. set (d := patch _ _ _). assert (base s) as Bs.
  { split; [done|done|rewrite Hb; unfold FSSIZE; lia| |done]. intros x _. by rewrite Hz. }
  assert (is_block d) as Hd by done. pose proof (base_write s 1 d Bs Hd ltac:(lia)) as B1. split; [done|done|done|done| | | | |].
  - done.
  - intros x Hx. cbn [img write_img]. by rewrite disk_upd_ne by lia.
  - done.
  - done.
  - intros m Hm. change (freeinode _) with (freeinode s) in Hm. pose proof (iblock_image m ltac:(lia)). unfold dslot. cbn [img write_img]. rewrite disk_upd_ne, Hz by lia.
    unfold sub, zeroes. pose proof (dinode_fits m). rewrite drop_replicate, take_replicate. f_equal. lia.
Qed.

Lemma length_entries n args : length (entries n args) = (16 * length args)%nat.
Proof. revert n. induction args as [|a args IH]; intros n; cbn [entries length]; [done|]. rewrite length_app, length_mk_dirent, IH. lia. Qed.
Lemma length_root_entries args : length (root_entries args) = (16 * (2 + length args))%nat.
Proof. unfold root_entries. rewrite !length_app, !length_mk_dirent, length_entries. lia. Qed.

(** What the image needs: inodes and blocks for all the files. *)
Record fits (args files : list (list Z)) : Prop := {
  ft_host : Forall2 host_file args files;
  ft_inodes : Z.of_nat (length args) + 2 <= NINODES;
  ft_blocks : 59 + nblk (16 * (2 + Z.of_nat (length args))) + space files <= FSSIZE }.

Lemma root_append s r D p : image s [(r, D)] -> length p = 16%nat -> (length D <= 16)%nat ->
  exists s' r', iappend ROOTINO p DIRENT_SIZE s = Ret () s' /\ image s' [(r', D ++ p)] /\ keeps r r'.
Proof.
  intros I Hp HD. pose proof (im_hi _ _ I) as Hh. change (space [(r, D)].*2) with (nblk (Z.of_nat (length D)) + 0) in Hh.
  pose proof (nblk_mono (Z.of_nat (length D) + 16) 32 ltac:(lia)) as Hm. change (nblk 32) with 1 in Hm.
  destruct (image_append s [(r, D)] 0 r D p I) as (s' & r' & E & I' & K); [done|rewrite Hp; change (MAXFILE * BSIZE) with 69120; lia| |].
  - rewrite Hp. change (Z.of_nat 16) with 16. unfold FSSIZE. lia.
  - exists s', r'. rewrite Hp in E. done.
Qed.

Lemma main_files prog name args files : host_create name = true -> fits args files ->
  exists s root Gs, image s ((root, root_entries args) :: Gs) /\ keeps (new_inode T_DIR ROOTINO) root /\ Gs.*2 = files /\
    (forall k i f, Gs !! k = Some (i, f) -> keeps (new_inode T_FILE (2 + Z.of_nat k)) i) /\
    main (prog :: name :: args) mkfs_boot = (fix_root ROOTINO ;;; let* s := get in balloc (freeblock s)) s.
Proof.
  intros Hc [Hf Hn Hb]. unfold main. cbn [length Nat.ltb Nat.leb]. change ((BSIZE mod DINODE_SIZE =? 0) && (BSIZE mod DIRENT_SIZE =? 0)) with true.
  change ((prog :: name :: args) !!! 1%nat) with name. rewrite Hc. cbn [negb]. cbv zeta. rewrite !bind_modify.
  set (s0 := set_freeblock _ _). destruct (zero_loop_run (seqZ 0 FSSIZE) s0) as (s1 & E1 & Hz & Hs1 & Hsb & Hi & Hh); [by apply Forall_forall; intros b ?%elem_of_seqZ|done|].
  rewrite (bind_ret _ _ _ _ _ E1), bind_get. change (msb s0) with MKFS_SB in Hsb. rewrite Hsb.
  pose proof (wsect_run Hwrite s1 1 (patch zeroes 0 (sb_bytes MKFS_SB)) ltac:(unfold FSSIZE; lia)) as Ew. rewrite (bind_ret _ _ _ _ _ Ew).
  pose proof (image_zero s1 Hz ltac:(rewrite Hs1; vm_compute; reflexivity) Hsb Hi Hh) as I1. set (s2 := write_img 1 _ s1) in *.
  destruct (image_ialloc s2 [] T_DIR I1) as (s3 & E3 & I3); [unfold NINODES; cbn [length]; lia|by right|]. change (Z.of_nat (length []) + 1) with ROOTINO in E3.
  rewrite (bind_ret _ _ _ _ _ E3). change (negb (ROOTINO =? ROOTINO)) with false. cbn iota.
  change (new_dirent ROOTINO [46; 0]) with (mk_dirent [46] ROOTINO). change (new_dirent ROOTINO [46; 46; 0]) with (mk_dirent [46; 46] ROOTINO).
  destruct (root_append s3 _ [] (mk_dirent [46] ROOTINO) I3) as (s4 & r4 & E4 & I4 & K4); [apply length_mk_dirent|cbn; lia|]. rewrite (bind_ret _ _ _ _ _ E4).
  destruct (root_append s4 _ _ (mk_dirent [46; 46] ROOTINO) I4) as (s5 & r5 & E5 & I5 & K5); [apply length_mk_dirent|apply (Nat.le_refl 16)|]. rewrite (bind_ret _ _ _ _ _ E5).
  set (D := ([] ++ mk_dirent [46] ROOTINO) ++ mk_dirent [46; 46] ROOTINO) in *. assert (length D = 32%nat) as HD by reflexivity.
  assert (Z.of_nat (length D) + 16 * Z.of_nat (length args) = 16 * (2 + Z.of_nat (length args))) as Ed by (rewrite HD; lia).
  destruct (add_files_run args files s5 r5 D [] I5 Hf) as (s6 & r6 & Gs & E6 & I6 & K6 & Hg & Hk).
  - unfold NINODES in *. cbn [length]. lia.
  - rewrite Ed. change (MAXFILE * BSIZE) with 69120. unfold NINODES in Hn. lia.
  - rewrite Ed. change (space (fmap snd [])) with 0. lia.
  - change (drop 2 (prog :: name :: args)) with args. rewrite (bind_ret _ _ _ _ _ E6). exists s6, r6, Gs.
    unfold D in I6. rewrite <- app_assoc in I6. split; [exact I6|]. split; [|split; [exact Hg|split; [exact Hk|reflexivity]]].
    apply (keeps_trans _ r4); [exact K4|by apply (keeps_trans _ r5)].
Qed.

Lemma dirent_cons e C k : length e = 16%nat -> dirent (e ++ C) (Datatypes.S k) = dirent C k.
Proof. intros He. unfold dirent. replace (16 * Datatypes.S k)%nat with (length e + 16 * k)%nat by lia. apply sub_app_r. Qed.
Lemma dirent_head e C : length e = 16%nat -> dirent (e ++ C) 0 = e.
Proof. intros He. unfold dirent, sub. cbn. rewrite <- He. apply take_app_length. Qed.

Lemma dirent_entries n args C k arg : args !! k = Some arg -> dirent (entries n args ++ C) k = mk_dirent (image_name arg) (n + Z.of_nat k).
Proof.
  revert n k. induction args as [|a args IH]; intros n [|k] Hk; [done..| |]; cbn [entries]; rewrite <- app_assoc.
  - injection Hk as ->. rewrite dirent_head by apply length_mk_dirent. by rewrite Z.add_0_r.
  - rewrite dirent_cons by apply length_mk_dirent. rewrite (IH (n + 1) k Hk). f_equal. lia.
Qed.

Lemma dirent_root args C k name : root_names args !! k = Some name ->
  dirent (root_entries args ++ C) k = mk_dirent name (Z.max 1 (Z.of_nat k)).
Proof.
  intros Hk. unfold root_entries. rewrite <- !app_assoc. destruct k as [|[|k]]; [injection Hk as <-; by apply dirent_head|injection Hk as <-|].
  - rewrite dirent_cons by apply length_mk_dirent. by apply dirent_head.
  - rewrite !dirent_cons by apply length_mk_dirent. change ((image_name <$> args) !! k = Some name) in Hk.
    apply list_lookup_fmap_Some in Hk as (arg & -> & Ha). rewrite (dirent_entries 2 args C k arg Ha). f_equal. lia.
Qed.

(** Looking up a name in the root directory. *)
Lemma dir_find_root args m k name :
  NoDup (name_of <$> root_names args) -> Z.of_nat (length args) + 2 <= NINODES -> root_names args !! k = Some name ->
  dir_find name (root_entries args ++ replicate m 0) = Some (k, Z.max 1 (Z.of_nat k)).
Proof.
  intros Hnd Hn Hk. set (C := root_entries args ++ replicate m 0). pose proof (lookup_lt_Some _ _ _ Hk) as Hlt. cbn in Hlt. rewrite length_fmap in Hlt.
  unfold NINODES in Hn.
  assert (forall j nm, root_names args !! j = Some nm -> binds name (dirent C j) = bool_decide (name_of name = name_of nm)) as Hb.
  { intros j nm Hj. pose proof (lookup_lt_Some _ _ _ Hj) as Hjl. cbn in Hjl. rewrite length_fmap in Hjl. unfold binds, C.
    rewrite (dirent_root args _ j nm Hj), mk_dirent_inum, mk_dirent_name by lia. by rewrite (proj2 (Z.eqb_neq _ _)) by lia. }
  unfold dir_find. assert (exists r, length C / 16 = k + (1 + r))%nat as [r ->].
  { exists (length C / 16 - (k + 1))%nat. assert (2 + length args <= length C / 16)%nat; [|lia]. apply Nat.div_le_lower_bound; [done|].
    unfold C. rewrite length_app, length_root_entries. lia. }
  rewrite find_from_app, (proj2 (find_from_none name C 0 k)).
  - cbn [Nat.add find_from]. rewrite (Hb k name Hk), bool_decide_true by done. unfold C. rewrite (dirent_root args _ k name Hk), mk_dirent_inum by lia. done.
  - intros j Hj. destruct (lookup_lt_is_Some_2 (root_names args) j) as [nm Hnm]; [cbn; rewrite length_fmap; lia|]. rewrite (Hb j nm Hnm).
    apply bool_decide_false. intros E. assert (j = k); [|lia]. apply (NoDup_lookup _ _ _ (name_of name) Hnd); rewrite list_lookup_fmap; [by rewrite Hnm, E|by rewrite Hk].
Qed.

Lemma round_up_bounds n : 0 <= n -> n < round_up n <= n + BSIZE /\ (n mod BSIZE <> 0 -> forall o, o < round_up n -> o / BSIZE * BSIZE < n) /\
  (n mod BSIZE = 0 -> n / BSIZE * BSIZE = n).
Proof.
  intros Hn. unfold round_up, BSIZE. pose proof (Z.div_mod n 512 ltac:(done)). pose proof (Z.mod_pos_bound n 512 ltac:(done)). split; [lia|]. split; [|lia].
  intros Hm o Ho. pose proof (Z.div_lt_upper_bound o 512 (n / 512 + 1) ltac:(done) ltac:(lia)). lia.
Qed.

Lemma contents_extend V V' i size :
  0 <= isize i <= size -> (forall o, 0 <= o < size -> fbyte V' i o = fbyte V i o) -> (forall o, isize i <= o < size -> fbyte V i o = 0) ->
  contents V' (set_isize size i) = contents V i ++ replicate (Z.to_nat (size - isize i)) 0.
Proof.
  intros Hs Hb Hz. unfold contents. cbn [isize set_isize]. change (fbyte V' (set_isize size i)) with (fbyte V' i). replace size with (isize i + (size - isize i)) at 1 by lia. rewrite seqZ_app, fmap_app by lia. f_equal.
  - apply list_fmap_ext. intros k o Hk. apply lookup_seqZ in Hk as [-> Hk]. apply Hb. lia.
  - apply list_eq. intros k. rewrite list_lookup_fmap. destruct (decide (Z.of_nat k < size - isize i)) as [Hk|Hk].
    + rewrite lookup_seqZ_lt, lookup_replicate_2 by lia. cbn [fmap option_fmap option_map]. f_equal.
      rewrite Hb, Hz by lia. done.
    + rewrite lookup_seqZ_ge by lia. symmetry. apply lookup_ge_None. rewrite length_replicate. lia.
Qed.

(** After [fix_root] the root directory has the same blocks, and zeros after its
    entries; nothing else has changed. *)
Record root_fixed (s : mkfs) (root : inode) (D : list Z) (s' : mkfs) (root' : inode) : Prop := {
  rf_base : base s';
  rf_hi : freeblock s' = freeblock s;
  rf_low : forall x, 0 <= x < 32 -> img s' x = img s x;
  rf_slot : forall m, 0 <= m < NINODES -> m <> ROOTINO -> dslot (img s') m = dslot (img s) m;
  rf_other : forall j, stored s j -> inum j <> ROOTINO ->
    stored s' j /\ contents (ghost s') j = contents (ghost s) j /\ forall k, ptr (ghost s') j k = ptr (ghost s) j k;
  rf_file : file_ok W (ghost s') root' /\ inode_typed root' /\ on_disk W (ghost s') root';
  rf_ptr : forall k, ptr (ghost s') root' k = ptr (ghost s) root k;
  rf_data : contents (ghost s') root' = D ++ replicate (Z.to_nat (isize root' - Z.of_nat (length D))) 0 }.

Lemma fix_root_run s root D Gs :
  let size := round_up (Z.of_nat (length D)) in
  image s ((root, D) :: Gs) -> size <= MAXFILE * BSIZE ->
  exists s', fix_root ROOTINO s = Ret () s' /\ root_fixed s root D s' (set_isize size root).
Proof.
  intros size I Hmax. set (root' := set_isize size root). destruct (im_file _ _ I 0%nat root D eq_refl) as (St & Hn & Hc). pose proof (image_size _ _ 0%nat _ _ I eq_refl) as Hsz.
  destruct (round_up_bounds (Z.of_nat (length D)) ltac:(lia)) as [Hru _]. fold size in Hru. change (Z.of_nat 0 + 1) with ROOTINO in Hn.
  pose proof (im_base _ _ I) as Bs. pose proof St as [[Fo Hs _ Hty Hin _] Ow Hsl _ Hta]. pose proof max_file. rewrite Hn in *. change (sb_ninodes _) with NINODES in Hin.
  unfold fix_root. rewrite (bind_ret _ _ _ _ _ (rinode_run s ROOTINO Bs Hin)), Hsl, enc_size by done. cbv zeta.
  rewrite Hsz, (xint_small (Z.of_nat _)), enc_set_size by lia. fold (round_up (Z.of_nat (length D))). fold size. rewrite u32_small, xint_small by lia. fold root'.
  assert (inode_typed root') as Hty' by (destruct Hty as [? [? ?] ? ?]; split; [done|split; [unfold uint; cbn; lia|done]|done|done]).
  destruct (winode_run s ROOTINO (enc root') Bs Hin (length_enc_root _ Hty')) as (E & B' & Hsl' & Hblk & Hoth).
  set (s' := write_img _ _ _) in *. pose proof (iblock_image _ Hin) as Hib. destruct (iblock_range LY ROOTINO Hin) as (_ & _ & Hr & Hnb).
  destruct (meta_write LY (ghost s) _ _ (image_ok d0 s Bs) Hblk Hr Hnb) as (_ & _ & Hfiles). destruct (Hfiles root Fo) as (Fo' & Hp & Hby).
  change (w_sb W) with MKFS_SB in *. set (b := IBLOCK ROOTINO MKFS_SB) in *. set (d := patch (img s b) (dinode_off ROOTINO) (enc root')) in *.
  assert (deq (ghost s') (disk_upd (ghost s) b d)) as Hde by (apply ghost_write; lia). rewrite <- Hde in Fo'.
  exists s'. split; [exact E|]. split; [done|done| |done| |split_and!| |].
  - intros x Hx. unfold s'. cbn [img write_img]. by rewrite disk_upd_ne by lia.
  - intros j Sj Hj. by apply (stored_meta s ROOTINO (enc root') j Bs Hin (length_enc_root _ Hty')).
  - by destruct Fo'.
  - done.
  - unfold s', d, b. rewrite <- Hn. apply (enc_on_disk s root'); [done|by rewrite <- Hn in Hin|done|done|]. change (inum root') with (inum root). by rewrite Hn, Hsl.
  - intros k. rewrite Hde. apply Hp.
  - pose proof (contents_extend (ghost s) (ghost s') root size) as Hce. rewrite Hc, Hsz in Hce.
    apply Hce; [lia|intros o Ho; rewrite Hde; apply Hby; lia|intros o Ho; apply Hta; lia].
Qed.

Lemma image_log V : (forall x, 1 <= x < 32 -> V x = if x =? 1 then patch zeroes 0 (sb_bytes MKFS_SB) else zeroes) -> sb_of (V 1) = MKFS_SB /\ disk_log 2 30 1000 V [].
Proof.
  intros Hl. pose proof (Hl 1 ltac:(lia)) as H1. pose proof (Hl 2 ltac:(lia)) as H2. cbn [Z.eqb Pos.eqb] in H1, H2. split; [rewrite H1; vm_compute; reflexivity|].
  split; [by rewrite H2|rewrite H2; vm_compute; reflexivity|apply NoDup_nil_2|by intros b ?%elem_of_nil|cbn; lia|rewrite H1; vm_compute; done].
Qed.

(** The root directory is well formed unless its entries fill its blocks. *)
Lemma root_inv s V root n :
  stored s root -> isize root = n -> let root' := set_isize (round_up n) root in
  file_ok W V root' -> inode_typed root' -> on_disk W V root' -> (forall k, ptr V root' k = ptr (ghost s) root k) -> round_up n <= MAXFILE * BSIZE ->
  file_inv W V root' <-> n mod BSIZE <> 0.
Proof.
  intros St Hsz root' Fo Ty Od Hp Hmax. pose proof (fi_size _ _ _ (st_inv _ _ St)) as Hs. destruct (round_up_bounds n ltac:(lia)) as (Hru & Hlow & Hfull).
  pose proof (st_tight _ _ St) as Ht. rewrite Hsz in Ht. split.
  - intros Inv Hm. pose proof (fi_solid _ _ _ Inv n ltac:(cbn; lia)) as Hsol. rewrite Hp in Hsol.
    destruct (offset_block n) as [Hb _]; [lia|]. destruct (slot_range _ Hb) as [Hsl _]. apply (Ht _ Hsl), need_slot in Hsol; [done|lia].
  - intros Hm. split; [done|cbn; lia| |done|apply (fi_inum _ _ _ (st_inv _ _ St))|done].
    intros o Ho. rewrite Hp. cbn in Ho. destruct (offset_block o) as [Hb _]; [lia|]. destruct (slot_range _ Hb) as [Hsl _]. apply Ht; [done|].
    pose proof (Hlow Hm o ltac:(lia)). unfold need, slot, IND, BSIZE in *. change (Z.of_nat NDIRECT) with 7.
    destruct (Z.ltb_spec (o / 512) 7); [rewrite (proj2 (Nat.leb_le _ _)) by lia|rewrite (proj2 (Nat.leb_gt _ _)) by lia]; lia.
Qed.

(** The blocks of the root directory, before and after. *)
Lemma root_fixed_disj s L k j C root D s' size : image s ((root, D) :: L) -> root_fixed s root D s' (set_isize size root) ->
  L !! k = Some (j, C) -> disjoint_files (ghost s') (set_isize size root) j.
Proof.
  intros I R Hk. destruct (im_file _ _ I 0%nat root D eq_refl) as (_ & Hn & _). destruct (im_file _ _ I (Datatypes.S k) j C Hk) as (Sj & Hnj & _).
  destruct (im_disj _ _ I 0%nat (Datatypes.S k) root j D C ltac:(done) eq_refl Hk) as [Hne Hd].
  destruct (rf_other _ _ _ _ _ R j Sj ltac:(unfold ROOTINO; lia)) as (_ & _ & Hp). split; [done|].
  intros x (q & Hq & E & Hx0) (q' & Hq' & E' & _). rewrite Hp in E. rewrite (rf_ptr _ _ _ _ _ R) in E'. apply (Hd x); [by exists q|by exists q'].
Qed.

(** The other files, before and after. *)
Lemma root_fixed_file s root D Gs s' size k i f : image s ((root, D) :: Gs) -> root_fixed s root D s' (set_isize size root) ->
  Gs !! k = Some (i, f) -> stored s' i /\ contents (ghost s') i = f /\ inum i = Z.of_nat k + 2 /\ forall q, ptr (ghost s') i q = ptr (ghost s) i q.
Proof.
  intros I R Hk. destruct (im_file _ _ I (Datatypes.S k) i f Hk) as (Si & Hni & <-).
  destruct (rf_other _ _ _ _ _ R i Si ltac:(unfold ROOTINO; lia)) as (? & ? & ?). split_and!; [done|done|lia|done].
Qed.

Lemma image_done s root Gs args files s1 :
  let size := round_up (16 * (2 + Z.of_nat (length args))) in
  Z.of_nat (length args) + 2 <= NINODES -> size <= MAXFILE * BSIZE -> length args = length files ->
  image s ((root, root_entries args) :: Gs) -> keeps (new_inode T_DIR ROOTINO) root -> Gs.*2 = files ->
  (forall k i f, Gs !! k = Some (i, f) -> keeps (new_inode T_FILE (2 + Z.of_nat k)) i) ->
  root_fixed s root (root_entries args) s1 (set_isize size root) -> fs_image W (ghost s1) args files (set_isize size root) Gs.*1.
Proof.
  intros size Hn Hmax Hl I Kr Hg Kg R. pose proof R as [B1 Hh1 Hlow Hsl Hst (Fo & Ty & Od) Hp Hcr].
  pose proof (length_root_entries args) as Hlr. set (D := root_entries args) in *. assert (Z.of_nat (length D) = 16 * (2 + Z.of_nat (length args))) as HD by lia.
  destruct (im_file _ _ I 0%nat root D eq_refl) as (Sr & Hnr & _). pose proof (image_size _ _ 0%nat _ _ I eq_refl) as Hsr.
  destruct (image_log (ghost s1)) as [Hsb Hlg].
  { intros x Hx. rewrite ghost_img, Hlow by lia. destruct (x =? 1) eqn:E; bsplit; [subst x; apply (im_sb _ _ I)|apply (im_log _ _ I); lia]. }
  assert (length Gs = length args) as HlG by (rewrite Hl, <- Hg; by rewrite length_fmap).
  split; [by apply image_ok|done| | | | | | | | |].
  - split; [done|]. intros x Hx. rewrite ghost_img, Hlow by lia. by apply (im_log _ _ I).
  - intros b Hb. rewrite image_free by done. rewrite Hh1, (im_hi _ _ I). change (space ((root, D) :: Gs).*2) with (nblk (Z.of_nat (length D)) + space Gs.*2). rewrite Hg, HD. f_equal. lia.
  - split; [done|]. split_and!; [by rewrite Kr..|done].
  - rewrite <- HD. unfold size in *. rewrite <- HD in *. apply (root_inv s); (done || lia).
  - eexists. exact Hcr.
  - split; [rewrite <- Hg; by rewrite !length_fmap|]. intros k i f Hi Hf. assert (Gs !! k = Some (i, f)) as Hk.
    { rewrite <- Hg in Hf. apply list_lookup_fmap_Some in Hi as ([i1 f1] & -> & Hk1). apply list_lookup_fmap_Some in Hf as ([i2 f2] & -> & Hk2). rewrite Hk1 in Hk2. by injection Hk2 as <- <-. }
    destruct (root_fixed_file s root D Gs s1 size k i f I R Hk) as (Si & Hc & Hni & _). pose proof (Kg k i f Hk) as K.
    split; [apply Si|]. split; [done|]. split; [done|]. split_and!; [by rewrite K..|apply Si].
  - intros Hnd k arg Hk. rewrite Hcr. unfold D. rewrite (dir_find_root args _ (Datatypes.S (Datatypes.S k))); [|done|done|change ((image_name <$> args) !! k = Some (image_name arg)); by rewrite list_lookup_fmap, Hk].
    f_equal. f_equal; lia.
  - assert (forall k i, Gs.*1 !! k = Some i -> exists f, Gs !! k = Some (i, f)) as Hg1.
    { intros k i Hi. apply list_lookup_fmap_Some in Hi as ([i1 f1] & -> & Hk1). by exists f1. }
    intros [|k] [|k'] i j Hne Hi Hj; [done|injection Hi as <-|injection Hj as <-|].
    + destruct (Hg1 k' j Hj) as [f Hf]. by apply (root_fixed_disj s Gs k' j f root D).
    + destruct (Hg1 k i Hi) as [f Hf]. apply disjoint_sym. by apply (root_fixed_disj s Gs k i f root D).
    + destruct (Hg1 k i Hi) as [f Hf], (Hg1 k' j Hj) as [f' Hf']. destruct (root_fixed_file s root D Gs s1 size k i f I R Hf) as (_ & _ & _ & Hpi).
      destruct (root_fixed_file s root D Gs s1 size k' j f' I R Hf') as (_ & _ & _ & Hpj).
      destruct (im_disj _ _ I (Datatypes.S k) (Datatypes.S k') i j f f') as [? Hd]; [congruence|done|done|]. split; [done|].
      intros x (q & Hq & E & Hx0) (q' & Hq' & E' & _). rewrite Hpj in E. rewrite Hpi in E'. apply (Hd x); [by exists q|by exists q'].
  - intros n Hnn. pose proof (iblock_image n ltac:(lia)). unfold dslot. rewrite ghost_img by lia. fold (dslot (img s1) n). rewrite Hsl by (unfold ROOTINO; lia).
    apply (im_rest _ _ I). rewrite (im_ino _ _ I). cbn [length]. lia.
Qed.

Lemma main_image prog name args files : host_create name = true -> fits args files ->
  exists s root Fs, main (prog :: name :: args) mkfs_boot = Ret () s /\ fs_image W (img s) args files root Fs.
Proof.
  intros Hc Hft. destruct (main_files prog name args files Hc Hft) as (s & root & Gs & I & Kr & Hg & Kg & E). destruct Hft as [Hhost Hn Hb].
  assert (Z.of_nat (length (root_entries args)) = 16 * (2 + Z.of_nat (length args))) as HD by (rewrite length_root_entries; lia).
  assert (round_up (16 * (2 + Z.of_nat (length args))) <= MAXFILE * BSIZE) as Hmax.
  { destruct (round_up_bounds (16 * (2 + Z.of_nat (length args))) ltac:(lia)) as [Hru _]. unfold NINODES in Hn. change (MAXFILE * BSIZE) with 69120. change BSIZE with 512 in Hru. lia. }
  destruct (fix_root_run s root (root_entries args) Gs I) as (s1 & E1 & R); [by rewrite HD|]. rewrite HD in R.
  pose proof (rf_base _ _ _ _ _ R) as B1. rewrite E, (bind_ret _ _ _ _ _ E1), bind_get. unfold balloc.
  rewrite (proj2 (Z.ltb_lt _ _)) by (pose proof (bs_hi _ B1); unfold FSSIZE, BSIZE in *; lia).
  rewrite bind_get, (bs_sb _ B1). change (sb_bmapstart MKFS_SB) with 58. rewrite (wsect_run Hwrite) by (unfold FSSIZE; lia).
  exists (write_img 58 (used_bits (freeblock s1)) s1), (set_isize (round_up (16 * (2 + Z.of_nat (length args)))) root), Gs.*1. split; [done|].
  change (img (write_img 58 (used_bits (freeblock s1)) s1)) with (ghost s1).
  apply (image_done s); try done. by eapply Forall2_length.
Qed.
End image.

(** C6: the disk that mkfs writes is a file system.  If the host can create and
    write the image, and the files fit (an inode and blocks for each, in 200 inodes
    and 1000 blocks), [main] of mkfs.c ends without a failed assertion or error, and
    the image is consistent for fs.c and log.c: the superblock describes it; the log
    is empty; exactly the blocks given out are marked in the bitmap, and the bitmap,
    inode and log blocks are among them; each argument's file is a well-formed inode,
    owned by root, that shares no block with another, with the bytes the host's file
    has; the root directory binds its name to that inode; and the other inodes are
    free.  The root directory is itself well formed just when its entries do not fill
    its last block, since its size is then rounded up past its blocks. *)
Theorem mkfs_correct `{!Host} prog name args files :
  host_create name = true -> (forall b, 0 <= b < FSSIZE -> host_write b = true) -> fits args files ->
  exists s root Fs, main (prog :: name :: args) mkfs_boot = Ret () s /\
    layout (mkfs_image_world (img s)) /\ fs_image (mkfs_image_world (img s)) (img s) args files root Fs.
Proof.
  intros Hc Hw Hf. destruct (main_image Hw (fun _ => []) prog name args files Hc Hf) as (s & _ & _ & E & _).
  destruct (main_image Hw (img s) prog name args files Hc Hf) as (s' & root & Fs & E' & I). rewrite E in E'. injection E' as <-.
  exists s, root, Fs. split; [done|]. split; [apply image_layout|done].
Qed.

(** A host with a file of two blocks and an empty one. *)
Definition demo_host : Host := {|
  host_create _ := true;
  host_write _ := true;
  host_open arg := if decide (arg = [95; 97]) then Some [replicate 512 7; [1; 2; 3]] else if decide (arg = [98]) then Some [] else None |}.
#[local] Existing Instance demo_host.

Lemma demo_fits : fits [[95; 97]; [98]] [replicate 512 7 ++ [1; 2; 3]; []].
Proof.
  split; [|vm_compute; discriminate..]. repeat apply Forall2_cons_2; [| |apply Forall2_nil_2].
  - split; [apply (bool_decide_unpack _); exact Logic.I|]. split; [vm_compute; discriminate|].
    exists [replicate 512 7; [1; 2; 3]]. split; [done|]. split; [by repeat constructor|done].
  - split; [apply (bool_decide_unpack _); exact Logic.I|]. split; [vm_compute; discriminate|]. by exists [].
Qed.

Lemma mkfs_correct_witness :
  exists s root (Fs : list inode) i, main [[]; []; [95; 97]; [98]] mkfs_boot = Ret () s /\
    Fs !! 0%nat = Some i /\ contents (img s) i = replicate 512 7 ++ [1; 2; 3] /\ inum root = 1.
Proof.
  destruct (@mkfs_correct demo_host [] [] [[95; 97]; [98]] [replicate 512 7 ++ [1; 2; 3]; []] eq_refl (fun _ _ => eq_refl) demo_fits) as (s & root & Fs & E & _ & I).
  destruct (ci_files _ _ _ _ _ _ I) as [Hl Hf]. destruct Fs as [|i Fs]; [discriminate Hl|]. destruct (Hf 0%nat i _ eq_refl eq_refl) as (_ & Hc & _).
  exists s, root, (i :: Fs), i. split; [exact E|]. split; [reflexivity|]. split; [exact Hc|]. apply (ci_root _ _ _ _ _ _ I).
Defined.
