(* ===== verification/MkfsBoot.v ===== *)
(** * From mkfs to the first read

    The image of mkfs.c under the kernel: the first process sets up fs.c and log.c
    ([iinit] and [initlog], as [forkret] calls them), looks a path up with [namei]
    and reads the file.  What it reads is what the host's file held when mkfs ran. *)

From stdpp Require Import gmap.
From S2P Require Import Prelude CString Ide Block Bio Log LogCrash Users Fs FsPath FsTxn FsBlocks FsFile FsData FsWrite FsDir Mkfs MkfsImage.
Open Scope Z_scope.

(** ** Images up to pointwise equality *)

#[export] Instance fs_image_deq W : Proper (deq ==> eq ==> eq ==> eq ==> eq ==> impl) (fs_image W).
Proof.
  intros V V' E args ? <- files ? <- root ? <- Fs ? <- [D Hsb Hl Hfr Hr Hri Hrd [Hfl Hf] Hlk Hdj Hu]. split.
  - by rewrite <- E.
  - by rewrite <- E.
  - destruct Hl as [[? ? ? ? ? ?] Hz]. split; [split; rewrite <- ?E; done|]. intros x Hx. rewrite <- E. by apply Hz.
  - intros b Hb. rewrite <- (is_free_deq W V V' E b b eq_refl). by apply Hfr.
  - done.
  - by rewrite <- (file_inv_deq W V V' E root root eq_refl).
  - destruct Hrd as [m Hm]. exists m. by rewrite <- (contents_deq V V' E root root eq_refl).
  - split; [done|]. intros k i f Hi Hk. rewrite <- (file_inv_deq W V V' E i i eq_refl), <- (contents_deq V V' E i i eq_refl). by apply Hf.
  - intros Hnd k arg Hk. rewrite <- (contents_deq V V' E root root eq_refl). by apply Hlk.
  - intros k k' i j. rewrite <- (disjoint_files_deq V V' E i i eq_refl j j eq_refl). by apply Hdj.
  - intros n Hn. unfold dslot. rewrite <- E. by apply Hu.
Qed.

(** ** Loading an inode *)

(** What [ilock] loads, for a file on the disk. *)
Lemma loaded_inv W V i j0 : file_inv W V i -> inum j0 = inum i -> idev j0 = ROOTDEV -> length (iowner j0) = 16%nat ->
  let j := set_ivalid 1 (get_dinode (V (inode_block W i)) (dinode_off (inum i)) j0) in
  file_inv W V j /\ contents V j = contents V i /\ itype j = itype i /\ isize j = isize i /\ inlink j = inlink i.
Proof.
  intros [[Hl Hd Hp Hi] Hs Hsol [T1 T2 _ T4] Hn (E1 & E2 & E3 & E4 & E5 & E6 & E7 & _)] Hn0 Hd0 Ho j.
  change (itype j = itype i) in E1. change (imajor j = imajor i) in E2. change (iminor j = iminor i) in E3. change (inlink j = inlink i) in E4.
  change (isize j = isize i) in E5. change (iperm j = iperm i) in E6. change (iaddrs j = iaddrs i) in E7.
  assert (forall k, ptr V j k = ptr V i k) as Ep by (intros k; unfold ptr; by rewrite E7).
  split_and!; [|unfold contents; rewrite E5; apply list_fmap_ext; intros _ o _; unfold fbyte; by rewrite Ep|done..].
  assert (length (iowner j) = 16%nat) as Hoj by (unfold j; cbn; rewrite length_strncpy_l; lia).
  split.
  - split; [by rewrite E7|done|intros k; rewrite Ep; apply Hp|intros k k'; rewrite !Ep; apply Hi].
  - by rewrite E5.
  - intros o Hr. rewrite Ep. apply Hsol. by rewrite <- E5.
  - split; [by rewrite E1, E2, E3, E4|by rewrite E5, E6|done|by rewrite E7].
  - change (inum j) with (inum j0). by rewrite Hn0.
  - unfold on_disk, inode_block. change (inum j) with (inum j0). rewrite Hn0. unfold same_dinode. split_and!; try done. unfold j. cbn [iowner get_dinode set_ivalid].
    by rewrite !strncpy_l_string.
Qed.

Section kernel.
Context {S : Type} `{!BlockCache S} {W : world} (LY : layout W) (devsw : Z -> dev_ops (S := S)).
Local Abbreviation F := (fs S).

Lemma updi_upd (f : F) ip i g : icache f !! ip = Some i -> updi ip g f = upd_file f ip (g i) (flog f).
Proof. intros E. unfold updi. by rewrite (alter_set f ip i). Qed.

Lemma ilock_run (f : F) me ip i V bs :
  let j := set_ivalid 1 (get_dinode (V (IBLOCK (inum i) (w_sb W))) (dinode_off (inum i)) (set_ilk (mkSleeplock 1 me) i)) in
  icache f !! ip = Some i -> sb f = w_sb W -> txn W (flog f) V ∅ bs -> 1 <= iref i -> ilk i = mkSleeplock 0 0 -> ivalid i = 0 -> idev i = ROOTDEV ->
  0 <= inum i < sb_ninodes (w_sb W) -> (length bs < NBUF)%nat -> itype j <> 0 ->
  exists l', ilock me ip f = Ret () (upd_file f ip j l') /\ txn W l' V ∅ bs.
Proof.
  intros j Hi Hsb T Hr Hk Hv Hd Hn Hbs Ht. unfold ilock. rewrite bind_get, (I_lookup f ip i Hi). rewrite (proj2 (Z.ltb_ge _ _)) by lia.
  set (i1 := set_ilk (mkSleeplock 1 me) i) in *. set (f1 := upd_file f ip i1 (flog f)).
  assert (iacquire me ip f = Ret () f1) as E1.
  { unfold iacquire. rewrite bind_get, (I_lookup f ip i Hi), Hk. cbn [slocked nz]. unfold put. by rewrite (updi_upd f ip i). }
  assert (icache f1 !! ip = Some i1) as Hi1 by (by apply (upd_file_lookup f ip i)).
  rewrite (bind_ret _ _ _ _ _ E1), bind_get, (I_lookup f1 ip i1 Hi1). change (ivalid i1) with (ivalid i). rewrite Hv. cbn [Z.eqb when].
  change (idev i1) with (idev i). change (inum i1) with (inum i). change (sb f1) with (sb f). rewrite Hd, Hsb.
  destruct (iblock_range LY (inum i) Hn) as (_ & _ & Hb & _). set (b := IBLOCK (inum i) (w_sb W)) in *.
  destruct (fbread_run W f1 V ∅ bs b T) as (bp & l1 & E2 & T1); [apply lookup_empty|destruct LY; lia|rewrite map_size_empty; lia|].
  pose proof (lookup_insert_eq (∅ : gmap Z nat) b bp) as Hbp. rewrite (bind_ret _ _ _ _ _ E2), (bind_ret _ _ _ _ _ (fdata_run W (set_flog l1 f1) _ _ _ _ _ T1 Hbp)).
  rewrite bind_modify, (updi_upd (set_flog l1 f1) ip i1) by done. set (i2 := get_dinode (V b) (dinode_off (inum i)) i1) in *.
  set (f2 := upd_file (set_flog l1 f1) ip i2 l1). change (flog (set_flog l1 f1)) with l1. fold f2.
  destruct (fbrelse_run W f2 V _ bs b bp T1 Hbp) as (l2 & E3 & T2); [by eapply txn_clean; [exact T|apply lookup_empty]|]. rewrite delete_insert_id in T2 by apply lookup_empty.
  assert (icache (set_flog l2 f2) !! ip = Some i2) as Hi2 by (by apply (upd_file_lookup (set_flog l1 f1) ip i1)).
  rewrite (bind_ret _ _ _ _ _ E3), bind_modify, (updi_upd _ ip i2) by done. rewrite bind_get.
  set (f3 := upd_file (set_flog l2 f2) ip (set_ivalid 1 i2) (flog (set_flog l2 f2))).
  assert (f3 = upd_file f ip j l2) as E4.
  { unfold f3, f2, f1, upd_file, set_flog. cbn [icache sb users flog]. by rewrite !list_insert_insert_eq. }
  rewrite E4, (I_lookup (upd_file f ip j l2) ip j) by (by apply (upd_file_lookup f ip i)). rewrite (proj2 (Z.eqb_neq _ _)) by done. exists l2. done.
Qed.

Lemma iunlockput_run (f : F) me ip i :
  icache f !! ip = Some i -> ilk i = mkSleeplock 1 me -> 1 <= iref i -> inlink i <> 0 ->
  iunlockput me ip f = Ret () (upd_file f ip (set_iref (iref i - 1) (set_ilk (mkSleeplock 0 0) i)) (flog f)).
Proof.
  intros Hi Hk Hr Hl. unfold iunlockput, iunlock, iholding. rewrite bind_assoc, bind_gets, bind_assoc, bind_get, (I_lookup f ip i Hi), Hk. cbn [slocked spid nz].
  rewrite Z.eqb_refl. replace (iref i <? 1) with false by lia. cbn [negb orb andb]. change (negb true || false) with false. cbn iota.
  set (i1 := set_ilk (mkSleeplock 0 0) i). set (f1 := upd_file f ip i1 (flog f)).
  assert (irelease ip f = Ret () f1) as E1 by (unfold irelease, modify; by rewrite (updi_upd f ip i)). rewrite (bind_ret _ _ _ _ _ E1). unfold iput.
  assert (icache f1 !! ip = Some i1) as Hi1 by (by apply (upd_file_lookup f ip i)). set (i2 := set_ilk (mkSleeplock 1 me) i1). set (f2 := upd_file f1 ip i2 (flog f)).
  assert (iacquire me ip f1 = Ret () f2) as E2 by (unfold iacquire; rewrite bind_get, (I_lookup f1 ip i1 Hi1); unfold put; by rewrite (updi_upd f1 ip i1)).
  assert (icache f2 !! ip = Some i2) as Hi2 by (by apply (upd_file_lookup f1 ip i1)).
  rewrite (bind_ret _ _ _ _ _ E2), bind_get, (I_lookup f2 ip i2 Hi2). change (inlink i2) with (inlink i). replace (inlink i =? 0) with false by lia. rewrite andb_false_r. cbn [andb when].
  unfold irelease, modify, bind, ret. rewrite (updi_upd f2 ip i2) by done. rewrite (updi_upd _ ip (set_ilk (mkSleeplock 0 0) i2)) by (by apply (upd_file_lookup f2 ip i2)).
  unfold f2, f1, upd_file. cbn [icache sb users flog]. by rewrite !list_insert_insert_eq.
Qed.

(** [iget] of an inode that is not in the cache. *)
Definition fresh_inode (n : Z) (i : inode) : inode :=
  mkInode ROOTDEV n 1 (ilk i) 0 (itype i) (imajor i) (iminor i) (inlink i) (isize i) (iperm i) (iowner i) (iaddrs i).

Lemma iget_new (f : F) n e i : iget_scan (icache f) 0 ROOTDEV n None = (None, Some e) -> icache f !! e = Some i ->
  iget ROOTDEV n f = Ret e (upd_file f e (fresh_inode n i) (flog f)).
Proof. intros Es Hi. unfold iget. rewrite bind_get, Es, bind_modify, (updi_upd f e i) by done. done. Qed.

Lemma iget_scan_free m k n e : iget_scan (replicate m inhabitant) k ROOTDEV n (Some e) = (None, Some e).
Proof. revert k. induction m as [|m IH]; intros k; [done|]. apply IH. Qed.

Lemma scan_second m i n : inum i <> n -> iref i <> 0 -> iget_scan (i :: replicate (Datatypes.S m) inhabitant) 0 ROOTDEV n None = (None, Some 1%nat).
Proof.
  intros Hn Hr. cbn [iget_scan replicate]. rewrite (proj2 (Z.eqb_neq (inum i) n)), andb_false_r, (proj2 (Z.eqb_neq (iref i) 0)) by done. apply (iget_scan_free m 2 n 1).
Qed.

(** The path "/name". *)
Lemma skipelem_root nm : nm <> [] -> 47 ∉ nm -> Forall (fun c => c <> 0) nm ->
  exists name, skipelem (47 :: nm) (replicate DIRSIZ 0) = Some ([], name) /\ name_of name = name_of nm.
Proof.
  intros Hne Hs Hz. assert (skip_slashes (47 :: nm) = nm) as E1.
  { cbn. apply skip_head_id. destruct nm as [|c nm]; [done|]. intros [= ->]. apply Hs. by left. }
  assert (take_elem nm = (nm, [])) as E2.
  { clear Hne E1 Hz. induction nm as [|c nm IH]; [done|]. cbn [take_elem]. rewrite (proj2 (Z.eqb_neq c SLASH)).
    - rewrite IH; [done|]. intros Hin. apply Hs. by right.
    - intros ->. apply Hs. by left. }
  eexists. split.
  - unfold skipelem. rewrite E1. destruct nm as [|c nm]; [done|]. rewrite E2. reflexivity.
  - cbn [fst]. rewrite stored_name by done. unfold name_of. symmetry. apply until_nul_id. by apply Forall_take.
Qed.

Lemma dir_find_name a b C : name_of a = name_of b -> dir_find a C = dir_find b C.
Proof.
  intros E. unfold dir_find. generalize (length C / 16)%nat as n. generalize 0%nat as k. intros k n. revert k. induction n as [|n IH]; intros k; [done|]. cbn [find_from]. unfold binds. rewrite E, IH. done.
Qed.

(** [namei] of a file in the root directory, by the first process. *)
Lemma namei_root_run (f : F) c nm root n k N V :
  sb f = w_sb W -> icache f = replicate NINODE inhabitant -> txn W (flog f) V ∅ [] -> disk_ok W V ->
  file_inv W V root -> inum root = ROOTINO -> itype root = T_DIR -> inlink root <> 0 -> isize root = 16 * Z.of_nat N ->
  dir_find nm (contents V root) = Some (k, n) -> n <> ROOTINO -> c_pid c <= 2 ->
  nm <> [] -> 47 ∉ nm -> Forall (fun c => c <> 0) nm ->
  exists f', namei devsw c (47 :: nm) f = Ret (Some 1%nat) f' /\ sb f' = w_sb W /\ txn W (flog f') V ∅ [] /\
    icache f' !! 1%nat = Some (fresh_inode n inhabitant).
Proof.
  intros Hsb Hic T D Inv Hn Hty Hnl Hsz Hfind Hne Hpid Hnm Hsl Hnul. destruct (skipelem_root nm Hnm Hsl Hnul) as (name & Esk & Ename).
  unfold namei, namex. rewrite bool_decide_true by done. set (i0 := fresh_inode ROOTINO inhabitant). set (f1 := upd_file f 0 i0 (flog f)).
  assert (iget ROOTDEV ROOTINO f = Ret 0%nat f1) as E1 by (apply iget_new; rewrite Hic; vm_compute; reflexivity).
  rewrite bind_assoc, (bind_ret _ _ _ _ _ E1). replace (length (47%Z :: nm) + 1)%nat with (Datatypes.S (Datatypes.S (length nm))) by (cbn; lia).
  cbn [namex_loop]. rewrite Esk. assert (icache f1 !! 0%nat = Some i0) as Hi1 by (unfold f1, upd_file; cbn [icache]; by rewrite Hic).
  set (j := set_ivalid 1 (get_dinode (V (IBLOCK ROOTINO (w_sb W))) (dinode_off ROOTINO) (set_ilk (mkSleeplock 1 (c_pid c)) i0))).
  destruct (loaded_inv W V root (set_ilk (mkSleeplock 1 (c_pid c)) i0) Inv) as (Ij & Cj & Tj & Sj & Lj); [by rewrite Hn|done|done|].
  unfold inode_block in Ij, Cj, Tj, Sj, Lj. rewrite Hn in *. fold j in Ij, Cj, Tj, Sj, Lj.
  destruct (ilock_run f1 (c_pid c) 0 i0 V [] Hi1 Hsb T) as (l2 & E2 & T2); [done|done|done|done|change (inum i0) with ROOTINO; rewrite <- Hn; apply Inv|by apply Nat.ltb_lt|change (itype j <> 0); by rewrite Tj, Hty|]. change (ilock (c_pid c) 0 f1 = Ret () (upd_file f1 0 j l2)) in E2.
  set (f2 := upd_file f1 0 j l2) in *. assert (icache f2 !! 0%nat = Some j) as Hi2 by (by apply (upd_file_lookup f1 0 i0)).
  rewrite bind_assoc, (bind_ret _ _ _ _ _ E2). rewrite bind_assoc, bind_get, (I_lookup f2 0 j Hi2), Tj, Hty. change (negb (T_DIR =? T_DIR)) with false. cbn iota.
  replace (2 <? c_pid c) with false by lia.
  rewrite bind_assoc, (bind_ret (ret true) _ f2 true f2 eq_refl). cbn [negb andb]. cbn iota. rewrite bind_assoc.
  assert (open_dir (W := W) f2 0 j V [] N) as O2 by (split; [split; done|by rewrite Tj|by rewrite Sj]).
  destruct (dirlookup_run LY devsw f2 0 j V [] N name O2) as (l3 & E3 & [[_ _ T3 _ _] _ _]).
  rewrite (dir_find_name name nm), Cj, Hfind in E3 by done. set (f3 := set_flog l3 f2) in *. set (f4 := upd_file f3 1 (fresh_inode n inhabitant) l3).
  assert (icache f3 = j :: replicate 49 inhabitant) as Hic3 by (unfold f3, f2, f1, upd_file; cbn [icache set_flog]; by rewrite Hic).
  assert (iget ROOTDEV n f3 = Ret 1%nat f4) as E4.
  { apply iget_new; rewrite Hic3; [|done]. apply (scan_second 48); [change (inum j) with ROOTINO; congruence|done]. }
  assert (dirlookup devsw 0 name f2 = Ret (Some (1%nat, 16 * Z.of_nat k)) f4) as E5 by (rewrite E3; cbn [found]; by rewrite (bind_ret _ _ _ _ _ E4)).
  rewrite (bind_ret _ _ _ _ _ E5), bind_assoc.
  assert (icache f4 !! 0%nat = Some j) as Hi4 by (unfold f4, upd_file; cbn [icache]; by rewrite Hic3).
  rewrite (bind_ret _ _ _ _ _ (iunlockput_run f4 (c_pid c) 0 j Hi4 eq_refl ltac:(done) ltac:(by rewrite Lj))). eexists. split; [reflexivity|].
  split; [done|]. split; [done|]. unfold f4, upd_file. cbn [icache]. by rewrite Hic3.
Qed.
End kernel.

(** ** Booting *)

Section boot.
Context (me : Z) (devsw : Z -> dev_ops (S := bcache)).
Local Abbreviation F := (fs bcache).
#[local] Instance boot_bio : BlockCache bcache := bio_cache me.

(** The state of fs.c before [iinit]: everything is zero. *)
Definition boot_fs (V : disk) (u : mem) : F := mkFs (mkSuperblock 0 0 0 0 0 0 0) (replicate NINODE inhabitant) (boot_log V FSSIZE) u.

(** [forkret], then a transaction in which [path] is opened and read. *)
Definition boot_read (c : caller) (path : list Z) (n : Z) : M F (option (Z * list Z)) :=
  iinit ;;;
  fl initlog ;;;
  fl begin_op ;;;
  let* o := namei devsw c path in
  match o with
  | None => ret None
  | Some ip =>
      ilock (c_pid c) ip ;;;
      let* r := readi devsw ip 0 n in
      ret (Some r)
  end.

Lemma irelease_all l (f : F) : (forall ip, ilk (I f ip) = mkSleeplock 0 0) -> for_each l irelease f = Ret () f.
Proof.
  intros Hl. induction l as [|ip l IH]; [done|]. cbn [for_each].
  assert (irelease ip f = Ret () f) as E; [|by rewrite (bind_ret _ _ _ _ _ E)].
  unfold irelease, modify, updi. do 2 f_equal. destruct f as [s ic l0 u]. unfold set_icache. cbn [sb icache flog users]. f_equal.
  apply list_eq. intros k. destruct (decide (ip = k)) as [<-|Hk]; [|by rewrite list_lookup_alter_ne].
  rewrite list_lookup_alter_eq. destruct (ic !! ip) as [i|] eqn:Ei; [|done]. cbn. f_equal. specialize (Hl ip). unfold I in Hl. cbn [icache] in Hl.
  rewrite (list_lookup_total_correct _ _ _ Ei) in Hl. destruct i; cbn in *; by subst.
Qed.

Lemma boot_log_inv (l : log bcache) V v tr : lstart l = 2 -> lsize l = 30 -> lh_n l = 0 -> length (lh_block l) = Z.to_nat LOGSIZE ->
  disk_log 2 30 FSSIZE V [] -> log_inv (set_outstanding 1 l) (mkAcache v V FSSIZE (∅ ∖ {[2]}) ∅ tr) [].
Proof.
  intros Hp Hn H0 Hl D. split; cbn; rewrite ?Hp, ?Hn; [apply demo_geometry|done|done|done|apply NoDup_nil_2|by intros b ?%elem_of_nil|done|set_solver|done].
Qed.

(** After [forkret] the file system is inside its first transaction, and shows the image. *)
Lemma forkret_run V u : disk_log 2 30 FSSIZE V [] -> V 2 = zeroes -> sb_of (V 1) = MKFS_SB ->
  exists l V', (iinit ;;; fl initlog ;;; fl begin_op) (boot_fs V u) = Ret () (mkFs MKFS_SB (replicate NINODE inhabitant) l u) /\
    deq V' V /\ txn (mkfs_image_world V') l V' ∅ [].
Proof.
  intros D H2 Hsb.
  assert (for_each (seq 0 NINODE) irelease (boot_fs V u) = Ret () (boot_fs V u)) as E0.
  { apply irelease_all. intros ip. unfold I. cbn [icache boot_fs]. destruct (decide (ip < NINODE)%nat); [by rewrite lookup_total_replicate_2|].
    rewrite list_lookup_total_alt, lookup_ge_None_2; [done|]. rewrite length_replicate. lia. }
  destruct (readsb_run (BlockCache0 := bio_cache me) (boot_log V FSSIZE) (boot_acache V FSSIZE) (boot_cache_rep me V FSSIZE) eq_refl eq_refl ltac:(done)) as (c1 & E1 & R1).
  destruct (initlog_run (BlockCache0 := bio_cache me) (set_cache c1 (boot_log V FSSIZE)) (boot_acache V FSSIZE) [] 2 30 R1 eq_refl eq_refl demo_geometry (length_replicate _ _) D)
    as (l & E2 & Hp & Hn & H0 & Ho & Hc & Hlen & R2).
  set (f1 := mkFs MKFS_SB (replicate NINODE inhabitant) (set_cache c1 (boot_log V FSSIZE)) u).
  assert (iinit (boot_fs V u) = Ret () f1) as Ei.
  { unfold iinit. rewrite (bind_ret _ _ _ _ _ E0), (bind_ret _ _ _ _ _ (fl_run _ (boot_fs V u) _ _ E1)).
    change (adisk (boot_acache V FSSIZE) 1) with (V 1). by rewrite Hsb. }
  assert (begin_op l = Ret () (set_outstanding 1 l)) as Eb by (unfold begin_op, bind, get; rewrite Hc, H0, Ho; done).
  rewrite (bind_ret _ _ _ _ _ Ei), (bind_ret _ _ _ _ _ (fl_run _ f1 _ _ E2)), (fl_run _ (set_flog l f1) _ _ Eb).
  assert (recovery_writes 2 V = [(2, zeroes)]) as Er.
  { unfold recovery_writes. rewrite (dl_head _ _ _ _ _ D), H2. reflexivity. }
  change (adisk (boot_acache V FSSIZE)) with V in R2. rewrite Er in R2. cbn [puts foldl fst snd] in R2.
  exists (set_outstanding 1 l), (disk_upd V 2 zeroes). split; [done|].
  assert (deq (disk_upd V 2 zeroes) V) as Hde by (intros x; unfold disk_upd; destruct (Z.eqb_spec x 2) as [-> |]; done). split; [done|].
  assert (disk_log 2 30 FSSIZE (disk_upd V 2 zeroes) []) as D' by (destruct D; split; rewrite ?(Hde _); assumption).
  split; [|exact Hp|exact Hn|apply Z.le_refl]. exists (a_put 2 zeroes (boot_acache V FSSIZE)). split; [exact R2|]. split_and!; [reflexivity..| |reflexivity|reflexivity].
  by apply boot_log_inv.
Qed.

(** The first process opens and reads a file of the image. *)
Lemma boot_read_run V u c args files root Fs k arg g n :
  layout (mkfs_image_world V) -> fs_image (mkfs_image_world V) V args files root Fs ->
  NoDup (name_of <$> root_names args) -> (16 * (2 + Z.of_nat (length args))) mod BSIZE <> 0 ->
  args !! k = Some arg -> files !! k = Some g -> image_name arg <> [] -> 47 ∉ image_name arg -> Forall (fun c => c <> 0) (image_name arg) ->
  c_pid c <= 2 -> 0 <= n < 2 ^ 32 ->
  forall l, txn (mkfs_image_world V) l V ∅ [] ->
  exists f', (let* o := namei devsw c (47 :: image_name arg) in
      match o with
      | None => ret None
      | Some ip => ilock (c_pid c) ip ;;; let* r := readi devsw ip 0 n in ret (Some r)
      end) (mkFs MKFS_SB (replicate NINODE inhabitant) l u) = Ret (Some (Z.min n (Z.of_nat (length g)), take (Z.to_nat n) g)) f'.
Proof.
  intros LY Im Hnd Hmod Ha Hg Hne Hsl Hnul Hpid Hn l T. set (f0 := mkFs _ _ _ _). pose proof (ci_disk _ _ _ _ _ _ Im) as D.
  destruct (ci_root _ _ _ _ _ _ Im) as (Hrn & Hrt & _ & Hrl & Hrs). pose proof (proj2 (ci_root_inv _ _ _ _ _ _ Im) Hmod) as Ir.
  destruct (ci_files _ _ _ _ _ _ Im) as [Hlf Hfs]. destruct (lookup_lt_is_Some_2 Fs k) as [i Hi]; [rewrite Hlf; by eapply lookup_lt_Some|].
  destruct (Hfs k i g Hi Hg) as (Ii & Ci & Hni & Hti & _).
  destruct (namei_root_run LY devsw f0 c (image_name arg) root (Z.of_nat k + 2) (k + 2) (32 * Z.to_nat (isize root / BSIZE)) V) as (f1 & E1 & Hsb1 & T1 & Hi1); try done.
  { lia. }
  { rewrite Hrs. unfold round_up. rewrite Z.div_mul by done. unfold BSIZE. pose proof (Z.div_pos (16 * (2 + Z.of_nat (length args))) 512 ltac:(lia) ltac:(done)). lia. }
  { by apply (ci_lookup _ _ _ _ _ _ Im). }
  { unfold ROOTINO. lia. }
  rewrite (bind_ret _ _ _ _ _ E1). set (i0 := fresh_inode (Z.of_nat k + 2) inhabitant) in *. assert (inum i0 = inum i) as En by (cbn; lia).
  destruct (loaded_inv (mkfs_image_world V) V i (set_ilk (mkSleeplock 1 (c_pid c)) i0) Ii) as (Ij & Cj & Tj & Sj & _); [done|done|done|].
  unfold inode_block in Ij, Cj, Tj, Sj. rewrite <- En in Ij, Cj, Tj, Sj. set (j := set_ivalid 1 _) in Ij, Cj, Tj, Sj.
  destruct (ilock_run LY f1 (c_pid c) 1 i0 V [] Hi1 Hsb1 T1) as (l2 & E2 & T2); [done|done|done|done|rewrite En; apply Ii|by apply Nat.ltb_lt|fold j; by rewrite Tj, Hti|].
  fold j in E2. rewrite (bind_ret _ _ _ _ _ E2). assert (icache (upd_file f1 1 j l2) !! 1%nat = Some j) as Hj by (by apply (upd_file_lookup f1 1 i0)).
  assert (isize j = Z.of_nat (length g)) as Hsz by (rewrite Sj, <- Ci, length_file; pose proof (fi_size _ _ _ Ii); lia).
  destruct (readi_run LY devsw (upd_file f1 1 j l2) 1 j V [] 0 n Hj Hsb1 T2 D Ij) as (l3 & E3 & _); [by rewrite Tj, Hti|lia|lia|lia|].
  rewrite (bind_ret _ _ _ _ _ E3). exists (set_flog l3 (upd_file f1 1 j l2)). rewrite Z.sub_0_r, Hsz, Cj, Ci. unfold ret, sub. rewrite drop_0. do 3 f_equal.
  destruct (decide (n <= Z.of_nat (length g))); [by rewrite Z.min_l by lia|rewrite Z.min_r by lia; rewrite !take_ge by lia; done].
Qed.
End boot.

(** C5: a file goes through mkfs, the boot of the kernel and a read unchanged.  If
    the host can write the image and the files fit, their names are distinct, and the
    entries of the root directory do not fill its last block: when the kernel boots on the image ([iinit] and
    [initlog]) and the first process looks the path "/name" of the [k]-th file up with
    [namei], locks the inode and reads [n] bytes from offset 0, nothing panics or
    blocks, and it gets the first [n] bytes the host's file had when mkfs read it, and
    their number. *)
Theorem mkfs_boot_read `{!Host} devsw c u prog name args files k arg g n :
  host_create name = true -> (forall b, 0 <= b < FSSIZE -> host_write b = true) -> fits args files ->
  NoDup (name_of <$> root_names args) -> (16 * (2 + Z.of_nat (length args))) mod BSIZE <> 0 ->
  args !! k = Some arg -> files !! k = Some g -> image_name arg <> [] -> Forall (fun c => c <> 0) (image_name arg) ->
  c_pid c <= 2 -> 0 <= n < 2 ^ 32 ->
  exists s f', main (prog :: name :: args) mkfs_boot = Ret () s /\
    boot_read (c_pid c) devsw c (47 :: image_name arg) n (boot_fs (img s) u) = Ret (Some (Z.min n (Z.of_nat (length g)), take (Z.to_nat n) g)) f'.
Proof.
  intros Hc Hw Hf Hnd Hmod Ha Hg Hne Hnul Hpid Hn. destruct (main_image Hw (fun _ => []) prog name args files Hc Hf) as (s & root & Fs & E & Im).
  destruct (ci_log _ _ _ _ _ _ Im) as [Hl Hz]. destruct (forkret_run (c_pid c) (img s) u Hl (Hz 2 ltac:(lia)) (ci_sb _ _ _ _ _ _ Im)) as (l & V & Eb & Hde & T).
  destruct (main_image Hw V prog name args files Hc Hf) as (s' & root' & Fs' & E' & Im'). rewrite E in E'. injection E' as <-.
  pose proof (fs_image_deq (mkfs_image_world V) (img s) V ltac:(by symmetry) args _ eq_refl files _ eq_refl root' _ eq_refl Fs' _ eq_refl Im') as Im2.
  assert (47 ∉ image_name arg) as Hsl.
  { destruct (Forall2_lookup_l _ _ _ _ _ (ft_host _ _ Hf) Ha) as (? & _ & (Hsl & _)). intros Hin. apply Hsl. unfold image_name in Hin.
    destruct arg as [|a arg]; [done|]. repeat case_match; try done; by right. }
  destruct (boot_read_run (c_pid c) devsw V u c args files root' Fs' k arg g n (image_layout V) Im2 Hnd Hmod Ha Hg Hne Hsl Hnul Hpid Hn l T) as (f' & Er).
  exists s, f'. split; [done|]. unfold boot_read. destruct (bind_inv _ _ _ _ _ Eb) as ([] & f1 & E1 & Eb1). destruct (bind_inv _ _ _ _ _ Eb1) as ([] & f2 & E2 & E3).
  by rewrite (bind_ret _ _ _ _ _ E1), (bind_ret _ _ _ _ _ E2), (bind_ret _ _ _ _ _ E3).
Qed.

Lemma mkfs_boot_read_witness :
  exists s f', main (H := demo_host) [[]; []; [95; 97]; [98]] mkfs_boot = Ret () s /\
    boot_read 1 (fun _ => mkDev None None) (mkCaller 1 0 0 0 0 0) [47; 97] 514 (boot_fs (img s) ∅) = Ret (Some (514, replicate 512 7 ++ [1; 2])) f'.
Proof.
  destruct (@mkfs_boot_read demo_host (fun _ => mkDev None None) (mkCaller 1 0 0 0 0 0) ∅ [] [] [[95; 97]; [98]] [replicate 512 7 ++ [1; 2; 3]; []] 0 [95; 97]
    (replicate 512 7 ++ [1; 2; 3]) 514 eq_refl (fun _ _ => eq_refl) demo_fits) as (s & f' & E & Er).
  - apply (bool_decide_unpack _). vm_compute. exact Logic.I.
  - vm_compute. discriminate.
  - reflexivity.
  - reflexivity.
  - discriminate.
  - repeat constructor; discriminate.
  - vm_compute. discriminate.
  - split; [vm_compute; discriminate|reflexivity].
  - exists s, f'. split; [exact E|exact Er].
Defined.
