(* ===== verification/Kbd.v ===== *)
(** * The keyboard

    kbd.c and the tables of kbd.h: [kbdgetc] turns the scan codes of the controller into
    characters, [kbdintr] hands them to the console. *)

From S2P Require Import Prelude Console.
Open Scope Z_scope.

Definition SHIFT : Z := 1.
Definition CTL : Z := 2.
Definition ALT : Z := 4.
Definition CAPSLOCK : Z := 8.
Definition NUMLOCK : Z := 16.
Definition SCROLLLOCK : Z := 32.
Definition E0ESC : Z := 64.

(** An array of 256 bytes: its first elements, and those given by index. *)
Definition table (l : list Z) (at_ : list (Z * Z)) (i : Z) : Z :=
  match list_find (fun e => e.1 = i) at_ with
  | Some (_, e) => e.2
  | None => default 0 (l !! Z.to_nat i)
  end.

Definition shiftcode : Z -> Z := table [] [(0x1D, CTL); (0x2A, SHIFT); (0x36, SHIFT); (0x38, ALT); (0x9D, CTL); (0xB8, ALT)].
Definition togglecode : Z -> Z := table [] [(0x3A, CAPSLOCK); (0x45, NUMLOCK); (0x46, SCROLLLOCK)].

(** The keys with a code of their own. *)
Definition special (enter div : Z) : list (Z * Z) :=
  [(0x9C, enter); (0xB5, div); (0xC8, 0xE2); (0xD0, 0xE3); (0xC9, 0xE6); (0xD1, 0xE7); (0xCB, 0xE4); (0xCD, 0xE5);
   (0x97, 0xE0); (0xCF, 0xE1); (0xD2, 0xE8); (0xD3, 0xE9)].
Definition normalmap : Z -> Z := table
  [0; 27; 49; 50; 51; 52; 53; 54; 55; 56; 57; 48; 45; 61; 8; 9;
   113; 119; 101; 114; 116; 121; 117; 105; 111; 112; 91; 93; 10; 0; 97; 115;
   100; 102; 103; 104; 106; 107; 108; 59; 39; 96; 0; 92; 122; 120; 99; 118;
   98; 110; 109; 44; 46; 47; 0; 42; 0; 32; 0; 0; 0; 0; 0; 0;
   0; 0; 0; 0; 0; 0; 0; 55; 56; 57; 45; 52; 53; 54; 43; 49;
   50; 51; 48; 46; 0; 0; 0; 0] (special 10 47).
Definition shiftmap : Z -> Z := table
  [0; 27; 33; 64; 35; 36; 37; 94; 38; 42; 40; 41; 95; 43; 8; 9;
   81; 87; 69; 82; 84; 89; 85; 73; 79; 80; 123; 125; 10; 0; 65; 83;
   68; 70; 71; 72; 74; 75; 76; 58; 34; 126; 0; 124; 90; 88; 67; 86;
   66; 78; 77; 60; 62; 63; 0; 42; 0; 32; 0; 0; 0; 0; 0; 0;
   0; 0; 0; 0; 0; 0; 0; 55; 56; 57; 45; 52; 53; 54; 43; 49;
   50; 51; 48; 46; 0; 0; 0; 0] (special 10 47).
Definition ctlmap : Z -> Z := table
  [0; 0; 0; 0; 0; 0; 0; 0; 0; 0; 0; 0; 0; 0; 0; 0;
   17; 23; 5; 18; 20; 25; 21; 9; 15; 16; 0; 0; 13; 0; 1; 19;
   4; 6; 7; 8; 10; 11; 12; 0; 0; 0; 0; 28; 26; 24; 3; 22;
   2; 14; 13; 0; 0; 239; 0; 0] (special 13 239).
Definition charcode (m : Z) : Z -> Z := if m =? 0 then normalmap else if m =? 1 then shiftmap else ctlmap.

(** What the controller has: a scan code, or nothing.  The result and the new [shift]. *)
Definition kbdgetc (code : option Z) (shift : Z) : Z * Z :=
  match code with
  | None => (-1, shift)
  | Some data =>
      if data =? 0xE0 then (0, Z.lor shift E0ESC)
      else if nz (Z.land data 0x80) then
        let data := if nz (Z.land shift E0ESC) then data else Z.land data 0x7F in
        (0, Z.land shift (Z.lnot (Z.lor (shiftcode data) E0ESC)))
      else
        let '(data, shift) :=
          if nz (Z.land shift E0ESC) then (Z.lor data 0x80, Z.land shift (Z.lnot E0ESC)) else (data, shift) in
        let shift := Z.lor shift (shiftcode data) in
        let shift := Z.lxor shift (togglecode data) in
        let c := charcode (Z.land shift (Z.lor CTL SHIFT)) data in
        let c := if nz (Z.land shift CAPSLOCK) then
                   if (97 <=? c) && (c <=? 122) then c + (65 - 97)
                   else if (65 <=? c) && (c <=? 90) then c + (97 - 65)
                   else c
                 else c in
        (c, shift)
  end.

(** The characters [kbdgetc] gives [consoleintr], which calls it until it is negative, when the controller has
    the codes [codes]. *)
Fixpoint chars (codes : list Z) (shift : Z) : list Z * Z :=
  match codes with
  | [] => ([], (kbdgetc None shift).2)
  | d :: codes' =>
      let r := kbdgetc (Some d) shift in
      let r' := chars codes' r.2 in
      (r.1 :: r'.1, r'.2)
  end.

Definition kbdintr (codes : list Z) (shift : Z) (s : console) : outcome console Z :=
  (let r := chars codes shift in consoleintr r.1 ;;; ret r.2) s.

(** ** Typing *)

(** The codes a key makes when it is pressed and released, with the shift key where it is needed. *)
Definition key_of (m : Z -> Z) (c : Z) : option Z := Z.of_nat <$> (fst <$> list_find (fun i => m (Z.of_nat i) = c) (seq 0 88)).
Definition strokes (c : Z) : list Z :=
  match key_of normalmap c, key_of shiftmap c with
  | Some i, _ => [i; Z.lor i 0x80]
  | None, Some i => [0x2A; i; Z.lor i 0x80; 0xAA]
  | None, None => []
  end.
Definition typed (w : list Z) : list Z := concat (strokes <$> w).

(** The characters one can type, and the state of the three locks. *)
Definition typeable (c : Z) : bool := (c =? 10) || ((32 <=? c) && (c <=? 126)).
Definition locks (l : Z) : bool := Z.land l (Z.lor CAPSLOCK (Z.lor NUMLOCK SCROLLLOCK)) =? l.
Definition swapcase (c : Z) : Z :=
  if (97 <=? c) && (c <=? 122) then c - 32 else if (65 <=? c) && (c <=? 90) then c + 32 else c.
Definition locked (l c : Z) : Z := if nz (Z.land l CAPSLOCK) then swapcase c else c.

Definition types_right (l c : Z) : bool :=
  let r := chars (strokes c) l in (r.2 =? l) && bool_decide (filter (fun x => x <> 0) r.1 = [locked l c]) && forallb (fun x => (0 <=? x) && (x <? 256)) r.1.

Lemma every_key : forallb (fun l => forallb (types_right (8 * Z.of_nat l)) (10 :: (Z.of_nat <$> seq 32 95))) (seq 0 8) = true.
Proof. vm_compute. reflexivity. Qed.

Lemma locks_cases l : locks l = true -> exists k, (k < 8)%nat /\ l = 8 * Z.of_nat k.
Proof.
  unfold locks, CAPSLOCK, NUMLOCK, SCROLLLOCK. intros H. apply Z.eqb_eq in H. change (Z.lor 8 (Z.lor 16 32)) with (Z.shiftl (Z.ones 3) 3) in H.
  exists (Z.to_nat (Z.land (Z.shiftr l 3) (Z.ones 3))). rewrite Z.land_ones by lia. change (2 ^ 3) with 8.
  assert (0 <= Z.shiftr l 3 mod 8 < 8) as Hm by (apply Z.mod_pos_bound; lia). split; [lia|]. rewrite Z2Nat.id by lia.
  change 8 with (2 ^ 3). rewrite <- Z.land_ones, Z.mul_comm, <- Z.shiftl_mul_pow2 by lia.
  rewrite <- H at 1. apply Z.bits_inj'. intros n Hn. rewrite Z.land_spec, !Z.shiftl_spec by lia. destruct (decide (n < 3)).
  - rewrite !(Z.testbit_neg_r _ (n - 3)) by lia. apply andb_false_r.
  - rewrite Z.land_spec, Z.shiftr_spec by lia. by replace (n - 3 + 3) with n by lia.
Qed.

Lemma types_right_all l c : locks l = true -> typeable c = true -> types_right l c = true.
Proof.
  intros Hl Hc. destruct (locks_cases l Hl) as (k & Hk & ->). pose proof every_key as H. rewrite forallb_forall in H.
  specialize (H k ltac:(apply in_seq; lia)). rewrite forallb_forall in H. apply H. unfold typeable in Hc. apply orb_true_iff in Hc as [Hc|Hc].
  - left. symmetry. by apply Z.eqb_eq.
  - right. bsplit. apply list_elem_of_In, list_elem_of_fmap. exists (Z.to_nat c). split; [lia|]. apply list_elem_of_In, in_seq. lia.
Qed.

Lemma chars_app l1 l2 sh : chars (l1 ++ l2) sh = ((chars l1 sh).1 ++ (chars l2 (chars l1 sh).2).1, (chars l2 (chars l1 sh).2).2).
Proof. revert sh. induction l1 as [|d l1 IH]; intros sh; cbn [app chars]; [cbn; by destruct (chars l2 sh)|]. cbn [fst snd]. by rewrite IH. Qed.

Lemma chars_typed l w : locks l = true -> forallb typeable w = true ->
  (chars (typed w) l).2 = l /\ filter (fun x => x <> 0) (chars (typed w) l).1 = locked l <$> w /\ Forall (fun x => 0 <= x < 256) (chars (typed w) l).1.
Proof.
  intros Hl. induction w as [|c w IH]; cbn [forallb]; intros Hw; [split_and!; try done; constructor|]. apply andb_true_iff in Hw as [Hc Hw].
  pose proof (types_right_all l c Hl Hc) as Hr. unfold types_right in Hr. rewrite !andb_true_iff, bool_decide_eq_true in Hr.
  destruct Hr as [[E1 E2] E3]. apply Z.eqb_eq in E1. unfold typed. cbn [fmap list_fmap concat]. rewrite chars_app. cbn [fst snd]. rewrite E1.
  destruct (IH Hw) as (H1 & H2 & H3). split_and!; [done| |].
  - rewrite filter_app, E2. fold (typed w). rewrite H2. done.
  - apply Forall_app. split; [|done]. apply Forall_forall. intros x Hx. rewrite forallb_forall in E3.
    specialize (E3 x (proj1 (list_elem_of_In _ _) Hx)). bsplit. lia.
Qed.

(** The console ignores a zero. *)
Lemma key_zero a : key 0 a = a.
Proof. destruct a. done. Qed.
Lemma keys_zero l a : foldl (fun a c => key c a) a (filter (fun x => x <> 0) l) = foldl (fun a c => key c a) a l.
Proof.
  revert a. induction l as [|c l IH]; intros a; [done|]. rewrite filter_cons. case_decide as E; cbn [foldl]; [apply IH|].
  assert (c = 0) as -> by (destruct (decide (c = 0)); [done|by destruct E]). by rewrite key_zero, IH.
Qed.

(** Typing works: the scan codes of the keys of a text (with the shift key pressed and
    released where a character needs it) give the console exactly the characters of
    the text, with the case of letters swapped under caps lock, for every state of the three locks, and leave
    that state as it was. *)
Theorem keyboard_types w l s a : forallb typeable w = true -> locks l = true -> screen_ok s -> input_rep s a ->
  exists s', kbdintr (typed w) l s = Ret l s' /\ screen_ok s' /\ input_rep s' (foldl (fun a c => key c a) a (locked l <$> w)).
Proof.
  intros Hw Hl Hs Hr. destruct (chars_typed l w Hl Hw) as (H1 & H2 & H3). unfold kbdintr. cbv zeta.
  destruct (consoleintr_run _ s a H3 Hs Hr) as (s' & E & Hs' & Hr'). rewrite (bind_ret _ _ _ _ _ E), H1. exists s'. split_and!; try done.
  by rewrite <- H2, keys_zero.
Qed.

(** Whatever the controller sends, the tables are read inside their bounds and the character is a byte. *)
Lemma kbdgetc_range : forallb (fun sh => forallb (fun d =>
    let r := kbdgetc (Some (Z.of_nat d)) (Z.of_nat sh) in (0 <=? r.1) && (r.1 <? 256) && (0 <=? r.2) && (r.2 <? 128)) (seq 0 256)) (seq 0 128) = true.
Proof. vm_compute. reflexivity. Qed.

Lemma chars_range codes sh : Forall (fun d => 0 <= d < 256) codes -> 0 <= sh < 128 ->
  Forall (fun c => 0 <= c < 256) (chars codes sh).1 /\ 0 <= (chars codes sh).2 < 128.
Proof.
  intros Hd. revert sh. induction Hd as [|d codes Hd _ IH]; intros sh Hsh; [done|]. pose proof kbdgetc_range as H. rewrite forallb_forall in H.
  specialize (H (Z.to_nat sh) ltac:(apply in_seq; lia)). rewrite forallb_forall in H. specialize (H (Z.to_nat d) ltac:(apply in_seq; lia)).
  rewrite !Z2Nat.id in H by lia. cbv zeta in H. rewrite !andb_true_iff, !Z.leb_le, !Z.ltb_lt in H. destruct H as [[[A1 A2] A3] A4].
  cbn [chars fst snd]. destruct (IH _ (conj A3 A4)) as [B1 B2]. split; [constructor; [lia|done]|done].
Qed.

Lemma kbdintr_total codes sh s a : Forall (fun d => 0 <= d < 256) codes -> 0 <= sh < 128 -> screen_ok s -> input_rep s a ->
  exists sh' s', kbdintr codes sh s = Ret sh' s' /\ 0 <= sh' < 128 /\ screen_ok s' /\ input_rep s' (foldl (fun a c => key c a) a (chars codes sh).1).
Proof.
  intros Hd Hsh Hs Hr. destruct (chars_range codes sh Hd Hsh) as [H1 H2]. destruct (consoleintr_run _ s a H1 Hs Hr) as (s' & E & Hs' & Hr').
  exists (chars codes sh).2, s'. unfold kbdintr. by rewrite (bind_ret _ _ _ _ _ E).
Qed.

(** [Hi!] and the enter key, with caps lock on. *)
Lemma keyboard_types_witness :
  exists s', kbdintr (typed [72; 105; 33; 10]) CAPSLOCK boot_console = Ret CAPSLOCK s' /\ input_rep s' (mkLines [104; 73; 33; 10] [] 1).
Proof.
  assert (screen_ok boot_console) as Hs.
  { split; [reflexivity|]. split; [cbn [cursor]; unfold SCREEN; lia|]. cbn [crt]. rewrite length_replicate. unfold SCREEN. lia. }
  assert (input_rep boot_console (mkLines [] [] 0)) as Hr by (split; cbn [ibuf ir iw ie wakeups committed editing told]; simpl; try done; lia).
  destruct (keyboard_types [72; 105; 33; 10] CAPSLOCK boot_console (mkLines [] [] 0) eq_refl eq_refl Hs Hr) as (s' & E & _ & Hr').
  exists s'. split; [exact E|exact Hr'].
Defined.
