(* ===== verification/Trap.v ===== *)
(** * Traps and the process system calls

    trap.c and sysproc.c in the default build, over the process table of proc.c.  The
    system calls and the device handlers that [trap] calls are arguments.  [exit] and
    [yield] give the CPU up and end a section of the call; a process that yielded goes on
    with [trap_tail], one in [sys_sleep] with [sys_sleep_loop]. *)

From S2P Require Import Prelude CString Spinlock Kalloc ProcData ProcTable Threads Syscall.
Open Scope Z_scope.

Definition T_SYSCALL : Z := 64.
Definition T_INT128 : Z := 128.
Definition T_IRQ0 : Z := 32.
Definition IRQ_TIMER : Z := 0.
Definition IRQ_KBD : Z := 1.
Definition IRQ_COM1 : Z := 4.
Definition IRQ_IDE : Z := 14.
Definition IRQ_SPURIOUS : Z := 31.
Definition DPL_USER : Z := 3.
Definition TICKS : channel := AddrChan 1.

(** [ticks], the end-of-interrupt of the local APIC, and the messages. *)
Class TrapOps (K : Type) := {
  ticks : K -> Z;
  set_ticks : Z -> K -> K;
  lapiceoi : M K ();
  cprintf : string -> M K () }.

Section trap.
Context (PTLOCK TICKSLOCK : Z) {K : Type} `{!KernelOps K, !TrapOps K}.
Local Abbreviation KS := (kstate ptable K).
Context (syscall ideintr kbdintr uartintr : M KS ()).

(** [if(myproc()->killed) exit();] *)
Definition exit_if_killed : M KS () :=
  let* cur := myproc in
  let* t := getp in
  when (nz (killed (P t cur))) (Threads.exit PTLOCK).

Definition user_mode (tf : trapframe) : bool := Z.land (tf_cs tf) 3 =? DPL_USER.

(** [if(myproc() && myproc()->killed && (tf->cs&3) == DPL_USER) exit();] *)
Definition trap_tail (tf : trapframe) : M KS () :=
  let* t := getp in
  match cproc t with
  | None => ret ()
  | Some p => when (nz (killed (P t p)) && user_mode tf) (Threads.exit PTLOCK)
  end.

Definition timer (cpu0 : bool) : M KS () :=
  when cpu0 (
    lk (acquire TICKSLOCK) ;;;
    kcall (modify (fun k => set_ticks (u32 (ticks k + 1)) k)) ;;;
    wakeup PTLOCK TICKS ;;;
    lk (release TICKSLOCK)) ;;;
  kcall lapiceoi.

(** The [default] of the switch. *)
Definition unexpected (tf : trapframe) : M KS () :=
  let* t := getp in
  match cproc t with
  | None => kcall (cprintf "unexpected trap") ;;; panic "trap"
  | Some p =>
      if Z.land (tf_cs tf) 3 =? 0 then kcall (cprintf "unexpected trap") ;;; panic "trap"
      else
        kcall (cprintf "kill proc") ;;;
        modp (upd p (set_killed 1))
  end.

Definition trap (cpu0 : bool) (tf : trapframe) : M KS () :=
  let trapno := tf_trapno tf in
  if trapno =? T_SYSCALL then
    exit_if_killed ;;;
    let* cur := myproc in
    modp (upd cur (set_tf tf)) ;;;
    syscall ;;;
    exit_if_killed
  else if trapno =? T_INT128 then
    exit_if_killed ;;;
    let* cur := myproc in
    modp (upd cur (set_tf tf)) ;;;
    kcall (cprintf "user interrupt 128 called!") ;;;
    exit_if_killed
  else
    (if trapno =? T_IRQ0 + IRQ_TIMER then timer cpu0
     else if trapno =? T_IRQ0 + IRQ_IDE then ideintr ;;; kcall lapiceoi
     else if trapno =? T_IRQ0 + IRQ_IDE + 1 then ret ()
     else if trapno =? T_IRQ0 + IRQ_KBD then kbdintr ;;; kcall lapiceoi
     else if trapno =? T_IRQ0 + IRQ_COM1 then uartintr ;;; kcall lapiceoi
     else if (trapno =? T_IRQ0 + 7) || (trapno =? T_IRQ0 + IRQ_SPURIOUS) then
       kcall (cprintf "spurious interrupt") ;;; kcall lapiceoi
     else unexpected tf) ;;;
    trap_tail tf ;;;
    (let* t := getp in
     match cproc t with
     | None => ret ()
     | Some p => when (bool_decide (state (P t p) = RUNNING) && (trapno =? T_IRQ0 + IRQ_TIMER)) (yield PTLOCK)
     end) ;;;
    trap_tail tf.
End trap.

(** ** sysproc.c *)

Section sysproc.
Context (PTLOCK TICKSLOCK : Z) {K : Type} `{!KernelOps K, !TrapOps K}.
Local Abbreviation KS := (kstate ptable K).
(** [argint] of the current process. *)
Context (arg : Z -> option Z).

Definition sys_fork : M KS Z := fork PTLOCK.
Definition sys_exit : M KS Z := Threads.exit PTLOCK ;;; ret 0.
Definition sys_wait : M KS Z := wait PTLOCK.
Definition sys_kill : M KS Z := if arg 0 is Some pid then kill PTLOCK pid else ret (-1).
Definition sys_sbrk_call : M KS Z := if arg 0 is Some n then sys_sbrk n else ret (-1).

(** The comparison is unsigned. *)
Definition sys_sleep_loop (n ticks0 : Z) : M KS Z :=
  let* s := get in
  if u32 (ticks (kern s) - ticks0) <? u32 n then
    let* cur := myproc in
    let* t := getp in
    if nz (killed (P t cur)) then lk (release TICKSLOCK) ;;; ret (-1)
    else sleep PTLOCK TICKS TICKSLOCK ;;; ret 0
  else lk (release TICKSLOCK) ;;; ret 0.
Definition sys_sleep : M KS Z :=
  match arg 0 with
  | None => ret (-1)
  | Some n =>
      lk (acquire TICKSLOCK) ;;;
      let* s := get in
      sys_sleep_loop n (ticks (kern s))
  end.

Definition sys_uptime : M KS Z :=
  lk (acquire TICKSLOCK) ;;;
  let* s := get in
  let xticks := ticks (kern s) in
  lk (release TICKSLOCK) ;;;
  ret (s32 xticks).

Definition sys_yield : M KS Z := yield PTLOCK ;;; ret 0.
Definition sys_getlev : M KS Z := ret (-1).
Definition sys_setpriority : M KS Z := ret (-1).

Definition sys_thread_create : M KS Z :=
  match arg 0, arg 1, arg 2 with
  | Some thread, Some start_routine, Some a => thread_create PTLOCK (u32 thread) (u32 start_routine) (u32 a)
  | _, _, _ => ret (-1)
  end.
Definition sys_thread_exit : M KS Z :=
  if arg 0 is Some retval then thread_exit PTLOCK (u32 retval) ;;; ret 0 else ret (-1).
Definition sys_thread_join : M KS Z :=
  match arg 0, arg 1 with
  | Some thread, Some retval => thread_join PTLOCK thread (u32 retval)
  | _, _ => ret (-1)
  end.
End sysproc.

(** ** Killed processes do not go back to user space *)

Section guards.
Context (PTLOCK TICKSLOCK : Z) {K : Type} `{!KernelOps K, !TrapOps K}.
Local Abbreviation KS := (kstate ptable K).

(** The call does not come back to its caller. *)
Definition no_return {A} (c : M KS A) : Prop := forall s a s', c s <> Ret a s'.

Lemma no_return_bind {A B} (c : M KS A) (k : A -> M KS B) : (forall a, no_return (k a)) -> no_return (bind c k).
Proof. intros H s b s'' E. destruct (bind_inv _ _ _ _ _ E) as (a & s' & _ & E2). by apply (H a s' b s''). Qed.
Lemma no_return_panic {A} msg : no_return (panic msg : M KS A).
Proof. by intros s a s'. Qed.
Lemma no_return_if {A} (b : bool) (c d : M KS A) : no_return c -> no_return d -> no_return (if b then c else d).
Proof. by destruct b. Qed.

Lemma sched_no_return r : no_return (sched PTLOCK r : M KS ()).
Proof.
  apply no_return_bind. intros cur. apply no_return_bind. intros h. apply no_return_if; [apply no_return_panic|].
  apply no_return_bind. intros c. apply no_return_if; [apply no_return_panic|]. apply no_return_bind. intros t.
  apply no_return_if; [apply no_return_panic|]. apply no_return_if; [apply no_return_panic|].
  apply no_return_bind. intros _ s a s' E. done.
Qed.

Lemma exit_no_return : no_return (Threads.exit PTLOCK : M KS ()).
Proof.
  apply no_return_bind. intros cur. apply no_return_bind. intros t. apply no_return_if; [apply no_return_panic|].
  repeat first [apply sched_no_return | apply no_return_bind; let x := fresh in intros x].
Qed.

(** The current process, if there is one, has not been killed. *)
Definition alive (s : KS) : Prop := match cproc (pt s) with Some p => killed (P (pt s) p) = 0 | None => True end.

Lemma exit_if_killed_alive (s s' : KS) : exit_if_killed PTLOCK s = Ret () s' -> s' = s /\ alive s.
Proof.
  unfold exit_if_killed, bind, myproc, bind, getp, gets, alive. destruct (cproc (pt s)) as [p|] eqn:E; [|done].
  unfold bind, ret. cbn. unfold when, nz. destruct (Z.eqb_spec (killed (P (pt s) p)) 0) as [E0|E0]; cbn.
  - by intros [= <-].
  - intros H. by apply exit_no_return in H.
Qed.

Lemma trap_tail_alive tf (s s' : KS) : user_mode tf = true -> trap_tail PTLOCK tf s = Ret () s' -> s' = s /\ alive s.
Proof.
  intros Hu. unfold trap_tail, bind, getp, gets, alive. destruct (cproc (pt s)) as [p|]; [|by intros [= <-]].
  rewrite Hu, andb_true_r. unfold when, nz. destruct (Z.eqb_spec (killed (P (pt s) p)) 0) as [E0|E0]; cbn.
  - by intros [= <-].
  - intros H. by apply exit_no_return in H.
Qed.

Context (syscall ideintr kbdintr uartintr : M KS ()).
Local Abbreviation trap := (trap PTLOCK TICKSLOCK syscall ideintr kbdintr uartintr).

(** A trap number [trap] has no case for. *)
Definition is_fault (n : Z) : bool :=
  negb (existsb (Z.eqb n) [T_SYSCALL; T_INT128; T_IRQ0 + IRQ_TIMER; T_IRQ0 + IRQ_IDE; T_IRQ0 + IRQ_IDE + 1; T_IRQ0 + IRQ_KBD;
    T_IRQ0 + IRQ_COM1; T_IRQ0 + 7; T_IRQ0 + IRQ_SPURIOUS]).

Lemma trap_fault cpu0 tf : is_fault (tf_trapno tf) = true ->
  forall s, trap cpu0 tf s = (unexpected tf ;;; trap_tail PTLOCK tf ;;;
    (let* t := getp in match cproc t with None => ret () | Some p => when (bool_decide (state (P t p) = RUNNING) && false) (yield PTLOCK) end) ;;;
    trap_tail PTLOCK tf) s.
Proof.
  intros H s. unfold is_fault in H. cbn [existsb] in H. rewrite negb_true_iff, !orb_false_iff in H.
  destruct H as (H1 & H2 & H3 & H4 & H5 & H6 & H7 & H8 & H9 & _). unfold Trap.trap. by rewrite H1, H2, H3, H4, H5, H6, H7, H8, H9.
Qed.

Lemma fault_killed cpu0 tf (s : KS) cur : is_fault (tf_trapno tf) = true -> user_mode tf = true ->
  cproc (pt s) = Some cur -> (cur < length (procs (pt s)))%nat -> forall s', trap cpu0 tf s <> Ret () s'.
Proof.
  intros Hf Hu Hc Hl s' E. rewrite trap_fault in E by done. apply bind_inv in E as ([] & s1 & E1 & E). apply bind_inv in E as ([] & s2 & E2 & _).
  apply trap_tail_alive in E2 as [_ Ha]; [|done]. unfold unexpected in E1. unfold bind at 1, getp, gets in E1. rewrite Hc in E1.
  replace (Z.land (tf_cs tf) 3 =? 0) with false in E1 by (unfold user_mode in Hu; apply Z.eqb_eq in Hu; rewrite Hu; done).
  apply bind_inv in E1 as ([] & s3 & E3 & E1). unfold modp, modify in E1. injection E1 as <-. unfold kcall, lift in E3.
  destruct (cprintf "kill proc" (kern s)) as [x k| |]; [|done..]. injection E3 as _ <-. unfold alive in Ha. cbn in Ha. rewrite Hc in Ha.
  rewrite slot_upd_in, decide_True in Ha by done. done.
Qed.

Lemma fault_panics cpu0 tf (s : KS) k : is_fault (tf_trapno tf) = true -> Z.land (tf_cs tf) 3 = 0 ->
  cprintf "unexpected trap" (kern s) = Ret () k -> trap cpu0 tf s = Panic "trap".
Proof.
  intros Hf Hk Hp. rewrite trap_fault by done. apply bind_panic.
  assert ((kcall (cprintf "unexpected trap") ;;; panic "trap" : M KS ()) s = Panic "trap") as E by (unfold bind, kcall, lift; by rewrite Hp).
  unfold unexpected. unfold bind at 1, getp, gets. rewrite Hk. by destruct (cproc (pt s)).
Qed.

End guards.

(** A thread divides by zero; the kernel does. *)
Definition demo_trap_ops : TrapOps (list Z) := {|
  ticks k := Z.of_nat (length k); set_ticks _ k := 0 :: k; lapiceoi k := Ret () k; cprintf _ k := Ret () k |}.
Definition demo_frame (cs : Z) : trapframe := mkTrapframe 0 0 0 0 0 0 0 0 0 0 0 0 0 0 0 cs 0 0 0.


(** ** Sleeping *)

(** [sys_sleep] comes back only when the ticks have passed, or when its process was killed. *)
Lemma sys_sleep_waits PTLOCK TICKSLOCK {K} `{!KernelOps K, !TrapOps K} n t0 (s s' : kstate ptable K) r :
  sys_sleep_loop PTLOCK TICKSLOCK n t0 s = Ret r s' ->
  (r = 0 /\ u32 n <= u32 (ticks (kern s) - t0)) \/ (r = -1 /\ ~ alive s).
Proof.
  unfold sys_sleep_loop. rewrite bind_get. destruct (Z.ltb_spec (u32 (ticks (kern s) - t0)) (u32 n)) as [H|H].
  - intros E. apply bind_inv in E as (cur & s1 & E1 & E). unfold myproc, bind, getp, gets in E1. destruct (cproc (pt s)) as [p|] eqn:Ec; [|done].
    injection E1 as <- <-. unfold bind at 1, getp, gets in E. unfold nz in E. destruct (Z.eqb_spec (killed (P (pt s) p)) 0) as [E0|E0]; cbn [negb] in E.
    + apply bind_inv in E as (x & s2 & E2 & _). unfold sleep in E2. unfold bind at 1, getp, gets in E2. rewrite Ec in E2.
      destruct (_ =? 0); [done|]. do 3 (apply bind_inv in E2 as (? & ? & _ & E2)). by apply sched_no_return in E2.
    + apply bind_inv in E as (x & s2 & _ & E2). injection E2 as <- _. right. split; [done|]. unfold alive. by rewrite Ec.
  - intros E. apply bind_inv in E as (x & s2 & _ & E2). injection E2 as <- _. left. done.
Qed.
