(* ===== verification/Bootmain.v ===== *)
(** * The boot loader

    bootmain.c: the sectors of the first disk are read by polling its ports,
    [readseg] rounds a segment out to whole sectors, and [bootmain] loads the
    segments of the kernel's ELF file in the order of its program headers.  The
    theorem says for which files this puts every segment where it belongs. *)

From S2P Require Import Prelude CString Ide.
Open Scope Z_scope.

Definition SECTSIZE : Z := 512.
Definition ELF_MAGIC : Z := 0x464C457F.
(** The scratch space for the first page of the file. *)
Definition SCRATCH : Z := 0x10000.

(** elf.h, in memory at [e]. *)
Definition elf_magic (m : mem) (e : Z) : Z := ldw m e.
Definition elf_entry (m : mem) (e : Z) : Z := ldw m (e + 24).
Definition elf_phoff (m : mem) (e : Z) : Z := ldw m (e + 28).
Definition elf_phnum (m : mem) (e : Z) : Z := Z.lor (ld m (e + 44)) (Z.shiftl (ld m (e + 45)) 8).
Definition ph_off (m : mem) (ph : Z) : Z := ldw m (ph + 4).
Definition ph_paddr (m : mem) (ph : Z) : Z := ldw m (ph + 12).
Definition ph_filesz (m : mem) (ph : Z) : Z := ldw m (ph + 16).
Definition ph_memsz (m : mem) (ph : Z) : Z := ldw m (ph + 20).
Definition PH_SIZE : Z := 32.

Record boot (D : Type) := mkBoot { bmem : mem; bctl : D }.
Arguments mkBoot {D}. Arguments bmem {D}. Arguments bctl {D}.

Section boot.
Context {D : Type} `{!IdePorts D}.
Local Abbreviation BM := (M (boot D)).

Definition b_outb (port v : Z) : BM () := modify (fun s => mkBoot (bmem s) (outb port v (bctl s))).
Definition b_inb (port : Z) : BM Z := fun s => let r := inb port (bctl s) in Ret r.1 (mkBoot (bmem s) r.2).
Definition b_insl (port dst : Z) : BM () := fun s => let r := insl port (bctl s) in Ret () (mkBoot (write (bmem s) dst r.1) r.2).

(** A disk that is not ready after [fuel] polls blocks the loader. *)
Fixpoint waitdisk (fuel : nat) : BM () :=
  match fuel with
  | O => sleeps
  | S fuel' =>
      let* r := b_inb 0x1F7 in
      if negb (Z.land r 0xC0 =? 0x40) then waitdisk fuel' else ret ()
  end.

Definition readsect (fuel : nat) (dst offset : Z) : BM () :=
  waitdisk fuel ;;;
  b_outb 0x1F2 1 ;;;
  b_outb 0x1F3 (u8 offset) ;;;
  b_outb 0x1F4 (u8 (Z.shiftr offset 8)) ;;;
  b_outb 0x1F5 (u8 (Z.shiftr offset 16)) ;;;
  b_outb 0x1F6 (u8 (Z.lor (Z.shiftr offset 24) 0xE0)) ;;;
  b_outb 0x1F7 0x20 ;;;
  waitdisk fuel ;;;
  b_insl 0x1F0 dst.

Fixpoint readseg_loop (n fuel : nat) (pa epa offset : Z) : BM () :=
  match n with
  | O => sleeps
  | S n' =>
      if pa <? epa then readsect fuel pa offset ;;; readseg_loop n' fuel (u32 (pa + SECTSIZE)) epa (u32 (offset + 1))
      else ret ()
  end.

Definition readseg (fuel : nat) (pa count offset : Z) : BM () :=
  let epa := u32 (pa + count) in
  let pa := u32 (pa - offset mod SECTSIZE) in
  let offset := u32 (offset / SECTSIZE + 1) in
  readseg_loop (Z.to_nat (count / SECTSIZE) + 3) fuel pa epa offset.

(** The loop over the program headers. *)
Fixpoint load_loop (n fuel : nat) (ph eph : Z) : BM () :=
  match n with
  | O => ret ()
  | S n' =>
      if ph <? eph then
        let* m := gets bmem in
        let pa := ph_paddr m ph in
        readseg fuel pa (ph_filesz m ph) (ph_off m ph) ;;;
        let* m := gets bmem in
        when (ph_filesz m ph <? ph_memsz m ph)
          (modify (fun s => mkBoot (stosb (bmem s) (u32 (pa + ph_filesz m ph)) 0 (Z.to_nat (ph_memsz m ph - ph_filesz m ph))) (bctl s))) ;;;
        load_loop n' fuel (u32 (ph + PH_SIZE)) eph
      else ret ()
  end.

(** [Some entry] is the jump to the kernel, [None] the return to bootasm.S. *)
Definition bootmain (fuel : nat) : BM (option Z) :=
  readseg fuel SCRATCH 4096 0 ;;;
  let* m := gets bmem in
  if negb (elf_magic m SCRATCH =? ELF_MAGIC) then ret None
  else
    let ph := u32 (SCRATCH + elf_phoff m SCRATCH) in
    let eph := u32 (ph + elf_phnum m SCRATCH * PH_SIZE) in
    load_loop (Z.to_nat (elf_phnum m SCRATCH)) fuel ph eph ;;;
    let* m := gets bmem in
    ret (Some (elf_entry m SCRATCH)).
End boot.

(** ** The first disk *)

Section load.
Context {D : Type} `{!IdePorts D}.
Local Abbreviation B := (boot D).
(** The sectors of the disk, the sector a read command is for, and for how many polls the disk stays busy. *)
Context (contents : D -> Z -> list Z) (pending : D -> option Z) (delay : D -> nat) (bound : nat).

Definition command (n : Z) (d : D) : D :=
  outb 0x1F7 0x20 (outb 0x1F6 (u8 (Z.lor (Z.shiftr n 24) 0xE0)) (outb 0x1F5 (u8 (Z.shiftr n 16))
    (outb 0x1F4 (u8 (Z.shiftr n 8)) (outb 0x1F3 (u8 n) (outb 0x1F2 1 d))))).

(** How an ATA disk answers to single-sector reads of its drive 0. *)
Record boot_disk_ok : Prop := {
  bt_bound d : (delay d <= bound)%nat;
  bt_poll d : (forall n, contents (inb 0x1F7 d).2 n = contents d n) /\ pending (inb 0x1F7 d).2 = pending d /\
    match delay d with
    | O => Z.land (inb 0x1F7 d).1 0xC0 = 0x40
    | S k => Z.land (inb 0x1F7 d).1 0xC0 <> 0x40 /\ delay (inb 0x1F7 d).2 = k
    end;
  bt_read n d : 0 <= n < 2 ^ 28 -> (forall n', contents (command n d) n' = contents d n') /\ pending (command n d) = Some n;
  bt_data n d : pending d = Some n -> (insl 0x1F0 d).1 = contents d n /\ forall n', contents (insl 0x1F0 d).2 n' = contents d n';
  bt_len d n : length (contents d n) = Z.to_nat SECTSIZE;
  bt_byte d n : Forall (fun b => 0 <= b < 256) (contents d n) }.
Context (Hd : boot_disk_ok).

(** Byte [o] of the kernel's file, which starts in sector 1. *)
Definition kbyte (d : D) (o : Z) : Z := contents d (o / SECTSIZE + 1) !!! Z.to_nat (o mod SECTSIZE).
Definition same_disk (d d' : D) : Prop := forall n, contents d' n = contents d n.

Lemma kbyte_same d d' o : same_disk d d' -> kbyte d' o = kbyte d o.
Proof. intros E. unfold kbyte. by rewrite E. Qed.

Lemma waitdisk_run fuel (s : B) : (bound < fuel)%nat ->
  exists d, waitdisk fuel s = Ret () (mkBoot (bmem s) d) /\ same_disk (bctl s) d /\ pending d = pending (bctl s).
Proof.
  intros Hf. assert (delay (bctl s) < fuel)%nat as Hl by (pose proof (bt_bound Hd (bctl s)); lia). clear Hf. revert s Hl.
  induction fuel as [|fuel IH]; intros s Hl; [lia|]. cbn [waitdisk]. unfold bind at 1, b_inb.
  destruct (bt_poll Hd (bctl s)) as (H1 & H2 & H3). destruct (delay (bctl s)) as [|k].
  - rewrite H3. by eexists.
  - destruct H3 as [H3 H4]. rewrite (proj2 (Z.eqb_neq _ _)) by done. cbn [negb].
    destruct (IH (mkBoot (bmem s) (inb 0x1F7 (bctl s)).2)) as (d & E & Hs & Hp); [cbn; lia|]. exists d. split; [done|].
    split; [intros n; rewrite Hs; apply H1|by rewrite Hp].
Qed.

Lemma readsect_run fuel (s : B) dst n : (bound < fuel)%nat -> 0 <= n < 2 ^ 28 ->
  exists d, readsect fuel dst n s = Ret () (mkBoot (write (bmem s) dst (contents (bctl s) n)) d) /\ same_disk (bctl s) d.
Proof.
  intros Hf Hn. unfold readsect. destruct (waitdisk_run fuel s Hf) as (d1 & E1 & S1 & _). rewrite (bind_ret _ _ _ _ _ E1).
  unfold b_outb. rewrite !bind_modify. cbn [bmem bctl]. fold (command n d1). destruct (bt_read Hd n d1 Hn) as [H1 H2].
  destruct (waitdisk_run fuel (mkBoot (bmem s) (command n d1)) Hf) as (d2 & E2 & S2 & P2). rewrite (bind_ret _ _ _ _ _ E2). cbn [bmem bctl] in *.
  destruct (bt_data Hd n d2) as [H3 H4]; [congruence|]. exists (insl 0x1F0 d2).2. unfold b_insl. cbn [bmem bctl]. rewrite H3, S2, H1, S1.
  split; [done|]. intros k. by rewrite H4, S2, H1, S1.
Qed.

(** The loop of [readseg]: the bytes from [pa] up to [epa], and at most 511 more. *)
Lemma readseg_loop_run n fuel (s : B) pa epa o : (bound < fuel)%nat ->
  0 <= pa -> epa + 511 < 2 ^ 32 -> 1 <= o -> epa - pa <= 512 * (Z.of_nat n - 1) -> (1 <= n)%nat -> o + Z.of_nat n < 2 ^ 28 ->
  exists m d, readseg_loop n fuel pa epa o s = Ret () (mkBoot m d) /\ same_disk (bctl s) d /\
    (forall x, pa <= x < epa -> ld m x = kbyte (bctl s) ((o - 1) * SECTSIZE + (x - pa))) /\
    (forall x, x < pa \/ epa + 511 <= x -> ld m x = ld (bmem s) x).
Proof.
  intros Hf. revert s pa o. induction n as [|n IH]; intros s pa o Hpa Hepa Ho Hn Hn1 Hlim; [lia|]. cbn [readseg_loop].
  destruct (Z.ltb_spec pa epa) as [Hlt|Hge]; [|exists (bmem s), (bctl s); split_and!; [by destruct s|done|intros; lia|done]].
  destruct (readsect_run fuel s pa o Hf) as (d1 & E1 & S1); [lia|]. rewrite (bind_ret _ _ _ _ _ E1). unfold SECTSIZE in *. rewrite !u32_small by lia.
  pose proof (bt_len Hd (bctl s) o) as Hlen. change (Z.to_nat SECTSIZE) with 512%nat in Hlen.
  destruct (IH (mkBoot (write (bmem s) pa (contents (bctl s) o)) d1) (pa + 512) (o + 1)) as (m & d & E & S & Hin & Hout); [lia..|].
  cbn [bmem bctl] in *. exists m, d. split; [done|]. split; [intros k; by rewrite S, S1|]. split.
  - intros x Hx. destruct (decide (x < pa + 512)) as [Hl|Hl].
    + rewrite Hout, ld_write by lia. replace ((pa <=? x) && (x <? pa + Z.of_nat (length (contents (bctl s) o)))) with true by lia.
      unfold kbyte, SECTSIZE. rewrite (Z.add_comm _ (x - pa)), Z.div_add, Z.mod_add, Z.div_small, Z.mod_small by lia. by replace (0 + (o - 1) + 1) with o by lia.
    + rewrite Hin, (kbyte_same _ _ _ S1) by lia. f_equal. unfold SECTSIZE. lia.
  - intros x Hx. rewrite Hout by lia. apply ld_write_out. lia.
Qed.

Lemma readseg_run fuel (s : B) pa count off : (bound < fuel)%nat ->
  off mod 512 <= pa -> 0 <= count -> 0 <= off -> pa + count + 511 < 2 ^ 32 -> off + count < 2 ^ 36 ->
  exists m d, readseg fuel pa count off s = Ret () (mkBoot m d) /\ same_disk (bctl s) d /\
    (forall x, pa <= x < pa + count -> ld m x = kbyte (bctl s) (off + (x - pa))) /\
    (forall x, x < pa - off mod 512 \/ pa + count + 511 <= x -> ld m x = ld (bmem s) x).
Proof.
  intros Hf Hpa Hc Ho Hmax Hoff. unfold readseg, SECTSIZE. pose proof (Z.mod_pos_bound off 512 ltac:(done)). pose proof (Z.div_mod off 512 ltac:(done)).
  pose proof (Z.div_mod count 512 ltac:(done)). pose proof (Z.mod_pos_bound count 512 ltac:(done)). rewrite !u32_small by lia.
  destruct (readseg_loop_run (Z.to_nat (count / 512) + 3) fuel s (pa - off mod 512) (pa + count) (off / 512 + 1) Hf) as (m & d & E & S & Hin & Hout); [lia..|].
  exists m, d. split; [done|]. split; [done|]. split; [|done]. intros x Hx. rewrite Hin by lia. unfold SECTSIZE. f_equal. lia.
Qed.

(** A segment: its bytes of the file, and zeros from [filesz] up to [memsz]. *)
Definition clear (pa filesz memsz : Z) (m : mem) : mem :=
  if filesz <? memsz then stosb m (u32 (pa + filesz)) 0 (Z.to_nat (memsz - filesz)) else m.

Lemma ld_clear pa filesz memsz m x : 0 <= pa + filesz < 2 ^ 32 ->
  ld (clear pa filesz memsz m) x = if (pa + filesz <=? x) && (x <? pa + memsz) then 0 else ld m x.
Proof.
  intros Hpa. unfold clear. destruct (Z.ltb_spec filesz memsz).
  - rewrite stosb_spec, ld_write, length_replicate, u32_small by lia.
    replace (pa + filesz + Z.of_nat (Z.to_nat (memsz - filesz))) with (pa + memsz) by lia.
    case_match; [|done]. by rewrite lookup_total_replicate_2 by lia.
  - case_match; [lia|done].
Qed.

Lemma segment_run fuel (s : B) pa filesz memsz off : (bound < fuel)%nat ->
  off mod 512 <= pa -> 0 <= filesz -> 0 <= off < 2 ^ 32 -> filesz <= memsz -> pa + filesz + 511 < 2 ^ 32 ->
  exists m d, readseg fuel pa filesz off s = Ret () (mkBoot m d) /\ same_disk (bctl s) d /\
    (forall x, pa <= x < pa + memsz ->
      ld (clear pa filesz memsz m) x = if x <? pa + filesz then kbyte (bctl s) (off + (x - pa)) else 0) /\
    (forall x, x < pa - off mod 512 -> ld m x = ld (bmem s) x /\ ld (clear pa filesz memsz m) x = ld (bmem s) x).
Proof.
  intros Hf Hpa Hfs Hoff Hms Hmax. pose proof (Z.mod_pos_bound off 512 ltac:(done)).
  destruct (readseg_run fuel s pa filesz off Hf) as (m & d & E & Hs & Hin & Hout); [lia..|].
  exists m, d. split; [done|]. split; [done|]. split; intros x Hx; rewrite ld_clear by lia.
  - destruct (Z.ltb_spec x (pa + filesz)); case_match; try lia. rewrite Hin by lia. done.
  - rewrite Hout by lia. case_match; [lia|done].
Qed.

(** ** The kernel's file *)

(** Its first page, as [bootmain] sees it, and its segments. *)
Definition page (d : D) : mem := write ∅ SCRATCH (kbyte d <$> seqZ 0 4096).

Lemma ld_page d x : SCRATCH <= x < SCRATCH + 4096 -> ld (page d) x = kbyte d (x - SCRATCH).
Proof.
  intros Hx. unfold page. rewrite ld_write, length_fmap, length_seqZ. replace (_ && _) with true by lia.
  apply list_lookup_total_correct. rewrite list_lookup_fmap, lookup_seqZ_lt by lia. cbn. f_equal. f_equal. lia.
Qed.

Lemma page_byte d x : 0 <= ld (page d) x < 256.
Proof.
  unfold page. rewrite ld_write. case_match; [|done]. apply (Forall_lookup_total_1 (fun b => 0 <= b < 256)); [|lia].
  apply Forall_fmap, Forall_true. intros o. cbn. unfold kbyte. destruct (lookup_lt_is_Some_2 (contents d (o / SECTSIZE + 1)) (Z.to_nat (o mod SECTSIZE))) as [b E].
  - rewrite (bt_len Hd). pose proof (Z.mod_pos_bound o SECTSIZE ltac:(done)). lia.
  - rewrite (list_lookup_total_correct _ _ _ E). by apply (Forall_lookup_1 _ _ _ _ (bt_byte Hd d _) E).
Qed.

Lemma shifted b k : 0 <= k <= 24 -> 0 <= b < 256 -> 0 <= Z.shiftl b k < 2 ^ 32.
Proof. intros Hk Hb. rewrite Z.shiftl_mul_pow2 by lia. pose proof (Z.pow_le_mono_r 2 k 24 ltac:(done) ltac:(lia)). nia. Qed.

Lemma ldw_range m a : (forall x, 0 <= ld m x < 256) -> 0 <= ldw m a < 2 ^ 32.
Proof.
  intros H. unfold ldw, bytes_word. rewrite !read_lookup_total by lia.
  pose proof (H (a + Z.of_nat 0)). repeat (apply (lor_below 32); [lia| |]); [lia|..]; apply shifted; [lia|apply H|lia|apply H|lia|apply H].
Qed.

Definition phnum (P : mem) : Z := elf_phnum P SCRATCH.
Definition ph_at (P : mem) (i : Z) : Z := SCRATCH + elf_phoff P SCRATCH + i * PH_SIZE.
Definition seg_off (P : mem) (i : Z) : Z := ph_off P (ph_at P i).
Definition seg_paddr (P : mem) (i : Z) : Z := ph_paddr P (ph_at P i).
Definition seg_filesz (P : mem) (i : Z) : Z := ph_filesz P (ph_at P i).
Definition seg_memsz (P : mem) (i : Z) : Z := ph_memsz P (ph_at P i).
(** Where [readseg] starts to write for the segment. *)
Definition seg_start (P : mem) (i : Z) : Z := seg_paddr P i - seg_off P i mod SECTSIZE.

(** A segment of no bytes, as the linker leaves one for the stack's flags. *)
Definition seg_empty (P : mem) (i : Z) : Prop := seg_memsz P i = 0 /\ seg_filesz P i = 0 /\ seg_off P i mod SECTSIZE = 0.

(** The segments are in increasing order, apart, and above the scratch page. *)
Record kernel_ok (P : mem) : Prop := {
  ko_magic : elf_magic P SCRATCH = ELF_MAGIC;
  ko_headers : elf_phoff P SCRATCH + phnum P * PH_SIZE <= 4096;
  ko_seg i : 0 <= i < phnum P -> ~ seg_empty P i ->
    SCRATCH + 4096 <= seg_start P i /\ seg_filesz P i <= seg_memsz P i /\
    seg_paddr P i + seg_filesz P i + 511 < 2 ^ 32 /\ seg_paddr P i + seg_memsz P i < 2 ^ 32;
  ko_order i j : 0 <= i < j -> j < phnum P -> ~ seg_empty P i -> ~ seg_empty P j ->
    seg_paddr P i + seg_memsz P i <= seg_start P j }.

(** The segment's bytes of the file, and zeros after them. *)
Definition seg_loaded (d : D) (P : mem) (m : mem) (i : Z) : Prop :=
  forall x, seg_paddr P i <= x < seg_paddr P i + seg_memsz P i ->
    ld m x = if x <? seg_paddr P i + seg_filesz P i then kbyte d (seg_off P i + (x - seg_paddr P i)) else 0.

Definition has_page (P : mem) (m : mem) : Prop := forall x, SCRATCH <= x < SCRATCH + 4096 -> ld m x = ld P x.

(** ** The loop over the program headers *)

Section kernel.
Context (d : D) (P : mem) (HP : forall x, 0 <= ld P x < 256) (Hk : kernel_ok P) (fuel : nat) (Hf : (bound < fuel)%nat).

Lemma phnum_bounds : 0 <= phnum P < 2 ^ 16.
Proof.
  unfold phnum, elf_phnum. pose proof (HP (SCRATCH + 44)). pose proof (HP (SCRATCH + 45)).
  apply lor_below; [done|lia|]. rewrite Z.shiftl_mul_pow2 by done. lia.
Qed.

Lemma ph_at_bounds i : 0 <= i <= phnum P -> SCRATCH <= ph_at P i <= SCRATCH + 4096.
Proof. pose proof (ko_headers P Hk). pose proof (ldw_range P (SCRATCH + 28) HP). unfold ph_at, elf_phoff, PH_SIZE in *. lia. Qed.

Lemma ph_at_next i : ph_at P (i + 1) = ph_at P i + PH_SIZE.
Proof. unfold ph_at. lia. Qed.

Lemma ph_word m i k : has_page P m -> 0 <= i < phnum P -> 0 <= k <= 28 -> ldw m (ph_at P i + k) = ldw P (ph_at P i + k).
Proof.
  intros Hm Hi Hk'. pose proof (ph_at_bounds i ltac:(lia)). pose proof (ph_at_bounds (i + 1) ltac:(lia)).
  rewrite ph_at_next in *. unfold PH_SIZE in *. apply ldw_ext. intros x Hx. apply Hm. lia.
Qed.

Lemma ph_fields m i : has_page P m -> 0 <= i < phnum P ->
  ph_off m (ph_at P i) = seg_off P i /\ ph_paddr m (ph_at P i) = seg_paddr P i /\
  ph_filesz m (ph_at P i) = seg_filesz P i /\ ph_memsz m (ph_at P i) = seg_memsz P i.
Proof. intros. split_and!; by apply ph_word. Qed.

Lemma seg_bounds i : 0 <= seg_off P i < 2 ^ 32 /\ 0 <= seg_filesz P i < 2 ^ 32.
Proof. split; apply ldw_range, HP. Qed.

Lemma readseg_empty (s : B) i : seg_empty P i -> readseg fuel (seg_paddr P i) (seg_filesz P i) (seg_off P i) s = Ret () s.
Proof.
  intros (_ & -> & E). unfold readseg. rewrite E. cbn [Z.to_nat Z.div Nat.add]. change (Z.to_nat (0 / SECTSIZE) + 3)%nat with 3%nat.
  cbn [readseg_loop]. rewrite Z.add_0_r, Z.sub_0_r, Z.ltb_irrefl. done.
Qed.

Definition seg_clear (i : Z) : mem -> mem := clear (seg_paddr P i) (seg_filesz P i) (seg_memsz P i).

Lemma seg_run (s : B) i : 0 <= i < phnum P -> same_disk d (bctl s) ->
  exists m d', readseg fuel (seg_paddr P i) (seg_filesz P i) (seg_off P i) s = Ret () (mkBoot m d') /\ same_disk d d' /\
    seg_loaded d P (seg_clear i m) i /\
    (forall x, seg_empty P i \/ x < seg_start P i -> ld m x = ld (bmem s) x /\ ld (seg_clear i m) x = ld (bmem s) x).
Proof.
  intros Hi Hs. assert (Decision (seg_empty P i)) as [He|Hne] by (unfold seg_empty; apply _).
  - rewrite readseg_empty by exact He. exists (bmem s), (bctl s). destruct s as [m dd]. destruct He as (E1 & E2 & E3). unfold seg_clear, clear, seg_loaded.
    rewrite E1, E2. split; [reflexivity|]. split; [exact Hs|]. split; [intros x Hx; exfalso; lia|]. intros x _. split; reflexivity.
  - destruct (ko_seg P Hk i Hi Hne) as (H1 & H2 & H3 & H4). destruct (seg_bounds i) as [H5 H6]. unfold seg_start, SECTSIZE, SCRATCH in *.
    destruct (segment_run fuel s (seg_paddr P i) (seg_filesz P i) (seg_memsz P i) (seg_off P i) Hf) as (m & d' & E & Hs' & Hin & Hout); [lia..|].
    exists m, d'. split; [exact E|]. split; [intros n; rewrite Hs'; apply Hs|]. split.
    + intros x Hx. unfold seg_clear. rewrite (Hin x Hx), (kbyte_same _ _ _ Hs). reflexivity.
    + intros x [He|Hx]; [destruct (Hne He)|exact (Hout x Hx)].
Qed.

(** A state in which the first page is in place and nothing wrote to the disk. *)
Definition ready (s : B) : Prop := same_disk d (bctl s) /\ has_page P (bmem s).
Definition below_segs (i x : Z) : Prop := forall j, i <= j < phnum P -> seg_empty P j \/ x < seg_start P j.

Lemma scratch_below i x : 0 <= i -> x < SCRATCH + 4096 -> below_segs i x.
Proof.
  intros Hi Hx j Hj. assert (Decision (seg_empty P j)) as [He|Hne] by (unfold seg_empty; apply _); [by left|right].
  destruct (ko_seg P Hk j ltac:(lia) Hne) as [H1 _]. unfold SCRATCH in *. lia.
Qed.

Lemma segment_below i x : 0 <= i < phnum P -> seg_paddr P i <= x < seg_paddr P i + seg_memsz P i -> below_segs (i + 1) x.
Proof.
  intros Hi Hx j Hj. assert (Decision (seg_empty P j)) as [He|Hne] by (unfold seg_empty; apply _); [by left|right].
  assert (~ seg_empty P i) as Hi' by (intros (E & _); rewrite E in Hx; lia).
  pose proof (ko_order P Hk i j ltac:(lia) ltac:(lia) Hi' Hne). lia.
Qed.

Lemma load_step n (s : B) i : 0 <= i < phnum P -> ready s ->
  exists s', load_loop (S n) fuel (ph_at P i) (ph_at P (phnum P)) s = load_loop n fuel (ph_at P (i + 1)) (ph_at P (phnum P)) s' /\
    ready s' /\ seg_loaded d P (bmem s') i /\ (forall x, below_segs i x -> ld (bmem s') x = ld (bmem s) x).
Proof.
  intros Hi [Hs Hp]. destruct (seg_run s i Hi Hs) as (m & d' & E & Hs' & Hl & Hout).
  assert (has_page P m) as Hp' by (intros x Hx; rewrite (proj1 (Hout x (scratch_below i x ltac:(lia) ltac:(lia) i ltac:(lia)))); apply Hp, Hx).
  destruct (ph_fields _ i Hp Hi) as (E1 & E2 & E3 & _). destruct (ph_fields _ i Hp' Hi) as (_ & _ & F3 & F4).
  exists (mkBoot (seg_clear i m) d'). split; [|split_and!].
  - pose proof (ph_at_bounds i ltac:(lia)). pose proof (ph_at_bounds (i + 1) ltac:(lia)). pose proof (ph_at_bounds (phnum P) ltac:(lia)).
    assert ((ph_at P i <? ph_at P (phnum P)) = true) as Hlt by (unfold ph_at, PH_SIZE; lia).
    cbn [load_loop]. rewrite Hlt, bind_gets, E1, E2, E3, (bind_ret _ _ _ _ _ E), bind_gets. cbn [bmem]. rewrite F3, F4.
    rewrite ph_at_next in *. rewrite (u32_small (_ + PH_SIZE)) by (unfold SCRATCH in *; lia). unfold seg_clear, clear, when.
    destruct (seg_filesz P i <? seg_memsz P i); [rewrite bind_modify|]; reflexivity.
  - split; [exact Hs'|]. intros x Hx. cbn [bmem]. rewrite (proj2 (Hout x (scratch_below i x ltac:(lia) ltac:(lia) i ltac:(lia)))). apply Hp, Hx.
  - exact Hl.
  - intros x Hx. apply Hout, Hx. lia.
Qed.

Lemma load_loop_run n (s : B) i : 0 <= i -> i + Z.of_nat n = phnum P -> ready s ->
  exists s', load_loop n fuel (ph_at P i) (ph_at P (phnum P)) s = Ret () s' /\ ready s' /\
    (forall j, i <= j < phnum P -> seg_loaded d P (bmem s') j) /\ (forall x, below_segs i x -> ld (bmem s') x = ld (bmem s) x).
Proof.
  revert s i. induction n as [|n IH]; intros s i Hi Hn Hr; [exists s; split_and!; try exact Hr; [done|intros; lia|done]|].
  destruct (load_step n s i ltac:(lia) Hr) as (s1 & E1 & Hr1 & Hl1 & Ho1). destruct (IH s1 (i + 1) ltac:(lia) ltac:(lia) Hr1) as (s2 & E2 & Hr2 & Hl2 & Ho2).
  exists s2. split; [rewrite E1; exact E2|]. split; [exact Hr2|]. split.
  - intros j Hj. destruct (decide (j = i)) as [->|]; [|apply Hl2; lia].
    intros x Hx. rewrite (Ho2 x (segment_below i x ltac:(lia) Hx)). apply Hl1, Hx.
  - intros x Hx. rewrite Ho2, Ho1; [done|exact Hx|]. intros j Hj. apply Hx. lia.
Qed.

Lemma bootmain_run (s : B) : bctl s = d -> (forall x, SCRATCH <= x < SCRATCH + 4096 -> ld P x = kbyte d (x - SCRATCH)) ->
  exists s', bootmain fuel s = Ret (Some (elf_entry P SCRATCH)) s' /\
    (forall i, 0 <= i < phnum P -> seg_loaded d P (bmem s') i) /\
    (forall x, x < SCRATCH -> ld (bmem s') x = ld (bmem s) x).
Proof.
  intros Hd' HPd. unfold bootmain.
  destruct (readseg_run fuel s SCRATCH 4096 0 Hf) as (m & d' & E & Hs & Hin & Hout); [done..|]. rewrite (bind_ret _ _ _ _ _ E), bind_gets. cbn [bmem].
  assert (has_page P m) as Hp by (intros x Hx; rewrite (Hin x Hx), (HPd x Hx), Hd'; reflexivity).
  assert (forall k, 0 <= k <= 48 -> ldw m (SCRATCH + k) = ldw P (SCRATCH + k)) as Hw by (intros k Hk'; apply ldw_ext; intros x Hx; apply Hp; lia).
  assert (elf_magic m SCRATCH = ELF_MAGIC) as Hm by (rewrite <- (ko_magic P Hk); exact (Hw 0 ltac:(lia))).
  assert (elf_phoff m SCRATCH = elf_phoff P SCRATCH) as Ho by exact (Hw 28 ltac:(lia)).
  assert (elf_phnum m SCRATCH = phnum P) as Hn by (unfold phnum, elf_phnum; rewrite !Hp by lia; reflexivity).
  pose proof phnum_bounds as Hb. pose proof (ph_at_bounds 0 ltac:(lia)) as H0. pose proof (ph_at_bounds (phnum P) ltac:(lia)) as H1.
  rewrite Hm, Ho, Hn, Z.eqb_refl. cbn [negb].
  assert (SCRATCH + elf_phoff P SCRATCH = ph_at P 0) as -> by (unfold ph_at; lia). rewrite (u32_small (ph_at P 0)) by (unfold SCRATCH in *; lia).
  assert (ph_at P 0 + phnum P * PH_SIZE = ph_at P (phnum P)) as -> by (unfold ph_at; lia). rewrite (u32_small (ph_at P _)) by (unfold SCRATCH in *; lia).
  destruct (load_loop_run (Z.to_nat (phnum P)) (mkBoot m d') 0) as (s' & E' & [_ Hp'] & Hl & Hout'); [done|lia|split; [rewrite <- Hd'; exact Hs|exact Hp]|].
  exists s'. split; [|split; [exact Hl|]].
  - rewrite (bind_ret _ _ _ _ _ E'), bind_gets. unfold ret. do 2 f_equal. apply ldw_ext. intros x Hx. apply Hp'. lia.
  - intros x Hx. rewrite Hout' by (apply scratch_below; lia). apply Hout. left. change (0 mod 512) with 0. lia.
Qed.
End kernel.


(** Any other file makes [bootmain] return. *)
Lemma bootmain_no_elf fuel (s : B) : (bound < fuel)%nat -> elf_magic (page (bctl s)) SCRATCH <> ELF_MAGIC ->
  exists s', bootmain fuel s = Ret None s'.
Proof.
  intros Hf Hk. unfold bootmain. destruct (readseg_run fuel s SCRATCH 4096 0 Hf) as (m & d' & E & Hs & Hin & Hout); [done..|].
  rewrite (bind_ret _ _ _ _ _ E), bind_gets. cbn [bmem]. exists (mkBoot m d').
  replace (elf_magic m SCRATCH) with (elf_magic (page (bctl s)) SCRATCH); [by rewrite (proj2 (Z.eqb_neq _ _) Hk)|].
  apply ldw_ext. intros x Hx. rewrite Hin, ld_page by lia. reflexivity.
Qed.
End load.

(** ** A disk with a small kernel *)

(** Three segments: the first starts inside a sector, the second is empty, and zeros follow each in memory. *)
Definition demo_header : list Z :=
  word_bytes ELF_MAGIC ++ replicate 20 0 ++ word_bytes 0x12004 ++ word_bytes 52 ++ replicate 12 0 ++ [3; 0] ++ replicate 6 0 ++
  concat (word_bytes <$>
    [1; 1000; 0; 0x11200; 600; 700; 5; 4096;
     0; 0; 0; 0; 0; 0; 6; 16;
     1; 2048; 0; 0x12000; 5; 10; 6; 4096]).
Definition demo_byte (o : Z) : Z := if (0 <=? o) && (o <? 148) then demo_header !!! Z.to_nat o else o mod 251.

Record drive := mkDrive { r_reg : Z -> Z; r_busy : bool }.
Definition drive_sector (d : drive) : Z :=
  r_reg d 0x1F3 + 2 ^ 8 * r_reg d 0x1F4 + 2 ^ 16 * r_reg d 0x1F5 + 2 ^ 24 * Z.land (r_reg d 0x1F6) 0x0f.
Definition drive_contents (d : drive) (n : Z) : list Z := demo_byte <$> seqZ ((n - 1) * SECTSIZE) SECTSIZE.
Definition drive_pending (d : drive) : option Z := if r_reg d 0x1F7 =? 0x20 then Some (drive_sector d) else None.
#[export] Instance drive_ports : IdePorts drive := {
  outb p v d := mkDrive (fun q => if q =? p then v else r_reg d q) (if p =? 0x1F7 then true else r_busy d);
  outsl _ _ d := d;
  inb _ d := (if r_busy d then 0x80 else 0x40, mkDrive (r_reg d) false);
  insl _ d := (drive_contents d (drive_sector d), d) }.

Lemma drive_command n d : 0 <= n < 2 ^ 28 -> drive_sector (command n d) = n.
Proof.
  intros Hn. destruct (sector_bytes n Hn) as [Hs Hx]. unfold drive_sector, command. cbn [r_reg outb drive_ports Z.eqb Pos.eqb].
  rewrite <- Hs at 5. unfold u8. change 256 with (2 ^ 8). rewrite <- !Z.land_ones by done.
  change (Z.ones 8) with 0xff. do 2 f_equal. rewrite <- Z.land_assoc. change (Z.land 0xff 0x0f) with 0x0f.
  rewrite Z.land_lor_distr_l. change (Z.land 0xE0 0x0f) with 0. apply Z.lor_0_r.
Qed.

Lemma demo_bytes o : 0 <= demo_byte o < 256.
Proof.
  unfold demo_byte. case_match; [|pose proof (Z.mod_pos_bound o 251 ltac:(done)); lia].
  apply (Forall_lookup_total_1 (fun b => 0 <= b < 256)); [|change (length demo_header) with 148%nat; lia].
  assert (forallb (fun b => (0 <=? b) && (b <? 256)) demo_header = true) as E by (vm_compute; reflexivity).
  rewrite forallb_forall in E. apply Forall_forall. intros b Hb. apply list_elem_of_In, E in Hb. lia.
Qed.

Lemma drive_ok : boot_disk_ok drive_contents drive_pending (fun d => if r_busy d then 1%nat else 0%nat) 1.
Proof.
  split.
  - intros d. destruct (r_busy d); lia.
  - intros d. split; [done|]. split; [done|]. cbn. by destruct (r_busy d).
  - intros n d Hn. split; [done|]. unfold drive_pending. by rewrite drive_command.
  - intros n d. unfold drive_pending. destruct (_ =? _); [|done]. by intros [= <-].
  - intros d n. unfold drive_contents. by rewrite length_fmap, length_seqZ.
  - intros d n. apply Forall_fmap, Forall_true. intros o. apply demo_bytes.
Qed.

Definition demo_boot : boot drive := mkBoot ∅ (mkDrive (fun _ => 0) true).
#[local] Abbreviation demo_page := (page drive_contents (bctl demo_boot)).

(** All the loader reads of the headers. *)
Definition headers (P : mem) : Z * Z * Z * Z * list (Z * Z * Z * Z) :=
  (elf_magic P SCRATCH, elf_entry P SCRATCH, elf_phoff P SCRATCH, phnum P,
    (fun i => (seg_off P i, seg_paddr P i, seg_filesz P i, seg_memsz P i)) <$> [0; 1; 2]).

Lemma drive_kbyte d o : 0 <= o -> kbyte drive_contents d o = demo_byte o.
Proof.
  intros Ho. unfold kbyte, drive_contents, SECTSIZE. pose proof (Z.mod_pos_bound o 512 ltac:(done)). pose proof (Z.div_mod o 512 ltac:(done)).
  apply list_lookup_total_correct. rewrite list_lookup_fmap, lookup_seqZ_lt by lia. cbn [fmap option_fmap option_map]. do 2 f_equal. lia.
Qed.

Definition demo_ram : mem := write ∅ SCRATCH (demo_byte <$> seqZ 0 148).

Lemma demo_page_ram P x : (forall y, SCRATCH <= y < SCRATCH + 4096 -> ld P y = demo_byte (y - SCRATCH)) ->
  SCRATCH <= x < SCRATCH + 148 -> ld P x = ld demo_ram x.
Proof.
  intros HP Hx. rewrite HP by lia. unfold demo_ram. rewrite ld_write, length_fmap, length_seqZ. replace (_ && _) with true by lia.
  symmetry. apply list_lookup_total_correct. rewrite list_lookup_fmap, lookup_seqZ_lt by lia. cbn [fmap option_fmap option_map]. do 2 f_equal. lia.
Qed.
Lemma demo_headers P : (forall y, SCRATCH <= y < SCRATCH + 4096 -> ld P y = demo_byte (y - SCRATCH)) ->
  headers P = (ELF_MAGIC, 0x12004, 52, 3, [(1000, 0x11200, 600, 700); (0, 0, 0, 0); (2048, 0x12000, 5, 10)]).
Proof.
  intros HP. assert (forall a, SCRATCH <= a <= SCRATCH + 144 -> ldw P a = ldw demo_ram a) as Hw.
  { intros a Ha. apply ldw_ext. intros x Hx. apply demo_page_ram; [exact HP|lia]. }
  assert (headers P = headers demo_ram) as ->; [|vm_compute; reflexivity].
  assert (elf_phoff demo_ram SCRATCH = 52) as E1 by (vm_compute; reflexivity).
  assert (elf_phoff P SCRATCH = 52) as E2 by (rewrite <- E1; apply Hw; lia).
  unfold headers, phnum, elf_phnum. rewrite !(demo_page_ram P) by (exact HP || lia).
  cbn [fmap list_fmap]. unfold seg_off, seg_paddr, seg_filesz, seg_memsz, ph_at, ph_off, ph_paddr, ph_filesz, ph_memsz. rewrite E1, E2.
  unfold elf_magic, elf_entry, PH_SIZE. rewrite !Hw by lia. reflexivity.
Qed.

Lemma headers_ok P e : headers P = (ELF_MAGIC, e, 52, 3, [(1000, 0x11200, 600, 700); (0, 0, 0, 0); (2048, 0x12000, 5, 10)]) -> kernel_ok P.
Proof.
  unfold headers. cbn [fmap list_fmap]. intros [= Em _ Eo En O0 P0 F0 M0 O1 P1 F1 M1 O2 P2 F2 M2].
  split; [done|rewrite Eo, En; done|..]; unfold seg_empty, seg_start; rewrite En.
  - intros i Hi. assert (i = 0 \/ i = 1 \/ i = 2) as [-> | [-> | ->]] by lia.
    + rewrite O0, P0, F0, M0. done.
    + rewrite O1, F1, M1. intros []. done.
    + rewrite O2, P2, F2, M2. done.
  - intros i j Hi Hj. assert ((i = 0 /\ j = 1) \/ (i = 0 /\ j = 2) \/ (i = 1 /\ j = 2)) as [[-> ->] | [[-> ->] | [-> ->]]] by lia.
    + rewrite O1, F1, M1. intros _ []. done.
    + rewrite P0, M0, O2, P2. done.
    + rewrite O1, F1, M1. intros []. done.
Qed.

Lemma headers_phnum P a b c n l : headers P = (a, b, c, n, l) -> phnum P = n.
Proof. unfold headers. congruence. Qed.

