(* ===== verification/Mp.v ===== *)
(** * The description of the processors

    mp.c: the search for the MP floating pointer structure that the BIOS leaves
    in memory, the check of the configuration table it points to, and the walk
    over the table that fills [cpus], [ncpu], [ioapicid] and [lapic].  The
    structures are read from a byte memory with the layout of mp.h. *)

From S2P Require Import Prelude CString Spinlock Kalloc Ide.
Open Scope Z_scope.

Definition NCPU : Z := 8.

(** Table entry types. *)
Definition MPPROC : Z := 0x00.
Definition MPBUS : Z := 0x01.
Definition MPIOAPIC : Z := 0x02.
Definition MPIOINTR : Z := 0x03.
Definition MPLINTR : Z := 0x04.

Definition ldh (m : mem) (a : Z) : Z := Z.lor (ld m a) (Z.shiftl (ld m (a + 1)) 8).

(** [struct mp], [struct mpconf], [struct mpproc] and [struct mpioapic]. *)
Definition sizeof_mp : Z := 16.
Definition mp_physaddr (m : mem) (mp : Z) : Z := ldw m (mp + 4).
Definition mp_imcrp (m : mem) (mp : Z) : Z := ld m (mp + 12).
Definition sizeof_mpconf : Z := 44.
Definition conf_length (m : mem) (c : Z) : Z := ldh m (c + 4).
Definition conf_version (m : mem) (c : Z) : Z := ld m (c + 6).
Definition conf_lapicaddr (m : mem) (c : Z) : Z := ldw m (c + 36).
Definition sizeof_mpproc : Z := 20.
Definition proc_apicid (m : mem) (p : Z) : Z := ld m (p + 1).
Definition sizeof_mpioapic : Z := 8.
Definition ioapic_apicno (m : mem) (p : Z) : Z := ld m (p + 1).

(** The globals that [mpinit] sets ([cpus] by its [apicid]s), and the ports. *)
Record machine (D : Type) := mkMachine {
  cpu_apicid : list Z; ncpu : Z; ioapicid : Z; lapic : Z; ports : D }.
Arguments mkMachine {D}. Arguments cpu_apicid {D}. Arguments ncpu {D}. Arguments ioapicid {D}. Arguments lapic {D}. Arguments ports {D}.

Section mp.
(** The memory, and where the kernel has the strings _MP_ and PCMP. *)
Context (m : mem) (lit_mp lit_pcmp : Z).

Fixpoint sum_loop (n : nat) (addr acc : Z) : Z :=
  match n with
  | O => acc
  | S n' => sum_loop n' (addr + 1) (s32 (acc + ld m addr))
  end.
Definition sum (addr len : Z) : Z := u8 (sum_loop (Z.to_nat len) addr 0).

Fixpoint mpsearch1_loop (n : nat) (p e : Z) : option Z :=
  match n with
  | O => None
  | S n' =>
      if p <? e then
        if (memcmp m p lit_mp 4 =? 0) && (sum p sizeof_mp =? 0) then Some p
        else mpsearch1_loop n' (u32 (p + sizeof_mp)) e
      else None
  end.
Definition mpsearch1 (a len : Z) : option Z :=
  let addr := P2V a in
  let e := u32 (addr + len) in
  mpsearch1_loop (Z.to_nat (len / sizeof_mp) + 2) addr e.

Definition mpsearch : option Z :=
  let bda := P2V 0x400 in
  let p := Z.shiftl (Z.lor (Z.shiftl (ld m (bda + 0x0F)) 8) (ld m (bda + 0x0E))) 4 in
  let first :=
    if nz p then mpsearch1 p 1024
    else
      let p := Z.lor (Z.shiftl (ld m (bda + 0x14)) 8) (ld m (bda + 0x13)) * 1024 in
      mpsearch1 (u32 (p - 1024)) 1024 in
  match first with
  | Some mp => Some mp
  | None => mpsearch1 0xF0000 0x10000
  end.

(** The table and, through [pmp], the structure that points to it. *)
Definition mpconfig : option (Z * Z) :=
  match mpsearch with
  | None => None
  | Some mp =>
      if mp_physaddr m mp =? 0 then None
      else
        let conf := P2V (mp_physaddr m mp) in
        if nz (memcmp m conf lit_pcmp 4) then None
        else if negb (conf_version m conf =? 1) && negb (conf_version m conf =? 4) then None
        else if nz (sum conf (conf_length m conf)) then None
        else Some (conf, mp)
  end.

Context {D : Type} `{!IdePorts D}.
Local Abbreviation MM := (M (machine D)).

Definition add_cpu (apicid : Z) : MM () :=
  let* s := get in
  when (ncpu s <? NCPU)
    (put (mkMachine (<[Z.to_nat (ncpu s) := apicid]> (cpu_apicid s)) (ncpu s + 1) (ioapicid s) (lapic s) (ports s))).
Definition set_ioapicid (id : Z) : MM () :=
  modify (fun s => mkMachine (cpu_apicid s) (ncpu s) id (lapic s) (ports s)).
Definition set_lapic (a : Z) : MM () :=
  modify (fun s => mkMachine (cpu_apicid s) (ncpu s) (ioapicid s) a (ports s)).
Definition mp_outb (port v : Z) : MM () :=
  modify (fun s => mkMachine (cpu_apicid s) (ncpu s) (ioapicid s) (lapic s) (outb port v (ports s))).
Definition mp_inb (port : Z) : MM Z := fun s =>
  let r := inb port (ports s) in Ret r.1 (mkMachine (cpu_apicid s) (ncpu s) (ioapicid s) (lapic s) r.2).

(** One turn of the loop per unit of [fuel]; the result is [ismp].  The [break] of the default case leaves the
    switch and not the loop, so it goes on with the same [p]. *)
Fixpoint mpinit_loop (fuel : nat) (p e : Z) (ismp : bool) : MM bool :=
  match fuel with
  | O => sleeps
  | S fuel' =>
      if p <? e then
        let t := ld m p in
        if t =? MPPROC then
          add_cpu (proc_apicid m p) ;;; mpinit_loop fuel' (u32 (p + sizeof_mpproc)) e ismp
        else if t =? MPIOAPIC then
          set_ioapicid (ioapic_apicno m p) ;;; mpinit_loop fuel' (u32 (p + sizeof_mpioapic)) e ismp
        else if (t =? MPBUS) || (t =? MPIOINTR) || (t =? MPLINTR) then
          mpinit_loop fuel' (u32 (p + 8)) e ismp
        else mpinit_loop fuel' p e false
      else ret ismp
  end.

Definition mpinit (fuel : nat) : MM () :=
  match mpconfig with
  | None => panic "Expect to run on an SMP"
  | Some (conf, mp) =>
      set_lapic (conf_lapicaddr m conf) ;;;
      let* ismp := mpinit_loop fuel (u32 (conf + sizeof_mpconf)) (u32 (conf + conf_length m conf)) true in
      if negb ismp then panic "Didn't find a suitable machine"
      else
        when (nz (mp_imcrp m mp))
          (mp_outb 0x22 0x70 ;;;
           let* v := mp_inb 0x23 in
           mp_outb 0x23 (Z.lor v 1))
  end.
End mp.

(** ** The search *)

Section search.
Context (m : mem) (lit_mp : Z).

(** The signature, and bytes that add up to 0. *)
Definition checksum (addr : Z) (len : nat) : Z := foldr Z.add 0 (read m addr len) mod 256.
Definition mp_valid (p : Z) : Prop := read m p 4 = read m lit_mp 4 /\ checksum p 16 = 0.

Lemma s32_mod_256 z : s32 z mod 256 = z mod 256.
Proof.
  unfold s32. pose proof (Z.div_mod (z + 2 ^ 31) (2 ^ 32) ltac:(done)) as E.
  replace ((z + 2 ^ 31) mod 2 ^ 32 - 2 ^ 31) with (z + (- (2 ^ 24 * ((z + 2 ^ 31) / 2 ^ 32))) * 256) by lia. by rewrite Z.mod_add.
Qed.

(** The wrap-around of the [int] does not show in the low byte. *)
Lemma sum_loop_spec n addr acc : sum_loop m n addr acc mod 256 = (acc + foldr Z.add 0 (read m addr n)) mod 256.
Proof.
  revert addr acc. induction n as [|n IH]; intros addr acc; cbn [sum_loop read foldr]; [by rewrite Z.add_0_r|].
  rewrite IH, Z.add_assoc, <- (Z.add_mod_idemp_l (acc + ld m addr)), <- (Z.add_mod_idemp_l (s32 _)), s32_mod_256 by done. done.
Qed.

Lemma sum_spec addr len : sum m addr len = checksum addr (Z.to_nat len).
Proof. unfold sum, u8. change (2 ^ 8) with 256. by rewrite sum_loop_spec. Qed.

Lemma memcmp_zero p q n : memcmp m p q n = 0 <-> read m p n = read m q n.
Proof.
  revert p q. induction n as [|n IH]; intros p q; cbn [memcmp read]; [done|].
  destruct (Z.eqb_spec (ld m p) (ld m q)) as [->|Hne]; cbn [negb]; [rewrite IH; split; [by intros ->|by intros [=]]|].
  split; [lia|by intros [=]].
Qed.

Lemma valid_test p : (memcmp m p lit_mp 4 =? 0) && (sum m p sizeof_mp =? 0) = true <-> mp_valid p.
Proof. rewrite andb_true_iff, !Z.eqb_eq, memcmp_zero, sum_spec. done. Qed.

(** The first of the slots [p], [p + 16], ... below [e] that is valid. *)
Definition first_valid (p e : Z) (r : option Z) : Prop :=
  match r with
  | Some q => exists k, 0 <= k /\ q = p + sizeof_mp * k /\ q < e /\ mp_valid q /\ forall j, 0 <= j < k -> ~ mp_valid (p + sizeof_mp * j)
  | None => forall j, 0 <= j -> p + sizeof_mp * j < e -> ~ mp_valid (p + sizeof_mp * j)
  end.

Lemma first_valid_next p e r : ~ mp_valid p -> first_valid (p + sizeof_mp) e r -> first_valid p e r.
Proof.
  intros Hv. unfold first_valid, sizeof_mp. destruct r as [q|].
  - intros (k & Hk & E & He & Hq & Hj). exists (k + 1). split_and!; [lia..|done|]. intros j Hj'. destruct (decide (j = 0)) as [->|].
    + by rewrite Z.mul_0_r, Z.add_0_r.
    + specialize (Hj (j - 1) ltac:(lia)). by replace (p + 16 + 16 * (j - 1)) with (p + 16 * j) in Hj by lia.
  - intros H j Hj He. destruct (decide (j = 0)) as [->|].
    + by rewrite Z.mul_0_r, Z.add_0_r.
    + specialize (H (j - 1) ltac:(lia) ltac:(lia)). by replace (p + 16 + 16 * (j - 1)) with (p + 16 * j) in H by lia.
Qed.

Lemma mpsearch1_loop_spec n p e : 0 <= p -> e + 16 < 2 ^ 32 -> e - p <= 16 * Z.of_nat n -> first_valid p e (mpsearch1_loop m lit_mp n p e).
Proof.
  revert p. induction n as [|n IH]; intros p Hp He Hn; cbn [mpsearch1_loop]; [intros j Hj; unfold sizeof_mp; lia|].
  destruct (Z.ltb_spec p e) as [Hlt|Hge]; [|intros j Hj; unfold sizeof_mp; lia].
  destruct (_ && _) eqn:E.
  - apply valid_test in E. exists 0. unfold sizeof_mp. rewrite Z.mul_0_r, Z.add_0_r. split_and!; [lia..|done|lia].
  - assert (~ mp_valid p) as Hv by (intros Hv; apply valid_test in Hv; congruence). apply first_valid_next; [done|].
    unfold sizeof_mp in *. rewrite u32_small by lia. apply IH; lia.
Qed.

(** [mpsearch1] finds the first valid structure of the area. *)
Lemma mpsearch1_spec a len : 0 <= a -> 0 <= len -> a + KERNBASE + len + 16 < 2 ^ 32 ->
  first_valid (a + KERNBASE) (a + KERNBASE + len) (mpsearch1 m lit_mp a len).
Proof.
  intros Ha Hl Hmax. unfold mpsearch1, P2V, sizeof_mp. unfold KERNBASE in *. rewrite !u32_small by lia. apply mpsearch1_loop_spec; [lia..|].
  pose proof (Z.div_mod len 16 ltac:(done)). pose proof (Z.mod_pos_bound len 16 ltac:(done)). pose proof (Z.div_pos len 16 ltac:(done) ltac:(done)). lia.
Qed.
End search.

(** ** The table *)

(** The entries of a table as the specification lists them. *)
Inductive entry := Eproc (apicid : Z) | Eioapic (apicno : Z) | Eother (ty : Z).

Definition entry_size (x : entry) : Z := match x with Eproc _ => sizeof_mpproc | _ => 8 end.
Definition entry_at (m : mem) (p : Z) (x : entry) : Prop :=
  match x with
  | Eproc a => ld m p = MPPROC /\ proc_apicid m p = a
  | Eioapic a => ld m p = MPIOAPIC /\ ioapic_apicno m p = a
  | Eother t => ld m p = t /\ (t = MPBUS \/ t = MPIOINTR \/ t = MPLINTR)
  end.
(** The entries [es] lie one after the other from [p] up to [q]. *)
Fixpoint table (m : mem) (p : Z) (es : list entry) (q : Z) : Prop :=
  match es with
  | [] => p = q
  | x :: es' => entry_at m p x /\ table m (p + entry_size x) es' q
  end.

Definition apicids (es : list entry) : list Z := omap (fun x => match x with Eproc a => Some a | _ => None end) es.
Definition ioapics (es : list entry) : list Z := omap (fun x => match x with Eioapic a => Some a | _ => None end) es.

Section table.
Context (m : mem) {D : Type} `{!IdePorts D}.
Local Abbreviation MS := (machine D).

(** What the walk does to the globals. *)
Definition enter (s : MS) (x : entry) : MS :=
  match x with
  | Eproc a => if ncpu s <? NCPU then mkMachine (<[Z.to_nat (ncpu s) := a]> (cpu_apicid s)) (ncpu s + 1) (ioapicid s) (lapic s) (ports s) else s
  | Eioapic a => mkMachine (cpu_apicid s) (ncpu s) a (lapic s) (ports s)
  | Eother _ => s
  end.

Lemma entry_size_pos x : 8 <= entry_size x <= 20.
Proof. destruct x; done. Qed.

Lemma table_le p es q : table m p es q -> p <= q.
Proof. revert p. induction es as [|x es IH]; intros p; cbn [table]; [lia|]. intros [_ Ht%IH]. pose proof (entry_size_pos x). lia. Qed.

Lemma mpinit_loop_step fuel (s : MS) p e b x : entry_at m p x -> 0 <= p < e -> e + 20 < 2 ^ 32 ->
  mpinit_loop m (S fuel) p e b s = mpinit_loop m fuel (p + entry_size x) e b (enter s x).
Proof.
  intros Hx Hp He. cbn [mpinit_loop]. rewrite (proj2 (Z.ltb_lt _ _)) by lia. unfold sizeof_mpioapic.
  destruct x as [a|a|t]; cbn [entry_at entry_size] in *; unfold sizeof_mpproc in *.
  - destruct Hx as [-> <-]. cbn [Z.eqb MPPROC]. unfold add_cpu. rewrite bind_assoc, bind_get. rewrite !u32_small by lia. unfold when, enter.
    by destruct (ncpu s <? NCPU).
  - destruct Hx as [-> <-]. cbn [Z.eqb MPPROC MPIOAPIC Pos.eqb]. by rewrite !u32_small by lia.
  - destruct Hx as [-> Ht']. rewrite !u32_small by lia. unfold MPBUS, MPIOINTR, MPLINTR, MPPROC, MPIOAPIC in *.
    by destruct Ht' as [-> | [-> | ->]].
Qed.

Lemma mpinit_loop_table es fuel (s : MS) p q e b : table m p es q -> 0 <= p -> q <= e -> e + 20 < 2 ^ 32 ->
  mpinit_loop m (length es + fuel) p e b s = mpinit_loop m fuel q e b (foldl enter s es).
Proof.
  revert s p. induction es as [|x es IH]; intros s p Ht Hp Hq He; cbn [table length Nat.add foldl] in *; [by subst|].
  destruct Ht as [Hx Ht]. pose proof (table_le _ _ _ Ht). pose proof (entry_size_pos x).
  rewrite (mpinit_loop_step _ _ _ _ _ x) by (done || lia). apply IH; done || lia.
Qed.

(** [s] after entries with these processors and I/O APICs. *)
Record entered (s0 : MS) (es : list entry) (s : MS) : Prop := {
  en_ncpu : ncpu s = Z.min NCPU (Z.of_nat (length (apicids es)));
  en_len : length (cpu_apicid s) = Z.to_nat NCPU;
  en_cpus : take (Z.to_nat (ncpu s)) (cpu_apicid s) = take (Z.to_nat NCPU) (apicids es);
  en_ioapic : ioapicid s = default (ioapicid s0) (last (ioapics es));
  en_lapic : lapic s = lapic s0;
  en_ports : ports s = ports s0 }.

Lemma entered_next s0 es s x : entered s0 es s -> entered s0 (es ++ [x]) (enter s x).
Proof.
  intros [E1 E2 E3 E4 E5 E6]. pose proof (f_equal length E3) as E7. rewrite !length_take in E7. unfold NCPU in *.
  destruct x as [a|a|t]; cbn [enter]; [destruct (Z.ltb_spec (ncpu s) NCPU) as [Hlt|Hge]; unfold NCPU in *|..]; split; cbn [ncpu cpu_apicid ioapicid lapic ports];
    unfold apicids, ioapics in *; rewrite ?omap_app; cbn [omap list_omap]; rewrite ?app_nil_r, ?length_app, ?length_insert, ?last_snoc; cbn [length]; unfold NCPU; try done; try lia.
  - assert (length (omap (fun x => match x with Eproc a => Some a | _ => None end) es) = Z.to_nat (ncpu s)) as El by lia.
    rewrite (take_ge (omap _ _)) in E3 by lia. rewrite (take_ge (omap _ es ++ _)) by (rewrite length_app; cbn [length]; lia).
    replace (Z.to_nat (ncpu s + 1)) with (S (Z.to_nat (ncpu s))) by lia.
    rewrite (take_S_r _ _ a) by (apply list_lookup_insert_eq; lia). rewrite take_insert_ge, E3 by lia. done.
  - rewrite E3, take_app_le by lia. done.
Qed.

Lemma entered_all s0 es : ncpu s0 = 0 -> length (cpu_apicid s0) = Z.to_nat NCPU -> entered s0 es (foldl enter s0 es).
Proof.
  intros H0 Hl. induction es as [|x es IH] using rev_ind; [split; cbn; try done; by rewrite H0|]. rewrite foldl_snoc. by apply entered_next.
Qed.

(** An entry of an unknown type. *)
Definition unknown (t : Z) : Prop := t <> MPPROC /\ t <> MPIOAPIC /\ t <> MPBUS /\ t <> MPIOINTR /\ t <> MPLINTR.

Lemma mpinit_loop_stuck fuel (s : MS) p e b : unknown (ld m p) -> p < e -> exists s', mpinit_loop m fuel p e b s = Blocked s'.
Proof.
  intros (H1 & H2 & H3 & H4 & H5) Hlt. revert b. induction fuel as [|fuel IH]; intros b; [by eexists|]. cbn [mpinit_loop].
  rewrite (proj2 (Z.ltb_lt _ _) Hlt), !(proj2 (Z.eqb_neq _ _)) by done. apply IH.
Qed.

Lemma mpinit_loop_unknown es fuel (s : MS) p q e b : table m p es q -> 0 <= p -> q < e -> e + 20 < 2 ^ 32 -> unknown (ld m q) ->
  exists s', mpinit_loop m fuel p e b s = Blocked s'.
Proof.
  revert fuel s p. induction es as [|x es IH]; intros fuel s p Ht Hp Hq He Hu; cbn [table] in *; [subst; by apply mpinit_loop_stuck|].
  destruct Ht as [Hx Ht]. pose proof (table_le _ _ _ Ht). pose proof (entry_size_pos x). destruct fuel as [|fuel]; [by eexists|].
  rewrite (mpinit_loop_step _ _ _ _ _ x) by (done || lia). apply (IH _ _ _ Ht); done || lia.
Qed.
End table.

(** ** [mpinit] *)

Section mpinit.
Context (m : mem) (lit_mp lit_pcmp : Z) {D : Type} `{!IdePorts D}.
Local Abbreviation MS := (machine D).

(** A table that [mpconfig] accepts has its signature, a known version and bytes that add up to 0. *)
Lemma mpconfig_spec conf mp : mpconfig m lit_mp lit_pcmp = Some (conf, mp) ->
  mpsearch m lit_mp = Some mp /\ conf = P2V (mp_physaddr m mp) /\ read m conf 4 = read m lit_pcmp 4 /\
  (conf_version m conf = 1 \/ conf_version m conf = 4) /\ checksum m conf (Z.to_nat (conf_length m conf)) = 0.
Proof.
  unfold mpconfig. destruct (mpsearch m lit_mp) as [mp'|]; [|done]. case_match; [done|]. destruct (nz (memcmp _ _ _ _)) eqn:E1; [done|].
  destruct (_ && _) eqn:E2; [done|]. destruct (nz (sum _ _ _)) eqn:E3; [done|]. intros [= <- <-]. unfold nz in *.
  rewrite negb_false_iff, Z.eqb_eq in *. rewrite memcmp_zero in E1. rewrite sum_spec in E3. split_and!; try done. lia.
Qed.

(** The interrupt mode register, when the machine has one. *)
Definition imcr (mp : Z) (d : D) : D :=
  if nz (mp_imcrp m mp) then let r := inb 0x23 (outb 0x22 0x70 d) in outb 0x23 (Z.lor r.1 1) r.2 else d.

(** [mpinit] fills [cpus] with the first [NCPU] processors of the table in their order, takes the last I/O APIC and the
    address of the local APIC, and switches the interrupt mode when the machine asks for it. *)
Lemma mpinit_correct fuel (s : MS) conf mp es : mpconfig m lit_mp lit_pcmp = Some (conf, mp) -> 0 <= conf ->
  conf + conf_length m conf + 20 < 2 ^ 32 -> table m (conf + sizeof_mpconf) es (conf + conf_length m conf) -> (length es < fuel)%nat ->
  ncpu s = 0 -> length (cpu_apicid s) = Z.to_nat NCPU ->
  exists s', mpinit m lit_mp lit_pcmp fuel s = Ret () s' /\
    ncpu s' = Z.min NCPU (Z.of_nat (length (apicids es))) /\
    take (Z.to_nat (ncpu s')) (cpu_apicid s') = take (Z.to_nat NCPU) (apicids es) /\
    ioapicid s' = default (ioapicid s) (last (ioapics es)) /\ lapic s' = conf_lapicaddr m conf /\ ports s' = imcr mp (ports s).
Proof.
  intros Hc H0 Hmax Ht Hf Hn Hl. unfold mpinit. rewrite Hc. unfold set_lapic. rewrite bind_modify.
  pose proof (table_le _ _ _ _ Ht). unfold sizeof_mpconf in *. rewrite !u32_small by lia.
  set (s1 := mkMachine (cpu_apicid s) (ncpu s) (ioapicid s) (conf_lapicaddr m conf) (ports s)).
  replace fuel with (length es + S (fuel - S (length es)))%nat by lia.
  pose proof (mpinit_loop_table m es (S (fuel - S (length es))) s1 _ _ _ true Ht ltac:(lia) (Z.le_refl _) ltac:(lia)) as E.
  cbn [mpinit_loop] in E. rewrite Z.ltb_irrefl in E. rewrite (bind_ret _ _ _ _ _ E). cbn [negb].
  destruct (entered_all s1 es Hn Hl) as [E1 E2 E3 E4 E5 E6]. unfold when, imcr. destruct (nz (mp_imcrp m mp)).
  - unfold mp_outb, mp_inb, bind, modify. cbn [ports]. rewrite E6. eexists. split; [reflexivity|]. cbn [ncpu cpu_apicid ioapicid lapic ports]. done.
  - eexists. split; [reflexivity|]. done.
Qed.

(** An entry of another type makes [mpinit] loop for ever: the [break] meant to leave the loop leaves the switch. *)
Lemma mpinit_unknown_loops fuel (s : MS) conf mp es q : mpconfig m lit_mp lit_pcmp = Some (conf, mp) -> 0 <= conf ->
  conf + conf_length m conf + 20 < 2 ^ 32 -> table m (conf + sizeof_mpconf) es q -> q < conf + conf_length m conf -> unknown (ld m q) ->
  exists s', mpinit m lit_mp lit_pcmp fuel s = Blocked s'.
Proof.
  intros Hc H0 Hmax Ht Hq Hu. unfold mpinit. rewrite Hc. unfold set_lapic. rewrite bind_modify.
  pose proof (table_le _ _ _ _ Ht). unfold sizeof_mpconf in *. rewrite !u32_small by lia.
  destruct (mpinit_loop_unknown m es fuel (mkMachine (cpu_apicid s) (ncpu s) (ioapicid s) (conf_lapicaddr m conf) (ports s)) _ _ _ true Ht ltac:(lia) Hq ltac:(lia) Hu) as [s' E].
  exists s'. unfold bind. by rewrite E.
Qed.
End mpinit.

(** ** A machine with two processors *)

Definition with_checksum (at_ : nat) (l : list Z) : list Z := <[at_ := u8 (- foldr Z.add 0 (<[at_ := 0]> l))]> l.
Definition lit_mp_bytes : list Z := [0x5f; 0x4d; 0x50; 0x5f].
Definition lit_pcmp_bytes : list Z := [0x50; 0x43; 0x4d; 0x50].
Definition demo_pointer : list Z := with_checksum 10 (lit_mp_bytes ++ word_bytes 0x9000 ++ [1; 4; 0; 0; 0; 0; 0; 0]).
Definition demo_proc (apicid : Z) : list Z := [MPPROC; apicid] ++ replicate 18 0.
Definition demo_table : list Z := with_checksum 7
  (lit_pcmp_bytes ++ [100; 0; 4; 0] ++ replicate 28 0 ++ word_bytes 0xfee00000 ++ replicate 4 0 ++
   demo_proc 0 ++ demo_proc 3 ++ [MPBUS; 0; 0; 0; 0; 0; 0; 0] ++ [MPIOAPIC; 2; 0; 0; 0; 0; 0; 0]).
Definition demo_bios (tbl : list Z) : mem :=
  write (write (write (write ∅ 16 lit_mp_bytes) 32 lit_pcmp_bytes) (P2V 0xF0040) demo_pointer) (P2V 0x9000) tbl.
#[local] Instance no_ports : IdePorts () := {| outb _ _ d := d; outsl _ _ d := d; inb _ d := (0, d); insl _ d := ([], d) |}.
Definition demo_machine : machine () := mkMachine (replicate 8 0) 0 0 0 ().

Example demo_mpinit : mpinit (demo_bios demo_table) 16 32 10 demo_machine = Ret () (mkMachine ([0; 3] ++ replicate 6 0) 2 2 0xfee00000 ()).
Proof. vm_compute. reflexivity. Qed.

Example demo_mpinit_entries : mpconfig (demo_bios demo_table) 16 32 = Some (P2V 0x9000, P2V 0xF0040) /\
  table (demo_bios demo_table) (P2V 0x9000 + sizeof_mpconf) [Eproc 0; Eproc 3; Eother MPBUS; Eioapic 2] (P2V 0x9000 + 100).
Proof. split; [vm_compute; reflexivity|]. cbn [table entry_at]. split_and!; vm_compute; try reflexivity. by left. Qed.

(** The same table with a last entry of type 5. *)
Example demo_mpinit_stuck : mpinit (demo_bios (with_checksum 7 (<[92%nat := 5]> demo_table))) 16 32 1000 demo_machine
  = Blocked (mkMachine ([0; 3] ++ replicate 6 0) 2 0 0xfee00000 ()).
Proof. vm_compute. reflexivity. Qed.
