(* ===== verification/Apic.v ===== *)
(** * The interrupt controllers and the clock

    lapic.c, ioapic.c and picirq.c: what the kernel writes to the registers of
    the local APIC, the I/O APIC and the two old controllers, the start of
    another processor, and the reading of the real time clock.  Registers in
    memory and the ports are the operations of a class; the theorems say what
    the routines leave in the registers of devices that behave as documented. *)

From S2P Require Import Prelude CString Spinlock Kalloc Ide.
Open Scope Z_scope.

Class Mmio (D : Type) := { st16 : Z -> Z -> D -> D; st32 : Z -> Z -> D -> D; ld32 : Z -> D -> Z * D }.

(** traps.h *)
Definition T_IRQ0 : Z := 32.
Definition IRQ_TIMER : Z := 0.
Definition IRQ_ERROR : Z := 19.
Definition IRQ_SPURIOUS : Z := 31.

(** Local APIC registers, divided by 4 for use as [uint[]] indices. *)
#[local] Abbreviation ID := (0x0020 / 4).
#[local] Abbreviation VER := (0x0030 / 4).
#[local] Abbreviation TPR := (0x0080 / 4).
#[local] Abbreviation EOI := (0x00B0 / 4).
#[local] Abbreviation SVR := (0x00F0 / 4).
#[local] Abbreviation ENABLE := (0x00000100).
#[local] Abbreviation ESR := (0x0280 / 4).
#[local] Abbreviation ICRLO := (0x0300 / 4).
#[local] Abbreviation INIT := (0x00000500).
#[local] Abbreviation STARTUP := (0x00000600).
#[local] Abbreviation DELIVS := (0x00001000).
#[local] Abbreviation ASSERT := (0x00004000).
#[local] Abbreviation LEVEL := (0x00008000).
#[local] Abbreviation BCAST := (0x00080000).
#[local] Abbreviation ICRHI := (0x0310 / 4).
#[local] Abbreviation TIMER := (0x0320 / 4).
#[local] Abbreviation X1 := (0x0000000B).
#[local] Abbreviation PERIODIC := (0x00020000).
#[local] Abbreviation PCINT := (0x0340 / 4).
#[local] Abbreviation LINT0 := (0x0350 / 4).
#[local] Abbreviation LINT1 := (0x0360 / 4).
#[local] Abbreviation ERROR := (0x0370 / 4).
#[local] Abbreviation MASKED := (0x00010000).
#[local] Abbreviation TICR := (0x0380 / 4).
#[local] Abbreviation TDCR := (0x03E0 / 4).

#[local] Abbreviation CMOS_PORT := (0x70).
#[local] Abbreviation CMOS_RETURN := (0x71).
#[local] Abbreviation CMOS_STATA := (0x0a).
#[local] Abbreviation CMOS_STATB := (0x0b).
#[local] Abbreviation CMOS_UIP := (Z.shiftl 1 7).
#[local] Abbreviation SECS := (0x00).
#[local] Abbreviation MINS := (0x02).
#[local] Abbreviation HOURS := (0x04).
#[local] Abbreviation DAY := (0x07).
#[local] Abbreviation MONTH := (0x08).
#[local] Abbreviation YEAR := (0x09).

(** ioapic.c *)
Definition IOAPIC : Z := 0xFEC00000.
Definition REG_ID : Z := 0x00.
Definition REG_VER : Z := 0x01.
Definition REG_TABLE : Z := 0x10.
Definition INT_DISABLED : Z := 0x00010000.

(** date.h *)
Record rtcdate := mkDate { second : Z; minute : Z; hour : Z; day : Z; month : Z; year : Z }.
#[export] Instance rtcdate_eq_dec : EqDecision rtcdate.
Proof. solve_decision. Defined.

Section devices.
Context {D : Type} `{!IdePorts D, !Mmio D}.
Local Abbreviation HM := (M D).

Definition w32 (a v : Z) : HM () := modify (st32 a v).
Definition w16 (a v : Z) : HM () := modify (st16 a v).
Definition r32 (a : Z) : HM Z := fun d => let r := ld32 a d in Ret r.1 r.2.
Definition out (port v : Z) : HM () := modify (outb port v).
Definition in_ (port : Z) : HM Z := fun d => let r := inb port d in Ret r.1 r.2.

(** ** lapic.c *)

Definition lapicw (lapic index value : Z) : HM () :=
  w32 (lapic + 4 * index) (u32 value) ;;;
  r32 (lapic + 4 * ID) ;;;
  ret ().

(** [while(lapic[ICRLO] & DELIVS)], at most [fuel] polls. *)
Fixpoint wait_delivery (fuel : nat) (lapic : Z) : HM () :=
  match fuel with
  | O => sleeps
  | S fuel' =>
      let* v := r32 (lapic + 4 * ICRLO) in
      if nz (Z.land v DELIVS) then wait_delivery fuel' lapic else ret ()
  end.

Definition lapicinit (fuel : nat) (lapic : Z) : HM () :=
  if lapic =? 0 then ret ()
  else
    lapicw lapic SVR (Z.lor ENABLE (T_IRQ0 + IRQ_SPURIOUS)) ;;;
    lapicw lapic TDCR X1 ;;;
    lapicw lapic TIMER (Z.lor PERIODIC (T_IRQ0 + IRQ_TIMER)) ;;;
    lapicw lapic TICR 10000000 ;;;
    lapicw lapic LINT0 MASKED ;;;
    lapicw lapic LINT1 MASKED ;;;
    let* ver := r32 (lapic + 4 * VER) in
    when (4 <=? Z.land (Z.shiftr ver 16) 0xFF) (lapicw lapic PCINT MASKED) ;;;
    lapicw lapic ERROR (T_IRQ0 + IRQ_ERROR) ;;;
    lapicw lapic ESR 0 ;;;
    lapicw lapic ESR 0 ;;;
    lapicw lapic EOI 0 ;;;
    lapicw lapic ICRHI 0 ;;;
    lapicw lapic ICRLO (Z.lor (Z.lor BCAST INIT) LEVEL) ;;;
    wait_delivery fuel lapic ;;;
    lapicw lapic TPR 0.

Definition lapicid (lapic : Z) : HM Z :=
  if lapic =? 0 then ret 0
  else let* v := r32 (lapic + 4 * ID) in ret (Z.shiftr v 24).

Definition lapiceoi (lapic : Z) : HM () :=
  when (nz lapic) (lapicw lapic EOI 0).

(** [microdelay] has no body.  The warm reset vector is two half words of memory. *)
Definition lapicstartap (lapic apicid addr : Z) : HM () :=
  out CMOS_PORT 0xF ;;;
  out (CMOS_PORT + 1) 0x0A ;;;
  let wrv := P2V (Z.lor (Z.shiftl 0x40 4) 0x67) in
  w16 wrv 0 ;;;
  w16 (wrv + 2) (u16 (Z.shiftr addr 4)) ;;;
  lapicw lapic ICRHI (Z.shiftl apicid 24) ;;;
  lapicw lapic ICRLO (Z.lor (Z.lor INIT LEVEL) ASSERT) ;;;
  lapicw lapic ICRLO (Z.lor INIT LEVEL) ;;;
  for_each [0; 1] (fun _ =>
    lapicw lapic ICRHI (Z.shiftl apicid 24) ;;;
    lapicw lapic ICRLO (Z.lor STARTUP (Z.shiftr addr 12))).

Definition cmos_read (reg : Z) : HM Z :=
  out CMOS_PORT (u8 reg) ;;;
  in_ CMOS_RETURN.

Definition fill_rtcdate : HM rtcdate :=
  let* s := cmos_read SECS in
  let* mi := cmos_read MINS in
  let* h := cmos_read HOURS in
  let* d := cmos_read DAY in
  let* mo := cmos_read MONTH in
  let* y := cmos_read YEAR in
  ret (mkDate s mi h d mo y).

(** Two equal readings with no update in progress between them; each turn uses one unit of [fuel]. *)
Fixpoint stable_read (fuel : nat) : HM rtcdate :=
  match fuel with
  | O => sleeps
  | S fuel' =>
      let* t1 := fill_rtcdate in
      let* sa := cmos_read CMOS_STATA in
      if nz (Z.land sa CMOS_UIP) then stable_read fuel'
      else
        let* t2 := fill_rtcdate in
        if bool_decide (t1 = t2) then ret t1 else stable_read fuel'
  end.

Definition CONV (x : Z) : Z := u32 (Z.shiftr x 4 * 10 + Z.land x 0xf).

Definition cmostime (fuel : nat) : HM rtcdate :=
  let* sb := cmos_read CMOS_STATB in
  let bcd := Z.land sb (Z.shiftl 1 2) =? 0 in
  let* t1 := stable_read fuel in
  let t1 := if bcd then mkDate (CONV (second t1)) (CONV (minute t1)) (CONV (hour t1)) (CONV (day t1)) (CONV (month t1)) (CONV (year t1)) else t1 in
  ret (mkDate (second t1) (minute t1) (hour t1) (day t1) (month t1) (u32 (year t1 + 2000))).

(** ** ioapic.c and picirq.c *)

Definition ioapicread (reg : Z) : HM Z := w32 IOAPIC reg ;;; r32 (IOAPIC + 16).
Definition ioapicwrite (reg data : Z) : HM () := w32 IOAPIC reg ;;; w32 (IOAPIC + 16) data.

(** [true] when the message about the identifier is printed. *)
Definition ioapicinit (ioapicid : Z) : HM bool :=
  let* ver := ioapicread REG_VER in
  let maxintr := Z.land (Z.shiftr ver 16) 0xFF in
  let* idr := ioapicread REG_ID in
  let id := Z.shiftr idr 24 in
  for_each (seqZ 0 (maxintr + 1)) (fun i =>
    ioapicwrite (REG_TABLE + 2 * i) (Z.lor INT_DISABLED (T_IRQ0 + i)) ;;;
    ioapicwrite (REG_TABLE + 2 * i + 1) 0) ;;;
  ret (negb (id =? ioapicid)).

Definition ioapicenable (irq cpunum : Z) : HM () :=
  ioapicwrite (REG_TABLE + 2 * irq) (T_IRQ0 + irq) ;;;
  ioapicwrite (REG_TABLE + 2 * irq + 1) (u32 (Z.shiftl cpunum 24)).

Definition picinit : HM () :=
  out (0x20 + 1) 0xFF ;;;
  out (0xA0 + 1) 0xFF.
End devices.

(** ** The I/O APIC routes interrupts *)

Section ioapic.
Context {D : Type} `{!IdePorts D, !Mmio D}.
(** The selected register and the registers. *)
Context (sel : D -> Z) (regs : D -> Z -> Z).

(** Write the register's number, then read or write its data. *)
Record ioapic_ok : Prop := {
  io_sel r d : sel (st32 IOAPIC r d) = r /\ forall k, regs (st32 IOAPIC r d) k = regs d k;
  io_write v d : REG_TABLE <= sel d -> forall k, regs (st32 (IOAPIC + 16) v d) k = if k =? sel d then v else regs d k;
  io_read d : (ld32 (IOAPIC + 16) d).1 = regs d (sel d) /\ forall k, regs (ld32 (IOAPIC + 16) d).2 k = regs d k }.
Context (Hio : ioapic_ok).

Lemma ioapicread_run r d : exists d', ioapicread r d = Ret (regs d r) d' /\ forall k, regs d' k = regs d k.
Proof.
  unfold ioapicread, w32, r32. rewrite bind_modify. destruct (io_sel Hio r d) as [Es Er]. destruct (io_read Hio (st32 IOAPIC r d)) as [Ev Ek].
  eexists. split; [by rewrite Ev, Es, Er|]. intros k. by rewrite Ek, Er.
Qed.

Lemma ioapicwrite_run r v d : REG_TABLE <= r -> exists d', ioapicwrite r v d = Ret () d' /\ forall k, regs d' k = if k =? r then v else regs d k.
Proof.
  intros Hr. unfold ioapicwrite, w32. rewrite bind_modify. destruct (io_sel Hio r d) as [Es Er]. eexists. split; [reflexivity|].
  intros k. rewrite (io_write Hio), Es, Er by (rewrite Es; lia). done.
Qed.

(** The redirection entry of interrupt [i]: its configuration and its processors. *)
Definition route (d : D) (i : Z) : Z * Z := (regs d (REG_TABLE + 2 * i), regs d (REG_TABLE + 2 * i + 1)).
Definition masked (i : Z) : Z * Z := (Z.lor INT_DISABLED (T_IRQ0 + i), 0).
Definition maxintr (d : D) : Z := Z.land (Z.shiftr (regs d REG_VER) 16) 0xFF.

Lemma set_route i lo hi d : 0 <= i ->
  exists d', (ioapicwrite (REG_TABLE + 2 * i) lo ;;; ioapicwrite (REG_TABLE + 2 * i + 1) hi) d = Ret () d' /\
    route d' i = (lo, hi) /\ (forall j, 0 <= j -> j <> i -> route d' j = route d j) /\ (forall k, k < REG_TABLE -> regs d' k = regs d k).
Proof.
  intros Hi. unfold route, REG_TABLE in *. destruct (ioapicwrite_run (0x10 + 2 * i) lo d) as (d1 & E1 & R1); [unfold REG_TABLE; lia|].
  destruct (ioapicwrite_run (0x10 + 2 * i + 1) hi d1) as (d2 & E2 & R2); [unfold REG_TABLE; lia|].
  exists d2. rewrite (bind_ret _ _ _ _ _ E1). split; [done|]. split_and!; intros; rewrite !R2, !R1; repeat (case_match; try lia); done.
Qed.

Lemma mask_loop n i d : 0 <= i -> exists d',
  for_each (seqZ i (Z.of_nat n)) (fun i => ioapicwrite (REG_TABLE + 2 * i) (Z.lor INT_DISABLED (T_IRQ0 + i)) ;;; ioapicwrite (REG_TABLE + 2 * i + 1) 0) d = Ret () d' /\
  forall j, 0 <= j -> route d' j = if (i <=? j) && (j <? i + Z.of_nat n) then masked j else route d j.
Proof.
  revert i d. induction n as [|n IH]; intros i d Hi.
  - exists d. split; [done|]. intros j Hj. case_match; [lia|done].
  - rewrite seqZ_cons by lia. replace (Z.pred (Z.of_nat (S n))) with (Z.of_nat n) by lia. cbn [for_each].
    destruct (set_route i (Z.lor INT_DISABLED (T_IRQ0 + i)) 0 d Hi) as (d1 & E1 & R1 & R2 & _). rewrite (bind_ret _ _ _ _ _ E1).
    destruct (IH (Z.succ i) d1 ltac:(lia)) as (d2 & E2 & R). exists d2. split; [done|]. intros j Hj. rewrite R by done.
    destruct (decide (j = i)) as [->|Hne]; [|rewrite R2 by done; repeat (case_match; try lia); done].
    rewrite R1. repeat (case_match; try lia); done.
Qed.

(** [ioapicinit] masks every interrupt the controller has. *)
Lemma ioapicinit_masks id d : exists b d', ioapicinit id d = Ret b d' /\ b = negb (Z.shiftr (regs d REG_ID) 24 =? id) /\
  (forall i, 0 <= i -> route d' i = if i <=? maxintr d then masked i else route d i).
Proof.
  unfold ioapicinit. destruct (ioapicread_run REG_VER d) as (d1 & E1 & R1). rewrite (bind_ret _ _ _ _ _ E1).
  destruct (ioapicread_run REG_ID d1) as (d2 & E2 & R2). rewrite (bind_ret _ _ _ _ _ E2). fold (maxintr d).
  assert (0 <= maxintr d) as Hm by (apply Z.land_nonneg; by right).
  destruct (mask_loop (Z.to_nat (maxintr d + 1)) 0 d2 ltac:(done)) as (d3 & E3 & R3). rewrite Z2Nat.id in E3, R3 by lia. rewrite (bind_ret _ _ _ _ _ E3).
  exists (negb (Z.shiftr (regs d1 REG_ID) 24 =? id)), d3. split; [done|]. rewrite R1. split; [done|]. intros i Hi. rewrite R3 by done.
  unfold route. rewrite !R2, !R1. repeat (case_match; try lia); done.
Qed.

(** [ioapicenable] unmasks one interrupt and routes it to one processor; the others stay as they are. *)
Lemma ioapicenable_routes irq cpunum d : 0 <= irq -> exists d', ioapicenable irq cpunum d = Ret () d' /\
  route d' irq = (T_IRQ0 + irq, u32 (Z.shiftl cpunum 24)) /\ (forall j, 0 <= j -> j <> irq -> route d' j = route d j).
Proof.
  intros Hi. destruct (set_route irq (T_IRQ0 + irq) (u32 (Z.shiftl cpunum 24)) d Hi) as (d' & E & R1 & R2 & _). by exists d'.
Qed.
End ioapic.

(** ** The local APIC *)

Section lapic.
Context {D : Type} `{!IdePorts D, !Mmio D}.
(** Its registers, and for how many polls a command is still being delivered. *)
Context (lapic : Z) (lreg : D -> Z -> Z) (sending : D -> nat) (bound : nat).

Record lapic_ok : Prop := {
  la_write i v d : 0 <= i -> forall j, lreg (st32 (lapic + 4 * i) v d) j = if j =? i then v else lreg d j;
  la_read i d : 0 <= i -> forall j, lreg (ld32 (lapic + 4 * i) d).2 j = lreg d j;
  la_ver d : (ld32 (lapic + 4 * VER) d).1 = lreg d VER;
  la_bound d : (sending d <= bound)%nat;
  la_poll d :
    match sending d with
    | O => Z.land (ld32 (lapic + 4 * ICRLO) d).1 DELIVS = 0
    | S k => Z.land (ld32 (lapic + 4 * ICRLO) d).1 DELIVS <> 0 /\ sending (ld32 (lapic + 4 * ICRLO) d).2 = k
    end }.
Context (Hla : lapic_ok).

Lemma lapicw_run i v d : 0 <= i -> exists d', lapicw lapic i v d = Ret () d' /\ forall j, lreg d' j = if j =? i then u32 v else lreg d j.
Proof.
  intros Hi. unfold lapicw, w32, r32. rewrite bind_modify. eexists. split; [reflexivity|]. intros j. rewrite (la_read Hla) by done. by apply (la_write Hla).
Qed.

Lemma wait_delivery_run fuel d : (bound < fuel)%nat -> exists d', wait_delivery fuel lapic d = Ret () d' /\ forall j, lreg d' j = lreg d j.
Proof.
  intros Hf. assert (sending d < fuel)%nat as Hl by (pose proof (la_bound Hla d); lia). clear Hf. revert d Hl.
  induction fuel as [|fuel IH]; intros d Hl; [lia|]. cbn [wait_delivery]. unfold bind, r32. pose proof (la_poll Hla d) as Hp. destruct (sending d) as [|k].
  - rewrite Hp. eexists. split; [reflexivity|]. by apply (la_read Hla).
  - destruct Hp as [H1 H2]. unfold nz. rewrite (proj2 (Z.eqb_neq _ _)) by done. cbn [negb].
    destruct (IH (ld32 (lapic + 4 * ICRLO) d).2) as (d' & E & R); [lia|]. exists d'. split; [done|]. intros j. rewrite R. by apply (la_read Hla).
Qed.

Ltac lapic_write d R :=
  match goal with
  | |- context [bind (lapicw lapic ?i ?v) _ ?d0] =>
      let E := fresh in
      destruct (lapicw_run i v d0 ltac:(done)) as (d & E & R); rewrite (bind_ret _ _ _ _ _ E); clear E
  end.

(** The comparisons of register numbers. *)
Ltac eval_regs := repeat match goal with |- context [?a =? ?b] => let v := eval vm_compute in (a =? b) in change (a =? b) with v end; cbv iota.

(** [lapicinit] returns with the timer periodic on its vector, the two lines masked, the errors on their vector, the
    unit enabled and no priority in the way. *)
Lemma lapicinit_programs fuel d : (bound < fuel)%nat -> lapic <> 0 -> exists d', lapicinit fuel lapic d = Ret () d' /\
  lreg d' SVR = Z.lor ENABLE (T_IRQ0 + IRQ_SPURIOUS) /\ lreg d' TIMER = Z.lor PERIODIC (T_IRQ0 + IRQ_TIMER) /\
  lreg d' TDCR = X1 /\ lreg d' TICR = 10000000 /\ lreg d' LINT0 = MASKED /\ lreg d' LINT1 = MASKED /\
  (4 <= Z.land (Z.shiftr (lreg d VER) 16) 0xFF -> lreg d' PCINT = MASKED) /\ lreg d' ERROR = T_IRQ0 + IRQ_ERROR /\ lreg d' TPR = 0.
Proof.
  intros Hf H0. unfold lapicinit. rewrite (proj2 (Z.eqb_neq _ _) H0).
  lapic_write d1 R1. lapic_write d2 R2. lapic_write d3 R3. lapic_write d4 R4. lapic_write d5 R5. lapic_write d6 R6.
  unfold bind at 1, r32 at 1. rewrite (la_ver Hla). set (d7 := (ld32 (lapic + 4 * VER) d6).2).
  assert (forall j, lreg d7 j = lreg d6 j) as R7 by (by apply (la_read Hla)).
  assert (lreg d6 VER = lreg d VER) as Ev by (by rewrite R6, R5, R4, R3, R2, R1). rewrite Ev.
  assert (exists d8, when (4 <=? Z.land (Z.shiftr (lreg d VER) 16) 0xFF) (lapicw lapic PCINT MASKED) d7 = Ret () d8 /\
    (forall j, j <> PCINT -> lreg d8 j = lreg d7 j) /\ (4 <= Z.land (Z.shiftr (lreg d VER) 16) 0xFF -> lreg d8 PCINT = MASKED)) as (d8 & E8 & R8 & P8).
  { unfold when. destruct (Z.leb_spec 4 (Z.land (Z.shiftr (lreg d VER) 16) 0xFF)); [|by exists d7; split_and!; [..|lia]].
    destruct (lapicw_run PCINT MASKED d7 ltac:(done)) as (d8 & E8 & R8). exists d8. split; [done|].
    split; [intros j Hj; rewrite R8; by apply Z.eqb_neq in Hj as ->|intros _; by rewrite R8]. }
  rewrite (bind_ret _ _ _ _ _ E8). lapic_write d9 R9. lapic_write d10 R10. lapic_write d11 R11. lapic_write d12 R12. lapic_write d13 R13. lapic_write d14 R14.
  destruct (wait_delivery_run fuel d14 Hf) as (d15 & E15 & R15). rewrite (bind_ret _ _ _ _ _ E15).
  destruct (lapicw_run TPR 0 d15 ltac:(done)) as (d16 & E16 & R16). exists d16. split; [done|].
  split_and!; intros; rewrite R16, R15, R14, R13, R12, R11, R10, R9; eval_regs; try done;
    (by rewrite P8) || (rewrite R8, R7, R6, R5, R4, R3, R2, R1 by done; by eval_regs).
Qed.
End lapic.

(** ** The clock *)

Section clock.
Context {D : Type} `{!IdePorts D}.
(** The register a port selects, and the registers of the clock. *)
Context (csel : D -> Z) (creg : D -> Z -> Z).

(** The clock while its time stands still. *)
Record clock_ok : Prop := {
  ck_sel r d : csel (outb CMOS_PORT r d) = r /\ forall k, creg (outb CMOS_PORT r d) k = creg d k;
  ck_read d : (inb CMOS_RETURN d).1 = creg d (csel d) /\ forall k, creg (inb CMOS_RETURN d).2 k = creg d k }.
Context (Hck : clock_ok).

Lemma cmos_read_run r d : 0 <= r < 256 -> exists d', cmos_read r d = Ret (creg d r) d' /\ forall k, creg d' k = creg d k.
Proof.
  intros Hr. unfold cmos_read, out, in_. rewrite bind_modify. unfold u8. rewrite Z.mod_small by done. destruct (ck_sel Hck r d) as [Es Er].
  destruct (ck_read Hck (outb CMOS_PORT r d)) as [Ev Ek]. eexists. split; [by rewrite Ev, Es, Er|]. intros k. by rewrite Ek, Er.
Qed.

Definition shown (d : D) : rtcdate := mkDate (creg d SECS) (creg d MINS) (creg d HOURS) (creg d DAY) (creg d MONTH) (creg d YEAR).

Lemma fill_rtcdate_run d : exists d', fill_rtcdate d = Ret (shown d) d' /\ forall k, creg d' k = creg d k.
Proof.
  unfold fill_rtcdate, shown.
  destruct (cmos_read_run SECS d ltac:(done)) as (d1 & E1 & R1). rewrite (bind_ret _ _ _ _ _ E1).
  destruct (cmos_read_run MINS d1 ltac:(done)) as (d2 & E2 & R2). rewrite (bind_ret _ _ _ _ _ E2).
  destruct (cmos_read_run HOURS d2 ltac:(done)) as (d3 & E3 & R3). rewrite (bind_ret _ _ _ _ _ E3).
  destruct (cmos_read_run DAY d3 ltac:(done)) as (d4 & E4 & R4). rewrite (bind_ret _ _ _ _ _ E4).
  destruct (cmos_read_run MONTH d4 ltac:(done)) as (d5 & E5 & R5). rewrite (bind_ret _ _ _ _ _ E5).
  destruct (cmos_read_run YEAR d5 ltac:(done)) as (d6 & E6 & R6). rewrite (bind_ret _ _ _ _ _ E6).
  exists d6. split; [|intros k; by rewrite R6, R5, R4, R3, R2, R1]. unfold ret.
  by rewrite R5, (R4 YEAR), (R4 MONTH), !R3, !R2, !R1.
Qed.

(** Two decimal digits in one byte. *)
Definition BCD (x : Z) : Z := 16 * (x / 10) + x mod 10.

Lemma CONV_BCD x : 0 <= x < 100 -> CONV (BCD x) = x.
Proof.
  intros Hx. assert (forallb (fun n => CONV (BCD (Z.of_nat n)) =? Z.of_nat n) (seq 0 100) = true) as H by (vm_compute; reflexivity).
  rewrite forallb_forall in H. specialize (H (Z.to_nat x) ltac:(apply in_seq; lia)). rewrite Z2Nat.id in H by lia. by apply Z.eqb_eq.
Qed.

Definition two_digits (t : rtcdate) : Prop :=
  (0 <= second t < 100) /\ (0 <= minute t < 100) /\ (0 <= hour t < 100) /\ (0 <= day t < 100) /\ (0 <= month t < 100) /\ 0 <= year t < 100.
Definition in_bcd (t : rtcdate) : rtcdate := mkDate (BCD (second t)) (BCD (minute t)) (BCD (hour t)) (BCD (day t)) (BCD (month t)) (BCD (year t)).

(** [cmostime] reads the time the clock shows, in either of its two encodings, and adds the century. *)
Lemma cmostime_reads fuel d t : two_digits t -> Z.land (creg d CMOS_STATA) CMOS_UIP = 0 ->
  shown d = (if Z.land (creg d CMOS_STATB) (Z.shiftl 1 2) =? 0 then in_bcd t else t) ->
  exists d', cmostime (S fuel) d = Ret (mkDate (second t) (minute t) (hour t) (day t) (month t) (year t + 2000)) d'.
Proof.
  intros (H1 & H2 & H3 & H4 & H5 & H6) Hu Hs. unfold cmostime.
  destruct (cmos_read_run CMOS_STATB d ltac:(done)) as (d1 & E1 & R1). rewrite (bind_ret _ _ _ _ _ E1). cbn [stable_read].
  destruct (fill_rtcdate_run d1) as (d2 & E2 & R2). rewrite bind_assoc, (bind_ret _ _ _ _ _ E2).
  destruct (cmos_read_run CMOS_STATA d2 ltac:(done)) as (d3 & E3 & R3). rewrite bind_assoc, (bind_ret _ _ _ _ _ E3). rewrite R2, R1, Hu.
  cbn [nz negb Z.eqb]. destruct (fill_rtcdate_run d3) as (d4 & E4 & R4). rewrite bind_assoc, (bind_ret _ _ _ _ _ E4).
  assert (shown d1 = shown d) as -> by (unfold shown; by rewrite !R1). assert (shown d3 = shown d) as -> by (unfold shown; by rewrite !R3, !R2, !R1).
  rewrite bool_decide_eq_true_2 by done. exists d4. unfold bind, ret. rewrite Hs. destruct (_ =? 0); cbn [second minute hour day month year in_bcd].
  - rewrite !CONV_BCD, u32_small by (done || lia). done.
  - rewrite u32_small by lia. done.
Qed.
End clock.
