(* ===== verification/Ls.v ===== *)
(** * ls

    ls.c: the permissions, the size with its unit, the padded name, and the
    listing of a file or of the entries of a directory.  Strings are the bytes
    before their NUL; the system calls and [malloc] are the operations of a
    class; what is printed are the lines with their arguments. *)

From stdpp Require Import gmap.
From S2P Require Import Prelude Users Printf.
Open Scope Z_scope.

Definition DIRSIZ : nat := 14.
Definition SLASH : Z := 47.
Definition SPACE : Z := 32.

(** [setperm]: the array [perm]. *)
Definition setperm (p : Z) : list Z :=
  [ if nz (Z.land p MODE_RUSR) then 114 else 45;
    if nz (Z.land p MODE_WUSR) then 119 else 45;
    if nz (Z.land p MODE_XUSR) then 120 else 45;
    if nz (Z.land p MODE_ROTH) then 114 else 45;
    if nz (Z.land p MODE_WOTH) then 119 else 45;
    if nz (Z.land p MODE_XOTH) then 120 else 45;
    0 ].

(** ** [fmtsz] *)

(** [do ++num_chars; while((t /= 10));]: a [uint] has at most ten digits. *)
Fixpoint count_chars (fuel : nat) (t : Z) (num_chars : nat) : nat :=
  match fuel with
  | O => num_chars
  | S fuel' => if nz (t / 10) then count_chars fuel' (t / 10) (S num_chars) else S num_chars
  end.

(** [result[--num_chars] = c] *)
Definition put (c : Z) (r : list Z * nat) : list Z * nat := (<[(r.2 - 1)%nat := c]> r.1, (r.2 - 1)%nat).

Fixpoint put_digits (fuel : nat) (t : Z) (r : list Z * nat) : list Z * nat :=
  match fuel with
  | O => r
  | S fuel' => let r := put (48 + t mod 10) r in if nz (t / 10) then put_digits fuel' (t / 10) r else r
  end.

(** The unit, whether there is a rest and its digit, and the number before the point. *)
Definition split_size (sz : Z) : Z * bool * Z * Z :=
  if nz (Z.shiftr sz 30) then (71, nz (Z.land sz (Z.shiftl 1 30 - 1)), Z.land sz (Z.shiftl 1 30 - 1) / 10 mod 10, Z.shiftr sz 30)
  else if nz (Z.shiftr sz 20) then (77, nz (Z.land sz (Z.shiftl 1 20 - 1)), Z.land sz (Z.shiftl 1 20 - 1) / 10 mod 10, Z.shiftr sz 20)
  else if nz (Z.shiftr sz 10) then (75, nz (Z.land sz (Z.shiftl 1 10 - 1)), Z.land sz (Z.shiftl 1 10 - 1) / 10 mod 10, Z.shiftr sz 10)
  else (0, false, 0, sz).

Definition num_chars (sz : Z) : nat :=
  let '(unit_, need_to_print_rest, rest, sz) := split_size sz in
  let num_chars := count_chars 10 sz 2 in
  let num_chars := if nz unit_ then (num_chars + 1)%nat else num_chars in
  if need_to_print_rest : bool then (num_chars + 2)%nat else num_chars.

(** The array, filled from its end, and the index that is left. *)
Definition fill (result : list Z) (sz : Z) : list Z * nat :=
  let r := put 0 (result, num_chars sz) in
  let '(unit_, need_to_print_rest, rest, sz) := split_size sz in
  let r := put 66 r in
  let r := if nz unit_ then put unit_ r else r in
  let r := if need_to_print_rest : bool then put 46 (put (48 + rest) r) else r in
  put_digits 10 sz r.

(** ** [fmtname] *)

(** [p - path] after the loop and [p++], from [p - path + 1] before a test. *)
Fixpoint last_slash (n : nat) (path : list Z) : nat :=
  match n with
  | O => 0
  | S n' => if negb (path !!! n' =? SLASH) then last_slash n' path else S n'
  end.

(** The bytes before the NUL. *)
Fixpoint c_string (l : list Z) : list Z :=
  match l with
  | [] => []
  | b :: l' => if b =? 0 then [] else b :: c_string l'
  end.

(** The string that is returned, and the static [buf]. *)
Definition fmtname (buf : list Z) (path : list Z) : list Z * list Z :=
  let p := drop (last_slash (S (length path)) (path ++ [0])) path in
  if (DIRSIZ <=? length p)%nat then (p, buf)
  else
    let buf := p ++ drop (length p) buf in
    let buf := take (length p) buf ++ replicate (DIRSIZ - length p) SPACE ++ drop DIRSIZ buf in
    (c_string buf, buf).

(** ** [ls] *)

Record ustat := mkUstat { u_type : Z; u_ino : Z; u_size : Z; u_perm : Z; u_owner : list Z }.
Definition T_DIR : Z := 1.
Definition T_FILE : Z := 2.

Class Calls (W : Type) := {
  open : list Z -> Z -> W -> Z * W;
  fstat : Z -> W -> option ustat * W;
  read : Z -> nat -> W -> list Z * W;
  stat : list Z -> W -> option ustat * W;
  close : Z -> W -> W;
  malloc : nat -> W -> option (list Z) * W;
  free : option (list Z) -> W -> W }.

(** The lines, by their arguments; the name is padded and the size is the string of [fmtsz]. *)
Inductive line :=
| Cannot_open (path : list Z)
| Cannot_stat (path : list Z)
| Path_too_long
| Fail_line (n : nat)
| Entry (name : list Z) (kind : Z) (perm : list Z) (type ino : Z) (size : option (list Z)) (owner : list Z).

(** The world, the static array of [fmtname] and what was printed. *)
Record ls_state (W : Type) := mkLs { world : W; name_buf : list Z; printed : list line }.
Arguments mkLs {W}. Arguments world {W}. Arguments name_buf {W}. Arguments printed {W}.

Section ls.
Context {W : Type} `{!Calls W}.
Local Abbreviation LM := (M (ls_state W)).

Definition call {A} (f : W -> A * W) : LM A := fun s => let r := f (world s) in Ret r.1 (mkLs r.2 (name_buf s) (printed s)).
Definition print (l : line) : LM () := modify (fun s => mkLs (world s) (name_buf s) (printed s ++ [l])).

Definition fmtsz (sz : Z) : LM (option (list Z)) :=
  let* result := call (malloc (num_chars sz)) in
  match result with
  | None => ret None
  | Some result =>
      let r := fill result sz in
      when (0 <? r.2)%nat (print (Fail_line r.2)) ;;;
      ret (Some r.1)
  end.

Definition fmtname_m (path : list Z) : LM (list Z) := fun s =>
  let r := fmtname (name_buf s) path in Ret r.1 (mkLs (world s) r.2 (printed s)).

(** The lines every case has: [fmtsz], [printf] and [free]. *)
Definition print_entry (path : list Z) (kind : Z) (perm : list Z) (st : ustat) : LM () :=
  let* sz_str := fmtsz (u_size st) in
  let* name := fmtname_m path in
  print (Entry name kind perm (u_type st) (u_ino st) (c_string <$> sz_str) (u_owner st)) ;;;
  call (fun w => ((), free sz_str w)).

Fixpoint ls_entries (fuel : nat) (fd : Z) (path : list Z) : LM () :=
  match fuel with
  | O => sleeps
  | S fuel' =>
      let* de := call (read fd 16) in
      if negb (length de =? 16)%nat then ret ()
      else if Z.lor (de !!! 0%nat) (Z.shiftl (de !!! 1%nat) 8) =? 0 then ls_entries fuel' fd path
      else
        let buf := path ++ [SLASH] ++ c_string (drop 2 de) in
        let* st := call (stat buf) in
        match st with
        | None => print (Cannot_stat buf) ;;; ls_entries fuel' fd path
        | Some st =>
            (if u_type st =? T_FILE then print_entry buf 45 (c_string (setperm (u_perm st))) st
             else if u_type st =? T_DIR then print_entry buf 100 (c_string (setperm (u_perm st))) st
             else print_entry buf 42 [] st) ;;;
            ls_entries fuel' fd path
        end
  end.

Definition ls (fuel : nat) (path : list Z) : LM () :=
  let* fd := call (open path 0) in
  if fd <? 0 then print (Cannot_open path)
  else
    let* st := call (fstat fd) in
    match st with
    | None => print (Cannot_stat path) ;;; call (fun w => ((), close fd w))
    | Some st =>
        (if u_type st =? T_FILE then print_entry path 45 (c_string (setperm (u_perm st))) st
         else if u_type st =? T_DIR then
           if (512 <? length path + 1 + DIRSIZ + 1)%nat then print Path_too_long
           else ls_entries fuel fd path
         else ret ()) ;;;
        call (fun w => ((), close fd w))
    end.

Definition main (fuel : nat) (argv : list (list Z)) : LM () :=
  match argv with
  | [] => ls fuel [46]
  | _ => for_each argv (ls fuel)
  end.
End ls.

(** ** The permissions *)

Lemma setperm_printstat p : c_string (setperm p) = printstat_perm p.
Proof. unfold setperm, printstat_perm. repeat case_match; reflexivity. Qed.

(** ** The size *)

Lemma count_chars_digs fuel t n : count_chars fuel t n = (n + length (digs fuel t 10))%nat.
Proof.
  revert t n. induction fuel as [|fuel IH]; intros t n; cbn [count_chars digs length]; [lia|]. unfold nz.
  destruct (t / 10 =? 0); cbn [negb length]; [lia|]. rewrite IH. lia.
Qed.

(** Putting characters in front of what is already in place. *)
Definition filled (r : list Z * nat) (suffix : list Z) (len : nat) : Prop :=
  length r.1 = len /\ (r.2 + length suffix = len)%nat /\ drop r.2 r.1 = suffix.

Lemma put_filled c r suffix len : filled r suffix len -> (0 < r.2)%nat -> filled (put c r) (c :: suffix) len.
Proof.
  intros (Hl & Hn & Hd) Hp. unfold filled, put. cbn [fst snd length]. rewrite length_insert. split_and!; [done|lia|].
  rewrite insert_take_drop, drop_app_length' by (rewrite ?length_take; lia). replace (S (r.2 - 1)) with r.2 by lia. by rewrite Hd.
Qed.

Lemma put_digits_filled fuel t r suffix len : filled r suffix len -> (length (digs fuel t 10) <= r.2)%nat ->
  filled (put_digits fuel t r) (reverse ((fun d => 48 + d) <$> digs fuel t 10) ++ suffix) len.
Proof.
  revert t r suffix. induction fuel as [|fuel IH]; intros t r suffix Hf Hl; cbn [put_digits digs fmap list_fmap length] in *; [done|].
  pose proof (put_filled (48 + t mod 10) r suffix len Hf ltac:(lia)) as Hp. unfold nz. rewrite reverse_cons, <- app_assoc. cbn [app].
  destruct (t / 10 =? 0); cbn [negb fmap list_fmap length] in *; [done|]. apply IH; [done|]. cbn [put snd]. lia.
Qed.

(** The string of a size: its number, a digit for the rest, the unit. *)
Definition size_string (sz : Z) : list Z :=
  let '(unit_, has_rest, rest, n) := split_size sz in
  reverse ((fun d => 48 + d) <$> digs 10 n 10) ++ (if has_rest : bool then [46; 48 + rest] else []) ++ (if nz unit_ then [unit_] else []) ++ [66].

(** The array [fmtsz] allocates is exactly as long as the string it writes: nothing is left over at its start. *)
Lemma fill_exact result sz : length result = num_chars sz -> fill result sz = (size_string sz ++ [0], 0%nat).
Proof.
  intros Hl. unfold fill, size_string. assert (filled (result, num_chars sz) [] (num_chars sz)) as H0.
  { split_and!; [done|cbn; lia|]. cbn. rewrite <- Hl. apply drop_all. }
  unfold num_chars in *. destruct (split_size sz) as [[[u rest] dg] n]. rewrite count_chars_digs in *.
  set (len := (if rest : bool then _ else _)) in *.
  assert (length (digs 10 n 10) + (if rest : bool then 2 else 0) + (if nz u then 1 else 0) + 2 = len)%nat as El by (unfold len; destruct rest, (nz u); lia).
  pose proof (put_filled 0 _ _ _ H0 ltac:(cbn; lia)) as H1. pose proof (put_filled 66 _ _ _ H1 ltac:(cbn; lia)) as H2.
  set (r2 := put 66 _) in *. assert (filled (if nz u then put u r2 else r2) ((if nz u then [u] else []) ++ [66; 0]) len) as H3.
  { destruct (nz u); [|done]. apply put_filled; [done|]. destruct H2 as (_ & E & _). cbn [length] in E. lia. }
  set (r3 := if nz u then _ else r2) in *.
  assert (filled (if rest then put 46 (put (48 + dg) r3) else r3) ((if rest then [46; 48 + dg] else []) ++ (if nz u then [u] else []) ++ [66; 0]) len) as H4.
  { destruct rest; [|done]. pose proof H3 as (_ & E & _). rewrite length_app in E. cbn [length] in E.
    pose proof (put_filled (48 + dg) _ _ _ H3 ltac:(destruct (nz u); cbn [length] in E; lia)) as H5.
    apply (put_filled 46 _ _ _ H5). cbn [put snd]. destruct (nz u); cbn [length] in E; lia. }
  set (r4 := if rest then _ else r3) in *.
  destruct (put_digits_filled 10 n r4 _ len H4) as (E1 & E2 & E3).
  { pose proof H4 as (_ & E & _). rewrite !length_app in E. destruct rest, (nz u); cbn [length] in E; lia. }
  assert ((put_digits 10 n r4).2 = 0%nat) as Ez.
  { rewrite !length_app, length_reverse, length_fmap in E2. destruct rest, (nz u); cbn [length] in E2; lia. }
  rewrite (surjective_pairing (put_digits 10 n r4)), Ez. rewrite Ez, drop_0 in E3. rewrite E3. by rewrite <- !app_assoc.
Qed.

(** The number before the point, its unit and the digit after the point. *)
Lemma split_size_spec sz : 0 <= sz < 2 ^ 32 ->
  exists k u, split_size sz = (u, negb (sz mod 2 ^ k =? 0), (sz mod 2 ^ k) / 10 mod 10, sz / 2 ^ k) /\
    ((k = 0 /\ u = 0 /\ sz < 2 ^ 10) \/ (k = 10 /\ u = 75 /\ 2 ^ 10 <= sz < 2 ^ 20) \/
     (k = 20 /\ u = 77 /\ 2 ^ 20 <= sz < 2 ^ 30) \/ (k = 30 /\ u = 71 /\ 2 ^ 30 <= sz)).
Proof.
  intros Hsz. unfold split_size, nz. rewrite !Z.shiftr_div_pow2 by done.
  change (Z.shiftl 1 30 - 1) with (Z.ones 30). change (Z.shiftl 1 20 - 1) with (Z.ones 20). change (Z.shiftl 1 10 - 1) with (Z.ones 10). rewrite !Z.land_ones by done.
  destruct (Z.eqb_spec (sz / 2 ^ 30) 0) as [H1|H1]; cbn [negb].
  2: { exists 30, 71. split; [done|]. do 3 right. split_and!; try done. pose proof (Z.div_small sz (2 ^ 30)). lia. }
  apply Z.div_small_iff in H1; [|done]. destruct (Z.eqb_spec (sz / 2 ^ 20) 0) as [H2|H2]; cbn [negb].
  2: { exists 20, 77. split; [done|]. right; right; left. split_and!; try done; pose proof (Z.div_small sz (2 ^ 20)); lia. }
  apply Z.div_small_iff in H2; [|done]. destruct (Z.eqb_spec (sz / 2 ^ 10) 0) as [H3|H3]; cbn [negb].
  2: { exists 10, 75. split; [done|]. right; left. split_and!; try done; pose proof (Z.div_small sz (2 ^ 10)); lia. }
  apply Z.div_small_iff in H3; [|done]. exists 0, 0. change (2 ^ 0) with 1. rewrite Z.mod_1_r, Z.div_1_r. split; [done|]. left. lia.
Qed.

(** The digits before the point are the whole units of the size. *)
Lemma size_string_spec sz : 0 <= sz < 2 ^ 32 ->
  exists k u ds, size_string sz = ((fun d => 48 + d) <$> ds) ++
      (if sz mod 2 ^ k =? 0 then [] else [46; 48 + (sz mod 2 ^ k) / 10 mod 10]) ++ (if k =? 0 then [] else [u]) ++ [66] /\
    numeral 10 (sz / 2 ^ k) ds /\
    ((k = 0 /\ sz < 2 ^ 10) \/ (k = 10 /\ u = 75 /\ 2 ^ 10 <= sz < 2 ^ 20) \/ (k = 20 /\ u = 77 /\ 2 ^ 20 <= sz < 2 ^ 30) \/ (k = 30 /\ u = 71 /\ 2 ^ 30 <= sz)).
Proof.
  intros Hsz. destruct (split_size_spec sz Hsz) as (k & u & E & Hk). unfold size_string. rewrite E. exists k, u, (reverse (digs 10 (sz / 2 ^ k) 10)).
  assert (0 <= k) as Hk0 by lia. split_and!.
  - rewrite <- fmap_reverse. f_equal. destruct (sz mod 2 ^ k =? 0); cbn [negb]; f_equal; destruct Hk as [(-> & -> & _) | [(-> & -> & _) | [(-> & -> & _) | (-> & -> & _)]]]; done.
  - apply digs_spec; [done| |lia]. pose proof (Z.pow_pos_nonneg 2 k ltac:(done) Hk0). pose proof (Z.div_pos sz (2 ^ k) ltac:(lia) ltac:(lia)).
    pose proof (Z.div_le_upper_bound sz (2 ^ k) sz ltac:(lia) ltac:(nia)). change (10 ^ Z.of_nat 10) with 10000000000. lia.
  - lia.
Qed.

(** The digit after the point is not the tenth: one and a half kilobytes are printed as 1.1KB. *)
Example size_string_1536 : size_string 1536 = [49; 46; 49; 75; 66].
Proof. vm_compute. reflexivity. Qed.

(** ** The name *)

Lemma last_slash_none n path : Forall (fun c => c <> SLASH) (take n path) -> (n <= length path)%nat -> last_slash n path = 0%nat.
Proof.
  induction n as [|n IH]; intros Hf Hl; cbn [last_slash]; [done|].
  rewrite (take_S_r _ _ (path !!! n)) in Hf by (apply list_lookup_lookup_total_lt; lia). apply Forall_app in Hf as [H1 H2]. rewrite Forall_singleton in H2.
  rewrite (proj2 (Z.eqb_neq _ _) H2). apply IH; [done|lia].
Qed.

Lemma last_slash_found n pre name : Forall (fun c => c <> SLASH) name -> (length pre < n <= length (pre ++ [SLASH] ++ name))%nat ->
  last_slash n (pre ++ [SLASH] ++ name) = S (length pre).
Proof.
  intros Hf. induction n as [|n IH]; intros Hl; cbn [last_slash]; [lia|]. destruct (decide (n = length pre)) as [->|Hne].
  - rewrite lookup_total_app_r by lia. by rewrite Nat.sub_diag.
  - rewrite lookup_total_app_r by lia. destruct (n - length pre)%nat as [|k] eqn:Ek; [lia|]. rewrite !length_app in Hl. cbn [length] in Hl.
    change (([SLASH] ++ name) !!! S k) with (name !!! k).
    rewrite (proj2 (Z.eqb_neq _ _)); [apply IH; rewrite !length_app; cbn [length]; lia|].
    apply (Forall_lookup_total_1 (fun c => c <> SLASH)); [done|lia].
Qed.

(** The name padded with blanks to [DIRSIZ] characters. *)
Definition padded (name : list Z) : list Z := name ++ replicate (DIRSIZ - length name) SPACE.

Lemma c_string_app s l : Forall (fun c => c <> 0) s -> c_string (s ++ 0 :: l) = s.
Proof. induction 1 as [|c s Hc _ IH]; cbn; [done|]. rewrite (proj2 (Z.eqb_neq _ _) Hc). by rewrite IH. Qed.

(** [fmtname] gives the last component of the path, padded; its static array always ends in a NUL. *)
Lemma fmtname_spec buf path pre name : path = pre ++ [SLASH] ++ name \/ (pre = [] /\ path = name) ->
  Forall (fun c => c <> SLASH /\ c <> 0) name -> length buf = S DIRSIZ -> buf !!! DIRSIZ = 0 ->
  exists buf', fmtname buf path = (padded name, buf') /\ length buf' = S DIRSIZ /\ buf' !!! DIRSIZ = 0.
Proof.
  intros Hp Hn Hl Hz. apply Forall_and in Hn as [Hn Hnz]. assert (Forall (fun c => c <> SLASH) (name ++ [0])) as Hn0 by (apply Forall_app; split; [done|by apply Forall_singleton]).
  assert (drop (last_slash (S (length path)) (path ++ [0])) path = name) as E.
  { destruct Hp as [-> | [-> ->]].
    - rewrite <- !app_assoc. rewrite last_slash_found; [|done|rewrite !length_app; cbn [length]; lia].
      rewrite app_assoc. apply drop_app_length'. rewrite length_app. cbn [length]. lia.
    - rewrite last_slash_none; [done| |rewrite length_app; cbn [length]; lia]. by apply Forall_take. }
  unfold fmtname. rewrite E. unfold padded, DIRSIZ in *. destruct (Nat.leb_spec 14 (length name)) as [Hle|Hlt].
  - exists buf. rewrite (proj2 (Nat.sub_0_le _ _) Hle). cbn [replicate]. by rewrite app_nil_r.
  - rewrite take_app_length, drop_app, (drop_ge name) by lia. rewrite drop_drop. cbn [app].
    replace (length name + (14 - length name))%nat with 14%nat by lia.
    assert (drop 14 buf = [0]) as Ed.
    { rewrite (drop_S _ 0) by (rewrite <- Hz; apply list_lookup_lookup_total_lt; lia). by rewrite drop_ge by lia. }
    rewrite Ed, app_assoc. eexists. split; [f_equal; apply c_string_app; apply Forall_app; split; [done|by apply Forall_replicate]|].
    rewrite !length_app, length_replicate. cbn [length]. split; [lia|]. rewrite lookup_total_app_r by (rewrite length_app, length_replicate; lia).
    rewrite length_app, length_replicate. by replace (14 - (length name + (14 - length name)))%nat with 0%nat by lia.
Qed.

(** ** The listing of a directory *)

Section listing.
Context {W : Type} `{!Calls W} (fd : Z).
(** The records of the directory that are still to be read, and what [stat] answers. *)
Context (rest : W -> list (list Z)) (known : list Z -> option ustat).

Record calls_ok : Prop := {
  cl_read w :
    match rest w with
    | [] => length (read fd 16 w).1 <> 16%nat
    | de :: des => (read fd 16 w).1 = de /\ rest (read fd 16 w).2 = des
    end;
  cl_stat p w : (stat p w).1 = known p /\ rest (stat p w).2 = rest w;
  cl_malloc n w : (exists l, (malloc n w).1 = Some l /\ length l = n) /\ rest (malloc n w).2 = rest w;
  cl_free p w : rest (free p w) = rest w }.
Context (Hc : calls_ok).

Definition buf_ok (buf : list Z) : Prop := length buf = S DIRSIZ /\ buf !!! DIRSIZ = 0.
Definition kind_of (st : ustat) : Z := if u_type st =? T_FILE then 45 else if u_type st =? T_DIR then 100 else 42.
Definition perm_of (st : ustat) : list Z := if (u_type st =? T_FILE) || (u_type st =? T_DIR) then printstat_perm (u_perm st) else [].
Definition entry_of (name : list Z) (st : ustat) : line :=
  Entry (padded name) (kind_of st) (perm_of st) (u_type st) (u_ino st) (Some (size_string (u_size st))) (u_owner st).
Definition de_inum (de : list Z) : Z := Z.lor (de !!! 0%nat) (Z.shiftl (de !!! 1%nat) 8).
Definition de_name (de : list Z) : list Z := c_string (drop 2 de).
(** What is printed for a record. *)
Definition line_of (path de : list Z) : option line :=
  if de_inum de =? 0 then None
  else Some (match known (path ++ [SLASH] ++ de_name de) with
             | None => Cannot_stat (path ++ [SLASH] ++ de_name de)
             | Some st => entry_of (de_name de) st
             end).

Lemma c_string_nz l : Forall (fun c => c <> 0) (c_string l).
Proof. induction l as [|b l IH]; cbn; [done|]. destruct (Z.eqb_spec b 0); [done|]. by constructor. Qed.

Lemma c_string_id l : Forall (fun c => c <> 0) l -> c_string (l ++ [0]) = l.
Proof. apply c_string_app. Qed.

Lemma size_string_nz sz : 0 <= sz < 2 ^ 32 -> Forall (fun c => c <> 0) (size_string sz).
Proof.
  intros Hsz. destruct (size_string_spec sz Hsz) as (k & u & ds & -> & [Hd _ _ _] & Hk). rewrite !Forall_app. split_and!.
  - apply Forall_fmap. eapply Forall_impl; [exact Hd|]. cbn. lia.
  - case_match; [done|]. pose proof (Z.mod_pos_bound (sz mod 2 ^ k / 10) 10 ltac:(done)). repeat constructor; lia.
  - destruct (Z.eqb_spec k 0); [done|]. repeat constructor. lia.
  - by repeat constructor.
Qed.

Lemma fmtsz_run (s : ls_state W) sz : 0 <= sz < 2 ^ 32 -> exists w r, fmtsz sz s = Ret (Some r) (mkLs w (name_buf s) (printed s)) /\
  c_string r = size_string sz /\ rest w = rest (world s).
Proof.
  intros Hsz. unfold fmtsz, call, bind at 1. destruct (cl_malloc Hc (num_chars sz) (world s)) as [(l & El & Hl) Hr]. rewrite El. cbn [fst snd].
  rewrite (fill_exact l sz Hl). eexists _, (size_string sz ++ [0]). split; [reflexivity|]. split; [by apply c_string_id, size_string_nz|done].
Qed.

Lemma print_entry_run (s : ls_state W) path name kind perm st : buf_ok (name_buf s) -> 0 <= u_size st < 2 ^ 32 -> Forall (fun c => c <> SLASH /\ c <> 0) name ->
  exists w buf, print_entry (path ++ [SLASH] ++ name) kind perm st s =
    Ret () (mkLs w buf (printed s ++ [Entry (padded name) kind perm (u_type st) (u_ino st) (Some (size_string (u_size st))) (u_owner st)])) /\
    buf_ok buf /\ rest w = rest (world s).
Proof.
  intros [Hl Hz] Hsz Hn. unfold print_entry. destruct (fmtsz_run s (u_size st) Hsz) as (w & r & E & Er & Hw). rewrite (bind_ret _ _ _ _ _ E).
  destruct (fmtname_spec (name_buf s) (path ++ [SLASH] ++ name) path name (or_introl eq_refl) Hn Hl Hz) as (buf & Ef & Hb).
  unfold fmtname_m, bind at 1. cbn [name_buf world printed]. rewrite Ef. cbn [fst snd]. unfold print. rewrite bind_modify. unfold call. cbn [fst snd world name_buf printed fmap option_fmap option_map].
  rewrite Er. eexists _, buf. split; [reflexivity|]. split; [done|]. by rewrite (cl_free Hc).
Qed.

(** The three cases of a record that can be looked up. *)
Lemma entry_case_run (s : ls_state W) path name st (k : M (ls_state W) ()) : buf_ok (name_buf s) -> 0 <= u_size st < 2 ^ 32 -> Forall (fun c => c <> SLASH /\ c <> 0) name ->
  exists w buf,
    bind (if u_type st =? T_FILE then print_entry (path ++ [SLASH] ++ name) 45 (c_string (setperm (u_perm st))) st
      else if u_type st =? T_DIR then print_entry (path ++ [SLASH] ++ name) 100 (c_string (setperm (u_perm st))) st
      else print_entry (path ++ [SLASH] ++ name) 42 [] st) (fun _ => k) s = k (mkLs w buf (printed s ++ [entry_of name st])) /\
    buf_ok buf /\ rest w = rest (world s).
Proof.
  intros Hb Hsz Hn. destruct (print_entry_run s path name (kind_of st) (perm_of st) st Hb Hsz Hn) as (w & buf & E & H).
  exists w, buf. split; [|done]. rewrite setperm_printstat. unfold kind_of, perm_of in E. unfold entry_of, kind_of, perm_of.
  destruct (u_type st =? T_FILE), (u_type st =? T_DIR); cbn [orb] in *; by rewrite (bind_ret _ _ _ _ _ E).
Qed.

(** [ls] prints one line for each used record of the directory, in order. *)
Lemma ls_entries_lists fuel (s : ls_state W) path :
  (forall p st, known p = Some st -> 0 <= u_size st < 2 ^ 32) -> buf_ok (name_buf s) -> (length (rest (world s)) < fuel)%nat ->
  Forall (fun de => length de = 16%nat /\ Forall (fun c => c <> SLASH) (de_name de)) (rest (world s)) ->
  exists w buf, ls_entries fuel fd path s = Ret () (mkLs w buf (printed s ++ omap (line_of path) (rest (world s)))).
Proof.
  intros Hk. revert s. induction fuel as [|fuel IH]; intros s Hb Hf Hd; [lia|]. cbn [ls_entries]. unfold call at 1, bind at 1.
  pose proof (cl_read Hc (world s)) as Hr. destruct (rest (world s)) as [|de des] eqn:Er.
  { rewrite (proj2 (Nat.eqb_neq _ _) Hr). cbn [negb omap list_omap]. rewrite app_nil_r. by eexists _, _. }
  destruct Hr as [-> Hr]. apply Forall_cons in Hd as [[Hl Hs] Hd]. cbn [length] in Hf. rewrite (proj2 (Nat.eqb_eq _ _) Hl). cbn [negb omap list_omap].
  assert (forall w buf out, rest w = des -> buf_ok buf -> exists w' buf',
    ls_entries fuel fd path (mkLs w buf out) = Ret () (mkLs w' buf' (out ++ omap (line_of path) des))) as IH'.
  { intros w buf out' Hw Hb'. destruct (IH (mkLs w buf out')) as (w' & buf' & E); cbn [world name_buf printed] in *; rewrite ?Hw in *; [done|lia|done|eauto]. }
  fold (de_inum de) (de_name de). unfold line_of at 1. destruct (de_inum de =? 0); [by apply IH'|].
  unfold call at 1, bind at 1. destruct (cl_stat Hc (path ++ [SLASH] ++ de_name de) (read fd 16 (world s)).2) as [Es Ht]. cbn [world name_buf printed]. rewrite Es.
  rewrite Hr in Ht. destruct (known (path ++ [SLASH] ++ de_name de)) as [st|] eqn:Ek.
  - assert (Forall (fun c => c <> SLASH /\ c <> 0) (de_name de)) as Hn by (apply Forall_and; split; [done|apply c_string_nz]).
    edestruct (entry_case_run (mkLs (stat (path ++ [SLASH] ++ de_name de) (read fd 16 (world s)).2).2 (name_buf s) (printed s)) path (de_name de) st)
      as (w & buf & E & Hb' & Hw); [done|by eapply Hk|done|]. rewrite E. cbn [printed world] in *.
    destruct (IH' w buf (printed s ++ [entry_of (de_name de) st])) as (w' & buf' & E2); [congruence|done|]. exists w', buf'. by rewrite E2, <- app_assoc.
  - unfold print. rewrite bind_modify. cbn [world name_buf printed].
    destruct (IH' (stat (path ++ [SLASH] ++ de_name de) (read fd 16 (world s)).2).2 (name_buf s) (printed s ++ [Cannot_stat (path ++ [SLASH] ++ de_name de)]))
      as (w' & buf' & E2); [done|done|]. exists w', buf'. by rewrite E2, <- app_assoc.
Qed.
End listing.

(** A directory with a free record and a file [ab] of 5 KB. *)
Definition demo_stat : ustat := mkUstat 2 7 5120 60 [114].
#[local] Instance demo_calls : Calls (list (list Z)) := {|
  open _ _ w := (3, w); fstat _ w := (Some (mkUstat 1 1 512 63 [114]), w);
  read _ _ w := (default [] (head w), tail w); stat _ w := (Some demo_stat, w);
  close _ w := w; malloc n w := (Some (replicate n 0), w); free _ w := w |}.
Definition demo_dir : list (list Z) := [replicate 16 0; [7; 0; 97; 98] ++ replicate 12 0].

Lemma demo_calls_ok : calls_ok 3 id (fun _ => Some demo_stat).
Proof.
  split; [intros [|de des]; done|done| |done]. intros n w. split; [|done]. eexists. split; [done|]. apply length_replicate.
Qed.

Example demo_ls : ls 5 [46] (mkLs demo_dir (replicate 15 0) []) =
  Ret () (mkLs [] ([97; 98] ++ replicate 12 SPACE ++ [0])
    [Entry ([97; 98] ++ replicate 12 SPACE) 45 (printstat_perm 60) 2 7 (Some [53; 75; 66]) [114]]).
Proof. vm_compute. reflexivity. Qed.
