(* ===== verification/QueueTest.v ===== *)
(** * The queue of the scheduler experiment

    src/test/queuetest.c: a queue of at most [NPROC] elements in a circular
    array.  It implements a bounded list, and [printQueue] prints that list. *)

From S2P Require Import Prelude.
Open Scope Z_scope.

Definition NPROC : Z := 5.

Record queue := mkQueue { arr : list Z; head : Z; tail : Z; num : Z }.

Definition initQueue (q : queue) : queue := mkQueue (arr q) 0 0 0.

(** The element, or -1. *)
Definition dequeue (q : queue) : Z * queue :=
  if num q <? 1 then (-1, q)
  else if num q =? 1 then
    let elem := arr q !!! Z.to_nat (head q) in
    (elem, initQueue q)
  else
    let elem := arr q !!! Z.to_nat (head q) in
    (elem, mkQueue (arr q) (if head q =? NPROC - 1 then 0 else head q + 1) (tail q) (num q - 1)).

Definition enqueue (q : queue) (elem : Z) : queue :=
  let push (q : queue) := mkQueue (<[Z.to_nat (tail q) := elem]> (arr q)) (head q) (tail q) (num q + 1) in
  if num q =? 0 then push (initQueue q)
  else if num q =? NPROC then q
  else push (mkQueue (arr q) (head q) (if tail q =? NPROC - 1 then 0 else tail q + 1) (num q)).

(** The loop of [printQueue]: the elements it prints before the last one. *)
Fixpoint print_loop (fuel : nat) (q : queue) (i : Z) : option (list Z) :=
  match fuel with
  | O => None
  | S fuel' =>
      if negb (i =? tail q) then
        if (i =? NPROC) && (tail q =? 0) then Some []
        else
          let i := if i =? NPROC then 0 else i in
          match print_loop fuel' q (i + 1) with
          | None => None
          | Some l => Some (arr q !!! Z.to_nat i :: l)
          end
      else Some []
  end.

Definition printQueue (fuel : nat) (q : queue) : option (list Z) :=
  match print_loop fuel q (head q) with
  | None => None
  | Some l => Some (l ++ (if 0 <? num q then [arr q !!! Z.to_nat (tail q)] else []))
  end.

(** ** The list it stands for *)

(** Element [k] from the head. *)
Definition slot (q : queue) (k : Z) : Z := arr q !!! Z.to_nat ((head q + k) mod NPROC).
Definition elements (q : queue) : list Z := slot q <$> seqZ 0 (num q).

Record queue_ok (q : queue) : Prop := {
  qo_arr : length (arr q) = Z.to_nat NPROC;
  qo_num : 0 <= num q <= NPROC;
  qo_head : 0 <= head q < NPROC;
  qo_tail : tail q = if num q =? 0 then head q else (head q + num q - 1) mod NPROC }.

Lemma next_mod i : 0 <= i < NPROC -> (if i =? NPROC - 1 then 0 else i + 1) = (i + 1) mod NPROC.
Proof. unfold NPROC. intros Hi. destruct (Z.eqb_spec i (5 - 1)) as [->|]; [done|]. rewrite Z.mod_small; lia. Qed.

Lemma length_elements q : queue_ok q -> length (elements q) = Z.to_nat (num q).
Proof. intros. unfold elements. by rewrite length_fmap, length_seqZ. Qed.

Lemma initQueue_ok q : length (arr q) = Z.to_nat NPROC -> queue_ok (initQueue q) /\ elements (initQueue q) = [].
Proof. intros. split; [|done]. by split. Qed.

(** [dequeue] takes the first element away. *)
Lemma dequeue_refines q : queue_ok q ->
  match elements q with
  | [] => dequeue q = (-1, q)
  | x :: l => exists q', dequeue q = (x, q') /\ queue_ok q' /\ elements q' = l
  end.
Proof.
  intros [H1 H2 H3 H4]. unfold elements, dequeue. destruct (Z.ltb_spec (num q) 1) as [Hlt|Hge].
  { by replace (num q) with 0 by lia. }
  rewrite seqZ_cons by lia. cbn [fmap list_fmap]. replace (slot q 0) with (arr q !!! Z.to_nat (head q)) by (unfold slot; by rewrite Z.add_0_r, Z.mod_small).
  destruct (Z.eqb_spec (num q) 1) as [E|E].
  - rewrite E. exists (initQueue q). split; [done|]. by apply initQueue_ok.
  - rewrite next_mod by done. eexists. split; [reflexivity|]. unfold NPROC in *. split.
    + split; cbn [arr head tail num]; [done|unfold NPROC; lia|by apply Z.mod_pos_bound|]. rewrite H4. replace (num q =? 0) with false by lia. replace (num q - 1 =? 0) with false by lia.
      unfold NPROC. replace ((head q + 1) mod 5 + (num q - 1) - 1) with ((head q + 1) mod 5 + (num q - 2)) by lia. rewrite Zplus_mod_idemp_l. f_equal. lia.
    + unfold slot. cbn [arr head num]. change (Z.succ 0) with (0 + 1). replace (Z.pred (num q)) with (num q - 1) by lia.
      rewrite <- (fmap_add_seqZ 1 0), <- list_fmap_compose. apply list_fmap_ext. intros i k _. cbn. rewrite Zplus_mod_idemp_l. do 3 f_equal. lia.
Qed.

(** [enqueue] puts an element at the end, unless the queue is full. *)
Lemma enqueue_refines q x : queue_ok q ->
  queue_ok (enqueue q x) /\ elements (enqueue q x) = if num q =? NPROC then elements q else elements q ++ [x].
Proof.
  intros [H1 H2 H3 H4]. unfold enqueue. destruct (Z.eqb_spec (num q) 0) as [E|E].
  { cbn [num tail arr head initQueue]. rewrite E. split; [by split; cbn; rewrite ?length_insert|]. unfold elements, slot. cbn [num arr head]. rewrite E.
    change (seqZ 0 (0 + 1)) with [0]. change (seqZ 0 0) with (@nil Z). cbn [fmap list_fmap app]. change (Z.to_nat ((0 + 0) mod NPROC)) with 0%nat.
    f_equal. apply list_lookup_total_insert_eq. rewrite H1. unfold NPROC. lia. }
  destruct (Z.eqb_spec (num q) NPROC) as [E'|E']; [split; [|done]; by split; rewrite ?(proj2 (Z.eqb_neq _ _) E)|]. cbn [arr head tail num]. unfold NPROC in H2, E'.
  assert (0 <= tail q < NPROC) as Ht by (rewrite H4; replace (num q =? 0) with false by lia; apply Z.mod_pos_bound; done).
  assert ((if tail q =? NPROC - 1 then 0 else tail q + 1) = (head q + num q) mod NPROC) as Et.
  { rewrite next_mod by done. rewrite H4. replace (num q =? 0) with false by lia. rewrite Zplus_mod_idemp_l. f_equal. lia. }
  rewrite Et. pose proof (Z.mod_pos_bound (head q + num q) NPROC ltac:(done)) as Hb. split.
  - split; cbn [arr head tail num]; rewrite ?length_insert; [done|unfold NPROC; lia|done|]. replace (num q + 1 =? 0) with false by lia. f_equal. lia.
  - unfold elements. cbn [num]. rewrite seqZ_app by lia. rewrite fmap_app. unfold slot. cbn [arr head Z.add]. f_equal.
    + apply list_fmap_ext. intros i k Hk. apply lookup_seqZ in Hk as [-> Hk]. apply list_lookup_total_insert_ne.
      pose proof (Z.mod_pos_bound (head q + (0 + Z.of_nat i)) NPROC ltac:(done)). intros F%Z2Nat.inj; [|lia..]. unfold NPROC in *.
      pose proof (Z.div_mod (head q + num q) 5 ltac:(done)). pose proof (Z.div_mod (head q + (0 + Z.of_nat i)) 5 ltac:(done)). lia.
    + rewrite seqZ_cons, seqZ_nil by lia. cbn [fmap list_fmap]. f_equal. change (0 + num q) with (num q). apply list_lookup_total_insert_eq. rewrite H1. lia.
Qed.

(** ** Printing *)

(** The loop stands at element [k]; [i] is its place, or [NPROC] for place 0. *)
Lemma print_loop_run n fuel q i k : queue_ok q -> 0 <= k -> num q - 1 - k = Z.of_nat n -> (n < fuel)%nat ->
  (i = (head q + k) mod NPROC \/ (i = NPROC /\ (head q + k) mod NPROC = 0)) ->
  print_loop fuel q i = Some (slot q <$> seqZ k (Z.of_nat n)).
Proof.
  intros [H1 H2 H3 H4]. revert fuel i k.
  unfold slot, NPROC in *. induction n as [|n IH]; intros [|fuel] i k Hk Hn Hf Hi; try lia; cbn [print_loop]; replace (num q =? 0) with false in H4 by lia.
  - replace (head q + num q - 1) with (head q + k) in H4 by lia. rewrite <- H4 in Hi. cbn. unfold NPROC. destruct Hi as [-> | [-> Hz]].
    + by rewrite Z.eqb_refl.
    + rewrite Hz. done.
  - pose proof (Z.div_mod (head q + k) 5 ltac:(done)) as Ek. pose proof (Z.mod_pos_bound (head q + k) 5 ltac:(done)) as Bk.
    pose proof (Z.div_mod (head q + num q - 1) 5 ltac:(done)). pose proof (Z.mod_pos_bound (head q + num q - 1) 5 ltac:(done)).
    pose proof (Z.div_mod (head q + (k + 1)) 5 ltac:(done)). pose proof (Z.mod_pos_bound (head q + (k + 1)) 5 ltac:(done)).
    assert ((head q + k) mod 5 <> tail q) as Hne by lia. unfold NPROC. rewrite seqZ_cons by lia. replace (Z.pred (Z.of_nat (S n))) with (Z.of_nat n) by lia. cbn [fmap list_fmap].
    replace (i =? tail q) with false by lia. cbn [negb]. destruct (Z.eqb_spec i 5) as [E5|E5].
    + replace (tail q =? 0) with false by lia. cbn [andb]. rewrite (IH fuel (0 + 1) (Z.succ k)); [|lia..|left; lia]. do 2 f_equal. f_equal. lia.
    + cbn [andb]. rewrite (IH fuel (i + 1) (Z.succ k)); [|lia..|]. { do 2 f_equal. f_equal. lia. }
      change (Z.succ k) with (k + 1). lia.
Qed.

(** [printQueue] ends and prints the elements in order. *)
Lemma printQueue_elements q : queue_ok q -> printQueue 5 q = Some (elements q).
Proof.
  intros Hq. pose proof Hq as [H1 H2 H3 H4]. unfold printQueue, elements. destruct (Z.ltb_spec 0 (num q)) as [Hp|Hp].
  - rewrite (print_loop_run (Z.to_nat (num q - 1)) 5 q (head q) 0); [|done|lia|lia|unfold NPROC in *; lia|left; by rewrite Z.add_0_r, Z.mod_small].
    f_equal. replace (seqZ 0 (num q)) with (seqZ 0 (num q - 1) ++ seqZ (0 + (num q - 1)) 1) by (rewrite <- seqZ_app by lia; f_equal; lia).
    rewrite Z2Nat.id, fmap_app by lia. f_equal. rewrite seqZ_cons, seqZ_nil by lia. cbn [fmap list_fmap]. f_equal. unfold slot. rewrite H4.
    replace (num q =? 0) with false by lia. do 3 f_equal. lia.
  - replace (num q) with 0 in * by lia. cbn [Z.eqb] in H4. cbn [print_loop]. rewrite H4, Z.eqb_refl. done.
Qed.
